(* ===== verification/_CoqProject ===== *)
-Q . S2P
Prelude.v
Effects.v
Core.v
Decimal.v
Schema.v
Change.v
Mapping.v
Batch.v
Copy.v
Sql.v
Source.v
Wal.v
TargetSchema.v
Checkpoint.v
Apply.v
Normalize.v
Fold.v
Refine.v
Pipeline.v
Telemetry.v
PgOutput.v
Sink.v
Replicate.v
EndToEnd.v
Settings.v
Planning.v
Catalog.v
Publication.v
SlotSnapshot.v
Ddl.v
Store.v
Supervisor.v
Reconciler.v
Snapshot.v
Manifest.v
Load.v
Activation.v
Cleanup.v
Errors.v
Setup.v
Job.v
JobSlots.v
JobRun.v
JobRebuild.v
JobInvariant.v
Auth.v
Api.v
Citus.v
Digest.v
Config.v
App.v
Deadline.v
