(* ===== verification/Prelude.v ===== *)
(** * Verification of the PostgreSQL to Cloudberry replication engine

    The program keeps tables of an Apache Cloudberry database in step with tables of a
    PostgreSQL server.  It reads the server's logical replication stream (pgoutput), assembles
    committed transactions, batches them, reduces the row changes of a batch to at most one
    staging row per row of the target, and applies the staging rows together with the new
    checkpoint in one transaction of the target, guarded by a fencing token.  Only then does it
    tell the server that the position is durable.

    ** Parts

    Sources are under [src/crates/].  A file of the development holds the data, the operations
    and the theorems of one part; names are the source's, with the type's name in front where
    two types share a method name.

    - [Prelude] (this file): the result monad with panics, traversals, machine integers as [Z]
      with their saturating operations, stable sorting, positions in lists, strings.
    - [Core], [Schema], [Change] - [core/src/{error,lsn,schema,change}.rs]: log positions with
      their text form, table schemas, row changes and transactions.
    - [Decimal], [Source] - unsigned decimal parsing; [source-postgres/src/{error,sql,ddl}.rs]:
      source errors, quoting, DDL messages.
    - [Wal] - [source-postgres/src/wal.rs]: the decoder of pgoutput messages and the assembler
      of transactions.
    - [Batch] - [engine/src/batch.rs]: the batcher.
    - [Sql], [Copy], [TargetSchema] - [target-cloudberry/src/{sql,copy,schema}.rs]: quoting,
      the COPY text format, target tables and types.
    - [Checkpoint] - [target-cloudberry/src/checkpoint.rs]: fences and node checkpoints, on the
      metadata tables as finite maps.
    - [Apply] - [target-cloudberry/src/apply.rs]: the apply plan with the text of its
      statements, the encoding of staging rows, and what the statements do to a table.
    - [Normalize] - [engine/src/normalize.rs]: the normalizer.  [Fold] states what a source
      table does and proves the normalizer's invariant against it; [Refine] proves the
      staging rows against the apply statements.
    - [Pipeline] - [engine/src/pipeline.rs]: errors, phases, and the interfaces
      [TransactionSource] and [TransactionSink] as classes with their laws.
    - [Telemetry] - [engine/src/telemetry.rs]: the telemetry handle.
    - [PgOutput] - [engine/src/adapters/pgoutput.rs]: the pgoutput source, an instance of
      [TransactionSource].
    - [Sink] - [engine/src/adapters/cloudberry.rs] and [execute_apply]: bindings, requests and
      the Cloudberry sink on its connection, with what the driver refuses and loses.
    - [Replicate] - the replication loop of [engine/src/pipeline.rs], over any source and sink.
    - [EndToEnd] - the Cloudberry sink as an instance of [TransactionSink], and the loop with it.
    - [Mapping], [Settings], [Planning] - [core/src/mapping.rs] and
      [engine/src/runtime/{settings,planning}.rs]: names of target tables, the validation of a
      pipeline's settings, and the plan of its tables with their fingerprints.
    - [Catalog], [Publication], [SlotSnapshot], [Ddl], [Citus] -
      [source-postgres/src/{catalog,publication,snapshot_slot,snapshot,ddl,citus}.rs]: the
      source server as the answers of its catalogs, the checks before a start, types and tables,
      publications and slots, the guard of an exported snapshot, the installation of the DDL
      capture, and the metadata Citus adds to tables.
    - [Store] - [metadata/src/{store,model,migration}.rs]: profiles, pipelines, rebuild requests
      and leases of the control database, as transactions and conditional updates on its tables.
    - [Supervisor], [Reconciler] - [engine/src/supervisor.rs] and
      [engine/src/runtime/reconciler.rs]: the tasks of a process, and the loop that acquires
      and renews leases, starts, replaces and stops pipelines, with its effects and their
      answers as an explicit trace; [Deadline]: the task that cancels a job whose lease is about
      to end.
    - [Snapshot], [Manifest], [Load], [Activation], [Cleanup] -
      [target-cloudberry/src/snapshot.rs] and [snapshot/{manifest,activation,cleanup}.rs]: the
      target database with its metadata tables, the registration of a snapshot group, the load
      of one shadow table, the atomic activation of the group, and the removal of interrupted
      loads and of quarantined tables.
    - [Errors], [Setup], [Job], [JobSlots], [JobRun], [JobRebuild], [JobInvariant] -
      [engine/src/runtime/{job,connection}.rs], [metadata/src/crypto.rs] and
      [target-cloudberry/src/migration.rs]: the texts of errors, credentials and the target's
      migrations, the preparation of a run by an initial snapshot or a resumption, the run
      itself with its monitor, when it requests a rebuild, and two invariants that relate the
      slot on the source to the checkpoint on the target.
    - [Auth], [Api] - [api/src/{auth,error,routes,state}.rs]: sessions and logins, the route
      table, the handlers over the store and the supervisor, and the metrics.
    - [Digest] - [engine/src/reconcile.rs]: the bytes that are hashed for a chunk of rows and
      the comparison of two chunks.
    - [Config], [App] - [config/src/bootstrap.rs] and [app/src/main.rs]: the configuration with
      its checks, the commands, the start of the service and the supervision of its two tasks.

    ** How state and effects are modelled

    A Rust [Result] is [result]: [Ok], [Err], or [Panic] for an index out of range, an
    [expect] or a [truncate] that panics; theorems show where panics cannot happen.  A method
    on [&mut self] returns the new value next to its result, also when it fails.  A database
    transaction is a function from the database to a result whose [Err] carries no database:
    that is the rollback.  Asynchrony is explicit: the loop is a function of a schedule that
    says which branch of each [select!] is ready and where a cancellation hits, and a dropped
    fetch is an operation of its own.  An operation that makes several calls to other systems is
    an effect ([Effects.Eff]) on a world: each call takes the next answer of the environment,
    which says what others did before it, whether it is refused, and whether its reply is lost
    after it was executed.  The transport, JSON decoding, clocks and the rendering of foreign
    errors are arguments.

    The statements of an apply plan are modelled twice: as the text the code renders, and as
    what that text does to a table, a finite map from primary keys to rows.  The second reads
    the first by hand and assumes that two key values are equal when their text is.  Any
    statement may be refused besides - a value that does not convert, a constraint, a lost
    connection - by an argument of the transaction ([ApplyDriver] for a batch, [refused]
    elsewhere), and the reply to a COMMIT may be lost with the COMMIT executed or not.

    ** What is proved

    - Values: positions, literals, identifiers, COPY rows and staging rows survive their text
      forms; the staging table's columns never clash ([Core], [Sql], [Copy], [Apply]).
    - The stream: decoder and assembler keep to the protocol and its limits, a frame assembles
      to its transaction, batching loses and reorders nothing ([Wal], [Batch]).
    - Row semantics: [Refine] shows that a batch's staging rows do to the target what the
      source did, except for one sequence that is reported; applying twice is idempotent unless
      a key is reused.
    - Checkpoints: an advance is accepted exactly when it is admissible, is what is loaded
      afterwards, and never comes from a superseded owner ([Checkpoint]).
    - The sink: a batch is applied whole or not at all, an admissible one whenever the database
      lets it, one that needs schema orchestration never ([Sink]).
    - The source: fetching is complete and cancel-safe, feedback reports only acknowledged
      positions ([PgOutput]).
    - The loop: under every schedule only applied positions are acknowledged and the received
      stream is committed in order; the target is always a source state that its checkpoint
      names ([Replicate], [EndToEnd]).
    - Processes: a lease is exclusive, tasks are unique in a process, and whatever several
      reconcilers meet, two of them never run the same pipeline under valid leases; a job is
      cancelled at its lease's deadline and not before ([Store], [Supervisor], [Reconciler],
      [Deadline]).
    - Plans: accepted settings are operational, planned tables do not collide, a fingerprint
      identifies a portable schema ([Settings], [Planning], [Mapping]).
    - Snapshots: a registered group is loaded as it was registered; a committed load is exactly
      the stream; an activation makes the shadows the targets, keeps every replaced table and
      loses nothing; it can be retried and resumed; cleanup and collection destroy only what
      the records prove to be theirs ([Manifest], [Load], [Activation], [Cleanup]).  The
      central device is the list of moves of [Activation]: renames between distinct names,
      whose composite effect is read off without replaying them.
    - The source server: an inspection reads every column of the scope, resolving a type ends,
      an ensured publication lists exactly its tables, an exported snapshot lives until every
      reader has it, an installed capture is current, Citus tables are keyed by their
      distribution; and what is lost of a column's type ([Catalog],
      [Publication], [SlotSnapshot], [Ddl], [Citus]).
    - The job: a first run never leaves a checkpoint without its slot, the slot never passes the
      checkpoint, a run resumes only what the servers can serve and asks for a rebuild exactly
      when they cannot; a restart under a new lease is always refused ([JobSlots],
      [JobInvariant], [JobRebuild], [Job]).
    - The API: requests need a live session, answers never depend on stored credentials, a
      command changes one pipeline, and what the limit on logins does and does not prevent
      ([Auth], [Api]).
    - The service: an accepted configuration starts, both tasks end together, a database that was
      migrated is accepted, and which accepted durations cannot work ([App]); chunks match
      exactly when they are equal, up to a clash of hashes ([Digest]).
    - The telemetry, including a long error text that makes the handle panic ([Telemetry]).

    ** Bounds and fuel

    Recursion is structural except for these: [Lsn.hex_loop] has fuel 16, one per hexadecimal
    digit of a 64-bit value; [find_control_prefix] tries one more prefix than the table has
    columns, enough because distinct prefixes cannot all be taken; [resolve_type] has one level
    more than there are type descriptors, enough on every catalog without a cycle (out of fuel is
    [Panic], the overflow of the stack); [distribution_loop] has one turn more than its text has
    characters, enough because a turn consumes some; [blank_within] and [trim_start_within]
    have the length of their text.  Integers are
    [Z]; the bounds that matter are hypotheses ([Lsn.valid], [typed], [limits_ok]) or follow
    from saturation.  The timer's delay is not modelled: its branch may be ready whenever the
    batcher holds something.

    ** Not modelled

    In the snapshot files a transaction runs alone: the row lock on the fence serializes those
    of a pipeline, and transactions of other pipelines touch other rows.  Between the calls of a
    job or of a handler others act freely, but a call is atomic.  The scripts of the migrations
    are data, and the PL/pgSQL functions of the DDL capture are text: what they emit is not
    derived from it.  What the loop records in the telemetry reaches the handle as a change by
    others.  Left to
    the libraries and systems that do it: TOML, JSON and HTTP, connections, pools and TLS, the
    driver's replication stream, the command line and signals, logging, base64, Argon2,
    XChaCha20 and SHA-256, and the generation of identifiers.  [Debug] renderings that only
    reach logs, accessors and constructors that store their arguments are not listed one by
    one. *)

From stdpp Require Export base gmap strings list fin_maps sorting pretty.
From Stdlib Require Export Strings.Ascii Strings.Byte ZArith Lia.
From Stdlib Require Import Sorting.Sorted.

(** ** The outcome of a fallible computation *)

(** Rust's [Result<A, E>] together with the third way a call can end: a panic (an index
    out of range, an [expect] on [None]).  Keeping panics apart from [Err] lets the
    absence of panics be a theorem. *)
Inductive result (E A : Type) : Type :=
| Ok (a : A)
| Err (e : E)
| Panic.
Global Arguments Ok {E A} a.
Global Arguments Err {E A} e.
Global Arguments Panic {E A}.

Global Instance result_ret {E} : MRet (result E) := fun A a => Ok a.
Global Instance result_bind {E} : MBind (result E) := fun A B f m =>
  match m with
  | Ok a => f a
  | Err e => Err e
  | Panic => Panic
  end.
Global Instance result_fmap {E} : FMap (result E) := fun A B f m =>
  match m with
  | Ok a => Ok (f a)
  | Err e => Err e
  | Panic => Panic
  end.

Global Instance result_eq_dec {E A} `{EqDecision E, EqDecision A} : EqDecision (result E A).
Proof. solve_decision. Defined.

(** [Result::map_err]. *)
Definition map_err {E F A} (f : E -> F) (m : result E A) : result F A :=
  match m with
  | Ok a => Ok a
  | Err e => Err (f e)
  | Panic => Panic
  end.

(** [Option::ok_or]. *)
Definition ok_or {E A} (o : option A) (e : E) : result E A :=
  match o with
  | Some a => Ok a
  | None => Err e
  end.

(** [Option::expect], and slice indexing through [v !! i]. *)
Definition expect {E A} (o : option A) : result E A :=
  match o with
  | Some a => Ok a
  | None => Panic
  end.

(** [if c { return Err(e) }]. *)
Definition reject_if {E} (c : bool) (e : E) : result E unit :=
  if c then Err e else Ok tt.

Definition is_ok {E A} (m : result E A) : bool :=
  match m with Ok _ => true | _ => false end.

Definition is_err {E A} (m : result E A) : bool :=
  match m with Err _ => true | _ => false end.

Declare Scope etl_scope.
Delimit Scope etl_scope with etl.
Notation "'let?' x ':=' c 'in' k" := (mbind (M := result _) (fun x => k) c)
  (at level 10, x binder, c at level 100, k at level 200,
   format "'let?'  x  ':='  c  'in' '//' k") : etl_scope.
Notation "'check!' c 'else' e ';;' k" := (if (c : bool) then k else Err e)
  (at level 10, c at level 100, e at level 100, k at level 200) : etl_scope.
Global Open Scope etl_scope.

Create HintDb etl discriminated.
Create HintDb etl_rw.

Section result_lemmas.
Context {E A B : Type}.
Implicit Types (m : result E A) (f : A -> result E B).

Lemma bind_Ok m f b : mbind f m = Ok b <-> exists a, m = Ok a /\ f a = Ok b.
Proof. destruct m; cbn; naive_solver. Qed.

Lemma bind_Err m f e :
  mbind f m = Err e <-> m = Err e \/ exists a, m = Ok a /\ f a = Err e.
Proof. destruct m; cbn; naive_solver. Qed.

Lemma bind_Panic m f :
  mbind f m = Panic <-> m = Panic \/ exists a, m = Ok a /\ f a = Panic.
Proof. destruct m; cbn; naive_solver. Qed.

Lemma ok_or_Ok (o : option A) (e : E) a : ok_or o e = Ok a <-> o = Some a.
Proof. destruct o; cbn; naive_solver. Qed.

Lemma expect_Ok (o : option A) a : expect (E := E) o = Ok a <-> o = Some a.
Proof. destruct o; cbn; naive_solver. Qed.

Lemma map_err_Ok {F} (g : E -> F) m a : map_err g m = Ok a <-> m = Ok a.
Proof. destruct m; cbn; naive_solver. Qed.
End result_lemmas.

(** Destructs every bind that is known to have succeeded. *)
Ltac res_inv :=
  repeat match goal with
  | H : mbind _ _ = Ok _ |- _ =>
      apply bind_Ok in H; let a := fresh "v" in let Ha := fresh "H" in
      destruct H as (a & Ha & H)
  | H : map_err _ _ = Ok _ |- _ => apply map_err_Ok in H
  | H : ok_or _ _ = Ok _ |- _ => apply ok_or_Ok in H
  | H : expect _ = Ok _ |- _ => apply expect_Ok in H
  | H : reject_if ?c _ = Ok _ |- _ =>
      unfold reject_if in H; let Hc := fresh "Hc" in destruct c eqn:Hc; [discriminate H|]
  | H : (if ?c then Err _ else _) = Ok _ |- _ =>
      let Hc := fresh "Hc" in destruct c eqn:Hc; [discriminate H|]
  | H : (if ?c then _ else Err _) = Ok _ |- _ =>
      let Hc := fresh "Hc" in destruct c eqn:Hc; [|discriminate H]
  | H : Ok _ = Ok _ |- _ => injection H; clear H; intros; try subst
  | H : Err _ = Ok _ |- _ => discriminate H
  | H : Panic = Ok _ |- _ => discriminate H
  | H : mret _ = Ok _ |- _ => unfold mret, result_ret in H
  end.

(** [iter().map(f).collect::<Result<Vec<_>, _>>()]. *)
Fixpoint try_map {E A B} (f : A -> result E B) (l : list A) : result E (list B) :=
  match l with
  | [] => Ok []
  | x :: l =>
      let? y := f x in
      let? k := try_map f l in
      Ok (y :: k)
  end.

Section try_map_lemmas.
Context {E A B : Type} (f : A -> result E B).

Lemma try_map_Ok l k : try_map f l = Ok k <-> Forall2 (fun x y => f x = Ok y) l k.
Proof.
  split.
  - revert k. induction l as [|x l IH]; cbn; intros k H; res_inv.
    + constructor.
    + constructor; auto.
  - induction 1 as [|x y l k Hx _ IH]; cbn; [done|]. by rewrite Hx; cbn; rewrite IH.
Qed.

Lemma try_map_all_Ok l :
  (forall x, x ∈ l -> exists y, f x = Ok y) -> exists k, try_map f l = Ok k.
Proof.
  induction l as [|x l IH]; intros H; cbn; [by eexists|].
  destruct (H x) as [y ->]; [by left|]. destruct IH as [k ->]; [|by eexists].
  intros z Hz. apply H. by right.
Qed.

Lemma try_map_Panic l : try_map f l = Panic -> exists x, x ∈ l /\ f x = Panic.
Proof.
  induction l as [|x l IH]; cbn; [done|].
  rewrite bind_Panic. intros [H|(y & _ & H)]; [by exists x; split; [left|]|].
  apply bind_Panic in H as [H|(? & _ & H)]; [|done].
  destruct (IH H) as (z & Hz & ?). exists z; split; [by right|done].
Qed.

Lemma try_map_Err l e : try_map f l = Err e -> exists x, x ∈ l /\ f x = Err e.
Proof.
  induction l as [|x l IH]; cbn; [done|].
  rewrite bind_Err. intros [H|(y & _ & H)]; [by exists x; split; [left|]|].
  apply bind_Err in H as [H|(? & _ & H)]; [|done].
  destruct (IH H) as (z & Hz & ?). exists z; split; [by right|done].
Qed.
End try_map_lemmas.

(** ** Left folds that can fail: a [for] loop whose body uses [?] *)
Fixpoint foldM {E A S} (f : S -> A -> result E S) (s : S) (l : list A) : result E S :=
  match l with
  | [] => Ok s
  | x :: l => let? s := f s x in foldM f s l
  end.

Section foldM_lemmas.
Context {E A S : Type} (f : S -> A -> result E S).

Lemma foldM_app s l k : foldM f s (l ++ k) = (let? s := foldM f s l in foldM f s k).
Proof. revert s; induction l as [|x l IH]; intros s; cbn; [done|]. by destruct (f s x); cbn. Qed.

(** The induction principle of a loop invariant: [P] tracks the prefix consumed. *)
Lemma foldM_ind (P : list A -> S -> Prop) s l s' :
  P [] s ->
  (forall done x s1 s2, P done s1 -> x ∈ l -> f s1 x = Ok s2 -> P (done ++ [x]) s2) ->
  foldM f s l = Ok s' -> P l s'.
Proof.
  intros H0 Hstep.
  enough (forall pre l', (forall x, x ∈ l' -> x ∈ l) -> forall s, P pre s ->
            foldM f s l' = Ok s' -> P (pre ++ l') s') as H.
  { intros Hf. eapply (H [] l); eauto. }
  intros pre l'. revert pre. induction l' as [|x l' IH]; intros pre Hin s1 HP Hf; cbn in Hf; res_inv.
  - by rewrite app_nil_r.
  - rewrite cons_middle, app_assoc. eapply (IH (pre ++ [x])); [| |exact Hf].
    + intros y Hy. apply Hin. by right.
    + eapply Hstep; eauto. apply Hin. by left.
Qed.
End foldM_lemmas.

(** A fold that ignores the positions of an enumerated list. *)
Lemma foldM_imap {E A S} (f : S -> A -> result E S) (g : nat -> nat) (h : S -> nat * A -> result E S) l s :
  (forall s ia, h s ia = f s ia.2) -> foldM h s (imap (fun i => pair (g i)) l) = foldM f s l.
Proof.
  intros Hh. revert g s. induction l as [|x l IH]; intros g s; [done|]. cbn [imap foldM].
  rewrite Hh. cbn [snd]. destruct (f s x) as [s'| |]; cbn; [|done..]. apply (IH (fun i => g (Datatypes.S i))).
Qed.

(** ** Bytes *)

Global Instance byte_eq_dec : EqDecision byte := Byte.byte_eq_dec.
Global Program Instance byte_countable : Countable byte :=
  inj_countable Byte.to_N Byte.of_N _.
Next Obligation. apply Byte.of_to_N. Qed.
Global Instance byte_inhabited : Inhabited byte := populate x00.

(** [bytes::Bytes] and [Vec<u8>]. *)
Notation bytes := (list byte).

Definition bytes_of_string : string -> bytes := String.list_byte_of_string.

(** The length of a slice, a Rust [usize]. *)
Definition len {A} (l : list A) : Z := Z.of_nat (length l).

(** The length in bytes of a Rust [String]; a [string] is its UTF-8 byte sequence. *)
Definition slen (s : string) : Z := Z.of_nat (String.length s).

Lemma len_nonneg {A} (l : list A) : (0 <= len l)%Z.
Proof. unfold len. lia. Qed.
Lemma len_app {A} (l k : list A) : len (l ++ k) = (len l + len k)%Z.
Proof. unfold len. rewrite length_app. lia. Qed.
#[export] Hint Resolve len_nonneg : etl.

(** ** Machine integers *)

Definition u64_max : Z := 2 ^ 64 - 1.
Definition i64_max : Z := 2 ^ 63 - 1.
Definition u32_max : Z := 2 ^ 32 - 1.
Definition usize_max : Z := u64_max.

(** [usize::saturating_add] and [u64::saturating_add]. *)
Definition saturating_add (a b : Z) : Z := Z.min (a + b) u64_max.

(** [u64::saturating_sub]. *)
Definition saturating_sub (a b : Z) : Z := Z.max (a - b) 0.

Lemma saturating_add_bound a b :
  (0 <= a -> 0 <= b -> 0 <= saturating_add a b <= u64_max)%Z.
Proof. unfold saturating_add. assert (0 <= u64_max)%Z by done. lia. Qed.
Lemma saturating_add_le a b m :
  (saturating_add a b <= m -> m < u64_max -> saturating_add a b = a + b)%Z.
Proof. unfold saturating_add. lia. Qed.

Fixpoint sum_Z (l : list Z) : Z :=
  match l with [] => 0%Z | x :: l => (x + sum_Z l)%Z end.

Lemma sum_Z_nonneg l : Forall (fun x => (0 <= x)%Z) l -> (0 <= sum_Z l)%Z.
Proof. induction 1; cbn; lia. Qed.
Lemma sum_Z_app l k : sum_Z (l ++ k) = (sum_Z l + sum_Z k)%Z.
Proof. induction l; cbn; lia. Qed.

(** A running total kept with [saturating_add]. *)
Definition saturating_sum (l : list Z) : Z := foldl saturating_add 0%Z l.

Lemma saturating_sum_snoc l x : saturating_sum (l ++ [x]) = saturating_add (saturating_sum l) x.
Proof. unfold saturating_sum. by rewrite foldl_app. Qed.

Lemma saturating_sum_map_snoc {A} (f : A -> Z) l x :
  saturating_sum (map f (l ++ [x])) = saturating_add (saturating_sum (map f l)) (f x).
Proof. rewrite map_app. apply saturating_sum_snoc. Qed.

Lemma saturating_sum_min l :
  Forall (fun x => (0 <= x)%Z) l -> saturating_sum l = Z.min (sum_Z l) u64_max.
Proof.
  assert (0 <= u64_max)%Z by done.
  induction l as [|x l IH] using rev_ind; intros H0; [done|].
  apply Forall_app in H0 as [H0 [Hx _]%Forall_cons].
  rewrite saturating_sum_snoc, IH, sum_Z_app by done. cbn. pose proof (sum_Z_nonneg l H0).
  unfold saturating_add. lia.
Qed.

Global Arguments saturating_sum : simpl never.
Global Arguments saturating_add : simpl never.
Global Arguments saturating_sub : simpl never.
Global Arguments len : simpl never.
Global Arguments slen : simpl never.
Global Arguments u64_max : simpl never.

(** ** Appending to a sorted list *)
Lemma Sorted_snoc {A} (R : A -> A -> Prop) l x :
  Sorted R l -> (forall y, last l = Some y -> R y x) -> Sorted R (l ++ [x]).
Proof.
  induction 1 as [|y l Hs IH Hhd]; intros Hlast; cbn; [by repeat constructor|].
  constructor.
  - apply IH. intros z Hz. apply Hlast. destruct l; [done|]. exact Hz.
  - destruct l as [|z l]; cbn; constructor; [by apply Hlast|]. by inversion Hhd.
Qed.

(** ** Stable sorting by a key: [slice::sort_by_key] *)
Section sort_by_key.
Context {A : Type} (key : A -> Z).

Fixpoint insert_by_key (x : A) (l : list A) : list A :=
  match l with
  | [] => [x]
  | y :: l => if (key x <=? key y)%Z then x :: y :: l else y :: insert_by_key x l
  end.

Fixpoint sort_by_key (l : list A) : list A :=
  match l with [] => [] | x :: l => insert_by_key x (sort_by_key l) end.

Definition key_le (x y : A) : Prop := (key x <= key y)%Z.

Lemma insert_by_key_perm x l : insert_by_key x l ≡ₚ x :: l.
Proof.
  induction l as [|y l IH]; cbn; [done|]. destruct (_ <=? _)%Z; [done|].
  rewrite IH. apply Permutation_swap.
Qed.

Lemma sort_by_key_perm l : sort_by_key l ≡ₚ l.
Proof. induction l as [|x l IH]; cbn; [done|]. by rewrite insert_by_key_perm, IH. Qed.

Lemma insert_by_key_sorted x l : Sorted key_le l -> Sorted key_le (insert_by_key x l).
Proof.
  induction 1 as [|y l Hs IH Hhd]; cbn; [by repeat constructor|].
  destruct (Z.leb_spec (key x) (key y)) as [Hle|Hlt].
  - by repeat constructor.
  - constructor; [done|]. inversion Hhd as [|z l' Hz]; subst; cbn.
    + constructor. unfold key_le. lia.
    + destruct (_ <=? _)%Z; constructor; unfold key_le in *; lia.
Qed.

Lemma sort_by_key_sorted l : Sorted key_le (sort_by_key l).
Proof. induction l; cbn; [constructor|by apply insert_by_key_sorted]. Qed.

(** Sorting a slice that is already in key order leaves it alone. *)
Lemma sort_by_key_id l : Sorted key_le l -> sort_by_key l = l.
Proof.
  induction 1 as [|x l Hs IH Hhd]; cbn; [done|]. rewrite IH.
  inversion Hhd as [|y l' Hy]; subst; cbn; [done|].
  unfold key_le in Hy. apply Z.leb_le in Hy. by rewrite Hy.
Qed.
End sort_by_key.

(** ** Positions: [iter().position] and [enumerate().find] *)
Fixpoint position {A} (p : A -> bool) (l : list A) : option nat :=
  match l with
  | [] => None
  | x :: l => if p x then Some 0%nat else S <$> position p l
  end.

Section position_lemmas.
Context {A : Type} (p : A -> bool).

Lemma position_Some l i :
  position p l = Some i ->
  exists x, l !! i = Some x /\ p x = true /\ (forall j y, j < i -> l !! j = Some y -> p y = false)%nat.
Proof.
  revert i. induction l as [|x l IH]; cbn; intros i H; [done|].
  destruct (p x) eqn:Hx.
  - injection H as <-. exists x. split_and!; [done..|]. intros; lia.
  - destruct (position p l) as [j|]; [|done]. injection H as <-.
    destruct (IH j eq_refl) as (y & Hy & Hp & Hlt). exists y. split_and!; [done..|].
    intros [|k] z Hk Hz; [by injection Hz as <-|]. eapply Hlt; [|exact Hz]. lia.
Qed.

Lemma position_None l : position p l = None -> forall x, x ∈ l -> p x = false.
Proof.
  induction l as [|y l IH]; cbn; intros H x Hx; [by apply elem_of_nil in Hx|].
  destruct (p y) eqn:Hy; [done|]. destruct (position p l); [done|].
  apply elem_of_cons in Hx as [->|Hx]; auto.
Qed.

Lemma position_is_Some l x : x ∈ l -> p x = true -> is_Some (position p l).
Proof.
  intros Hx Hp. destruct (position p l) eqn:E; [done|].
  by rewrite (position_None _ E x Hx) in Hp.
Qed.
End position_lemmas.

(** ** Option and list helpers the components share *)

Definition option_eqb {A} `{EqDecision A} (a b : option A) : bool := bool_decide (a = b).

Lemma last_snoc_inv {A} (l : list A) (x : A) : last (l ++ [x]) = Some x.
Proof. apply last_snoc. Qed.

Lemma Forall_last {A} (P : A -> Prop) l x : Forall P l -> last l = Some x -> P x.
Proof.
  intros HF Hl. apply last_Some_elem_of in Hl. rewrite Forall_forall in HF. auto.
Qed.

(** Strings by their first character. *)
Lemma string_app_cons c s t : String c s +:+ t = String c (s +:+ t).
Proof. done. Qed.
Lemma string_app_nil t : EmptyString +:+ t = t.
Proof. done. Qed.

(** A NUL character and membership of a character in a string. *)
Definition nul : Ascii.ascii := Ascii.Ascii false false false false false false false false.

Fixpoint contains_char (c : Ascii.ascii) (s : string) : bool :=
  match s with
  | EmptyString => false
  | String d s => bool_decide (c = d) || contains_char c s
  end.

Lemma contains_char_app c s t :
  contains_char c (s +:+ t) = contains_char c s || contains_char c t.
Proof.
  induction s as [|d s IH]; [done|].
  change (bool_decide (c = d) || contains_char c (s +:+ t)
    = bool_decide (c = d) || contains_char c s || contains_char c t).
  by rewrite IH, orb_assoc.
Qed.

(** ** Strings as byte sequences *)

(** [str::is_char_boundary]: the ends, and every byte that does not continue a character. *)
Definition is_char_boundary (s : string) (i : nat) : bool :=
  if bool_decide (i = 0)%nat || bool_decide (i = String.length s) then true
  else match String.get i s with
       | Some c => negb (Z.land (Z.of_nat (Ascii.nat_of_ascii c)) 0xC0 =? 0x80)%Z
       | None => false
       end.

Lemma string_length_app s t : String.length (s +:+ t) = (String.length s + String.length t)%nat.
Proof. induction s; cbn; [done|]. by rewrite string_app_cons, <-IHs. Qed.
Lemma substring_length n s : (n <= String.length s)%nat -> String.length (String.substring 0 n s) = n.
Proof. revert s. induction n; intros [|c s]; cbn; intros; try lia. f_equal. apply IHn. lia. Qed.
Lemma substring_app_exact s t : String.substring 0 (String.length s) (s +:+ t) = s.
Proof.
  induction s as [|c s IH]; [by destruct t|].
  rewrite string_app_cons. cbn. by rewrite IH.
Qed.
Lemma string_app_assoc s t u : (s +:+ t) +:+ u = s +:+ (t +:+ u).
Proof. induction s as [|c s IH]; [done|]. rewrite !string_app_cons. by f_equal. Qed.
Lemma string_app_inj_l s t u : s +:+ t = s +:+ u -> t = u.
Proof. induction s as [|c s IH]; [done|]. rewrite !string_app_cons. intros H. injection H. auto. Qed.
Lemma string_app_inj_len s s' t t' :
  s +:+ t = s' +:+ t' -> String.length s = String.length s' -> s = s' /\ t = t'.
Proof.
  revert s'. induction s as [|c s IH]; intros [|d s'] H Hl; try done.
  rewrite !string_app_cons in H. injection H as -> H. injection Hl as Hl.
  destruct (IH s' H Hl) as [-> ->]. done.
Qed.

(** Case analysis on the boolean tests of a definition. *)
Ltac destruct_ifs :=
  repeat match goal with
  | |- context [if ?b then _ else _] => let H := fresh "Hb" in destruct b eqn:H
  end.
