(* ===== verification/Effects.v ===== *)
(** * Effects that outlive failures

    The calls of a pipeline job change servers and databases one after the other; when one
    fails, what the earlier ones did remains.  A computation is therefore a function from the
    state to a result next to the new state, whatever the result.  [ensures] is its
    specification: a precondition, and a postcondition on the result and the state. *)

From S2P Require Import Prelude.

Definition Eff (S E A : Type) : Type := S -> result E A * S.

Section effects.
Context {S E : Type}.

Definition eff_ret {A} (a : A) : Eff S E A := fun s => (Ok a, s).
Definition eff_err {A} (e : E) : Eff S E A := fun s => (Err e, s).
Definition eff_bind {A B} (m : Eff S E A) (k : A -> Eff S E B) : Eff S E B := fun s =>
  match m s with
  | (Ok a, s) => k a s
  | (Err e, s) => (Err e, s)
  | (Panic, s) => (Panic, s)
  end.
(** A computation without effects. *)
Definition pure {A} (m : result E A) : Eff S E A := fun s => (m, s).
Definition get : Eff S E S := fun s => (Ok s, s).
Definition modify (f : S -> S) : Eff S E unit := fun s => (Ok tt, f s).
(** The result of [m] as a value; a panic is not caught. *)
Definition attempt {A} (m : Eff S E A) : Eff S E (result E A) := fun s =>
  match m s with
  | (Panic, s) => (Panic, s)
  | (r, s) => (Ok r, s)
  end.
(** A [for] loop whose body uses [?]. *)
Fixpoint each {A} (f : A -> Eff S E unit) (l : list A) : Eff S E unit :=
  match l with
  | [] => eff_ret tt
  | x :: l => eff_bind (f x) (fun _ => each f l)
  end.
End effects.

(** [?] with a conversion of the error. *)
Definition eff_map_err {S E F A} (f : E -> F) (m : Eff S E A) : Eff S F A := fun s =>
  let (r, s) := m s in (map_err f r, s).

(** A computation on a part of the state. *)
Definition zoom {S T E A} (part : S -> T) (put : T -> S -> S) (m : Eff T E A) : Eff S E A := fun s =>
  let (r, t) := m (part s) in (r, put t s).

Notation "'do!' x ':=' c 'in' k" := (eff_bind c (fun x => k))
  (at level 10, x binder, c at level 100, k at level 200,
   format "'do!'  x  ':='  c  'in' '//' k") : etl_scope.

(** ** Specifications *)

Definition ensures {S E A} (P : S -> Prop) (m : Eff S E A) (Q : result E A -> S -> Prop) : Prop :=
  forall s r s', P s -> m s = (r, s') -> Q r s'.

(** What holds in every state between the steps of [m]. *)
Definition preserves {S E A} (I : S -> Prop) (m : Eff S E A) : Prop := ensures I m (fun _ => I).

Section specifications.
Context {S E : Type}.
Implicit Types (P I : S -> Prop).

Lemma ensures_ret {A} P (a : A) Q : (forall s, P s -> Q (Ok a) s) -> ensures P (eff_ret (E := E) a) Q.
Proof. intros H s r s' Hs Hm. injection Hm as <- <-. auto. Qed.

Lemma ensures_err {A} P (e : E) (Q : result E A -> S -> Prop) :
  (forall s, P s -> Q (Err e) s) -> ensures P (eff_err e) Q.
Proof. intros H s r s' Hs Hm. injection Hm as <- <-. auto. Qed.

Lemma ensures_pure {A} P (m : result E A) Q : (forall s, P s -> Q m s) -> ensures P (pure m) Q.
Proof. intros H s r s' Hs Hm. injection Hm as <- <-. auto. Qed.

Lemma ensures_bind {A B} P (m : Eff S E A) (k : A -> Eff S E B) (M : A -> S -> Prop) Q :
  ensures P m (fun r s => match r with Ok a => M a s | Err e => Q (Err e) s | Panic => Q Panic s end) ->
  (forall a, ensures (M a) (k a) Q) -> ensures P (eff_bind m k) Q.
Proof.
  intros Hm Hk s r s' Hs H. unfold eff_bind in H. destruct (m s) as [[a|e|] s1] eqn:Em;
    specialize (Hm _ _ _ Hs Em); cbn in Hm.
  - by eapply Hk.
  - by injection H as <- <-.
  - by injection H as <- <-.
Qed.

Lemma ensures_weaken {A} P P' (m : Eff S E A) Q Q' :
  ensures P m Q -> (forall s, P' s -> P s) -> (forall r s, Q r s -> Q' r s) -> ensures P' m Q'.
Proof. intros H HP HQ s r s' Hs Hm. eauto. Qed.

Lemma ensures_if {A} P (b : bool) (m k : Eff S E A) Q :
  (b = true -> ensures P m Q) -> (b = false -> ensures P k Q) -> ensures P (if b then m else k) Q.
Proof. destruct b; auto. Qed.

Lemma preserves_bind {A B} I (m : Eff S E A) (k : A -> Eff S E B) :
  preserves I m -> (forall a, preserves I (k a)) -> preserves I (eff_bind m k).
Proof. intros Hm Hk. eapply ensures_bind; [|exact Hk]. intros s r s' Hs H. destruct r; by eapply Hm. Qed.

Lemma preserves_ret {A} I (a : A) : preserves I (eff_ret (S := S) (E := E) a).
Proof. by apply ensures_ret. Qed.
Lemma preserves_err {A} I (e : E) : preserves I (eff_err (S := S) (A := A) e).
Proof. by apply ensures_err. Qed.
Lemma preserves_pure {A} I (m : result E A) : preserves I (pure m).
Proof. by apply ensures_pure. Qed.
Lemma preserves_get I : preserves I (get (S := S) (E := E)).
Proof. intros s r s' Hs H. by injection H as <- <-. Qed.

Lemma preserves_attempt {A} I (m : Eff S E A) : preserves I m -> preserves I (attempt m).
Proof.
  intros H s r s' Hs Ha. unfold attempt in Ha. destruct (m s) as [[] s1] eqn:E1;
    injection Ha as <- <-; by eapply H.
Qed.

Lemma preserves_each {A} I (f : A -> Eff S E unit) l :
  (forall x, x ∈ l -> preserves I (f x)) -> preserves I (each f l).
Proof.
  induction l as [|x l IH]; intros H; cbn [each]; [by apply preserves_ret|].
  apply preserves_bind; [apply H; by left|]. intros _. apply IH. intros y Hy. apply H. by right.
Qed.
End specifications.

Lemma preserves_map_err {S E F A} (I : S -> Prop) (f : E -> F) (m : Eff S E A) :
  preserves I m -> preserves I (eff_map_err f m).
Proof.
  intros H s r s' Hs Hm. unfold eff_map_err in Hm. destruct (m s) as [r1 s1] eqn:E1.
  injection Hm as <- <-. by eapply H.
Qed.

Create HintDb eff discriminated.
#[export] Hint Resolve preserves_bind preserves_ret preserves_err preserves_pure preserves_get
  preserves_attempt preserves_each preserves_map_err : eff.

(** A result of a sequence, step by step. *)
Lemma eff_bind_Ok {S E A B} (m : Eff S E A) (k : A -> Eff S E B) s b s' :
  eff_bind m k s = (Ok b, s') <-> exists a s1, m s = (Ok a, s1) /\ k a s1 = (Ok b, s').
Proof.
  unfold eff_bind. split.
  - intros H. destruct (m s) as [[a|e|] s1] eqn:E1; [|done..]. by exists a, s1.
  - by intros (a & s1 & -> & ->).
Qed.

Lemma eff_bind_Err {S E A B} (m : Eff S E A) (k : A -> Eff S E B) w e w' :
  eff_bind m k w = (Err e, w') ->
  m w = (Err e, w') \/ exists a w1, m w = (Ok a, w1) /\ k a w1 = (Err e, w').
Proof.
  unfold eff_bind. destruct (m w) as [[a|e1|] w1]; intros H; [right; by exists a, w1| |discriminate H].
  left. by injection H as <- <-.
Qed.
