(* ===== verification/Core.v ===== *)
(** * Core domain types: errors and log sequence numbers

    Models [crates/core/src/error.rs] (the error type every component wraps) and
    [crates/core/src/lsn.rs] (the [PgLsn] newtype over [u64], its [X/Y] text form and
    the parser).  A [PgLsn] is a [Z] in [0 .. u64_max]; a Rust [String] is the Rocq
    [string] of its UTF-8 bytes. *)

From S2P Require Import Prelude.

(** ** [core::error::CoreError] *)
Inductive CoreError : Type :=
| InvalidLsn (value : string)
| InvalidIdentifier (value : string)
| InvalidPrefix (value : string)
| MissingPrimaryKey (table : string)
| UnsupportedTable (table reason : string)
| CoreInvalidTupleArity (relation_id expected actual : Z).
Global Instance CoreError_eq_dec : EqDecision CoreError.
Proof. solve_decision. Defined.

(** ** [core::lsn::PgLsn] *)
Module Lsn.

Notation PgLsn := Z (only parsing).

Definition valid (l : PgLsn) : Prop := (0 <= l <= u64_max)%Z.

Definition ZERO : PgLsn := 0%Z.

(** [PgLsn::saturating_sub]. *)
Definition lsn_saturating_sub (self other : PgLsn) : Z := saturating_sub self other.

(** *** Hexadecimal text, as [{:X}] and [u32::from_str_radix(_, 16)] read and write it *)

Definition ascii_of_Z (n : Z) : ascii := ascii_of_N (Z.to_N n).
Definition Z_of_ascii (c : ascii) : Z := Z.of_N (N_of_ascii c).

(** The upper-case digit of [d] in [0 .. 15]. *)
Definition hex_char (d : Z) : ascii :=
  ascii_of_Z (if (d <? 10)%Z then 48 + d else 55 + d)%Z.

(** [char::to_digit(16)]. *)
Definition to_digit16 (c : ascii) : option Z :=
  let n := Z_of_ascii c in
  if ((48 <=? n) && (n <=? 57))%Z then Some (n - 48)%Z
  else if ((65 <=? n) && (n <=? 70))%Z then Some (n - 55)%Z
  else if ((97 <=? n) && (n <=? 102))%Z then Some (n - 87)%Z
  else None.

(** The digits of [n] in front of [acc], least significant digit last. *)
Fixpoint hex_loop (fuel : nat) (n : Z) (acc : string) : string :=
  match fuel with
  | O => acc
  | S fuel =>
      let acc := String (hex_char (n mod 16)) acc in
      if (n / 16 =? 0)%Z then acc else hex_loop fuel (n / 16) acc
  end.

(** [format!("{:X}", n)] of a [u64]: sixteen digits are always enough. *)
Definition upper_hex (n : Z) : string := hex_loop 16 n EmptyString.

Fixpoint zeros (n : nat) (s : string) : string :=
  match n with O => s | S n => String "0" (zeros n s) end.

(** [format!("{:0wX}", n)]. *)
Definition pad_zero (w : nat) (s : string) : string := zeros (w - String.length s) s.

(** [Display for PgLsn]: [{:X}/{:08X}] of the high word and of the low word. *)
Definition to_string (l : PgLsn) : string :=
  upper_hex (Z.shiftr l 32) +:+ "/" +:+ pad_zero 8 (upper_hex (Z.land l u32_max)).

(** The digit loop of [u32::from_str_radix]: every step is checked for overflow. *)
Fixpoint parse_u32_digits (acc : Z) (s : string) : option Z :=
  match s with
  | EmptyString => Some acc
  | String c s =>
      match to_digit16 c with
      | Some d =>
          let acc := (acc * 16 + d)%Z in
          if (acc <=? u32_max)%Z then parse_u32_digits acc s else None
      | None => None
      end
  end.

(** [u32::from_str_radix(s, 16)]: an empty string and a lone sign are rejected, one leading
    plus sign is accepted. *)
Definition u32_from_hex (s : string) : option Z :=
  match s with
  | EmptyString => None
  | String c rest =>
      if bool_decide (c = "+"%char) then
        match rest with EmptyString => None | _ => parse_u32_digits 0 rest end
      else parse_u32_digits 0 s
  end.

(** [str::split_once]. *)
Fixpoint split_once (sep : ascii) (s : string) : option (string * string) :=
  match s with
  | EmptyString => None
  | String c rest =>
      if bool_decide (c = sep) then Some (EmptyString, rest)
      else (fun p => (String c p.1, p.2)) <$> split_once sep rest
  end.

Definition is_empty (s : string) : bool :=
  match s with EmptyString => true | _ => false end.

(** [FromStr for PgLsn]. *)
Definition from_str (value : string) : result CoreError PgLsn :=
  let? p := ok_or (split_once "/" value) (InvalidLsn value) in
  let (high, low) := (p : string * string) in
  if is_empty high || is_empty low || (8 <? slen low)%Z then Err (InvalidLsn value)
  else
    let? high := ok_or (u32_from_hex high) (InvalidLsn value) in
    let? low := ok_or (u32_from_hex low) (InvalidLsn value) in
    Ok (Z.lor (Z.shiftl high 32) low).

(** ** Lemmas *)

Fixpoint str_all (p : ascii -> bool) (s : string) : bool :=
  match s with EmptyString => true | String c s => p c && str_all p s end.

Definition is_hex (c : ascii) : bool :=
  match to_digit16 c with Some _ => true | None => false end.

Lemma digit_cases (P : Z -> Prop) d :
  (forall k : nat, (k < 16)%nat -> P (Z.of_nat k)) -> (0 <= d < 16)%Z -> P d.
Proof. intros H Hd. rewrite <-(Z2Nat.id d) by lia. apply H. lia. Qed.

Lemma to_digit16_hex_char d : (0 <= d < 16)%Z -> to_digit16 (hex_char d) = Some d.
Proof.
  apply (digit_cases (fun d => to_digit16 (hex_char d) = Some d)).
  intros k Hk. do 16 (destruct k; [done|]). lia.
Qed.

Lemma to_digit16_bound c d : to_digit16 c = Some d -> (0 <= d < 16)%Z.
Proof.
  unfold to_digit16. destruct_ifs; intros [= <-];
  repeat match goal with H : _ && _ = true |- _ => apply andb_true_iff in H as [??] end;
  lia.
Qed.

Lemma hex_loop_all fuel n acc :
  (0 <= n)%Z -> str_all is_hex acc = true -> str_all is_hex (hex_loop fuel n acc) = true.
Proof.
  revert n acc. induction fuel as [|fuel IH]; intros n acc Hn Hacc; [done|]. cbn [hex_loop].
  assert (Hc : str_all is_hex (String (hex_char (n mod 16)) acc) = true).
  { cbn. rewrite Hacc. unfold is_hex. rewrite to_digit16_hex_char; [done|].
    apply Z.mod_pos_bound. lia. }
  destruct (_ =? _)%Z; [done|]. apply IH; [|done]. apply Z.div_pos; lia.
Qed.

Lemma hex_loop_nonempty fuel n acc : exists c s, hex_loop (S fuel) n acc = String c s.
Proof.
  revert n acc. induction fuel as [|fuel IH]; intros n acc; cbn [hex_loop].
  - destruct (_ =? _)%Z; eauto.
  - destruct (_ =? _)%Z; [by eauto|]. apply (IH (n / 16)%Z).
Qed.

Lemma hex_loop_length fuel n acc k :
  (0 <= n < 16 ^ Z.of_nat (S k))%Z ->
  (String.length (hex_loop fuel n acc) <= S k + String.length acc)%nat.
Proof.
  revert n acc k. induction fuel as [|fuel IH]; intros n acc k Hn; cbn [hex_loop]; [lia|].
  destruct (Z.eqb_spec (n / 16) 0) as [_|Hne]; [cbn; lia|].
  destruct k as [|k].
  - rewrite Z.div_small in Hne by (change (16 ^ Z.of_nat 1)%Z with 16%Z in Hn; lia). done.
  - etrans; [apply (IH _ _ k)|cbn; lia].
    split; [apply Z.div_pos; lia|]. apply Z.div_lt_upper_bound; [lia|].
    rewrite <-Z.pow_succ_r by lia. rewrite <-Nat2Z.inj_succ. lia.
Qed.

Lemma parse_u32_hex_loop fuel n acc :
  (0 <= n < 16 ^ Z.of_nat fuel)%Z -> (n <= u32_max)%Z -> fuel <> 0%nat ->
  parse_u32_digits 0 (hex_loop fuel n acc) = parse_u32_digits n acc.
Proof.
  revert n acc. induction fuel as [|fuel IH]; intros n acc Hn Hmax Hf; [done|]. cbn [hex_loop].
  pose proof (Z.mod_pos_bound n 16 ltac:(lia)) as Hm.
  pose proof (Z.div_mod n 16 ltac:(lia)) as Hdm.
  assert (Hstep : forall a, (a * 16 + n mod 16 = n)%Z ->
    parse_u32_digits a (String (hex_char (n mod 16)) acc) = parse_u32_digits n acc).
  { intros a Ha. cbn [parse_u32_digits]. rewrite to_digit16_hex_char by done. cbv zeta.
    rewrite Ha. destruct (Z.leb_spec n u32_max); [done|lia]. }
  destruct (Z.eqb_spec (n / 16) 0) as [H0|H0].
  - apply Hstep. rewrite H0 in Hdm. lia.
  - rewrite IH; [apply Hstep; lia| | |].
    + split; [apply Z.div_pos; lia|]. apply Z.div_lt_upper_bound; [lia|].
      rewrite <-Z.pow_succ_r by lia. rewrite <-Nat2Z.inj_succ. lia.
    + assert (n / 16 <= n)%Z by (apply Z.div_le_upper_bound; lia). lia.
    + intros ->. change (16 ^ Z.of_nat 1)%Z with 16%Z in Hn. apply H0. apply Z.div_small. lia.
Qed.

Lemma zeros_parse n s : parse_u32_digits 0 (zeros n s) = parse_u32_digits 0 s.
Proof. induction n as [|n IH]; [done|]. cbn [zeros parse_u32_digits]. exact IH. Qed.

Lemma zeros_length n s : String.length (zeros n s) = (n + String.length s)%nat.
Proof. induction n; cbn; lia. Qed.

Lemma zeros_all n s : str_all is_hex s = true -> str_all is_hex (zeros n s) = true.
Proof. induction n; cbn; auto. Qed.

Lemma u32_from_hex_digits s :
  str_all is_hex s = true -> s <> EmptyString -> u32_from_hex s = parse_u32_digits 0 s.
Proof.
  destruct s as [|c s]; [done|]. intros H _. cbn [str_all] in H. cbn [u32_from_hex].
  apply andb_true_iff in H as [H _]. rewrite bool_decide_false; [done|]. by intros ->.
Qed.

Lemma split_once_app sep s t :
  str_all (fun c => negb (bool_decide (c = sep))) s = true ->
  split_once sep (s +:+ String sep t) = Some (s, t).
Proof.
  induction s as [|c s IH]; intros H.
  - change (EmptyString +:+ String sep t) with (String sep t). cbn. by rewrite bool_decide_true.
  - cbn in H. apply andb_true_iff in H as [Hc Hs]. apply negb_true_iff in Hc.
    change (String c s +:+ String sep t) with (String c (s +:+ String sep t)). cbn [split_once].
    rewrite Hc, IH by done. done.
Qed.

Lemma str_all_impl (p q : ascii -> bool) s :
  (forall c, p c = true -> q c = true) -> str_all p s = true -> str_all q s = true.
Proof.
  intros Hpq. induction s as [|c s IH]; cbn; [done|].
  rewrite !andb_true_iff. intros [??]. auto.
Qed.

Lemma parse_u32_digits_bound acc s n :
  (0 <= acc <= u32_max)%Z -> parse_u32_digits acc s = Some n -> (0 <= n <= u32_max)%Z.
Proof.
  revert acc. induction s as [|c s IH]; intros acc Hacc H; cbn in H; [congruence|].
  destruct (to_digit16 c) as [d|] eqn:Hd; [|done]. apply to_digit16_bound in Hd.
  destruct (Z.leb_spec (acc * 16 + d) u32_max); [|done]. eapply IH; [|done]. lia.
Qed.

Lemma u32_from_hex_bound s n : u32_from_hex s = Some n -> (0 <= n <= u32_max)%Z.
Proof.
  assert (0 <= 0 <= u32_max)%Z by done.
  destruct s as [|c s]; [done|]. unfold u32_from_hex. case_bool_decide.
  - destruct s; [done|]. by apply parse_u32_digits_bound.
  - by apply parse_u32_digits_bound.
Qed.

Lemma upper_hex_hex n : (0 <= n)%Z -> str_all is_hex (upper_hex n) = true.
Proof. intros. by apply hex_loop_all. Qed.

Lemma upper_hex_nonempty n : upper_hex n <> EmptyString.
Proof. unfold upper_hex. by destruct (hex_loop_nonempty 15 n EmptyString) as (c & s & ->). Qed.

Lemma upper_hex_length32 n :
  (0 <= n <= u32_max)%Z -> (String.length (upper_hex n) <= 8)%nat.
Proof.
  intros H. etrans; [apply (hex_loop_length 16 n EmptyString 7)|done].
  change (16 ^ Z.of_nat 8)%Z with (u32_max + 1)%Z. lia.
Qed.

Lemma upper_hex_parse n :
  (0 <= n <= u32_max)%Z -> parse_u32_digits 0 (upper_hex n) = Some n.
Proof.
  intros H. unfold upper_hex. rewrite parse_u32_hex_loop; [done| |lia|done].
  assert (u32_max < 16 ^ Z.of_nat 16)%Z by done. lia.
Qed.

(** The high and low words of a 64-bit value recombine. *)
Lemma words_recombine l :
  valid l ->
  (0 <= Z.shiftr l 32 <= u32_max)%Z /\ (0 <= Z.land l u32_max <= u32_max)%Z /\
  Z.lor (Z.shiftl (Z.shiftr l 32) 32) (Z.land l u32_max) = l.
Proof.
  intros [H0 H1]. split_and!.
  - apply Z.shiftr_nonneg; lia.
  - rewrite Z.shiftr_div_pow2 by lia. apply Z.lt_succ_r. apply Z.div_lt_upper_bound; [lia|].
    change (2 ^ 32 * Z.succ u32_max)%Z with (u64_max + 1)%Z. lia.
  - apply Z.land_nonneg; lia.
  - change u32_max with (Z.ones 32). rewrite Z.land_ones by lia.
    pose proof (Z.mod_pos_bound l (2 ^ 32) ltac:(lia)). change (Z.ones 32) with (2 ^ 32 - 1)%Z. lia.
  - apply Z.bits_inj'. intros i Hi. change u32_max with (Z.ones 32).
    rewrite Z.lor_spec, Z.land_spec, Z.shiftl_spec by lia.
    destruct (Z.ltb_spec i 32) as [Hlt|Hge].
    + rewrite Z.ones_spec_low, andb_true_r by lia. rewrite Z.testbit_neg_r by lia. done.
    + rewrite Z.ones_spec_high, andb_false_r, orb_false_r by lia.
      rewrite Z.shiftr_spec by lia. f_equal. lia.
Qed.

Lemma log2_lt_pow2_or_zero a k : (0 <= a < 2 ^ k)%Z -> (0 < k)%Z -> (Z.log2 a < k)%Z.
Proof.
  intros Ha Hk. destruct (Z.eq_dec a 0) as [->|]; [by rewrite Z.log2_nonpos|].
  apply Z.log2_lt_pow2; lia.
Qed.

Lemma words_bound high low :
  (0 <= high <= u32_max)%Z -> (0 <= low <= u32_max)%Z ->
  valid (Z.lor (Z.shiftl high 32) low).
Proof.
  intros Hh Hl. unfold valid.
  assert (Hs : (0 <= Z.shiftl high 32 < 2 ^ 64)%Z).
  { rewrite Z.shiftl_mul_pow2 by lia. change u32_max with (2 ^ 32 - 1)%Z in *.
    change (2 ^ 64)%Z with (2 ^ 32 * 2 ^ 32)%Z. nia. }
  assert (H0 : (0 <= Z.lor (Z.shiftl high 32) low)%Z) by (apply Z.lor_nonneg; lia).
  split; [done|]. destruct (Z.eq_dec (Z.lor (Z.shiftl high 32) low) 0) as [->|Hne]; [done|].
  apply Z.lt_succ_r. change (Z.succ u64_max) with (2 ^ 64)%Z.
  apply Z.log2_lt_pow2; [lia|]. rewrite Z.log2_lor by lia.
  apply Z.max_lub_lt; apply log2_lt_pow2_or_zero; try lia.
  change u32_max with (2 ^ 32 - 1)%Z in *. lia.
Qed.

Lemma from_str_to_string l : valid l -> from_str (to_string l) = Ok l.
Proof.
  intros Hl. destruct (words_recombine l Hl) as (Hhi & Hlo & Hre).
  set (hi := Z.shiftr l 32) in *. set (lo := Z.land l u32_max) in *.
  assert (Hhex : str_all is_hex (upper_hex hi) = true) by (apply upper_hex_hex; lia).
  assert (Hlex : str_all is_hex (pad_zero 8 (upper_hex lo)) = true)
    by (apply zeros_all, upper_hex_hex; lia).
  assert (Hlen : String.length (pad_zero 8 (upper_hex lo)) = 8%nat).
  { unfold pad_zero. rewrite zeros_length. pose proof (upper_hex_length32 lo Hlo). lia. }
  assert (Hne : pad_zero 8 (upper_hex lo) <> EmptyString) by (intros E; by rewrite E in Hlen).
  unfold from_str, to_string. fold hi lo.
  change ("/" +:+ pad_zero 8 (upper_hex lo)) with (String "/" (pad_zero 8 (upper_hex lo))).
  rewrite split_once_app; cbn [ok_or mbind result_bind].
  - assert (is_empty (upper_hex hi) = false) as -> by
      (pose proof (upper_hex_nonempty hi); by destruct (upper_hex hi)).
    assert (is_empty (pad_zero 8 (upper_hex lo)) = false) as -> by
      (by destruct (pad_zero 8 (upper_hex lo))).
    unfold slen. rewrite Hlen. cbn [orb Z.of_nat]. cbv beta iota.
    change (8 <? 8)%Z with false. cbv iota.
    rewrite !u32_from_hex_digits by (done || apply upper_hex_nonempty).
    rewrite upper_hex_parse by done. cbn [ok_or mbind result_bind].
    unfold pad_zero. rewrite zeros_parse, upper_hex_parse by done. cbn. by rewrite Hre.
  - eapply str_all_impl; [|exact Hhex]. intros c Hc. apply negb_true_iff, bool_decide_false.
    by intros ->.
Qed.

(** *** Properties *)

(** Every 64-bit log sequence number survives its text form: parsing what [Display]
    prints gives the number back. *)
Theorem lsn_text_round_trip l : valid l -> from_str (to_string l) = Ok l.
Proof. apply from_str_to_string. Qed.

(** Whatever text the parser accepts denotes a 64-bit log sequence number, so its
    canonical text form parses back to the same number. *)
Theorem lsn_parse_canonical s l :
  from_str s = Ok l -> valid l /\ from_str (to_string l) = Ok l.
Proof.
  intros H. assert (Hv : valid l).
  { unfold from_str in H. res_inv. destruct v as [high low]. res_inv.
    repeat match goal with H : u32_from_hex _ = Some _ |- _ => apply u32_from_hex_bound in H end.
    by apply words_bound. }
  split; [done|]. by apply from_str_to_string.
Qed.

Lemma lsn_text_round_trip_witness :
  valid 97500059720 /\ to_string 97500059720 = "16/B374D848"
  /\ from_str (to_string 97500059720) = Ok 97500059720%Z.
Proof.
  assert (valid 97500059720) by (split; vm_compute; discriminate).
  split; [done|]. split; [vm_compute; reflexivity|]. by apply lsn_text_round_trip.
Defined.

Lemma lsn_parse_canonical_witness :
  from_str "+016/b374d848" = Ok 97500059720%Z /\ valid 97500059720
  /\ from_str (to_string 97500059720) = Ok 97500059720%Z.
Proof.
  assert (H : from_str "+016/b374d848" = Ok 97500059720%Z) by (vm_compute; reflexivity).
  split; [exact H|]. exact (lsn_parse_canonical "+016/b374d848" 97500059720 H).
Defined.

End Lsn.
