(* ===== verification/Decimal.v ===== *)
(** * Decimal text of unsigned integers

    The model of Rust's [str::parse] for unsigned integer types (an optional plus sign, at
    least one digit, overflow is an error) and its relation to [to_string], which is stdpp's
    [pretty].  Used for persisted node identities ([checkpoint.rs]), relation OIDs
    ([ddl.rs]) and the control names of staging tables ([apply.rs]). *)

From S2P Require Import Prelude Core.

(** The digit loop: every intermediate value is checked against the type's maximum. *)
Fixpoint parse_digits (max acc : Z) (s : string) : option Z :=
  match s with
  | EmptyString => Some acc
  | String c s =>
      let d := (Lsn.Z_of_ascii c - 48)%Z in
      if (0 <=? d)%Z && (d <=? 9)%Z then
        let acc := (acc * 10 + d)%Z in
        if (acc <=? max)%Z then parse_digits max acc s else None
      else None
  end.

(** [str::parse::<uN>], with [max] the maximum of the type. *)
Definition parse_uint (max : Z) (s : string) : option Z :=
  match s with
  | EmptyString => None
  | String c rest =>
      if bool_decide (c = "+"%char) then
        match rest with EmptyString => None | _ => parse_digits max 0 rest end
      else parse_digits max 0 s
  end.

Definition is_digit (c : ascii) : bool := (48 <=? Lsn.Z_of_ascii c)%Z && (Lsn.Z_of_ascii c <=? 57)%Z.

Lemma N_digit_cases (P : N -> Prop) n :
  P 0%N -> P 1%N -> P 2%N -> P 3%N -> P 4%N -> P 5%N -> P 6%N -> P 7%N -> P 8%N -> P 9%N ->
  (n < 10)%N -> P n.
Proof.
  intros. destruct n as [|p]; [done|].
  do 4 (destruct p as [p|p|]; try done; try (exfalso; lia)).
Qed.

Lemma pretty_N_char_Z n : (n < 10)%N -> Lsn.Z_of_ascii (pretty_N_char n) = (48 + Z.of_N n)%Z.
Proof.
  revert n. intros n Hn. pattern n. by apply N_digit_cases; [reflexivity..|].
Qed.

Lemma parse_digits_go max x s :
  (0 < x)%N -> (Z.of_N x <= max)%Z ->
  parse_digits max 0 (pretty_N_go x s) = parse_digits max (Z.of_N x) s.
Proof.
  revert s. induction x as [x IH] using (well_founded_induction N.lt_wf_0). intros s Hx Hm.
  rewrite pretty_N_go_step by done.
  pose proof (N.mod_lt x 10 ltac:(done)) as Hd. pose proof (N.div_mod x 10 ltac:(done)) as He.
  revert Hd He. generalize (x mod 10)%N (x / 10)%N (N.div_lt x 10 Hx ltac:(done)).
  intros r q Hq Hd He.
  assert (Hstep : forall k, (k * 10 + (48 + Z.of_N r - 48))%Z = Z.of_N x ->
    parse_digits max k (String (pretty_N_char r) s) = parse_digits max (Z.of_N x) s).
  { intros k Hk. cbn [parse_digits]. rewrite pretty_N_char_Z by done. cbv zeta. rewrite Hk.
    destruct (Z.leb_spec 0 (48 + Z.of_N r - 48)); [|lia].
    destruct (Z.leb_spec (48 + Z.of_N r - 48) 9); [|lia].
    destruct (Z.leb_spec (Z.of_N x) max); [done|lia]. }
  destruct (decide (q = 0)%N) as [H0|Hne].
  - rewrite H0, pretty_N_go_0. apply Hstep. lia.
  - rewrite IH by (lia). apply Hstep. lia.
Qed.

Lemma pretty_go_digits x s :
  Lsn.str_all is_digit s = true -> Lsn.str_all is_digit (pretty_N_go x s) = true.
Proof.
  revert s. induction x as [x IH] using (well_founded_induction N.lt_wf_0). intros s Hs.
  destruct (decide (0 < x)%N) as [Hx|Hx]; [|by replace x with 0%N by lia].
  rewrite pretty_N_go_step by done. apply IH; [apply N.div_lt; lia|]. cbn. rewrite Hs, andb_true_r.
  unfold is_digit. rewrite pretty_N_char_Z by (by apply N.mod_lt).
  generalize (N.mod_lt x 10 ltac:(done)). generalize (x mod 10)%N. intros r Hr.
  apply andb_true_iff. split; apply Z.leb_le; lia.
Qed.

(** The decimal text of a number consists of digits. *)
Lemma pretty_N_digits (n : N) : Lsn.str_all is_digit (pretty n) = true.
Proof. unfold pretty, pretty_N. case_decide; [done|]. by apply pretty_go_digits. Qed.

Lemma pretty_Z_nonneg (n : Z) : (0 <= n)%Z -> pretty n = pretty (Z.to_N n).
Proof. by destruct n. Qed.

Lemma parse_digits_pretty max n : (0 <= n <= max)%Z -> parse_digits max 0 (pretty n) = Some n.
Proof.
  intros Hn. rewrite pretty_Z_nonneg by lia. unfold pretty, pretty_N. case_decide as H0.
  - assert (n = 0%Z) as -> by lia. cbn [parse_digits].
    change (Lsn.Z_of_ascii "0" - 48)%Z with 0%Z. cbv zeta. cbn [andb Z.leb Z.compare].
    change (0 * 10 + 0)%Z with 0%Z. destruct (Z.leb_spec 0 max); [done|lia].
  - rewrite parse_digits_go by lia. cbn. f_equal. lia.
Qed.

(** Parsing inverts printing. *)
Lemma parse_uint_pretty max n : (0 <= n <= max)%Z -> parse_uint max (pretty n) = Some n.
Proof.
  intros Hn. pose proof (parse_digits_pretty _ _ Hn) as Hp. unfold parse_uint.
  destruct (pretty n) as [|c rest] eqn:E.
  - exfalso. rewrite pretty_Z_nonneg in E by lia. unfold pretty, pretty_N in E.
    case_decide; [done|]. rewrite pretty_N_go_step in E by lia.
    assert (Hne : forall x s, s <> EmptyString -> pretty_N_go x s <> EmptyString).
    { intros x. induction x as [x IH] using (well_founded_induction N.lt_wf_0). intros s Hs.
      destruct (decide (0 < x)%N) as [Hx|Hx]; [|by replace x with 0%N by lia].
      rewrite pretty_N_go_step by done. apply IH; [apply N.div_lt; lia|done]. }
    by apply Hne in E.
  - rewrite bool_decide_false; [done|]. intros ->. by cbn in Hp.
Qed.
