(* ===== verification/Schema.v ===== *)
(** * Source schemas

    Models [crates/core/src/schema.rs]: qualified names, PostgreSQL types, columns and
    tables, [TableSchema::validate_supported] and [TableSchema::primary_key]. *)

From S2P Require Import Prelude Core.

Definition POSTGRES_IDENTIFIER_MAX_BYTES : Z := 63.

(** [validate_identifier]: non-empty, without NUL, at most 63 bytes. *)
Definition validate_identifier (value : string) : result CoreError unit :=
  if Lsn.is_empty value || contains_char nul value
     || (POSTGRES_IDENTIFIER_MAX_BYTES <? slen value)%Z
  then Err (InvalidIdentifier value)
  else Ok tt.

Definition valid_identifier (value : string) : Prop :=
  value <> EmptyString /\ contains_char nul value = false /\ (slen value <= 63)%Z.

Record QualifiedName : Type := mkQualifiedName {
  qn_schema : string;
  qn_name : string;
}.
Global Instance QualifiedName_eq_dec : EqDecision QualifiedName.
Proof. solve_decision. Defined.
Global Program Instance QualifiedName_countable : Countable QualifiedName :=
  inj_countable' (fun q => (qn_schema q, qn_name q)) (fun p => mkQualifiedName p.1 p.2) _.
Next Obligation. by intros [??]. Qed.

(** [QualifiedName::new]. *)
Definition QualifiedName_new (schema name : string) : result CoreError QualifiedName :=
  let? _ := validate_identifier schema in
  let? _ := validate_identifier name in
  Ok (mkQualifiedName schema name).

(** [Display for QualifiedName]. *)
Definition QualifiedName_to_string (q : QualifiedName) : string :=
  qn_schema q +:+ "." +:+ qn_name q.

(** [PgType] and [PgTypeKind]. *)
Inductive PgType : Type :=
| mkPgType (oid : Z) (name : QualifiedName) (kind : PgTypeKind)
with PgTypeKind : Type :=
| TBool | TInt2 | TInt4 | TInt8
| TNumeric (precision scale : option Z)
| TFloat4 | TFloat8 | TText
| TVarChar (length : option Z)
| TChar (length : option Z)
| TBytea | TDate
| TTime (precision : option Z) (with_time_zone : bool)
| TTimestamp (precision : option Z) (with_time_zone : bool)
| TInterval (precision : option Z)
| TUuid | TJson | TJsonb | TInet | TCidr | TMacAddr | TMacAddr8
| TBit (length : option Z) (varying : bool)
| TXml
| TEnum (labels : list string)
| TDomain (base : PgType) (constraints : list string)
| TArray (element : PgType)
| TUnsupported (reason : string).

Definition pgtype_kind (t : PgType) : PgTypeKind := let (_, _, k) := t in k.
Definition pgtype_name (t : PgType) : QualifiedName := let (_, n, _) := t in n.
Definition pgtype_oid (t : PgType) : Z := let (o, _, _) := t in o.

(** [PgTypeKind::is_supported]. *)
Fixpoint type_is_supported (t : PgType) : bool :=
  match t with mkPgType _ _ k => is_supported k end
with is_supported (k : PgTypeKind) : bool :=
  match k with
  | TUnsupported _ => false
  | TArray element => type_is_supported element
  | TDomain base _ => type_is_supported base
  | _ => true
  end.

Inductive GeneratedColumn : Type := GenNone | GenStored | GenVirtual.
Global Instance GeneratedColumn_eq_dec : EqDecision GeneratedColumn.
Proof. solve_decision. Defined.

Inductive IdentityColumn : Type := IdNone | IdAlways | IdByDefault.
Global Instance IdentityColumn_eq_dec : EqDecision IdentityColumn.
Proof. solve_decision. Defined.

Record ColumnSchema : Type := mkColumnSchema {
  col_attnum : Z;
  col_name : string;
  col_data_type : PgType;
  col_nullable : bool;
  col_primary_key_ordinal : option Z;
  col_generated : GeneratedColumn;
  col_identity : IdentityColumn;
  col_collation : option QualifiedName;
}.

Inductive TableKind : Type :=
| Ordinary | Partitioned | CitusDistributed | CitusReference | CitusLocal.
Global Instance TableKind_eq_dec : EqDecision TableKind.
Proof. solve_decision. Defined.

Inductive ReplicaIdentity : Type := RIDefault | RIIndex | RIFull | RINothing.
Global Instance ReplicaIdentity_eq_dec : EqDecision ReplicaIdentity.
Proof. solve_decision. Defined.

Record TableSchema : Type := mkTableSchema {
  ts_relation_id : Z;
  ts_generation : Z;
  ts_name : QualifiedName;
  ts_kind : TableKind;
  ts_replica_identity : ReplicaIdentity;
  ts_columns : list ColumnSchema;
  ts_distribution_key : list Z;
  ts_partition_key : list Z;
}.

(** [column.primary_key_ordinal.is_some()]. *)
Definition is_key_column (c : ColumnSchema) : bool := bool_decide (is_Some (col_primary_key_ordinal c)).

(** [sort_by_key] compares [Option<u16>]: [None] first, then by value. *)
Definition ordinal_key (c : ColumnSchema) : Z := default (-1)%Z (col_primary_key_ordinal c).

(** [TableSchema::primary_key]: the key columns in primary-key ordinal order. *)
Definition primary_key (t : TableSchema) : list ColumnSchema :=
  sort_by_key ordinal_key (List.filter is_key_column (ts_columns t)).

(** [TableSchema::unsupported]. *)
Definition unsupported (t : TableSchema) (reason : string) : CoreError :=
  UnsupportedTable (QualifiedName_to_string (ts_name t)) reason.

Definition column_unsupported (c : ColumnSchema) : bool :=
  negb (type_is_supported (col_data_type c)) || bool_decide (col_generated c = GenVirtual).

(** [TableSchema::validate_supported]. *)
Definition validate_supported (t : TableSchema) : result CoreError unit :=
  let pk := primary_key t in
  if bool_decide (pk = []) then Err (MissingPrimaryKey (QualifiedName_to_string (ts_name t)))
  else if bool_decide (ts_replica_identity t <> RIDefault)
  then Err (unsupported t "REPLICA IDENTITY must be DEFAULT")
  else
    match List.find column_unsupported (ts_columns t) with
    | Some column =>
        Err (unsupported t ("column " +:+ col_name column
                            +:+ " uses an unsupported type or virtual generation"))
    | None =>
        if bool_decide (ts_kind t = CitusDistributed)
           && negb (forallb (fun attnum => existsb (fun c => (col_attnum c =? attnum)%Z) pk)
                      (ts_distribution_key t))
        then Err (unsupported t "Citus primary key must contain the distribution key")
        else Ok tt
    end.

(** ** Lemmas *)

Lemma validate_identifier_Ok value :
  validate_identifier value = Ok tt <-> valid_identifier value.
Proof.
  unfold validate_identifier, valid_identifier, POSTGRES_IDENTIFIER_MAX_BYTES.
  assert (Hemp : value <> EmptyString <-> Lsn.is_empty value = false) by (by destruct value).
  rewrite Hemp. destruct (Lsn.is_empty value); cbn; [by split; [|intros [? _]]|].
  destruct (contains_char nul value); cbn; [by split; [|intros (_ & ? & _)]|].
  destruct (Z.ltb_spec 63 (slen value)); intuition (done || lia).
Qed.

Lemma QualifiedName_new_Ok schema name q :
  QualifiedName_new schema name = Ok q <->
  valid_identifier schema /\ valid_identifier name /\ q = mkQualifiedName schema name.
Proof.
  unfold QualifiedName_new. rewrite <-!validate_identifier_Ok. split.
  - intros H. res_inv. by destruct v, v0.
  - intros (-> & -> & ->). done.
Qed.

Lemma elem_of_List_filter {A} (p : A -> bool) x l : x ∈ List.filter p l <-> p x = true /\ x ∈ l.
Proof. rewrite !list_elem_of_In, List.filter_In. tauto. Qed.

Lemma primary_key_perm t : primary_key t ≡ₚ List.filter is_key_column (ts_columns t).
Proof. apply sort_by_key_perm. Qed.

Lemma elem_of_primary_key t c :
  c ∈ primary_key t <-> c ∈ ts_columns t /\ is_Some (col_primary_key_ordinal c).
Proof.
  rewrite primary_key_perm, elem_of_List_filter. unfold is_key_column.
  rewrite bool_decide_eq_true. tauto.
Qed.

Lemma primary_key_sorted t : Sorted (key_le ordinal_key) (primary_key t).
Proof. apply sort_by_key_sorted. Qed.

(** What a table that [validate_supported] accepts is. *)
Record supported (t : TableSchema) : Prop := {
  supported_key : primary_key t <> [];
  supported_identity : ts_replica_identity t = RIDefault;
  supported_columns : forall c, c ∈ ts_columns t ->
    type_is_supported (col_data_type c) = true /\ col_generated c <> GenVirtual;
  supported_distribution : ts_kind t = CitusDistributed ->
    forall a, a ∈ ts_distribution_key t -> exists c, c ∈ primary_key t /\ col_attnum c = a;
}.

Lemma validate_supported_Ok t : validate_supported t = Ok tt <-> supported t.
Proof.
  unfold validate_supported. split.
  - intros H. do 2 (case_bool_decide; [done|]).
    destruct (List.find _ _) eqn:Hf; [done|].
    destruct (bool_decide _ && _) eqn:Hd; [done|]. split; [done|done| |].
    + intros c Hc. pose proof (List.find_none _ _ Hf c) as Hn.
      rewrite <-list_elem_of_In in Hn. specialize (Hn Hc). unfold column_unsupported in Hn.
      apply orb_false_iff in Hn as [Hn1 Hn2]. apply negb_false_iff in Hn1.
      apply bool_decide_eq_false in Hn2. done.
    + intros Hk a Ha. rewrite bool_decide_true in Hd by done. cbn in Hd.
      apply negb_false_iff in Hd. rewrite forallb_forall in Hd.
      specialize (Hd a (proj1 (list_elem_of_In _ _) Ha)).
      apply existsb_exists in Hd as (c & Hc & Heq). exists c.
      rewrite list_elem_of_In. split; [done|lia].
  - intros [Hk Hi Hc Hd]. rewrite bool_decide_false, bool_decide_false by (done || tauto).
    destruct (List.find _ _) as [c|] eqn:Hf.
    { apply List.find_some in Hf as [Hin Hu]. rewrite <-list_elem_of_In in Hin.
      destruct (Hc c Hin) as [Hs Hg]. unfold column_unsupported in Hu.
      rewrite Hs, bool_decide_false in Hu by done. done. }
    case_bool_decide as Hcd; [|done]. cbn.
    destruct (forallb _ _) eqn:Hf'; [done|].
    exfalso. apply not_true_iff_false in Hf'. apply Hf'. apply forallb_forall.
    intros a Ha. apply existsb_exists. rewrite <-list_elem_of_In in Ha.
    destruct (Hd Hcd a Ha) as (c & Hcin & Heq). exists c. rewrite <-list_elem_of_In.
    split; [done|lia].
Qed.

Lemma validate_supported_no_panic t : validate_supported t <> Panic.
Proof. unfold validate_supported. repeat case_match; done. Qed.
