(* ===== verification/Change.v ===== *)
(** * Row changes and committed source transactions

    Models [crates/core/src/change.rs]: the cell states of a replicated row (NULL, an
    unchanged TOAST value and a missing column are three different things), the row
    changes pgoutput delivers, the positions and the transactions built from them. *)

From S2P Require Import Prelude Core Schema.

Inductive Cell : Type :=
| Null
| UnchangedToast
| Text (value : bytes)
| Binary (value : bytes).
Global Instance Cell_eq_dec : EqDecision Cell.
Proof. solve_decision. Defined.

Record Tuple : Type := mkTuple { cells : list Cell }.
Global Instance Tuple_eq_dec : EqDecision Tuple.
Proof. solve_decision. Defined.

(** [Tuple::validate]. *)
Definition tuple_validate (self : Tuple) (schema : TableSchema) : result CoreError unit :=
  if negb (len (cells self) =? len (ts_columns schema))%Z
  then Err (CoreInvalidTupleArity (ts_relation_id schema) (len (ts_columns schema))
              (len (cells self)))
  else Ok tt.

Inductive RowChange : Type :=
| Insert (new : Tuple)
| Update (old_key : option Tuple) (new : Tuple)
| Delete (old_key : Tuple).
Global Instance RowChange_eq_dec : EqDecision RowChange.
Proof. solve_decision. Defined.

Record TableChange : Type := mkTableChange {
  tc_relation_id : Z;
  tc_generation : Z;
  tc_change : RowChange;
}.
Global Instance TableChange_eq_dec : EqDecision TableChange.
Proof. solve_decision. Defined.

Record SourcePosition : Type := mkSourcePosition {
  node_id : Z;
  system_identifier : Z;
  timeline : Z;
  lsn : Z;
}.
Global Instance SourcePosition_eq_dec : EqDecision SourcePosition.
Proof. solve_decision. Defined.

Record DdlMessage : Type := mkDdlMessage {
  ddl_version : Z;
  ddl_command_tag : string;
  ddl_relation_ids : list Z;
  ddl_affected_schemas : list string;
  ddl_schema_fingerprint : string;
}.
Global Instance DdlMessage_eq_dec : EqDecision DdlMessage.
Proof. solve_decision. Defined.

Inductive TransactionChange : Type :=
| Row (change : TableChange)
| Truncate (relation_ids : list Z) (cascade restart_identity : bool)
| Ddl (message : DdlMessage).
Global Instance TransactionChange_eq_dec : EqDecision TransactionChange.
Proof. solve_decision. Defined.

(** [commit_time] is a [DateTime<Utc>], here microseconds since the epoch. *)
Record SourceTransaction : Type := mkSourceTransaction {
  st_xid : Z;
  st_commit_time : Z;
  st_final_position : SourcePosition;
  st_changes : list TransactionChange;
}.
Global Instance SourceTransaction_eq_dec : EqDecision SourceTransaction.
Proof. solve_decision. Defined.

(** [TransactionChange::requires_generation_barrier]. *)
Definition requires_generation_barrier (c : TransactionChange) : bool :=
  match c with
  | Truncate _ _ _ | Ddl _ => true
  | Row _ => false
  end.

Definition has_barrier (t : SourceTransaction) : bool :=
  existsb requires_generation_barrier (st_changes t).

(** The position LSN of a transaction. *)
Definition final_lsn (t : SourceTransaction) : Z := lsn (st_final_position t).

Definition lsn_le (a b : SourceTransaction) : Prop := (final_lsn a <= final_lsn b)%Z.

(** The bytes a tuple is charged for, shared by [batch.rs] and [wal.rs]. *)
Definition cell_bytes (c : Cell) : Z :=
  match c with
  | Null | UnchangedToast => 1
  | Text value | Binary value => len value
  end.

Definition tuple_bytes (cs : list Cell) : Z := sum_Z (map cell_bytes cs).

Lemma cell_bytes_nonneg c : (0 <= cell_bytes c)%Z.
Proof. destruct c; cbn; try lia; apply len_nonneg. Qed.

Lemma tuple_bytes_nonneg cs : (0 <= tuple_bytes cs)%Z.
Proof.
  apply sum_Z_nonneg. induction cs; cbn; constructor; auto using cell_bytes_nonneg.
Qed.
#[export] Hint Resolve cell_bytes_nonneg tuple_bytes_nonneg : etl.

(** [row_change_bytes]: the arms both size estimates share. *)
Definition row_change_bytes (c : RowChange) : Z :=
  match c with
  | Insert new => tuple_bytes (cells new)
  | Update old_key new =>
      match old_key with Some key => tuple_bytes (cells key) | None => 0 end
      + tuple_bytes (cells new)
  | Delete old_key => tuple_bytes (cells old_key)
  end.

Lemma row_change_bytes_nonneg c : (0 <= row_change_bytes c)%Z.
Proof.
  destruct c as [new|[old|] new|old]; cbn; pose proof tuple_bytes_nonneg as H;
    repeat match goal with |- context [tuple_bytes ?x] =>
      let n := fresh in pose proof (H x) as n; generalize dependent (tuple_bytes x); intros end;
    lia.
Qed.
#[export] Hint Resolve row_change_bytes_nonneg : etl.
