(* ===== verification/Mapping.v ===== *)
(** * From source names to target names

    Models [crates/core/src/mapping.rs]: source prefixes, [shorten_identifier] and the default
    name mapper.  SHA-256 is an argument, a function from byte sequences to 32 bytes; a Rust
    [String] is the byte sequence of its UTF-8 encoding.  [whole_character] describes the
    shape of an encoded character: a first byte and up to three continuation bytes. *)

From S2P Require Import Prelude Core Schema.

Definition HASH_SUFFIX_BYTES : nat := 12.

(** ** [SourcePrefix::new] *)

Definition is_ascii_lowercase (c : ascii) : bool :=
  let n := N_of_ascii c in (97 <=? n)%N && (n <=? 122)%N.
Definition is_ascii_digit (c : ascii) : bool :=
  let n := N_of_ascii c in (48 <=? n)%N && (n <=? 57)%N.

(** The closure of [chars.all]. *)
Definition is_prefix_char (c : ascii) : bool :=
  is_ascii_lowercase c || is_ascii_digit c || bool_decide (c = "_"%char).

Definition SourcePrefix_new (value : string) : result CoreError string :=
  let valid :=
    match value with
    | EmptyString => false
    | String c chars => is_ascii_lowercase c && Lsn.str_all is_prefix_char chars
    end && (slen value <=? 24)%Z in
  if negb valid then Err (InvalidPrefix value) else Ok value.

(** ** [shorten_identifier] *)

(** A digit of [{:02x}]. *)
Definition lower_hex_char (d : N) : ascii :=
  ascii_of_N (if (d <? 10)%N then 48 + d else 87 + d).

(** [format!("{byte:02x}")]. *)
Definition hex_byte (b : byte) : string :=
  let n := Byte.to_N b in
  String (lower_hex_char (N.div n 16)) (String (lower_hex_char (N.modulo n 16)) EmptyString).

(** [.iter().map(...).collect::<String>()]. *)
Fixpoint hex_bytes (bs : bytes) : string :=
  match bs with
  | [] => EmptyString
  | b :: bs => hex_byte b +:+ hex_bytes bs
  end.

(** [while !value.is_char_boundary(boundary) { boundary -= 1 }]; zero is a boundary. *)
Fixpoint floor_char_boundary (value : string) (boundary : nat) : nat :=
  match boundary with
  | O => O
  | S b => if is_char_boundary value boundary then boundary else floor_char_boundary value b
  end.

Record TargetTableName : Type := mkTargetTableName {
  tt_database : string;
  tt_relation : QualifiedName;
}.

Record DefaultNameMapper : Type := mkDefaultNameMapper {
  target_database : string;
  source_prefix : string;
  source_database : string;
}.

Section shorten.
Context (sha256 : bytes -> bytes).

(** The suffix that replaces the end of a long name. *)
Definition hash_suffix (value : string) : string :=
  hex_bytes (take HASH_SUFFIX_BYTES (sha256 (bytes_of_string value))).

Definition shorten_identifier (value : string) : string :=
  if (slen value <=? POSTGRES_IDENTIFIER_MAX_BYTES)%Z then value
  else
    let suffix := hash_suffix value in
    let maximum_prefix_bytes :=
      (Z.to_nat POSTGRES_IDENTIFIER_MAX_BYTES - 1 - String.length suffix)%nat in
    let boundary :=
      floor_char_boundary value (Nat.min maximum_prefix_bytes (String.length value)) in
    String.substring 0 boundary value +:+ "_" +:+ suffix.

(** [DefaultNameMapper::map]. *)
Definition raw_schema (self : DefaultNameMapper) (source : QualifiedName) : string :=
  source_prefix self +:+ "__" +:+ source_database self +:+ "__" +:+ qn_schema source.

Definition map_name (self : DefaultNameMapper) (source : QualifiedName)
    : result CoreError TargetTableName :=
  let? _ := validate_identifier (source_database self) in
  let? _ := validate_identifier (target_database self) in
  let? relation :=
    QualifiedName_new (shorten_identifier (raw_schema self source)) (qn_name source) in
  Ok (mkTargetTableName (target_database self) relation).
End shorten.

(** ** Strings *)

Lemma slen_app s t : slen (s +:+ t) = (slen s + slen t)%Z.
Proof. unfold slen. rewrite string_length_app. lia. Qed.

Lemma hex_bytes_length bs : String.length (hex_bytes bs) = (2 * length bs)%nat.
Proof.
  induction bs as [|b bs IH]; [done|]. cbn [hex_bytes length].
  rewrite string_length_app, IH. cbn. lia.
Qed.

Lemma hex_digit_nul (d : N) : (d < 16)%N -> bool_decide (nul = lower_hex_char d) = false.
Proof.
  intros Hd. apply bool_decide_eq_false. intros H.
  apply (f_equal N_of_ascii) in H. unfold lower_hex_char in H.
  rewrite N_ascii_embedding in H by (case_match; lia).
  change (N_of_ascii nul) with 0%N in H. case_match; lia.
Qed.

Lemma hex_bytes_no_nul bs : contains_char nul (hex_bytes bs) = false.
Proof.
  induction bs as [|b bs IH]; [done|]. cbn [hex_bytes].
  rewrite contains_char_app, IH, orb_false_r. unfold hex_byte. cbn [contains_char].
  pose proof (Byte.to_N_bounded b).
  rewrite !hex_digit_nul; [done|apply N.mod_lt; lia|]. apply N.Div0.div_lt_upper_bound. lia.
Qed.

Lemma lower_hex_char_inj (a b : N) :
  (a < 16)%N -> (b < 16)%N -> lower_hex_char a = lower_hex_char b -> a = b.
Proof.
  intros Ha Hb H. apply (f_equal N_of_ascii) in H. unfold lower_hex_char in H.
  destruct (N.ltb_spec a 10), (N.ltb_spec b 10);
    rewrite !N_ascii_embedding in H by lia; lia.
Qed.

Lemma hex_bytes_inj bs cs : length bs = length cs -> hex_bytes bs = hex_bytes cs -> bs = cs.
Proof.
  revert cs. induction bs as [|b bs IH]; intros [|c cs] Hl H; try done. cbn [hex_bytes] in H.
  apply string_app_inj_len in H as [H Hr]; [|done]. injection H as Hq Hm.
  pose proof (Byte.to_N_bounded b). pose proof (Byte.to_N_bounded c).
  apply lower_hex_char_inj in Hq; [|apply N.Div0.div_lt_upper_bound; lia..].
  apply lower_hex_char_inj in Hm; [|apply N.mod_lt; lia..].
  assert (Byte.to_N b = Byte.to_N c) as He
    by (rewrite (N.div_mod (Byte.to_N b) 16), (N.div_mod (Byte.to_N c) 16) by lia; lia).
  f_equal; [|by apply IH; [injection Hl|]].
  apply (f_equal Byte.of_N) in He. rewrite !Byte.of_to_N in He. by injection He.
Qed.

Lemma contains_char_substring c n s :
  contains_char c s = false -> contains_char c (String.substring 0 n s) = false.
Proof.
  revert s. induction n as [|n IH]; intros [|d s]; cbn; try done.
  intros [Hd Hs]%orb_false_iff. rewrite Hd. cbn. auto.
Qed.

Lemma floor_char_boundary_le s b : (floor_char_boundary s b <= b)%nat.
Proof. induction b as [|b IH]; [done|]. cbn [floor_char_boundary]. destruct (is_char_boundary _ _); lia. Qed.

Lemma floor_char_boundary_is s b : is_char_boundary s (floor_char_boundary s b) = true.
Proof.
  induction b as [|b IH]; [done|]. cbn [floor_char_boundary].
  by destruct (is_char_boundary s (S b)) eqn:E.
Qed.

Lemma floor_char_boundary_greatest s b i :
  (floor_char_boundary s b < i <= b)%nat -> is_char_boundary s i = false.
Proof.
  induction b as [|b IH]; [cbn; lia|]. cbn [floor_char_boundary].
  destruct (is_char_boundary s (S b)) eqn:E; [lia|]. intros Hi.
  destruct (decide (i = S b)) as [->|]; [done|]. apply IH. lia.
Qed.

(** ** Characters *)

Definition is_continuation (c : ascii) : bool :=
  (Z.land (Z.of_nat (Ascii.nat_of_ascii c)) 0xC0 =? 0x80)%Z.

Definition whole_character (ch : string) : bool :=
  match ch with
  | EmptyString => false
  | String c t =>
      negb (is_continuation c) && Lsn.str_all is_continuation t
      && (String.length t <=? 3)%nat
  end.

Fixpoint concat_chars (chars : list string) : string :=
  match chars with
  | [] => EmptyString
  | ch :: chars => ch +:+ concat_chars chars
  end.

Lemma get_app_l i s t : (i < String.length s)%nat -> String.get i (s +:+ t) = String.get i s.
Proof.
  revert i. induction s as [|c s IH]; intros i Hi; [cbn in Hi; lia|].
  rewrite string_app_cons. destruct i as [|i]; [done|]. cbn in Hi |- *. apply IH. lia.
Qed.

Lemma get_app_r i s t : String.get (String.length s + i) (s +:+ t) = String.get i t.
Proof. induction s as [|c s IH]; [done|]. rewrite string_app_cons. cbn. exact IH. Qed.

Lemma substring_app_r i s t :
  String.substring 0 (String.length s + i) (s +:+ t) = s +:+ String.substring 0 i t.
Proof.
  induction s as [|c s IH]; [done|]. rewrite !string_app_cons. cbn. by rewrite IH.
Qed.

Lemma forallb_get p s i c : Lsn.str_all p s = true -> String.get i s = Some c -> p c = true.
Proof.
  revert i. induction s as [|d s IH]; intros i; cbn; [done|].
  intros [Hd Hs]%andb_true_iff. destruct i as [|i]; [by intros [= <-]|]. by apply IH.
Qed.

Lemma get_lt s i : (i < String.length s)%nat -> exists c, String.get i s = Some c.
Proof.
  revert i. induction s as [|d s IH]; intros i; cbn; [lia|].
  destruct i as [|i]; [by eexists|]. intros. apply IH. lia.
Qed.

(** Inside an encoded character there is no boundary. *)
Lemma inside_no_boundary ch rest i :
  whole_character ch = true -> (0 < i < String.length ch)%nat ->
  is_char_boundary (ch +:+ rest) i = false.
Proof.
  intros Hch Hi. unfold is_char_boundary. rewrite string_length_app.
  rewrite !bool_decide_false by lia. cbn. rewrite get_app_l by lia.
  destruct ch as [|c t]; [done|]. cbn in Hch, Hi.
  apply andb_true_iff in Hch as [[_ Ht]%andb_true_iff _].
  destruct i as [|i]; [lia|]. cbn. destruct (get_lt t i) as [d Hd]; [lia|]. rewrite Hd.
  pose proof (forallb_get _ _ _ _ Ht Hd) as Hc. unfold is_continuation in Hc. by rewrite Hc.
Qed.

Lemma after_boundary ch rest i :
  (0 < i)%nat -> is_char_boundary (ch +:+ rest) (String.length ch + i) = is_char_boundary rest i.
Proof.
  intros Hi. unfold is_char_boundary. rewrite string_length_app, get_app_r.
  destruct (decide (i = String.length rest)) as [->|Hne].
  - rewrite (bool_decide_true (_ + _ = _ + _)%nat), (bool_decide_true (_ = String.length rest)) by done.
    by rewrite !orb_true_r.
  - rewrite !bool_decide_false by lia. done.
Qed.

(** A boundary cuts between two characters. *)
Lemma boundary_cuts chars i :
  Forall (fun ch => whole_character ch = true) chars ->
  is_char_boundary (concat_chars chars) i = true -> (i <= String.length (concat_chars chars))%nat ->
  exists k, String.substring 0 i (concat_chars chars) = concat_chars (take k chars).
Proof.
  intros HF. revert i. induction HF as [|ch chars Hch HF IH]; intros i Hb Hi.
  { cbn in Hi. assert (i = 0%nat) as -> by lia. by exists 0%nat. }
  destruct (decide (i = 0%nat)) as [->|Hi0].
  { exists 0%nat. cbn [concat_chars take]. by destruct (ch +:+ _). }
  cbn [concat_chars] in Hb, Hi |- *. rewrite string_length_app in Hi.
  destruct (decide (i < String.length ch)%nat) as [Hlt|Hge].
  { rewrite inside_no_boundary in Hb by (done || lia). done. }
  replace i with (String.length ch + (i - String.length ch))%nat in Hb |- * by lia.
  rewrite substring_app_r. destruct (decide (i - String.length ch = 0)%nat) as [->|Hne].
  - exists 1%nat. cbn [take concat_chars]. rewrite take_0. by destruct (concat_chars chars).
  - rewrite after_boundary in Hb by lia. destruct (IH _ Hb) as [k Hk]; [lia|].
    exists (S k). cbn [take concat_chars]. by rewrite Hk.
Qed.

(** Boundaries are at most four bytes apart. *)
Lemma boundary_near chars b :
  Forall (fun ch => whole_character ch = true) chars ->
  (b <= String.length (concat_chars chars))%nat ->
  (b < floor_char_boundary (concat_chars chars) b + 4)%nat.
Proof.
  intros HF Hb.
  enough (exists i, (i <= b < i + 4)%nat /\ is_char_boundary (concat_chars chars) i = true)
    as (i & Hi & Hbi).
  { destruct (decide (floor_char_boundary (concat_chars chars) b < i)%nat) as [Hlt|]; [|lia].
    rewrite (floor_char_boundary_greatest _ b i) in Hbi; [done|lia]. }
  revert b Hb. induction HF as [|ch chars Hch HF IH]; intros b Hb; cbn [concat_chars] in *.
  { cbn in Hb. exists 0%nat. split; [lia|done]. }
  rewrite string_length_app in Hb.
  assert (0 < String.length ch <= 4)%nat as Hl.
  { destruct ch as [|c t]; [done|]. cbn in Hch |- *.
    apply andb_true_iff in Hch as [_ Ht%Nat.leb_le]. lia. }
  destruct (decide (b < String.length ch)%nat) as [Hlt|Hge]; [exists 0%nat; split; [lia|done]|].
  destruct (IH (b - String.length ch)%nat) as (i & Hi & Hbi); [lia|].
  exists (String.length ch + i)%nat. split; [lia|].
  destruct (decide (i = 0%nat)) as [->|Hne]; [|by rewrite after_boundary by lia].
  unfold is_char_boundary. rewrite Nat.add_0_r, string_length_app, (bool_decide_false (_ = 0)%nat) by lia.
  destruct (concat_chars chars) as [|d r] eqn:Hr.
  { rewrite bool_decide_true by (cbn; lia). done. }
  rewrite bool_decide_false by (cbn; lia). cbn [orb].
  rewrite <-(Nat.add_0_r (String.length ch)), get_app_r. cbn [String.get].
  destruct HF as [|ch' chars' Hch' _]; [done|]. cbn [concat_chars] in Hr.
  destruct ch' as [|c t]; [done|]. rewrite string_app_cons in Hr. injection Hr as <- _.
  cbn in Hch'. apply andb_true_iff in Hch' as [[Hc _]%andb_true_iff _]. exact Hc.
Qed.

(** ** Shortened identifiers *)
Section shortened.
Context (sha256 : bytes -> bytes) (Hsha : forall b, length (sha256 b) = 32%nat).
Implicit Types x y : string.

Lemma hash_suffix_length x : String.length (hash_suffix sha256 x) = 24%nat.
Proof. unfold hash_suffix. rewrite hex_bytes_length, length_take, Hsha. done. Qed.

Definition long (x : string) : Prop := (POSTGRES_IDENTIFIER_MAX_BYTES < slen x)%Z.

Lemma shorten_short x : ~ long x -> shorten_identifier sha256 x = x.
Proof.
  unfold long, shorten_identifier. intros H. destruct (Z.leb_spec (slen x) POSTGRES_IDENTIFIER_MAX_BYTES); [done|lia].
Qed.

(** Where a long name is cut. *)
Definition cut (x : string) : nat := floor_char_boundary x 38.

Lemma shorten_long x :
  long x ->
  shorten_identifier sha256 x = String.substring 0 (cut x) x +:+ "_" +:+ hash_suffix sha256 x.
Proof.
  unfold long, shorten_identifier. intros H.
  destruct (Z.leb_spec (slen x) POSTGRES_IDENTIFIER_MAX_BYTES); [lia|].
  cbn zeta. rewrite hash_suffix_length. unfold slen, POSTGRES_IDENTIFIER_MAX_BYTES in *.
  rewrite Nat.min_l by lia. done.
Qed.

Lemma cut_length x : long x -> String.length (String.substring 0 (cut x) x) = cut x /\ (cut x <= 38)%nat.
Proof.
  intros H. unfold long, slen, POSTGRES_IDENTIFIER_MAX_BYTES in H.
  pose proof (floor_char_boundary_le x 38). unfold cut. split; [|done].
  apply substring_length. lia.
Qed.

Lemma shorten_length x : (slen (shorten_identifier sha256 x) <= 63)%Z.
Proof.
  destruct (decide (long x)) as [Hl|Hl].
  - rewrite shorten_long by done. rewrite !slen_app. destruct (cut_length x Hl) as [Hc ?].
    unfold slen. rewrite Hc, hash_suffix_length. change (String.length "_") with 1%nat. lia.
  - rewrite shorten_short by done. unfold long, POSTGRES_IDENTIFIER_MAX_BYTES in Hl. lia.
Qed.

Lemma shorten_valid x :
  x <> EmptyString -> contains_char nul x = false -> valid_identifier (shorten_identifier sha256 x).
Proof.
  intros He Hn. split_and!; [| |apply shorten_length].
  - destruct (decide (long x)) as [Hl|Hl]; [|by rewrite shorten_short].
    rewrite shorten_long by done. intros H. apply (f_equal slen) in H.
    rewrite !slen_app in H. unfold slen in H. cbn in H. lia.
  - destruct (decide (long x)) as [Hl|Hl]; [|by rewrite shorten_short].
    rewrite shorten_long, !contains_char_app by done. unfold hash_suffix.
    by rewrite hex_bytes_no_nul, contains_char_substring.
Qed.

(** The ways two different names can be shortened to the same one: all involve the digest. *)
Definition digest_clash x y : Prop :=
  x <> y /\
  ((long x /\ long y /\ hash_suffix sha256 x = hash_suffix sha256 y) \/
   (long x /\ exists p, y = p +:+ "_" +:+ hash_suffix sha256 x) \/
   (long y /\ exists p, x = p +:+ "_" +:+ hash_suffix sha256 y)).

Lemma shorten_inj x y :
  shorten_identifier sha256 x = shorten_identifier sha256 y -> x = y \/ digest_clash x y.
Proof.
  intros H. destruct (decide (x = y)) as [->|Hne]; [by left|right]. split; [done|].
  destruct (decide (long x)) as [Hx|Hx], (decide (long y)) as [Hy|Hy];
    rewrite ?(shorten_long x), ?(shorten_long y), ?(shorten_short x), ?(shorten_short y) in H by done.
  - left. split_and!; [done..|]. assert (Hl := H). apply (f_equal slen) in Hl.
    rewrite !slen_app in Hl. unfold slen in Hl. rewrite !hash_suffix_length in Hl.
    apply string_app_inj_len in H as [_ H]; [|lia]. by apply string_app_inj_l in H.
  - right; left. split; [done|]. by eexists.
  - right; right. split; [done|]. by eexists.
  - done.
Qed.
End shortened.

(** ** The default mapping *)

Lemma raw_schema_inj m s1 s2 :
  raw_schema m s1 = raw_schema m s2 -> qn_schema s1 = qn_schema s2.
Proof.
  unfold raw_schema. intros H. do 2 apply string_app_inj_l in H.
  do 2 apply string_app_inj_l in H. done.
Qed.

Lemma raw_schema_usable m source :
  contains_char nul (source_prefix m) = false ->
  contains_char nul (source_database m) = false ->
  contains_char nul (qn_schema source) = false ->
  raw_schema m source <> EmptyString /\ contains_char nul (raw_schema m source) = false.
Proof.
  intros Hp Hd Hs. unfold raw_schema. split.
  - intros H. apply (f_equal slen) in H. rewrite !slen_app in H. unfold slen in H. cbn in H. lia.
  - by rewrite !contains_char_app, Hp, Hd, Hs.
Qed.

Lemma all_not_nul p s :
  p nul = false -> Lsn.str_all p s = true -> contains_char nul s = false.
Proof.
  intros Hp. induction s as [|c s IH]; [done|]. cbn. intros [Hc Hs]%andb_true_iff.
  rewrite IH, orb_false_r by done. apply bool_decide_eq_false. intros <-. congruence.
Qed.

Lemma prefix_no_nul value p :
  SourcePrefix_new value = Ok p -> p = value /\ contains_char nul value = false.
Proof.
  unfold SourcePrefix_new. destruct value as [|c t]; [done|]. cbn zeta.
  destruct (is_ascii_lowercase c) eqn:Hc, (Lsn.str_all is_prefix_char t) eqn:Ht; cbn [andb negb];
    try done.
  destruct (slen _ <=? 24)%Z; [|done]. intros [= <-]. split; [done|]. cbn.
  rewrite (all_not_nul is_prefix_char) by done. rewrite orb_false_r. apply bool_decide_eq_false.
  intros <-. done.
Qed.

Lemma map_name_Ok sha m source t :
  map_name sha m source = Ok t <->
  valid_identifier (source_database m) /\ valid_identifier (target_database m) /\
  valid_identifier (shorten_identifier sha (raw_schema m source)) /\
  valid_identifier (qn_name source) /\
  t = mkTargetTableName (target_database m)
        (mkQualifiedName (shorten_identifier sha (raw_schema m source)) (qn_name source)).
Proof.
  unfold map_name. rewrite <-!validate_identifier_Ok. split.
  - intros H. res_inv. apply QualifiedName_new_Ok in H2 as (->%validate_identifier_Ok & ->%validate_identifier_Ok & ->).
    repeat match goal with u : unit |- _ => destruct u end. done.
  - intros (-> & -> & H3 & H4 & ->). cbn [mbind result_bind].
    unfold QualifiedName_new. by rewrite H3, H4.
Qed.

(** Shortening an identifier always gives a PostgreSQL identifier of at most 63 bytes and
    leaves one that already fits alone.  A long name keeps a beginning made of whole
    characters, as many as fit in 38 bytes, followed by 96 bits of its digest. *)
Theorem shortened_identifier_fits (sha256 : bytes -> bytes) (value : string)
    (Hsha : forall b, length (sha256 b) = 32%nat)
    (Hvalue : value <> EmptyString) (Hnul : contains_char nul value = false) :
  valid_identifier (shorten_identifier sha256 value) /\
  ((slen value <= 63)%Z -> shorten_identifier sha256 value = value) /\
  forall chars, Forall (fun ch => whole_character ch = true) chars ->
    value = concat_chars chars -> (63 < slen value)%Z ->
    exists kept,
      shorten_identifier sha256 value =
        concat_chars (take kept chars) +:+ "_" +:+ hash_suffix sha256 value /\
      (35 <= slen (concat_chars (take kept chars)) <= 38)%Z.
Proof.
  split_and!; [by apply shorten_valid| |].
  { intros H. apply shorten_short. unfold long, POSTGRES_IDENTIFIER_MAX_BYTES. lia. }
  intros chars HF Hc Hl. assert (long value) as Hlong by done.
  destruct (cut_length value Hlong) as [Hlen Hcut].
  destruct (boundary_cuts chars (cut value)) as [k Hk]; [done| | |].
  - rewrite <-Hc. apply floor_char_boundary_is.
  - rewrite <-Hc. unfold slen in Hl. lia.
  - exists k. rewrite <-Hk, <-Hc, shorten_long by done. split; [done|].
    unfold slen. rewrite Hlen. pose proof (boundary_near chars 38 HF) as Hn.
    rewrite <-Hc in Hn. fold (cut value) in Hn. unfold slen in Hl. lia.
Qed.

(** The default mapping of a source's tables.  It succeeds for every table of a validly
    named source database; the target is in the target database, keeps the table's name and is
    a valid name; and no two tables of the source share a target unless the digests of two
    different schema names clash.  Two sources, however, are not kept apart by the
    uniqueness of their prefixes: the separator may occur in names. *)
Theorem default_mapping_separates_tables (sha256 : bytes -> bytes) (m : DefaultNameMapper)
    (value : string)
    (Hsha : forall b, length (sha256 b) = 32%nat)
    (Hprefix : SourcePrefix_new value = Ok (source_prefix m))
    (Hsource : valid_identifier (source_database m))
    (Htarget : valid_identifier (target_database m)) :
  (forall s, valid_identifier (qn_schema s) -> valid_identifier (qn_name s) ->
     exists t, map_name sha256 m s = Ok t /\ tt_database t = target_database m /\
       qn_name (tt_relation t) = qn_name s /\ valid_identifier (qn_schema (tt_relation t))) /\
  (forall s1 s2 t, map_name sha256 m s1 = Ok t -> map_name sha256 m s2 = Ok t ->
     s1 = s2 \/ digest_clash sha256 (raw_schema m s1) (raw_schema m s2)) /\
  exists p1 p2 d1 d2, p1 <> p2 /\ SourcePrefix_new p1 = Ok p1 /\ SourcePrefix_new p2 = Ok p2 /\
    valid_identifier d1 /\ valid_identifier d2 /\
    forall s, map_name sha256 (mkDefaultNameMapper (target_database m) p1 d1) s =
      map_name sha256 (mkDefaultNameMapper (target_database m) p2 d2) s.
Proof.
  destruct (prefix_no_nul _ _ Hprefix) as [Hpv Hpn]. rewrite <-Hpv in Hpn. split_and!.
  - intros s (_ & Hsn & _) Hname.
    destruct (raw_schema_usable m s Hpn) as [He Hn]; [apply Hsource|done|].
    eexists. rewrite map_name_Ok. split_and!; try done; by apply shorten_valid.
  - intros s1 s2 t (_ & _ & _ & _ & ->)%map_name_Ok (_ & _ & _ & _ & [= Hs Hn])%map_name_Ok.
    destruct (shorten_inj sha256 Hsha _ _ Hs) as [H%raw_schema_inj|H]; [left|by right].
    destruct s1, s2. cbn in *. by subst.
  - exists "a", "a__b", "b__c", "c". split_and!; try done; by apply validate_identifier_Ok.
Qed.

Lemma shortened_identifier_fits_witness :
  valid_identifier (shorten_identifier (fun _ => replicate 32 x61)
    (concat_chars (replicate 64 "a"))).
Proof.
  refine (proj1 (shortened_identifier_fits (fun _ => replicate 32 x61)
    (concat_chars (replicate 64 "a")) _ _ _)); [|done|vm_compute; reflexivity].
  intros _. reflexivity.
Defined.

Lemma default_mapping_separates_tables_witness :
  exists t, map_name (fun _ => replicate 32 x61) (mkDefaultNameMapper "analytics" "erp" "sales")
    (mkQualifiedName "public" "orders") = Ok t /\ tt_database t = "analytics".
Proof.
  destruct (default_mapping_separates_tables (fun _ => replicate 32 x61)
    (mkDefaultNameMapper "analytics" "erp" "sales") "erp") as (H & _).
  - intros _. reflexivity.
  - reflexivity.
  - by apply validate_identifier_Ok.
  - by apply validate_identifier_Ok.
  - destruct (H (mkQualifiedName "public" "orders")) as (t & Ht & Hd & _);
      [by apply validate_identifier_Ok|by apply validate_identifier_Ok|].
    by exists t.
Defined.
