(* ===== verification/Batch.v ===== *)
(** * Bounded, node-ordered batching

    Models [crates/engine/src/batch.rs].  [Batcher] is the record of the Rust struct,
    [push], [flush], [take_pending] and [validate_order] are its methods as functions
    that return the new state next to their result. *)

From S2P Require Import Prelude Core Schema Change.

(** [max_delay] is a [Duration], here nanoseconds. *)
Record BatchLimits : Type := mkBatchLimits {
  max_rows : Z;
  max_bytes : Z;
  max_delay : Z;
}.

Definition BatchLimits_default : BatchLimits :=
  mkBatchLimits 10000 (16 * 1024 * 1024) (250 * 1000000).

Inductive BatchError : Type :=
| InvalidLimits
| MixedNodes (expected actual : Z)
| MixedSystems
| NonMonotonicLsn (previous actual : string).
Global Instance BatchError_eq_dec : EqDecision BatchError.
Proof. solve_decision. Defined.

Record TransactionBatch : Type := mkTransactionBatch {
  transactions : list SourceTransaction;
  row_count : Z;
  estimated_bytes : Z;
  has_generation_barrier : bool;
}.

(** [TransactionBatch::final_transaction]: [last().expect(..)]. *)
Definition final_transaction {E} (b : TransactionBatch) : result E SourceTransaction :=
  expect (last (transactions b)).

Record Batcher : Type := mkBatcher {
  limits : BatchLimits;
  pending : list SourceTransaction;
  pending_rows : Z;
  pending_bytes : Z;
  node_identity : option (Z * Z);
}.

(** [Batcher::new]. *)
Definition Batcher_new (l : BatchLimits) : result BatchError Batcher :=
  if (max_rows l =? 0)%Z || (max_bytes l =? 0)%Z || (max_delay l =? 0)%Z
  then Err InvalidLimits
  else Ok (mkBatcher l [] 0 0 None).

Definition is_row (c : TransactionChange) : bool :=
  match c with Row _ => true | _ => false end.

(** [transaction_row_count]. *)
Definition transaction_row_count (t : SourceTransaction) : Z :=
  len (List.filter is_row (st_changes t)).

(** [transaction_estimated_bytes]. *)
Definition change_estimated_bytes (c : TransactionChange) : Z :=
  match c with
  | Row change => row_change_bytes (tc_change change)
  | Truncate relation_ids _ _ => len relation_ids * 4
  | Ddl message =>
      slen (ddl_command_tag message) + slen (ddl_schema_fingerprint message)
      + len (ddl_relation_ids message) * 4
  end.

Definition transaction_estimated_bytes (t : SourceTransaction) : Z :=
  sum_Z (map change_estimated_bytes (st_changes t)).

(** [Batcher::validate_order]. *)
Definition validate_order (self : Batcher) (t : SourceTransaction) : result BatchError unit :=
  let pos := st_final_position t in
  let? _ :=
    match node_identity self with
    | Some (node, system) =>
        if negb (node =? node_id pos)%Z then Err (MixedNodes node (node_id pos))
        else if negb (system =? system_identifier pos)%Z then Err MixedSystems
        else Ok tt
    | None => Ok tt
    end in
  match last (pending self) with
  | Some previous =>
      if (lsn pos <? final_lsn previous)%Z
      then Err (NonMonotonicLsn (Lsn.to_string (final_lsn previous)) (Lsn.to_string (lsn pos)))
      else Ok tt
  | None => Ok tt
  end.

(** [Batcher::take_pending]: the batch of everything pending, and the emptied batcher. *)
Definition take_pending (self : Batcher) : TransactionBatch * Batcher :=
  (mkTransactionBatch (pending self) (pending_rows self) (pending_bytes self)
     (existsb has_barrier (pending self)),
   mkBatcher (limits self) [] 0 0 None).

Definition is_empty (self : Batcher) : bool := bool_decide (pending self = []).

(** The condition under which [push] emits what was pending before it accepts [t]. *)
Definition must_flush (self : Batcher) (t : SourceTransaction) : bool :=
  negb (is_empty self)
  && (has_barrier t
      || (max_rows (limits self) <? saturating_add (pending_rows self) (transaction_row_count t))%Z
      || (max_bytes (limits self)
          <? saturating_add (pending_bytes self) (transaction_estimated_bytes t))%Z
      || (max_rows (limits self) <=? len (pending self))%Z).

(** [Batcher::push]. *)
Definition push (self : Batcher) (t : SourceTransaction)
    : result BatchError (option TransactionBatch * Batcher) :=
  let? _ := validate_order self t in
  let rows := transaction_row_count t in
  let bytes := transaction_estimated_bytes t in
  let (full, self) :=
    if must_flush self t
    then let (batch, self) := take_pending self in (Some batch, self)
    else (None, self) in
  Ok (full,
      mkBatcher (limits self) (pending self ++ [t])
        (saturating_add (pending_rows self) rows)
        (saturating_add (pending_bytes self) bytes)
        (Some (node_id (st_final_position t), system_identifier (st_final_position t)))).

(** [Batcher::flush]. *)
Definition flush (self : Batcher) : option TransactionBatch * Batcher :=
  if is_empty self then (None, self)
  else let (batch, self) := take_pending self in (Some batch, self).

(** ** Invariant *)

Definition same_identity (node system : Z) (t : SourceTransaction) : Prop :=
  node_id (st_final_position t) = node /\ system_identifier (st_final_position t) = system.

(** A barrier transaction can only open a sequence of transactions. *)
Definition barrier_first (ts : list SourceTransaction) : Prop :=
  Forall (fun t => has_barrier t = false) (tail ts).

(** What holds of the transactions a batch carries: one node, commit order, a leading
    barrier at most, and the limits, which only a single transaction may exceed. *)
Record batchable (l : BatchLimits) (ts : list SourceTransaction) : Prop := {
  batchable_identity : exists node system, Forall (same_identity node system) ts;
  batchable_sorted : Sorted lsn_le ts;
  batchable_barrier : barrier_first ts;
  batchable_count : (len ts <= max_rows l)%Z;
  batchable_size : (2 <= length ts)%nat ->
    (saturating_sum (map transaction_row_count ts) <= max_rows l)%Z /\
    (saturating_sum (map transaction_estimated_bytes ts) <= max_bytes l)%Z;
}.

(** The batches the batcher emits. *)
Record wf_batch (l : BatchLimits) (b : TransactionBatch) : Prop := {
  wf_batch_nonempty : transactions b <> [];
  wf_batch_batchable : batchable l (transactions b);
  wf_batch_rows : row_count b = saturating_sum (map transaction_row_count (transactions b));
  wf_batch_bytes :
    estimated_bytes b = saturating_sum (map transaction_estimated_bytes (transactions b));
  wf_batch_flag : has_generation_barrier b = existsb has_barrier (transactions b);
}.

Record wf (b : Batcher) : Prop := {
  wf_max_rows : (0 < max_rows (limits b))%Z;
  wf_pending : batchable (limits b) (pending b);
  wf_rows : pending_rows b = saturating_sum (map transaction_row_count (pending b));
  wf_bytes : pending_bytes b = saturating_sum (map transaction_estimated_bytes (pending b));
  wf_identity : match node_identity b with
                | Some (node, system) => Forall (same_identity node system) (pending b)
                | None => pending b = []
                end;
}.

(** ** Lemmas *)

Definition limits_ok (l : BatchLimits) : Prop :=
  (0 <= max_rows l)%Z /\ (0 <= max_bytes l)%Z /\ (0 <= max_delay l)%Z.

Lemma batchable_nil l : (0 <= max_rows l)%Z -> batchable l [].
Proof.
  intros. split; [|constructor|constructor|done|cbn; lia].
  exists 0%Z, 0%Z. constructor.
Qed.

Lemma batchable_singleton l t : (0 < max_rows l)%Z -> batchable l [t].
Proof.
  intros. split; [|by repeat constructor|constructor|unfold len; cbn; lia|cbn; lia].
  do 2 eexists. constructor; [by split|constructor].
Qed.

Lemma Batcher_new_Ok l b :
  limits_ok l -> Batcher_new l = Ok b -> wf b /\ pending b = [] /\ limits b = l.
Proof.
  unfold Batcher_new. intros (Hr & _ & _). destruct (_ || _) eqn:Hz; [done|]. intros [= <-].
  rewrite !orb_false_iff, !Z.eqb_neq in Hz. split_and!; [|done|done].
  split; cbn; [lia|apply batchable_nil; lia|done|done|done].
Qed.

Lemma take_pending_wf b :
  wf b -> pending b <> [] ->
  wf_batch (limits b) (take_pending b).1 /\ wf (take_pending b).2 /\
  transactions (take_pending b).1 = pending b.
Proof.
  intros [Hm Hp Hr Hb Hi] Hne. split_and!; [by split|split; cbn; try done|done].
  apply batchable_nil. lia.
Qed.

(** A non-empty pending list, its last element and the identity [push] compares with. *)
Lemma validate_order_Ok b t :
  wf b -> validate_order b t = Ok tt ->
  (forall node system, node_identity b = Some (node, system) -> same_identity node system t) /\
  (forall p, last (pending b) = Some p -> lsn_le p t).
Proof.
  intros _ H. unfold validate_order in H. res_inv. split.
  - intros node system E. rewrite E in H0. cbv zeta in H0.
    destruct (Z.eqb_spec node (node_id (st_final_position t))); [|done].
    destruct (Z.eqb_spec system (system_identifier (st_final_position t))); [|done].
    by split.
  - intros p E. rewrite E in H. destruct (Z.ltb_spec (lsn (st_final_position t)) (final_lsn p));
      [done|]. unfold lsn_le, final_lsn in *. lia.
Qed.

(** Appending a transaction that [must_flush] lets through keeps [batchable]. *)
Lemma batchable_snoc b t node system :
  wf b -> pending b <> [] -> must_flush b t = false ->
  node_identity b = Some (node, system) -> same_identity node system t ->
  (forall p, last (pending b) = Some p -> lsn_le p t) ->
  batchable (limits b) (pending b ++ [t]).
Proof.
  intros [Hm [_ Hs Hb Hc Hsz] Hr Hby Hi] Hne Hf Hid Hsame Hlast.
  unfold must_flush, is_empty in Hf. rewrite bool_decide_false in Hf by done. cbn in Hf.
  rewrite !orb_false_iff, !Z.ltb_ge, Z.leb_gt in Hf. destruct Hf as [[[Hbar Hrow] Hbyte] Hcnt].
  rewrite Hid in Hi. split.
  - exists node, system. apply Forall_app. by split; [|constructor].
  - by apply Sorted_snoc.
  - unfold barrier_first. destruct (pending b) as [|p ps]; [done|]. cbn in *.
    apply Forall_app. split; [exact Hb|by constructor].
  - rewrite len_app. unfold len in *. cbn. lia.
  - intros _. rewrite !saturating_sum_map_snoc, <-Hr, <-Hby. lia.
Qed.

(** One accepted [push]: the invariant is kept, the emitted batch (if any) is well formed,
    and nothing is lost or reordered. *)
Lemma push_spec b t out b' :
  wf b -> push b t = Ok (out, b') ->
  wf b' /\ limits b' = limits b /\
  match out with
  | Some full => wf_batch (limits b) full /\ transactions full = pending b /\ pending b' = [t]
  | None => pending b' = pending b ++ [t]
  end.
Proof.
  intros Hwf H. unfold push in H. res_inv. destruct v.
  destruct (validate_order_Ok b t Hwf H0) as [Hid Hlast].
  destruct (must_flush b t) eqn:Hf.
  - assert (Hne : pending b <> []).
    { intros E. unfold must_flush, is_empty in Hf. by rewrite bool_decide_true in Hf. }
    destruct (take_pending_wf b Hwf Hne) as (Hfull & [] & Htr).
    cbn in H. injection H as <- <-. cbn in *. split_and!; try done.
    split; cbn; [done|by apply batchable_singleton|done|done|by repeat constructor].
  - injection H as <- <-. cbn. split_and!; try done.
    destruct (decide (pending b = [])) as [Hnil|Hne].
    + destruct Hwf as [Hm _ Hr Hby _]. rewrite Hr, Hby, Hnil. cbn.
      split; cbn; [done|by apply batchable_singleton|done|done|by repeat constructor].
    + destruct (node_identity b) as [[node system]|] eqn:Hni; cycle 1.
      { destruct Hwf as [_ _ _ _ Hi]. by rewrite Hni in Hi. }
      specialize (Hid _ _ eq_refl). pose proof (batchable_snoc b t node system Hwf Hne Hf Hni Hid Hlast).
      destruct Hwf as [Hm _ Hr Hby Hi]. rewrite Hni in Hi.
      split; cbn; [done|done| | |].
      * by rewrite saturating_sum_map_snoc, Hr.
      * by rewrite saturating_sum_map_snoc, Hby.
      * destruct Hid as [Hn Hs]. rewrite Hn, Hs. apply Forall_app. split; [done|].
        constructor; [by split|constructor].
Qed.

Lemma flush_spec b out b' :
  wf b -> flush b = (out, b') ->
  wf b' /\ limits b' = limits b /\ pending b' = [] /\
  match out with
  | Some full => wf_batch (limits b) full /\ transactions full = pending b
  | None => pending b = []
  end.
Proof.
  intros Hwf. unfold flush, is_empty. case_bool_decide as Hnil; intros [= <- <-]; [done|].
  destruct (take_pending_wf b Hwf Hnil) as (Hfull & Hwf' & Htr). done.
Qed.
#[export] Hint Resolve batchable_nil batchable_singleton : etl.

(** A sequence of pushes, and the batches it emits in order. *)
Fixpoint push_all (b : Batcher) (ts : list SourceTransaction)
    : result BatchError (list TransactionBatch * Batcher) :=
  match ts with
  | [] => Ok ([], b)
  | t :: ts =>
      let? r := push b t in
      let? rest := push_all r.2 ts in
      Ok (match r.1 with Some full => full :: rest.1 | None => rest.1 end, rest.2)
  end.

Lemma push_all_spec ts b out b' :
  wf b -> push_all b ts = Ok (out, b') ->
  wf b' /\ limits b' = limits b /\ Forall (wf_batch (limits b)) out /\
  concat (map transactions out) ++ pending b' = pending b ++ ts.
Proof.
  revert b out b'. induction ts as [|t ts IH]; intros b out b' Hwf H; cbn in H.
  { injection H as <- <-. rewrite app_nil_r. by split_and!. }
  res_inv. destruct v as [full b1], v0 as [rest b2]. cbn in *.
  destruct (push_spec _ _ _ _ Hwf H0) as (Hwf1 & Hl1 & Hout).
  destruct (IH _ _ _ Hwf1 H1) as (Hwf2 & Hl2 & HF & Heq). rewrite Hl1 in *.
  split_and!; [done|congruence| |].
  - destruct full; [constructor; tauto|done].
  - destruct full as [full|]; cbn.
    + destruct Hout as (_ & Htr & Hp). rewrite <-app_assoc, Heq, Htr, Hp. done.
    + by rewrite Heq, Hout, <-app_assoc.
Qed.

(** *** Properties *)

(** Batching neither loses, duplicates nor reorders anything: whatever sequence of
    transactions the batcher accepts, the batches it emitted, followed by the batch the
    final [flush] returns, concatenate to exactly that sequence; and the batcher is then
    empty. *)
Theorem batching_preserves_the_stream l b ts out b1 last_batch b2 :
  limits_ok l -> Batcher_new l = Ok b -> push_all b ts = Ok (out, b1) ->
  flush b1 = (last_batch, b2) ->
  concat (map transactions (out ++ option_list last_batch)) = ts /\ pending b2 = [].
Proof.
  intros Hl Hnew Hpush Hflush. destruct (Batcher_new_Ok _ _ Hl Hnew) as (Hwf & Hnil & Hlim).
  destruct (push_all_spec _ _ _ _ Hwf Hpush) as (Hwf1 & Hlim1 & _ & Heq).
  destruct (flush_spec _ _ _ Hwf1 Hflush) as (_ & _ & Hp & Hout). split; [|done].
  rewrite Hnil in Heq. cbn in Heq. rewrite <-Heq, map_app, concat_app. f_equal.
  destruct last_batch as [full|]; cbn.
  - destruct Hout as [_ ->]. by rewrite app_nil_r.
  - by rewrite Hout.
Qed.

(** Every batch the batcher emits while it accepts transactions is well formed: it is
    not empty, comes from one node of one database system in commit order, carries the
    counts and the barrier flag of its transactions, can hold a generation barrier only in
    its first transaction, and stays within the row and byte limits unless it is a single
    transaction. *)
Theorem emitted_batches_are_well_formed l b ts out b1 last_batch b2 :
  limits_ok l -> Batcher_new l = Ok b -> push_all b ts = Ok (out, b1) ->
  flush b1 = (last_batch, b2) ->
  Forall (wf_batch l) (out ++ option_list last_batch).
Proof.
  intros Hl Hnew Hpush Hflush. destruct (Batcher_new_Ok _ _ Hl Hnew) as (Hwf & Hnil & Hlim).
  destruct (push_all_spec _ _ _ _ Hwf Hpush) as (Hwf1 & Hlim1 & HF & _).
  destruct (flush_spec _ _ _ Hwf1 Hflush) as (_ & _ & _ & Hout). rewrite Hlim1, Hlim in *.
  apply Forall_app. split; [done|]. destruct last_batch as [full|]; cbn; [|constructor].
  constructor; [tauto|constructor].
Qed.

(** Three empty transactions against a limit of two rows: the third one flushes the first
    two. *)
Definition example_limits : BatchLimits := mkBatchLimits 2 1024 1000000000.
Definition example_tx (l : Z) : SourceTransaction :=
  mkSourceTransaction l 0 (mkSourcePosition 1 9 1 l) [].
Definition example_batcher : Batcher := mkBatcher example_limits [] 0 0 None.
Definition example_stream : list SourceTransaction := map example_tx [1%Z; 2%Z; 3%Z].

Lemma batching_preserves_the_stream_witness :
  exists out b1 last_batch b2,
    push_all example_batcher example_stream = Ok (out, b1) /\ flush b1 = (last_batch, b2) /\
    length out = 1%nat /\
    concat (map transactions (out ++ option_list last_batch)) = example_stream /\
    pending b2 = [].
Proof.
  do 4 eexists. split; [vm_compute; reflexivity|]. split; [vm_compute; reflexivity|].
  split; [reflexivity|].
  eapply (batching_preserves_the_stream example_limits example_batcher example_stream);
    [by repeat split|vm_compute; reflexivity..].
Defined.

Lemma emitted_batches_are_well_formed_witness :
  exists out b1 last_batch b2,
    push_all example_batcher example_stream = Ok (out, b1) /\ flush b1 = (last_batch, b2) /\
    Forall (wf_batch example_limits) (out ++ option_list last_batch).
Proof.
  do 4 eexists. split; [vm_compute; reflexivity|]. split; [vm_compute; reflexivity|].
  eapply (emitted_batches_are_well_formed example_limits example_batcher example_stream);
    [by repeat split|vm_compute; reflexivity..].
Defined.
