(* ===== verification/Copy.v ===== *)
(** * PostgreSQL text COPY encoding

    Models [crates/target-cloudberry/src/copy.rs]: the escaping of one field and of one row.
    [decode_row] is the reference reading of that format, as the server's COPY documentation
    states it; the encoder is proved to be inverted by it. *)

From S2P Require Import Prelude Core Schema Change.

Inductive CopyEncodeError : Type :=
| EmptyRow
| CopyUnchangedToast
| BinaryValue.
Global Instance CopyEncodeError_eq_dec : EqDecision CopyEncodeError.
Proof. solve_decision. Defined.

(** One arm of [encode_text_bytes]. *)
Definition encode_text_byte (b : byte) : bytes :=
  match b with
  | x5c => [x5c; x5c]
  | x09 => [x5c; x74]
  | x0a => [x5c; x6e]
  | x0d => [x5c; x72]
  | x08 => [x5c; x62]
  | x0c => [x5c; x66]
  | x0b => [x5c; x76]
  | x00 => [x5c; x30; x30; x30]
  | b => [b]
  end.

(** [encode_text_bytes]: what the loop appends to the output. *)
Fixpoint encode_text_bytes (value : bytes) : bytes :=
  match value with
  | [] => []
  | b :: value => encode_text_byte b ++ encode_text_bytes value
  end.

(** [encode_field_into] and [encode_field]. *)
Definition encode_field (cell : Cell) : result CopyEncodeError bytes :=
  match cell with
  | Null => Ok [x5c; x4e]
  | UnchangedToast => Err CopyUnchangedToast
  | Binary _ => Err BinaryValue
  | Text value => Ok (encode_text_bytes value)
  end.

(** The loop of [encode_row] over the fields after the first. *)
Fixpoint encode_rest (rest : list Cell) : result CopyEncodeError bytes :=
  match rest with
  | [] => Ok []
  | cell :: rest =>
      let? field := encode_field cell in
      let? tail := encode_rest rest in
      Ok (x09 :: field ++ tail)
  end.

(** [encode_row]. *)
Definition encode_row (cells : list Cell) : result CopyEncodeError bytes :=
  match cells with
  | [] => Err EmptyRow
  | first :: rest =>
      let? field := encode_field first in
      let? tail := encode_rest rest in
      Ok (field ++ tail ++ [x0a])
  end.

(** ** The format itself *)

Definition octal_digit (b : byte) : option N :=
  let n := Byte.to_N b in
  if (48 <=? n)%N && (n <=? 55)%N then Some (n - 48)%N else None.

Definition octal_byte (n : N) : byte := default x00 (Byte.of_N (n mod 256)).

(** The backslash escapes of text COPY. *)
Definition escape_byte (b : byte) : byte :=
  match b with
  | x62 => x08
  | x66 => x0c
  | x6e => x0a
  | x72 => x0d
  | x74 => x09
  | x76 => x0b
  | b => b
  end.

Fixpoint unescape (l : bytes) : bytes :=
  match l with
  | [] => []
  | b :: l1 =>
      if bool_decide (b = x5c) then
        match l1 with
        | [] => []
        | c :: l2 =>
            match octal_digit c with
            | None => escape_byte c :: unescape l2
            | Some d1 =>
                match l2 with
                | [] => [octal_byte d1]
                | c2 :: l3 =>
                    match octal_digit c2 with
                    | None => octal_byte d1 :: unescape l2
                    | Some d2 =>
                        match l3 with
                        | [] => [octal_byte (d1 * 8 + d2)]
                        | c3 :: l4 =>
                            match octal_digit c3 with
                            | None => octal_byte (d1 * 8 + d2) :: unescape l3
                            | Some d3 => octal_byte (d1 * 64 + d2 * 8 + d3) :: unescape l4
                            end
                        end
                    end
                end
            end
        end
      else b :: unescape l1
  end.

(** A raw field: the two bytes [\N] are NULL, anything else is unescaped. *)
Definition decode_field (raw : bytes) : option bytes :=
  if bool_decide (raw = [x5c; x4e]) then None else Some (unescape raw).

(** Splits at every separator byte. *)
Fixpoint split_at (sep : byte) (l : bytes) : list bytes :=
  match l with
  | [] => [[]]
  | b :: l =>
      if bool_decide (b = sep) then [] :: split_at sep l
      else match split_at sep l with
           | field :: fields => (b :: field) :: fields
           | [] => [[b]]
           end
  end.

(** The lines of a COPY stream; the last one is terminated by a newline like the others. *)
Definition copy_lines (l : bytes) : list bytes :=
  match reverse (split_at x0a l) with
  | [] :: lines => reverse lines
  | lines => reverse lines
  end.

(** [None] is NULL. *)
Definition decode_line (line : bytes) : list (option bytes) := map decode_field (split_at x09 line).

Definition decode_rows (l : bytes) : list (list (option bytes)) := map decode_line (copy_lines l).

(** The value a cell stores. *)
Definition cell_value (c : Cell) : option bytes :=
  match c with
  | Null => None
  | UnchangedToast => None
  | Text v | Binary v => Some v
  end.

Definition encodable (c : Cell) : bool :=
  match c with Null | Text _ => true | UnchangedToast | Binary _ => false end.

(** ** Lemmas *)

Lemma unescape_byte b l : unescape (encode_text_byte b ++ l) = b :: unescape l.
Proof. destruct b; reflexivity. Qed.

Lemma unescape_encode v l : unescape (encode_text_bytes v ++ l) = v ++ unescape l.
Proof.
  revert l. induction v as [|b v IH]; intros l; [done|]. cbn [encode_text_bytes].
  rewrite <-(assoc_L (++)), unescape_byte, IH. done.
Qed.

(** Neither a separator nor a row terminator occurs inside an encoded field. *)
Definition plain (b : byte) : bool := negb (bool_decide (b = x09)) && negb (bool_decide (b = x0a)).

Lemma encode_text_byte_plain b : forallb plain (encode_text_byte b) = true.
Proof. destruct b; reflexivity. Qed.

Lemma encode_text_bytes_plain v : forallb plain (encode_text_bytes v) = true.
Proof.
  induction v as [|b v IH]; [done|]. cbn [encode_text_bytes]. rewrite forallb_app.
  by rewrite encode_text_byte_plain, IH.
Qed.

Lemma encode_field_plain c f : encode_field c = Ok f -> forallb plain f = true.
Proof.
  destruct c; cbn [encode_field]; intros [= <-]; [reflexivity|apply encode_text_bytes_plain].
Qed.

Lemma encode_text_not_null v : encode_text_bytes v <> [x5c; x4e].
Proof.
  destruct v as [|b v]; [done|]. cbn [encode_text_bytes]. destruct b; try done.
Qed.

Lemma decode_encode_field c f : encode_field c = Ok f -> decode_field f = cell_value c.
Proof.
  destruct c as [| |v|v]; cbn [encode_field]; intros [= <-]; [reflexivity|].
  unfold decode_field. rewrite bool_decide_false by apply encode_text_not_null. cbn. f_equal.
  rewrite <-(app_nil_r (encode_text_bytes v)), unescape_encode. cbn. by rewrite app_nil_r.
Qed.

Lemma encode_field_Ok c : encodable c = true -> exists f, encode_field c = Ok f.
Proof. destruct c; cbn; eauto; done. Qed.

(** A prefix without separators is the start of the first field. *)
Lemma split_at_plain sep (f l : bytes) field fields :
  forallb (fun b => negb (bool_decide (b = sep))) f = true ->
  split_at sep l = field :: fields -> split_at sep (f ++ l) = (f ++ field) :: fields.
Proof.
  intros Hf Hl. induction f as [|b f IH]; [done|].
  cbn [forallb] in Hf. apply andb_true_iff in Hf as [Hb Hf]. apply negb_true_iff in Hb.
  cbn. by rewrite Hb, IH.
Qed.

Lemma plain_tab f : forallb plain f = true ->
  forallb (fun b => negb (bool_decide (b = x09))) f = true.
Proof. rewrite !forallb_forall. intros H x Hx. by apply H, andb_true_iff in Hx as [? _]. Qed.
Lemma plain_newline f : forallb plain f = true ->
  forallb (fun b => negb (bool_decide (b = x0a))) f = true.
Proof. rewrite !forallb_forall. intros H x Hx. by apply H, andb_true_iff in Hx as [_ ?]. Qed.

Lemma encode_rest_spec rest tail :
  encode_rest rest = Ok tail ->
  forallb (fun b => negb (bool_decide (b = x0a))) tail = true /\
  forall f, forallb plain f = true ->
    map decode_field (split_at x09 (f ++ tail)) = decode_field f :: map cell_value rest.
Proof.
  revert tail. induction rest as [|c rest IH]; intros tail H; cbn [encode_rest] in H.
  - injection H as <-. split; [done|]. intros f Hf.
    rewrite (split_at_plain x09 f [] [] []) by (done || by apply plain_tab).
    cbn. by rewrite app_nil_r.
  - res_inv. destruct (IH _ H1) as [Hnl Hdec]. pose proof (encode_field_plain _ _ H0) as Hp.
    specialize (Hdec _ Hp). split.
    + cbn [forallb]. rewrite forallb_app, Hnl, (plain_newline _ Hp). done.
    + intros f Hf. destruct (split_at x09 (v ++ v0)) as [|g gs] eqn:Hs; [done|].
      rewrite (split_at_plain x09 f (x09 :: v ++ v0) [] (g :: gs));
        [|by apply plain_tab|cbn; by rewrite Hs].
      rewrite app_nil_r. cbn [map]. f_equal. cbn in Hdec. cbn. rewrite Hdec.
      f_equal. by apply decode_encode_field.
Qed.

Lemma encode_row_spec cs enc :
  encode_row cs = Ok enc ->
  exists line, enc = line ++ [x0a] /\
    forallb (fun b => negb (bool_decide (b = x0a))) line = true /\
    decode_line line = map cell_value cs.
Proof.
  destruct cs as [|c cs]; [done|]. cbn [encode_row]. intros H. res_inv.
  destruct (encode_rest_spec _ _ H1) as [Hnl Hdec]. pose proof (encode_field_plain _ _ H0) as Hp.
  exists (v ++ v0). split_and!.
  - by rewrite (assoc_L (++)).
  - by rewrite forallb_app, Hnl, (plain_newline _ Hp).
  - unfold decode_line. rewrite Hdec by done. cbn. f_equal. by apply decode_encode_field.
Qed.

Lemma encode_rest_Ok rest : forallb encodable rest = true -> exists t, encode_rest rest = Ok t.
Proof.
  induction rest as [|c rest IH]; cbn [forallb encode_rest]; [by eauto|].
  intros [Hc Hr]%andb_true_iff. destruct (encode_field_Ok c Hc) as [f ->].
  destruct (IH Hr) as [t ->]. cbn. eauto.
Qed.

Lemma encode_row_Ok cs :
  cs <> [] -> forallb encodable cs = true -> exists enc, encode_row cs = Ok enc.
Proof.
  destruct cs as [|c cs]; [done|]. intros _. cbn [forallb encode_row].
  intros [Hc Hr]%andb_true_iff. destruct (encode_field_Ok c Hc) as [f ->].
  destruct (encode_rest_Ok _ Hr) as [t ->]. cbn. eauto.
Qed.

Lemma split_lines (lines : list bytes) :
  Forall (fun line => forallb (fun b => negb (bool_decide (b = x0a))) line = true) lines ->
  split_at x0a (concat (map (fun line => line ++ [x0a]) lines)) = lines ++ [[]].
Proof.
  induction 1 as [|line lines Hl _ IH]; [done|]. cbn [map concat].
  rewrite <-(assoc_L (++)). rewrite (split_at_plain x0a line _ [] (lines ++ [[]])); [|done|].
  - by rewrite app_nil_r.
  - change ([x0a] ++ ?l) with (x0a :: l). cbn [split_at]. rewrite bool_decide_true by done.
    by rewrite IH.
Qed.

(** *** Property *)

(** Whatever rows of NULL and text cells are sent through the COPY encoder, the
    concatenated stream, read back by the documented text format, yields exactly those rows
    with exactly those values: no value can end its field or its row early, and the text
    [\N] is never confused with NULL. *)
Theorem copy_stream_round_trip (rows : list (list Cell)) :
  Forall (fun cs => cs <> [] /\ forallb encodable cs = true) rows ->
  exists encs, try_map encode_row rows = Ok encs /\
    decode_rows (concat encs) = map (map cell_value) rows.
Proof.
  intros Hrows.
  assert (exists encs lines, try_map encode_row rows = Ok encs /\
    encs = map (fun line => line ++ [x0a]) lines /\
    Forall (fun line => forallb (fun b => negb (bool_decide (b = x0a))) line = true) lines /\
    map decode_line lines = map (map cell_value) rows) as (encs & lines & Hm & -> & Hnl & Hdec).
  { induction Hrows as [|cs rows [Hne Henc] _ (encs & lines & Hm & -> & Hnl & Hdec)];
      [by exists [], []|].
    destruct (encode_row_Ok cs Hne Henc) as [enc He].
    destruct (encode_row_spec _ _ He) as (line & -> & Hl & Hd).
    exists ((line ++ [x0a]) :: map (fun line => line ++ [x0a]) lines), (line :: lines).
    split_and!; [|done|by constructor|].
    - cbn [try_map]. rewrite He. cbn. by rewrite Hm.
    - cbn [map]. by rewrite Hd, Hdec. }
  exists (map (fun line => line ++ [x0a]) lines). split; [done|].
  unfold decode_rows, copy_lines. rewrite split_lines by done.
  rewrite reverse_snoc. by rewrite reverse_involutive.
Qed.

Lemma copy_stream_round_trip_witness :
  Forall (fun cs => cs <> [] /\ forallb encodable cs = true)
    [[Text [x5c; x4e]; Null; Text [x09; x00; x31; x0a]]] /\
  exists encs, try_map encode_row [[Text [x5c; x4e]; Null; Text [x09; x00; x31; x0a]]] = Ok encs /\
    decode_rows (concat encs) = map (map cell_value) [[Text [x5c; x4e]; Null; Text [x09; x00; x31; x0a]]].
Proof.
  assert (H : Forall (fun cs => cs <> [] /\ forallb encodable cs = true)
    [[Text [x5c; x4e]; Null; Text [x09; x00; x31; x0a]]]) by (by repeat constructor).
  split; [exact H|]. exact (copy_stream_round_trip _ H).
Defined.
