(* ===== verification/Sql.v ===== *)
(** * SQL identifier and literal rendering

    Models [crates/target-cloudberry/src/sql.rs].  A Rust [String] is the byte sequence of
    its UTF-8 encoding; the only non-ASCII characters the code treats specially are the C1
    controls U+0080 to U+009F, the two-byte sequences [C2 80] to [C2 9F].

    [lex_identifier] and [lex_literal] are the specification the renderers are held to: they
    read quoted tokens the way PostgreSQL documents them (4.1.1 and 4.1.2 of its manual), with
    the doubling of quotes, the escapes of an escape string, the joining of literals that are
    separated by whitespace with a newline, and the truncation of long names. *)

From S2P Require Import Prelude Core Schema.

Inductive SqlRenderError : Type :=
| EmptyIdentifier
| NulByte (kind : string).
Global Instance SqlRenderError_eq_dec : EqDecision SqlRenderError.
Proof. solve_decision. Defined.

Definition chr (n : N) : ascii := ascii_of_N n.
Definition dquote : ascii := chr 34.
Definition squote : ascii := chr 39.
Definition backslash : ascii := chr 92.

(** The loop of [quote_identifier]: a double quote is doubled. *)
Fixpoint double_quotes (s : string) : string :=
  match s with
  | EmptyString => EmptyString
  | String c s =>
      if bool_decide (c = dquote) then String dquote (String c (double_quotes s))
      else String c (double_quotes s)
  end.

(** [quote_identifier]. *)
Definition quote_identifier (identifier : string) : result SqlRenderError string :=
  if Lsn.is_empty identifier then Err EmptyIdentifier
  else if contains_char nul identifier then Err (NulByte "identifier")
  else Ok (String dquote (double_quotes identifier +:+ String dquote EmptyString)).

(** [quote_qualified_name]. *)
Definition quote_qualified_name (name : QualifiedName) : result SqlRenderError string :=
  let? schema := quote_identifier (qn_schema name) in
  let? table := quote_identifier (qn_name name) in
  Ok (schema +:+ "." +:+ table).

(** [write!(quoted, "\\u{:04X}", n)]. *)
Definition unicode_escape (n : Z) : string :=
  String backslash (String "u" (Lsn.pad_zero 4 (Lsn.upper_hex n))).

(** [char::is_control] of a one-byte character. *)
Definition is_control (c : ascii) : bool :=
  let n := N_of_ascii c in (n <? 32)%N || (n =? 127)%N.

(** Whether [c d] encodes one of the characters U+0080 to U+009F. *)
Definition is_c1 (c d : ascii) : bool :=
  let m := N_of_ascii d in (N_of_ascii c =? 194)%N && (128 <=? m)%N && (m <=? 159)%N.

(** The arms of [quote_literal] for a character of one byte. *)
Definition quote_literal_char (c : ascii) : string :=
  if bool_decide (c = squote) then String squote (String squote EmptyString)
  else if bool_decide (c = backslash) then String backslash (String backslash EmptyString)
  else if bool_decide (c = chr 10) then String backslash "n"
  else if bool_decide (c = chr 13) then String backslash "r"
  else if bool_decide (c = chr 9) then String backslash "t"
  else if bool_decide (c = chr 8) then String backslash "b"
  else if bool_decide (c = chr 12) then String backslash "f"
  else if is_control c then unicode_escape (Z.of_N (N_of_ascii c))
  else String c EmptyString.

(** The loop of [quote_literal]. *)
Fixpoint quote_literal_chars (s : string) : string :=
  match s with
  | EmptyString => EmptyString
  | String c (String d rest as tail) =>
      if is_c1 c d then unicode_escape (Z.of_N (N_of_ascii d)) +:+ quote_literal_chars rest
      else quote_literal_char c +:+ quote_literal_chars tail
  | String c EmptyString => quote_literal_char c
  end.

(** [quote_literal]: an escape string, independent of [standard_conforming_strings]. *)
Definition quote_literal (value : string) : result SqlRenderError string :=
  if contains_char nul value then Err (NulByte "literal")
  else Ok (String "E" (String squote (quote_literal_chars value +:+ String squote EmptyString))).

(** [quote_identifier_list]: rendered identifiers joined by a separator. *)
Fixpoint join (sep : string) (parts : list string) : string :=
  match parts with
  | [] => EmptyString
  | [p] => p
  | p :: parts => p +:+ sep +:+ join sep parts
  end.

Definition quote_identifier_list (values : list string) : result SqlRenderError string :=
  let? quoted := try_map quote_identifier values in
  Ok (join ", " quoted).

(** ** The lexical syntax the renderers target *)

(** The rest of a delimited identifier after its opening quote: its name and what follows
    the closing quote. *)
Fixpoint lex_identifier_tail (s : string) : option (string * string) :=
  match s with
  | EmptyString => None
  | String c s1 =>
      if bool_decide (c = dquote) then
        match s1 with
        | String d s2 =>
            if bool_decide (d = dquote)
            then (fun r => (String dquote r.1, r.2)) <$> lex_identifier_tail s2
            else Some (EmptyString, s1)
        | EmptyString => Some (EmptyString, EmptyString)
        end
      else (fun r => (String c r.1, r.2)) <$> lex_identifier_tail s1
  end.

(** A byte inside a character of several bytes. *)
Definition continuation_byte (c : ascii) : bool :=
  let n := N_of_ascii c in (128 <=? n)%N && (n <? 192)%N.

(** The end of the last whole character within the first [n] bytes. *)
Fixpoint boundary_within (n : nat) (s : string) : nat :=
  match n with
  | O => O
  | S m =>
      match String.get n s with
      | Some c => if continuation_byte c then boundary_within m s else n
      | None => n
      end
  end.

(** Names of more than 63 bytes are truncated, at the end of a character. *)
Definition NAME_BYTES : nat := 63.
Definition truncate_name (name : string) : string :=
  if (String.length name <=? NAME_BYTES)%nat then name
  else String.substring 0 (boundary_within NAME_BYTES name) name.

(** A zero-length name is an error. *)
Definition lex_identifier (s : string) : option (string * string) :=
  match s with
  | String c s =>
      if bool_decide (c = dquote) then
        name ← lex_identifier_tail s;
        if Lsn.is_empty name.1 then None else Some (truncate_name name.1, name.2)
      else None
  | EmptyString => None
  end.

(** The character a [\uXXXX] escape denotes, in UTF-8; zero and halves of surrogate pairs are
    refused here (the server joins two halves). *)
Definition utf8_escape (n : Z) : option string :=
  let byte n s := String (Lsn.ascii_of_Z n) s in
  if (n =? 0)%Z then None
  else if (n <? 128)%Z then Some (byte n EmptyString)
  else if (n <? 2048)%Z then Some (byte (192 + n / 64) (byte (128 + n mod 64) EmptyString))%Z
  else if (55296 <=? n)%Z && (n <? 57344)%Z then None
  else Some (byte (224 + n / 4096) (byte (128 + n / 64 mod 64) (byte (128 + n mod 64) EmptyString)))%Z.

Definition hex4 (a b c d : ascii) : option Z :=
  match Lsn.to_digit16 a, Lsn.to_digit16 b, Lsn.to_digit16 c, Lsn.to_digit16 d with
  | Some a, Some b, Some c, Some d => Some (a * 4096 + b * 256 + c * 16 + d)%Z
  | _, _, _, _ => None
  end.

Definition to_digit8 (c : ascii) : option Z :=
  match Lsn.to_digit16 c with Some d => if (d <? 8)%Z then Some d else None | None => None end.

(** The byte of a numeric escape; zero is refused. *)
Definition byte_escape (n : Z) : option string :=
  if (n mod 256 =? 0)%Z then None else Some (String (Lsn.ascii_of_Z (n mod 256)) EmptyString).

(** The character of a one-letter escape. *)
Definition simple_escape (c : ascii) : ascii :=
  if bool_decide (c = "n"%char) then chr 10
  else if bool_decide (c = "r"%char) then chr 13
  else if bool_decide (c = "t"%char) then chr 9
  else if bool_decide (c = "b"%char) then chr 8
  else if bool_decide (c = "f"%char) then chr 12
  else c.

Definition is_newline (c : ascii) : bool := bool_decide (c = chr 10) || bool_decide (c = chr 13).
Definition is_horizontal (c : ascii) : bool :=
  bool_decide (c = " "%char) || bool_decide (c = chr 9) || bool_decide (c = chr 11) || bool_decide (c = chr 12).

(** Where the scanner of a literal is: between its quotes; behind a closing quote, with what
    followed that quote and whether a newline has been seen; or in a comment there. *)
Inductive LiteralState : Type :=
| Inside
| Behind (rest : string) (newline_seen : bool)
| InComment (rest : string).

Definition prepend (value : option string) (r : option (string * string)) : option (string * string) :=
  v ← value; r ← r; Some (v +:+ r.1, r.2).

(** The rest of an escape-string literal, the way the server's scanner reads it: its value and
    what follows it.  Behind a closing quote, whitespace with a newline and another quote
    continue the literal. *)
Fixpoint lex_literal_tail (state : LiteralState) (s : string) {struct s} : option (string * string) :=
  match state with
  | Inside =>
      match s with
      | EmptyString => None
      | String c s1 =>
          if bool_decide (c = squote) then
            match s1 with
            | String d s2 =>
                if bool_decide (d = squote)
                then prepend (Some (String squote EmptyString)) (lex_literal_tail Inside s2)
                else lex_literal_tail (Behind s1 false) s1
            | EmptyString => Some (EmptyString, EmptyString)
            end
          else if bool_decide (c = backslash) then
            match s1 with
            | EmptyString => None
            | String e s2 =>
                if bool_decide (e = "u"%char) then
                  match s2 with
                  | String h1 (String h2 (String h3 (String h4 s3))) =>
                      prepend (hex4 h1 h2 h3 h4 ≫= utf8_escape) (lex_literal_tail Inside s3)
                  | _ => None
                  end
                else if bool_decide (e = "x"%char) then
                  match s2 with
                  | String h1 s3 =>
                      match Lsn.to_digit16 h1 with
                      | Some a =>
                          match s3 with
                          | String h2 s4 =>
                              match Lsn.to_digit16 h2 with
                              | Some b => prepend (byte_escape (a * 16 + b)) (lex_literal_tail Inside s4)
                              | None => prepend (byte_escape a) (lex_literal_tail Inside s3)
                              end
                          | EmptyString => None
                          end
                      | None => prepend (Some "x") (lex_literal_tail Inside s2)
                      end
                  | EmptyString => None
                  end
                else
                  match to_digit8 e, s2 with
                  | Some a, String o2 s3 =>
                      match to_digit8 o2, s3 with
                      | Some b, String o3 s4 =>
                          match to_digit8 o3 with
                          | Some c => prepend (byte_escape (a * 64 + b * 8 + c)) (lex_literal_tail Inside s4)
                          | None => prepend (byte_escape (a * 8 + b)) (lex_literal_tail Inside s3)
                          end
                      | Some _, EmptyString => None
                      | None, _ => prepend (byte_escape a) (lex_literal_tail Inside s2)
                      end
                  | Some _, EmptyString => None
                  | None, _ => prepend (Some (String (simple_escape e) EmptyString)) (lex_literal_tail Inside s2)
                  end
            end
          else prepend (Some (String c EmptyString)) (lex_literal_tail Inside s1)
      end
  | Behind rest newline_seen =>
      match s with
      | EmptyString => Some (EmptyString, rest)
      | String c s1 =>
          if newline_seen && bool_decide (c = squote) then lex_literal_tail Inside s1
          else if is_newline c then lex_literal_tail (Behind rest true) s1
          else if is_horizontal c then lex_literal_tail (Behind rest newline_seen) s1
          else if bool_decide (c = "-"%char) then
            match s1 with
            | String d s2 =>
                if bool_decide (d = "-"%char) then lex_literal_tail (InComment rest) s2
                else Some (EmptyString, rest)
            | EmptyString => Some (EmptyString, rest)
            end
          else Some (EmptyString, rest)
      end
  | InComment rest =>
      match s with
      | EmptyString => Some (EmptyString, rest)
      | String c s1 =>
          if is_newline c then lex_literal_tail (Behind rest true) s1
          else lex_literal_tail (InComment rest) s1
      end
  end.

Definition lex_literal (s : string) : option (string * string) :=
  match s with
  | String e (String q s) =>
      if bool_decide (e = "E"%char) && bool_decide (q = squote) then lex_literal_tail Inside s else None
  | _ => None
  end.

(** Whitespace of the manual's kind: blanks, newlines and comments that run to the end of their
    line; [true] when it has a newline. *)
Inductive blank : bool -> string -> Prop :=
| blank_nil : blank false EmptyString
| blank_space c nl w : is_horizontal c = true -> blank nl w -> blank nl (String c w)
| blank_newline c nl w : is_newline c = true -> blank nl w -> blank true (String c w)
| blank_comment text c nl w :
    Lsn.str_all (fun d => negb (is_newline d)) text = true -> is_newline c = true ->
    blank nl w -> blank true ("--" +:+ text +:+ String c w).

(** [rest] joins a second literal to the one it follows. *)
Definition continues_literal (rest : string) : Prop :=
  exists w tail, rest = w +:+ String squote tail /\ blank true w.

(** [rest] does not start with the quote [q]. *)
Definition ends_token (q : ascii) (rest : string) : bool :=
  match rest with
  | String c _ => negb (bool_decide (c = q))
  | EmptyString => true
  end.

(** ** Lemmas *)

Lemma lex_identifier_end rest :
  ends_token dquote rest = true ->
  lex_identifier_tail (String dquote rest) = Some (EmptyString, rest).
Proof.
  intros H. cbn [lex_identifier_tail]. rewrite bool_decide_true by done.
  destruct rest as [|c rest]; [done|]. cbn [ends_token] in H. apply negb_true_iff in H. by rewrite H.
Qed.

Lemma lex_double_quotes s rest :
  ends_token dquote rest = true ->
  lex_identifier_tail (double_quotes s +:+ String dquote rest) = Some (s, rest).
Proof.
  intros Hr. induction s as [|c s IH]; [by apply lex_identifier_end|]. cbn [double_quotes].
  case_bool_decide as Hc.
  - subst c. rewrite !string_app_cons. cbn [lex_identifier_tail].
    rewrite !bool_decide_true by done. by rewrite IH.
  - rewrite string_app_cons. cbn [lex_identifier_tail]. rewrite bool_decide_false by done.
    by rewrite IH.
Qed.

Lemma quote_identifier_Ok s q :
  quote_identifier s = Ok q ->
  s <> EmptyString /\ contains_char nul s = false /\
  q = String dquote (double_quotes s +:+ String dquote EmptyString).
Proof.
  unfold quote_identifier. destruct (Lsn.is_empty s) eqn:He; [done|].
  destruct (contains_char nul s) eqn:Hn; [done|]. intros [= <-]. split_and!; [|done..].
  by intros ->.
Qed.

Lemma quote_identifier_tail s q rest :
  quote_identifier s = Ok q -> ends_token dquote rest = true ->
  exists t, q = String dquote t /\ lex_identifier_tail (t +:+ rest) = Some (s, rest).
Proof.
  intros (_ & _ & ->)%quote_identifier_Ok Hr. eexists. split; [reflexivity|].
  rewrite string_app_assoc, string_app_cons, string_app_nil. by apply lex_double_quotes.
Qed.

Lemma quote_identifier_lex s q rest :
  quote_identifier s = Ok q -> ends_token dquote rest = true ->
  lex_identifier (q +:+ rest) = Some (truncate_name s, rest).
Proof.
  intros Hq Hr. destruct (quote_identifier_tail _ _ _ Hq Hr) as (t & -> & Ht).
  rewrite string_app_cons. cbn [lex_identifier]. rewrite bool_decide_true, Ht by done. cbn.
  apply quote_identifier_Ok in Hq as (Hne & _). by destruct s.
Qed.

Lemma quote_identifier_inj s t q : quote_identifier s = Ok q -> quote_identifier t = Ok q -> s = t.
Proof.
  intros Hs Ht. destruct (quote_identifier_tail s q EmptyString Hs eq_refl) as (u & -> & H1).
  destruct (quote_identifier_tail t _ EmptyString Ht eq_refl) as (u' & [= <-] & H2). congruence.
Qed.

Lemma quote_identifier_no_panic s : quote_identifier s <> Panic.
Proof. unfold quote_identifier. repeat case_match; done. Qed.

(** One character of a literal is read back as itself. *)
Lemma lex_quote_char c rest :
  c <> nul ->
  lex_literal_tail Inside (quote_literal_char c +:+ rest)
  = prepend (Some (String c EmptyString)) (lex_literal_tail Inside rest).
Proof.
  destruct c as [[] [] [] [] [] [] [] []]; intros Hc; try reflexivity. by destruct Hc.
Qed.

Lemma lex_quote_c1 c d rest :
  is_c1 c d = true ->
  lex_literal_tail Inside (unicode_escape (Z.of_N (N_of_ascii d)) +:+ rest)
  = prepend (Some (String c (String d EmptyString))) (lex_literal_tail Inside rest).
Proof.
  unfold is_c1. intros H. rewrite !andb_true_iff in H. destruct H as [[Hc Hlo] Hhi].
  destruct c as [[] [] [] [] [] [] [] []]; try done.
  destruct d as [[] [] [] [] [] [] [] []]; try done.
Qed.

Lemma quote_literal_chars_2 c d s :
  quote_literal_chars (String c (String d s))
  = if is_c1 c d then unicode_escape (Z.of_N (N_of_ascii d)) +:+ quote_literal_chars s
    else quote_literal_char c +:+ quote_literal_chars (String d s).
Proof. reflexivity. Qed.

(** Behind a closing quote the literal ends, unless a second one is joined to it; the second
    part is the same for a comment that has begun. *)
Lemma behind_ends rest n s :
  (String.length s <= n)%nat ->
  (forall nl, (forall nl' w tail, s = w +:+ String squote tail -> blank nl' w -> nl || nl' = false) ->
     lex_literal_tail (Behind rest nl) s = Some (EmptyString, rest)) /\
  ((forall text c nl' w tail, s = text +:+ String c (w +:+ String squote tail) ->
      Lsn.str_all (fun d => negb (is_newline d)) text = true -> is_newline c = true -> blank nl' w -> False) ->
     lex_literal_tail (InComment rest) s = Some (EmptyString, rest)).
Proof.
  revert s. induction n as [|n IH]; intros [|c s] Hn; cbn in Hn; [by split|lia|by split|].
  destruct (IH s ltac:(lia)) as [IHb IHc]. split.
  - intros nl Hno. cbn [lex_literal_tail].
    destruct (nl && bool_decide (c = squote)) eqn:Eq.
    { apply andb_true_iff in Eq as [-> Hc%bool_decide_eq_true]. subst c.
      specialize (Hno false EmptyString s eq_refl blank_nil). done. }
    destruct (is_newline c) eqn:En.
    { apply IHb. intros nl' w tail -> Hw. by specialize (Hno true (String c w) tail eq_refl (blank_newline _ _ _ En Hw));
        rewrite orb_true_r in Hno. }
    destruct (is_horizontal c) eqn:Eh.
    { apply IHb. intros nl' w tail -> Hw. apply (Hno nl' (String c w) tail eq_refl). by constructor. }
    destruct (bool_decide (c = "-"%char)) eqn:Hd; [|done]. apply bool_decide_eq_true in Hd as ->.
    destruct s as [|d s]; [done|].
    destruct (bool_decide (d = "-"%char)) eqn:Hd; [|done]. apply bool_decide_eq_true in Hd as ->. cbn in Hn. apply (IH s ltac:(lia)).
    intros text c nl' w tail -> Ht Hc Hw.
    specialize (Hno true ("--" +:+ text +:+ String c w) tail). rewrite orb_true_r in Hno.
    enough (true = false) by done. apply Hno; [|by eapply blank_comment].
    rewrite !string_app_cons, string_app_nil, string_app_assoc, string_app_cons. done.
  - intros Hno. cbn [lex_literal_tail]. destruct (is_newline c) eqn:En.
    + apply IHb. intros nl' w tail -> Hw. exfalso. by apply (Hno EmptyString c nl' w tail).
    + apply IHc. intros text c' nl' w tail -> Ht Hc Hw. apply (Hno (String c text) c' nl' w tail); [done| |done|done].
      cbn. by rewrite En.
Qed.

Lemma lex_literal_end rest :
  ends_token squote rest = true -> ~ continues_literal rest ->
  lex_literal_tail Inside (String squote rest) = Some (EmptyString, rest).
Proof.
  intros H Hno. assert (Hb : lex_literal_tail (Behind rest false) rest = Some (EmptyString, rest)).
  { apply (behind_ends rest (String.length rest) rest (le_n _)). intros nl' w tail -> Hw.
    destruct nl'; [|done]. destruct Hno. by exists w, tail. }
  cbn [lex_literal_tail]. rewrite bool_decide_true by done.
  destruct rest as [|c rest]; [done|]. cbn [ends_token] in H. apply negb_true_iff in H. by rewrite H.
Qed.

Lemma contains_cons x c s : contains_char x (String c s) = false -> c <> x /\ contains_char x s = false.
Proof. cbn. intros [H1 H2]%orb_false_iff. split; [|done]. intros ->. by rewrite bool_decide_true in H1. Qed.

Lemma lex_quote_literal_chars s rest :
  contains_char nul s = false -> ends_token squote rest = true -> ~ continues_literal rest ->
  lex_literal_tail Inside (quote_literal_chars s +:+ String squote rest) = Some (s, rest).
Proof.
  intros Hn Hr Hno. pose proof (lex_literal_end rest Hr Hno) as Hend.
  remember (String.length s) as n eqn:Hlen. assert (Hle : (String.length s <= n)%nat) by lia.
  clear Hlen. revert s Hle Hn. induction n as [|n IH]; intros s Hle Hn.
  { destruct s; cbn in Hle; [done|lia]. }
  destruct s as [|c [|d s]]; [done| |]; apply contains_cons in Hn as [Hc Hn].
  - cbn [quote_literal_chars]. rewrite lex_quote_char by done. by rewrite Hend.
  - cbn in Hle. rewrite quote_literal_chars_2. destruct (is_c1 c d) eqn:Hc1.
    + apply contains_cons in Hn as [_ Hn]. rewrite string_app_assoc, (lex_quote_c1 c d) by done.
      by rewrite IH by (done || lia).
    + rewrite string_app_assoc, lex_quote_char by done. by rewrite IH by (done || (cbn; lia)).
Qed.

(** ** Properties *)

(** C36: quoting is injection-safe. A quoted name or literal is read, by a scanner that
    follows the server's lexical rules, as one token, and the scanner resumes exactly behind
    it: for a name when no further double quote follows; for a literal when no quote follows,
    directly or behind whitespace and comments with a newline, where the server joins two
    literals. The value of the literal is exactly the value that was quoted; the name is the
    name that was quoted as far as the server keeps it, so all of it up to 63 bytes. *)
Theorem quoting_is_lexically_safe (s q rest : string) :
  (quote_identifier s = Ok q -> ends_token dquote rest = true ->
     lex_identifier (q +:+ rest) = Some (truncate_name s, rest) /\
     ((String.length s <= 63)%nat -> lex_identifier (q +:+ rest) = Some (s, rest))) /\
  (quote_literal s = Ok q -> ends_token squote rest = true -> ~ continues_literal rest ->
     lex_literal (q +:+ rest) = Some (s, rest)).
Proof.
  split.
  - intros Hq Hr. pose proof (quote_identifier_lex s q rest Hq Hr) as H. split; [done|]. intros Hl.
    rewrite H. unfold truncate_name, NAME_BYTES. by rewrite (proj2 (Nat.leb_le _ _)).
  - unfold quote_literal. destruct (contains_char nul s) eqn:Hn; [done|]. intros [= <-] Hr Hno.
    rewrite !string_app_cons. cbn [lex_literal]. rewrite !bool_decide_true by done. cbn [andb].
    rewrite string_app_assoc, string_app_cons, string_app_nil. by apply lex_quote_literal_chars.
Qed.

(** The scanner joins literals across a newline, reads numeric escapes and truncates names. *)
Example literals_are_joined :
  lex_literal ("E'a'" +:+ String (chr 10) " 'b', 1") = Some ("ab", ", 1") /\
  lex_literal ("E'a" +:+ String backslash "x41" +:+ String backslash "102'") = Some ("aAB", EmptyString) /\
  String.length <$> (fst <$> lex_identifier (String dquote (String.concat "" (replicate 40 (String (Ascii.ascii_of_nat 195) (String (Ascii.ascii_of_nat 169) EmptyString))) +:+ String dquote EmptyString))) = Some 62%nat.
Proof. split_and!; vm_compute; reflexivity. Qed.

Lemma blank_start c w : is_horizontal c = false -> is_newline c = false -> c <> "-"%char ->
  forall nl, ~ blank nl (String c w).
Proof.
  intros Hh Hn Hd nl H. inversion H; subst; try congruence. 
Qed.

Lemma quoting_is_lexically_safe_witness :
  exists q, quote_literal (String squote (String backslash "; DROP")) = Ok q /\
    lex_literal (q +:+ ", x") = Some (String squote (String backslash "; DROP"), ", x") /\
    lex_identifier (String dquote (String "a" (String dquote EmptyString)) +:+ ", x") = Some ("a", ", x").
Proof.
  eexists. split; [vm_compute; reflexivity|]. split.
  - apply (quoting_is_lexically_safe (String squote (String backslash "; DROP")) _ ", x").
    + vm_compute; reflexivity.
    + reflexivity.
    + intros (w & tail & Heq & Hw). destruct w as [|c w]; [discriminate Heq|].
      rewrite string_app_cons in Heq. injection Heq as <- _. revert Hw.
      apply blank_start; [reflexivity|reflexivity|discriminate].
  - apply (quoting_is_lexically_safe "a" _ ", x"); [reflexivity|reflexivity|cbn; lia].
Defined.
