(* ===== verification/Source.v ===== *)
(** * Source errors and DDL messages

    Models [crates/source-postgres/src/error.rs] (the error type), the decoding half of
    [crates/source-postgres/src/ddl.rs] ([decode_ddl_message], [canonicalize_schemas],
    [validate_schema]) and [crates/source-postgres/src/sql.rs].  [serde_json] is third-party
    code: parsing a payload into a [DdlEnvelope] and printing a JSON value are parameters. *)

From S2P Require Import Prelude Core Decimal Schema Change Sql.

Inductive SourceError : Type :=
| Postgres (message : string)
| ReplicationPostgres (message : string)
| Tls (message : string)
| ReplicationProtocol (message : string)
| InvalidSlotSnapshotResponse (message : string)
| SnapshotReadersPending (ready expected : Z)
| SnapshotReadersComplete (expected : Z)
| SnapshotGuardReleased
| Contract (message : string)
| Unsupported (message : string)
| SourceInvalidIdentifier (value : string)
| SourceInvalidLsn (value : string)
| SourceCopy (message : string)
| SourceDdl (message : string)
| SourceJson (message : string)
| SourceIo (message : string).
Global Instance SourceError_eq_dec : EqDecision SourceError.
Proof. solve_decision. Defined.

(** [SourceError::contract] and [SourceError::unsupported]. *)
Definition contract (message : string) : SourceError := Contract message.
Definition source_unsupported (message : string) : SourceError := Unsupported message.

(** [source-postgres::sql::quote_identifier]. *)
Definition source_quote_identifier (identifier : string) : result SourceError string :=
  if Lsn.is_empty identifier || contains_char nul identifier
  then Err (SourceInvalidIdentifier identifier)
  else Ok (String dquote (double_quotes identifier +:+ String dquote EmptyString)).

(** [quote_qualified]. *)
Definition quote_qualified (schema name : string) : result SourceError string :=
  let? s := source_quote_identifier schema in
  let? n := source_quote_identifier name in
  Ok (s +:+ "." +:+ n).

Fixpoint double_squotes (s : string) : string :=
  match s with
  | EmptyString => EmptyString
  | String c s =>
      if bool_decide (c = squote) then String squote (String c (double_squotes s))
      else String c (double_squotes s)
  end.

(** [source-postgres::sql::quote_literal]. *)
Definition source_quote_literal (identifier : string) : result SourceError string :=
  if contains_char nul identifier then Err (SourceInvalidIdentifier identifier)
  else Ok (String squote (double_squotes identifier +:+ String squote EmptyString)).

(** ** DDL messages *)

Definition DDL_MESSAGE_PREFIX : string := "pg2cloudberry_ddl_v1".
Definition DDL_MESSAGE_VERSION : Z := 1.

Definition starts_with (prefix s : string) : bool := String.prefix prefix s.

(** [validate_schema]. *)
Definition validate_schema (value : string) : result SourceError unit :=
  if Lsn.is_empty value || contains_char nul value || (63 <? slen value)%Z
     || bool_decide (value = "pg_catalog") || bool_decide (value = "information_schema")
     || starts_with "pg_toast" value || starts_with "pg_temp" value
  then Err (SourceInvalidIdentifier value)
  else Ok tt.

(** [str::parse::<u32>]. *)
Definition parse_u32 : string -> option Z := parse_uint u32_max.

(** [Vec<String>::sort_unstable]: byte-wise lexicographic order. *)
Fixpoint insert_string (x : string) (l : list string) : list string :=
  match l with
  | [] => [x]
  | y :: l => if String.leb x y then x :: y :: l else y :: insert_string x l
  end.

Fixpoint sort_strings (l : list string) : list string :=
  match l with [] => [] | x :: l => insert_string x (sort_strings l) end.

(** [Vec::dedup]: removes consecutive repetitions. *)
Fixpoint dedup (l : list string) : list string :=
  match l with
  | [] => []
  | x :: l =>
      match l with
      | y :: _ => if bool_decide (x = y) then dedup l else x :: dedup l
      | [] => [x]
      end
  end.

(** [canonicalize_schemas]. *)
Definition canonicalize_schemas (schemas : list string) : result SourceError (list string) :=
  if existsb (fun schema => Lsn.is_empty schema || contains_char nul schema) schemas
  then Err (SourceDdl "DDL message contains an invalid affected schema")
  else Ok (dedup (sort_strings schemas)).

(** A [serde_json::Value], as far as the decoder looks into it. *)
Inductive JsonValue : Type :=
| JString (value : string)
| JNumber (text : string)
| JOther (text : string).

Record DdlEnvelope : Type := mkDdlEnvelope {
  env_version : Z;
  env_command_tag : string;
  env_relation_ids : list JsonValue;
  env_affected_schemas : list string;
  env_schema_fingerprint : string;
}.

(** The closure of [decode_ddl_message] that reads one relation OID. *)
Definition decode_relation_id (value : JsonValue) : result SourceError Z :=
  let? text :=
    match value with
    | JString value => Ok value
    | JNumber text => Ok text
    | JOther text =>
        Err (SourceDdl ("invalid relation OID JSON value `" +:+ text +:+ "` in DDL message"))
    end in
  ok_or (parse_u32 text)
    (SourceDdl ("invalid relation OID `" +:+ text +:+ "` in DDL message")).

Section decode_ddl.
(** [serde_json::from_slice::<DdlEnvelope>]: the envelope, or the parser's message. *)
Context (from_slice : bytes -> result string DdlEnvelope).

(** [decode_ddl_message]. *)
Definition decode_ddl_message (prefix : string) (payload : bytes)
    : result SourceError DdlMessage :=
  if bool_decide (prefix <> DDL_MESSAGE_PREFIX)
  then Err (SourceDdl ("unknown DDL message prefix `" +:+ prefix +:+ "`"))
  else
    let? envelope := map_err SourceJson (from_slice payload) in
    if negb (env_version envelope =? DDL_MESSAGE_VERSION)%Z
    then Err (SourceDdl ("unsupported DDL message version " +:+ pretty (env_version envelope)))
    else
      let? relation_ids := try_map decode_relation_id (env_relation_ids envelope) in
      if Lsn.is_empty (env_command_tag envelope) || Lsn.is_empty (env_schema_fingerprint envelope)
      then Err (SourceDdl "DDL message has an empty command tag or fingerprint")
      else
        let? affected_schemas := canonicalize_schemas (env_affected_schemas envelope) in
        Ok (mkDdlMessage (env_version envelope) (env_command_tag envelope) relation_ids
              affected_schemas (env_schema_fingerprint envelope)).
End decode_ddl.

Example decode_relation_id_forms :
  map decode_relation_id [JString "42"; JNumber "7"] = [Ok 42%Z; Ok 7%Z]
  /\ canonicalize_schemas ["z"; "a"; "z"] = Ok ["a"; "z"].
Proof. split; reflexivity. Qed.
