(* ===== verification/Wal.v ===== *)
(** * pgoutput decoding and transaction assembly

    Models [crates/source-postgres/src/wal.rs]: [TransactionDecoder], which turns the wire
    messages of the replication stream into core-owned events, and [TransactionAssembler],
    which groups those events into committed, node-scoped transactions.

    A method that takes [&mut self] is a function returning its [Result] next to the new
    state, also when the result is an error.  The wire messages are what the third-party
    parser delivers; its accessors that can fail are [result]s.  The two third-party calls
    [chrono::Utc.timestamp_micros] and [serde_json::from_slice] are parameters. *)

From S2P Require Import Prelude Core Schema Change Source.

Definition POSTGRES_EPOCH_UNIX_SECONDS : Z := 946684800.

Record RelationColumn : Type := mkRelationColumn {
  rc_flags : Z;
  rc_name : string;
  rc_type_oid : Z;
  rc_type_modifier : Z;
}.
Global Instance RelationColumn_eq_dec : EqDecision RelationColumn.
Proof. solve_decision. Defined.

Inductive WireReplicaIdentityKind : Type := WDefault | WIndex | WFull | WNothing.
Global Instance WireReplicaIdentityKind_eq_dec : EqDecision WireReplicaIdentityKind.
Proof. solve_decision. Defined.

Record RelationEvent : Type := mkRelationEvent {
  re_relation_id : Z;
  re_namespace : string;
  re_name : string;
  re_generation : Z;
  re_replica_identity : WireReplicaIdentityKind;
  re_columns : list RelationColumn;
}.
Global Instance RelationEvent_eq_dec : EqDecision RelationEvent.
Proof. solve_decision. Defined.

Record TypeEvent : Type := mkTypeEvent {
  te_type_id : Z;
  te_namespace : string;
  te_name : string;
}.

(** [DecodedMessage]. *)
Inductive DecodedMessage : Type :=
| DBegin (final_lsn timestamp xid : Z)
| DCommit (commit_lsn end_lsn timestamp flags : Z)
| DRelation (event : RelationEvent)
| DType (event : TypeEvent)
| DInsert (relation_id generation : Z) (new : Tuple)
| DUpdate (relation_id generation : Z) (old_key : option Tuple) (new : Tuple)
| DDelete (relation_id generation : Z) (old_key : Tuple)
| DTruncate (relation_ids : list Z) (options : Z)
| DDdl (message : DdlMessage)
| DKeepalive (wal_end timestamp_micros : Z) (reply_requested : bool).

(** [DecodedMessage::as_table_change]. *)
Definition as_table_change (self : DecodedMessage) (generation : Z) : option TableChange :=
  match self with
  | DInsert relation_id _ new => Some (mkTableChange relation_id generation (Insert new))
  | DUpdate relation_id _ old_key new =>
      Some (mkTableChange relation_id generation (Update old_key new))
  | DDelete relation_id _ old_key => Some (mkTableChange relation_id generation (Delete old_key))
  | _ => None
  end.

(** [DecodedMessage::relation_generation]. *)
Definition message_generation (self : DecodedMessage) : option Z :=
  match self with
  | DInsert _ generation _ | DUpdate _ generation _ _ | DDelete _ generation _ => Some generation
  | DRelation relation => Some (re_generation relation)
  | _ => None
  end.

(** [DecodedMessage::to_transaction_change]. *)
Definition to_transaction_change (self : DecodedMessage)
    : result SourceError (option TransactionChange) :=
  match self with
  | DInsert relation_id generation new =>
      Ok (Some (Row (mkTableChange relation_id generation (Insert new))))
  | DUpdate relation_id generation old_key new =>
      Ok (Some (Row (mkTableChange relation_id generation (Update old_key new))))
  | DDelete relation_id generation old_key =>
      Ok (Some (Row (mkTableChange relation_id generation (Delete old_key))))
  | DTruncate relation_ids options =>
      Ok (Some (Truncate relation_ids
                  (negb (Z.land options 1 =? 0)%Z) (negb (Z.land options 2 =? 0)%Z)))
  | DDdl message => Ok (Some (Ddl message))
  | _ => Ok None
  end.

(** [relation_shape_equal]: everything but the generation. *)
Definition relation_shape_equal (left right : RelationEvent) : bool :=
  (re_relation_id left =? re_relation_id right)%Z
  && bool_decide (re_namespace left = re_namespace right)
  && bool_decide (re_name left = re_name right)
  && bool_decide (re_replica_identity left = re_replica_identity right)
  && bool_decide (re_columns left = re_columns right).

Record SourceNodeIdentity : Type := mkSourceNodeIdentity {
  sni_node_id : Z;
  sni_system_identifier : Z;
  sni_timeline : Z;
}.
Global Instance SourceNodeIdentity_eq_dec : EqDecision SourceNodeIdentity.
Proof. solve_decision. Defined.

(** [SourceNodeIdentity::position]. *)
Definition position_of (self : SourceNodeIdentity) (l : Z) : SourcePosition :=
  mkSourcePosition (sni_node_id self) (sni_system_identifier self) (sni_timeline self) l.

Record TransactionLimits : Type := mkTransactionLimits {
  tl_max_changes : Z;
  tl_max_bytes : Z;
}.

Definition TransactionLimits_default : TransactionLimits :=
  mkTransactionLimits 1000000 (512 * 1024 * 1024).

(** [TransactionLimits::validate]. *)
Definition limits_validate (l : TransactionLimits) : result SourceError unit :=
  if (tl_max_changes l =? 0)%Z || (tl_max_bytes l =? 0)%Z
  then Err (contract "transaction limits must be greater than zero")
  else Ok tt.

Record CommittedTransaction : Type := mkCommittedTransaction {
  ct_transaction : SourceTransaction;
  ct_commit_lsn : Z;
}.

Inductive AssembledEvent : Type :=
| ATransaction (committed : CommittedTransaction)
| AKeepalive (wal_end timestamp_micros : Z) (reply_requested : bool).

Record PendingTransaction : Type := mkPendingTransaction {
  pt_xid : Z;
  pt_begin_lsn : Z;
  pt_begin_time : Z;
  pt_changes : list TransactionChange;
  pt_buffered_bytes : Z;
}.

Record TransactionAssembler : Type := mkTransactionAssembler {
  ta_identity : SourceNodeIdentity;
  ta_limits : TransactionLimits;
  ta_pending : option PendingTransaction;
  ta_last_commit_lsn : option Z;
  ta_relation_generations : gmap Z Z;
}.

(** [TransactionAssembler::new]. *)
Definition Assembler_new (identity : SourceNodeIdentity) : TransactionAssembler :=
  mkTransactionAssembler identity TransactionLimits_default None None ∅.

(** [TransactionAssembler::with_limits]. *)
Definition Assembler_with_limits (identity : SourceNodeIdentity) (limits : TransactionLimits)
    : result SourceError TransactionAssembler :=
  let? _ := limits_validate limits in
  Ok (mkTransactionAssembler identity limits None None ∅).

(** [TransactionAssembler::pending_xid]. *)
Definition pending_xid (self : TransactionAssembler) : option Z := pt_xid <$> ta_pending self.

Definition with_pending (self : TransactionAssembler) (p : option PendingTransaction)
    : TransactionAssembler :=
  mkTransactionAssembler (ta_identity self) (ta_limits self) p (ta_last_commit_lsn self)
    (ta_relation_generations self).

(** [transaction_change_bytes]. *)
Definition transaction_change_bytes (c : TransactionChange) : Z :=
  match c with
  | Row row => row_change_bytes (tc_change row)
  | Truncate relation_ids _ _ => len relation_ids * 4
  | Ddl message =>
      slen (ddl_command_tag message) + slen (ddl_schema_fingerprint message)
      + len (ddl_relation_ids message) * 4 + sum_Z (map slen (ddl_affected_schemas message))
  end.

Definition protocol_error {A} (message : string) : result SourceError A :=
  Err (ReplicationProtocol message).

(** [TransactionAssembler::accept_relation]. *)
Definition accept_relation (self : TransactionAssembler) (relation : RelationEvent)
    : result SourceError unit * TransactionAssembler :=
  if (re_generation relation =? 0)%Z then
    (protocol_error ("relation " +:+ pretty (re_relation_id relation)
                     +:+ " has zero schema generation"), self)
  else
    let previous := ta_relation_generations self !! re_relation_id relation in
    if match previous with Some p => (re_generation relation <? p)%Z | None => false end then
      (protocol_error ("relation " +:+ pretty (re_relation_id relation)
                       +:+ " generation moved backwards from " +:+ pretty (default 0%Z previous)
                       +:+ " to " +:+ pretty (re_generation relation)), self)
    else
      (Ok tt,
       mkTransactionAssembler (ta_identity self) (ta_limits self) (ta_pending self)
         (ta_last_commit_lsn self)
         (<[re_relation_id relation := re_generation relation]> (ta_relation_generations self))).

(** [TransactionAssembler::commit]: the pending transaction is taken before the last two
    checks, so it is gone when they fail. *)
Definition assembler_commit (self : TransactionAssembler)
    (commit_lsn end_lsn timestamp flags : Z)
    : result SourceError (option AssembledEvent) * TransactionAssembler :=
  if negb (flags =? 0)%Z
  then (protocol_error ("unsupported pgoutput COMMIT flags " +:+ pretty flags), self)
  else if (end_lsn <? commit_lsn)%Z
  then (protocol_error ("commit end LSN " +:+ Lsn.to_string end_lsn +:+ " precedes commit LSN "
                        +:+ Lsn.to_string commit_lsn), self)
  else if match ta_last_commit_lsn self with Some p => (end_lsn <? p)%Z | None => false end
  then (protocol_error ("commit LSN " +:+ Lsn.to_string end_lsn +:+ " moved backwards from "
                        +:+ Lsn.to_string (default 0%Z (ta_last_commit_lsn self))), self)
  else
    match ta_pending self with
    | None => (protocol_error "COMMIT arrived without BEGIN", self)
    | Some pending =>
        let self := with_pending self None in
        if (end_lsn <? pt_begin_lsn pending)%Z
        then (protocol_error ("transaction " +:+ pretty (pt_xid pending)
                              +:+ " begins after its commit"), self)
        else if (timestamp <? pt_begin_time pending)%Z
        then (protocol_error ("transaction " +:+ pretty (pt_xid pending)
                              +:+ " commit timestamp precedes BEGIN timestamp"), self)
        else
          (Ok (Some (ATransaction (mkCommittedTransaction
             (mkSourceTransaction (pt_xid pending) timestamp
                (position_of (ta_identity self) end_lsn) (pt_changes pending))
             commit_lsn))),
           mkTransactionAssembler (ta_identity self) (ta_limits self) None (Some end_lsn)
             (ta_relation_generations self))
    end.

(** Whether the pending changes already hold this DDL message. *)
Definition repeats_ddl (changes : list TransactionChange) (c : TransactionChange) : bool :=
  match c with
  | Ddl message =>
      existsb (fun existing => match existing with
                               | Ddl previous => bool_decide (previous = message)
                               | _ => false
                               end) changes
  | _ => false
  end.

(** The row of a change whose generation is not the current one of its relation. *)
Definition stale_row (self : TransactionAssembler) (change : TransactionChange)
    : option TableChange :=
  match change with
  | Row row =>
      if bool_decide (ta_relation_generations self !! tc_relation_id row
                      = Some (tc_generation row))
      then None else Some row
  | _ => None
  end.

(** The arm of [push] for a transactional event. *)
Definition push_change (self : TransactionAssembler) (change : TransactionChange)
    : result SourceError (option AssembledEvent) * TransactionAssembler :=
  match ta_pending self with
  | None => (protocol_error "transactional pgoutput event arrived without BEGIN", self)
  | Some pending =>
      match stale_row self change with
      | Some row =>
          (protocol_error ("relation " +:+ pretty (tc_relation_id row) +:+ " generation "
                           +:+ pretty (tc_generation row) +:+ " is not current"), self)
      | None =>
      if repeats_ddl (pt_changes pending) change then (Ok None, self)
      else if (tl_max_changes (ta_limits self) <=? len (pt_changes pending))%Z
      then (Err (source_unsupported ("transaction " +:+ pretty (pt_xid pending) +:+ " exceeds "
                                     +:+ pretty (tl_max_changes (ta_limits self))
                                     +:+ " changes; streaming protocol is unavailable")), self)
      else
        let bytes := saturating_add (pt_buffered_bytes pending) (transaction_change_bytes change) in
        if (tl_max_bytes (ta_limits self) <? bytes)%Z
        then (Err (source_unsupported ("transaction " +:+ pretty (pt_xid pending) +:+ " exceeds "
                                       +:+ pretty (tl_max_bytes (ta_limits self))
                                       +:+ " buffered bytes; streaming protocol is unavailable")),
              self)
        else
          (Ok None,
           with_pending self
             (Some (mkPendingTransaction (pt_xid pending) (pt_begin_lsn pending)
                      (pt_begin_time pending) (pt_changes pending ++ [change]) bytes)))
      end
  end.

(** [TransactionAssembler::push]. *)
Definition assembler_push (self : TransactionAssembler) (event : DecodedMessage)
    : result SourceError (option AssembledEvent) * TransactionAssembler :=
  match event with
  | DKeepalive wal_end timestamp_micros reply_requested =>
      (Ok (Some (AKeepalive wal_end timestamp_micros reply_requested)), self)
  | DRelation relation =>
      let (r, self) := accept_relation self relation in
      ((let? _ := r in Ok None), self)
  | DType _ => (Ok None, self)
  | DBegin final_lsn timestamp xid =>
      if bool_decide (is_Some (ta_pending self))
      then (protocol_error "BEGIN arrived before the previous transaction committed", self)
      else if match ta_last_commit_lsn self with
              | Some previous => (final_lsn <? previous)%Z
              | None => false
              end
      then (protocol_error ("BEGIN final LSN " +:+ Lsn.to_string final_lsn
                            +:+ " moved behind committed LSN "
                            +:+ Lsn.to_string (default 0%Z (ta_last_commit_lsn self))), self)
      else (Ok None, with_pending self (Some (mkPendingTransaction xid final_lsn timestamp [] 0)))
  | DCommit commit_lsn end_lsn timestamp flags =>
      assembler_commit self commit_lsn end_lsn timestamp flags
  | event =>
      match to_transaction_change event with
      | Ok (Some change) => push_change self change
      | Ok None => (Ok None, self)
      | Err e => (Err e, self)
      | Panic => (Panic, self)
      end
  end.

(** [TransactionAssembler::finish]. *)
Definition assembler_finish (self : TransactionAssembler) : result SourceError unit :=
  match ta_pending self with
  | Some pending =>
      protocol_error ("replication stream ended with open transaction " +:+ pretty (pt_xid pending))
  | None => Ok tt
  end.

(** ** Wire messages, as the third-party parser delivers them *)

Inductive TupleData : Type :=
| TDNull
| TDUnchangedToast
| TDText (bytes : bytes)
| TDBinary (bytes : bytes).

Inductive WireReplicaIdentity : Type := WireDefault | WireIndex | WireFull | WireNothing.

(** Accessors that return [io::Result<&str>] hold the string or the error message. *)
Record WireColumn : Type := mkWireColumn {
  wc_flags : Z;
  wc_name : result string string;
  wc_type_id : Z;
  wc_type_modifier : Z;
}.

Inductive LogicalReplicationMessage : Type :=
| WBegin (final_lsn timestamp xid : Z)
| WCommit (flags commit_lsn end_lsn timestamp : Z)
| WRelation (rel_id : Z) (namespace name : result string string)
    (replica_identity : WireReplicaIdentity) (columns : list WireColumn)
| WType (id : Z) (namespace name : result string string)
| WInsert (rel_id : Z) (tuple : list TupleData)
| WUpdate (rel_id : Z) (key_tuple old_tuple : option (list TupleData)) (new_tuple : list TupleData)
| WDelete (rel_id : Z) (key_tuple old_tuple : option (list TupleData))
| WTruncate (rel_ids : list Z) (options : Z)
| WMessage (prefix : result string string) (content : result string bytes)
| WOrigin (name : result string string)
| WOther.

(** [convert_tuple]. *)
Definition convert_value (v : TupleData) : Cell :=
  match v with
  | TDNull => Null
  | TDUnchangedToast => UnchangedToast
  | TDText b => Text b
  | TDBinary b => Binary b
  end.
Definition convert_tuple (tuple : list TupleData) : Tuple := mkTuple (map convert_value tuple).

(** [map_replica_identity]. *)
Definition map_replica_identity (identity : WireReplicaIdentity) : WireReplicaIdentityKind :=
  match identity with
  | WireDefault => WDefault
  | WireIndex => WIndex
  | WireFull => WFull
  | WireNothing => WNothing
  end.

Record TransactionDecoder : Type := mkTransactionDecoder {
  td_in_transaction : bool;
  td_relations : gmap Z RelationEvent;
}.

(** [TransactionDecoder::new]. *)
Definition Decoder_new : TransactionDecoder := mkTransactionDecoder false ∅.

(** [TransactionDecoder::require_transaction]. *)
Definition require_transaction (self : TransactionDecoder) (operation : string)
    : result SourceError unit :=
  if td_in_transaction self then Ok tt
  else protocol_error ("pgoutput " +:+ operation +:+ " outside a transaction").

(** [TransactionDecoder::require_relation]. *)
Definition require_relation (self : TransactionDecoder) (relation_id : Z)
    : result SourceError unit :=
  match td_relations self !! relation_id with
  | None => protocol_error ("DML references unknown relation " +:+ pretty relation_id)
  | Some relation =>
      if bool_decide (re_replica_identity relation <> WDefault)
      then protocol_error ("relation " +:+ pretty relation_id
                           +:+ " changed replica identity; only DEFAULT is supported")
      else Ok tt
  end.

(** [TransactionDecoder::relation_generation]. *)
Definition decoder_generation (self : TransactionDecoder) (relation_id : Z)
    : result SourceError Z :=
  ok_or (re_generation <$> td_relations self !! relation_id)
    (ReplicationProtocol ("DML references unknown relation " +:+ pretty relation_id)).

(** The column closure of the [Relation] arm: [u32::try_from(type_id)]. *)
Definition decode_column (c : WireColumn) : result SourceError RelationColumn :=
  let? name := map_err SourceIo (wc_name c) in
  if (wc_type_id c <? 0)%Z
  then protocol_error ("negative type OID " +:+ pretty (wc_type_id c))
  else Ok (mkRelationColumn (wc_flags c) name (wc_type_id c) (wc_type_modifier c)).

(** [previous.generation.checked_add(1)], a [u64]. *)
Definition next_generation (previous : option RelationEvent) (event : RelationEvent)
    : result SourceError Z :=
  match previous with
  | None => Ok 1%Z
  | Some previous =>
      if relation_shape_equal previous event then Ok (re_generation previous)
      else if (re_generation previous + 1 <=? u64_max)%Z then Ok (re_generation previous + 1)%Z
      else protocol_error ("relation " +:+ pretty (re_relation_id event) +:+ " generation overflow")
  end.

(** The [Relation] arm of [decode]. *)
Definition decode_relation (self : TransactionDecoder) (rel_id : Z)
    (namespace name : result string string) (identity : WireReplicaIdentity)
    (columns : list WireColumn) : result SourceError RelationEvent :=
  let? namespace := map_err SourceIo namespace in
  let? name := map_err SourceIo name in
  let? columns := try_map decode_column columns in
  let event := mkRelationEvent rel_id namespace name 1 (map_replica_identity identity) columns in
  let? generation := next_generation (td_relations self !! rel_id) event in
  Ok (mkRelationEvent rel_id namespace name generation (map_replica_identity identity) columns).

Section decoder.
Context (timestamp_micros : Z -> option Z).
Context (from_slice : bytes -> result string DdlEnvelope).

(** [postgres_timestamp]: microseconds since 2000 to microseconds since 1970. *)
Definition postgres_timestamp (micros_since_2000 : Z) : result SourceError Z :=
  let unix_micros := (micros_since_2000 + POSTGRES_EPOCH_UNIX_SECONDS * 1000000)%Z in
  if (i64_max <? unix_micros)%Z then protocol_error "timestamp overflow"
  else ok_or (timestamp_micros unix_micros)
         (ReplicationProtocol "invalid PostgreSQL timestamp").

(** The arms of [decode] that leave the decoder unchanged. *)
Definition decode_payload (self : TransactionDecoder) (message : LogicalReplicationMessage)
    : result SourceError DecodedMessage :=
  match message with
  | WType id namespace name =>
      let? namespace := map_err SourceIo namespace in
      let? name := map_err SourceIo name in
      Ok (DType (mkTypeEvent id namespace name))
  | WInsert rel_id tuple =>
      let? _ := require_transaction self "INSERT" in
      let? _ := require_relation self rel_id in
      let? generation := decoder_generation self rel_id in
      Ok (DInsert rel_id generation (convert_tuple tuple))
  | WUpdate rel_id key_tuple old_tuple new_tuple =>
      let? _ := require_transaction self "UPDATE" in
      let? _ := require_relation self rel_id in
      let old_key := match key_tuple with Some k => Some k | None => old_tuple end in
      let? generation := decoder_generation self rel_id in
      Ok (DUpdate rel_id generation (convert_tuple <$> old_key) (convert_tuple new_tuple))
  | WDelete rel_id key_tuple old_tuple =>
      let? _ := require_transaction self "DELETE" in
      let? _ := require_relation self rel_id in
      let old_key := match key_tuple with Some k => Some k | None => old_tuple end in
      let? old_key := ok_or old_key
        (ReplicationProtocol ("DELETE for relation " +:+ pretty rel_id +:+ " has no old key")) in
      let? generation := decoder_generation self rel_id in
      Ok (DDelete rel_id generation (convert_tuple old_key))
  | WTruncate rel_ids options =>
      let? _ := require_transaction self "TRUNCATE" in
      let? _ := foldM (fun _ id => require_relation self id) tt rel_ids in
      Ok (DTruncate rel_ids options)
  | WMessage prefix content =>
      let? _ := require_transaction self "MESSAGE" in
      let? prefix := map_err SourceIo prefix in
      let? content := map_err SourceIo content in
      if bool_decide (prefix <> DDL_MESSAGE_PREFIX)
      then protocol_error ("unknown logical message prefix `" +:+ prefix +:+ "`")
      else
        let? message := decode_ddl_message from_slice prefix content in
        Ok (DDdl message)
  | WOrigin name =>
      let? name := map_err SourceIo name in
      protocol_error ("logical replication origin `" +:+ name +:+ "` is unsupported")
  | _ => protocol_error "unknown or unsupported pgoutput message"
  end.

(** [TransactionDecoder::decode]. *)
Definition decode (self : TransactionDecoder) (message : LogicalReplicationMessage)
    : result SourceError DecodedMessage * TransactionDecoder :=
  match message with
  | WBegin final_lsn timestamp xid =>
      if td_in_transaction self then (protocol_error "nested pgoutput BEGIN", self)
      else
        ((let? timestamp := postgres_timestamp timestamp in
          Ok (DBegin final_lsn timestamp xid)),
         mkTransactionDecoder true (td_relations self))
  | WCommit flags commit_lsn end_lsn timestamp =>
      if td_in_transaction self then
        ((let? timestamp := postgres_timestamp timestamp in
          Ok (DCommit commit_lsn end_lsn timestamp flags)),
         mkTransactionDecoder false (td_relations self))
      else (protocol_error "pgoutput COMMIT without BEGIN", self)
  | WRelation rel_id namespace name identity columns =>
      match decode_relation self rel_id namespace name identity columns with
      | Ok event =>
          (Ok (DRelation event),
           mkTransactionDecoder (td_in_transaction self) (<[rel_id := event]> (td_relations self)))
      | Err e => (Err e, self)
      | Panic => (Panic, self)
      end
  | message => (decode_payload self message, self)
  end.
End decoder.

(** ** Invariant of the assembler *)

Definition change_ok (generations : gmap Z Z) (c : TransactionChange) : Prop :=
  match c with
  | Row row => exists g, generations !! tc_relation_id row = Some g /\ (tc_generation row <= g)%Z
  | _ => True
  end.

Definition ddl_of (c : TransactionChange) : option DdlMessage :=
  match c with Ddl message => Some message | _ => None end.

(** What holds of the changes of one transaction: the limits, and no repeated DDL message. *)
Record within_limits (l : TransactionLimits) (changes : list TransactionChange) : Prop := {
  wl_count : (len changes <= tl_max_changes l)%Z;
  wl_bytes : (saturating_sum (map transaction_change_bytes changes) <= tl_max_bytes l)%Z;
  wl_ddl : NoDup (omap ddl_of changes);
}.

Record wf_pending (self : TransactionAssembler) (p : PendingTransaction) : Prop := {
  wp_limits : within_limits (ta_limits self) (pt_changes p);
  wp_bytes : pt_buffered_bytes p = saturating_sum (map transaction_change_bytes (pt_changes p));
  wp_rows : Forall (change_ok (ta_relation_generations self)) (pt_changes p);
}.

Record wf_assembler (self : TransactionAssembler) : Prop := {
  wa_limits : (0 <= tl_max_changes (ta_limits self))%Z /\ (0 <= tl_max_bytes (ta_limits self))%Z;
  wa_pending : forall p, ta_pending self = Some p -> wf_pending self p;
}.

(** A transaction the assembler may emit in state [self]. *)
Record emitted_ok (self : TransactionAssembler) (c : CommittedTransaction) : Prop := {
  eo_limits : within_limits (ta_limits self) (st_changes (ct_transaction c));
  eo_position : st_final_position (ct_transaction c)
                = position_of (ta_identity self) (final_lsn (ct_transaction c));
  eo_commit : (ct_commit_lsn c <= final_lsn (ct_transaction c))%Z;
  eo_order : forall p, ta_last_commit_lsn self = Some p -> (p <= final_lsn (ct_transaction c))%Z;
}.

Lemma change_ok_mono g1 g2 c :
  (forall k a, g1 !! k = Some a -> exists b, g2 !! k = Some b /\ (a <= b)%Z) ->
  change_ok g1 c -> change_ok g2 c.
Proof.
  intros Hg. destruct c; cbn; [|done..]. intros (g & Hl & Hle).
  destruct (Hg _ _ Hl) as (b & Hb & ?). exists b. split; [done|lia].
Qed.

Lemma repeats_ddl_false changes c :
  repeats_ddl changes c = false ->
  match ddl_of c with Some m => m ∉ omap ddl_of changes | None => True end.
Proof.
  destruct c as [|? ? ?|m]; cbn; [done..|]. intros H Hin.
  apply list_elem_of_omap in Hin as (x & Hx & Hd). apply not_true_iff_false in H. apply H.
  apply existsb_exists. exists x. split; [by apply list_elem_of_In|].
  destruct x; cbn in Hd; [done..|]. injection Hd as ->. by apply bool_decide_eq_true.
Qed.

Lemma within_limits_nil l :
  (0 <= tl_max_changes l)%Z -> (0 <= tl_max_bytes l)%Z -> within_limits l [].
Proof. intros. split; [done|done|constructor]. Qed.

Lemma within_limits_snoc l changes c :
  within_limits l changes -> repeats_ddl changes c = false ->
  (len changes < tl_max_changes l)%Z ->
  (saturating_add (saturating_sum (map transaction_change_bytes changes))
     (transaction_change_bytes c) <= tl_max_bytes l)%Z ->
  within_limits l (changes ++ [c]).
Proof.
  intros [Hc Hb Hd] Hr Hlen Hby. split.
  - rewrite len_app. unfold len in *. cbn. lia.
  - by rewrite saturating_sum_map_snoc.
  - rewrite omap_app. apply repeats_ddl_false in Hr. cbn.
    destruct (ddl_of c) as [m|]; [|by rewrite app_nil_r].
    apply NoDup_app. split_and!; [done| |apply NoDup_singleton].
    intros x Hx ->%list_elem_of_singleton. done.
Qed.

(** [push] on a transactional change. *)
Lemma push_change_spec self change r self' :
  wf_assembler self -> push_change self change = (r, self') ->
  wf_assembler self' /\ ta_limits self' = ta_limits self /\
  ta_identity self' = ta_identity self /\
  ta_last_commit_lsn self' = ta_last_commit_lsn self /\
  ta_relation_generations self' = ta_relation_generations self /\
  (forall e, r = Ok (Some e) -> False) /\ r <> Panic.
Proof.
  intros Hwf. unfold push_change. destruct (ta_pending self) as [p|] eqn:Hp;
    [|by intros [= <- <-]].
  destruct (stale_row self change) as [row|] eqn:Hst; [by intros [= <- <-]|].
  destruct (repeats_ddl (pt_changes p) change) eqn:Hrep; [by intros [= <- <-]|].
  destruct (Z.leb_spec (tl_max_changes (ta_limits self)) (len (pt_changes p)));
    [by intros [= <- <-]|]. cbv zeta.
  destruct (Z.ltb_spec (tl_max_bytes (ta_limits self))
              (saturating_add (pt_buffered_bytes p) (transaction_change_bytes change)));
    [by intros [= <- <-]|]. intros [= <- <-]. split_and!; try done.
  destruct Hwf as [Hl Hpend]. destruct (Hpend _ Hp) as [Hw Hby Hrows].
  split; [done|]. cbn. intros q [= <-]. rewrite Hby in *. split; cbn.
  - by apply within_limits_snoc.
  - by rewrite saturating_sum_map_snoc.
  - apply Forall_app. split; [done|]. constructor; [|constructor].
    destruct change as [row| |]; cbn in *; [|done..]. case_bool_decide as Hg; [|done].
    exists (tc_generation row). split; [done|lia].
Qed.

Lemma accept_relation_spec self relation r self' :
  wf_assembler self -> accept_relation self relation = (r, self') ->
  wf_assembler self' /\ ta_limits self' = ta_limits self /\
  ta_identity self' = ta_identity self /\ ta_pending self' = ta_pending self /\
  ta_last_commit_lsn self' = ta_last_commit_lsn self /\ r <> Panic.
Proof.
  intros Hwf. unfold accept_relation. destruct (_ =? 0)%Z; [by intros [= <- <-]|].
  destruct (match _ with Some p => _ | None => _ end) eqn:Hlt; [by intros [= <- <-]|].
  intros [= <- <-]. split_and!; try done. destruct Hwf as [Hl Hp]. split; [done|]. cbn.
  intros p Hpe. destruct (Hp _ Hpe) as [Hw Hby Hrows]. split; [done|done|]. cbn.
  eapply Forall_impl; [exact Hrows|]. intros c. apply change_ok_mono.
  intros k a Ha. destruct (decide (k = re_relation_id relation)) as [->|Hne].
  - rewrite Ha in Hlt. apply Z.ltb_ge in Hlt. eexists. rewrite lookup_insert_eq. eauto.
  - exists a. rewrite lookup_insert_ne by done. split; [done|lia].
Qed.

Lemma assembler_commit_spec self commit_lsn end_lsn timestamp flags r self' :
  wf_assembler self -> assembler_commit self commit_lsn end_lsn timestamp flags = (r, self') ->
  wf_assembler self' /\ ta_limits self' = ta_limits self /\
  ta_identity self' = ta_identity self /\ r <> Panic /\
  match r with
  | Ok (Some (ATransaction c)) =>
      emitted_ok self c /\ ta_last_commit_lsn self' = Some (final_lsn (ct_transaction c))
  | Ok _ => False
  | _ => ta_last_commit_lsn self' = ta_last_commit_lsn self
  end.
Proof.
  intros Hwf. unfold assembler_commit. destruct (negb _); [by intros [= <- <-]|].
  destruct (Z.ltb_spec end_lsn commit_lsn); [by intros [= <- <-]|].
  destruct (match _ with Some p => _ | None => _ end) eqn:Hlast; [by intros [= <- <-]|].
  destruct (ta_pending self) as [p|] eqn:Hp; [|by intros [= <- <-]].
  assert (Hnone : wf_assembler (with_pending self None)).
  { destruct Hwf as [Hl _]. by split. }
  cbv zeta. destruct (_ <? _)%Z; [by intros [= <- <-]|]. destruct (_ <? _)%Z; [by intros [= <- <-]|].
  intros [= <- <-]. destruct Hwf as [Hl Hpend]. destruct (Hpend _ Hp) as [Hw _ _].
  split_and!; try done. split; cbn; [done|done|done|]. intros q Hq. rewrite Hq in Hlast.
  by apply Z.ltb_ge in Hlast.
Qed.

(** What every [push] guarantees, errors included: the invariant is kept, and what is emitted
    is within the limits and does not move behind the previous commit. *)
Definition push_post (self : TransactionAssembler)
    (r : result SourceError (option AssembledEvent)) (self' : TransactionAssembler) : Prop :=
  wf_assembler self' /\ ta_limits self' = ta_limits self /\
  ta_identity self' = ta_identity self /\ r <> Panic /\
  match r with
  | Ok (Some (ATransaction c)) =>
      emitted_ok self c /\ ta_last_commit_lsn self' = Some (final_lsn (ct_transaction c))
  | _ => ta_last_commit_lsn self' = ta_last_commit_lsn self
  end.

Lemma push_change_push self change r self' :
  wf_assembler self -> push_change self change = (r, self') -> push_post self r self'.
Proof.
  intros Hwf H. destruct (push_change_spec _ _ _ _ Hwf H) as (? & ? & ? & ? & ? & Hno & ?).
  split_and!; try done. destruct r as [[[]|]| |]; try done. by destruct (Hno _ eq_refl).
Qed.

Lemma assembler_push_spec self event r self' :
  wf_assembler self -> assembler_push self event = (r, self') -> push_post self r self'.
Proof.
  intros Hwf H. destruct event; cbn [assembler_push to_transaction_change] in H.
  - case_bool_decide as Hp; [by injection H as <- <-|].
    destruct (match _ with Some p => _ | None => _ end); injection H as <- <-; [done|].
    split_and!; try done. destruct Hwf as [Hl _]. split; [done|]. cbn. intros q [= <-].
    split; [apply within_limits_nil; cbn; tauto|done|constructor].
  - destruct (assembler_commit_spec _ _ _ _ _ _ _ Hwf H) as (? & ? & ? & ? & Hr).
    split_and!; try done. destruct r as [[[]|]| |]; done.
  - destruct (accept_relation self event) as [q s] eqn:Ha. injection H as <- <-.
    destruct (accept_relation_spec _ _ _ _ Hwf Ha) as (? & ? & ? & ? & ? & ?).
    split_and!; try done; by destruct q.
  - injection H as <- <-. by split_and!.
  - by eapply push_change_push.
  - by eapply push_change_push.
  - by eapply push_change_push.
  - by eapply push_change_push.
  - by eapply push_change_push.
  - by injection H as <- <-.
Qed.

(** ** Streams of events *)

(** All committed transactions a stream of events produces, and the final state; the stream
    is followed past errors, so the statements below do not depend on where a caller stops. *)
Fixpoint assemble (self : TransactionAssembler) (events : list DecodedMessage)
    : list CommittedTransaction * TransactionAssembler :=
  match events with
  | [] => ([], self)
  | event :: events =>
      let (r, self) := assembler_push self event in
      let (committed, self) := assemble self events in
      (match r with
       | Ok (Some (ATransaction c)) => c :: committed
       | _ => committed
       end, self)
  end.

Lemma assemble_app self l k :
  assemble self (l ++ k)
  = ((assemble self l).1 ++ (assemble (assemble self l).2 k).1, (assemble (assemble self l).2 k).2).
Proof.
  revert self. induction l as [|e l IH]; intros self; cbn.
  - by destruct (assemble self k).
  - destruct (assembler_push self e) as [r self1]. rewrite IH.
    destruct (assemble self1 l) as [cs self2]. cbn.
    destruct r as [[[]|]| |]; done.
Qed.

Lemma transaction_change_bytes_nonneg c : (0 <= transaction_change_bytes c)%Z.
Proof.
  destruct c as [row|ids ? ?|m]; cbn.
  - apply row_change_bytes_nonneg.
  - pose proof (len_nonneg ids). lia.
  - pose proof (len_nonneg (ddl_relation_ids m)).
    assert (0 <= sum_Z (map slen (ddl_affected_schemas m)))%Z.
    { apply sum_Z_nonneg. induction (ddl_affected_schemas m); constructor; [|done].
      unfold slen. lia. }
    unfold slen in *. lia.
Qed.

(** The changes of a transaction as they end up in it: a DDL message counts once. *)
Fixpoint dedup_ddl (earlier : list DdlMessage) (changes : list TransactionChange)
    : list TransactionChange :=
  match changes with
  | [] => []
  | Ddl m :: changes =>
      if decide (m ∈ earlier) then dedup_ddl earlier changes
      else Ddl m :: dedup_ddl (earlier ++ [m]) changes
  | c :: changes => c :: dedup_ddl earlier changes
  end.

Lemma repeats_ddl_spec changes c :
  repeats_ddl changes c = true <-> exists m, c = Ddl m /\ m ∈ omap ddl_of changes.
Proof.
  split.
  - destruct c as [|? ? ?|m]; cbn; [done..|]. intros (x & Hx & He)%existsb_exists.
    exists m. split; [done|]. apply list_elem_of_omap. exists x. rewrite list_elem_of_In.
    split; [done|]. destruct x; [done..|]. by apply bool_decide_eq_true in He as ->.
  - intros (m & -> & (x & Hx & Hd)%list_elem_of_omap). cbn. apply existsb_exists.
    exists x. rewrite <-list_elem_of_In. split; [done|].
    destruct x; cbn in Hd; [done..|]. injection Hd as ->. by apply bool_decide_eq_true.
Qed.

Lemma dedup_ddl_cons changes c rest :
  dedup_ddl (omap ddl_of changes) (c :: rest)
  = if repeats_ddl changes c then dedup_ddl (omap ddl_of changes) rest
    else c :: dedup_ddl (omap ddl_of (changes ++ [c])) rest.
Proof.
  rewrite omap_app. destruct (repeats_ddl changes c) eqn:Hr.
  - apply repeats_ddl_spec in Hr as (m & -> & Hm). cbn. by rewrite decide_True.
  - destruct c as [row|? ? ?|m]; cbn; [by rewrite app_nil_r..|].
    rewrite decide_False; [done|]. intros Hm. apply not_true_iff_false in Hr. apply Hr.
    apply repeats_ddl_spec. eauto.
Qed.

(** The state of an assembler inside transaction [p]. *)
Definition inside (self : TransactionAssembler) (p : PendingTransaction)
    (changes : list TransactionChange) : TransactionAssembler :=
  with_pending self
    (Some (mkPendingTransaction (pt_xid p) (pt_begin_lsn p) (pt_begin_time p) changes
             (saturating_sum (map transaction_change_bytes changes)))).

Lemma push_change_inside self p changes c :
  stale_row self c = None ->
  (repeats_ddl changes c = false ->
     (len (changes ++ [c]) <= tl_max_changes (ta_limits self))%Z /\
     (saturating_sum (map transaction_change_bytes (changes ++ [c])) <= tl_max_bytes (ta_limits self))%Z) ->
  push_change (inside self p changes) c
  = (Ok None, inside self p (if repeats_ddl changes c then changes else changes ++ [c])).
Proof.
  intros Hst Hlim. unfold push_change. cbn [ta_pending inside with_pending].
  change (stale_row (inside self p changes) c) with (stale_row self c). rewrite Hst.
  cbn [pt_changes]. destruct (repeats_ddl changes c); [done|].
  destruct (Hlim eq_refl) as [Hc Hb]. rewrite len_app in Hc. change (len [c]) with 1%Z in Hc.
  rewrite saturating_sum_map_snoc in Hb. cbn [ta_limits inside with_pending pt_buffered_bytes].
  destruct (Z.leb_spec (tl_max_changes (ta_limits self)) (len changes)); [lia|]. cbv zeta.
  destruct (Z.ltb_spec (tl_max_bytes (ta_limits self))
     (saturating_add (saturating_sum (map transaction_change_bytes changes))
        (transaction_change_bytes c))); [lia|].
  unfold inside. by rewrite saturating_sum_map_snoc.
Qed.

Lemma assembler_push_change self event c :
  to_transaction_change event = Ok (Some c) -> assembler_push self event = push_change self c.
Proof. by destruct event; cbn; intros [= <-]. Qed.

Lemma sum_bytes_prefix (l k : list TransactionChange) m :
  (sum_Z (map transaction_change_bytes (l ++ k)) <= m)%Z ->
  (saturating_sum (map transaction_change_bytes l) <= m)%Z.
Proof.
  assert (Hn : forall l, Forall (fun x => (0 <= x)%Z) (map transaction_change_bytes l)).
  { induction l0; constructor; auto using transaction_change_bytes_nonneg. }
  rewrite map_app, sum_Z_app, saturating_sum_min by done.
  pose proof (sum_Z_nonneg _ (Hn k)). lia.
Qed.

Lemma assemble_inside self p events cs changes :
  Forall2 (fun e c => to_transaction_change e = Ok (Some c)) events cs ->
  Forall (fun c => stale_row self c = None) cs ->
  let total := changes ++ dedup_ddl (omap ddl_of changes) cs in
  (len total <= tl_max_changes (ta_limits self))%Z ->
  (sum_Z (map transaction_change_bytes total) <= tl_max_bytes (ta_limits self))%Z ->
  assemble (inside self p changes) events = ([], inside self p total).
Proof.
  intros HF. revert changes. induction HF as [|e c events cs He _ IH]; intros changes Hst.
  { cbn. by rewrite app_nil_r. }
  apply Forall_cons in Hst as [Hst1 Hst]. cbv zeta. rewrite dedup_ddl_cons. intros Hlen Hby.
  assert (Hsnoc : changes ++ c :: dedup_ddl (omap ddl_of (changes ++ [c])) cs
    = (changes ++ [c]) ++ dedup_ddl (omap ddl_of (changes ++ [c])) cs) by by rewrite <-app_assoc.
  cbn [assemble]. rewrite (assembler_push_change _ _ _ He), push_change_inside; [|done|].
  - destruct (repeats_ddl changes c); [by rewrite IH|]. rewrite Hsnoc in *. by rewrite IH.
  - intros Hr. rewrite Hr, Hsnoc in *. split.
    + rewrite len_app in Hlen. pose proof (len_nonneg (dedup_ddl (omap ddl_of (changes ++ [c])) cs)). lia.
    + by eapply sum_bytes_prefix.
Qed.

(** *** Properties *)

(** C32: over any stream of events, correct or not, the assembler never buffers or emits more
    changes or bytes than its limits allow, never repeats a DDL message inside a
    transaction, stamps every transaction with its own node identity, and emits commit
    positions that never move backwards. *)
Theorem assembled_transactions_are_bounded_and_ordered identity limits a events cs a' :
  (0 <= tl_max_changes limits)%Z -> (0 <= tl_max_bytes limits)%Z ->
  Assembler_with_limits identity limits = Ok a -> assemble a events = (cs, a') ->
  Forall (fun c =>
    within_limits limits (st_changes (ct_transaction c)) /\
    st_final_position (ct_transaction c) = position_of identity (final_lsn (ct_transaction c)))
    cs /\
  Sorted lsn_le (map ct_transaction cs) /\
  (forall p, ta_pending a' = Some p -> within_limits limits (pt_changes p)).
Proof.
  intros Hc Hb Hnew Hrun. unfold Assembler_with_limits in Hnew. res_inv.
  set (a := mkTransactionAssembler identity limits None None ∅) in Hrun.
  assert (Hwf : wf_assembler a) by (by split).
  assert (Hgen : ta_limits a = limits /\ ta_identity a = identity) by done. clearbody a.
  enough (wf_assembler a' /\ ta_limits a' = limits /\
    Forall (fun c =>
    within_limits limits (st_changes (ct_transaction c)) /\
    st_final_position (ct_transaction c) = position_of identity (final_lsn (ct_transaction c)))
    cs /\ Sorted lsn_le (map ct_transaction cs) /\
    forall p c, ta_last_commit_lsn a = Some p -> head cs = Some c ->
      (p <= final_lsn (ct_transaction c))%Z) as (Hwf' & Hl' & ? & ? & _).
  { split_and!; [done|done|]. intros p Hp. destruct Hwf' as [_ Hpend].
    destruct (Hpend _ Hp) as [Hw _ _]. by rewrite Hl' in Hw. }
  revert a cs Hwf Hgen Hrun. induction events as [|e events IH]; intros a cs Hwf [Hl Hi] Hrun.
  { injection Hrun as <- <-. split_and!; try done; constructor. }
  cbn [assemble] in Hrun. destruct (assembler_push a e) as [r a1] eqn:Hpush.
  destruct (assemble a1 events) as [cs1 a2] eqn:Hrest. injection Hrun as <- ->.
  destruct (assembler_push_spec _ _ _ _ Hwf Hpush) as (Hwf1 & Hl1 & Hi1 & _ & Hr).
  destruct (IH a1 cs1 Hwf1) as (Hwf' & Hl' & HF & Hs & Hhd); [split; congruence|done|].
  destruct r as [[[c|]|]| |]; try (rewrite <-Hr; by split_and!).
  destruct Hr as [[Hlim Hpos _ Hord] Hlast]. rewrite Hl, Hi in *.
  split_and!; [done|done|by constructor| |].
  - cbn [map]. constructor; [done|]. destruct cs1 as [|c1 cs1]; cbn; constructor.
    unfold lsn_le. by apply Hhd.
  - intros p c' Hp [= <-]. by apply Hord.
Qed.

(** A well-formed transaction frame is assembled exactly: after BEGIN, the transactional
    events and COMMIT, in that order, an idle assembler has emitted one transaction that
    holds the frame's changes in order (a DDL message repeated inside the frame once),
    positioned at the commit's end LSN, and is idle again. *)
Theorem transaction_frame_is_assembled self begin_lsn begin_time xid events cs
    commit_lsn end_lsn commit_time :
  ta_pending self = None ->
  (forall p, ta_last_commit_lsn self = Some p -> p <= begin_lsn)%Z ->
  (begin_lsn <= end_lsn)%Z -> (commit_lsn <= end_lsn)%Z -> (begin_time <= commit_time)%Z ->
  Forall2 (fun e c => to_transaction_change e = Ok (Some c)) events cs ->
  Forall (fun c => stale_row self c = None) cs ->
  (len (dedup_ddl [] cs) <= tl_max_changes (ta_limits self))%Z ->
  (sum_Z (map transaction_change_bytes (dedup_ddl [] cs)) <= tl_max_bytes (ta_limits self))%Z ->
  assemble self (DBegin begin_lsn begin_time xid :: events
                 ++ [DCommit commit_lsn end_lsn commit_time 0])
  = ([mkCommittedTransaction
        (mkSourceTransaction xid commit_time (position_of (ta_identity self) end_lsn)
           (dedup_ddl [] cs)) commit_lsn],
     mkTransactionAssembler (ta_identity self) (ta_limits self) None (Some end_lsn)
       (ta_relation_generations self)).
Proof.
  intros Hidle Hlast Hbe Hce Hbt HF Hst Hlen Hby.
  set (p := mkPendingTransaction xid begin_lsn begin_time [] 0).
  assert (Hbegin : assembler_push self (DBegin begin_lsn begin_time xid) = (Ok None, inside self p [])).
  { cbn. rewrite Hidle. rewrite bool_decide_false by (by intros [? ?]).
    destruct (ta_last_commit_lsn self) as [q|]; [|done].
    specialize (Hlast q eq_refl). destruct (Z.ltb_spec begin_lsn q); [lia|done]. }
  cbn [assemble]. rewrite Hbegin, assemble_app.
  rewrite (assemble_inside self p events cs []) by done. cbn [fst snd omap list_omap app].
  cbn [assemble assembler_push]. unfold assembler_commit. cbn [negb Z.eqb inside with_pending
    ta_last_commit_lsn ta_pending pt_begin_lsn pt_begin_time pt_xid p].
  destruct (Z.ltb_spec end_lsn commit_lsn); [lia|].
  assert (match ta_last_commit_lsn self with Some p => (end_lsn <? p)%Z | None => false end = false)
    as ->.
  { destruct (ta_last_commit_lsn self) as [q|]; [|done].
    specialize (Hlast q eq_refl). destruct (Z.ltb_spec end_lsn q); [lia|done]. }
  cbv zeta. destruct (Z.ltb_spec end_lsn begin_lsn); [lia|].
  destruct (Z.ltb_spec commit_time begin_time); [lia|]. done.
Qed.

(** ** Decoder and assembler together *)

Section pipeline.
Context (timestamp_micros : Z -> option Z).
Context (from_slice : bytes -> result string DdlEnvelope).

Notation dec := (decode timestamp_micros from_slice).

(** The decoder's and the assembler's views of the stream agree: they are inside a
    transaction together, and know the same current generation of every relation. *)
Record in_sync (d : TransactionDecoder) (a : TransactionAssembler) : Prop := {
  sync_transaction : td_in_transaction d = true <-> is_Some (ta_pending a);
  sync_generations : forall id,
    ta_relation_generations a !! id = re_generation <$> td_relations d !! id;
  sync_positive : forall id e, td_relations d !! id = Some e ->
    (1 <= re_generation e)%Z /\ re_relation_id e = id;
}.

(** A decoded message is acceptable to the assembler's protocol checks: BEGIN only outside
    and COMMIT and changes only inside a transaction, rows only in the current generation
    of their relation, relation generations positive and never moving backwards. *)
Definition in_protocol (a : TransactionAssembler) (m : DecodedMessage) : Prop :=
  match m with
  | DBegin _ _ _ => ta_pending a = None
  | DCommit _ _ _ _ => is_Some (ta_pending a)
  | DRelation e => exists a', accept_relation a e = (Ok tt, a')
  | DType _ | DKeepalive _ _ _ => True
  | m => is_Some (ta_pending a) /\
         forall c, to_transaction_change m = Ok (Some c) -> stale_row a c = None
  end.

(** One wire message through both; [None] once a step has failed. *)
Definition feed (s : TransactionDecoder * TransactionAssembler)
    (message : LogicalReplicationMessage)
    : result SourceError (TransactionDecoder * TransactionAssembler) :=
  let (decoded, d) := dec s.1 message in
  let? m := decoded in
  let (r, a) := assembler_push s.2 m in
  let? _ := r in
  Ok (d, a).

Lemma decoder_generation_sync d a id g :
  in_sync d a -> decoder_generation d id = Ok g ->
  ta_relation_generations a !! id = Some g.
Proof.
  intros Hs H. unfold decoder_generation in H. res_inv. by rewrite (sync_generations _ _ Hs).
Qed.

Lemma require_transaction_sync d a op :
  in_sync d a -> require_transaction d op = Ok tt -> is_Some (ta_pending a).
Proof.
  intros Hs H. apply (sync_transaction _ _ Hs). unfold require_transaction in H.
  by destruct (td_in_transaction d).
Qed.

Lemma row_not_stale a id g change :
  ta_relation_generations a !! id = Some g -> stale_row a (Row (mkTableChange id g change)) = None.
Proof. intros H. cbn. by rewrite bool_decide_true. Qed.

Lemma next_generation_bound previous event g :
  (forall p, previous = Some p -> 1 <= re_generation p)%Z ->
  next_generation previous event = Ok g ->
  (1 <= g)%Z /\ (forall p, previous = Some p -> re_generation p <= g)%Z.
Proof.
  intros Hp H. destruct previous as [p|]; cbn in H; [|by injection H as <-].
  specialize (Hp p eq_refl).
  destruct (relation_shape_equal p event); [|destruct (_ <=? _)%Z; [|done]];
    injection H as <-; (split; [lia|]); intros q [= <-]; lia.
Qed.

Lemma decode_relation_sync d a rel_id ns nm ident cols e :
  in_sync d a -> decode_relation d rel_id ns nm ident cols = Ok e ->
  re_relation_id e = rel_id /\ (1 <= re_generation e)%Z /\
  (forall g, ta_relation_generations a !! rel_id = Some g -> (g <= re_generation e)%Z).
Proof.
  intros Hs H. unfold decode_relation in H. res_inv. cbn.
  match goal with H : next_generation _ _ = Ok _ |- _ =>
    apply next_generation_bound in H as [Hlow Hmono] end.
  - split_and!; [done|done|]. intros g Hg. rewrite (sync_generations _ _ Hs) in Hg.
    destruct (td_relations d !! rel_id) as [p|] eqn:E; [|done]. injection Hg as <-. by apply Hmono.
  - intros p Hp. by apply (sync_positive _ _ Hs) in Hp as [? _].
Qed.

Lemma accept_relation_Ok a e :
  (1 <= re_generation e)%Z ->
  (forall g, ta_relation_generations a !! re_relation_id e = Some g -> (g <= re_generation e)%Z) ->
  accept_relation a e
  = (Ok tt, mkTransactionAssembler (ta_identity a) (ta_limits a) (ta_pending a)
       (ta_last_commit_lsn a)
       (<[re_relation_id e := re_generation e]> (ta_relation_generations a))).
Proof.
  intros Hp Hg. unfold accept_relation. destruct (Z.eqb_spec (re_generation e) 0); [lia|].
  destruct (ta_relation_generations a !! re_relation_id e) as [g|]; [|done].
  specialize (Hg g eq_refl). destruct (Z.ltb_spec (re_generation e) g); [lia|done].
Qed.

(** Everything [decode_payload] returns is a change inside a transaction or a type. *)
Lemma decode_payload_in_protocol d a message m :
  in_sync d a -> decode_payload from_slice d message = Ok m ->
  in_protocol a m /\ (forall e, m <> DRelation e) /\ (forall b t x, m <> DBegin b t x) /\
  (forall c e t f, m <> DCommit c e t f).
Proof.
  intros Hs H. destruct message; cbn [decode_payload] in H; try discriminate H; res_inv;
    try (destruct (bool_decide _) in H; [discriminate H|]; res_inv);
    repeat match goal with
    | H : require_transaction _ _ = Ok ?u |- _ =>
        destruct u; apply (require_transaction_sync _ _ _ Hs) in H
    | H : decoder_generation _ _ = Ok _ |- _ => apply (decoder_generation_sync _ _ _ _ Hs) in H
    end; cbn; (split; [|by split_and!]); try done; split; try done;
    intros c [= <-]; try done; by apply row_not_stale.
Qed.

Lemma decode_in_protocol d a message m d' :
  in_sync d a -> dec d message = (Ok m, d') -> in_protocol a m.
Proof.
  intros Hs H. destruct message; cbn [decode] in H;
    try (apply (f_equal fst) in H; by destruct (decode_payload_in_protocol d a _ m Hs H)).
  - destruct (td_in_transaction d) eqn:E; [done|]. injection H as H _. res_inv. cbn.
    destruct (ta_pending a) eqn:Hp; [|done]. exfalso.
    assert (td_in_transaction d = true) by (apply (sync_transaction _ _ Hs); by rewrite Hp).
    congruence.
  - destruct (td_in_transaction d) eqn:E; [|done]. injection H as H _. res_inv. cbn.
    by apply (sync_transaction _ _ Hs).
  - destruct (decode_relation d _ _ _ _ _) as [e| |] eqn:E; [|done..]. injection H as <- _.
    destruct (decode_relation_sync _ _ _ _ _ _ _ _ Hs E) as (Hid & Hp & Hg).
    eexists. apply accept_relation_Ok; [done|]. by rewrite Hid.
Qed.

(** Only BEGIN, COMMIT and relation messages change what the two sides must agree on. *)
Lemma push_payload_sync a m r a' :
  (forall e, m <> DRelation e) -> (forall b t x, m <> DBegin b t x) ->
  (forall c e t f, m <> DCommit c e t f) -> assembler_push a m = (r, a') ->
  (is_Some (ta_pending a') <-> is_Some (ta_pending a)) /\
  ta_relation_generations a' = ta_relation_generations a.
Proof.
  intros Hr Hb Hc H.
  assert (Hch : forall c, push_change a c = (r, a') ->
    (is_Some (ta_pending a') <-> is_Some (ta_pending a)) /\
    ta_relation_generations a' = ta_relation_generations a).
  { intros c. unfold push_change. destruct (ta_pending a) as [p|] eqn:E;
      [|intros [= <- <-]; by rewrite E].
    destruct (stale_row a c); [intros [= <- <-]; by rewrite E|].
    destruct (repeats_ddl (pt_changes p) c); [intros [= <- <-]; by rewrite E|].
    destruct (_ <=? _)%Z; [intros [= <- <-]; by rewrite E|]. cbv zeta.
    destruct (_ <? _)%Z; intros [= <- <-]; [by rewrite E|]. split; [by split; eexists|done]. }
  destruct m; cbn [assembler_push to_transaction_change] in H;
    try (by eapply Hch); try (by injection H as <- <-);
    [by destruct (Hb final_lsn timestamp xid)
    |by destruct (Hc commit_lsn end_lsn timestamp flags)|by destruct (Hr event)].
Qed.

(** The agreement survives every message both accept. *)
Lemma feed_sync d a message d' a' :
  in_sync d a -> feed (d, a) message = Ok (d', a') -> in_sync d' a'.
Proof.
  intros Hs H. unfold feed in H. cbn [fst snd] in H.
  destruct (dec d message) as [decoded d1] eqn:Hd. res_inv.
  destruct (assembler_push a v) as [r a1] eqn:Hp. res_inv.
  destruct message; cbn [decode] in Hd;
    try (apply pair_eq in Hd as [Hd <-];
    destruct (decode_payload_in_protocol d a _ v Hs Hd) as (_ & Hnr & Hnb & Hnc);
    destruct (push_payload_sync _ _ _ _ Hnr Hnb Hnc Hp) as [Hpe Hge];
    destruct Hs; split; [by rewrite Hpe|by rewrite Hge|done]).
  - destruct (td_in_transaction d); [done|]. injection Hd as Hd <-. res_inv.
    cbn [assembler_push] in Hp. destruct (bool_decide _); [discriminate Hp|].
    destruct (match _ with Some p => _ | None => _ end); [discriminate Hp|].
    destruct Hs. apply pair_eq in Hp as [_ <-]. split; cbn; [by split; [eexists|]|done|done].
  - destruct (td_in_transaction d); [|done]. injection Hd as Hd <-. res_inv.
    cbn [assembler_push] in Hp. unfold assembler_commit in Hp.
    destruct (negb _); [discriminate Hp|]. destruct (end_lsn <? _)%Z; [discriminate Hp|].
    destruct (match ta_last_commit_lsn a with Some p => _ | None => _ end); [discriminate Hp|].
    destruct (ta_pending a) as [p|]; [|discriminate Hp]. cbv zeta in Hp.
    destruct (_ <? _)%Z; [discriminate Hp|]. destruct (_ <? _)%Z; [discriminate Hp|].
    destruct Hs. apply pair_eq in Hp as [_ <-]. split; cbn; [by split; [|intros [??]]|done|done].
  - destruct (decode_relation d _ _ _ _ _) as [e| |] eqn:E; [|done..]. injection Hd as <- <-.
    destruct (decode_relation_sync _ _ _ _ _ _ _ _ Hs E) as (Hid & Hpos & Hg).
    cbn [assembler_push] in Hp. rewrite accept_relation_Ok in Hp by (done || by rewrite Hid).
    apply pair_eq in Hp as [_ <-]. destruct Hs as [Ht Hgen Hval]. split; cbn; [done| |].
    + intros id. rewrite Hid. destruct (decide (id = rel_id)) as [->|Hne].
      * by rewrite !lookup_insert_eq.
      * by rewrite !lookup_insert_ne.
    + intros id e'. destruct (decide (id = rel_id)) as [->|Hne].
      * rewrite lookup_insert_eq. by intros [= <-].
      * rewrite lookup_insert_ne by done. apply Hval.
Qed.

Lemma initial_sync identity limits a :
  Assembler_with_limits identity limits = Ok a -> in_sync Decoder_new a.
Proof.
  unfold Assembler_with_limits. intros H. res_inv.
  split; cbn; [by split; [|intros [??]]|intros id; by rewrite !lookup_empty|].
  intros id e. by rewrite lookup_empty.
Qed.

(** The decoder only ever hands the assembler protocol-conformant events: after any
    stream of wire messages that both have accepted from the start, whatever message the
    decoder decodes next passes every protocol check of the assembler - BEGIN only outside
    and COMMIT and changes only inside a transaction, rows only in their relation's
    current schema generation, relation generations positive and never moving back. *)
Theorem decoded_stream_is_in_protocol identity limits a0 messages d a message m d' :
  Assembler_with_limits identity limits = Ok a0 ->
  foldM feed (Decoder_new, a0) messages = Ok (d, a) ->
  dec d message = (Ok m, d') ->
  in_protocol a m.
Proof.
  intros Hnew Hrun Hd. apply (decode_in_protocol d a message m d'); [|done].
  apply (foldM_ind feed (fun _ s => in_sync s.1 s.2) (Decoder_new, a0) messages (d, a));
    [by eapply initial_sync| |done].
  intros _ x [d1 a1] [d2 a2] Hs _ Hf. by eapply feed_sync.
Qed.
End pipeline.

(** ** Witnesses *)

Definition example_identity : SourceNodeIdentity := mkSourceNodeIdentity 1 9 1.
Definition example_assembler : TransactionAssembler :=
  mkTransactionAssembler example_identity (mkTransactionLimits 2 100) None (Some 5%Z) {[7%Z := 1%Z]}.
Definition example_row (id : byte) : TransactionChange :=
  Row (mkTableChange 7 1 (Insert (mkTuple [Text [id]]))).
Definition example_ddl : DdlMessage := mkDdlMessage 1 "ALTER TABLE" [7%Z] ["public"] "abc".
Definition example_frame : list DecodedMessage :=
  [DDdl example_ddl; DInsert 7 1 (mkTuple [Text [x31]]); DDdl example_ddl].

Lemma assembled_transactions_are_bounded_and_ordered_witness :
  exists a cs a', Assembler_with_limits example_identity (mkTransactionLimits 2 100) = Ok a /\
    assemble a [DBegin 5 0 1; DDdl example_ddl; DDdl example_ddl; DCommit 5 6 1 0;
                DBegin 6 0 2; DCommit 6 6 1 0] = (cs, a') /\
    length cs = 2%nat /\ Sorted lsn_le (map ct_transaction cs).
Proof.
  do 3 eexists. split; [reflexivity|]. split; [vm_compute; reflexivity|]. split; [reflexivity|].
  eapply (assembled_transactions_are_bounded_and_ordered example_identity
    (mkTransactionLimits 2 100) _ [DBegin 5 0 1; DDdl example_ddl; DDdl example_ddl;
      DCommit 5 6 1 0; DBegin 6 0 2; DCommit 6 6 1 0]);
    [done|done|reflexivity|vm_compute; reflexivity].
Defined.

Lemma transaction_frame_is_assembled_witness :
  exists cs, cs = [Ddl example_ddl; example_row x31; Ddl example_ddl] /\
  (assemble example_assembler (DBegin 5 10 3 :: example_frame ++ [DCommit 6 7 11 0])).1
  = [mkCommittedTransaction
       (mkSourceTransaction 3 11 (position_of example_identity 7) [Ddl example_ddl; example_row x31])
       6].
Proof.
  eexists. split; [reflexivity|].
  rewrite (transaction_frame_is_assembled example_assembler 5 10 3 example_frame
    [Ddl example_ddl; example_row x31; Ddl example_ddl] 6 7 11);
    [reflexivity|reflexivity|intros p [= <-]; done|done|done|done
    |by repeat constructor|by repeat constructor|vm_compute; discriminate|vm_compute; discriminate].
Defined.

Definition example_wire : list LogicalReplicationMessage :=
  [WRelation 7 (Ok "public") (Ok "items") WireDefault [mkWireColumn 1 (Ok "id") 23 (-1)];
   WBegin 5 0 1; WInsert 7 [TDText [x31]]; WCommit 0 5 6 0;
   WRelation 7 (Ok "public") (Ok "items") WireDefault
     [mkWireColumn 1 (Ok "id") 23 (-1); mkWireColumn 0 (Ok "v") 25 (-1)];
   WBegin 6 0 2].

Lemma decoded_stream_is_in_protocol_witness :
  exists a0 d a m d',
    Assembler_with_limits example_identity (mkTransactionLimits 2 100) = Ok a0 /\
    foldM (feed Some (fun _ => Err "")) (Decoder_new, a0) example_wire = Ok (d, a) /\
    decode Some (fun _ => Err "") d (WInsert 7 [TDText [x31]; TDNull]) = (Ok m, d') /\
    message_generation m = Some 2%Z /\ in_protocol a m.
Proof.
  do 5 eexists. split; [reflexivity|]. split; [vm_compute; reflexivity|].
  split; [vm_compute; reflexivity|]. split; [reflexivity|].
  eapply (decoded_stream_is_in_protocol Some (fun _ => Err "") example_identity
    (mkTransactionLimits 2 100) _ example_wire _ _ (WInsert 7 [TDText [x31]; TDNull]));
    [reflexivity|vm_compute; reflexivity|vm_compute; reflexivity].
Defined.
