(* ===== verification/TargetSchema.v ===== *)
(** * Cloudberry table plans

    Models [crates/target-cloudberry/src/schema.rs]: the translation of a source type into
    Cloudberry DDL ([plan_type]) and of a source table into a heap table distributed by its
    complete primary key ([plan_create_table]).  A [HashSet] that only detects repetitions is
    a [gset]; the list of prerequisite user types that the code threads through by mutable
    reference is passed and returned. *)

From S2P Require Import Prelude Core Schema Sql.

Definition MAX_NUMERIC_PRECISION : Z := 1000.
Definition MAX_CHARACTER_LENGTH : Z := 10485760.
Definition MAX_BIT_LENGTH : Z := 83886080.
Definition MAX_DATETIME_PRECISION : Z := 6.

Inductive SchemaError : Type :=
| SchemaCore (e : CoreError)
| SchemaSql (e : SqlRenderError)
| UnsupportedType (data_type reason : string)
| InvalidTypmod (data_type reason : string)
| UnsupportedTableKind (kind : TableKind)
| DuplicateColumn (name : string)
| InvalidPrimaryKeyOrdinal (ordinal : Z)
| ConflictingUserType (name : string).

Inductive UserTypeDefinition : Type :=
| DefEnum (labels : list string)
| DefDomain (base_sql : string).
Global Instance UserTypeDefinition_eq_dec : EqDecision UserTypeDefinition.
Proof. solve_decision. Defined.

Record UserTypePlan : Type := mkUserTypePlan {
  utp_name : QualifiedName;
  utp_create_sql : string;
  utp_definition : UserTypeDefinition;
}.
Global Instance UserTypePlan_eq_dec : EqDecision UserTypePlan.
Proof. solve_decision. Defined.

Record TypePlan : Type := mkTypePlan {
  tp_sql : string;
  tp_prerequisites : list UserTypePlan;
}.

Record ColumnPlan : Type := mkColumnPlan {
  cp_source_attnum : Z;
  cp_name : string;
  cp_type_sql : string;
  cp_nullable : bool;
  cp_primary_key_ordinal : option Z;
}.

Inductive TargetStorage : Type := Heap.

Record CreateTablePlan : Type := mkCreateTablePlan {
  ctp_target : QualifiedName;
  ctp_storage : TargetStorage;
  ctp_columns : list ColumnPlan;
  ctp_primary_key : list string;
  ctp_distribution_key : list string;
  ctp_prerequisites : list UserTypePlan;
  ctp_create_sql : string;
}.

Definition newline : string := String (chr 10) EmptyString.

(** The [From] conversions that [?] applies. *)
Definition sql_err {A} (m : result SqlRenderError A) : result SchemaError A := map_err SchemaSql m.
Definition core_err {A} (m : result CoreError A) : result SchemaError A := map_err SchemaCore m.

Definition unsupported_type (name : QualifiedName) (reason : string) : SchemaError :=
  UnsupportedType (QualifiedName_to_string name) reason.

(** [(1..=max).contains(&value)]. *)
Definition in_range (max value : Z) : bool := (1 <=? value)%Z && (value <=? max)%Z.

Definition validate_precision (precision : Z) : result SchemaError unit :=
  if in_range MAX_NUMERIC_PRECISION precision then Ok tt
  else Err (InvalidTypmod "numeric"
              ("precision must be between 1 and " +:+ pretty MAX_NUMERIC_PRECISION)).

Definition numeric_sql (precision scale : option Z) : result SchemaError string :=
  match precision, scale with
  | None, None => Ok "numeric"
  | Some precision, None =>
      let? _ := validate_precision precision in
      Ok ("numeric(" +:+ pretty precision +:+ ")")
  | Some precision, Some scale =>
      let? _ := validate_precision precision in
      if (scale <? 0)%Z
      then Err (InvalidTypmod "numeric"
                  "negative scale is a PostgreSQL 15+ feature absent from the PG14-based target")
      else if (precision <? scale)%Z
      then Err (InvalidTypmod "numeric" "scale must not exceed precision on Cloudberry 2.1")
      else Ok ("numeric(" +:+ pretty precision +:+ "," +:+ pretty scale +:+ ")")
  | None, Some _ => Err (InvalidTypmod "numeric" "scale cannot be specified without precision")
  end.

Definition character_sql (data_type : string) (length : option Z) : result SchemaError string :=
  match length with
  | None => Ok data_type
  | Some length =>
      if in_range MAX_CHARACTER_LENGTH length
      then Ok (data_type +:+ "(" +:+ pretty length +:+ ")")
      else Err (InvalidTypmod data_type
                  ("length must be between 1 and " +:+ pretty MAX_CHARACTER_LENGTH))
  end.

Definition precision_suffix (data_type : string) (precision : option Z) : result SchemaError string :=
  match precision with
  | None => Ok EmptyString
  | Some precision =>
      if (precision <=? MAX_DATETIME_PRECISION)%Z then Ok ("(" +:+ pretty precision +:+ ")")
      else Err (InvalidTypmod data_type
                  ("precision must be at most " +:+ pretty MAX_DATETIME_PRECISION))
  end.

Definition datetime_sql (data_type : string) (precision : option Z) (with_time_zone : bool)
    : result SchemaError string :=
  let? suffix := precision_suffix data_type precision in
  Ok (data_type +:+ suffix +:+ if with_time_zone then " with time zone" else " without time zone").

Definition bit_sql (length : option Z) (varying : bool) : result SchemaError string :=
  let name := if varying then "bit varying" else "bit" in
  match length with
  | None => Ok name
  | Some length =>
      if in_range MAX_BIT_LENGTH length then Ok (name +:+ "(" +:+ pretty length +:+ ")")
      else Err (InvalidTypmod name ("length must be between 1 and " +:+ pretty MAX_BIT_LENGTH))
  end.

(** [labels.iter().any(|label| !unique.insert(label))]. *)
Definition has_duplicates (labels : list string) : bool := negb (bool_decide (NoDup labels)).

(** [plan_type_inner]; the result carries the prerequisites collected so far. *)
Fixpoint plan_type_inner (data_type : PgType) (target_type_schema : string)
    (prerequisites : list UserTypePlan) {struct data_type}
    : result SchemaError (string * list UserTypePlan) :=
  match data_type with
  | mkPgType _ name kind => plan_type_kind kind name target_type_schema prerequisites
  end
with plan_type_kind (kind : PgTypeKind) (name : QualifiedName) (target_type_schema : string)
    (prerequisites : list UserTypePlan) {struct kind}
    : result SchemaError (string * list UserTypePlan) :=
  let plain (sql : result SchemaError string) := let? sql := sql in Ok (sql, prerequisites) in
  match kind with
  | TBool => plain (Ok "boolean")
  | TInt2 => plain (Ok "smallint")
  | TInt4 => plain (Ok "integer")
  | TInt8 => plain (Ok "bigint")
  | TNumeric precision scale => plain (numeric_sql precision scale)
  | TFloat4 => plain (Ok "real")
  | TFloat8 => plain (Ok "double precision")
  | TText => plain (Ok "text")
  | TVarChar length => plain (character_sql "character varying" length)
  | TChar length => plain (character_sql "character" length)
  | TBytea => plain (Ok "bytea")
  | TDate => plain (Ok "date")
  | TTime precision with_time_zone => plain (datetime_sql "time" precision with_time_zone)
  | TTimestamp precision with_time_zone => plain (datetime_sql "timestamp" precision with_time_zone)
  | TInterval precision =>
      plain (let? suffix := precision_suffix "interval" precision in Ok ("interval" +:+ suffix))
  | TUuid => plain (Ok "uuid")
  | TJson => plain (Ok "json")
  | TJsonb => plain (Ok "jsonb")
  | TInet => plain (Ok "inet")
  | TCidr => plain (Ok "cidr")
  | TMacAddr => plain (Ok "macaddr")
  | TMacAddr8 => plain (Ok "macaddr8")
  | TBit length varying => plain (bit_sql length varying)
  | TXml => Err (unsupported_type name "XML is outside the verified current-state type contract")
  | TEnum labels =>
      if bool_decide (labels = []) then Err (unsupported_type name "enum has no labels")
      else if has_duplicates labels then Err (unsupported_type name "enum has duplicate labels")
      else
        let? target_name := core_err (QualifiedName_new target_type_schema (qn_name name)) in
        let? rendered := sql_err (try_map quote_literal labels) in
        let? quoted := sql_err (quote_qualified_name target_name) in
        Ok (quoted,
            prerequisites ++
            [mkUserTypePlan target_name
               ("CREATE TYPE " +:+ quoted +:+ " AS ENUM (" +:+ join ", " rendered +:+ ")")
               (DefEnum labels)])
  | TDomain base constraints =>
      if negb (bool_decide (constraints = []))
      then Err (unsupported_type name "raw domain constraints are not safe to replay")
      else
        let? '(base_sql, prerequisites) := plan_type_inner base target_type_schema prerequisites in
        let? target_name := core_err (QualifiedName_new target_type_schema (qn_name name)) in
        let? quoted := sql_err (quote_qualified_name target_name) in
        Ok (quoted,
            prerequisites ++
            [mkUserTypePlan target_name ("CREATE DOMAIN " +:+ quoted +:+ " AS " +:+ base_sql)
               (DefDomain base_sql)])
  | TArray element =>
      let? '(sql, prerequisites) := plan_type_inner element target_type_schema prerequisites in
      Ok (sql +:+ "[]", prerequisites)
  | TUnsupported reason => Err (unsupported_type name reason)
  end.

Definition plan_type (data_type : PgType) (target_type_schema : string)
    : result SchemaError TypePlan :=
  let? '(sql, prerequisites) := plan_type_inner data_type target_type_schema [] in
  Ok (mkTypePlan sql prerequisites).

(** The check-then-push of one column's prerequisites: the same type planned twice is kept
    once, two different definitions under one name are an error. *)
Definition add_prerequisite (prerequisites : list UserTypePlan) (prerequisite : UserTypePlan)
    : result SchemaError (list UserTypePlan) :=
  let key := QualifiedName_to_string (utp_name prerequisite) in
  match List.find (fun existing => bool_decide (QualifiedName_to_string (utp_name existing) = key))
          prerequisites with
  | Some existing =>
      if bool_decide (existing <> prerequisite) then Err (ConflictingUserType key)
      else Ok prerequisites
  | None => Ok (prerequisites ++ [prerequisite])
  end.

(** The COLLATE clause of a column. *)
Definition collation_sql (target : QualifiedName) (collation : option QualifiedName)
    : result SchemaError string :=
  match collation with
  | Some source_collation =>
      let? target_collation :=
        if bool_decide (qn_schema source_collation = "pg_catalog") then Ok source_collation
        else core_err (QualifiedName_new (qn_schema target) (qn_name source_collation)) in
      let? quoted := sql_err (quote_qualified_name target_collation) in
      Ok (" COLLATE " +:+ quoted)
  | None => Ok EmptyString
  end.

(** The variables of the loop over the source columns. *)
Record PlanState : Type := mkPlanState {
  ps_names : gset string;
  ps_pk_ordinals : gset Z;
  ps_columns : list ColumnPlan;
  ps_prerequisites : list UserTypePlan;
}.

(** [column.primary_key_ordinal] is taken or zero. *)
Definition bad_ordinal (taken : gset Z) (ordinal : option Z) : option Z :=
  match ordinal with
  | Some o => if (o =? 0)%Z || bool_decide (o ∈ taken) then Some o else None
  | None => None
  end.

(** One iteration of the loop of [plan_create_table]. *)
Definition plan_column (target : QualifiedName) (st : PlanState) (column : ColumnSchema)
    : result SchemaError PlanState :=
  if bool_decide (col_name column ∈ ps_names st) then Err (DuplicateColumn (col_name column))
  else
    match bad_ordinal (ps_pk_ordinals st) (col_primary_key_ordinal column) with
    | Some ordinal => Err (InvalidPrimaryKeyOrdinal ordinal)
    | None =>
        if bool_decide (col_generated column = GenVirtual)
        then Err (unsupported_type (pgtype_name (col_data_type column))
                    "virtual generated columns cannot be materialized from pgoutput")
        else
          let? mapped := plan_type (col_data_type column) (qn_schema target) in
          let? prerequisites :=
            foldM add_prerequisite (ps_prerequisites st) (tp_prerequisites mapped) in
          let? collation := collation_sql target (col_collation column) in
          Ok (mkPlanState ({[col_name column]} ∪ ps_names st)
                (match col_primary_key_ordinal column with
                 | Some o => {[o]} ∪ ps_pk_ordinals st
                 | None => ps_pk_ordinals st
                 end)
                (ps_columns st ++
                 [mkColumnPlan (col_attnum column) (col_name column)
                    (tp_sql mapped +:+ collation) (col_nullable column)
                    (col_primary_key_ordinal column)])
                prerequisites)
    end.

Definition column_definition (column : ColumnPlan) : result SchemaError string :=
  let? name := sql_err (quote_identifier (cp_name column)) in
  Ok ("    " +:+ name +:+ " " +:+ cp_type_sql column
      +:+ if cp_nullable column then EmptyString else " NOT NULL").

Definition render_create_table (target : QualifiedName) (columns : list ColumnPlan)
    (primary_key : list string) : result SchemaError string :=
  let? definitions := try_map column_definition columns in
  let? quoted_key := sql_err (quote_identifier_list primary_key) in
  let? quoted_target := sql_err (quote_qualified_name target) in
  Ok ("CREATE TABLE " +:+ quoted_target +:+ " (" +:+ newline
      +:+ join ("," +:+ newline) (definitions ++ ["    PRIMARY KEY (" +:+ quoted_key +:+ ")"])
      +:+ newline +:+ ")" +:+ newline +:+ "USING heap" +:+ newline
      +:+ "DISTRIBUTED BY (" +:+ quoted_key +:+ ")").

Definition plan_create_table (source : TableSchema) (target : QualifiedName)
    : result SchemaError CreateTablePlan :=
  let? _ := core_err (validate_supported source) in
  if bool_decide (ts_kind source = Ordinary) || bool_decide (ts_kind source = CitusDistributed)
  then
    let? st := foldM (plan_column target) (mkPlanState ∅ ∅ [] []) (ts_columns source) in
    let pk := map col_name (primary_key source) in
    let? create_sql := render_create_table target (ps_columns st) pk in
    Ok (mkCreateTablePlan target Heap (ps_columns st) pk pk (ps_prerequisites st) create_sql)
  else Err (UnsupportedTableKind (ts_kind source)).

(** ** Lemmas *)

Lemma add_prerequisite_Ok ps p ps' :
  add_prerequisite ps p = Ok ps' ->
  NoDup (map (fun q => QualifiedName_to_string (utp_name q)) ps) ->
  p ∈ ps' /\ ps ⊆ ps' /\ NoDup (map (fun q => QualifiedName_to_string (utp_name q)) ps').
Proof.
  unfold add_prerequisite. intros H Hnd. destruct (List.find _ _) as [q|] eqn:Hf.
  - apply List.find_some in Hf as [Hin _]. rewrite <-list_elem_of_In in Hin.
    case_bool_decide as Hne; [done|]. injection H as <-. by subst q.
  - injection H as <-. split_and!; [set_solver|set_solver|]. rewrite map_app.
    apply NoDup_app. split_and!; [done| |apply NoDup_singleton].
    intros x Hx ->%list_elem_of_singleton. apply list_elem_of_fmap in Hx as (q & Heq & Hq).
    apply list_elem_of_In in Hq. pose proof (List.find_none _ _ Hf q Hq) as Hn. cbn in Hn.
    by rewrite bool_decide_true in Hn.
Qed.

Lemma add_prerequisites_Ok ps l ps' :
  foldM add_prerequisite ps l = Ok ps' ->
  NoDup (map (fun q => QualifiedName_to_string (utp_name q)) ps) ->
  l ⊆ ps' /\ ps ⊆ ps' /\ NoDup (map (fun q => QualifiedName_to_string (utp_name q)) ps').
Proof.
  revert ps. induction l as [|p l IH]; intros ps H Hnd; cbn in H; res_inv.
  - split_and!; [by apply list_subseteq_nil|done|done].
  - destruct (add_prerequisite_Ok _ _ _ H0 Hnd) as (Hp & Hps & Hnd1).
    destruct (IH _ H Hnd1) as (Hl & Hv & Hnd2). split_and!; [|set_solver|done].
    intros x [->|Hx]%elem_of_cons; set_solver.
Qed.

(** How a planned column relates to its source column. *)
Definition planned (target : QualifiedName) (prerequisites : list UserTypePlan)
    (c : ColumnSchema) (p : ColumnPlan) : Prop :=
  cp_source_attnum p = col_attnum c /\ cp_name p = col_name c /\
  cp_nullable p = col_nullable c /\ cp_primary_key_ordinal p = col_primary_key_ordinal c /\
  exists sql pre collation,
    plan_type (col_data_type c) (qn_schema target) = Ok (mkTypePlan sql pre) /\
    collation_sql target (col_collation c) = Ok collation /\
    cp_type_sql p = sql +:+ collation /\ pre ⊆ prerequisites.

Lemma planned_mono target ps ps' c p : ps ⊆ ps' -> planned target ps c p -> planned target ps' c p.
Proof. intros Hs (?&?&?&?&sql&pre&co&?&?&?&?). split_and!; try done. exists sql, pre, co. set_solver. Qed.

(** The invariant of the loop over the columns. *)
Record plan_inv (target : QualifiedName) (done : list ColumnSchema) (st : PlanState) : Prop := {
  pi_columns : Forall2 (planned target (ps_prerequisites st)) done (ps_columns st);
  pi_names : NoDup (map col_name done);
  pi_names_set : forall n, n ∈ ps_names st <-> n ∈ map col_name done;
  pi_ordinals : NoDup (omap col_primary_key_ordinal done);
  pi_ordinals_set : forall o, o ∈ ps_pk_ordinals st <-> o ∈ omap col_primary_key_ordinal done;
  pi_nonzero : 0%Z ∉ omap col_primary_key_ordinal done;
  pi_prerequisites :
    NoDup (map (fun q => QualifiedName_to_string (utp_name q)) (ps_prerequisites st));
}.

Lemma plan_column_inv target l st c st' :
  plan_inv target l st -> plan_column target st c = Ok st' -> plan_inv target (l ++ [c]) st'.
Proof.
  intros [Hc Hn Hns Ho Hos Hz Hp] H. unfold plan_column in H.
  case_bool_decide as Hname; [done|].
  destruct (bad_ordinal _ _) eqn:Hbad; [done|]. case_bool_decide; [done|]. res_inv.
  destruct v as [sql pre]. cbn in *. destruct (add_prerequisites_Ok _ _ _ H2 Hp) as (Hl & Hps & Hnd).
  assert (Hord : forall o, col_primary_key_ordinal c = Some o ->
                   o <> 0%Z /\ o ∉ omap col_primary_key_ordinal l).
  { intros o Heq. unfold bad_ordinal in Hbad. rewrite Heq in Hbad.
    destruct (Z.eqb_spec o 0); [done|]. cbn in Hbad. case_bool_decide as Hin; [done|].
    by rewrite Hos in Hin. }
  split; cbn.
  - apply Forall2_app; [eapply Forall2_impl; [exact Hc|]; intros; by eapply planned_mono|].
    constructor; [|constructor]. split_and!; try done. eauto 10.
  - rewrite map_app. apply NoDup_app. split_and!; [done| |apply NoDup_singleton].
    intros x Hx ->%list_elem_of_singleton. apply Hname. by apply Hns.
  - intros n. rewrite map_app, elem_of_union, elem_of_singleton, elem_of_app, Hns. cbn.
    rewrite list_elem_of_singleton. tauto.
  - rewrite omap_app. cbn. destruct (col_primary_key_ordinal c) as [o|]; [|by rewrite app_nil_r].
    destruct (Hord o eq_refl) as [_ Hni]. apply NoDup_app.
    split_and!; [done| |apply NoDup_singleton]. by intros x Hx ->%list_elem_of_singleton.
  - intros o. rewrite omap_app, elem_of_app. cbn.
    destruct (col_primary_key_ordinal c) as [o'|]; rewrite ?elem_of_union, Hos; set_solver.
  - rewrite omap_app, elem_of_app. cbn. intros [Hin|Hin]; [done|].
    destruct (col_primary_key_ordinal c) as [o|]; [|by apply elem_of_nil in Hin].
    apply list_elem_of_singleton in Hin as <-. by destruct (Hord 0%Z eq_refl).
  - done.
Qed.

Lemma plan_create_table_Ok source target plan :
  plan_create_table source target = Ok plan ->
  supported source /\ ctp_target plan = target /\
  ctp_primary_key plan = map col_name (primary_key source) /\
  ctp_distribution_key plan = ctp_primary_key plan /\
  exists st, plan_inv target (ts_columns source) st /\ ctp_columns plan = ps_columns st /\
             ctp_prerequisites plan = ps_prerequisites st.
Proof.
  unfold plan_create_table, core_err. intros H. res_inv. destruct v.
  split; [by apply validate_supported_Ok|]. cbn. split_and!; try done. exists v0. split; [|done].
  eapply (foldM_ind (plan_column target) (plan_inv target)); [|by eauto using plan_column_inv|done].
  split; cbn; try (by constructor); set_solver.
Qed.

(** *** Properties *)

(** A planned table mirrors its source table column by column - attribute number, name,
    nullability, key ordinal, the planned type with its collation - under pairwise distinct
    names; its key is the source's complete key in ordinal order and is also the
    distribution key; the ordinals are distinct and non-zero; and every user type a column
    needs is a prerequisite, planned under exactly one definition per name. *)
Theorem table_plan_mirrors_its_source source target plan :
  plan_create_table source target = Ok plan ->
  Forall2 (planned target (ctp_prerequisites plan)) (ts_columns source) (ctp_columns plan) /\
  NoDup (map cp_name (ctp_columns plan)) /\
  ctp_primary_key plan = map col_name (primary_key source) /\
  ctp_primary_key plan <> [] /\ ctp_primary_key plan ⊆ map cp_name (ctp_columns plan) /\
  ctp_distribution_key plan = ctp_primary_key plan /\
  NoDup (omap cp_primary_key_ordinal (ctp_columns plan)) /\
  0%Z ∉ omap cp_primary_key_ordinal (ctp_columns plan) /\
  NoDup (map (fun q => QualifiedName_to_string (utp_name q)) (ctp_prerequisites plan)).
Proof.
  intros H. destruct (plan_create_table_Ok _ _ _ H) as (Hs & _ & Hpk & Hd & st & Hi & Hc & Hp).
  rewrite Hd, Hpk, Hc, Hp. destruct Hi as [Hcols Hn _ Ho _ Hz Hnd].
  assert (Hnames : map cp_name (ps_columns st) = map col_name (ts_columns source)).
  { clear -Hcols. induction Hcols as [|c p cs ps Hcp _ IH]; cbn; [done|].
    destruct Hcp as (_ & -> & _). by rewrite IH. }
  assert (Hords : omap cp_primary_key_ordinal (ps_columns st)
                  = omap col_primary_key_ordinal (ts_columns source)).
  { clear -Hcols. induction Hcols as [|c p cs ps Hcp _ IH]; cbn; [done|].
    destruct Hcp as (_ & _ & _ & -> & _). by destruct (col_primary_key_ordinal c); rewrite IH. }
  rewrite Hnames, Hords. split_and!; try done.
  - intros Hnil. by apply (supported_key _ Hs), (fmap_nil_inv col_name).
  - intros n (c & -> & Hin)%list_elem_of_fmap. apply elem_of_primary_key in Hin as [Hin _].
    by apply list_elem_of_fmap_2.
Qed.

(** ** Witnesses *)

Definition example_type (kind : PgTypeKind) : PgType :=
  mkPgType 0 (mkQualifiedName "public" "mood") kind.
Definition example_source : TableSchema :=
  mkTableSchema 7 1 (mkQualifiedName "public" "items") Ordinary RIDefault
    [mkColumnSchema 1 "id" (example_type TInt4) false (Some 2%Z) GenNone IdNone None;
     mkColumnSchema 2 "mood" (example_type (TEnum ["sad"; "ok"])) true None GenNone IdNone None;
     mkColumnSchema 3 "tenant" (example_type TText) false (Some 1%Z) GenNone IdNone
       (Some (mkQualifiedName "pg_catalog" "C"))]
    [] [].

Lemma table_plan_mirrors_its_source_witness :
  exists plan, plan_create_table example_source (mkQualifiedName "target" "items") = Ok plan /\
    ctp_primary_key plan = ["tenant"; "id"] /\
    length (ctp_prerequisites plan) = 1%nat /\
    NoDup (map cp_name (ctp_columns plan)).
Proof.
  eexists. split; [vm_compute; reflexivity|]. split; [reflexivity|]. split; [reflexivity|].
  eapply (table_plan_mirrors_its_source example_source (mkQualifiedName "target" "items")).
  vm_compute; reflexivity.
Defined.
