(* ===== verification/Checkpoint.v ===== *)
(** * Target checkpoints and pipeline fences

    Models [crates/target-cloudberry/src/checkpoint.rs]: the pure checks ([check_advance],
    [checkpoint_reached], the validations) and the statements that read and write
    [pg2cb_meta.pipeline_state] and [pg2cb_meta.node_checkpoints], over a model of the two
    tables as finite maps from their primary keys.

    The code writes the node identifier and the LSN as text and reads them back as text
    ([$4::text::numeric], [system_identifier::text], likewise [pg_lsn]); the map keeps that
    text.  A statement that fails leaves the database alone, so an operation is a [result]
    that carries the new database only when it succeeds. *)

From S2P Require Import Prelude Core Decimal.

(** [PipelineId] is a newtype over a UUID, a 128-bit number. *)
Notation PipelineId := Z (only parsing).

Record PipelineFence : Type := mkPipelineFence {
  pf_pipeline_id : PipelineId;
  pf_topology_generation : Z;
  pf_fencing_token : Z;
}.
Global Instance PipelineFence_eq_dec : EqDecision PipelineFence.
Proof. solve_decision. Defined.

Record CheckpointKey : Type := mkCheckpointKey {
  ck_pipeline_id : PipelineId;
  ck_topology_generation : Z;
  ck_node_id : Z;
}.
Global Instance CheckpointKey_eq_dec : EqDecision CheckpointKey.
Proof. solve_decision. Defined.
Global Program Instance CheckpointKey_countable : Countable CheckpointKey :=
  inj_countable' (fun k => (ck_pipeline_id k, ck_topology_generation k, ck_node_id k))
    (fun p => mkCheckpointKey p.1.1 p.1.2 p.2) _.
Next Obligation. by intros []. Qed.

Record NodeCheckpoint : Type := mkNodeCheckpoint {
  nc_key : CheckpointKey;
  nc_system_identifier : Z;
  nc_timeline : Z;
  nc_slot_name : string;
  nc_applied_lsn : Z;
}.
Global Instance NodeCheckpoint_eq_dec : EqDecision NodeCheckpoint.
Proof. solve_decision. Defined.

Record StoredNodeCheckpoint : Type := mkStoredNodeCheckpoint {
  snc_checkpoint : NodeCheckpoint;
  snc_fencing_token : Z;
}.
Global Instance StoredNodeCheckpoint_eq_dec : EqDecision StoredNodeCheckpoint.
Proof. solve_decision. Defined.

Inductive AdvanceOutcome : Type :=
| Inserted
| Unchanged
| Advanced (previous_lsn : Z).
Global Instance AdvanceOutcome_eq_dec : EqDecision AdvanceOutcome.
Proof. solve_decision. Defined.

Inductive CheckpointError : Type :=
| CheckpointDatabase (message : string)
| GenerationOutOfRange (generation : Z)
| InvalidFencingToken
| InvalidTimeline
| InvalidSlotName
| MissingFence
| StaleFence (expected_generation expected_token actual_generation actual_token : Z)
| FenceKeyMismatch
| InvalidPersistedValue (field value : string)
| SourceIdentityChanged
| LsnRegression (current proposed : Z)
| UnexpectedWriteCount (written : Z).
Global Instance CheckpointError_eq_dec : EqDecision CheckpointError.
Proof. solve_decision. Defined.

(** ** Pure checks *)

(** [database_generation]: [i64::try_from(u64)]. *)
Definition database_generation (generation : Z) : result CheckpointError Z :=
  if (generation <=? i64_max)%Z then Ok generation else Err (GenerationOutOfRange generation).

Definition validate_fence (fence : PipelineFence) : result CheckpointError unit :=
  let? _ := database_generation (pf_topology_generation fence) in
  if (pf_fencing_token fence <=? 0)%Z then Err InvalidFencingToken else Ok tt.

Definition validate_checkpoint (checkpoint : NodeCheckpoint) : result CheckpointError unit :=
  let? _ := database_generation (ck_topology_generation (nc_key checkpoint)) in
  if (nc_timeline checkpoint =? 0)%Z then Err InvalidTimeline
  else if Lsn.is_empty (nc_slot_name checkpoint) || contains_char nul (nc_slot_name checkpoint)
  then Err InvalidSlotName
  else Ok tt.

Definition ensure_same_identity (current proposed : NodeCheckpoint) : result CheckpointError unit :=
  if bool_decide (nc_key current = nc_key proposed)
     && (nc_system_identifier current =? nc_system_identifier proposed)%Z
     && (nc_timeline current =? nc_timeline proposed)%Z
     && bool_decide (nc_slot_name current = nc_slot_name proposed)
  then Ok tt
  else Err SourceIdentityChanged.

Definition check_advance (current : option StoredNodeCheckpoint) (proposed : NodeCheckpoint)
    : result CheckpointError AdvanceOutcome :=
  let? _ := validate_checkpoint proposed in
  match current with
  | None => Ok Inserted
  | Some current =>
      let current := snc_checkpoint current in
      let? _ := ensure_same_identity current proposed in
      match (nc_applied_lsn proposed ?= nc_applied_lsn current)%Z with
      | Lt => Err (LsnRegression (nc_applied_lsn current) (nc_applied_lsn proposed))
      | Eq => Ok Unchanged
      | Gt => Ok (Advanced (nc_applied_lsn current))
      end
  end.

Definition checkpoint_reached (current : option StoredNodeCheckpoint) (required : NodeCheckpoint)
    : result CheckpointError bool :=
  let? _ := validate_checkpoint required in
  match current with
  | None => Ok false
  | Some current =>
      let? _ := ensure_same_identity (snc_checkpoint current) required in
      Ok (nc_applied_lsn required <=? nc_applied_lsn (snc_checkpoint current))%Z
  end.

Definition ensure_one_row (written : Z) : result CheckpointError unit :=
  if (written =? 1)%Z then Ok tt else Err (UnexpectedWriteCount written).

(** ** The metadata tables *)

(** A row of [pg2cb_meta.pipeline_state]. *)
Record FenceRow : Type := mkFenceRow {
  fr_topology_generation : Z;
  fr_fencing_token : Z;
}.

(** A row of [pg2cb_meta.node_checkpoints]. *)
Record NodeRow : Type := mkNodeRow {
  nr_system_identifier : string;
  nr_timeline : Z;
  nr_slot_name : string;
  nr_applied_lsn : string;
  nr_fencing_token : Z;
}.

Record Meta : Type := mkMeta {
  m_pipeline_state : gmap Z FenceRow;
  m_node_checkpoints : gmap CheckpointKey NodeRow;
}.

(** [generation_from_row]: [u64::try_from(i64)]. *)
Definition generation_from_row (value : Z) : result CheckpointError Z :=
  if (value <? 0)%Z then Err (InvalidPersistedValue "topology_generation" (pretty value))
  else Ok value.

(** [parse_persisted::<u64>]. *)
Definition parse_persisted (value column : string) : result CheckpointError Z :=
  ok_or (parse_uint u64_max value) (InvalidPersistedValue column value).

(** [checkpoint_from_row]; the key columns are the row's key in the map. *)
Definition checkpoint_from_row (key : CheckpointKey) (row : NodeRow)
    : result CheckpointError StoredNodeCheckpoint :=
  let? generation := generation_from_row (ck_topology_generation key) in
  let? system_identifier := parse_persisted (nr_system_identifier row) "system_identifier" in
  let? timeline :=
    if (0 <=? nr_timeline row)%Z && (nr_timeline row <=? u32_max)%Z then Ok (nr_timeline row)
    else Err (InvalidPersistedValue "timeline" (pretty (nr_timeline row))) in
  let? applied_lsn :=
    map_err (fun _ => InvalidPersistedValue "applied_lsn" (nr_applied_lsn row))
      (Lsn.from_str (nr_applied_lsn row)) in
  Ok (mkStoredNodeCheckpoint
        (mkNodeCheckpoint (mkCheckpointKey (ck_pipeline_id key) generation (ck_node_id key))
           system_identifier timeline (nr_slot_name row) applied_lsn)
        (nr_fencing_token row)).

(** [.map(checkpoint_from_row).transpose()]. *)
Definition read_checkpoint (db : Meta) (key : CheckpointKey)
    : result CheckpointError (option StoredNodeCheckpoint) :=
  match m_node_checkpoints db !! key with
  | Some row => let? stored := checkpoint_from_row key row in Ok (Some stored)
  | None => Ok None
  end.

(** [load_node_checkpoint], and [load_node_checkpoint_locked]: the row lock is implicit
    because transactions are modelled one after the other. *)
Definition load_node_checkpoint (db : Meta) (key : CheckpointKey)
    : result CheckpointError (option StoredNodeCheckpoint) :=
  let? generation := database_generation (ck_topology_generation key) in
  read_checkpoint db (mkCheckpointKey (ck_pipeline_id key) generation (ck_node_id key)).

(** [ACTIVATE_PIPELINE_FENCE_SQL]: insert, or update only towards newer values; [None] when
    no row was returned. *)
Definition activate_statement (db : Meta) (pipeline generation token : Z) : option Meta :=
  let written := Some (mkMeta (<[pipeline := mkFenceRow generation token]> (m_pipeline_state db))
                         (m_node_checkpoints db)) in
  match m_pipeline_state db !! pipeline with
  | None => written
  | Some row =>
      if (fr_topology_generation row <=? generation)%Z && (fr_fencing_token row <=? token)%Z
      then written else None
  end.

(** [activate_pipeline_fence]. *)
Definition activate_pipeline_fence (db : Meta) (fence : PipelineFence)
    : result CheckpointError Meta :=
  let? generation := database_generation (pf_topology_generation fence) in
  let? _ := validate_fence fence in
  match activate_statement db (pf_pipeline_id fence) generation (pf_fencing_token fence) with
  | Some db => Ok db
  | None =>
      match m_pipeline_state db !! pf_pipeline_id fence with
      | None => Err (CheckpointDatabase "query returned an unexpected number of rows")
      | Some current =>
          let? actual_generation := generation_from_row (fr_topology_generation current) in
          Err (StaleFence (pf_topology_generation fence) (pf_fencing_token fence)
                 actual_generation (fr_fencing_token current))
      end
  end.

(** [lock_pipeline_fence]. *)
Definition lock_pipeline_fence (db : Meta) (expected : PipelineFence)
    : result CheckpointError unit :=
  let? expected_generation := database_generation (pf_topology_generation expected) in
  let? _ := validate_fence expected in
  match m_pipeline_state db !! pf_pipeline_id expected with
  | None => Err MissingFence
  | Some row =>
      let? actual_generation := generation_from_row (fr_topology_generation row) in
      if (expected_generation =? fr_topology_generation row)%Z
         && (pf_fencing_token expected =? fr_fencing_token row)%Z
      then Ok tt
      else Err (StaleFence (pf_topology_generation expected) (pf_fencing_token expected)
                  actual_generation (fr_fencing_token row))
  end.

(** [INSERT_NODE_CHECKPOINT_SQL]: a duplicate key is a database error. *)
Definition insert_checkpoint (db : Meta) (key : CheckpointKey) (row : NodeRow)
    : result CheckpointError (Z * Meta) :=
  match m_node_checkpoints db !! key with
  | Some _ => Err (CheckpointDatabase "duplicate key value violates unique constraint")
  | None => Ok (1%Z, mkMeta (m_pipeline_state db) (<[key := row]> (m_node_checkpoints db)))
  end.

(** [UPDATE_NODE_CHECKPOINT_SQL]: how many rows were written, and the new table. *)
Definition update_checkpoint (db : Meta) (key : CheckpointKey) (applied_lsn : string) (token : Z)
    : Z * Meta :=
  match m_node_checkpoints db !! key with
  | Some row =>
      (1%Z, mkMeta (m_pipeline_state db)
              (<[key := mkNodeRow (nr_system_identifier row) (nr_timeline row) (nr_slot_name row)
                          applied_lsn token]> (m_node_checkpoints db)))
  | None => (0%Z, db)
  end.

(** [advance_node_checkpoint]. *)
Definition advance_node_checkpoint (db : Meta) (fence : PipelineFence) (proposed : NodeCheckpoint)
    : result CheckpointError (AdvanceOutcome * Meta) :=
  let? _ := validate_checkpoint proposed in
  if bool_decide (ck_pipeline_id (nc_key proposed) <> pf_pipeline_id fence)
     || bool_decide (ck_topology_generation (nc_key proposed) <> pf_topology_generation fence)
  then Err FenceKeyMismatch
  else
    let? _ := lock_pipeline_fence db fence in
    let? generation := database_generation (ck_topology_generation (nc_key proposed)) in
    let key := mkCheckpointKey (ck_pipeline_id (nc_key proposed)) generation
                 (ck_node_id (nc_key proposed)) in
    let? existing := read_checkpoint db key in
    let? outcome := check_advance existing proposed in
    let applied_lsn := Lsn.to_string (nc_applied_lsn proposed) in
    match outcome with
    | Inserted =>
        let? '(written, db) :=
          insert_checkpoint db key
            (mkNodeRow (pretty (nc_system_identifier proposed)) (nc_timeline proposed)
               (nc_slot_name proposed) applied_lsn (pf_fencing_token fence)) in
        let? _ := ensure_one_row written in
        Ok (outcome, db)
    | Unchanged | Advanced _ =>
        let (written, db) := update_checkpoint db key applied_lsn (pf_fencing_token fence) in
        let? _ := ensure_one_row written in
        Ok (outcome, db)
    end.

(** ** Lemmas *)

(** The bounds a [NodeCheckpoint] has by its Rust types. *)
Record typed (p : NodeCheckpoint) : Prop := {
  typed_generation : (0 <= ck_topology_generation (nc_key p))%Z;
  typed_system : (0 <= nc_system_identifier p <= u64_max)%Z;
  typed_timeline : (0 <= nc_timeline p <= u32_max)%Z;
  typed_lsn : Lsn.valid (nc_applied_lsn p);
}.

(** Two checkpoints of one source node. *)
Definition same_node (a b : NodeCheckpoint) : Prop :=
  nc_key a = nc_key b /\ nc_system_identifier a = nc_system_identifier b /\
  nc_timeline a = nc_timeline b /\ nc_slot_name a = nc_slot_name b.

Lemma database_generation_Ok g v : database_generation g = Ok v -> v = g /\ (g <= i64_max)%Z.
Proof. unfold database_generation. destruct (Z.leb_spec g i64_max); [|done]. by intros [= <-]. Qed.

Lemma ensure_same_identity_Ok a b : ensure_same_identity a b = Ok tt <-> same_node a b.
Proof.
  unfold ensure_same_identity, same_node. split.
  - intros H. res_inv. rewrite !andb_true_iff, !bool_decide_eq_true, !Z.eqb_eq in Hc. tauto.
  - intros (H1 & H2 & H3 & H4). rewrite !bool_decide_true by done.
    by rewrite H2, H3, !Z.eqb_refl.
Qed.

Lemma same_node_refl a : same_node a a.
Proof. done. Qed.

Lemma same_node_trans a b c : same_node a b -> same_node b c -> same_node a c.
Proof. unfold same_node. intros (?&?&?&?) (?&?&?&?). split_and!; congruence. Qed.

Lemma key_eta k : mkCheckpointKey (ck_pipeline_id k) (ck_topology_generation k) (ck_node_id k) = k.
Proof. by destruct k. Qed.

Lemma generation_from_row_Ok g v : generation_from_row g = Ok v -> v = g.
Proof. unfold generation_from_row. destruct (_ <? _)%Z; [done|]. by intros [= <-]. Qed.

Lemma checkpoint_from_row_key key row s :
  checkpoint_from_row key row = Ok s -> nc_key (snc_checkpoint s) = key.
Proof.
  unfold checkpoint_from_row. intros H. res_inv. cbn.
  match goal with H : generation_from_row _ = Ok _ |- _ => apply generation_from_row_Ok in H as -> end.
  apply key_eta.
Qed.

(** What is written for a checkpoint reads back as that checkpoint. *)
Lemma checkpoint_row_round_trip p token row :
  typed p -> nr_timeline row = nc_timeline p -> nr_slot_name row = nc_slot_name p ->
  parse_uint u64_max (nr_system_identifier row) = Some (nc_system_identifier p) ->
  nr_applied_lsn row = Lsn.to_string (nc_applied_lsn p) -> nr_fencing_token row = token ->
  checkpoint_from_row (nc_key p) row = Ok (mkStoredNodeCheckpoint p token).
Proof.
  intros [Hg Hs Ht Hl] Hrt Hrs Hsys Hlsn Htok. unfold checkpoint_from_row, generation_from_row.
  destruct (Z.ltb_spec (ck_topology_generation (nc_key p)) 0); [lia|]. cbn.
  unfold parse_persisted. rewrite Hsys. cbn. rewrite Hrt.
  destruct (Z.leb_spec 0 (nc_timeline p)); [|lia].
  destruct (Z.leb_spec (nc_timeline p) u32_max); [|lia]. cbn.
  rewrite Hlsn, Lsn.from_str_to_string by done. cbn. rewrite Hrs, Htok, key_eta. by destruct p.
Qed.

Lemma lock_pipeline_fence_Ok db f u :
  lock_pipeline_fence db f = Ok u ->
  m_pipeline_state db !! pf_pipeline_id f
  = Some (mkFenceRow (pf_topology_generation f) (pf_fencing_token f)) /\
  (0 < pf_fencing_token f)%Z.
Proof.
  unfold lock_pipeline_fence, validate_fence. intros H. res_inv. cbn in H. res_inv.
  destruct (m_pipeline_state db !! _) as [[g t]|]; [|done]. res_inv. cbn in *.
  match goal with H : (_ && _) = true |- _ => apply andb_true_iff in H as [Hg Ht] end.
  apply Z.eqb_eq in Hg, Ht. subst.
  repeat match goal with H : database_generation _ = Ok _ |- _ =>
    apply database_generation_Ok in H as [-> _] end.
  split; [done|lia].
Qed.

Lemma check_advance_Ok existing p o :
  check_advance existing p = Ok o ->
  match existing with
  | None => o = Inserted
  | Some s => same_node (snc_checkpoint s) p /\
      (nc_applied_lsn (snc_checkpoint s) <= nc_applied_lsn p)%Z /\ o <> Inserted
  end.
Proof.
  unfold check_advance. intros H. res_inv. destruct existing as [s|]; [|by res_inv].
  res_inv. match goal with H : ensure_same_identity _ _ = Ok ?u |- _ =>
    destruct u; apply ensure_same_identity_Ok in H end.
  split; [done|]. destruct (Z.compare_spec (nc_applied_lsn p) (nc_applied_lsn (snc_checkpoint s)));
    res_inv; (split; [lia|done]).
Qed.

(** Rewriting the row of a checkpoint that is there already. *)
Lemma update_checkpoint_spec db p s token :
  typed p -> read_checkpoint db (nc_key p) = Ok (Some s) -> same_node (snc_checkpoint s) p ->
  exists db',
    update_checkpoint db (nc_key p) (Lsn.to_string (nc_applied_lsn p)) token = (1%Z, db') /\
    m_pipeline_state db' = m_pipeline_state db /\
    (forall k, k <> nc_key p -> m_node_checkpoints db' !! k = m_node_checkpoints db !! k) /\
    read_checkpoint db' (nc_key p) = Ok (Some (mkStoredNodeCheckpoint p token)).
Proof.
  intros Ht Hr (_ & Hsys & Htl & Hslot). unfold update_checkpoint, read_checkpoint in *.
  destruct (m_node_checkpoints db !! nc_key p) as [row|] eqn:E; [|done]. res_inv.
  eexists. split; [done|]. cbn. split; [done|]. split.
  { intros k Hk. by rewrite lookup_insert_ne. }
  rewrite lookup_insert_eq.
  match goal with H : checkpoint_from_row _ row = Ok _ |- _ =>
    unfold checkpoint_from_row, parse_persisted in H end.
  res_inv. cbn in Hsys, Htl, Hslot.
  rewrite (checkpoint_row_round_trip p token); [done|done| | | |done|done]; cbn;
    [congruence|congruence|by rewrite <-Hsys].
Qed.

(** What a successful advance did. *)
Record advanced (db : Meta) (f : PipelineFence) (p : NodeCheckpoint) (o : AdvanceOutcome)
    (db' : Meta) : Prop := {
  adv_fence : m_pipeline_state db !! pf_pipeline_id f
    = Some (mkFenceRow (pf_topology_generation f) (pf_fencing_token f));
  adv_key : ck_pipeline_id (nc_key p) = pf_pipeline_id f /\
    ck_topology_generation (nc_key p) = pf_topology_generation f;
  adv_state : m_pipeline_state db' = m_pipeline_state db;
  adv_others : forall k, k <> nc_key p ->
    m_node_checkpoints db' !! k = m_node_checkpoints db !! k;
  adv_stored :
    read_checkpoint db' (nc_key p) = Ok (Some (mkStoredNodeCheckpoint p (pf_fencing_token f)));
  adv_previous : exists existing,
    read_checkpoint db (nc_key p) = Ok existing /\ check_advance existing p = Ok o;
}.

Lemma advance_node_checkpoint_Ok db f p o db' :
  typed p -> advance_node_checkpoint db f p = Ok (o, db') -> advanced db f p o db'.
Proof.
  intros Ht H. unfold advance_node_checkpoint in H.
  apply bind_Ok in H as (u & _ & H). destruct (_ || _) eqn:Hc in H; [done|].
  apply orb_false_iff in Hc as [Hp Hg]. apply bool_decide_eq_false in Hp, Hg.
  apply dec_stable in Hp, Hg.
  apply bind_Ok in H as (u1 & Hlock & H). apply lock_pipeline_fence_Ok in Hlock as [Hf _].
  apply bind_Ok in H as (g & Hgen & H). apply database_generation_Ok in Hgen as [-> _].
  rewrite key_eta in H. apply bind_Ok in H as (existing & Hex & H).
  apply bind_Ok in H as (o' & Hadv & H). pose proof (check_advance_Ok _ _ _ Hadv) as Hspec.
  assert (Hcase : o' <> Inserted ->
    exists s, existing = Some s /\ same_node (snc_checkpoint s) p).
  { destruct existing as [s|]; [|done]. destruct Hspec as (? & _ & _). eauto. }
  destruct o' as [| |prev].
  1:{ destruct existing as [s|]; [by destruct Hspec as (_ & _ & ?)|].
    unfold insert_checkpoint, read_checkpoint in *.
    destruct (m_node_checkpoints db !! nc_key p) eqn:E; [res_inv|]. cbn in H. res_inv.
    split; cbn; [done|done|done| | |by exists None; unfold read_checkpoint; rewrite E].
    - intros k Hk. by rewrite lookup_insert_ne.
    - unfold read_checkpoint. cbn. rewrite lookup_insert_eq.
      rewrite (checkpoint_row_round_trip p (pf_fencing_token f)); try done.
      apply parse_uint_pretty, Ht. }
  all: destruct (Hcase ltac:(done)) as (s & -> & Hsame);
    destruct (update_checkpoint_spec db p s (pf_fencing_token f) Ht Hex Hsame)
      as (db1 & Hup & Hst & Hoth & Hrd);
    rewrite Hup in H; cbn in H; injection H as <- <-; split; eauto.
Qed.

(** When [advance_node_checkpoint] accepts a checkpoint. *)
Definition admissible (db : Meta) (f : PipelineFence) (p : NodeCheckpoint)
    (existing : option StoredNodeCheckpoint) : Prop :=
  validate_checkpoint p = Ok tt /\ validate_fence f = Ok tt /\
  ck_pipeline_id (nc_key p) = pf_pipeline_id f /\
  ck_topology_generation (nc_key p) = pf_topology_generation f /\
  m_pipeline_state db !! pf_pipeline_id f
    = Some (mkFenceRow (pf_topology_generation f) (pf_fencing_token f)) /\
  forall s, existing = Some s ->
    same_node (snc_checkpoint s) p /\
    (nc_applied_lsn (snc_checkpoint s) <= nc_applied_lsn p)%Z.

Lemma admissible_advances db f p existing :
  typed p -> read_checkpoint db (nc_key p) = Ok existing -> admissible db f p existing ->
  exists o db', advance_node_checkpoint db f p = Ok (o, db').
Proof.
  intros Ht Hr (Hv & Hf & Hp & Hg & Hrow & Hex). unfold advance_node_checkpoint.
  rewrite Hv. cbn [mbind result_bind]. rewrite !bool_decide_false by tauto. cbn [orb].
  assert (Hgen : database_generation (pf_topology_generation f) = Ok (pf_topology_generation f)).
  { unfold validate_fence in Hf. res_inv.
    match goal with H : database_generation _ = Ok _ |- _ =>
      pose proof H as H'; apply database_generation_Ok in H' as [-> _]; exact H end. }
  unfold lock_pipeline_fence. rewrite Hgen, Hf. cbn [mbind result_bind]. rewrite Hrow. cbn.
  unfold generation_from_row. pose proof (typed_generation _ Ht) as Hpos. rewrite Hg in Hpos |- *.
  destruct (Z.ltb_spec (pf_topology_generation f) 0); [lia|]. cbn. rewrite !Z.eqb_refl. cbn.
  rewrite Hgen. cbn. rewrite <-Hg, key_eta, Hr. cbn. unfold check_advance. rewrite Hv. cbn.
  destruct existing as [s|].
  - destruct (Hex s eq_refl) as [Hsame Hle].
    rewrite (proj2 (ensure_same_identity_Ok _ _) Hsame). cbn.
    destruct (update_checkpoint_spec db p s (pf_fencing_token f) Ht Hr Hsame) as (db' & Hup & _).
    destruct (Z.compare_spec (nc_applied_lsn p) (nc_applied_lsn (snc_checkpoint s))); [| lia |];
      cbn; rewrite Hup; cbn; eauto.
  - cbn. unfold insert_checkpoint, read_checkpoint in *.
    destruct (m_node_checkpoints db !! nc_key p); [res_inv; discriminate|]. cbn. eauto.
Qed.

Lemma validate_checkpoint_unit p u : validate_checkpoint p = Ok u -> validate_checkpoint p = Ok tt.
Proof. by destruct u. Qed.

Lemma advance_admissible db f p o db' :
  typed p -> advance_node_checkpoint db f p = Ok (o, db') ->
  exists existing, read_checkpoint db (nc_key p) = Ok existing /\ admissible db f p existing.
Proof.
  intros Ht H. pose proof (advance_node_checkpoint_Ok _ _ _ _ _ Ht H) as [Hf [Hp Hg] _ _ _ Hprev].
  destruct Hprev as (existing & Hr & Hadv). exists existing. split; [done|].
  unfold advance_node_checkpoint in H. apply bind_Ok in H as ([] & Hv & H).
  destruct (_ || _) eqn:Hc in H; [done|]. apply bind_Ok in H as (u1 & Hlock & _).
  unfold lock_pipeline_fence in Hlock. apply bind_Ok in Hlock as (g & _ & Hlock).
  apply bind_Ok in Hlock as ([] & Hvf & _). split_and!; try done.
  intros s ->. destruct (check_advance_Ok _ _ _ Hadv) as (? & ? & _). done.
Qed.

(** ** Runs of several owners *)

(** A committed change of the metadata by some owner. *)
Inductive meta_step : Meta -> Meta -> Prop :=
| step_activate db f db' : activate_pipeline_fence db f = Ok db' -> meta_step db db'
| step_advance db f p o db' :
    typed p -> advance_node_checkpoint db f p = Ok (o, db') -> meta_step db db'.

Lemma activate_pipeline_fence_Ok db f db' :
  activate_pipeline_fence db f = Ok db' ->
  m_node_checkpoints db' = m_node_checkpoints db /\
  m_pipeline_state db' = <[pf_pipeline_id f :=
    mkFenceRow (pf_topology_generation f) (pf_fencing_token f)]> (m_pipeline_state db) /\
  forall r, m_pipeline_state db !! pf_pipeline_id f = Some r ->
    (fr_topology_generation r <= pf_topology_generation f)%Z /\
    (fr_fencing_token r <= pf_fencing_token f)%Z.
Proof.
  unfold activate_pipeline_fence, activate_statement. intros H.
  apply bind_Ok in H as (g & Hg & H). apply database_generation_Ok in Hg as [-> _].
  apply bind_Ok in H as (u & _ & H).
  destruct (m_pipeline_state db !! pf_pipeline_id f) as [r|] eqn:E.
  - destruct (_ && _) eqn:Hle; [|res_inv]. injection H as <-. split_and!; try done.
    intros r' [= <-]. apply andb_true_iff in Hle as [H1 H2]. apply Z.leb_le in H1, H2. done.
  - injection H as <-. by split_and!.
Qed.

(** Fences and checkpoints of [db'] are at least as new as those of [db]. *)
Record meta_le (db db' : Meta) : Prop := {
  le_fences : forall pipeline r, m_pipeline_state db !! pipeline = Some r ->
    exists r', m_pipeline_state db' !! pipeline = Some r' /\
      (fr_topology_generation r <= fr_topology_generation r')%Z /\
      (fr_fencing_token r <= fr_fencing_token r')%Z;
  le_checkpoints : forall k s, read_checkpoint db k = Ok (Some s) ->
    exists s', read_checkpoint db' k = Ok (Some s') /\
      same_node (snc_checkpoint s) (snc_checkpoint s') /\
      (nc_applied_lsn (snc_checkpoint s) <= nc_applied_lsn (snc_checkpoint s'))%Z;
}.

Global Instance meta_le_preorder : PreOrder meta_le.
Proof.
  split.
  - intros db. split; [intros; eexists; split_and!; [done|lia|lia]|].
    intros k s Hs. exists s. split_and!; [done|apply same_node_refl|lia].
  - intros a b c [Hf1 Hc1] [Hf2 Hc2]. split.
    + intros p r Hr. destruct (Hf1 _ _ Hr) as (r1 & Hr1 & ? & ?).
      destruct (Hf2 _ _ Hr1) as (r2 & Hr2 & ? & ?). exists r2. split_and!; [done|lia|lia].
    + intros k s Hs. destruct (Hc1 _ _ Hs) as (s1 & Hs1 & Hn1 & ?).
      destruct (Hc2 _ _ Hs1) as (s2 & Hs2 & Hn2 & ?). exists s2.
      split_and!; [done|by eapply same_node_trans|lia].
Qed.

Lemma meta_step_le db db' : meta_step db db' -> meta_le db db'.
Proof.
  intros [db0 f db1 H|db0 f p o db1 Ht H].
  - apply activate_pipeline_fence_Ok in H as (Hn & Hs & Hle). split.
    + intros p r Hr. rewrite Hs. destruct (decide (p = pf_pipeline_id f)) as [->|Hne].
      * rewrite lookup_insert_eq. eexists. split; [done|]. by apply Hle.
      * rewrite lookup_insert_ne by done. exists r. split_and!; [done|lia|lia].
    + intros k s Hk. exists s. split_and!; [|apply same_node_refl|lia].
      unfold read_checkpoint in *. by rewrite Hn.
  - pose proof (advance_node_checkpoint_Ok _ _ _ _ _ Ht H) as [_ _ Hs Ho Hst Hprev]. split.
    + intros q r Hr. rewrite Hs. exists r. split_and!; [done|lia|lia].
    + intros k s Hk. destruct (decide (k = nc_key p)) as [->|Hne].
      * destruct Hprev as (existing & Hex & Hadv). rewrite Hk in Hex. injection Hex as <-.
        destruct (check_advance_Ok _ _ _ Hadv) as (Hsame & Hle & _). eauto.
      * exists s. split_and!; [|apply same_node_refl|lia].
        unfold read_checkpoint in *. by rewrite Ho.
Qed.

Lemma meta_run_le db db' : rtc meta_step db db' -> meta_le db db'.
Proof. induction 1; [done|]. etrans; [by apply meta_step_le|done]. Qed.

(** *** Properties *)

(** An advance of a readable checkpoint commits exactly when the fence is the current one, names
    the checkpoint's pipeline and topology generation, and the position does not regress
    for an unchanged source identity. *)
Theorem advance_accepts_exactly_admissible db f p existing :
  typed p -> read_checkpoint db (nc_key p) = Ok existing ->
  (exists o db', advance_node_checkpoint db f p = Ok (o, db')) <-> admissible db f p existing.
Proof.
  intros Ht Hr. split.
  - intros (o & db' & H). destruct (advance_admissible _ _ _ _ _ Ht H) as (ex & Hr' & Ha).
    rewrite Hr in Hr'. by injection Hr' as ->.
  - by apply admissible_advances.
Qed.

(** A committed advance makes exactly the proposed position, under the writer's token,
    the one that is loaded afterwards, and changes neither another node's row nor a fence. *)
Theorem advanced_checkpoint_is_loaded db f p o db' :
  typed p -> advance_node_checkpoint db f p = Ok (o, db') ->
  load_node_checkpoint db' (nc_key p)
  = Ok (Some (mkStoredNodeCheckpoint p (pf_fencing_token f))) /\
  (forall k, k <> nc_key p -> load_node_checkpoint db' k = load_node_checkpoint db k) /\
  m_pipeline_state db' = m_pipeline_state db.
Proof.
  intros Ht H. destruct (advance_admissible _ _ _ _ _ Ht H) as (ex & _ & Hv & _).
  pose proof (advance_node_checkpoint_Ok _ _ _ _ _ Ht H) as [_ _ Hs Ho Hst _].
  split_and!; [| |done].
  - unfold load_node_checkpoint. unfold validate_checkpoint in Hv. apply bind_Ok in Hv as (g & Hg & _).
    rewrite Hg. apply database_generation_Ok in Hg as [-> _]. cbn. by rewrite key_eta.
  - intros k Hk. unfold load_node_checkpoint.
    destruct (database_generation _) as [g| |] eqn:Hg; [|done..]. cbn.
    apply database_generation_Ok in Hg as [-> _]. rewrite key_eta.
    unfold read_checkpoint. by rewrite Ho.
Qed.

(** C6: over any interleaving of fence activations and checkpoint advances by any owners,
    fences and applied positions only move forward, and an owner whose fence another owner
    has superseded - by a higher token or topology generation - never advances again. *)
Theorem superseded_owner_never_advances db0 new db1 db2 old p :
  activate_pipeline_fence db0 new = Ok db1 -> rtc meta_step db1 db2 ->
  pf_pipeline_id old = pf_pipeline_id new -> typed p ->
  (pf_fencing_token old < pf_fencing_token new \/
   pf_topology_generation old < pf_topology_generation new)%Z ->
  meta_le db1 db2 /\ forall o db', advance_node_checkpoint db2 old p <> Ok (o, db').
Proof.
  intros Hact Hrun Hpid Ht Hold. pose proof (meta_run_le _ _ Hrun) as Hle. split; [done|].
  intros o db' H. pose proof (advance_node_checkpoint_Ok _ _ _ _ _ Ht H) as [Hf _ _ _ _ _].
  apply activate_pipeline_fence_Ok in Hact as (_ & Hs & _).
  destruct (le_fences _ _ Hle (pf_pipeline_id new)
    (mkFenceRow (pf_topology_generation new) (pf_fencing_token new))) as (r & Hr & Hg & Htok).
  { by rewrite Hs, lookup_insert_eq. }
  rewrite Hpid, Hr in Hf. injection Hf as ->. cbn in *. lia.
Qed.

(** ** Witnesses *)

Definition example_fence (token : Z) : PipelineFence := mkPipelineFence 11 1 token.
Definition example_checkpoint (l : Z) : NodeCheckpoint :=
  mkNodeCheckpoint (mkCheckpointKey 11 1 0) 77 1 "slot" l.
Definition example_meta : Meta :=
  mkMeta {[11%Z := mkFenceRow 1 5]}
    {[mkCheckpointKey 11 1 0 := mkNodeRow "77" 1 "slot" "0/10" 4]}.
Lemma example_checkpoint_typed l : Lsn.valid l -> typed (example_checkpoint l).
Proof. intros Hl. split; cbn; [lia|by split; vm_compute|by split; vm_compute|done]. Qed.
Lemma valid_32 : Lsn.valid 32.
Proof. split; vm_compute; discriminate. Qed.

Lemma advance_accepts_exactly_admissible_witness :
  exists s, read_checkpoint example_meta (mkCheckpointKey 11 1 0) = Ok (Some s) /\
  ((exists o db', advance_node_checkpoint example_meta (example_fence 4) (example_checkpoint 32)
                  = Ok (o, db')) <->
   admissible example_meta (example_fence 4) (example_checkpoint 32) (Some s)).
Proof.
  eexists. split; [vm_compute; reflexivity|].
  apply (advance_accepts_exactly_admissible example_meta (example_fence 4) (example_checkpoint 32));
    [apply example_checkpoint_typed, valid_32|vm_compute; reflexivity].
Defined.

Lemma advanced_checkpoint_is_loaded_witness :
  exists db', advance_node_checkpoint example_meta (example_fence 5) (example_checkpoint 32)
    = Ok (Advanced 16, db') /\
  load_node_checkpoint db' (mkCheckpointKey 11 1 0)
    = Ok (Some (mkStoredNodeCheckpoint (example_checkpoint 32) 5)).
Proof.
  eexists. split; [vm_compute; reflexivity|].
  eapply (advanced_checkpoint_is_loaded example_meta (example_fence 5) (example_checkpoint 32));
    [apply example_checkpoint_typed, valid_32|vm_compute; reflexivity].
Defined.

Definition example_meta_6 : Meta :=
  mkMeta {[11%Z := mkFenceRow 1 6]} (m_node_checkpoints example_meta).
Lemma example_advance :
  exists db2, advance_node_checkpoint example_meta_6 (example_fence 6) (example_checkpoint 32)
    = Ok (Advanced 16, db2).
Proof. eexists. vm_compute. reflexivity. Qed.

Lemma superseded_owner_never_advances_witness :
  activate_pipeline_fence example_meta (example_fence 6) = Ok example_meta_6 /\
  exists db2, advance_node_checkpoint example_meta_6 (example_fence 6) (example_checkpoint 32)
      = Ok (Advanced 16, db2) /\
    forall o db', advance_node_checkpoint db2 (example_fence 5) (example_checkpoint 32) <> Ok (o, db').
Proof.
  assert (Hact : activate_pipeline_fence example_meta (example_fence 6) = Ok example_meta_6)
    by (vm_compute; reflexivity).
  assert (Ht : typed (example_checkpoint 32)) by apply example_checkpoint_typed, valid_32.
  split; [exact Hact|]. destruct example_advance as [db2 Hadv]. exists db2. split; [exact Hadv|].
  apply (superseded_owner_never_advances example_meta (example_fence 6) example_meta_6 db2
           (example_fence 5) (example_checkpoint 32) Hact); [|reflexivity|exact Ht|left; reflexivity].
  apply rtc_once. eapply step_advance; [exact Ht|exact Hadv].
Defined.
