(* ===== verification/Apply.v ===== *)
(** * Staged apply of one table batch

    Models [crates/target-cloudberry/src/apply.rs]: the plan of a staging table and its SQL
    ([plan_apply]), the COPY row of a staging row ([encode_staging_row]) and the statements
    [execute_apply] runs per table.

    The texts of the statements are modelled as the code builds them.  What the server does
    with them is modelled as well, as functions on a table ([validation], [delete_statement],
    [move_statement], ...): a target table is a finite map from its primary key to its row, a
    staging table the list of the rows copied into it; a statement reads the table as it is
    when the statement starts, and inserting a key twice is a unique violation. *)

From S2P Require Import Prelude Core Decimal Schema Change Sql Copy TargetSchema Checkpoint.

Inductive ApplyPlanError : Type :=
| PlanSchema (e : SchemaError)
| PlanSql (e : SqlRenderError).

Inductive ApplyError : Type :=
| ApplyDatabase (message : string)
| ApplyCheckpoint (e : CheckpointError)
| ApplyCopy (e : CopyEncodeError)
| InvalidRowArity (expected actual : Z)
| MissingPrimaryKeyColumn (column : string)
| InvalidOldKeyArity (expected actual : Z)
| MissingOldPrimaryKey
| UnexpectedOldPrimaryKey
| MissingOldPrimaryKeyColumn (column : string)
| DuplicateStagingName (name : string)
| InvalidBatch (table : string).

Record PresenceColumn : Type := mkPresenceColumn {
  pc_source_column_index : nat;
  pc_source_column_name : string;
  pc_staging_column_name : string;
}.

Record OldKeyColumn : Type := mkOldKeyColumn {
  ok_source_column_index : nat;
  ok_source_column_name : string;
  ok_staging_column_name : string;
  ok_type_sql : string;
}.

Record CopyLayout : Type := mkCopyLayout {
  cl_operation_column : string;
  cl_data_columns : list string;
  cl_presence_columns : list PresenceColumn;
  cl_old_key_present_column : string;
  cl_old_key_columns : list OldKeyColumn;
}.

Record ApplyPlan : Type := mkApplyPlan {
  ap_table : CreateTablePlan;
  ap_staging_name : string;
  ap_copy_layout : CopyLayout;
  ap_create_staging_sql : string;
  ap_copy_sql : string;
  ap_validation_sql : string;
  ap_delete_sql : string;
  ap_move_sql : string;
  ap_delete_moved_sql : string;
  ap_update_sql : option string;
  ap_insert_sql : string;
}.

Inductive StageOperation : Type := OpUpsert | OpDelete | OpMove.
Global Instance StageOperation_eq_dec : EqDecision StageOperation.
Proof. solve_decision. Defined.

Record StagingRow : Type := mkStagingRow {
  sr_operation : StageOperation;
  sr_cells : list Cell;
  sr_old_key : option (list Cell);
}.

(** [iter().enumerate()]. *)
Definition enumerate {A} (l : list A) : list (nat * A) := imap pair l.

(** ** The control columns of the staging table *)

(** The candidate prefix for a suffix. *)
Definition control_candidate (suffix : N) : string :=
  if (suffix =? 0)%N then "__pg2cb_" else "__pg2cb" +:+ pretty suffix +:+ "_".

Fixpoint find_control_prefix (fuel : nat) (suffix : N) (names : list string) : option string :=
  match fuel with
  | O => None
  | S fuel =>
      let candidate := control_candidate suffix in
      if forallb (fun name => negb (String.prefix candidate name)) names then Some candidate
      else find_control_prefix fuel (suffix + 1) names
  end.

(** [unused_control_prefix]: one suffix more than there are columns is tried, which is proved
    to be enough; running out is the [unreachable!] of the code. *)
Definition unused_control_prefix {E} (table : CreateTablePlan) : result E string :=
  expect (find_control_prefix (S (length (ctp_columns table))) 0 (map cp_name (ctp_columns table))).

Definition plan_presence_columns (table : CreateTablePlan) (control_prefix : string)
    : list PresenceColumn :=
  omap (fun '(index, column) =>
    if bool_decide (cp_name column ∈ ctp_primary_key table) then None
    else Some (mkPresenceColumn index (cp_name column)
                 (control_prefix +:+ "present_" +:+ pretty (cp_source_attnum column))))
    (enumerate (ctp_columns table)).

Definition plan_old_key_column {E} (table : CreateTablePlan) (control_prefix key_name : string)
    : result E OldKeyColumn :=
  let? '(index, column) :=
    expect (List.find (fun ic => bool_decide (cp_name ic.2 = key_name))
              (enumerate (ctp_columns table))) in
  Ok (mkOldKeyColumn index (cp_name column)
        (control_prefix +:+ "old_" +:+ pretty (cp_source_attnum column)) (cp_type_sql column)).

Definition plan_old_key_columns {E} (table : CreateTablePlan) (control_prefix : string)
    : result E (list OldKeyColumn) :=
  try_map (plan_old_key_column table control_prefix) (ctp_primary_key table).

(** The columns of the staging table in COPY order. *)
Definition copy_columns (operation_column : string) (table : CreateTablePlan)
    (presence_columns : list PresenceColumn) (old_key_present_column : string)
    (old_key_columns : list OldKeyColumn) : list string :=
  [operation_column] ++ map cp_name (ctp_columns table)
  ++ map pc_staging_column_name presence_columns ++ [old_key_present_column]
  ++ map ok_staging_column_name old_key_columns.

(** ** The texts of the statements *)

Notation sql := (result SqlRenderError).

Definition qi (name : string) : sql string := quote_identifier name.

(** [columns.iter().map(f).collect()?.join(sep)]. *)
Definition joined {A} (sep : string) (f : A -> sql string) (l : list A) : sql string :=
  let? parts := try_map f l in
  Ok (join sep parts).

(** [equality_join]. *)
Definition equality_join (left right : string) (columns : list string) : sql string :=
  joined " AND " (fun column =>
    let? column := qi column in
    Ok (left +:+ "." +:+ column +:+ " = " +:+ right +:+ "." +:+ column)) columns.

(** [qualified_columns]. *)
Definition qualified_columns (alias : string) (columns : list string) : sql (list string) :=
  try_map (fun column => let? column := qi column in Ok (alias +:+ "." +:+ column)) columns.

Definition staging_definitions (quoted_operation : string) (table : CreateTablePlan)
    (presence_columns : list PresenceColumn) (old_key_present_column : string)
    (old_key_columns : list OldKeyColumn) : sql (list string) :=
  let? u := quote_literal "U" in
  let? d := quote_literal "D" in
  let? m := quote_literal "M" in
  let? data := try_map (fun column =>
    let? name := qi (cp_name column) in
    Ok ("    " +:+ name +:+ " " +:+ cp_type_sql column)) (ctp_columns table) in
  let? presence := try_map (fun column =>
    let? name := qi (pc_staging_column_name column) in
    Ok ("    " +:+ name +:+ " boolean NOT NULL")) presence_columns in
  let? old_present := qi old_key_present_column in
  let? old := try_map (fun column =>
    let? name := qi (ok_staging_column_name column) in
    Ok ("    " +:+ name +:+ " " +:+ ok_type_sql column)) old_key_columns in
  Ok (["    " +:+ quoted_operation +:+ " character(1) NOT NULL CHECK (" +:+ quoted_operation
       +:+ " IN (" +:+ u +:+ ", " +:+ d +:+ ", " +:+ m +:+ "))"]
      ++ data ++ presence ++ ["    " +:+ old_present +:+ " boolean NOT NULL"] ++ old).

Definition plan_create_staging_sql (quoted_staging quoted_key : string) (definitions : list string)
    : string :=
  "CREATE TEMPORARY TABLE " +:+ quoted_staging +:+ " (" +:+ newline
  +:+ join ("," +:+ newline) definitions +:+ newline +:+ ")" +:+ newline +:+ "USING heap"
  +:+ newline +:+ "ON COMMIT DROP" +:+ newline +:+ "DISTRIBUTED BY (" +:+ quoted_key +:+ ")".

Definition plan_copy_sql (quoted_staging : string) (columns : list string) : sql string :=
  let? quoted := quote_identifier_list columns in
  let? delimiter := quote_literal (String (chr 9) EmptyString) in
  let? null := quote_literal (String backslash "N") in
  Ok ("COPY " +:+ quoted_staging +:+ " (" +:+ quoted
      +:+ ") FROM STDIN WITH (FORMAT text, DELIMITER " +:+ delimiter +:+ ", NULL " +:+ null +:+ ")").

Definition plan_old_key_join (left : string) (old_key_columns : list OldKeyColumn) : sql string :=
  joined " AND " (fun column =>
    let? source := qi (ok_source_column_name column) in
    let? staging := qi (ok_staging_column_name column) in
    Ok (left +:+ "." +:+ source +:+ " = s." +:+ staging)) old_key_columns.

Definition plan_old_key_test (sep suffix : string) (old_key_columns : list OldKeyColumn)
    : sql string :=
  joined sep (fun column =>
    let? staging := qi (ok_staging_column_name column) in
    Ok ("s." +:+ staging +:+ suffix)) old_key_columns.

Definition plan_all_present (presence_columns : list PresenceColumn) : sql string :=
  if bool_decide (length presence_columns = 0%nat) then Ok "TRUE"
  else joined " AND " (fun column =>
    let? staging := qi (pc_staging_column_name column) in
    Ok ("s." +:+ staging)) presence_columns.

(** [key_names.first().expect(..)], rendered as the missing-row test of an alias. *)
Definition plan_missing (alias : string) (key_names : list string) : sql string :=
  let? first := expect (head key_names) in
  let? first := qi first in
  Ok ("(" +:+ alias +:+ "." +:+ first +:+ " IS NULL)").

Definition plan_validation_sql (quoted_target quoted_staging quoted_operation : string)
    (key_names : list string) (presence_columns : list PresenceColumn)
    (old_key_present_column : string) (old_key_columns : list OldKeyColumn) : sql string :=
  let? key_join := equality_join "t" "s" key_names in
  let? key_columns := qualified_columns "s" key_names in
  let key_is_null := join " OR " (map (fun column => column +:+ " IS NULL") key_columns) in
  let? target_missing := plan_missing "t" key_names in
  let? old_target_missing := plan_missing "old_t" key_names in
  let? old_present := qi old_key_present_column in
  let old_key_present := "s." +:+ old_present in
  let? old_key_is_null := plan_old_key_test " OR " " IS NULL" old_key_columns in
  let? old_key_is_not_null := plan_old_key_test " OR " " IS NOT NULL" old_key_columns in
  let? same_move_key := plan_old_key_join "s" old_key_columns in
  let? all_present := plan_all_present presence_columns in
  let grouped_key := join ", " key_columns in
  let? grouped_old_key := plan_old_key_test ", " EmptyString old_key_columns in
  let? old_validation_join := plan_old_key_join "old_t" old_key_columns in
  let? upsert := quote_literal "U" in
  let? delete := quote_literal "D" in
  let? move_op := quote_literal "M" in
  let op := "s." +:+ quoted_operation in
  let nl4 := newline +:+ "    " in
  let nl8 := newline +:+ "        " in
  let nl11 := newline +:+ "           " in
  Ok ("SELECT (" +:+ nl4 +:+ "EXISTS (" +:+ nl8 +:+ "SELECT 1" +:+ nl8 +:+ "FROM " +:+ quoted_staging
      +:+ " AS s" +:+ nl8 +:+ "LEFT JOIN " +:+ quoted_target +:+ " AS t ON " +:+ key_join
      +:+ nl8 +:+ "LEFT JOIN " +:+ quoted_target +:+ " AS old_t ON " +:+ old_validation_join
      +:+ nl8 +:+ "WHERE " +:+ op +:+ " NOT IN (" +:+ upsert +:+ ", " +:+ delete +:+ ", " +:+ move_op +:+ ")"
      +:+ nl11 +:+ "OR " +:+ key_is_null
      +:+ nl11 +:+ "OR (" +:+ op +:+ " IN (" +:+ upsert +:+ ", " +:+ delete +:+ ") AND ("
      +:+ old_key_present +:+ " OR (" +:+ old_key_is_not_null +:+ ")))"
      +:+ nl11 +:+ "OR (" +:+ op +:+ " = " +:+ move_op +:+ " AND (NOT " +:+ old_key_present
      +:+ " OR (" +:+ old_key_is_null +:+ ") OR (" +:+ same_move_key +:+ ")))"
      +:+ nl11 +:+ "OR (" +:+ op +:+ " = " +:+ move_op +:+ " AND " +:+ target_missing +:+ " = "
      +:+ old_target_missing +:+ ")"
      +:+ nl11 +:+ "OR (" +:+ op +:+ " = " +:+ upsert +:+ " AND " +:+ target_missing
      +:+ " AND NOT (" +:+ all_present +:+ "))"
      +:+ nl4 +:+ ")" +:+ nl4 +:+ "OR EXISTS (" +:+ nl8 +:+ "SELECT 1 FROM " +:+ quoted_staging
      +:+ " AS s" +:+ nl8 +:+ "GROUP BY " +:+ grouped_key +:+ nl8 +:+ "HAVING count(*) > 1"
      +:+ nl4 +:+ ")" +:+ nl4 +:+ "OR EXISTS (" +:+ nl8 +:+ "SELECT 1 FROM " +:+ quoted_staging
      +:+ " AS s" +:+ nl8 +:+ "WHERE " +:+ op +:+ " = " +:+ move_op +:+ nl8 +:+ "GROUP BY "
      +:+ grouped_old_key +:+ nl8 +:+ "HAVING count(*) > 1" +:+ nl4 +:+ ")" +:+ newline
      +:+ ") AS invalid_batch").

(** [DELETE ... USING], for [delete_sql] and [delete_moved_sql]. *)
Definition plan_delete_sql (quoted_target quoted_staging quoted_operation operation on : string)
    : sql string :=
  let? literal := quote_literal operation in
  Ok ("DELETE FROM " +:+ quoted_target +:+ " AS t" +:+ newline +:+ "USING " +:+ quoted_staging
      +:+ " AS s" +:+ newline +:+ "WHERE s." +:+ quoted_operation +:+ " = " +:+ literal
      +:+ " AND " +:+ on).

(** [CASE WHEN s.present THEN s.data ELSE t.data END]. *)
Definition case_present (present data : string) : string :=
  "CASE WHEN s." +:+ present +:+ " THEN s." +:+ data +:+ " ELSE t." +:+ data +:+ " END".

Definition plan_moved_columns (table : CreateTablePlan) (presence_columns : list PresenceColumn)
    : sql string :=
  joined ", " (fun '(source_column_index, column) =>
    let? data := qi (cp_name column) in
    if bool_decide (is_Some (cp_primary_key_ordinal column)) then Ok ("s." +:+ data)
    else
      let? presence := expect (List.find (fun presence =>
        bool_decide (pc_source_column_index presence = source_column_index)) presence_columns) in
      let? present := qi (pc_staging_column_name presence) in
      Ok (case_present present data))
    (enumerate (ctp_columns table)).

Definition plan_move_sql (quoted_target quoted_staging quoted_operation : string)
    (table : CreateTablePlan) (presence_columns : list PresenceColumn)
    (old_key_join : string) : sql string :=
  let? moved_columns := plan_moved_columns table presence_columns in
  let? names := quote_identifier_list (map cp_name (ctp_columns table)) in
  let? move_op := quote_literal "M" in
  let? new_join := equality_join "new_t" "s" (ctp_primary_key table) in
  Ok ("INSERT INTO " +:+ quoted_target +:+ " (" +:+ names +:+ ")" +:+ newline +:+ "SELECT "
      +:+ moved_columns +:+ newline +:+ "FROM " +:+ quoted_staging +:+ " AS s" +:+ newline
      +:+ "JOIN " +:+ quoted_target +:+ " AS t ON " +:+ old_key_join +:+ newline +:+ "WHERE s."
      +:+ quoted_operation +:+ " = " +:+ move_op +:+ newline
      +:+ "  AND NOT EXISTS (SELECT 1 FROM " +:+ quoted_target +:+ " AS new_t WHERE " +:+ new_join
      +:+ ")").

Definition plan_update_sql (quoted_target quoted_staging quoted_operation : string)
    (presence_columns : list PresenceColumn) (key_join : string) : sql (option string) :=
  if bool_decide (length presence_columns = 0%nat) then Ok None
  else
    let? assignments := joined ("," +:+ newline) (fun presence =>
      let? data := qi (pc_source_column_name presence) in
      let? present := qi (pc_staging_column_name presence) in
      Ok ("    " +:+ data +:+ " = " +:+ case_present present data)) presence_columns in
    let? upsert := quote_literal "U" in
    Ok (Some ("UPDATE " +:+ quoted_target +:+ " AS t" +:+ newline +:+ "SET" +:+ newline
              +:+ assignments +:+ newline +:+ "FROM " +:+ quoted_staging +:+ " AS s" +:+ newline
              +:+ "WHERE s." +:+ quoted_operation +:+ " = " +:+ upsert +:+ " AND " +:+ key_join)).

Definition plan_insert_sql (quoted_target quoted_staging quoted_operation : string)
    (data_names : list string) (key_join : string) : sql string :=
  let? selected := qualified_columns "s" data_names in
  let? names := quote_identifier_list data_names in
  let? upsert := quote_literal "U" in
  Ok ("INSERT INTO " +:+ quoted_target +:+ " (" +:+ names +:+ ")" +:+ newline +:+ "SELECT "
      +:+ join ", " selected +:+ newline +:+ "FROM " +:+ quoted_staging +:+ " AS s" +:+ newline
      +:+ "WHERE s." +:+ quoted_operation +:+ " = " +:+ upsert +:+ newline
      +:+ "  AND NOT EXISTS (SELECT 1 FROM " +:+ quoted_target +:+ " AS t WHERE " +:+ key_join
      +:+ ")").

(** [plan_apply]. *)
Definition plan_apply (source : TableSchema) (target : QualifiedName) (staging_name : string)
    : result ApplyPlanError ApplyPlan :=
  let? table := map_err PlanSchema (plan_create_table source target) in
  map_err PlanSql (
    let? quoted_target := quote_qualified_name (ctp_target table) in
    let? quoted_staging := qi staging_name in
    let? control_prefix := unused_control_prefix table in
    let operation_column := control_prefix +:+ "op" in
    let? quoted_operation := qi operation_column in
    let key_names := ctp_primary_key table in
    let presence_columns := plan_presence_columns table control_prefix in
    let old_key_present_column := control_prefix +:+ "old_key_present" in
    let? old_key_columns := plan_old_key_columns table control_prefix in
    let? definitions :=
      staging_definitions quoted_operation table presence_columns old_key_present_column
        old_key_columns in
    let? quoted_key := quote_identifier_list key_names in
    let? copy_sql :=
      plan_copy_sql quoted_staging
        (copy_columns operation_column table presence_columns old_key_present_column
           old_key_columns) in
    let? key_join := equality_join "t" "s" key_names in
    let? old_key_join := plan_old_key_join "t" old_key_columns in
    let? validation_sql :=
      plan_validation_sql quoted_target quoted_staging quoted_operation key_names
        presence_columns old_key_present_column old_key_columns in
    let? delete_sql := plan_delete_sql quoted_target quoted_staging quoted_operation "D" key_join in
    let? move_sql :=
      plan_move_sql quoted_target quoted_staging quoted_operation table presence_columns
        old_key_join in
    let? delete_moved_sql :=
      plan_delete_sql quoted_target quoted_staging quoted_operation "M" old_key_join in
    let? update_sql :=
      plan_update_sql quoted_target quoted_staging quoted_operation presence_columns key_join in
    let data_names := map cp_name (ctp_columns table) in
    let? insert_sql :=
      plan_insert_sql quoted_target quoted_staging quoted_operation data_names key_join in
    Ok (mkApplyPlan table staging_name
          (mkCopyLayout operation_column data_names presence_columns old_key_present_column
             old_key_columns)
          (plan_create_staging_sql quoted_staging quoted_key definitions)
          copy_sql validation_sql delete_sql move_sql delete_moved_sql update_sql insert_sql)).

(** ** Encoding a staging row *)

(** A row of the staging table, in the order of [copy_columns]. *)
Record StagedRow : Type := mkStagedRow {
  sg_op : bytes;
  sg_data : list Cell;
  sg_present : list bool;
  sg_old_present : bool;
  sg_old : list Cell;
}.

Definition op_code (operation : StageOperation) : bytes :=
  match operation with OpUpsert => [x55] | OpDelete => [x44] | OpMove => [x4d] end.

Definition bool_cell (b : bool) : Cell := Text (if b then [x74] else [x66]).

Definition is_toast (c : Cell) : bool :=
  match c with UnchangedToast => true | _ => false end.

(** [matches!(cell, Cell::Null | Cell::UnchangedToast)]. *)
Definition is_missing (c : Cell) : bool :=
  match c with Null | UnchangedToast => true | _ => false end.

Definition staged_cell (c : Cell) : Cell := if is_toast c then Null else c.

(** The fields of a staging row; [row.cells[i]] panics out of range. *)
Definition staged_row (plan : ApplyPlan) (row : StagingRow) : result ApplyError StagedRow :=
  let? present := try_map (fun presence =>
    let? cell := expect (sr_cells row !! pc_source_column_index presence) in
    Ok (negb (is_toast cell))) (cl_presence_columns (ap_copy_layout plan)) in
  Ok (mkStagedRow (op_code (sr_operation row)) (map staged_cell (sr_cells row)) present
        (bool_decide (is_Some (sr_old_key row)))
        (match sr_old_key row with
         | Some old_key => old_key
         | None => map (fun _ => Null) (cl_old_key_columns (ap_copy_layout plan))
         end)).

Definition staged_fields (s : StagedRow) : list Cell :=
  [Text (sg_op s)] ++ sg_data s ++ map bool_cell (sg_present s) ++ [bool_cell (sg_old_present s)]
  ++ sg_old s.

(** The name of the first listed column whose cell is missing. *)
Fixpoint first_missing {A} (name : A -> string) (is_key : A -> bool) (columns : list A)
    (cells : list Cell) : option string :=
  match columns, cells with
  | column :: columns, cell :: cells =>
      if is_key column && is_missing cell then Some (name column)
      else first_missing name is_key columns cells
  | _, _ => None
  end.

Definition planned_key (column : ColumnPlan) : bool :=
  bool_decide (is_Some (cp_primary_key_ordinal column)).

(** The checks of [encode_staging_row]. *)
Definition check_staging_row (plan : ApplyPlan) (row : StagingRow) : result ApplyError unit :=
  let columns := ctp_columns (ap_table plan) in
  let old_columns := cl_old_key_columns (ap_copy_layout plan) in
  if negb (len (sr_cells row) =? len columns)%Z
  then Err (InvalidRowArity (len columns) (len (sr_cells row)))
  else
    match first_missing cp_name planned_key columns (sr_cells row) with
    | Some column => Err (MissingPrimaryKeyColumn column)
    | None =>
        let? _ :=
          match sr_operation row, sr_old_key row with
          | OpMove, None => Err MissingOldPrimaryKey
          | (OpUpsert | OpDelete), Some _ => Err UnexpectedOldPrimaryKey
          | _, _ => Ok tt
          end in
        match sr_old_key row with
        | Some old_key =>
            if negb (len old_key =? len old_columns)%Z
            then Err (InvalidOldKeyArity (len old_columns) (len old_key))
            else
              match first_missing ok_source_column_name (fun _ => true) old_columns old_key with
              | Some column => Err (MissingOldPrimaryKeyColumn column)
              | None => Ok tt
              end
        | None => Ok tt
        end
    end.

Definition encode_staging_row (plan : ApplyPlan) (row : StagingRow) : result ApplyError bytes :=
  let? _ := check_staging_row plan row in
  let? staged := staged_row plan row in
  map_err ApplyCopy (encode_row (staged_fields staged)).

(** ** What the statements do *)

(** A primary key as its columns' text values, in key order. *)
Notation Key := (list bytes).

(** A target table: its rows by their primary key. *)
Notation Table := (gmap (list bytes) (list Cell)).

Section statements.
Context (plan : ApplyPlan).

Notation columns := (ctp_columns (ap_table plan)).
Notation presence := (cl_presence_columns (ap_copy_layout plan)).

(** The positions of the key columns, in key order. *)
Definition key_indexes : list nat :=
  map ok_source_column_index (cl_old_key_columns (ap_copy_layout plan)).

(** The key a row has in the given columns; [None] if one of them is NULL. *)
Definition select_key (indexes : list nat) (row : list Cell) : option Key :=
  mapM (fun i => row !! i ≫= cell_value) indexes.

Definition s_key (s : StagedRow) : option Key := select_key key_indexes (sg_data s).
Definition s_old_key (s : StagedRow) : option Key := mapM cell_value (sg_old s).
Definition has_op (operation : StageOperation) (s : StagedRow) : bool :=
  bool_decide (sg_op s = op_code operation).

(** [s.present_i] of a column that has a presence flag. *)
Definition present_flag (s : StagedRow) (index : nat) : option bool :=
  position (fun p => bool_decide (pc_source_column_index p = index)) presence
  ≫= fun j => sg_present s !! j.

Definition cell_at (row : list Cell) (index : nat) : Cell := default Null (row !! index).

(** The row a move inserts: key columns from the staging row, the others from whichever
    side [CASE WHEN] picks. *)
Definition moved_row (s : StagedRow) (t : list Cell) : list Cell :=
  imap (fun i column =>
    if planned_key column then cell_at (sg_data s) i
    else if default false (present_flag s i) then cell_at (sg_data s) i else cell_at t i) columns.

(** The row an update leaves: only the columns with a presence flag are assigned. *)
Definition updated_row (s : StagedRow) (t : list Cell) : list Cell :=
  imap (fun i (_ : ColumnPlan) =>
    match present_flag s i with
    | Some true => cell_at (sg_data s) i
    | _ => cell_at t i
    end) columns.

(** The WHERE clause of the first EXISTS of [validation_sql]. *)
Definition invalid_row (T : Table) (s : StagedRow) : bool :=
  let key := s_key s in
  let old := s_old_key s in
  let target_missing := bool_decide (key ≫= (T !!.) = None) in
  let old_target_missing := bool_decide (old ≫= (T !!.) = None) in
  let upsert := has_op OpUpsert s in
  let delete := has_op OpDelete s in
  let move := has_op OpMove s in
  negb (upsert || delete || move)
  || bool_decide (key = None)
  || (upsert || delete)
     && (sg_old_present s || existsb (fun c => bool_decide (is_Some (cell_value c))) (sg_old s))
  || move && (negb (sg_old_present s) || bool_decide (old = None) || bool_decide (key = old))
  || move && Bool.eqb target_missing old_target_missing
  || upsert && target_missing && negb (forallb id (sg_present s)).

(** [GROUP BY ... HAVING count( * ) > 1] over some of the rows. *)
Definition repeated (group : StagedRow -> list (option bytes)) (rows : list StagedRow) : bool :=
  negb (bool_decide (NoDup (map group rows))).

Definition group_key (s : StagedRow) : list (option bytes) :=
  map (fun i => sg_data s !! i ≫= cell_value) key_indexes.
Definition group_old_key (s : StagedRow) : list (option bytes) := map cell_value (sg_old s).

(** [validation_sql]: whether the batch is invalid. *)
Definition validation (T : Table) (staging : list StagedRow) : bool :=
  existsb (invalid_row T) staging || repeated group_key staging
  || repeated group_old_key (List.filter (has_op OpMove) staging).

(** The rows whose key matches a selected staging row are deleted; how many there were. *)
Definition delete_matching (T : Table) (keys : list Key) : Z * Table :=
  let T' := foldr delete T keys in
  (Z.of_nat (size T - size T'), T').

(** Several rows are inserted; a key that is there already, or twice among the rows, is a
    unique violation. *)
Fixpoint insert_rows (T : Table) (rows : list (Key * list Cell)) : result ApplyError Table :=
  match rows with
  | [] => Ok T
  | (key, row) :: rows =>
      match T !! key with
      | Some _ => Err (ApplyDatabase "duplicate key value violates unique constraint")
      | None => insert_rows (<[key := row]> T) rows
      end
  end.

Definition delete_statement (T : Table) (staging : list StagedRow) : Z * Table :=
  delete_matching T (omap s_key (List.filter (has_op OpDelete) staging)).

(** The rows [move_sql] selects from the table as it is. *)
Definition moved_rows (T : Table) (staging : list StagedRow) : list (Key * list Cell) :=
  omap (fun s =>
    old ← s_old_key s; t ← T !! old; key ← s_key s;
    if bool_decide (T !! key = None) then Some (key, moved_row s t) else None)
    (List.filter (has_op OpMove) staging).

Definition move_statement (T : Table) (staging : list StagedRow)
    : result ApplyError (Z * Table) :=
  let rows := moved_rows T staging in
  let? T := insert_rows T rows in
  Ok (len rows, T).

Definition delete_moved_statement (T : Table) (staging : list StagedRow) : Z * Table :=
  delete_matching T (omap s_old_key (List.filter (has_op OpMove) staging)).

(** The rows [update_sql] assigns, from the table as it is. *)
Definition updated_rows (T : Table) (staging : list StagedRow) : list (Key * list Cell) :=
  omap (fun s => key ← s_key s; t ← T !! key; Some (key, updated_row s t))
    (List.filter (has_op OpUpsert) staging).

Definition update_statement (T : Table) (staging : list StagedRow) : Z * Table :=
  let rows := updated_rows T staging in
  (len rows, foldr (fun kr T => <[kr.1 := kr.2]> T) T rows).

Definition inserted_rows (T : Table) (staging : list StagedRow) : list (Key * list Cell) :=
  omap (fun s =>
    key ← s_key s; if bool_decide (T !! key = None) then Some (key, sg_data s) else None)
    (List.filter (has_op OpUpsert) staging).

Definition insert_statement (T : Table) (staging : list StagedRow)
    : result ApplyError (Z * Table) :=
  let rows := inserted_rows T staging in
  let? T := insert_rows T rows in
  Ok (len rows, T).
End statements.

(** The row counts of [ApplyOutcome]. *)
Record ApplyCounts : Type := mkApplyCounts {
  ac_staged_rows : Z;
  ac_deleted_rows : Z;
  ac_moved_rows : Z;
  ac_updated_rows : Z;
  ac_inserted_rows : Z;
}.

Definition no_counts : ApplyCounts := mkApplyCounts 0 0 0 0 0.

(** A row as the server reads it from the COPY stream: only rows that encode arrive. *)
Definition stage (plan : ApplyPlan) (row : StagingRow) : result ApplyError StagedRow :=
  let? _ := encode_staging_row plan row in
  staged_row plan row.

(** What the loop of [execute_apply] asks the server for a table: the staging table, the COPY
    with its rows and its end, the validation, and the five statements. *)
Inductive ApplyCall : Type :=
| CreateStaging
| CopyIn
| SendRow (index : nat)
| FinishCopy
| ValidateBatch
| DeleteRows
| MoveRows
| DeleteMovedRows
| UpdateRows
| InsertRows.

Section calls.
(** Which calls the server or the connection refuses, and with which message: a type that does
    not take the text of a cell, a constraint of the table, a lock, a lost connection. *)
Context (refused : ApplyCall -> option string).

(** [.await?] of a call. *)
Definition ran (call : ApplyCall) : result ApplyError unit :=
  match refused call with Some message => Err (ApplyDatabase message) | None => Ok tt end.

(** One iteration of the loop that feeds the COPY. *)
Definition send_row (plan : ApplyPlan) (row : nat * StagingRow) : result ApplyError StagedRow :=
  let? staged := stage plan row.2 in
  let? _ := ran (SendRow row.1) in
  Ok staged.

(** The staging table after the COPY, or why there is none. *)
Definition copy_rows (plan : ApplyPlan) (rows : list StagingRow) : result ApplyError (list StagedRow) :=
  let? _ := ran CreateStaging in
  let? _ := ran CopyIn in
  let? staging := try_map (send_row plan) (enumerate rows) in
  let? _ := ran FinishCopy in
  Ok staging.

(** The body of [execute_apply]'s loop over the tables of a request. *)
Definition apply_table (plan : ApplyPlan) (T : Table) (rows : list StagingRow)
    (outcome : ApplyCounts) : result ApplyError (Table * ApplyCounts) :=
  if bool_decide (length rows = 0%nat) then Ok (T, outcome)
  else
    let? staging := copy_rows plan rows in
    let? _ := ran ValidateBatch in
    if validation plan T staging
    then Err (InvalidBatch (QualifiedName_to_string (ctp_target (ap_table plan))))
    else
      let? _ := ran DeleteRows in
      let (deleted, T) := delete_statement plan T staging in
      let? _ := ran MoveRows in
      let? '(moved, T) := move_statement plan T staging in
      let? _ := ran DeleteMovedRows in
      let (moved_away, T) := delete_moved_statement T staging in
      let? '(updated, T) :=
        match ap_update_sql plan with
        | Some _ => let? _ := ran UpdateRows in Ok (update_statement plan T staging)
        | None => Ok (0%Z, T)
        end in
      let? _ := ran InsertRows in
      let? '(inserted, T) := insert_statement plan T staging in
      Ok (T, mkApplyCounts (saturating_add (ac_staged_rows outcome) (len staging))
               (saturating_add (saturating_add (ac_deleted_rows outcome) deleted) moved_away)
               (saturating_add (ac_moved_rows outcome) moved)
               (saturating_add (ac_updated_rows outcome) updated)
               (saturating_add (ac_inserted_rows outcome) inserted)).
End calls.

(** No call is refused. *)
Definition accepts {C} (_ : C) : option string := None.

(** ** A run that the server may cut short *)

(** [a] is [b], or a failure of the database in its place. *)
Definition cut_short {A} (failed : ApplyError -> Prop) (a b : result ApplyError A) : Prop :=
  a = b \/ exists e, a = Err e /\ failed e.

Lemma cut_short_refl {A} failed (a : result ApplyError A) : cut_short failed a a.
Proof. by left. Qed.
Lemma cut_short_bind {A B} failed (a b : result ApplyError A) (f g : A -> result ApplyError B) :
  cut_short failed a b -> (forall x, cut_short failed (f x) (g x)) ->
  cut_short failed (a ≫= f) (b ≫= g).
Proof.
  intros [->|(e & -> & He)] Hf; [|right; by exists e].
  destruct b; [apply Hf|by left..].
Qed.
Lemma cut_short_Ok {A} failed (a b : result ApplyError A) x : cut_short failed a b -> a = Ok x -> b = Ok x.
Proof. intros [->|(e & -> & _)]; [done|discriminate]. Qed.
Lemma cut_short_try_map {A B} failed (f g : A -> result ApplyError B) l :
  (forall x, cut_short failed (f x) (g x)) -> cut_short failed (try_map f l) (try_map g l).
Proof.
  intros H. induction l as [|x l IH]; cbn [try_map]; [by left|].
  apply cut_short_bind; [apply H|]. intros y. apply cut_short_bind; [exact IH|]. by left.
Qed.
Lemma cut_short_foldM {A B} failed (f g : B -> A -> result ApplyError B) l x :
  (forall y a, cut_short failed (f y a) (g y a)) -> cut_short failed (foldM f x l) (foldM g x l).
Proof.
  intros H. revert x. induction l as [|a l IH]; intros x; cbn [foldM]; [by left|].
  apply cut_short_bind; [apply H|exact IH].
Qed.

(** An error of the server or of the connection. *)
Definition database_failure (e : ApplyError) : Prop :=
  match e with ApplyDatabase _ | ApplyCheckpoint (CheckpointDatabase _) => True | _ => False end.

Create HintDb cuts.
#[export] Hint Resolve cut_short_refl : cuts.

(** Follows two runs of the same calls, one of them with refusals. *)
Ltac cut_calls := repeat
  lazymatch goal with
  | |- cut_short _ (mbind _ _) (mbind _ _) => apply cut_short_bind; [solve [auto with cuts]|intros ?]
  | |- cut_short _ (let (_, _) := ?p in _) _ => destruct p
  | |- cut_short _ (match ?x with _ => _ end) _ => destruct x
  end; try solve [auto with cuts].

(** Refusals only ever put their error in the place of the result. *)
Section refusals.
Context (refused : ApplyCall -> option string) (failed : ApplyError -> Prop).
Hypothesis (Hfailed : forall call message, refused call = Some message -> failed (ApplyDatabase message)).

Lemma ran_cut_short call : cut_short failed (ran refused call) (ran accepts call).
Proof. unfold ran. destruct (refused call) as [m|] eqn:E; [right; eauto|by left]. Qed.
#[local] Hint Resolve ran_cut_short : cuts.

Lemma copy_rows_cut_short plan rows : cut_short failed (copy_rows refused plan rows) (copy_rows accepts plan rows).
Proof.
  assert (H : cut_short failed (try_map (send_row refused plan) (enumerate rows))
    (try_map (send_row accepts plan) (enumerate rows))).
  { apply cut_short_try_map. intros row. unfold send_row. cut_calls. }
  unfold copy_rows. cut_calls.
Qed.
#[local] Hint Resolve copy_rows_cut_short : cuts.

Lemma update_cut_short {A} plan (x y : A) :
  cut_short failed
    (match ap_update_sql plan with Some _ => let? _ := ran refused UpdateRows in Ok x | None => Ok y end)
    (match ap_update_sql plan with Some _ => let? _ := ran accepts UpdateRows in Ok x | None => Ok y end).
Proof. cut_calls. Qed.
#[local] Hint Resolve update_cut_short : cuts.

Lemma apply_table_cut_short plan T rows outcome :
  cut_short failed (apply_table refused plan T rows outcome) (apply_table accepts plan T rows outcome).
Proof. unfold apply_table. case_bool_decide; [auto with cuts|]. cut_calls. Qed.
End refusals.
#[export] Hint Resolve apply_table_cut_short : cuts.

(** When nothing is refused, the rows are staged as they encode. *)
Lemma try_map_imap {E A B} (f : A -> result E B) (g : nat -> nat) (h : nat * A -> result E B) l :
  (forall ia, h ia = f ia.2) -> try_map h (imap (fun i => pair (g i)) l) = try_map f l.
Proof.
  intros Hh. revert g. induction l as [|x l IH]; intros g; [done|]. cbn [imap try_map].
  rewrite Hh. cbn [snd]. destruct (f x); cbn; [|done..]. 
  by rewrite <-(IH (fun i => g (S i))).
Qed.

Lemma copy_rows_accepted plan rows : copy_rows accepts plan rows = try_map (stage plan) rows.
Proof.
  unfold copy_rows, ran, accepts. cbn [mbind result_bind]. unfold enumerate.
  rewrite (try_map_imap (stage plan) (fun i => i)).
  - by destruct (try_map _ _).
  - intros [i row]. unfold send_row, ran. cbn. by destruct (stage plan row).
Qed.

(** ** The control prefix *)

Lemma prefix_spec p s : String.prefix p s = true <-> exists t, s = p +:+ t.
Proof.
  revert s. induction p as [|c p IH]; intros s; cbn.
  - split; [by exists s|by destruct s].
  - destruct s as [|d s].
    { split; [done|]. intros [t Ht]. by rewrite string_app_cons in Ht. }
    cbn [String.prefix]. destruct (ascii_dec c d) as [->|Hne].
    + rewrite IH. split; intros [t Ht]; exists t; rewrite string_app_cons in *; [by rewrite Ht|].
      by injection Ht as ->.
    + split; [done|]. intros [t Ht]. rewrite string_app_cons in Ht. congruence.
Qed.

(** A run of digits that ends in the same place on both sides is the same run. *)
Lemma digits_delimited a b s t c :
  Lsn.str_all is_digit a = true -> Lsn.str_all is_digit b = true -> is_digit c = false ->
  a +:+ String c s = b +:+ String c t -> a = b.
Proof.
  revert b. induction a as [|x a IH]; intros [|y b] Ha Hb Hc Heq;
    rewrite ?string_app_cons, ?string_app_nil in Heq; [done| | |].
  - injection Heq as <- _. cbn in Hb. by rewrite Hc in Hb.
  - injection Heq as -> _. cbn in Ha. by rewrite Hc in Ha.
  - cbn in Ha, Hb. apply andb_true_iff in Ha as [_ Ha], Hb as [_ Hb].
    injection Heq as -> Heq. f_equal. by apply IH.
Qed.

Lemma control_candidate_form n :
  exists d, control_candidate n = "__pg2cb" +:+ d +:+ "_" /\ Lsn.str_all is_digit d = true /\
    (n <> 0%N -> d = pretty n) /\ (n = 0%N -> d = EmptyString).
Proof.
  unfold control_candidate. destruct (N.eqb_spec n 0) as [->|Hn].
  - by exists EmptyString.
  - exists (pretty n). split_and!; [done|apply pretty_N_digits|done|done].
Qed.

(** No name starts with two of the candidates. *)
Lemma control_candidates_exclusive n m name :
  String.prefix (control_candidate n) name = true ->
  String.prefix (control_candidate m) name = true -> n = m.
Proof.
  intros [s Hs]%prefix_spec [t Ht]%prefix_spec.
  destruct (control_candidate_form n) as (a & Ea & Ha & Hna & Hza).
  destruct (control_candidate_form m) as (b & Eb & Hb & Hnb & Hzb).
  rewrite Ea in Hs. rewrite Eb in Ht. rewrite Hs in Ht.
  rewrite !string_app_assoc in Ht. apply (inj (String.append "__pg2cb")) in Ht.
  assert (a = b) as Hab by (by eapply (digits_delimited a b s t "_"%char)).
  assert (Hne : forall k, k <> 0%N -> (pretty k : string) <> EmptyString).
  { intros k Hk He. assert (Hp : parse_digits (Z.of_N k) 0 (pretty (Z.of_N k)) = Some (Z.of_N k))
      by (apply parse_digits_pretty; lia).
    rewrite pretty_Z_nonneg, N2Z.id, He in Hp by lia. cbn in Hp. injection Hp. lia. }
  destruct (decide (n = 0%N)) as [Hn|Hn], (decide (m = 0%N)) as [Hm|Hm]; [congruence| | |].
  - exfalso. apply (Hne m Hm). rewrite <-(Hnb Hm), <-Hab. by apply Hza.
  - exfalso. apply (Hne n Hn). rewrite <-(Hna Hn), Hab. by apply Hzb.
  - apply (inj pretty). rewrite <-(Hna Hn), <-(Hnb Hm). done.
Qed.

Definition free_candidate (names : list string) (n : N) : bool :=
  forallb (fun name => negb (String.prefix (control_candidate n) name)) names.

(** Pigeonhole: every name blocks at most one suffix. *)
Lemma free_candidate_exists names (suffixes : list N) :
  NoDup suffixes -> (length names < length suffixes)%nat ->
  exists n, n ∈ suffixes /\ free_candidate names n = true.
Proof.
  revert suffixes. induction names as [|name names IH]; intros suffixes Hnd Hlen.
  - destruct suffixes as [|n suffixes]; cbn in Hlen; [lia|]. exists n. split; [by left|done].
  - set (blocked n := String.prefix (control_candidate n) name = true).
    assert (Hblocked : (length (filter blocked suffixes) <= 1)%nat).
    { pose proof (NoDup_filter blocked suffixes Hnd) as Hf.
      assert (forall n, n ∈ filter blocked suffixes -> blocked n) as Hall
        by (intros n [? _]%list_elem_of_filter; done).
      destruct (filter blocked suffixes) as [|a [|b l]]; cbn; [lia..|]. exfalso.
      apply NoDup_cons in Hf as [Hni _]. apply Hni.
      rewrite (control_candidates_exclusive a b name); [by left|apply Hall; by left|].
      apply Hall. right. by left. }
    destruct (IH (filter (fun n => ~ blocked n) suffixes)) as (n & Hin & Hfree).
    + by apply NoDup_filter.
    + cbn in Hlen.
      pose proof (Permutation_length (filter_app_complement blocked suffixes)) as Hc.
      rewrite length_app in Hc. lia.
    + apply list_elem_of_filter in Hin as [Hnb Hin]. exists n. split; [done|]. cbn.
      rewrite (not_true_is_false _ Hnb). cbn. done.
Qed.

Lemma find_control_prefix_Some fuel n names p :
  find_control_prefix fuel n names = Some p ->
  exists m, p = control_candidate m /\ free_candidate names m = true.
Proof.
  revert n. induction fuel as [|fuel IH]; cbn; intros n H; [done|].
  destruct (forallb _ names) eqn:Hf; [|by eapply IH]. injection H as <-. by exists n.
Qed.

Lemma find_control_prefix_None fuel n names :
  find_control_prefix fuel n names = None ->
  forall i, (i < fuel)%nat -> free_candidate names (n + N.of_nat i) = false.
Proof.
  revert n. induction fuel as [|fuel IH]; cbn; intros n H i Hi; [lia|].
  destruct (forallb _ names) eqn:Hf; [done|]. destruct i as [|i].
  - by rewrite N.add_0_r.
  - replace (n + N.of_nat (S i))%N with (n + 1 + N.of_nat i)%N by lia. apply IH; [done|lia].
Qed.

(** The search finds a prefix within one more suffix than there are columns. *)
Lemma find_control_prefix_total names :
  exists p, find_control_prefix (S (length names)) 0 names = Some p.
Proof.
  destruct (find_control_prefix _ _ _) as [p|] eqn:E; [by exists p|]. exfalso.
  destruct (free_candidate_exists names (map N.of_nat (seq 0 (S (length names)))))
    as (n & (i & -> & Hi)%list_elem_of_fmap & Hfree).
  - apply NoDup_fmap_2; [apply _|apply NoDup_seq].
  - rewrite length_map, length_seq. lia.
  - apply elem_of_seq in Hi.
    pose proof (find_control_prefix_None _ _ _ E i ltac:(lia)) as Hn.
    rewrite N.add_0_l in Hn. congruence.
Qed.

(** ** What a plan is *)

Record plan_facts (source : TableSchema) (target : QualifiedName) (plan : ApplyPlan) : Prop := {
  pfa_table : plan_create_table source target = Ok (ap_table plan);
  pfa_layout : exists control,
    (forall name, name ∈ map cp_name (ctp_columns (ap_table plan)) ->
       String.prefix control name = false) /\
    cl_operation_column (ap_copy_layout plan) = control +:+ "op" /\
    cl_old_key_present_column (ap_copy_layout plan) = control +:+ "old_key_present" /\
    cl_presence_columns (ap_copy_layout plan) = plan_presence_columns (ap_table plan) control /\
    plan_old_key_columns (E := SqlRenderError) (ap_table plan) control
      = Ok (cl_old_key_columns (ap_copy_layout plan));
  pfa_update : ap_update_sql plan = None <-> cl_presence_columns (ap_copy_layout plan) = [];
}.

Lemma plan_apply_Ok source target name plan :
  plan_apply source target name = Ok plan -> plan_facts source target plan.
Proof.
  unfold plan_apply. intros H. apply bind_Ok in H as (table & Ht & H).
  apply map_err_Ok in Ht. apply map_err_Ok in H.
  repeat (let a := fresh "a" in let Ha := fresh "Ha" in apply bind_Ok in H as (a & Ha & H)).
  injection H as <-. split; cbn; [done| |].
  - exists a1. unfold unused_control_prefix in Ha1. apply expect_Ok in Ha1.
    apply find_control_prefix_Some in Ha1 as (m & -> & Hfree). split_and!; try done.
    intros n Hn. unfold free_candidate in Hfree. rewrite forallb_forall in Hfree.
    apply list_elem_of_In in Hn. by apply Hfree, negb_true_iff in Hn.
  - match goal with H : plan_update_sql _ _ _ _ _ = Ok _ |- _ =>
      unfold plan_update_sql in H; destruct (bool_decide _) eqn:Hb in H end.
    + apply bool_decide_eq_true in Hb. apply length_zero_iff_nil in Hb. by res_inv.
    + apply bool_decide_eq_false in Hb. res_inv. split; [done|]. intros Hn. by rewrite Hn in Hb.
Qed.

(** Distinct control columns: what follows the prefix tells them apart. *)
Lemma pretty_Z_inj (a b : Z) : (pretty a : string) = pretty b -> a = b.
Proof. apply (inj pretty). Qed.

Lemma pretty_no_k (a : Z) t : (pretty a : string) <> String "k" t.
Proof.
  intros H. destruct (decide (0 <= a)%Z) as [Ha|Ha].
  - pose proof (pretty_N_digits (Z.to_N a)) as Hd. rewrite pretty_Z_nonneg in H by done.
    by rewrite H in Hd.
  - destruct a as [|p|p]; [lia..|]. change (pretty (Z.neg p)) with ("-" +:+ pretty p) in H.
    by rewrite string_app_cons in H.
Qed.

Lemma starts_with_control control name suffix :
  String.prefix control name = false -> name <> control +:+ suffix.
Proof.
  intros Hp ->. assert (String.prefix control (control +:+ suffix) = true)
    by (apply prefix_spec; eauto). congruence.
Qed.

Lemma elem_of_enumerate {A} (l : list A) i x : (i, x) ∈ enumerate l <-> l !! i = Some x.
Proof.
  unfold enumerate. rewrite list_elem_of_lookup. split.
  - intros [j Hj]. rewrite list_lookup_imap in Hj. destruct (l !! j) eqn:E; cbn in Hj; [|done].
    injection Hj as -> ->. done.
  - intros H. exists i. by rewrite list_lookup_imap, H.
Qed.

Lemma presence_column_spec table control p :
  p ∈ plan_presence_columns table control <->
  exists i c, ctp_columns table !! i = Some c /\ cp_name c ∉ ctp_primary_key table /\
    p = mkPresenceColumn i (cp_name c) (control +:+ "present_" +:+ pretty (cp_source_attnum c)).
Proof.
  unfold plan_presence_columns. rewrite list_elem_of_omap. split.
  - intros ([i c] & Hic & H). apply elem_of_enumerate in Hic.
    case_bool_decide; [done|]. injection H as <-. eauto.
  - intros (i & c & Hc & Hn & ->). exists (i, c). split; [by apply elem_of_enumerate|].
    by rewrite bool_decide_false.
Qed.

Lemma old_key_columns_spec {E} table control cols :
  plan_old_key_columns (E := E) table control = Ok cols ->
  Forall2 (fun name k => exists i c, ctp_columns table !! i = Some c /\ cp_name c = name /\
    k = mkOldKeyColumn i name (control +:+ "old_" +:+ pretty (cp_source_attnum c)) (cp_type_sql c))
    (ctp_primary_key table) cols.
Proof.
  unfold plan_old_key_columns. rewrite try_map_Ok. intros H. eapply Forall2_impl; [exact H|].
  intros name k Hk. unfold plan_old_key_column in Hk. apply bind_Ok in Hk as ([i c] & Hf & Hk).
  apply expect_Ok in Hf. apply List.find_some in Hf as [Hin Hn]. cbn in Hn.
  apply bool_decide_eq_true in Hn. rewrite <-list_elem_of_In in Hin.
  apply elem_of_enumerate in Hin. injection Hk as <-. exists i, c. by rewrite Hn.
Qed.

Lemma NoDup_map_inj {A B} (f : A -> B) (l : list A) x y :
  NoDup (map f l) -> x ∈ l -> y ∈ l -> f x = f y -> x = y.
Proof.
  intros Hnd [i Hi]%list_elem_of_lookup [j Hj]%list_elem_of_lookup Hf.
  assert (i = j) as ->; [|congruence].
  eapply NoDup_lookup; [exact Hnd| |]; change (map f l) with (f <$> l);
    rewrite list_lookup_fmap; [by rewrite Hi|by rewrite Hj, Hf].
Qed.

Lemma NoDup_map_subset {A B} (f : A -> B) (l k : list A) :
  NoDup (map f l) -> k ⊆ l -> NoDup k -> NoDup (map f k).
Proof.
  intros Hl Hs Hk. apply NoDup_fmap_2_strong; [|done].
  intros x y Hx Hy. by apply (NoDup_map_inj f l); auto.
Qed.

Lemma imap_pair_filter {A B} (P : A -> bool) (g : A -> B) (f : nat -> A -> B) h (l : list A) :
  (forall i x, f i x = g x) ->
  omap (fun '(i, x) => if P x then None else Some (f i x)) (imap (fun i x => (h i, x)) l)
  = map g (List.filter (fun x => negb (P x)) l).
Proof.
  intros Hf. revert h. induction l as [|x l IH]; intros h; cbn; [done|].
  change (imap ((fun i y => (h i, y)) ∘ S) l) with (imap (fun i y => ((h ∘ S) i, y)) l).
  unfold omap in IH. destruct (P x); cbn; rewrite IH; [done|]. by rewrite Hf.
Qed.

Definition present_name (control : string) (c : ColumnPlan) : string :=
  control +:+ "present_" +:+ pretty (cp_source_attnum c).
Definition old_name (control : string) (c : ColumnPlan) : string :=
  control +:+ "old_" +:+ pretty (cp_source_attnum c).

Lemma presence_names table control :
  map pc_staging_column_name (plan_presence_columns table control)
  = map (present_name control)
      (List.filter (fun c => negb (bool_decide (cp_name c ∈ ctp_primary_key table)))
         (ctp_columns table)).
Proof.
  rewrite <-(imap_pair_filter (fun c => bool_decide (cp_name c ∈ ctp_primary_key table))
    (present_name control) (fun _ => present_name control) (fun i => i)) by done.
  change (imap (fun i x => (i, x)) (ctp_columns table)) with (imap pair (ctp_columns table)).
  unfold plan_presence_columns, enumerate. generalize (imap pair (ctp_columns table)) as l.
  induction l as [|[i c] l IH]; cbn; [done|].
  case_bool_decide; cbn; [exact IH|]. f_equal. exact IH.
Qed.

Lemma old_names {E} table control cols :
  plan_old_key_columns (E := E) table control = Ok cols ->
  exists kcs, kcs ⊆ ctp_columns table /\ map cp_name kcs = ctp_primary_key table /\
    map ok_staging_column_name cols = map (old_name control) kcs.
Proof.
  intros H. apply old_key_columns_spec in H.
  induction H as [|name k names cols (i & c & Hc & Hn & ->) _ (kcs & Hs & Hnm & Hst)];
    [by exists []; split_and!; [apply list_subseteq_nil|..]|].
  exists (c :: kcs). cbn. rewrite Hnm, Hst, Hn. split_and!; [|done|done].
  apply list_elem_of_lookup_2 in Hc. intros x [->|Hx]%elem_of_cons; auto.
Qed.

Lemma present_name_inj control c d :
  present_name control c = present_name control d -> cp_source_attnum c = cp_source_attnum d.
Proof.
  unfold present_name. intros H. apply (inj (String.append control)) in H.
  apply (inj (String.append "present_")) in H. by apply pretty_Z_inj.
Qed.
Lemma old_name_inj control c d :
  old_name control c = old_name control d -> cp_source_attnum c = cp_source_attnum d.
Proof.
  unfold old_name. intros H. apply (inj (String.append control)) in H.
  apply (inj (String.append "old_")) in H. by apply pretty_Z_inj.
Qed.

(** The names after one control prefix are told apart by what follows it. *)
Lemma control_names_distinct control c d :
  control +:+ "op" <> present_name control c /\ control +:+ "op" <> old_name control c /\
    control +:+ "op" <> control +:+ "old_key_present" /\
    present_name control c <> old_name control d /\
    present_name control c <> control +:+ "old_key_present" /\
    control +:+ "old_key_present" <> old_name control c.
Proof.
  unfold present_name, old_name.
  split_and!; intros H; apply (inj (String.append control)) in H; try discriminate H.
  change ("old_key_present" : string) with ("old_" +:+ "key_present") in H.
  apply (inj (String.append "old_")) in H. symmetry in H. by apply pretty_no_k in H.
Qed.

Lemma NoDup_control_columns ctl data pcs kcs :
  NoDup data -> (forall name, name ∈ data -> String.prefix ctl name = false) ->
  NoDup (map (present_name ctl) pcs) -> NoDup (map (old_name ctl) kcs) ->
  NoDup ([ctl +:+ "op"] ++ data ++ map (present_name ctl) pcs ++ [ctl +:+ "old_key_present"]
         ++ map (old_name ctl) kcs).
Proof.
  intros Hdata Hfree Hp Ho.
  assert (Hno : forall suffix, ctl +:+ suffix ∉ data).
  { intros suffix Hin. pose proof (Hfree _ Hin). by eapply starts_with_control. }
  pose proof (control_names_distinct ctl) as Hd.
  pose proof (fun c => Hd c c) as Hd'. pose proof (Hd' (mkColumnPlan 0 "" "" false None)) as Hd0.
  apply NoDup_app; split_and!; [apply NoDup_singleton| |apply NoDup_app; split_and!;
    [done| |apply NoDup_app; split_and!; [done| |apply NoDup_app; split_and!;
      [apply NoDup_singleton| |done]]]].
  - intros x ->%list_elem_of_singleton. rewrite !elem_of_app, list_elem_of_singleton.
    intros [H|[(c & H & _)%list_elem_of_fmap|[H|(c & H & _)%list_elem_of_fmap]]];
      [by apply (Hno "op")|by apply Hd' in H|by apply Hd0 in H|by apply Hd' in H].
  - intros x Hx. rewrite !elem_of_app, list_elem_of_singleton.
    intros [(c & -> & _)%list_elem_of_fmap|[->|(c & -> & _)%list_elem_of_fmap]]; by apply (Hno _) in Hx.
  - intros x (c & -> & _)%list_elem_of_fmap. rewrite elem_of_app, list_elem_of_singleton.
    intros [H|(d & H & _)%list_elem_of_fmap]; [by apply Hd' in H|by apply (Hd c d) in H].
  - intros x ->%list_elem_of_singleton (c & H & _)%list_elem_of_fmap. by apply Hd' in H.
Qed.

(** The columns of a planned table, by name and by attribute number. *)
Lemma plan_column_names source target table :
  plan_create_table source target = Ok table ->
  map cp_name (ctp_columns table) = map col_name (ts_columns source) /\
  map cp_source_attnum (ctp_columns table) = map col_attnum (ts_columns source) /\
  map cp_primary_key_ordinal (ctp_columns table) = map col_primary_key_ordinal (ts_columns source) /\
  NoDup (map col_name (ts_columns source)) /\
  ctp_primary_key table = map col_name (primary_key source).
Proof.
  intros H. destruct (plan_create_table_Ok _ _ _ H) as (_ & _ & Hpk & _ & st & Hinv & -> & _).
  pose proof (pi_names _ _ _ Hinv). pose proof (pi_columns _ _ _ Hinv) as HF.
  enough (map cp_name (ps_columns st) = map col_name (ts_columns source) /\
    map cp_source_attnum (ps_columns st) = map col_attnum (ts_columns source) /\
    map cp_primary_key_ordinal (ps_columns st) = map col_primary_key_ordinal (ts_columns source))
    by tauto.
  clear -HF. induction HF as [|c p cs ps (H1 & H2 & _ & H4 & _) _ (IH1 & IH2 & IH3)]; cbn; [done|].
  by rewrite H1, H2, H4, IH1, IH2, IH3.
Qed.

Lemma NoDup_filter_bool {A} (p : A -> bool) l : NoDup l -> NoDup (List.filter p l).
Proof. rewrite !NoDup_ListNoDup. apply List.NoDup_filter. Qed.

Lemma NoDup_primary_key {B} (f : ColumnSchema -> B) t :
  NoDup (map f (ts_columns t)) -> NoDup (map f (primary_key t)).
Proof.
  intros Hnd. apply (NoDup_map_subset f (ts_columns t)); [done| |].
  - intros c Hc. by apply elem_of_primary_key in Hc as [? _].
  - rewrite primary_key_perm. apply NoDup_filter_bool. by apply (NoDup_fmap_1 f).
Qed.

(** *** Properties *)

(** Whatever the source calls its columns, planning always finds a control prefix, and
    the staging table it plans has pairwise distinct column names: the operation, the data,
    the presence and the old-key columns never collide. *)
Theorem staging_columns_are_distinct source target name plan :
  plan_apply source target name = Ok plan -> NoDup (map col_attnum (ts_columns source)) ->
  unused_control_prefix (E := SqlRenderError) (ap_table plan) <> Panic /\
  NoDup (copy_columns (cl_operation_column (ap_copy_layout plan)) (ap_table plan)
           (cl_presence_columns (ap_copy_layout plan))
           (cl_old_key_present_column (ap_copy_layout plan))
           (cl_old_key_columns (ap_copy_layout plan))).
Proof.
  intros Hplan Hatt. split.
  { unfold unused_control_prefix.
    destruct (find_control_prefix_total (map cp_name (ctp_columns (ap_table plan)))) as [p Hp].
    rewrite length_map in Hp. by rewrite Hp. }
  destruct (plan_apply_Ok _ _ _ _ Hplan) as [Htab (ctl & Hfree & Hop & Hokp & Hpres & Hold) _].
  destruct (plan_column_names _ _ _ Htab) as (Hnames & Hattn & _ & Hnd & Hpk).
  rewrite <-Hattn in Hatt. destruct (old_names _ _ _ Hold) as (kcs & Hks & Hkn & Host).
  unfold copy_columns. rewrite Hop, Hokp, Hpres, presence_names, Host.
  assert (Hmap : forall f k, (forall c d, f c = f d -> cp_source_attnum c = cp_source_attnum d) ->
    k ⊆ ctp_columns (ap_table plan) -> NoDup k -> NoDup (map (f : _ -> string) k)).
  { intros f k Hf Hk Hn. apply NoDup_fmap_2_strong; [|done]. intros x y Hx Hy Hxy.
    apply (NoDup_map_inj cp_source_attnum (ctp_columns (ap_table plan))); auto. }
  apply NoDup_control_columns; [by rewrite Hnames|done| |].
  - apply Hmap; [apply present_name_inj| |].
    + intros c Hc. apply elem_of_List_filter in Hc. tauto.
    + apply NoDup_filter_bool. by eapply NoDup_fmap_1.
  - apply Hmap; [apply old_name_inj|done|]. apply (NoDup_fmap_1 cp_name).
    change (cp_name <$> kcs) with (map cp_name kcs). rewrite Hkn, Hpk. by apply NoDup_primary_key.
Qed.

(** A staging row that encodes arrives in Cloudberry as exactly its staged row: reading
    the COPY line back gives the operation, every data value with NULL for an unchanged one,
    the presence flags and the old key, in the order of the COPY column list. *)
Theorem staged_row_is_read_back plan row enc :
  encode_staging_row plan row = Ok enc ->
  exists staged, staged_row plan row = Ok staged /\
    decode_rows enc = [map cell_value (staged_fields staged)] /\
    length (staged_fields staged)
    = (2 + length (sr_cells row) + length (cl_presence_columns (ap_copy_layout plan))
       + length (cl_old_key_columns (ap_copy_layout plan)))%nat.
Proof.
  unfold encode_staging_row. intros H. apply bind_Ok in H as ([] & Hck & H).
  apply bind_Ok in H as (s & Hs & H). apply map_err_Ok in H. exists s. split; [done|]. split.
  - destruct (encode_row_spec _ _ H) as (line & -> & Hl & Hd).
    pose proof (split_lines [line] ltac:(by repeat constructor)) as Hsp. cbn in Hsp.
    rewrite app_nil_r in Hsp. unfold decode_rows, copy_lines. rewrite Hsp. cbn. by rewrite Hd.
  - unfold staged_row in Hs. apply bind_Ok in Hs as (pr & Hp & Hs). injection Hs as <-.
    apply try_map_Ok, Forall2_length in Hp. unfold staged_fields. cbn.
    rewrite !length_app, !length_map. cbn. rewrite <-Hp.
    assert (Hold : length (match sr_old_key row with Some o => o
      | None => map (fun _ => Null) (cl_old_key_columns (ap_copy_layout plan)) end)
      = length (cl_old_key_columns (ap_copy_layout plan))).
    { unfold check_staging_row in Hck. res_inv. destruct (first_missing _ _ _ _); [done|].
      apply bind_Ok in Hck as (u & _ & Hck). destruct (sr_old_key row); [|by rewrite length_map].
      destruct (negb _) eqn:Hl in Hck; [done|]. apply negb_false_iff, Z.eqb_eq in Hl.
      unfold len in Hl. lia. }
    rewrite Hold. lia.
Qed.

(** ** Witnesses *)

(** A source table with a column that looks like a control column. *)
Definition example_awkward : TableSchema :=
  mkTableSchema 7 1 (mkQualifiedName "public" "items") Ordinary RIDefault
    [mkColumnSchema 1 "id" (example_type TInt4) false (Some 1%Z) GenNone IdNone None;
     mkColumnSchema 2 "__pg2cb_present_3" (example_type TText) true None GenNone IdNone None;
     mkColumnSchema 3 "v" (example_type TText) true None GenNone IdNone None] [] [].

Lemma staging_columns_are_distinct_witness :
  exists plan, plan_apply example_awkward (mkQualifiedName "target" "items") "stage" = Ok plan /\
    cl_operation_column (ap_copy_layout plan) = "__pg2cb1_op" /\
    NoDup (copy_columns (cl_operation_column (ap_copy_layout plan)) (ap_table plan)
             (cl_presence_columns (ap_copy_layout plan))
             (cl_old_key_present_column (ap_copy_layout plan))
             (cl_old_key_columns (ap_copy_layout plan))).
Proof.
  assert (exists plan, plan_apply example_awkward (mkQualifiedName "target" "items") "stage" = Ok plan /\
    cl_operation_column (ap_copy_layout plan) = "__pg2cb1_op") as (plan & Hplan & Hop)
    by (eexists; split; [vm_compute; reflexivity|reflexivity]).
  exists plan. split; [exact Hplan|]. split; [exact Hop|].
  apply (staging_columns_are_distinct example_awkward (mkQualifiedName "target" "items") "stage" plan Hplan).
  apply (bool_decide_unpack _). vm_compute. exact I.
Defined.

Lemma staged_row_is_read_back_witness :
  exists plan enc, plan_apply example_awkward (mkQualifiedName "target" "items") "stage" = Ok plan /\
    encode_staging_row plan
      (mkStagingRow OpMove [Text [x32]; UnchangedToast; Text [x09]] (Some [Text [x31]])) = Ok enc /\
    decode_rows enc
    = [[Some [x4d]; Some [x32]; None; Some [x09]; Some [x66]; Some [x74]; Some [x74]; Some [x31]]].
Proof.
  assert (exists plan enc staged,
    plan_apply example_awkward (mkQualifiedName "target" "items") "stage" = Ok plan /\
    encode_staging_row plan
      (mkStagingRow OpMove [Text [x32]; UnchangedToast; Text [x09]] (Some [Text [x31]])) = Ok enc /\
    staged_row plan
      (mkStagingRow OpMove [Text [x32]; UnchangedToast; Text [x09]] (Some [Text [x31]])) = Ok staged /\
    map cell_value (staged_fields staged)
    = [Some [x4d]; Some [x32]; None; Some [x09]; Some [x66]; Some [x74]; Some [x74]; Some [x31]])
    as (plan & enc & staged & Hplan & Henc & Hst & Hf).
  { do 3 eexists. split; [vm_compute; reflexivity|]. split; [vm_compute; reflexivity|].
    split; [vm_compute; reflexivity|reflexivity]. }
  exists plan, enc. split; [exact Hplan|]. split; [exact Henc|].
  destruct (staged_row_is_read_back _ _ _ Henc) as (staged' & Hst' & Hd & _).
  rewrite Hst in Hst'. injection Hst' as <-. by rewrite Hd, Hf.
Defined.
