(* ===== verification/Normalize.v ===== *)
(** * Folding row events into staging rows

    Models [crates/engine/src/normalize.rs]: the normalizer that folds the row changes of a
    batch into at most one staging row per source lineage.

    A [HashMap] from keys to lineage indexes is a [gmap]; indexing a [Vec] out of range and
    [expect] on [None] are [Panic]s.  A method that takes [&mut self] and fails is only ever
    followed by dropping the normalizer, so the methods return the new normalizer or the
    error. *)

From S2P Require Import Prelude Core Schema Change Batch Sql TargetSchema Checkpoint Apply.

Inductive NormalizeError : Type :=
| NormalizeSchema (e : CoreError)
| RelationMismatch (expected actual : Z)
| GenerationMismatch (relation_id expected actual : Z)
| InvalidTupleArity (tuple_kind : string) (expected actual : Z)
| NormalizeInvalidOldKeyArity (key_only full actual : Z)
| InvalidPrimaryKey (column state tuple_kind : string)
| BinaryValue (column : string)
| IncompleteInsert (column : string)
| AmbiguousSequence (reason : string).

(** [PrimaryKeyLayout]. *)
Record PrimaryKeyLayout : Type := mkPrimaryKeyLayout {
  ordinal_indexes : list nat;
  key_tuple_positions : list nat;
}.

(** The schema positions of the key columns, in schema order. *)
Definition schema_order (schema : TableSchema) : list nat :=
  omap (fun '(index, column) =>
    match col_primary_key_ordinal column with Some _ => Some index | None => None end)
    (enumerate (ts_columns schema)).

(** [PrimaryKeyLayout::new]. *)
Definition PrimaryKeyLayout_new {E} (schema : TableSchema) : result E PrimaryKeyLayout :=
  let? ordinal_indexes :=
    try_map (fun key_column =>
      expect (position (fun column => (col_attnum column =? col_attnum key_column)%Z)
                (ts_columns schema))) (primary_key schema) in
  let? key_tuple_positions :=
    try_map (fun ordinal_index =>
      expect (position (fun schema_index => bool_decide (schema_index = ordinal_index))
                (schema_order schema))) ordinal_indexes in
  Ok (mkPrimaryKeyLayout ordinal_indexes key_tuple_positions).

Record Lineage : Type := mkLineage {
  origin_key : option Key;
  current_key : option Key;
  lineage_cells : list Cell;
  first_sequence : Z;
}.

Record Normalizer : Type := mkNormalizer {
  nz_primary_key : PrimaryKeyLayout;
  nz_lineages : list Lineage;
  nz_current_by_key : gmap (list bytes) nat;
  nz_origin_by_key : gmap (list bytes) nat;
  nz_sequence : Z;
}.

(** [Key::cells]. *)
Definition key_cells (key : Key) : list Cell := map Text key.

Definition is_binary (c : Cell) : bool := match c with Binary _ => true | _ => false end.

Definition ambiguous (reason : string) : NormalizeError := AmbiguousSequence reason.

(** [for (stored, incoming) in lineage.cells.iter_mut().zip(&new.cells)]. *)
Fixpoint overlay (stored incoming : list Cell) : list Cell :=
  match stored, incoming with
  | s :: stored, i :: incoming => (if is_toast i then s else i) :: overlay stored incoming
  | stored, _ => stored
  end.

Section normalizer.
Context (schema : TableSchema).

Notation M := (result NormalizeError).

(** [Normalizer::new]. *)
Definition Normalizer_new : M Normalizer :=
  let? primary_key := PrimaryKeyLayout_new schema in
  Ok (mkNormalizer primary_key [] ∅ ∅ 0).

(** [self.schema.columns[index].name]. *)
Definition column_name (index : nat) : M string :=
  let? column := expect (ts_columns schema !! index) in
  Ok (col_name column).

(** [return Err(error(self.schema.columns[index].name))]. *)
Definition column_error {A} (index : nat) (error : string -> NormalizeError) : M A :=
  let? name := column_name index in
  Err (error name).

Definition validate_new_tuple (tuple : Tuple) (tuple_kind : string) : M unit :=
  if negb (len (cells tuple) =? len (ts_columns schema))%Z
  then Err (InvalidTupleArity tuple_kind (len (ts_columns schema)) (len (cells tuple)))
  else
    match position is_binary (cells tuple) with
    | Some index => column_error index BinaryValue
    | None => Ok tt
    end.

Definition key_cell (cell : Cell) (schema_index : nat) (tuple_kind : string) : M bytes :=
  match cell with
  | Text value => Ok value
  | Binary _ => column_error schema_index BinaryValue
  | Null => column_error schema_index (fun name => InvalidPrimaryKey name "NULL" tuple_kind)
  | UnchangedToast =>
      column_error schema_index (fun name => InvalidPrimaryKey name "unchanged" tuple_kind)
  end.

Definition key_from_selected_cells (pk : PrimaryKeyLayout) (cells : list Cell)
    (indexes : list nat) (tuple_kind : string) : M Key :=
  try_map (fun '(cell_index, schema_index) =>
    let? cell := expect (cells !! cell_index) in
    key_cell cell schema_index tuple_kind) (zip indexes (ordinal_indexes pk)).

Definition key_from_old_tuple (pk : PrimaryKeyLayout) (tuple : Tuple) : M Key :=
  let? indexes :=
    if (len (cells tuple) =? len (ts_columns schema))%Z then Ok (ordinal_indexes pk)
    else if (len (cells tuple) =? len (ordinal_indexes pk))%Z then Ok (key_tuple_positions pk)
    else Err (NormalizeInvalidOldKeyArity (len (ordinal_indexes pk)) (len (ts_columns schema))
                (len (cells tuple))) in
  key_from_selected_cells pk (cells tuple) indexes "old-key".

(** [key_from_full_tuple] and [key_from_cells]. *)
Definition key_from_cells (pk : PrimaryKeyLayout) (cells : list Cell) (tuple_kind : string)
    : M Key :=
  key_from_selected_cells pk cells (ordinal_indexes pk) tuple_kind.

(** The closure of [key_from_update_tuple]. *)
Definition update_key_cell (tuple : Tuple) (old_key : option Key) (at_ : nat * nat) : M bytes :=
  let (ordinal, index) := at_ in
  let? cell := expect (cells tuple !! index) in
  match cell with
  | UnchangedToast =>
      match old_key ≫= fun key => key !! ordinal with
      | Some value => Ok value
      | None =>
          column_error index (fun name =>
            InvalidPrimaryKey name "unchanged without an old key" "update")
      end
  | cell => key_cell cell index "update"
  end.

(** [key_from_update_tuple]. *)
Definition key_from_update_tuple (pk : PrimaryKeyLayout) (tuple : Tuple) (old_key : option Key)
    : M Key :=
  try_map (update_key_cell tuple old_key) (enumerate (ordinal_indexes pk)).

(** [write_key]. *)
Definition write_key (pk : PrimaryKeyLayout) (cells : list Cell) (key : Key) : M (list Cell) :=
  foldM (fun cells '(index, value) =>
    let? _ := expect (cells !! index) in
    Ok (<[index := value]> cells)) cells (zip (ordinal_indexes pk) (key_cells key)).

Definition unchanged_cells : list Cell := repeat UnchangedToast (length (ts_columns schema)).

(** [new_baseline]: the new lineage's index and the normalizer with it. *)
Definition new_baseline (self : Normalizer) (key : Key) (sequence : Z) (live : bool)
    : M (nat * Normalizer) :=
  let lineage_index := length (nz_lineages self) in
  let? cells := write_key (nz_primary_key self) unchanged_cells key in
  Ok (lineage_index,
      mkNormalizer (nz_primary_key self)
        (nz_lineages self ++
           [mkLineage (Some key) (if live then Some key else None) cells sequence])
        (if live then <[key := lineage_index]> (nz_current_by_key self)
         else nz_current_by_key self)
        (<[key := lineage_index]> (nz_origin_by_key self))
        (nz_sequence self)).

(** [insert]. *)
Definition normalizer_insert (self : Normalizer) (new : Tuple) (sequence : Z) : M Normalizer :=
  let? _ := validate_new_tuple new "insert" in
  match position is_toast (cells new) with
  | Some index => column_error index IncompleteInsert
  | None =>
      let? key := key_from_cells (nz_primary_key self) (cells new) "insert" in
      match nz_current_by_key self !! key with
      | Some _ => Err (ambiguous "insert targets a key that is already live")
      | None =>
          (* the dead lineage that started at this key, if there is one *)
          let? dead :=
            match nz_origin_by_key self !! key with
            | Some index =>
                let? lineage := expect (nz_lineages self !! index) in
                Ok (match current_key lineage with
                    | None => Some (index, lineage)
                    | Some _ => None
                    end)
            | None => Ok None
            end in
          match dead with
          | Some (index, lineage) =>
              Ok (mkNormalizer (nz_primary_key self)
                    (<[index := mkLineage (origin_key lineage) (Some key) (cells new)
                                  (first_sequence lineage)]> (nz_lineages self))
                    (<[key := index]> (nz_current_by_key self)) (nz_origin_by_key self)
                    (nz_sequence self))
          | None =>
              Ok (mkNormalizer (nz_primary_key self)
                    (nz_lineages self ++ [mkLineage None (Some key) (cells new) sequence])
                    (<[key := length (nz_lineages self)]> (nz_current_by_key self))
                    (nz_origin_by_key self) (nz_sequence self))
          end
      end
  end.

(** The lineage an update applies to: a live one, or a new baseline. *)
Definition live_lineage (self : Normalizer) (lookup_key : Key) (sequence : Z)
    : M (nat * Normalizer) :=
  match nz_current_by_key self !! lookup_key with
  | Some index => Ok (index, self)
  | None =>
      match nz_origin_by_key self !! lookup_key with
      | Some _ =>
          Err (ambiguous
            "update references a key whose baseline lineage has already moved or died")
      | None => new_baseline self lookup_key sequence true
      end
  end.

(** The tail of [update], once the lineage's cells are the new ones. *)
Definition move_lineage (self : Normalizer) (index : nat) (lineage : Lineage)
    (previous_key final_key : Key) : M Normalizer :=
  if bool_decide (final_key <> previous_key) then
    if match nz_current_by_key self !! final_key with
       | Some other => bool_decide (other <> index) | None => false end
    then Err (ambiguous "primary-key update targets another live lineage")
    else if match nz_origin_by_key self !! final_key with
            | Some other => bool_decide (other <> index) | None => false end
    then Err (ambiguous "primary-key update reuses another batch-start key")
    else
      Ok (mkNormalizer (nz_primary_key self)
            (<[index := mkLineage (origin_key lineage) (Some final_key) (lineage_cells lineage)
                          (first_sequence lineage)]> (nz_lineages self))
            (<[final_key := index]> (delete previous_key (nz_current_by_key self)))
            (nz_origin_by_key self) (nz_sequence self))
  else Ok self.

(** [update]. *)
Definition normalizer_update (self : Normalizer) (old_tuple : option Tuple) (new : Tuple)
    (sequence : Z) : M Normalizer :=
  let? _ := validate_new_tuple new "update" in
  let? old_key :=
    match old_tuple with
    | Some tuple => let? key := key_from_old_tuple (nz_primary_key self) tuple in Ok (Some key)
    | None => Ok None
    end in
  let? new_key := key_from_update_tuple (nz_primary_key self) new old_key in
  let lookup_key := default new_key old_key in
  let? '(index, self) := live_lineage self lookup_key sequence in
  let? lineage := expect (nz_lineages self !! index) in
  let lineage :=
    mkLineage (origin_key lineage) (current_key lineage)
      (overlay (lineage_cells lineage) (cells new)) (first_sequence lineage) in
  let self :=
    mkNormalizer (nz_primary_key self) (<[index := lineage]> (nz_lineages self))
      (nz_current_by_key self) (nz_origin_by_key self) (nz_sequence self) in
  let? final_key := key_from_cells (nz_primary_key self) (lineage_cells lineage) "update" in
  let? previous_key := expect (current_key lineage) in
  move_lineage self index lineage previous_key final_key.

(** [delete]. *)
Definition normalizer_delete (self : Normalizer) (old_tuple : Tuple) (sequence : Z)
    : M Normalizer :=
  let? key := key_from_old_tuple (nz_primary_key self) old_tuple in
  let? '(index, self) :=
    match nz_current_by_key self !! key with
    | Some index =>
        Ok (index, mkNormalizer (nz_primary_key self) (nz_lineages self)
                     (delete key (nz_current_by_key self)) (nz_origin_by_key self)
                     (nz_sequence self))
    | None =>
        match nz_origin_by_key self !! key with
        | Some _ =>
            Err (ambiguous
              "delete references a key whose baseline lineage has already moved or died")
        | None => new_baseline self key sequence false
        end
    end in
  let? lineage := expect (nz_lineages self !! index) in
  Ok (mkNormalizer (nz_primary_key self)
        (<[index := mkLineage (origin_key lineage) None (lineage_cells lineage)
                      (first_sequence lineage)]> (nz_lineages self))
        (nz_current_by_key self) (nz_origin_by_key self) (nz_sequence self)).

(** [push]. *)
Definition normalizer_push (self : Normalizer) (change : TableChange) : M Normalizer :=
  if negb (tc_relation_id change =? ts_relation_id schema)%Z
  then Err (RelationMismatch (ts_relation_id schema) (tc_relation_id change))
  else if negb (tc_generation change =? ts_generation schema)%Z
  then Err (GenerationMismatch (tc_relation_id change) (ts_generation schema)
              (tc_generation change))
  else
    let sequence := nz_sequence self in
    let self :=
      mkNormalizer (nz_primary_key self) (nz_lineages self) (nz_current_by_key self)
        (nz_origin_by_key self) (saturating_add (nz_sequence self) 1) in
    match tc_change change with
    | Insert new => normalizer_insert self new sequence
    | Update old_key new => normalizer_update self old_key new sequence
    | Delete old_key => normalizer_delete self old_key sequence
    end.

(** [inserted_staging_row]. *)
Definition inserted_staging_row (cells : list Cell) : M StagingRow :=
  match position is_toast cells with
  | Some index => column_error index IncompleteInsert
  | None => Ok (mkStagingRow OpUpsert cells None)
  end.

(** The closure of [finish]. *)
Definition lineage_row (self : Normalizer) (lineage : Lineage) : M (option StagingRow) :=
  match origin_key lineage, current_key lineage with
  | None, None => Ok None
  | None, Some _ => let? row := inserted_staging_row (lineage_cells lineage) in Ok (Some row)
  | Some origin, Some current =>
      if bool_decide (origin = current)
      then Ok (Some (mkStagingRow OpUpsert (lineage_cells lineage) None))
      else Ok (Some (mkStagingRow OpMove (lineage_cells lineage) (Some (key_cells origin))))
  | Some origin, None =>
      match nz_current_by_key self !! origin with
      | Some _ => Ok None
      | None =>
          let? cells := write_key (nz_primary_key self) unchanged_cells origin in
          Ok (Some (mkStagingRow OpDelete cells None))
      end
  end.

(** [finish]. *)
Definition normalizer_finish (self : Normalizer) : M (list StagingRow) :=
  let? rows := try_map (lineage_row self) (sort_by_key first_sequence (nz_lineages self)) in
  Ok (omap id rows).

(** [normalize_table_changes]. *)
Definition normalize_table_changes (changes : list TableChange) : M (list StagingRow) :=
  let? _ := map_err NormalizeSchema (validate_supported schema) in
  let? normalizer := Normalizer_new in
  let? normalizer := foldM normalizer_push normalizer changes in
  normalizer_finish normalizer.

(** The row changes of a batch that belong to the relation. *)
Definition relation_changes (batch : TransactionBatch) : list TableChange :=
  concat (map (fun transaction =>
    omap (fun change =>
      match change with
      | Row change =>
          if (tc_relation_id change =? ts_relation_id schema)%Z then Some change else None
      | _ => None
      end) (st_changes transaction)) (transactions batch)).

(** [normalize_table_batch]. *)
Definition normalize_table_batch (batch : TransactionBatch) : M (list StagingRow) :=
  normalize_table_changes (relation_changes batch).
End normalizer.
