(* ===== verification/Fold.v ===== *)
(** * The staged apply reproduces the source

    The refinement between [crates/engine/src/normalize.rs] and
    [crates/target-cloudberry/src/apply.rs]: folding the row changes of a batch into staging
    rows ([Normalize]) and running the statements of the apply plan over them ([Apply])
    turns a copy of the source table as it was before the batch into a copy of the source
    table as it is after it.

    [source_step] is the reference semantics: what one row change of the replication stream
    does to the source table.  It is stated without reference to the code. *)

From S2P Require Import Prelude Core Schema Change Batch Sql Copy TargetSchema Checkpoint Apply Normalize.

(** ** The source table *)

Definition plain (c : Cell) : bool := match c with Null | Text _ => true | _ => false end.

Section source.
Context (schema : TableSchema).

(** [row], a row in schema order, has the primary key [k]. *)
Definition key_of (row : list Cell) (k : Key) : Prop :=
  Forall2 (fun c v => exists i, ts_columns schema !! i = Some c /\ row !! i = Some (Text v))
    (primary_key schema) k.

(** [row] holds only the key columns, in schema order. *)
Definition key_tuple_of (row : list Cell) (k : Key) : Prop :=
  length row = length (primary_key schema) /\
  Forall2 (fun c v => exists i p,
      ts_columns schema !! i = Some c /\ schema_order schema !! p = Some i /\
      row !! p = Some (Text v))
    (primary_key schema) k.

(** The old tuple of an update or delete names the row with key [k]: it is laid out like
    the row, or holds the key columns alone. *)
Definition names_key (old : Tuple) (k : Key) : Prop :=
  (length (cells old) = length (ts_columns schema) /\ key_of (cells old) k) \/
  (length (cells old) <> length (ts_columns schema) /\ key_tuple_of (cells old) k).

(** What the source table looks like. *)
Definition wf_table (S : Table) : Prop :=
  forall k row, S !! k = Some row ->
    length row = length (ts_columns schema) /\ forallb plain row = true /\ key_of row k.

(** One row change applied to the source table. *)
Inductive source_step (S : Table) : RowChange -> Table -> Prop :=
| source_insert new k :
    length (cells new) = length (ts_columns schema) -> forallb plain (cells new) = true ->
    key_of (cells new) k -> S !! k = None ->
    source_step S (Insert new) (<[k := cells new]> S)
| source_update old new k k' row :
    S !! k = Some row ->
    length (cells new) = length (ts_columns schema) ->
    forallb (fun c => negb (is_binary c)) (cells new) = true ->
    match old with
    | Some old => names_key old k
    | None => key_of (cells new) k
    end ->
    key_of (overlay row (cells new)) k' -> k' = k \/ S !! k' = None ->
    source_step S (Update old new) (<[k' := overlay row (cells new)]> (delete k S))
| source_delete old k row :
    names_key old k -> S !! k = Some row ->
    source_step S (Delete old) (delete k S).

(** A sequence of changes of this relation, applied in order. *)
Inductive source_run : Table -> list TableChange -> Table -> Prop :=
| source_done S : source_run S [] S
| source_more S change S1 changes S2 :
    source_step S (tc_change change) S1 ->
    tc_relation_id change = ts_relation_id schema ->
    tc_generation change = ts_generation schema ->
    source_run S1 changes S2 -> source_run S (change :: changes) S2.
End source.

(** ** Overlaying cells *)

Lemma overlay_length s i : length s = length i -> length (overlay s i) = length s.
Proof. revert i. induction s as [|x s IH]; intros [|y i]; cbn; intros [=]; auto. Qed.

Lemma overlay_lookup s i j :
  length s = length i ->
  overlay s i !! j = match i !! j with
                     | Some c => if is_toast c then s !! j else Some c
                     | None => None
                     end.
Proof.
  revert i j. induction s as [|x s IH]; intros [|y i] [|j]; cbn; intros Hl; try done.
  - by destruct (is_toast y).
  - apply IH. lia.
Qed.

Lemma overlay_assoc a b c :
  length a = length b -> length b = length c -> overlay (overlay a b) c = overlay a (overlay b c).
Proof.
  revert b c. induction a as [|x a IH]; intros [|y b] [|z c]; cbn; intros [=] [=]; [done|].
  rewrite IH by done. f_equal. by destruct z.
Qed.

Lemma overlay_full s i :
  length s = length i -> forallb plain i = true -> overlay s i = i.
Proof.
  revert i. induction s as [|x s IH]; intros [|y i]; cbn; intros [=]; [done|].
  intros [Hy Hi]%andb_true_iff. rewrite IH by done. by destruct y.
Qed.

Lemma overlay_self i : overlay i i = i.
Proof. induction i as [|c i IH]; cbn; [done|]. rewrite IH. by destruct c. Qed.

Lemma overlay_plain s i :
  length s = length i -> forallb plain s = true ->
  forallb (fun c => negb (is_binary c)) i = true -> forallb plain (overlay s i) = true.
Proof.
  revert i. induction s as [|x s IH]; intros [|y i]; cbn; intros [=]; [done|].
  intros [Hx Hs]%andb_true_iff [Hy Hi]%andb_true_iff. rewrite IH, andb_true_r by done.
  by destruct y.
Qed.

Lemma overlay_no_binary s i :
  length s = length i -> forallb (fun c => negb (is_binary c)) s = true ->
  forallb (fun c => negb (is_binary c)) i = true ->
  forallb (fun c => negb (is_binary c)) (overlay s i) = true.
Proof.
  revert i. induction s as [|x s IH]; intros [|y i]; cbn; intros [=]; [done|].
  intros [Hx Hs]%andb_true_iff [Hy Hi]%andb_true_iff. rewrite IH, andb_true_r by done.
  by destruct y.
Qed.

Lemma plain_no_binary l : forallb plain l = true -> forallb (fun c => negb (is_binary c)) l = true.
Proof. rewrite !forallb_forall. intros H x Hx. specialize (H x Hx). by destruct x. Qed.

Lemma plain_no_toast l : forallb plain l = true -> position is_toast l = None.
Proof.
  intros H. destruct (position is_toast l) as [i|] eqn:E; [|done].
  apply position_Some in E as (x & Hx & Ht & _). apply list_elem_of_lookup_2 in Hx.
  rewrite forallb_forall in H. apply list_elem_of_In in Hx. specialize (H x Hx). by destruct x.
Qed.

Lemma no_binary_position l :
  forallb (fun c => negb (is_binary c)) l = true -> position is_binary l = None.
Proof.
  intros H. destruct (position is_binary l) as [i|] eqn:E; [|done].
  apply position_Some in E as (x & Hx & Ht & _). apply list_elem_of_lookup_2 in Hx.
  rewrite forallb_forall in H. apply list_elem_of_In in Hx. specialize (H x Hx). by rewrite Ht in H.
Qed.

(** ** The key layout *)

Record layout_ok (schema : TableSchema) (pk : PrimaryKeyLayout) : Prop := {
  lay_indexes : Forall2 (fun c i => ts_columns schema !! i = Some c) (primary_key schema)
                  (ordinal_indexes pk);
  lay_positions : Forall2 (fun i p => schema_order schema !! p = Some i) (ordinal_indexes pk)
                    (key_tuple_positions pk);
  lay_nodup : NoDup (ordinal_indexes pk);
}.

Lemma elem_of_schema_order schema i :
  i ∈ schema_order schema <->
  exists c, ts_columns schema !! i = Some c /\ is_Some (col_primary_key_ordinal c).
Proof.
  unfold schema_order. rewrite list_elem_of_omap. split.
  - intros ([j c] & Hj & H). apply elem_of_enumerate in Hj.
    destruct (col_primary_key_ordinal c) eqn:E; [|done]. injection H as ->. exists c. by rewrite E.
  - intros (c & Hc & [o Ho]). exists (i, c). rewrite elem_of_enumerate, Ho. done.
Qed.

Lemma NoDup_schema_order schema : NoDup (schema_order schema).
Proof.
  unfold schema_order, enumerate.
  assert (Hgen : forall (h : nat -> nat) l, (forall i j, h i = h j -> i = j) ->
    NoDup (omap (fun '(index, column) =>
      match col_primary_key_ordinal column with Some _ => Some index | None => None end)
      (imap (fun i c => (h i, c)) l)) /\
    forall x, x ∈ omap (fun '(index, column) =>
      match col_primary_key_ordinal column with Some _ => Some index | None => None end)
      (imap (fun i c => (h i, c)) l) -> exists i, x = h i).
  { intros h l. revert h. induction l as [|c l IH]; intros h Hh; cbn; [split; [constructor|set_solver]|].
    destruct (IH (h ∘ S)) as [Hnd Hx]; [intros i j Hij; apply Hh in Hij; lia|].
    change (imap ((fun i c => (h i, c)) ∘ S) l) with (imap (fun i c => ((h ∘ S) i, c)) l).
    unfold omap in *. destruct (col_primary_key_ordinal c); [|split; [done|]].
    - split; [apply NoDup_cons; split; [|done]|].
      + intros [i Hi]%Hx. apply Hh in Hi. lia.
      + intros x [->|[i ->]%Hx]%elem_of_cons; eauto.
    - intros x [i ->]%Hx. by exists (S i). }
  apply (Hgen (fun i => i)). auto.
Qed.

Lemma PrimaryKeyLayout_new_Ok {E} schema :
  NoDup (map col_attnum (ts_columns schema)) ->
  exists pk, PrimaryKeyLayout_new (E := E) schema = Ok pk /\ layout_ok schema pk.
Proof.
  intros Hatt. unfold PrimaryKeyLayout_new.
  assert (Hin : forall c, c ∈ primary_key schema -> c ∈ ts_columns schema /\
    is_Some (col_primary_key_ordinal c)) by (intros c; apply elem_of_primary_key).
  assert (exists idx, try_map (E := E) (fun key_column =>
      expect (position (fun column => (col_attnum column =? col_attnum key_column)%Z)
        (ts_columns schema))) (primary_key schema) = Ok idx /\
      Forall2 (fun c i => ts_columns schema !! i = Some c) (primary_key schema) idx)
    as (idx & -> & Hidx).
  { induction (primary_key schema) as [|c pk IH]; [by exists []|].
    destruct IH as (idx & Hm & HF); [intros; apply Hin; by right|].
    destruct (Hin c ltac:(by left)) as [Hc _].
    destruct (position_is_Some (fun column => (col_attnum column =? col_attnum c)%Z)
      (ts_columns schema) c Hc ltac:(by apply Z.eqb_refl)) as [i Hi].
    exists (i :: idx). cbn. rewrite Hi. cbn. rewrite Hm. split; [done|]. constructor; [|done].
    apply position_Some in Hi as (d & Hd & Heq & _). apply Z.eqb_eq in Heq. rewrite Hd. f_equal.
    apply (NoDup_map_inj col_attnum (ts_columns schema)); [done| |done|done].
    by eapply list_elem_of_lookup_2. }
  cbn. assert (Hso : forall i, i ∈ idx -> i ∈ schema_order schema).
  { intros i Hi. apply list_elem_of_lookup in Hi as [j Hj].
    destruct (Forall2_lookup_r _ _ _ _ _ Hidx Hj) as (c & Hc & Hci).
    apply elem_of_schema_order. exists c. split; [done|]. apply Hin. by eapply list_elem_of_lookup_2. }
  assert (exists pos, try_map (E := E) (fun ordinal_index =>
      expect (position (fun schema_index => bool_decide (schema_index = ordinal_index))
        (schema_order schema))) idx = Ok pos /\
      Forall2 (fun i p => schema_order schema !! p = Some i) idx pos) as (pos & -> & Hpos).
  { clear Hidx. induction idx as [|i idx IH]; [by exists []|].
    destruct IH as (pos & Hm & HF); [intros; apply Hso; by right|].
    destruct (position_is_Some (fun j => bool_decide (j = i)) (schema_order schema) i
      ltac:(apply Hso; by left) ltac:(by apply bool_decide_eq_true)) as [p Hp].
    exists (p :: pos). cbn. rewrite Hp. cbn. rewrite Hm. split; [done|]. constructor; [|done].
    apply position_Some in Hp as (j & Hj & Heq & _). by apply bool_decide_eq_true in Heq as ->. }
  cbn. eexists. split; [done|]. split; [done|done|]. cbn.
  apply NoDup_alt. intros a b i Ha Hb.
  destruct (Forall2_lookup_r _ _ _ _ _ Hidx Ha) as (c & Hc & Hci).
  destruct (Forall2_lookup_r _ _ _ _ _ Hidx Hb) as (d & Hd & Hdi).
  rewrite Hci in Hdi. injection Hdi as <-. eapply NoDup_lookup; [|exact Hc|exact Hd].
  apply (NoDup_fmap_1 col_attnum). by apply NoDup_primary_key.
Qed.

(** ** Reading keys *)

Section keys.
Context (schema : TableSchema) (pk : PrimaryKeyLayout).
Hypothesis (Hatt : NoDup (map col_attnum (ts_columns schema))).
Hypothesis (Hlay : layout_ok schema pk).

(** The key cells of a row, at the positions of the layout. *)
Definition key_at (row : list Cell) (k : Key) : Prop :=
  Forall2 (fun i v => row !! i = Some (Text v)) (ordinal_indexes pk) k.

Lemma key_of_at row k : key_of schema row k <-> key_at row k.
Proof.
  unfold key_of, key_at. pose proof (lay_indexes _ _ Hlay) as HF. revert k.
  induction HF as [|c i cs ix Hc _ IH]; intros k.
  - split; intros H; inversion H; constructor.
  - split; intros H; inversion H as [|? v ? k' Hv Hk]; subst; constructor; try (by apply IH).
    + destruct Hv as (j & Hj & Hv). replace i with j; [done|].
      eapply (NoDup_lookup (map col_attnum (ts_columns schema))); [done| |];
        change (map col_attnum (ts_columns schema)) with (col_attnum <$> ts_columns schema);
        rewrite list_lookup_fmap; [by rewrite Hj|by rewrite Hc].
    + eauto.
Qed.

Lemma key_at_fun row k k' : key_at row k -> key_at row k' -> k = k'.
Proof.
  unfold key_at. intros H. revert k'. induction H as [|i v ix k Hv _ IH]; intros k' H';
    inversion H' as [|? v' ? k'' Hv' Hk']; subst; [done|]. f_equal; [congruence|auto].
Qed.

Lemma key_at_select row k : key_at row k <-> select_key (ordinal_indexes pk) row = Some k /\
  forall i, i ∈ ordinal_indexes pk -> forall b, row !! i <> Some (Binary b).
Proof.
  unfold key_at, select_key. rewrite mapM_Some. split.
  - intros H. split.
    + eapply Forall2_impl; [exact H|]. intros i v Hv. by rewrite Hv.
    + intros i Hi b Hb. apply list_elem_of_lookup in Hi as [j Hj].
      destruct (Forall2_lookup_l _ _ _ _ _ H Hj) as (v & _ & Hv). congruence.
  - intros [H Hnb]. induction H as [|i v ix k Hv _ IH]; constructor.
    + destruct (row !! i) as [[]|] eqn:E; cbn in Hv; try done; [by injection Hv as ->|].
      exfalso. by eapply (Hnb i ltac:(by left)).
    + apply IH. intros j Hj. apply Hnb. by right.
Qed.

Lemma key_at_select_key row k : key_at row k -> select_key (ordinal_indexes pk) row = Some k.
Proof. intros H. apply key_at_select in H. apply H. Qed.

Lemma key_from_selected_Ok cells indexes k kind :
  length indexes = length (ordinal_indexes pk) ->
  Forall2 (fun i v => cells !! i = Some (Text v)) indexes k ->
  key_from_selected_cells schema pk cells indexes kind = Ok k.
Proof.
  unfold key_from_selected_cells. intros Hlen HF. apply try_map_Ok.
  generalize dependent (ordinal_indexes pk). clear Hlay.
  induction HF as [|i v ix k Hv _ IH]; intros [|o os] Hlen; cbn in *; try lia; constructor.
  - by rewrite Hv.
  - apply IH. lia.
Qed.

Lemma key_from_cells_Ok cells k kind : key_at cells k -> key_from_cells schema pk cells kind = Ok k.
Proof. by apply key_from_selected_Ok. Qed.

Lemma key_tuple_at cells k :
  key_tuple_of schema cells k ->
  length cells = length (ordinal_indexes pk) /\
  Forall2 (fun p v => cells !! p = Some (Text v)) (key_tuple_positions pk) k.
Proof.
  intros [Hlen HF]. rewrite Hlen. pose proof (lay_indexes _ _ Hlay) as Hi.
  pose proof (lay_positions _ _ Hlay) as Hp. split; [by apply Forall2_length in Hi|].
  clear Hlen. revert k HF. generalize dependent (key_tuple_positions pk).
  induction Hi as [|c i cs ix Hc _ IH]; intros ps Hp k HF; inversion Hp; subst;
    inversion HF as [|? v ? k' Hv Hk]; subst; constructor; [|by eapply IH].
  destruct Hv as (j & p & Hj & Hpj & Hv).
  assert (j = i) as ->.
  { eapply (NoDup_lookup (map col_attnum (ts_columns schema))); [done| |];
      change (map col_attnum (ts_columns schema)) with (col_attnum <$> ts_columns schema);
      rewrite list_lookup_fmap; [by rewrite Hj|by rewrite Hc]. }
  match goal with H : schema_order schema !! ?y = Some i |- _ =>
    replace y with p; [done|]; eapply NoDup_lookup; [apply NoDup_schema_order|exact Hpj|exact H] end.
Qed.

Lemma len_eqb {A B} (l : list A) (k : list B) : (len l =? len k)%Z = bool_decide (length l = length k).
Proof.
  unfold len. case_bool_decide as H; [rewrite H; apply Z.eqb_refl|]. apply Z.eqb_neq. lia.
Qed.

Lemma key_from_old_tuple_Ok old k :
  names_key schema old k -> key_from_old_tuple schema pk old = Ok k.
Proof.
  unfold key_from_old_tuple. rewrite !len_eqb. intros [[Hl Hk]|[Hl Hk]].
  - rewrite bool_decide_true by done. cbn. apply key_from_selected_Ok; [done|by apply key_of_at].
  - rewrite bool_decide_false by done. destruct (key_tuple_at _ _ Hk) as [Hlen HF].
    rewrite bool_decide_true by done. cbn. apply key_from_selected_Ok; [|done].
    symmetry. apply (Forall2_length _ _ _ (lay_positions _ _ Hlay)).
Qed.

Lemma index_bound i : i ∈ ordinal_indexes pk -> (i < length (ts_columns schema))%nat.
Proof.
  intros [j Hj]%list_elem_of_lookup.
  destruct (Forall2_lookup_r _ _ _ _ _ (lay_indexes _ _ Hlay) Hj) as (c & _ & Hc).
  by eapply lookup_lt_Some.
Qed.

(** A column is a key column exactly if the layout lists it. *)
Lemma index_is_key i c :
  ts_columns schema !! i = Some c ->
  (i ∈ ordinal_indexes pk <-> is_Some (col_primary_key_ordinal c)).
Proof.
  intros Hc. split.
  - intros [j Hj]%list_elem_of_lookup.
    destruct (Forall2_lookup_r _ _ _ _ _ (lay_indexes _ _ Hlay) Hj) as (d & Hd & Hdi).
    rewrite Hc in Hdi. injection Hdi as <-. apply list_elem_of_lookup_2 in Hd.
    by apply elem_of_primary_key in Hd as [_ ?].
  - intros Ho. assert (Hin : c ∈ primary_key schema).
    { apply elem_of_primary_key. split; [by eapply list_elem_of_lookup_2|done]. }
    apply list_elem_of_lookup in Hin as [j Hj].
    destruct (Forall2_lookup_l _ _ _ _ _ (lay_indexes _ _ Hlay) Hj) as (d & Hd & Hdi).
    apply list_elem_of_lookup. exists j. rewrite Hd. f_equal.
    eapply (NoDup_lookup (map col_attnum (ts_columns schema))); [done| |];
      change (map col_attnum (ts_columns schema)) with (col_attnum <$> ts_columns schema);
      rewrite list_lookup_fmap; [by rewrite Hdi|by rewrite Hc].
Qed.

(** Overlaying the same tuple on two rows with the same key gives the same new key. *)
Lemma overlay_key row cells new k k' :
  length row = length new -> length cells = length new ->
  key_at row k -> key_at cells k -> key_at (overlay row new) k' -> key_at (overlay cells new) k'.
Proof.
  unfold key_at. intros Hl1 Hl2 Hr Hc. revert k'.
  revert Hc. induction Hr as [|i v ix k Hv _ IH]; intros Hc k' Ho; inversion Hc; subst;
    inversion Ho as [|? v' ? k'' Hv' Hk']; subst; constructor; [|by apply IH].
  rewrite overlay_lookup in * by done. destruct (new !! i) as [c|]; [|done].
  destruct (is_toast c); [congruence|done].
Qed.

(** The update tuple of a valid update has a readable key. *)
(** A key read off a full tuple needs no old key. *)
Lemma update_key_full new (k : Key) :
  key_at (cells new) k -> key_from_update_tuple schema pk new None = Ok k.
Proof.
  intros H. apply try_map_Ok. unfold key_at in H. unfold enumerate.
  apply Forall2_same_length_lookup_2; [rewrite length_imap; by eapply Forall2_length|].
  intros j [o i] v Hoi Hv. rewrite list_lookup_imap in Hoi.
  destruct (ordinal_indexes pk !! j) as [i'|] eqn:Hi; [|done]. injection Hoi as <- <-.
  pose proof (Forall2_lookup_lr _ _ _ _ _ _ H Hi Hv) as Hc. cbn in Hc |- *. by rewrite Hc.
Qed.

(** A key is read off a tuple whose unchanged key cells the old key fills in. *)
Lemma update_key_filled new (k k' : Key) row :
  length row = length (cells new) -> key_at row k -> key_at (overlay row (cells new)) k' ->
  exists nk, key_from_update_tuple schema pk new (Some k) = Ok nk.
Proof.
  intros Hl Hr Ho. unfold key_at in *. apply try_map_all_Ok. intros [o i] Hoi.
  apply elem_of_enumerate in Hoi.
  destruct (Forall2_lookup_l _ _ _ _ _ Hr Hoi) as (v & Hv & _).
  destruct (Forall2_lookup_l _ _ _ _ _ Ho Hoi) as (v' & _ & Hv').
  rewrite overlay_lookup in Hv' by done. cbn.
  destruct (cells new !! i) as [[| | |]|]; cbn in Hv' |- *; try done; rewrite ?Hv; by eexists.
Qed.

Lemma key_from_update_tuple_Ok new old row k k' :
  length row = length (cells new) -> key_at row k -> key_at (overlay row (cells new)) k' ->
  (old = None -> key_at (cells new) k) -> (old = None \/ old = Some k) ->
  exists nk, key_from_update_tuple schema pk new old = Ok nk /\ (old = None -> nk = k).
Proof.
  intros Hl Hr Ho Hnone [-> | ->].
  - exists k. split; [|done]. apply update_key_full. auto.
  - destruct (update_key_filled new k k' row Hl Hr Ho) as [nk Hnk]. by exists nk.
Qed.

(** Writing a key over unchanged cells. *)
Lemma write_key_gen ix (k : Key) cells :
  NoDup ix -> (forall i, i ∈ ix -> (i < length cells)%nat) -> length ix = length k ->
  exists out, foldM (E := NormalizeError) (fun cells '(index, value) =>
      let? _ := expect (cells !! index) in Ok (<[index := value]> cells)) cells
      (zip ix (key_cells k)) = Ok out /\
    length out = length cells /\
    Forall2 (fun i v => out !! i = Some (Text v)) ix k /\
    forall i, i ∉ ix -> out !! i = cells !! i.
Proof.
  revert k cells. induction ix as [|i ix IH]; intros [|v k] cells0 Hnd Hb Hl; cbn in Hl; try lia.
  - exists cells0. split_and!; [done|done|constructor|done].
  - apply NoDup_cons in Hnd as [Hni Hnd]. cbn [zip key_cells map foldM].
    destruct (lookup_lt_is_Some_2 cells0 i ltac:(by apply Hb; left)) as [c Hc].
    cbn. rewrite Hc. cbn.
    destruct (IH k (<[i := Text v]> cells0)) as (out & Hf & Hlo & HF & Hrest).
    + done.
    + intros j Hj. rewrite length_insert. apply Hb. by right.
    + lia.
    + exists out. rewrite length_insert in Hlo. split_and!; [done|done| |].
      * constructor; [|done]. rewrite Hrest by done.
        apply list_lookup_insert_eq. apply Hb. by left.
      * intros j Hj. rewrite not_elem_of_cons in Hj. rewrite Hrest by tauto.
        apply list_lookup_insert_ne. destruct Hj; congruence.
Qed.

Lemma write_key_Ok k :
  length k = length (ordinal_indexes pk) ->
  exists out, write_key pk (unchanged_cells schema) k = Ok out /\
    length out = length (ts_columns schema) /\ key_at out k /\
    (forall i c, i ∉ ordinal_indexes pk -> out !! i = Some c -> c = UnchangedToast).
Proof.
  intros Hk. destruct (write_key_gen (ordinal_indexes pk) k (unchanged_cells schema))
    as (out & Hw & Hlo & HF & Hrest).
  - apply Hlay.
  - intros i Hi. unfold unchanged_cells. rewrite repeat_length. by apply index_bound.
  - done.
  - exists out. unfold unchanged_cells in *. rewrite repeat_length in Hlo.
    split_and!; [done|done|done|]. intros i c Hi Hc. rewrite Hrest in Hc by done.
    apply list_elem_of_lookup_2, list_elem_of_In, repeat_spec in Hc. done.
Qed.

(** A new baseline's cells change nothing about the row they stand for. *)
Lemma overlay_baseline row out k :
  length row = length out -> key_at row k -> key_at out k ->
  (forall i c, i ∉ ordinal_indexes pk -> out !! i = Some c -> c = UnchangedToast) ->
  overlay row out = row.
Proof.
  intros Hl Hr Ho Hrest. apply list_eq. intros i. rewrite overlay_lookup by done.
  destruct (out !! i) as [c|] eqn:E.
  - destruct (decide (i ∈ ordinal_indexes pk)) as [Hi|Hi].
    + apply list_elem_of_lookup in Hi as [j Hj]. unfold key_at in *.
      destruct (Forall2_lookup_l _ _ _ _ _ Ho Hj) as (v & Hv & Hvi).
      destruct (Forall2_lookup_l _ _ _ _ _ Hr Hj) as (v' & Hv' & Hvi').
      rewrite E in Hvi. injection Hvi as ->. cbn. congruence.
    + by rewrite (Hrest i c Hi E).
  - symmetry. apply lookup_ge_None_2. apply lookup_ge_None_1 in E. lia.
Qed.
End keys.

(** ** Lineages indexed by key *)

Definition set_opt (o : option Key) (i : nat) (m : gmap (list bytes) nat) : gmap (list bytes) nat :=
  match o with Some k => <[k := i]> m | None => m end.
Definition del_opt (o : option Key) (m : gmap (list bytes) nat) : gmap (list bytes) nat :=
  match o with Some k => delete k m | None => m end.

Lemma set_opt_lookup o i m k :
  set_opt o i m !! k = if decide (o = Some k) then Some i else m !! k.
Proof.
  destruct o as [k0|]; cbn; case_decide as H; try done.
  - injection H as ->. by rewrite lookup_insert_eq.
  - rewrite lookup_insert_ne; [done|]. congruence.
Qed.

Lemma del_opt_lookup o m k :
  del_opt o m !! k = if decide (o = Some k) then None else m !! k.
Proof.
  destruct o as [k0|]; cbn; case_decide as H; try done.
  - injection H as ->. by rewrite lookup_delete_eq.
  - rewrite lookup_delete_ne; [done|]. congruence.
Qed.

(** [m] maps exactly the keys that lineages have under [f] to the lineage that has them. *)
Definition indexed (f : Lineage -> option Key) (L : list Lineage) (m : gmap (list bytes) nat)
    : Prop :=
  forall k i, m !! k = Some i <-> exists l, L !! i = Some l /\ f l = Some k.

Lemma indexed_replace f L m i l l' :
  indexed f L m -> L !! i = Some l ->
  (forall k, f l' = Some k -> m !! k = None \/ m !! k = Some i) ->
  indexed f (<[i := l']> L) (set_opt (f l') i (del_opt (f l) m)).
Proof.
  intros Hx Hl Hk k j.
  assert (Hdel : del_opt (f l) m !! k = Some j <-> m !! k = Some j /\ f l <> Some k).
  { destruct (f l) as [k0|] eqn:E; cbn; [|naive_solver]. rewrite lookup_delete_Some. naive_solver. }
  assert (Hset : set_opt (f l') i (del_opt (f l) m) !! k = Some j <->
    (f l' = Some k /\ j = i) \/ (f l' <> Some k /\ m !! k = Some j /\ f l <> Some k)).
  { destruct (f l') as [k0|] eqn:E; cbn; [rewrite lookup_insert_Some|]; rewrite Hdel; naive_solver. }
  rewrite Hset. destruct (decide (i = j)) as [<-|Hne].
  - split.
    + intros [[Hf _]|(Hf & Hm & Hn)]; [exists l'; split; [|done]|].
      * apply list_lookup_insert_eq. by eapply lookup_lt_Some.
      * apply Hx in Hm as (l1 & Hl1 & Hf1). congruence.
    + intros (l1 & Hl1 & Hf1). rewrite list_lookup_insert_eq in Hl1 by (by eapply lookup_lt_Some).
      injection Hl1 as <-. by left.
  - rewrite list_lookup_insert_ne by done. split.
    + intros [[_ ->]|(_ & Hm & _)]; [done|]. by apply Hx.
    + intros (l1 & Hl1 & Hf1). right. assert (Hm : m !! k = Some j) by (apply Hx; eauto).
      split_and!; [|done|].
      * intros Hf. destruct (Hk _ Hf) as [H|H]; congruence.
      * intros Hf. assert (m !! k = Some i) by (apply Hx; eauto). congruence.
Qed.

Lemma indexed_snoc f L m l :
  indexed f L m -> (forall k, f l = Some k -> m !! k = None) ->
  indexed f (L ++ [l]) (set_opt (f l) (length L) m).
Proof.
  intros Hx Hk k j.
  assert (Hset : set_opt (f l) (length L) m !! k = Some j <->
    (f l = Some k /\ j = length L) \/ (f l <> Some k /\ m !! k = Some j)).
  { destruct (f l) as [k0|] eqn:E; cbn; [rewrite lookup_insert_Some|]; naive_solver. }
  rewrite Hset. split.
  - intros [[Hf ->]|[_ Hm]].
    + exists l. by rewrite list_lookup_middle.
    + apply Hx in Hm as (l1 & Hl1 & Hf1). exists l1. split; [|done].
      by apply lookup_app_l_Some.
  - intros (l1 & Hl1 & Hf1). apply lookup_app_Some in Hl1 as [Hl1|[Hge Hl1]].
    + right. assert (m !! k = Some j) by (apply Hx; eauto). split; [|done].
      intros Hf. specialize (Hk _ Hf). congruence.
    + left. apply list_lookup_singleton_Some in Hl1 as [Hz ->]. split; [done|lia].
Qed.

(** ** The invariant of the normalizer *)

Section invariant.
Context (schema : TableSchema) (pk : PrimaryKeyLayout).
Hypothesis (Hatt : NoDup (map col_attnum (ts_columns schema))).
Hypothesis (Hlay : layout_ok schema pk).
Context (S0 : Table).
Hypothesis (Hwf0 : wf_table schema S0).

Notation ncols := (length (ts_columns schema)).
Notation key_at := (key_at pk).

(** What one lineage stands for: a row of the batch-start table under its origin key, if it
    has one, that now is a row of the current table under its current key, if it is live. *)
Record lineage_ok (S : Table) (l : Lineage) : Prop := {
  lo_length : length (lineage_cells l) = ncols;
  lo_no_binary : forallb (fun c => negb (is_binary c)) (lineage_cells l) = true;
  lo_origin : forall k0, origin_key l = Some k0 -> is_Some (S0 !! k0);
  lo_key : forall k, current_key l = Some k -> key_at (lineage_cells l) k;
  lo_row : forall k, current_key l = Some k -> exists row, S !! k = Some row /\
    match origin_key l with
    | Some k0 => exists base, S0 !! k0 = Some base /\ row = overlay base (lineage_cells l)
    | None => row = lineage_cells l
    end;
  lo_moved : forall k0 k, origin_key l = Some k0 -> current_key l = Some k -> k0 <> k ->
    S0 !! k = None;
}.

Record inv (S : Table) (nz : Normalizer) : Prop := {
  inv_pk : nz_primary_key nz = pk;
  inv_wf : wf_table schema S;
  inv_origin : indexed origin_key (nz_lineages nz) (nz_origin_by_key nz);
  inv_current : indexed current_key (nz_lineages nz) (nz_current_by_key nz);
  inv_lineage : forall i l, nz_lineages nz !! i = Some l -> lineage_ok S l;
  inv_idle : forall k, nz_current_by_key nz !! k = None -> nz_origin_by_key nz !! k = None ->
    S !! k = S0 !! k;
  inv_left : forall k i, nz_current_by_key nz !! k = None -> nz_origin_by_key nz !! k = Some i ->
    S !! k = None;
  inv_new : forall k i, nz_current_by_key nz !! k = Some i -> nz_origin_by_key nz !! k = None ->
    S0 !! k = None;
  inv_sorted : Sorted Z.le (map first_sequence (nz_lineages nz));
  inv_bound : Forall (fun l => first_sequence l <= nz_sequence nz)%Z (nz_lineages nz);
  inv_seq : (nz_sequence nz <= u64_max)%Z;
}.

(** A row change touches one lineage; the others stand for the rows they stood for. *)
Lemma lineage_ok_other S S' l :
  lineage_ok S l -> (forall k, current_key l = Some k -> S' !! k = S !! k) -> lineage_ok S' l.
Proof. intros [] Heq. split; try done. intros k Hk. rewrite Heq by done. auto. Qed.

Lemma current_row S nz k i :
  inv S nz -> nz_current_by_key nz !! k = Some i ->
  exists l row, nz_lineages nz !! i = Some l /\ current_key l = Some k /\ S !! k = Some row /\
    lineage_ok S l.
Proof.
  intros Hi Hc. apply (inv_current _ _ Hi) in Hc as (l & Hl & Hk).
  pose proof (inv_lineage _ _ Hi _ _ Hl) as Hok. destruct (lo_row _ _ Hok _ Hk) as (row & Hr & _).
  eauto 10.
Qed.

(** Another lineage's current key is another key. *)
Lemma current_key_unique S nz i j l k k' :
  inv S nz -> nz_lineages nz !! j = Some l -> current_key l = Some k' ->
  nz_current_by_key nz !! k = Some i -> i <> j -> k' <> k.
Proof.
  intros Hi Hl Hk Hc Hne ->.
  assert (nz_current_by_key nz !! k = Some j) by (apply (inv_current _ _ Hi); eauto). congruence.
Qed.

Lemma wf_table_insert S k row :
  wf_table schema S -> length row = ncols -> forallb plain row = true -> key_of schema row k ->
  wf_table schema (<[k := row]> S).
Proof. intros Hw Hl Hp Hk k1 row1 [[<- <-]|[_ H]]%lookup_insert_Some; [done|by apply Hw]. Qed.

Lemma wf_table_delete S k : wf_table schema S -> wf_table schema (delete k S).
Proof. intros Hw k1 row1 [_ H]%lookup_delete_Some. by apply Hw. Qed.

Lemma wf_table_row_at S k row :
  wf_table schema S -> S !! k = Some row ->
  length row = ncols /\ forallb plain row = true /\ key_at row k.
Proof. intros Hw Hr. destruct (Hw _ _ Hr) as (? & ? & ?). split_and!; try done. by apply (key_of_at _ _ Hatt Hlay). Qed.

Lemma map_first_sequence_insert L i l l' :
  L !! i = Some l -> first_sequence l' = first_sequence l ->
  map first_sequence (<[i := l']> L) = map first_sequence L.
Proof.
  intros Hl Hs. change (first_sequence <$> <[i := l']> L = first_sequence <$> L).
  rewrite list_fmap_insert, Hs. apply list_insert_id. by rewrite list_lookup_fmap, Hl.
Qed.

Lemma Forall_insert_lineage (P : Lineage -> Prop) L i l l' :
  Forall P L -> L !! i = Some l -> P l' -> Forall P (<[i := l']> L).
Proof. intros HF Hl Hp. by apply Forall_insert. Qed.

Lemma sorted_snoc L l s :
  Sorted Z.le (map first_sequence L) -> Forall (fun l => first_sequence l <= s)%Z L ->
  first_sequence l = s -> Sorted Z.le (map first_sequence (L ++ [l])).
Proof.
  intros Hs Hb Hl. rewrite map_app. apply Sorted_snoc; [done|]. intros y Hy. cbn. rewrite Hl.
  apply last_Some_elem_of, list_elem_of_fmap in Hy as (x & -> & Hx).
  rewrite Forall_forall in Hb. auto.
Qed.

(** The source table once the row of lineage [l] is the row of lineage [l']. *)
Definition moved_table (S : Table) (l l' : Lineage) (row : list Cell) : Table :=
  let S := match current_key l with Some k => delete k S | None => S end in
  match current_key l' with Some k => <[k := row]> S | None => S end.

#[local] Arguments moved_table : simpl never.

Lemma moved_table_lookup S l l' row k :
  moved_table S l l' row !! k
  = if decide (current_key l' = Some k) then Some row
    else if decide (current_key l = Some k) then None else S !! k.
Proof.
  unfold moved_table.
  assert (Hd : forall T : Table, match current_key l with Some k => delete k T | None => T end !! k
    = if decide (current_key l = Some k) then None else T !! k).
  { intros T. destruct (current_key l) as [k1|]; case_decide as H; try done.
    - injection H as ->. by rewrite lookup_delete_eq.
    - rewrite lookup_delete_ne; [done|]. congruence. }
  destruct (current_key l') as [k'|]; [|by rewrite Hd].
  destruct (decide (Some k' = Some k)) as [[= ->]|H]; [by rewrite lookup_insert_eq|].
  rewrite lookup_insert_ne, Hd; [done|]. congruence.
Qed.

Definition replaced (nz : Normalizer) (i : nat) (l l' : Lineage) : Normalizer :=
  mkNormalizer (nz_primary_key nz) (<[i := l']> (nz_lineages nz))
    (set_opt (current_key l') i (del_opt (current_key l) (nz_current_by_key nz)))
    (nz_origin_by_key nz) (nz_sequence nz).

Lemma replaced_current nz i l l' k :
  nz_current_by_key (replaced nz i l l') !! k
  = if decide (current_key l' = Some k) then Some i
    else if decide (current_key l = Some k) then None else nz_current_by_key nz !! k.
Proof. cbn. by rewrite set_opt_lookup, del_opt_lookup. Qed.

(** Replacing a lineage by a successor with the same origin: an update, a move, the death
    of a row or its rebirth. *)
Lemma inv_replaced S nz i l l' row :
  inv S nz -> nz_lineages nz !! i = Some l ->
  origin_key l' = origin_key l -> first_sequence l' = first_sequence l ->
  (forall k, current_key l' = Some k -> S !! k = None \/ current_key l = Some k) ->
  lineage_ok (moved_table S l l' row) l' -> wf_table schema (moved_table S l l' row) ->
  inv (moved_table S l l' row) (replaced nz i l l').
Proof.
  intros Hi Hl Ho Hs Hfree Hok Hw.
  assert (Hcur : forall k, current_key l = Some k -> nz_current_by_key nz !! k = Some i)
    by (intros k Hk; apply (inv_current _ _ Hi); eauto).
  assert (Hown : forall k j, current_key l' = Some k -> nz_current_by_key nz !! k = Some j -> j = i).
  { intros k j Hk Hj. destruct (current_row _ _ _ _ Hi Hj) as (l1 & r & Hl1 & Hk1 & Hr & _).
    destruct (Hfree _ Hk) as [Hn|Hn]; [congruence|]. specialize (Hcur _ Hn). congruence. }
  split; try apply Hi; try done.
  - cbn. intros k j. rewrite (inv_origin _ _ Hi k j). destruct (decide (i = j)) as [<-|Hne].
    + rewrite list_lookup_insert_eq by (by eapply lookup_lt_Some). rewrite Hl.
      split; intros (l1 & [= <-] & Hk); eexists; (split; [done|]); congruence.
    + by rewrite list_lookup_insert_ne.
  - cbn. apply indexed_replace; [apply Hi|done|]. intros k Hk.
    destruct (nz_current_by_key nz !! k) as [j|] eqn:Hj; [|by left]. right. f_equal. by eapply Hown.
  - cbn. intros j l1 Hl1. destruct (decide (i = j)) as [<-|Hne].
    + rewrite list_lookup_insert_eq in Hl1 by (by eapply lookup_lt_Some). by injection Hl1 as <-.
    + rewrite list_lookup_insert_ne in Hl1 by done.
      apply (lineage_ok_other S); [by eapply inv_lineage|]. intros k Hk.
      rewrite moved_table_lookup. assert (Hj : nz_current_by_key nz !! k = Some j)
        by (apply (inv_current _ _ Hi); eauto).
      rewrite !decide_False; [done| |]; intros Hk'.
      * specialize (Hcur _ Hk'). congruence.
      * apply Hne. symmetry. by eapply Hown.
  - intros k. rewrite replaced_current, moved_table_lookup. repeat case_decide; try done.
    + intros _ Hn. symmetry. eapply inv_new; eauto.
    + apply Hi.
  - intros k j. rewrite replaced_current, moved_table_lookup. repeat case_decide; try done.
    by apply (inv_left _ _ Hi).
  - intros k j. rewrite replaced_current. cbn. case_decide as Hk; [|case_decide; [done|apply Hi]].
    intros _ Hn. destruct (Hfree _ Hk) as [HS|Hk1]; [|eapply inv_new; eauto].
    rewrite <-(inv_idle _ _ Hi k); [done| |done].
    destruct (nz_current_by_key nz !! k) as [j'|] eqn:Hj; [|done].
    destruct (current_row _ _ _ _ Hi Hj) as (_ & r & _ & _ & Hr & _). congruence.
  - cbn. rewrite (map_first_sequence_insert _ _ l) by done. apply Hi.
  - cbn. eapply Forall_insert_lineage; [apply Hi|done|]. rewrite Hs.
    pose proof (inv_bound _ _ Hi) as HF. rewrite Forall_forall in HF. apply HF.
    by eapply list_elem_of_lookup_2.
Qed.

Definition appended (nz : Normalizer) (l : Lineage) : Normalizer :=
  mkNormalizer (nz_primary_key nz) (nz_lineages nz ++ [l])
    (set_opt (current_key l) (length (nz_lineages nz)) (nz_current_by_key nz))
    (set_opt (origin_key l) (length (nz_lineages nz)) (nz_origin_by_key nz)) (nz_sequence nz).

(** A new lineage for a row the batch has not touched yet. *)
Lemma inv_baseline S nz k row out s :
  inv S nz -> nz_current_by_key nz !! k = None -> nz_origin_by_key nz !! k = None ->
  S !! k = Some row -> length out = ncols -> key_at out k ->
  (forall i c, i ∉ ordinal_indexes pk -> out !! i = Some c -> c = UnchangedToast) ->
  Forall (fun l => first_sequence l <= s)%Z (nz_lineages nz) -> (s <= nz_sequence nz)%Z ->
  inv S (appended nz (mkLineage (Some k) (Some k) out s)).
Proof.
  intros Hi Hc Ho Hr Hl Hk Hrest Hb Hs.
  destruct (wf_table_row_at _ _ _ (inv_wf _ _ Hi) Hr) as (Hlr & Hpr & Hkr).
  pose proof (inv_idle _ _ Hi k Hc Ho) as H0. rewrite Hr in H0. symmetry in H0.
  assert (Hov : overlay row out = row) by (apply (overlay_baseline pk row out k); [congruence|done..]).
  split; try apply Hi; cbn.
  - apply (indexed_snoc origin_key _ _ (mkLineage (Some k) (Some k) out s)); [apply Hi|].
    by intros k1 [= <-].
  - apply (indexed_snoc current_key _ _ (mkLineage (Some k) (Some k) out s)); [apply Hi|].
    by intros k1 [= <-].
  - intros i l [Hl1|[Hge Hl1]]%lookup_app_Some; [by eapply inv_lineage|].
    apply list_lookup_singleton_Some in Hl1 as [_ <-]. split; cbn; [done| |by intros k0 [= <-]|
      by intros k0 [= <-]| |by intros k0 k1 [= <-] [= <-]].
    + apply forallb_forall. intros c Hcin. apply list_elem_of_In, list_elem_of_lookup in Hcin as [j Hj].
      destruct (decide (j ∈ ordinal_indexes pk)) as [Hin|Hin]; [|by rewrite (Hrest j c Hin Hj)].
      apply list_elem_of_lookup in Hin as [p Hp].
      destruct (Forall2_lookup_l _ _ _ _ _ Hk Hp) as (v & _ & Hv). rewrite Hj in Hv.
      by injection Hv as ->.
    + intros k1 [= <-]. exists row. split; [done|]. exists row. by rewrite Hov.
  - intros k1. rewrite !lookup_insert_None. intros [H1 _] [H2 _]. by apply Hi.
  - intros k1 i. rewrite lookup_insert_None, lookup_insert_Some. intros [H1 Hne] [[? _]|[_ H2]]; [done|].
    by eapply inv_left.
  - intros k1 i. rewrite lookup_insert_None, lookup_insert_Some. intros [[? _]|[_ H1]] [H2 Hne]; [done|].
    by eapply inv_new.
  - eapply sorted_snoc; [apply Hi|exact Hb|done].
  - apply Forall_app. split; [apply Hi|]. by constructor.
Qed.

(** A new lineage for a row that did not exist. *)
Lemma inv_inserted S nz k row s :
  inv S nz -> S !! k = None -> length row = ncols -> forallb plain row = true -> key_at row k ->
  Forall (fun l => first_sequence l <= s)%Z (nz_lineages nz) -> (s <= nz_sequence nz)%Z ->
  inv (<[k := row]> S) (appended nz (mkLineage None (Some k) row s)).
Proof.
  intros Hi Hn Hl Hp Hk Hb Hs.
  assert (Hc : nz_current_by_key nz !! k = None).
  { destruct (nz_current_by_key nz !! k) as [j|] eqn:Hj; [|done].
    destruct (current_row _ _ _ _ Hi Hj) as (_ & r & _ & _ & Hr & _). congruence. }
  split; try apply Hi; cbn.
  - apply wf_table_insert; [apply Hi|done|done|]. by apply (key_of_at _ _ Hatt Hlay).
  - intros k1 j. rewrite (inv_origin _ _ Hi k1 j). split.
    + intros (l & Hl1 & Hk1). exists l. split; [by apply lookup_app_l_Some|done].
    + intros (l & [Hl1|[_ Hl1]]%lookup_app_Some & Hk1); [by eauto|].
      apply list_lookup_singleton_Some in Hl1 as [_ <-]. done.
  - apply (indexed_snoc current_key _ _ (mkLineage None (Some k) row s)); [apply Hi|].
    by intros k1 [= <-].
  - intros i l [Hl1|[Hge Hl1]]%lookup_app_Some.
    + apply (lineage_ok_other S); [by eapply inv_lineage|]. intros k1 Hk1.
      apply lookup_insert_ne. intros <-. assert (nz_current_by_key nz !! k = Some i)
        by (apply (inv_current _ _ Hi); eauto). congruence.
    + apply list_lookup_singleton_Some in Hl1 as [_ <-]. split; cbn; [done|by apply plain_no_binary|
        done|by intros k1 [= <-]| |done].
      intros k1 [= <-]. exists row. by rewrite lookup_insert_eq.
  - intros k1. rewrite lookup_insert_None. intros [H1 Hne] H2. rewrite lookup_insert_ne by done.
    by apply Hi.
  - intros k1 i. rewrite lookup_insert_None. intros [H1 Hne] H2. rewrite lookup_insert_ne by done.
    by eapply inv_left.
  - intros k1 i. rewrite lookup_insert_Some. intros [[<- _]|[_ H1]] H2; [|by eapply inv_new].
    by rewrite <-(inv_idle _ _ Hi k Hc H2).
  - eapply sorted_snoc; [apply Hi|exact Hb|done].
  - apply Forall_app. split; [apply Hi|]. by constructor.
Qed.

Definition seq_ok (nz : Normalizer) (s : Z) : Prop :=
  Forall (fun l => first_sequence l <= s)%Z (nz_lineages nz) /\ (s <= nz_sequence nz)%Z.

Lemma current_None S nz k : inv S nz -> S !! k = None -> nz_current_by_key nz !! k = None.
Proof.
  intros Hi Hn. destruct (nz_current_by_key nz !! k) as [j|] eqn:Hj; [|done].
  destruct (current_row _ _ _ _ Hi Hj) as (_ & r & _ & _ & Hr & _). congruence.
Qed.

Lemma validate_new_tuple_Ok new kind :
  length (cells new) = ncols -> forallb (fun c => negb (is_binary c)) (cells new) = true ->
  validate_new_tuple schema new kind = Ok tt.
Proof.
  intros Hl Hb. unfold validate_new_tuple. rewrite len_eqb, bool_decide_true by done. cbn.
  by rewrite no_binary_position.
Qed.

Lemma insert_refines S nz new k s :
  inv S nz -> seq_ok nz s -> length (cells new) = ncols -> forallb plain (cells new) = true ->
  key_of schema (cells new) k -> S !! k = None ->
  exists nz', normalizer_insert schema nz new s = Ok nz' /\ inv (<[k := cells new]> S) nz'.
Proof.
  intros Hi [Hb Hs] Hl Hp Hk Hn. apply (key_of_at _ _ Hatt Hlay) in Hk.
  unfold normalizer_insert.
  rewrite validate_new_tuple_Ok by (done || by apply plain_no_binary). cbn [mbind result_bind].
  rewrite plain_no_toast by done. rewrite (inv_pk _ _ Hi).
  rewrite (key_from_cells_Ok _ _ _ k) by done. cbn [mbind result_bind].
  rewrite (current_None _ _ _ Hi Hn).
  assert (Hnew : exists nz', Ok (mkNormalizer (nz_primary_key nz)
      (nz_lineages nz ++ [mkLineage None (Some k) (cells new) s])
      (<[k:=length (nz_lineages nz)]> (nz_current_by_key nz)) (nz_origin_by_key nz)
      (nz_sequence nz)) = Ok (E := NormalizeError) nz' /\ inv (<[k:=cells new]> S) nz').
  { eexists. split; [reflexivity|]. by apply (inv_inserted S nz k (cells new) s). }
  rewrite (inv_pk _ _ Hi) in Hnew.
  destruct (nz_origin_by_key nz !! k) as [i|] eqn:Ho; [|exact Hnew].
  pose proof (proj1 (inv_origin _ _ Hi k i) Ho) as (l & Hll & Hlo). rewrite Hll. cbn.
  destruct (current_key l) as [kc|] eqn:Hcl; [exact Hnew|].
  eexists. split; [reflexivity|].
  set (l' := mkLineage (origin_key l) (Some k) (cells new) (first_sequence l)).
  assert (Hrep : inv (moved_table S l l' (cells new)) (replaced nz i l l')).
  { apply inv_replaced; try done.
    - intros k1 [= <-]. by left.
    - destruct (inv_lineage _ _ Hi _ _ Hll) as [? ? Horg _ _ _].
      split; cbn; [done|by apply plain_no_binary|done|by intros k1 [= <-]| |].
      + intros k1 [= <-]. exists (cells new). rewrite moved_table_lookup, decide_True by done.
        split; [done|]. rewrite Hlo. destruct (Horg _ Hlo) as [base Hbase].
        exists base. split; [done|]. symmetry. apply overlay_full; [|done].
        destruct (wf_table_row_at _ _ _ Hwf0 Hbase) as (-> & _). done.
      + intros k0 k1 Hk0 [= <-]. rewrite Hlo in Hk0. by injection Hk0 as <-.
    - unfold moved_table. rewrite Hcl. cbn. apply wf_table_insert; [apply Hi|done|done|].
      by apply (key_of_at _ _ Hatt Hlay). }
  unfold moved_table, replaced in Hrep. rewrite Hcl in Hrep. cbn in Hrep.
  by rewrite (inv_pk _ _ Hi) in Hrep.
Qed.

(** The lineage of a row of the current table, live already or new. *)
Lemma live_lineage_Ok S nz k row s :
  inv S nz -> seq_ok nz s -> S !! k = Some row ->
  exists i nz' l, live_lineage schema nz k s = Ok (i, nz') /\ inv S nz' /\
    nz_lineages nz' !! i = Some l /\ current_key l = Some k /\ lineage_ok S l /\
    nz_current_by_key nz' !! k = Some i.
Proof.
  intros Hi [Hb Hs] Hr. unfold live_lineage.
  destruct (nz_current_by_key nz !! k) as [i|] eqn:Hc.
  { destruct (current_row _ _ _ _ Hi Hc) as (l & r & Hl & Hk & _ & Hok). eauto 10. }
  destruct (nz_origin_by_key nz !! k) as [i|] eqn:Ho.
  { by rewrite (inv_left _ _ Hi _ _ Hc Ho) in Hr. }
  destruct (wf_table_row_at _ _ _ (inv_wf _ _ Hi) Hr) as (_ & _ & Hk).
  destruct (write_key_Ok schema pk Hlay k) as (out & Hw & Hlo & Hko & Hrest).
  { symmetry. by eapply Forall2_length. }
  unfold new_baseline. rewrite (inv_pk _ _ Hi), Hw. cbn.
  pose proof (inv_baseline _ _ _ _ _ s Hi Hc Ho Hr Hlo Hko Hrest Hb Hs) as Hi'.
  unfold appended in Hi'. cbn in Hi'. rewrite (inv_pk _ _ Hi) in Hi'.
  eexists _, _, _. split; [reflexivity|]. split; [exact Hi'|].
  assert (Hl : nz_lineages (mkNormalizer pk (nz_lineages nz ++ [mkLineage (Some k) (Some k) out s])
    (<[k:=length (nz_lineages nz)]> (nz_current_by_key nz))
    (<[k:=length (nz_lineages nz)]> (nz_origin_by_key nz)) (nz_sequence nz))
    !! length (nz_lineages nz) = Some (mkLineage (Some k) (Some k) out s))
    by (cbn; by rewrite list_lookup_middle).
  split; [exact Hl|]. split; [done|]. split; [by eapply (inv_lineage _ _ Hi')|].
  cbn. by rewrite lookup_insert_eq.
Qed.

(** The cells of a live lineage after an update, and the row they stand for. *)
Lemma lineage_ok_overlay S l new k k' row :
  wf_table schema S -> lineage_ok S l -> current_key l = Some k -> S !! k = Some row ->
  length (cells new) = ncols -> forallb (fun c => negb (is_binary c)) (cells new) = true ->
  key_at (overlay row (cells new)) k' ->
  (k' = k \/ S !! k' = None) ->
  (k' <> k -> forall k0, origin_key l = Some k0 -> k0 <> k' -> S0 !! k' = None) ->
  let l' := mkLineage (origin_key l) (Some k') (overlay (lineage_cells l) (cells new))
              (first_sequence l) in
  key_at (lineage_cells l') k' /\
  lineage_ok (moved_table S l l' (overlay row (cells new))) l' /\
  wf_table schema (moved_table S l l' (overlay row (cells new))).
Proof.
  intros Hw Hok Hk Hr Hln Hnb Hk' Hfree Hnew l'.
  destruct (wf_table_row_at _ _ _ Hw Hr) as (Hlr & Hpr & Hkr).
  destruct Hok as [Hl Hlb Horg Hkey Hrow Hmoved].
  assert (Hkey' : key_at (lineage_cells l') k').
  { apply (overlay_key pk row _ _ k k'); cbn; try congruence; auto. }
  split; [exact Hkey'|]. split.
  - split; [cbn; rewrite overlay_length; congruence| |exact Horg| | |].
    + cbn. apply overlay_no_binary; [congruence|done..].
    + cbn. by intros k1 [= <-].
    + cbn. intros k1 [= <-]. rewrite moved_table_lookup, decide_True by done.
      eexists. split; [done|]. destruct (Hrow _ Hk) as (r & Hr' & Hm). rewrite Hr in Hr'.
      injection Hr' as <-. destruct (origin_key l) as [k0|]; [|by rewrite Hm].
      destruct Hm as (base & Hbase & ->). exists base. split; [done|].
      destruct (wf_table_row_at _ _ _ Hwf0 Hbase) as (Hlb0 & _).
      apply overlay_assoc; congruence.
    + cbn. intros k0 k1 Hk0 [= <-] Hne. destruct (decide (k' = k)) as [->|Hkk]; [by eapply Hmoved|].
      by eapply Hnew.
  - unfold moved_table. rewrite Hk. cbn. apply wf_table_insert; [by apply wf_table_delete| | |].
    + rewrite overlay_length; congruence.
    + apply overlay_plain; [congruence|done..].
    + by apply (key_of_at _ _ Hatt Hlay).
Qed.

(** The one limitation of the normalizer: a row moves to a key that another row had when
    the batch began. *)
Definition reuse_error : NormalizeError :=
  AmbiguousSequence "primary-key update reuses another batch-start key".

(** Either the change is folded in, or it moves a row onto another batch-start key. *)
Definition folded (S' : Table) (moves : Prop) (r : result NormalizeError Normalizer) : Prop :=
  match r with
  | Ok nz' => inv S' nz'
  | Err e => e = reuse_error /\ moves
  | Panic => False
  end.

Lemma move_lineage_refines S nz i l l' k k' row :
  inv S nz -> nz_lineages nz !! i = Some l -> current_key l = Some k ->
  origin_key l' = origin_key l -> first_sequence l' = first_sequence l ->
  nz_current_by_key nz !! k = Some i -> (k' = k \/ S !! k' = None) ->
  let l'' := mkLineage (origin_key l) (Some k') (lineage_cells l') (first_sequence l) in
  ((k' <> k -> forall k0, origin_key l = Some k0 -> k0 <> k' -> S0 !! k' = None) ->
   lineage_ok (moved_table S l l'' row) l'' /\ wf_table schema (moved_table S l l'' row)) ->
  current_key l' = Some k ->
  folded (<[k' := row]> (delete k S)) (k' <> k)
    (move_lineage (mkNormalizer pk (<[i := l']> (nz_lineages nz)) (nz_current_by_key nz)
                     (nz_origin_by_key nz) (nz_sequence nz)) i l' k k').
Proof.
  intros Hi Hl Hk Ho Hs Hc Hfree l'' Hok Hk'.
  assert (Hrep : (k' <> k -> forall k0, origin_key l = Some k0 -> k0 <> k' -> S0 !! k' = None) ->
    inv (<[k' := row]> (delete k S)) (replaced nz i l l'')).
  { intros Hnew. destruct (Hok Hnew) as [Hok1 Hok2].
    assert (Hm : moved_table S l l'' row = <[k' := row]> (delete k S))
      by (unfold moved_table; by rewrite Hk).
    rewrite <-Hm. apply inv_replaced; try done. intros k1 [= <-]. destruct Hfree as [->|]; auto. }
  unfold move_lineage. cbn [nz_current_by_key nz_origin_by_key nz_lineages nz_primary_key nz_sequence].
  case_bool_decide as Hne.
  - assert (Hn : nz_current_by_key nz !! k' = None)
      by (eapply current_None; [done|]; by destruct Hfree).
    rewrite Hn.
    destruct (nz_origin_by_key nz !! k') as [j|] eqn:Hj; [case_bool_decide as Hji; [by split|]|].
    + subst j. apply (inv_origin _ _ Hi) in Hj as (l1 & Hl1 & Ho1).
      rewrite Hl in Hl1. injection Hl1 as <-.
      assert (Hr : inv (<[k' := row]> (delete k S)) (replaced nz i l l''))
        by (apply Hrep; intros _ k0 Hk0 Hne0; congruence).
      unfold replaced in Hr. rewrite Hk in Hr. cbn in Hr. rewrite (inv_pk _ _ Hi) in Hr.
      cbn. rewrite list_insert_insert_eq, Ho, Hs. exact Hr.
    + assert (Hr : inv (<[k' := row]> (delete k S)) (replaced nz i l l'')).
      { apply Hrep. intros _ _ _ _. rewrite <-(inv_idle _ _ Hi k' Hn Hj). by destruct Hfree. }
      unfold replaced in Hr. rewrite Hk in Hr. cbn in Hr. rewrite (inv_pk _ _ Hi) in Hr.
      cbn. rewrite list_insert_insert_eq, Ho, Hs. exact Hr.
  - subst k'. cbn.
    assert (Hr : inv (<[k := row]> (delete k S)) (replaced nz i l l'')) by (apply Hrep; done).
    unfold replaced in Hr. rewrite Hk in Hr. cbn in Hr. rewrite (inv_pk _ _ Hi) in Hr.
    rewrite (insert_delete_eq (nz_current_by_key nz)),
      (insert_id (nz_current_by_key nz) k i) in Hr by done.
    destruct l' as [o1 c1 cs1 s1]. cbn in *. subst. exact Hr.
Qed.

Lemma update_refines S nz old new k k' row s :
  inv S nz -> seq_ok nz s -> S !! k = Some row -> length (cells new) = ncols ->
  forallb (fun c => negb (is_binary c)) (cells new) = true ->
  match old with Some old => names_key schema old k | None => key_of schema (cells new) k end ->
  key_of schema (overlay row (cells new)) k' -> (k' = k \/ S !! k' = None) ->
  folded (<[k' := overlay row (cells new)]> (delete k S)) (k' <> k)
    (normalizer_update schema nz old new s).
Proof.
  intros Hi Hs Hr Hln Hnb Hold Hk' Hfree. apply (key_of_at _ _ Hatt Hlay) in Hk'.
  destruct (wf_table_row_at _ _ _ (inv_wf _ _ Hi) Hr) as (Hlr & _ & Hkr).
  unfold normalizer_update. rewrite validate_new_tuple_Ok by done. cbn [mbind result_bind].
  rewrite (inv_pk _ _ Hi).
  assert (Hok : exists ok, match old with
      | Some tuple => let? key := key_from_old_tuple schema pk tuple in Ok (Some key)
      | None => Ok None end = Ok (E := NormalizeError) ok /\
      (ok = None -> key_at (cells new) k) /\ (ok = None \/ ok = Some k)).
  { destruct old as [old|].
    - exists (Some k). rewrite (key_from_old_tuple_Ok _ _ Hatt Hlay old k Hold).
      split; [done|]. split; [done|by right].
    - exists None. split; [done|]. split; [|by left]. intros _. by apply (key_of_at _ _ Hatt Hlay). }
  destruct Hok as (ok & Hokm & Hoka & Hokb). rewrite Hokm. cbn [mbind result_bind].
  destruct (key_from_update_tuple_Ok schema pk new ok row k k') as (nk & Hnk & Hnk');
    [congruence|done..|].
  rewrite Hnk. cbn [mbind result_bind].
  assert (Hlook : default nk ok = k) by (destruct Hokb as [->| ->]; [by apply Hnk'|done]).
  rewrite Hlook.
  destruct (live_lineage_Ok S nz k row s Hi Hs Hr) as (i & nz1 & l & Hll & Hi1 & Hl & Hkl & Hlok & Hc).
  rewrite Hll. cbn [mbind result_bind]. rewrite Hl. cbn [expect mbind result_bind].
  rewrite (inv_pk _ _ Hi1).
  pose proof (lineage_ok_overlay S l new k k' row (inv_wf _ _ Hi1) Hlok Hkl Hr Hln Hnb Hk' Hfree)
    as Hov. cbv zeta in Hov.
  assert (Hfinal : key_at (overlay (lineage_cells l) (cells new)) k').
  { apply (overlay_key pk row _ _ k k'); [congruence| |done| |done].
    - rewrite (lo_length _ _ Hlok). congruence.
    - by apply (lo_key _ _ Hlok). }
  cbn [nz_primary_key lineage_cells current_key].
  rewrite (key_from_cells_Ok _ _ _ k') by exact Hfinal. cbn [mbind result_bind].
  rewrite Hkl. cbn [expect mbind result_bind].
  apply (move_lineage_refines S nz1 i l); try done. cbv zeta. cbn. intros Hnew.
  by destruct (Hov Hnew) as (_ & ? & ?).
Qed.

Lemma delete_refines S nz old k row s :
  inv S nz -> seq_ok nz s -> names_key schema old k -> S !! k = Some row ->
  exists nz', normalizer_delete schema nz old s = Ok nz' /\ inv (delete k S) nz'.
Proof.
  intros Hi Hs Hold Hr. unfold normalizer_delete. rewrite (inv_pk _ _ Hi).
  rewrite (key_from_old_tuple_Ok _ _ Hatt Hlay old k Hold). cbn [mbind result_bind].
  assert (Hdead : forall nz1 i l, inv S nz1 -> nz_lineages nz1 !! i = Some l ->
    current_key l = Some k -> lineage_ok S l ->
    inv (delete k S) (mkNormalizer pk
      (<[i := mkLineage (origin_key l) None (lineage_cells l) (first_sequence l)]> (nz_lineages nz1))
      (delete k (nz_current_by_key nz1)) (nz_origin_by_key nz1) (nz_sequence nz1))).
  { intros nz1 i l Hi1 Hl Hk Hlok.
    set (l' := mkLineage (origin_key l) None (lineage_cells l) (first_sequence l)).
    assert (Hm : moved_table S l l' row = delete k S) by (unfold moved_table; by rewrite Hk).
    assert (Hrep : inv (moved_table S l l' row) (replaced nz1 i l l')).
    { apply inv_replaced; try done.
      - destruct Hlok. by split.
      - rewrite Hm. apply wf_table_delete, Hi1. }
    rewrite Hm in Hrep. unfold replaced in Hrep. rewrite Hk, (inv_pk _ _ Hi1) in Hrep. exact Hrep. }
  destruct (live_lineage_Ok S nz k row s Hi Hs Hr) as (i & nz1 & l & Hll & Hi1 & Hl & Hkl & Hlok & Hc).
  specialize (Hdead nz1 i l Hi1 Hl Hkl Hlok). unfold live_lineage in Hll.
  destruct (nz_current_by_key nz !! k) as [i'|] eqn:Hcur.
  { injection Hll as -> <-. cbn. rewrite Hl. cbn. eauto. }
  destruct (nz_origin_by_key nz !! k); [done|].
  unfold new_baseline in *. rewrite (inv_pk _ _ Hi) in *.
  destruct (write_key pk (unchanged_cells schema) k) as [out| |]; [|done..].
  cbn in Hll |- *. injection Hll as <- <-. cbn in *.
  rewrite list_lookup_middle in Hl by done. injection Hl as <-.
  rewrite list_lookup_middle by done. cbn. eexists. split; [reflexivity|].
  rewrite delete_insert_id in Hdead by done.
  rewrite !insert_app_r_alt in Hdead |- * by lia. rewrite Nat.sub_diag in *. exact Hdead.
Qed.

Lemma inv_next_sequence S nz :
  inv S nz ->
  inv S (mkNormalizer (nz_primary_key nz) (nz_lineages nz) (nz_current_by_key nz)
           (nz_origin_by_key nz) (saturating_add (nz_sequence nz) 1)) /\
  seq_ok (mkNormalizer (nz_primary_key nz) (nz_lineages nz) (nz_current_by_key nz)
           (nz_origin_by_key nz) (saturating_add (nz_sequence nz) 1)) (nz_sequence nz).
Proof.
  intros Hi. pose proof (inv_seq _ _ Hi) as Hs.
  assert (Hle : (nz_sequence nz <= saturating_add (nz_sequence nz) 1 <= u64_max)%Z)
    by (unfold saturating_add; lia).
  split; [|split; [apply Hi|cbn; lia]].
  split; try apply Hi; cbn; [|lia].
  eapply Forall_impl; [apply Hi|]. intros l Hl. cbn in Hl. lia.
Qed.

(** The update carries the old key, as pgoutput sends it when the key changed. *)
Definition carries_old_key (c : RowChange) : Prop :=
  match c with Update (Some _) _ => True | _ => False end.

Lemma push_refines S nz change S' :
  inv S nz -> source_step schema S (tc_change change) S' ->
  tc_relation_id change = ts_relation_id schema ->
  tc_generation change = ts_generation schema ->
  folded S' (carries_old_key (tc_change change)) (normalizer_push schema nz change).
Proof.
  intros Hi Hstep Hrel Hgen. unfold normalizer_push. rewrite Hrel, Hgen, !Z.eqb_refl. cbn [negb].
  destruct (inv_next_sequence _ _ Hi) as [Hi' Hs]. cbv zeta.
  inversion Hstep as [new k Hl Hp Hk Hn Heq|old new k k' row Hr Hl Hb Ho Hk' Hf Heq|
    old k row Ho Hr Heq]; subst.
  - destruct (insert_refines _ _ _ _ _ Hi' Hs Hl Hp Hk Hn) as (nz' & -> & ?). done.
  - pose proof (update_refines _ _ _ _ _ _ _ _ Hi' Hs Hr Hl Hb Ho Hk' Hf) as Hup.
    destruct (normalizer_update _ _ _ _ _) as [nz'|e|]; [done| |done]. destruct Hup as [-> Hmv].
    split; [done|]. destruct old as [old|]; cbn; [done|]. apply Hmv.
    apply (key_of_at _ _ Hatt Hlay) in Hk', Ho.
    destruct (wf_table_row_at _ _ _ (inv_wf _ _ Hi) Hr) as (Hlr & _ & Hkr).
    apply (key_at_fun pk (overlay row (cells new))); [done|].
    unfold Fold.key_at in *. eapply Forall2_impl; [exact Ho|]. intros i v Hv. cbn in Hv.
    rewrite overlay_lookup by congruence. by rewrite Hv.
  - destruct (delete_refines _ _ _ _ _ _ Hi' Hs Ho Hr) as (nz' & -> & ?). done.
Qed.

Lemma run_refines S nz changes S' :
  inv S nz -> source_run schema S changes S' ->
  folded S' (Exists (fun c => carries_old_key (tc_change c)) changes)
    (foldM (normalizer_push schema) nz changes).
Proof.
  intros Hi Hrun. revert nz Hi. induction Hrun as [S|S c S1 cs S2 Hstep Hrel Hgen _ IH]; intros nz Hi.
  - exact Hi.
  - pose proof (push_refines _ _ _ _ Hi Hstep Hrel Hgen) as Hp. cbn [foldM].
    destruct (normalizer_push schema nz c) as [nz'|e|]; cbn in *; [|naive_solver|done].
    specialize (IH nz' Hp). destruct (foldM _ _ cs); cbn in *; [done|naive_solver|done].
Qed.

Lemma inv_initial : inv S0 (mkNormalizer pk [] ∅ ∅ 0).
Proof.
  split; cbn; try done; try (intros k i; by rewrite lookup_empty); try by constructor.
  - intros k i. rewrite lookup_empty. split; [done|]. by intros (l & ? & _).
  - intros k i. rewrite lookup_empty. split; [done|]. by intros (l & ? & _).
Qed.

Lemma inv_sorted_lineages S nz :
  inv S nz -> sort_by_key first_sequence (nz_lineages nz) = nz_lineages nz.
Proof.
  intros Hi. apply sort_by_key_id. pose proof (inv_sorted _ _ Hi) as Hs.
  induction (nz_lineages nz) as [|l L IH]; [constructor|]. cbn in Hs.
  inversion Hs as [|? ? Hs' Hh]; subst. constructor; [by apply IH|].
  destruct L as [|l' L]; constructor. cbn in Hh. by inversion Hh.
Qed.
End invariant.
