(* ===== verification/Refine.v ===== *)
(** * The staged apply reproduces the source: the apply half

    Continues [Fold]: the staging rows that the normalizer ends with pass the validation of
    the apply plan, and its statements turn the batch-start table into the current one. *)

From S2P Require Import Prelude Core Schema Change Batch Sql Copy TargetSchema Checkpoint Apply Normalize Fold.

(** ** Generic lemmas *)

Lemma NoDup_omap_index {A B} (h : A -> option B) (L : list A) :
  (forall i j x y k, L !! i = Some x -> L !! j = Some y -> h x = Some k -> h y = Some k -> i = j) ->
  NoDup (omap h L).
Proof.
  induction L as [|x L IH]; intros H; cbn; [constructor|].
  assert (IH' : NoDup (omap h L)).
  { apply IH. intros i j a b k Ha Hb Hha Hhb. by injection (H (S i) (S j) a b k Ha Hb Hha Hhb). }
  unfold omap in IH'. destruct (h x) as [k|] eqn:Hx; [|done]. apply NoDup_cons. split; [|done].
  intros (y & Hy & Hk)%list_elem_of_omap. apply list_elem_of_lookup in Hy as [j Hj].
  by specialize (H 0%nat (S j) x y k eq_refl Hj Hx Hk).
Qed.

Lemma omap_omap {A B C} (f : B -> option C) (g : A -> option B) (L : list A) :
  omap f (omap g L) = omap (fun x => g x ≫= f) L.
Proof.
  induction L as [|x L IH]; cbn; [done|]. unfold omap in *.
  destruct (g x) as [y|]; cbn; [destruct (f y)|]; by rewrite IH.
Qed.

Lemma omap_filter {A B} (f : A -> option B) (p : A -> bool) (L : list A) :
  omap f (List.filter p L) = omap (fun x => if p x then f x else None) L.
Proof.
  induction L as [|x L IH]; cbn; [done|]. unfold omap in *.
  destruct (p x); cbn; [destruct (f x)|]; by rewrite IH.
Qed.

Lemma try_map_pure {E A B} (f : A -> result E B) (g : A -> B) l :
  (forall x, x ∈ l -> f x = Ok (g x)) -> try_map f l = Ok (map g l).
Proof.
  intros H. apply try_map_Ok. change (map g l) with (g <$> l).
  apply Forall2_fmap_r, Forall_Forall2_diag, Forall_forall. exact H.
Qed.

(** Rows that a statement selects, keyed by the staging row's key. *)
Lemma NoDup_selected {A B} (key : A -> option Key) (g : A -> option (Key * B)) (p : A -> bool) l :
  (forall s x, g s = Some x -> key s = Some x.1) -> NoDup (omap key l) ->
  NoDup (omap g (List.filter p l)).*1.
Proof.
  intros Hg. rewrite omap_filter. induction l as [|s l IH]; cbn; [constructor|].
  unfold omap in *. intros Hnd.
  assert (Hnd' : NoDup (list_omap _ _ key l)).
  { destruct (key s); [by apply NoDup_cons in Hnd as [_ ?]|done]. }
  specialize (IH Hnd'). destruct (p s); [|done]. destruct (g s) as [x|] eqn:Hgs; [|done].
  rewrite (Hg _ _ Hgs) in Hnd. apply NoDup_cons in Hnd as [Hni _]. cbn. apply NoDup_cons.
  split; [|done]. intros (y & Hy & Hin)%list_elem_of_fmap. apply Hni.
  apply list_elem_of_omap in Hin as (s' & Hs' & Hgy). apply list_elem_of_omap. exists s'.
  split; [done|]. destruct (p s'); [|done]. rewrite (Hg _ _ Hgy). by f_equal.
Qed.

Lemma insert_rows_Ok T rows :
  NoDup rows.*1 -> (forall k, k ∈ rows.*1 -> T !! k = None) ->
  exists T', insert_rows T rows = Ok T' /\
    forall k, T' !! k = match (list_to_map rows : Table) !! k with Some r => Some r | None => T !! k end.
Proof.
  revert T. induction rows as [|[k r] rows IH]; intros T Hnd Hf; cbn.
  - exists T. split; [done|]. intros k. by rewrite lookup_empty.
  - cbn in Hnd. apply NoDup_cons in Hnd as [Hni Hnd]. rewrite Hf by (cbn; left).
    destruct (IH (<[k := r]> T) Hnd) as (T' & Hi & Hl).
    { intros k1 Hk1. rewrite lookup_insert_ne; [|by intros ->]. apply Hf. cbn. by right. }
    exists T'. split; [done|]. intros k1. rewrite Hl. destruct (decide (k = k1)) as [->|Hne].
    + rewrite !lookup_insert_eq. by rewrite not_elem_of_list_to_map_1.
    + by rewrite !lookup_insert_ne by done.
Qed.

Lemma insert_all_lookup (rows : list (Key * list Cell)) T k :
  foldr (fun kr (T : Table) => <[kr.1 := kr.2]> T) T rows !! k
  = match (list_to_map rows : Table) !! k with Some r => Some r | None => T !! k end.
Proof.
  induction rows as [|[k1 r] rows IH]; cbn; [by rewrite lookup_empty|].
  destruct (decide (k1 = k)) as [->|Hne]; [by rewrite !lookup_insert_eq|].
  by rewrite !lookup_insert_ne by done.
Qed.

Lemma foldr_delete_lookup (T : Table) ks k :
  foldr delete T ks !! k = if decide (k ∈ ks) then None else T !! k.
Proof.
  case_decide as H; [by apply lookup_foldr_delete|by apply lookup_foldr_delete_not_elem_of].
Qed.

Lemma map_eq_lookup {A B C} (f : A -> C) (g : B -> C) l k i x y :
  map f l = map g k -> l !! i = Some x -> k !! i = Some y -> f x = g y.
Proof.
  revert k i. induction l as [|a l IH]; intros [|b k] [|i]; cbn; intros [=] Hx Hy; try done.
  - congruence.
  - by eapply IH.
Qed.

(** ** The plan and the layout *)

Section plan.
Context (schema : TableSchema) (target : QualifiedName) (plan : ApplyPlan) (pk : PrimaryKeyLayout).
Hypothesis (Hplan : plan_facts schema target plan).
Hypothesis (Hatt : NoDup (map col_attnum (ts_columns schema))).
Hypothesis (Hlay : layout_ok schema pk).

Notation ncols := (length (ts_columns schema)).
Notation pcols := (ctp_columns (ap_table plan)).
Notation presence := (cl_presence_columns (ap_copy_layout plan)).

Lemma plan_length : length pcols = ncols.
Proof.
  destruct (plan_column_names _ _ _ (pfa_table _ _ _ Hplan)) as (Hn & _).
  apply (f_equal length) in Hn. by rewrite !length_map in Hn.
Qed.

Lemma plan_column i p :
  pcols !! i = Some p ->
  exists c, ts_columns schema !! i = Some c /\ cp_name p = col_name c /\
    cp_primary_key_ordinal p = col_primary_key_ordinal c.
Proof.
  intros Hp. destruct (plan_column_names _ _ _ (pfa_table _ _ _ Hplan)) as (Hn & _ & Ho & _).
  destruct (lookup_lt_is_Some_2 (ts_columns schema) i) as [c Hc].
  { rewrite <-plan_length. by eapply lookup_lt_Some. }
  exists c. split; [done|]. split; by eapply map_eq_lookup.
Qed.

Lemma plan_name_index i j p q :
  pcols !! i = Some p -> pcols !! j = Some q -> cp_name p = cp_name q -> i = j.
Proof.
  intros Hp Hq Hn. destruct (plan_column_names _ _ _ (pfa_table _ _ _ Hplan)) as (Hnm & _ & _ & Hnd & _).
  rewrite <-Hnm in Hnd. eapply (NoDup_lookup (cp_name <$> pcols)); [done| |];
    rewrite list_lookup_fmap; [by rewrite Hp|by rewrite Hq, Hn].
Qed.

Lemma plan_key_indexes : key_indexes plan = ordinal_indexes pk.
Proof.
  destruct (pfa_layout _ _ _ Hplan) as (ctl & _ & _ & _ & _ & Hold).
  apply old_key_columns_spec in Hold.
  destruct (plan_column_names _ _ _ (pfa_table _ _ _ Hplan)) as (_ & _ & _ & _ & Hpk).
  rewrite Hpk in Hold. clear Hpk. unfold key_indexes. revert Hold.
  generalize (cl_old_key_columns (ap_copy_layout plan)).
  induction (lay_indexes _ _ Hlay) as [|c i cs ix Hc _ IH]; intros cols Hold;
    inversion Hold as [|? k ? cols' (j & p & Hp & Hnm & Hk) Hrest]; subst; cbn; [done|].
  f_equal; [|by apply IH].
  destruct (lookup_lt_is_Some_2 pcols i) as [q Hq].
  { rewrite plan_length. by eapply lookup_lt_Some. }
  destruct (plan_column _ _ Hq) as (c' & Hc' & Hnq & _). rewrite Hc in Hc'. injection Hc' as <-.
  eapply plan_name_index; [done|done|congruence].
Qed.

Lemma planned_key_index i p :
  pcols !! i = Some p -> planned_key p = bool_decide (i ∈ ordinal_indexes pk).
Proof.
  intros Hp. destruct (plan_column _ _ Hp) as (c & Hc & _ & Ho). unfold planned_key. rewrite Ho.
  apply bool_decide_ext. symmetry. by apply (index_is_key _ _ Hatt Hlay).
Qed.

(** A column has a presence flag exactly if it is not part of the key. *)
Lemma presence_index i p :
  pcols !! i = Some p ->
  (exists c, c ∈ presence /\ pc_source_column_index c = i) <-> i ∉ ordinal_indexes pk.
Proof.
  intros Hp. destruct (pfa_layout _ _ _ Hplan) as (ctl & _ & _ & _ & -> & _).
  destruct (plan_column_names _ _ _ (pfa_table _ _ _ Hplan)) as (_ & _ & _ & Hnd & Hpk).
  destruct (plan_column _ _ Hp) as (c & Hc & Hn & Ho).
  assert (Hkey : cp_name p ∈ ctp_primary_key (ap_table plan) <-> i ∈ ordinal_indexes pk).
  { rewrite (index_is_key _ _ Hatt Hlay i c Hc), Hpk, Hn. split.
    - intros (d & Hd & [Hin Hs]%elem_of_primary_key)%list_elem_of_fmap.
      rewrite (NoDup_map_inj col_name (ts_columns schema) c d); try done.
      by eapply list_elem_of_lookup_2.
    - intros Hs. apply (list_elem_of_fmap_2 col_name). apply elem_of_primary_key.
      split; [by eapply list_elem_of_lookup_2|done]. }
  rewrite <-Hkey. split.
  - intros (d & (j & q & Hq & Hni & ->)%presence_column_spec & Hj). cbn in Hj. subst j.
    rewrite Hp in Hq. by injection Hq as <-.
  - intros Hni. eexists. split; [apply presence_column_spec; exists i, p; eauto|done].
Qed.

(** ** Staged rows *)

Definition staged_of (r : StagingRow) : StagedRow :=
  mkStagedRow (op_code (sr_operation r)) (map staged_cell (sr_cells r))
    (map (fun p => negb (is_toast (cell_at (sr_cells r) (pc_source_column_index p)))) presence)
    (bool_decide (is_Some (sr_old_key r)))
    (match sr_old_key r with
     | Some old_key => old_key
     | None => map (fun _ => Null) (cl_old_key_columns (ap_copy_layout plan))
     end).

Lemma presence_bound p : p ∈ presence -> (pc_source_column_index p < ncols)%nat.
Proof.
  destruct (pfa_layout _ _ _ Hplan) as (ctl & _ & _ & _ & -> & _).
  intros (i & c & Hc & _ & ->)%presence_column_spec. cbn. rewrite <-plan_length.
  by eapply lookup_lt_Some.
Qed.

Lemma staged_row_Ok r : length (sr_cells r) = ncols -> staged_row plan r = Ok (staged_of r).
Proof.
  intros Hl. unfold staged_row, staged_of.
  assert (Hm : try_map (E := ApplyError) (fun presence =>
      let? cell := expect (sr_cells r !! pc_source_column_index presence) in
      Ok (negb (is_toast cell))) presence
    = Ok (map (fun p => negb (is_toast (cell_at (sr_cells r) (pc_source_column_index p)))) presence)).
  { apply try_map_Ok. pose proof presence_bound as Hb. induction presence as [|p ps IH]; cbn; constructor.
    - destruct (lookup_lt_is_Some_2 (sr_cells r) (pc_source_column_index p)) as [c Hc].
      { rewrite Hl. apply Hb. by left. }
      unfold cell_at. by rewrite Hc.
    - apply IH. intros q Hq. apply Hb. by right. }
  by rewrite Hm.
Qed.

Lemma present_flag_staged r i p :
  length (sr_cells r) = ncols -> pcols !! i = Some p ->
  present_flag plan (staged_of r) i
  = if bool_decide (i ∈ ordinal_indexes pk) then None
    else Some (negb (is_toast (cell_at (sr_cells r) i))).
Proof.
  intros Hl Hp. pose proof (presence_index i p Hp) as Hpi. unfold present_flag. cbn [staged_of sg_present].
  destruct (position _ presence) as [j|] eqn:Hpos; cbn.
  - apply position_Some in Hpos as (c & Hc & Hci & _). apply bool_decide_eq_true in Hci.
    rewrite bool_decide_false.
    + change (map ?f presence) with (f <$> presence). rewrite list_lookup_fmap, Hc. cbn. by rewrite Hci.
    + apply Hpi. exists c. split; [by eapply list_elem_of_lookup_2|done].
  - rewrite bool_decide_true; [done|]. apply dec_stable. intros Hni. apply Hpi in Hni as (c & Hc & Hci).
    pose proof (position_None _ _ Hpos c Hc) as Hn. cbn in Hn. by rewrite bool_decide_true in Hn.
Qed.

Lemma cell_at_lookup (row : list Cell) i c : row !! i = Some c -> cell_at row i = c.
Proof. unfold cell_at. by intros ->. Qed.

Lemma key_cell_at row k i :
  key_at pk row k -> i ∈ ordinal_indexes pk -> exists v, row !! i = Some (Text v).
Proof.
  intros Hk [j Hj]%list_elem_of_lookup. unfold key_at in Hk.
  destruct (Forall2_lookup_l _ _ _ _ _ Hk Hj) as (v & _ & Hv). eauto.
Qed.

(** What a move inserts is the overlay of the staged cells on the old row. *)
Lemma moved_row_staged r t k :
  length (sr_cells r) = ncols -> length t = ncols -> key_at pk (sr_cells r) k ->
  moved_row plan (staged_of r) t = overlay t (sr_cells r).
Proof.
  intros Hl Ht Hk. apply list_eq. intros i. unfold moved_row.
  rewrite list_lookup_imap, overlay_lookup by congruence.
  destruct (pcols !! i) as [p|] eqn:Hp; cbn [fmap option_fmap option_map].
  - assert (Hi : (i < ncols)%nat) by (rewrite <-plan_length; by eapply lookup_lt_Some).
    destruct (lookup_lt_is_Some_2 (sr_cells r) i) as [c Hc]; [lia|].
    destruct (lookup_lt_is_Some_2 t i) as [d Hd]; [lia|].
    rewrite (planned_key_index i p Hp), (present_flag_staged r i p Hl Hp), Hc, Hd.
    rewrite (cell_at_lookup _ _ _ Hc), (cell_at_lookup _ _ _ Hd).
    assert (Hs : cell_at (sg_data (staged_of r)) i = staged_cell c).
    { apply cell_at_lookup. cbn. change (map staged_cell (sr_cells r)) with (staged_cell <$> sr_cells r).
      by rewrite list_lookup_fmap, Hc. }
    rewrite Hs. case_bool_decide as Hin.
    + destruct (key_cell_at _ _ _ Hk Hin) as [v Hv]. rewrite Hc in Hv. by injection Hv as ->.
    + cbn. by destruct c.
  - apply lookup_ge_None_1 in Hp. rewrite plan_length in Hp.
    by rewrite (lookup_ge_None_2 (sr_cells r)) by lia.
Qed.

(** What an update leaves is the overlay on a row with the same key. *)
Lemma updated_row_staged r t k :
  length (sr_cells r) = ncols -> length t = ncols -> key_at pk (sr_cells r) k -> key_at pk t k ->
  updated_row plan (staged_of r) t = overlay t (sr_cells r).
Proof.
  intros Hl Ht Hk Hkt. apply list_eq. intros i. unfold updated_row.
  rewrite list_lookup_imap, overlay_lookup by congruence.
  destruct (pcols !! i) as [p|] eqn:Hp; cbn [fmap option_fmap option_map].
  - assert (Hi : (i < ncols)%nat) by (rewrite <-plan_length; by eapply lookup_lt_Some).
    destruct (lookup_lt_is_Some_2 (sr_cells r) i) as [c Hc]; [lia|].
    destruct (lookup_lt_is_Some_2 t i) as [d Hd]; [lia|].
    rewrite (present_flag_staged r i p Hl Hp), Hc, Hd.
    rewrite (cell_at_lookup _ _ _ Hc), (cell_at_lookup _ _ _ Hd).
    assert (Hs : cell_at (sg_data (staged_of r)) i = staged_cell c).
    { apply cell_at_lookup. cbn. change (map staged_cell (sr_cells r)) with (staged_cell <$> sr_cells r).
      by rewrite list_lookup_fmap, Hc. }
    rewrite Hs. case_bool_decide as Hin.
    + apply list_elem_of_lookup in Hin as [j Hj]. unfold key_at in *.
      destruct (Forall2_lookup_l _ _ _ _ _ Hk Hj) as (v & Hv1 & Hv).
      destruct (Forall2_lookup_l _ _ _ _ _ Hkt Hj) as (v' & Hv1' & Hv').
      rewrite Hc in Hv. injection Hv as ->. rewrite Hd in Hv'. injection Hv' as ->. cbn. congruence.
    + by destruct c.
  - apply lookup_ge_None_1 in Hp. rewrite plan_length in Hp.
    by rewrite (lookup_ge_None_2 (sr_cells r)) by lia.
Qed.

(** Without presence flags an update assigns nothing. *)
Lemma updated_row_no_presence s t :
  presence = [] -> length t = ncols -> updated_row plan s t = t.
Proof.
  intros Hp Ht. apply list_eq. intros i. unfold updated_row, present_flag. rewrite Hp. cbn.
  rewrite list_lookup_imap. destruct (pcols !! i) as [p|] eqn:E; cbn.
  - destruct (lookup_lt_is_Some_2 t i) as [d Hd].
    { rewrite Ht, <-plan_length. by eapply lookup_lt_Some. }
    by rewrite (cell_at_lookup _ _ _ Hd), Hd.
  - apply lookup_ge_None_1 in E. rewrite plan_length in E. by rewrite lookup_ge_None_2 by lia.
Qed.

Lemma s_key_staged r k : key_at pk (sr_cells r) k -> s_key plan (staged_of r) = Some k.
Proof.
  intros Hk. unfold s_key. rewrite plan_key_indexes. cbn. apply key_at_select_key.
  unfold key_at in *. eapply Forall2_impl; [exact Hk|]. intros i v Hv. cbn in Hv.
  change (map staged_cell (sr_cells r)) with (staged_cell <$> sr_cells r).
  by rewrite list_lookup_fmap, Hv.
Qed.

Lemma group_key_staged s k : s_key plan s = Some k -> group_key plan s = map Some k.
Proof.
  unfold s_key, group_key, select_key. intros H. apply mapM_Some in H.
  induction H as [|i v ix k Hv _ IH]; cbn; [done|]. by rewrite Hv, IH.
Qed.

Lemma s_old_key_text r k : sr_old_key r = Some (key_cells k) -> s_old_key (staged_of r) = Some k.
Proof.
  unfold s_old_key. cbn. intros ->. apply mapM_Some. unfold key_cells.
  induction k as [|v k IH]; cbn; by constructor.
Qed.
End plan.

(** ** The staging rows of a finished normalizer *)

Section final.
Context (schema : TableSchema) (target : QualifiedName) (plan : ApplyPlan) (pk : PrimaryKeyLayout).
Hypothesis (Hplan : plan_facts schema target plan).
Hypothesis (Hatt : NoDup (map col_attnum (ts_columns schema))).
Hypothesis (Hlay : layout_ok schema pk).
Context (S0 S1 : Table) (nz : Normalizer).
Hypothesis (Hwf0 : wf_table schema S0).
Hypothesis (Hinv : inv schema pk S0 S1 nz).

Notation ncols := (length (ts_columns schema)).
Notation L := (nz_lineages nz).
Notation cur := (nz_current_by_key nz).
Notation org := (nz_origin_by_key nz).
Notation staged_of := (staged_of plan).

(** The cells of a delete: the origin key over unchanged cells. *)
Definition delete_cells (k : Key) : list Cell :=
  match write_key pk (unchanged_cells schema) k with Ok cells => cells | _ => [] end.

(** The staging row of a lineage, if it has one. *)
Definition row_of (l : Lineage) : option StagingRow :=
  match origin_key l, current_key l with
  | None, None => None
  | None, Some _ => Some (mkStagingRow OpUpsert (lineage_cells l) None)
  | Some o, Some c =>
      if bool_decide (o = c) then Some (mkStagingRow OpUpsert (lineage_cells l) None)
      else Some (mkStagingRow OpMove (lineage_cells l) (Some (key_cells o)))
  | Some o, None =>
      match cur !! o with
      | Some _ => None
      | None => Some (mkStagingRow OpDelete (delete_cells o) None)
      end
  end.

(** The key a lineage's staging row applies to. *)
Definition row_key (l : Lineage) : option Key :=
  match current_key l, origin_key l with
  | Some k, _ => Some k
  | None, Some o => match cur !! o with Some _ => None | None => Some o end
  | None, None => None
  end.

Definition is_moved (l : Lineage) (k0 k : Key) : Prop :=
  origin_key l = Some k0 /\ current_key l = Some k /\ k0 <> k.

Lemma lineage_facts i l : L !! i = Some l -> lineage_ok schema pk S0 S1 l.
Proof. apply Hinv. Qed.

Lemma origin_key_length k0 i l :
  L !! i = Some l -> origin_key l = Some k0 ->
  exists base, S0 !! k0 = Some base /\ length base = ncols /\ forallb plain base = true /\
    key_at pk base k0.
Proof.
  intros Hl Ho. destruct (lo_origin _ _ _ _ _ (lineage_facts _ _ Hl) _ Ho) as [base Hb].
  destruct (wf_table_row_at _ _ Hatt Hlay _ _ _ Hwf0 Hb) as (? & ? & ?). eauto.
Qed.

Lemma delete_cells_Ok k0 i l :
  L !! i = Some l -> origin_key l = Some k0 ->
  write_key pk (unchanged_cells schema) k0 = Ok (delete_cells k0) /\
  length (delete_cells k0) = ncols /\ key_at pk (delete_cells k0) k0 /\
  forallb (fun c => negb (is_binary c)) (delete_cells k0) = true.
Proof.
  intros Hl Ho. destruct (origin_key_length _ _ _ Hl Ho) as (base & _ & _ & _ & Hk).
  destruct (write_key_Ok schema pk Hlay k0) as (out & Hw & Hlo & Hko & Hrest).
  { symmetry. by eapply Forall2_length. }
  unfold delete_cells. rewrite Hw. split_and!; try done.
  apply forallb_forall. intros c Hc. apply list_elem_of_In, list_elem_of_lookup in Hc as [j Hj].
  destruct (decide (j ∈ ordinal_indexes pk)) as [Hin|Hin]; [|by rewrite (Hrest j c Hin Hj)].
  destruct (key_cell_at _ _ _ _ Hko Hin) as [v Hv]. rewrite Hj in Hv. by injection Hv as ->.
Qed.

(** A lineage without an origin has complete cells. *)
Lemma new_lineage_plain i l k :
  L !! i = Some l -> origin_key l = None -> current_key l = Some k ->
  S1 !! k = Some (lineage_cells l) /\ forallb plain (lineage_cells l) = true.
Proof.
  intros Hl Ho Hk. destruct (lo_row _ _ _ _ _ (lineage_facts _ _ Hl) _ Hk) as (row & Hr & Hm).
  rewrite Ho in Hm. subst row. split; [done|].
  by destruct (wf_table_row_at _ _ Hatt Hlay _ _ _ (inv_wf _ _ _ _ _ Hinv) Hr) as (_ & ? & _).
Qed.

Lemma finish_Ok : normalizer_finish schema nz = Ok (omap row_of L).
Proof.
  unfold normalizer_finish. rewrite (inv_sorted_lineages _ _ _ _ _ Hinv).
  assert (Hm : try_map (lineage_row schema nz) L = Ok (map row_of L)).
  { apply try_map_pure. intros l [i Hl]%list_elem_of_lookup. unfold lineage_row, row_of.
    destruct (origin_key l) as [o|] eqn:Ho, (current_key l) as [k|] eqn:Hk.
    - by case_bool_decide.
    - destruct (cur !! o); [done|]. rewrite (inv_pk _ _ _ _ _ Hinv).
      by destruct (delete_cells_Ok _ _ _ Hl Ho) as (-> & _).
    - destruct (new_lineage_plain _ _ _ Hl Ho Hk) as [_ Hp]. unfold inserted_staging_row.
      by rewrite plain_no_toast.
    - done. }
  rewrite Hm. cbn. f_equal. change (map row_of L) with (row_of <$> L).
  generalize L. intros L0. induction L0 as [|l L0 IH]; cbn; [done|]. unfold omap in *.
  destruct (row_of l); cbn; by rewrite IH.
Qed.

(** Every staging row has the cells of a row with the lineage's key, and encodes. *)
Record row_ok (r : StagingRow) (k : Key) : Prop := {
  ro_length : length (sr_cells r) = ncols;
  ro_key : key_at pk (sr_cells r) k;
  ro_no_binary : forallb (fun c => negb (is_binary c)) (sr_cells r) = true;
  ro_old : match sr_operation r, sr_old_key r with
           | OpMove, Some old => exists k0, old = key_cells k0 /\ length k0 = length k
           | OpMove, None => False
           | _, old => old = None
           end;
}.

Lemma row_of_ok i l r :
  L !! i = Some l -> row_of l = Some r -> exists k, row_key l = Some k /\ row_ok r k.
Proof.
  intros Hl Hr. pose proof (lineage_facts _ _ Hl) as Hok. unfold row_of, row_key in *.
  destruct (origin_key l) as [o|] eqn:Ho, (current_key l) as [k|] eqn:Hk.
  - exists k. split; [done|]. case_bool_decide; injection Hr as <-; split; cbn; try done;
      try apply Hok; try done.
    exists o. split; [done|]. pose proof (lo_key _ _ _ _ _ Hok _ Hk) as Hkk.
    destruct (origin_key_length _ _ _ Hl Ho) as (base & _ & _ & _ & Hkb).
    unfold key_at in *. apply Forall2_length in Hkk, Hkb. congruence.
  - destruct (cur !! o) eqn:Hc; [done|]. injection Hr as <-. exists o. split; [done|].
    destruct (delete_cells_Ok _ _ _ Hl Ho) as (_ & ? & ? & ?). by split.
  - injection Hr as <-. exists k. split; [done|]. by split; cbn; try apply Hok.
  - done.
Qed.

Lemma row_key_row l k : row_key l = Some k -> exists r, row_of l = Some r.
Proof.
  unfold row_key, row_of. destruct (current_key l) as [c|], (origin_key l) as [o|]; try done.
  - case_bool_decide; eauto.
  - eauto.
  - destruct (cur !! o); [done|eauto].
Qed.

(** Different lineages have different keys. *)
Lemma row_key_inj i j l l' k :
  L !! i = Some l -> L !! j = Some l' -> row_key l = Some k -> row_key l' = Some k -> i = j.
Proof.
  assert (Hk : forall i l, L !! i = Some l -> row_key l = Some k ->
    cur !! k = Some i \/ (cur !! k = None /\ org !! k = Some i)).
  { intros i0 l0 Hl0 H. unfold row_key in H. destruct (current_key l0) as [c|] eqn:Hc.
    - left. injection H as ->. apply (inv_current _ _ _ _ _ Hinv). eauto.
    - destruct (origin_key l0) as [o|] eqn:Ho; [|done].
      destruct (cur !! o) eqn:Hcur; [done|]. injection H as ->. right. split; [done|].
      apply (inv_origin _ _ _ _ _ Hinv). eauto. }
  intros Hl Hl' H H'. destruct (Hk _ _ Hl H) as [?|[? ?]], (Hk _ _ Hl' H') as [?|[? ?]]; congruence.
Qed.

(** ** Encoding succeeds *)

Lemma first_missing_None {A} (name : A -> string) is_key (cols : list A) cs :
  (forall i a c, cols !! i = Some a -> cs !! i = Some c -> is_key a = true -> is_missing c = false) ->
  first_missing name is_key cols cs = None.
Proof.
  revert cs. induction cols as [|a cols IH]; intros [|c cs] H; cbn; try done.
  specialize (H 0%nat) as H0. cbn in H0.
  destruct (is_key a) eqn:Ha; cbn.
  - rewrite (H0 a c) by done. apply IH. intros i. apply (H (S i)).
  - apply IH. intros i. apply (H (S i)).
Qed.

Lemma key_cells_length (k : Key) : length (key_cells k) = length k.
Proof. unfold key_cells. by rewrite length_map. Qed.

Lemma old_columns_length (k : Key) : length k = length (ordinal_indexes pk) ->
  length (cl_old_key_columns (ap_copy_layout plan)) = length k.
Proof.
  intros ->. pose proof (plan_key_indexes _ _ _ _ Hplan Hlay) as H.
  apply (f_equal length) in H. unfold key_indexes in H. by rewrite length_map in H.
Qed.

Lemma staged_encodable r k :
  row_ok r k -> forallb encodable (staged_fields (staged_of r)) = true.
Proof.
  intros [Hl Hk Hb Ho]. unfold staged_fields. cbn. rewrite !forallb_app. cbn.
  rewrite !andb_true_iff. split_and!; try done.
  - apply forallb_forall. intros c Hc. apply list_elem_of_In, list_elem_of_fmap in Hc as (d & -> & Hd).
    rewrite forallb_forall in Hb. apply list_elem_of_In in Hd. specialize (Hb d Hd). by destruct d.
  - apply forallb_forall. intros c Hc. apply list_elem_of_In, list_elem_of_fmap in Hc as (d & -> & _).
    done.
  - destruct (sr_operation r), (sr_old_key r) as [old|]; try done;
      try (destruct Ho as (k0 & -> & _); unfold key_cells);
      apply forallb_forall; intros c Hc;
      apply list_elem_of_In, list_elem_of_fmap in Hc as (d & -> & _); done.
Qed.

Lemma stage_Ok r k : row_ok r k -> stage plan r = Ok (staged_of r).
Proof.
  intros Hok. pose proof Hok as [Hl Hk Hb Ho]. unfold stage, encode_staging_row.
  rewrite (staged_row_Ok schema target plan) by done.
  assert (Hck : check_staging_row plan r = Ok tt).
  { unfold check_staging_row. rewrite !len_eqb, (plan_length _ _ _ Hplan).
    rewrite bool_decide_true by done. cbn [negb]. rewrite first_missing_None.
    2:{ intros i p c Hp Hc Hkey.
      rewrite (planned_key_index _ _ _ _ Hplan Hatt Hlay i p Hp) in Hkey.
      apply bool_decide_eq_true in Hkey. destruct (key_cell_at _ _ _ _ Hk Hkey) as [v Hv].
      rewrite Hc in Hv. by injection Hv as ->. }
    destruct (sr_operation r), (sr_old_key r) as [old|]; try done.
    destruct Ho as (k0 & -> & Hk0). cbn [mbind result_bind].
    rewrite len_eqb, bool_decide_true; cbn [negb].
    - rewrite first_missing_None; [done|]. intros i a c _ Hc _. unfold key_cells in Hc.
      change (map Text k0) with (Text <$> k0) in Hc. rewrite list_lookup_fmap in Hc.
      destruct (k0 !! i); [|done]. by injection Hc as <-.
    - rewrite key_cells_length. symmetry. apply old_columns_length. rewrite Hk0. symmetry.
      by eapply Forall2_length. }
  rewrite Hck. cbn [mbind result_bind].
  destruct (encode_row_Ok (staged_fields (staged_of r))) as [enc He]; [done|by eapply staged_encodable|].
  by rewrite He.
Qed.

(** All staged rows of the batch. *)
Definition staging : list StagedRow := omap (fun l => staged_of <$> row_of l) L.

Lemma stage_all_Ok : try_map (stage plan) (omap row_of L) = Ok staging.
Proof.
  assert (Hs : staging = map staged_of (omap row_of L)).
  { unfold staging. generalize L. intros L0. induction L0 as [|l L0 IH]; cbn; [done|].
    unfold omap in *. destruct (row_of l); cbn; by rewrite IH. }
  rewrite Hs. apply try_map_pure.
  intros r (l & Hl & Hr)%list_elem_of_omap. apply list_elem_of_lookup in Hl as [i Hl].
  destruct (row_of_ok _ _ _ Hl Hr) as (k & _ & Hok). by eapply stage_Ok.
Qed.

Lemma elem_of_staging s :
  s ∈ staging <-> exists i l r, L !! i = Some l /\ row_of l = Some r /\ s = staged_of r.
Proof.
  unfold staging. rewrite list_elem_of_omap. split.
  - intros (l & [i Hl]%list_elem_of_lookup & Hr). destruct (row_of l) as [r|] eqn:E; [|done].
    injection Hr as <-. eauto 10.
  - intros (i & l & r & Hl & Hr & ->). exists l. split; [by eapply list_elem_of_lookup_2|].
    by rewrite Hr.
Qed.

Lemma s_key_of_row i l r :
  L !! i = Some l -> row_of l = Some r -> s_key plan (staged_of r) = row_key l.
Proof.
  intros Hl Hr. destruct (row_of_ok _ _ _ Hl Hr) as (k & -> & Hok).
  apply (s_key_staged _ _ _ _ Hplan Hlay), Hok.
Qed.

Lemma NoDup_staging_keys : NoDup (omap (s_key plan) staging).
Proof.
  unfold staging. rewrite omap_omap. apply NoDup_omap_index. intros i j l l' k Hl Hl' H H'.
  destruct (row_of l) as [r|] eqn:Hr; [|done]. destruct (row_of l') as [r'|] eqn:Hr'; [|done].
  cbn in H, H'. rewrite (s_key_of_row _ _ _ Hl Hr) in H. rewrite (s_key_of_row _ _ _ Hl' Hr') in H'.
  by eapply row_key_inj.
Qed.

Lemma has_op_staged op r : has_op op (staged_of r) = bool_decide (sr_operation r = op).
Proof. unfold has_op. cbn. by destruct (sr_operation r), op. Qed.

(** Which lineages give which operations. *)
Lemma row_of_delete l r :
  row_of l = Some r -> sr_operation r = OpDelete ->
  exists k, origin_key l = Some k /\ current_key l = None /\ cur !! k = None /\
    r = mkStagingRow OpDelete (delete_cells k) None.
Proof.
  unfold row_of. destruct (origin_key l) as [o|], (current_key l) as [c|]; intros H Hop; try done.
  - case_bool_decide; by injection H as <-.
  - destruct (cur !! o) eqn:E; [done|]. injection H as <-. eauto 10.
  - by injection H as <-.
Qed.

Lemma row_of_move l r :
  row_of l = Some r -> sr_operation r = OpMove ->
  exists k0 k, is_moved l k0 k /\ r = mkStagingRow OpMove (lineage_cells l) (Some (key_cells k0)).
Proof.
  unfold row_of, is_moved.
  destruct (origin_key l) as [o|], (current_key l) as [c|]; intros H Hop; try done.
  - case_bool_decide; injection H as <-; [done|]. eauto 10.
  - destruct (cur !! o) eqn:E; [done|]. by injection H as <-.
  - by injection H as <-.
Qed.

Lemma row_of_upsert l r :
  row_of l = Some r -> sr_operation r = OpUpsert ->
  exists k, current_key l = Some k /\ (origin_key l = None \/ origin_key l = Some k) /\
    r = mkStagingRow OpUpsert (lineage_cells l) None.
Proof.
  unfold row_of.
  destruct (origin_key l) as [o|], (current_key l) as [c|]; intros H Hop; try done.
  - case_bool_decide; injection H as <-; [|done]. subst. eauto 10.
  - destruct (cur !! o) eqn:E; [done|]. by injection H as <-.
  - injection H as <-. eauto 10.
Qed.

Lemma row_of_moved l k0 k :
  is_moved l k0 k ->
  row_of l = Some (mkStagingRow OpMove (lineage_cells l) (Some (key_cells k0))).
Proof. unfold is_moved, row_of. intros (-> & -> & Hne). by rewrite bool_decide_false. Qed.

Lemma row_of_live l k :
  current_key l = Some k -> (origin_key l = None \/ origin_key l = Some k) ->
  row_of l = Some (mkStagingRow OpUpsert (lineage_cells l) None).
Proof. unfold row_of. intros -> [-> | ->]; [done|]. by rewrite bool_decide_true. Qed.

Lemma elem_of_op op s :
  s ∈ List.filter (has_op op) staging <->
  exists i l r, L !! i = Some l /\ row_of l = Some r /\ sr_operation r = op /\ s = staged_of r.
Proof.
  rewrite elem_of_List_filter, elem_of_staging. split.
  - intros (Hop & i & l & r & Hl & Hr & ->). rewrite has_op_staged in Hop.
    apply bool_decide_eq_true in Hop. eauto 10.
  - intros (i & l & r & Hl & Hr & Hop & ->). rewrite has_op_staged, bool_decide_true by done.
    split; [done|]. eauto 10.
Qed.

Definition deleted_keys : list Key := omap (s_key plan) (List.filter (has_op OpDelete) staging).
Definition left_keys : list Key := omap s_old_key (List.filter (has_op OpMove) staging).

Lemma elem_of_deleted k :
  k ∈ deleted_keys <->
  exists i l, L !! i = Some l /\ origin_key l = Some k /\ current_key l = None /\ cur !! k = None.
Proof.
  unfold deleted_keys. rewrite list_elem_of_omap. split.
  - intros (s & (i & l & r & Hl & Hr & Hop & ->)%elem_of_op & Hk).
    rewrite (s_key_of_row _ _ _ Hl Hr) in Hk.
    destruct (row_of_delete _ _ Hr Hop) as (k1 & Ho & Hc & Hcur & _). exists i, l.
    unfold row_key in Hk. rewrite Hc, Ho, Hcur in Hk. injection Hk as <-. done.
  - intros (i & l & Hl & Ho & Hc & Hcur).
    assert (Hr : row_of l = Some (mkStagingRow OpDelete (delete_cells k) None))
      by (unfold row_of; by rewrite Ho, Hc, Hcur).
    eexists. split; [apply elem_of_op; eauto 10|]. rewrite (s_key_of_row _ _ _ Hl Hr).
    unfold row_key. by rewrite Hc, Ho, Hcur.
Qed.

Lemma elem_of_left k0 :
  k0 ∈ left_keys <-> exists i l k, L !! i = Some l /\ is_moved l k0 k.
Proof.
  unfold left_keys. rewrite list_elem_of_omap. split.
  - intros (s & (i & l & r & Hl & Hr & Hop & ->)%elem_of_op & Hk).
    destruct (row_of_move _ _ Hr Hop) as (k1 & k & Hm & ->). exists i, l, k. split; [done|].
    rewrite (s_old_key_text _ _ k1) in Hk by done. by injection Hk as <-.
  - intros (i & l & k & Hl & Hm). eexists. split.
    + apply elem_of_op. exists i, l. eexists. split; [done|]. split; [by eapply row_of_moved|done].
    + by apply (s_old_key_text _ _ k0).
Qed.

Lemma org_origin i l k : L !! i = Some l -> origin_key l = Some k -> org !! k = Some i.
Proof. intros Hl Ho. apply (inv_origin _ _ _ _ _ Hinv). eauto. Qed.
Lemma cur_current i l k : L !! i = Some l -> current_key l = Some k -> cur !! k = Some i.
Proof. intros Hl Hc. apply (inv_current _ _ _ _ _ Hinv). eauto. Qed.

(** A row that moved away did not lose its key to a delete. *)
Lemma moved_not_deleted i l k0 k : L !! i = Some l -> is_moved l k0 k -> k0 ∉ deleted_keys.
Proof.
  intros Hl (Ho & Hc & _) (j & l' & Hl' & Ho' & Hc' & _)%elem_of_deleted.
  pose proof (org_origin _ _ _ Hl Ho). pose proof (org_origin _ _ _ Hl' Ho').
  assert (i = j) as -> by congruence. congruence.
Qed.

(** *** The first DELETE *)

Definition T1 : Table := foldr delete S0 deleted_keys.

Lemma T1_lookup k : T1 !! k = if decide (k ∈ deleted_keys) then None else S0 !! k.
Proof. apply foldr_delete_lookup. Qed.

(** *** The moves *)

Lemma elem_of_moved_rows k row :
  (k, row) ∈ moved_rows plan T1 staging <->
  exists i l k0, L !! i = Some l /\ is_moved l k0 k /\ S1 !! k = Some row.
Proof.
  unfold moved_rows. rewrite list_elem_of_omap. split.
  - intros (s & (i & l & r & Hl & Hr & Hop & ->)%elem_of_op & H).
    destruct (row_of_move _ _ Hr Hop) as (k0 & k1 & Hm & ->).
    rewrite (s_old_key_text _ _ k0) in H by done. cbn [mbind option_bind] in H.
    rewrite T1_lookup, decide_False in H by (by eapply moved_not_deleted).
    rewrite (s_key_of_row _ _ _ Hl Hr) in H. unfold row_key in H.
    destruct Hm as (Ho & Hc & Hne). rewrite Hc in H.
    pose proof (lineage_facts _ _ Hl) as Hok.
    destruct (lo_row _ _ _ _ _ Hok _ Hc) as (row1 & Hr1 & Hmm). rewrite Ho in Hmm.
    destruct Hmm as (base & Hbase & ->). rewrite Hbase in H. cbn in H.
    case_bool_decide; [|done]. injection H as <- <-. exists i, l, k0. split; [done|]. split; [done|].
    rewrite Hr1. f_equal. symmetry.
    destruct (wf_table_row_at _ _ Hatt Hlay _ _ _ Hwf0 Hbase) as (Hlb & _).
    apply (moved_row_staged _ _ _ _ Hplan Hatt Hlay
      (mkStagingRow OpMove (lineage_cells l) (Some (key_cells k0))) base k1);
      [apply Hok|done|].
    by apply (lo_key _ _ _ _ _ Hok).
  - intros (i & l & k0 & Hl & Hm & Hrow). pose proof (lineage_facts _ _ Hl) as Hok.
    pose proof (row_of_moved _ _ _ Hm) as Hr.
    exists (staged_of (mkStagingRow OpMove (lineage_cells l) (Some (key_cells k0)))).
    split; [apply elem_of_op; eauto 10|].
    rewrite (s_old_key_text _ _ k0) by done. cbn [mbind option_bind].
    rewrite T1_lookup, decide_False by (by eapply moved_not_deleted).
    rewrite (s_key_of_row _ _ _ Hl Hr). unfold row_key. destruct Hm as (Ho & Hc & Hne). rewrite Hc.
    destruct (lo_row _ _ _ _ _ Hok _ Hc) as (row1 & Hr1 & Hmm). rewrite Ho in Hmm.
    destruct Hmm as (base & Hbase & ->). rewrite Hbase. cbn.
    assert (Hn : T1 !! k = None).
    { rewrite T1_lookup. case_decide; [done|]. by eapply (lo_moved _ _ _ _ _ Hok). }
    rewrite bool_decide_true by done. rewrite Hrow in Hr1. injection Hr1 as ->. do 2 f_equal.
    destruct (wf_table_row_at _ _ Hatt Hlay _ _ _ Hwf0 Hbase) as (Hlb & _).
    apply (moved_row_staged _ _ _ _ Hplan Hatt Hlay
      (mkStagingRow OpMove (lineage_cells l) (Some (key_cells k0))) base k);
      [apply Hok|done|].
    by apply (lo_key _ _ _ _ _ Hok).
Qed.

Lemma NoDup_moved_rows T : NoDup (moved_rows plan T staging).*1.
Proof.
  apply (NoDup_selected (s_key plan)); [|apply NoDup_staging_keys]. intros s x H.
  destruct (s_old_key s) as [o|]; [|done]. cbn in H. destruct (T !! o); [|done]. cbn in H.
  destruct (s_key plan s) as [k|]; [|done]. cbn in H. case_bool_decide; [|done]. by injection H as <-.
Qed.

Lemma move_Ok :
  exists n T2, move_statement plan T1 staging = Ok (n, T2) /\
    forall k, T2 !! k = match (list_to_map (moved_rows plan T1 staging) : Table) !! k with
                        | Some r => Some r | None => T1 !! k end.
Proof.
  unfold move_statement.
  destruct (insert_rows_Ok T1 (moved_rows plan T1 staging)) as (T2 & -> & Hl).
  - apply NoDup_moved_rows.
  - intros k ([k1 row] & -> & (s & _ & H)%list_elem_of_omap)%list_elem_of_fmap.
    destruct (s_old_key s) as [o|]; [|done]. cbn in H. destruct (T1 !! o); [|done]. cbn in H.
    destruct (s_key plan s) as [k|]; [|done]. cbn in H. case_bool_decide; [|done].
    by injection H as <- _.
  - cbn. eauto.
Qed.

(** *** The second DELETE *)

Definition live (l : Lineage) (k : Key) : Prop :=
  current_key l = Some k /\ (origin_key l = None \/ origin_key l = Some k).

Lemma live_or_moved l k : current_key l = Some k -> live l k \/ exists k0, is_moved l k0 k.
Proof.
  intros Hc. unfold live, is_moved. destruct (origin_key l) as [o|] eqn:Ho; [|by left; auto].
  destruct (decide (o = k)) as [->|]; [by left; auto|]. right. eauto.
Qed.

Section after_moves.
Context (T2 : Table).
Hypothesis (HT2 : forall k, T2 !! k
  = match (list_to_map (moved_rows plan T1 staging) : Table) !! k with
    | Some r => Some r | None => T1 !! k end).

Definition T3 : Table := foldr delete T2 left_keys.

Lemma T2_moved i l k0 k : L !! i = Some l -> is_moved l k0 k -> T2 !! k = S1 !! k.
Proof.
  intros Hl Hm. destruct (lo_row _ _ _ _ _ (lineage_facts _ _ Hl) k) as (row & Hr & _);
    [by destruct Hm as (_ & ? & _)|].
  rewrite HT2, (elem_of_list_to_map_1 _ k row); [done|apply NoDup_moved_rows|].
  apply elem_of_moved_rows. eauto 10.
Qed.

Lemma T2_other k :
  (forall i l k0, L !! i = Some l -> is_moved l k0 k -> False) -> T2 !! k = T1 !! k.
Proof.
  intros Hno. rewrite HT2, not_elem_of_list_to_map_1; [done|].
  intros ([k1 row] & -> & (i & l & k0 & Hl & Hm & _)%elem_of_moved_rows)%list_elem_of_fmap.
  by eapply Hno.
Qed.

Lemma T3_lookup k : T3 !! k = if decide (k ∈ left_keys) then None else T2 !! k.
Proof. apply foldr_delete_lookup. Qed.

Lemma T3_moved i l k0 k : L !! i = Some l -> is_moved l k0 k -> T3 !! k = S1 !! k.
Proof.
  intros Hl Hm. rewrite T3_lookup, decide_False; [by eapply T2_moved|].
  intros (j & l' & k' & Hl' & Hm')%elem_of_left.
  destruct (lo_origin _ _ _ _ _ (lineage_facts _ _ Hl') k) as [base Hbase];
    [by destruct Hm' as (? & _ & _)|].
  destruct Hm as (Ho & Hc & Hne).
  by rewrite (lo_moved _ _ _ _ _ (lineage_facts _ _ Hl) _ _ Ho Hc Hne) in Hbase.
Qed.

Lemma T3_origin i l k :
  L !! i = Some l -> current_key l = Some k -> origin_key l = Some k -> T3 !! k = S0 !! k.
Proof.
  intros Hl Hc Ho. pose proof (org_origin _ _ _ Hl Ho) as Hi.
  pose proof (cur_current _ _ _ Hl Hc) as Hi'.
  rewrite T3_lookup, decide_False, T2_other, T1_lookup, decide_False; [done|..].
  - intros (j & l' & Hl' & Ho' & Hc' & Hn)%elem_of_deleted. congruence.
  - intros j l' k0 Hl' (Ho' & Hc' & Hne).
    pose proof (cur_current _ _ _ Hl' Hc') as Hj. assert (i = j) as -> by congruence. congruence.
  - intros (j & l' & k' & Hl' & Ho' & Hc' & Hne)%elem_of_left.
    pose proof (org_origin _ _ _ Hl' Ho') as Hj. assert (i = j) as -> by congruence. congruence.
Qed.

Lemma T3_either k t : T3 !! k = Some t -> S0 !! k = Some t \/ S1 !! k = Some t.
Proof.
  rewrite T3_lookup. case_decide; [done|]. rewrite HT2.
  destruct (list_to_map _ !! k) as [r|] eqn:E.
  - intros [= ->]. apply elem_of_list_to_map_2, elem_of_moved_rows in E as (_ & _ & _ & _ & _ & ?).
    by right.
  - rewrite T1_lookup. case_decide; [done|]. by left.
Qed.

Lemma T3_gone k : cur !! k = None -> T3 !! k = S1 !! k.
Proof.
  intros Hc. rewrite T3_lookup, T2_other, T1_lookup.
  2:{ intros i l k0 Hl (_ & Hcl & _). pose proof (cur_current _ _ _ Hl Hcl). congruence. }
  destruct (org !! k) as [i|] eqn:Ho.
  - rewrite (inv_left _ _ _ _ _ Hinv _ _ Hc Ho).
    apply (inv_origin _ _ _ _ _ Hinv) in Ho as (l & Hl & Hol).
    destruct (current_key l) as [k'|] eqn:Hcl.
    + rewrite decide_True; [done|]. apply elem_of_left. exists i, l, k'. split; [done|].
      split_and!; [done|done|]. intros ->. pose proof (cur_current _ _ _ Hl Hcl). congruence.
    + rewrite (decide_True (P := k ∈ deleted_keys)); [by case_decide|].
      apply elem_of_deleted. eauto 10.
  - rewrite (inv_idle _ _ _ _ _ Hinv _ Hc Ho). rewrite !decide_False; [done| |].
    + intros (i & l & Hl & Hol & _)%elem_of_deleted.
      pose proof (org_origin _ _ _ Hl Hol). congruence.
    + intros (i & l & k' & Hl & Hol & _)%elem_of_left.
      pose proof (org_origin _ _ _ Hl Hol). congruence.
Qed.

(** *** The update *)

Lemma live_staged i l k :
  L !! i = Some l -> live l k ->
  staged_of (mkStagingRow OpUpsert (lineage_cells l) None) ∈ List.filter (has_op OpUpsert) staging /\
  s_key plan (staged_of (mkStagingRow OpUpsert (lineage_cells l) None)) = Some k.
Proof.
  intros Hl [Hc Ho]. pose proof (row_of_live _ _ Hc Ho) as Hr. split.
  - apply elem_of_op. eauto 10.
  - rewrite (s_key_of_row _ _ _ Hl Hr). unfold row_key. by rewrite Hc.
Qed.

Lemma T3_row k i l t :
  L !! i = Some l -> current_key l = Some k -> T3 !! k = Some t ->
  length t = ncols /\ key_at pk t k.
Proof.
  intros Hl Hc Ht. destruct (T3_either _ _ Ht) as [H|H].
  - by destruct (wf_table_row_at _ _ Hatt Hlay _ _ _ Hwf0 H) as (? & _ & ?).
  - by destruct (wf_table_row_at _ _ Hatt Hlay _ _ _ (inv_wf _ _ _ _ _ Hinv) H) as (? & _ & ?).
Qed.

Lemma updated_live i l k t :
  L !! i = Some l -> live l k -> T3 !! k = Some t ->
  S1 !! k = Some (updated_row plan (staged_of (mkStagingRow OpUpsert (lineage_cells l) None)) t).
Proof.
  intros Hl [Hc Ho] Ht. pose proof (lineage_facts _ _ Hl) as Hok.
  destruct (T3_row _ _ _ _ Hl Hc Ht) as [Hlt Hkt].
  rewrite (updated_row_staged _ _ _ _ Hplan Hatt Hlay
    (mkStagingRow OpUpsert (lineage_cells l) None) t k);
    [|apply Hok|done|by apply (lo_key _ _ _ _ _ Hok)|done].
  destruct (lo_row _ _ _ _ _ Hok _ Hc) as (row & Hr & Hm). rewrite Hr. f_equal. cbn.
  destruct Ho as [Ho|Ho]; rewrite Ho in Hm.
  - subst row. destruct (new_lineage_plain _ _ _ Hl Ho Hc) as [_ Hp].
    symmetry. apply overlay_full; [|done]. by rewrite (lo_length _ _ _ _ _ Hok).
  - destruct Hm as (base & Hbase & ->). rewrite (T3_origin _ _ _ Hl Hc Ho) in Ht. congruence.
Qed.

Lemma elem_of_updated k row :
  (k, row) ∈ updated_rows plan T3 staging -> S1 !! k = Some row.
Proof.
  unfold updated_rows. intros (s & (i & l & r & Hl & Hr & Hop & ->)%elem_of_op & H)%list_elem_of_omap.
  rewrite (s_key_of_row _ _ _ Hl Hr) in H.
  destruct (row_of_upsert _ _ Hr Hop) as (k1 & Hc & Ho & ->). unfold row_key in H. rewrite Hc in H.
  cbn in H. destruct (T3 !! k1) as [t|] eqn:Ht; [|done]. cbn in H. injection H as <- <-.
  by eapply updated_live.
Qed.

Lemma NoDup_updated T : NoDup (updated_rows plan T staging).*1.
Proof.
  apply (NoDup_selected (s_key plan)); [|apply NoDup_staging_keys]. intros s x H.
  destruct (s_key plan s) as [k|]; [|done]. cbn in H. destruct (T !! k); [|done]. cbn in H.
  by injection H as <-.
Qed.

Lemma live_updated i l k t :
  L !! i = Some l -> live l k -> T3 !! k = Some t ->
  exists row, (k, row) ∈ updated_rows plan T3 staging.
Proof.
  intros Hl Hlv Ht. destruct (live_staged _ _ _ Hl Hlv) as [Hin Hk].
  eexists. apply list_elem_of_omap. eexists. split; [exact Hin|]. rewrite Hk. cbn. by rewrite Ht.
Qed.

(** The table after the update, which is skipped when there is nothing to assign. *)
Definition T4 : Table :=
  match ap_update_sql plan with
  | Some _ => (update_statement plan T3 staging).2
  | None => T3
  end.

Lemma T4_spec :
  (forall k, T3 !! k = None -> T4 !! k = None) /\
  (forall k, T4 !! k = T3 !! k \/ T4 !! k = S1 !! k) /\
  (forall i l k t, L !! i = Some l -> live l k -> T3 !! k = Some t -> T4 !! k = S1 !! k).
Proof.
  unfold T4. destruct (ap_update_sql plan) as [u|] eqn:Hu.
  - unfold update_statement. cbn [snd]. split_and!.
    + intros k Hn. rewrite insert_all_lookup, not_elem_of_list_to_map_1; [done|].
      intros ([k1 row] & -> & (s & _ & H)%list_elem_of_omap)%list_elem_of_fmap.
      destruct (s_key plan s) as [k|]; [|done]. cbn in H.
      destruct (T3 !! k) as [t|] eqn:Ht; [|done]. cbn in H, Hn. injection H as -> <-. congruence.
    + intros k. rewrite insert_all_lookup. destruct (list_to_map _ !! k) as [r|] eqn:E; [|by left].
      right. symmetry. apply elem_of_updated. by apply elem_of_list_to_map_2.
    + intros i l k t Hl Hlv Ht. destruct (live_updated _ _ _ _ Hl Hlv Ht) as [row Hin].
      rewrite insert_all_lookup, (elem_of_list_to_map_1 _ k row); [|apply NoDup_updated|done].
      symmetry. by apply elem_of_updated.
  - split_and!; [done|by left|]. intros i l k t Hl Hlv Ht.
    rewrite (updated_live _ _ _ _ Hl Hlv Ht), Ht. f_equal.
    destruct Hlv as [Hc _]. destruct (T3_row _ _ _ _ Hl Hc Ht) as [Hlt _].
    symmetry. apply (updated_row_no_presence schema target); [done| |done].
    by apply (pfa_update _ _ _ Hplan).
Qed.

(** *** The insert *)

Lemma elem_of_inserted k row : (k, row) ∈ inserted_rows plan T4 staging -> S1 !! k = Some row.
Proof.
  unfold inserted_rows. intros (s & (i & l & r & Hl & Hr & Hop & ->)%elem_of_op & H)%list_elem_of_omap.
  rewrite (s_key_of_row _ _ _ Hl Hr) in H.
  destruct (row_of_upsert _ _ Hr Hop) as (k1 & Hc & Ho & ->). unfold row_key in H. rewrite Hc in H.
  cbn in H. case_bool_decide as Hn; [|done]. injection H as <- <-.
  destruct Ho as [Ho|Ho].
  - destruct (new_lineage_plain _ _ _ Hl Ho Hc) as [Hr1 Hp]. rewrite Hr1. f_equal.
    symmetry. clear -Hp. induction (lineage_cells l) as [|c cs IH]; cbn in *; [done|].
    apply andb_true_iff in Hp as [Hc Hp]. rewrite IH by done. by destruct c.
  - destruct (lo_origin _ _ _ _ _ (lineage_facts _ _ Hl) _ Ho) as [base Hb].
    rewrite <-(T3_origin _ _ _ Hl Hc Ho) in Hb.
    destruct T4_spec as (_ & _ & H4). rewrite (H4 i l k1 base Hl (conj Hc (or_intror Ho)) Hb) in Hn.
    destruct (lo_row _ _ _ _ _ (lineage_facts _ _ Hl) _ Hc) as (row & Hr1 & _). congruence.
Qed.

Lemma NoDup_inserted T : NoDup (inserted_rows plan T staging).*1.
Proof.
  apply (NoDup_selected (s_key plan)); [|apply NoDup_staging_keys]. intros s x H.
  destruct (s_key plan s) as [k|]; [|done]. cbn in H. case_bool_decide; [|done].
  by injection H as <-.
Qed.

Lemma insert_Ok : exists n, insert_statement plan T4 staging = Ok (n, S1).
Proof.
  unfold insert_statement.
  destruct (insert_rows_Ok T4 (inserted_rows plan T4 staging)) as (T5 & -> & H5).
  - apply NoDup_inserted.
  - intros k ([k1 row] & -> & (s & _ & H)%list_elem_of_omap)%list_elem_of_fmap.
    destruct (s_key plan s) as [k|]; [|done]. cbn in H. case_bool_decide; [|done].
    by injection H as <- _.
  - cbn. eexists. do 2 f_equal. apply map_eq. intros k. rewrite H5.
    destruct (list_to_map _ !! k) as [r|] eqn:E.
    { apply elem_of_list_to_map_2 in E. symmetry. by apply elem_of_inserted. }
    destruct T4_spec as (H4n & H4e & H4l).
    destruct (cur !! k) as [i|] eqn:Hcur.
    2:{ destruct (H4e k) as [->|]; [by apply T3_gone|done]. }
    apply (inv_current _ _ _ _ _ Hinv) in Hcur as (l & Hl & Hc).
    destruct (live_or_moved _ _ Hc) as [Hlv|[k0 Hm]].
    + destruct (T3 !! k) as [t|] eqn:Ht; [by eapply H4l|]. exfalso.
      destruct (live_staged _ _ _ Hl Hlv) as [Hin Hk].
      apply not_elem_of_list_to_map_2 in E. apply E. apply list_elem_of_fmap.
      eexists (k, _). split; [done|]. apply list_elem_of_omap. eexists. split; [exact Hin|].
      rewrite Hk. cbn. by rewrite bool_decide_true by (by apply H4n).
    + destruct (H4e k) as [->|]; [by eapply T3_moved|done].
Qed.
End after_moves.

(** ** Validation *)

Lemma s_old_none r :
  sr_old_key r = None ->
  existsb (fun c => bool_decide (is_Some (cell_value c))) (sg_old (staged_of r)) = false.
Proof.
  cbn. intros ->. induction (cl_old_key_columns (ap_copy_layout plan)) as [|o os IH]; [done|exact IH].
Qed.

Lemma all_present cs op old :
  length cs = ncols -> forallb plain cs = true ->
  forallb id (sg_present (staged_of (mkStagingRow op cs old))) = true.
Proof.
  intros Hl Hp. cbn. apply forallb_forall. intros b Hb.
  apply list_elem_of_In, list_elem_of_fmap in Hb as (p & -> & Hin). cbn.
  pose proof (presence_bound _ _ _ Hplan p Hin) as Hb.
  destruct (lookup_lt_is_Some_2 cs (pc_source_column_index p)) as [c Hc]; [lia|].
  rewrite (cell_at_lookup _ _ _ Hc). rewrite forallb_forall in Hp.
  apply list_elem_of_lookup_2, list_elem_of_In in Hc. specialize (Hp c Hc). by destruct c.
Qed.

Lemma valid_row i l r :
  L !! i = Some l -> row_of l = Some r -> invalid_row plan S0 (staged_of r) = false.
Proof.
  intros Hl Hr. pose proof (lineage_facts _ _ Hl) as Hok.
  destruct (row_of_ok _ _ _ Hl Hr) as (k & Hrk & Hro).
  unfold invalid_row. rewrite (s_key_of_row _ _ _ Hl Hr), Hrk, !has_op_staged. cbn [mbind option_bind].
  destruct (sr_operation r) eqn:Hop; cbn [orb andb negb].
  - destruct (row_of_upsert _ _ Hr Hop) as (k1 & Hc & Ho & ->).
    unfold row_key in Hrk. rewrite Hc in Hrk. injection Hrk as ->.
    rewrite s_old_none by done. cbn. rewrite !orb_false_r. apply andb_false_iff.
    destruct Ho as [Ho|Ho].
    + right. destruct (new_lineage_plain _ _ _ Hl Ho Hc) as [_ Hp].
      apply negb_false_iff. pose proof (all_present (lineage_cells l) OpUpsert None) as H.
      apply H; [apply Hok|done].
    + left. destruct (lo_origin _ _ _ _ _ Hok _ Ho) as [base ->]. done.
  - destruct (row_of_delete _ _ Hr Hop) as (k1 & _ & _ & _ & ->).
    rewrite s_old_none by done. done.
  - destruct (row_of_move _ _ Hr Hop) as (k0 & k1 & (Ho & Hc & Hne) & ->).
    unfold row_key in Hrk. rewrite Hc in Hrk. injection Hrk as ->.
    rewrite (s_old_key_text _ _ k0) by done. cbn [mbind option_bind].
    rewrite (lo_moved _ _ _ _ _ Hok _ _ Ho Hc Hne).
    destruct (lo_origin _ _ _ _ _ Hok _ Ho) as [base ->].
    rewrite (bool_decide_false (Some k = Some k0)) by congruence. done.
Qed.

Lemma s_key_Some s : s ∈ staging -> is_Some (s_key plan s).
Proof.
  intros (i & l & r & Hl & Hr & ->)%elem_of_staging. rewrite (s_key_of_row _ _ _ Hl Hr).
  destruct (row_of_ok _ _ _ Hl Hr) as (k & -> & _). done.
Qed.

Lemma NoDup_group_keys : NoDup (map (group_key plan) staging).
Proof.
  pose proof NoDup_staging_keys as Hnd. pose proof s_key_Some as Hk. revert Hnd Hk.
  induction staging as [|s l IH]; cbn; intros Hnd Hk; [constructor|].
  destruct (Hk s ltac:(by left)) as [k Hks]. rewrite Hks in Hnd. apply NoDup_cons in Hnd as [Hni Hnd].
  apply NoDup_cons. split; [|apply IH; [done|intros x Hx; apply Hk; by right]].
  intros (s' & Heq & Hs')%list_elem_of_fmap. apply Hni.
  destruct (Hk s' ltac:(by right)) as [k' Hks'].
  rewrite (group_key_staged plan s k), (group_key_staged plan s' k') in Heq by done.
  apply list_elem_of_omap. exists s'. split; [done|]. rewrite Hks'. f_equal.
  symmetry. by apply (inj (map Some)).
Qed.

Lemma NoDup_group_old_keys : NoDup (map group_old_key (List.filter (has_op OpMove) staging)).
Proof.
  assert (Hm : forall s, s ∈ List.filter (has_op OpMove) staging ->
    exists k0 i l k, L !! i = Some l /\ is_moved l k0 k /\ group_old_key s = map Some k0 /\
      s = staged_of (mkStagingRow OpMove (lineage_cells l) (Some (key_cells k0)))).
  { intros s (i & l & r & Hl & Hr & Hop & ->)%elem_of_op.
    destruct (row_of_move _ _ Hr Hop) as (k0 & k & Hmv & ->). exists k0, i, l, k.
    split_and!; try done. unfold group_old_key, key_cells. cbn. by rewrite map_map. }
  apply NoDup_fmap_2_strong.
  - intros s s' Hs Hs' Heq. destruct (Hm s Hs) as (k0 & i & l & k & Hl & Hmv & Hg & ->).
    destruct (Hm s' Hs') as (k0' & i' & l' & k' & Hl' & Hmv' & Hg' & ->).
    rewrite Hg, Hg' in Heq. apply (inj (map Some)) in Heq as <-.
    destruct Hmv as (Ho & _), Hmv' as (Ho' & _).
    pose proof (org_origin _ _ _ Hl Ho). pose proof (org_origin _ _ _ Hl' Ho').
    assert (i = i') as <- by congruence. congruence.
  - apply NoDup_filter_bool. apply (NoDup_fmap_1 (group_key plan)), NoDup_group_keys.
Qed.

Lemma validation_passes : validation plan S0 staging = false.
Proof.
  unfold validation, repeated. rewrite !orb_false_iff. split_and!.
  - apply not_true_iff_false. intros (s & Hs & Hi)%existsb_exists.
    apply list_elem_of_In, elem_of_staging in Hs as (i & l & r & Hl & Hr & ->).
    by rewrite (valid_row _ _ _ Hl Hr) in Hi.
  - rewrite bool_decide_true; [done|apply NoDup_group_keys].
  - rewrite bool_decide_true; [done|apply NoDup_group_old_keys].
Qed.

(** ** The table apply *)

Lemma apply_Ok outcome :
  exists counts, apply_table accepts plan S0 (omap row_of L) outcome = Ok (S1, counts).
Proof.
  destruct move_Ok as (moved & T2 & Hmove & HT2).
  destruct (insert_Ok T2 HT2) as (inserted & Hins). unfold apply_table.
  case_bool_decide as Hemp.
  - exists outcome. do 2 f_equal. apply length_zero_iff_nil in Hemp.
    assert (Hs : staging = []).
    { pose proof stage_all_Ok as H. rewrite Hemp in H. by injection H as <-. }
    apply map_eq. intros k.
    assert (HT1 : T1 = S0) by (unfold T1, deleted_keys; by rewrite Hs).
    assert (HT3 : T3 T2 !! k = S0 !! k).
    { unfold T3, left_keys. rewrite Hs. cbn. rewrite HT2, Hs, HT1. cbn. by rewrite lookup_empty. }
    assert (HT4 : T4 T2 = T3 T2).
    { unfold T4, update_statement. rewrite Hs. by destruct (ap_update_sql plan). }
    rewrite Hs, HT4 in Hins. cbn in Hins. injection Hins as _ Hins. by rewrite <-Hins.
  - rewrite copy_rows_accepted, stage_all_Ok. unfold ran, accepts. cbn [mbind result_bind].
    rewrite validation_passes.
    unfold delete_statement, delete_matching. fold deleted_keys T1. rewrite Hmove.
    cbn [mbind result_bind]. unfold delete_moved_statement, delete_matching. fold left_keys (T3 T2).
    unfold T4 in Hins. destruct (ap_update_sql plan) as [u|].
    + destruct (update_statement plan (T3 T2) staging) as [updated T4']. cbn [snd] in Hins.
      cbn [mbind result_bind]. rewrite Hins. cbn. eauto.
    + cbn [mbind result_bind]. rewrite Hins. cbn. eauto.
Qed.
(** *** Replaying the staging rows *)

(** A row moved away from a key that a row has again at the end of the batch. *)
Definition reused : Prop := exists k0, k0 ∈ left_keys /\ is_Some (S1 !! k0).

Lemma deleted_gone k : k ∈ deleted_keys -> S1 !! k = None.
Proof.
  intros (i & l & Hl & Ho & _ & Hcur)%elem_of_deleted.
  by apply (inv_left _ _ _ _ _ Hinv _ i), (org_origin _ _ _ Hl).
Qed.

Lemma live_row i l k : L !! i = Some l -> current_key l = Some k -> exists row, S1 !! k = Some row.
Proof. intros Hl Hc. destruct (lo_row _ _ _ _ _ (lineage_facts _ _ Hl) _ Hc) as (row & ? & _). eauto. Qed.

(** A move from a key in use, to a key in use. *)
Lemma reused_invalid : reused -> validation plan S1 staging = true.
Proof.
  intros (k0 & (i & l & k & Hl & Hm)%elem_of_left & [row0 Hrow0]).
  pose proof (row_of_moved _ _ _ Hm) as Hr. unfold validation. rewrite !orb_true_iff. left. left.
  apply existsb_exists. eexists. split; [apply list_elem_of_In, elem_of_staging; eauto 10|].
  unfold invalid_row. rewrite (s_key_of_row _ _ _ Hl Hr), (s_old_key_text _ _ k0) by done.
  destruct Hm as (_ & Hc & _). unfold row_key. rewrite Hc.
  destruct (live_row _ _ _ Hl Hc) as [row Hrow]. cbn [mbind option_bind]. rewrite Hrow, Hrow0.
  rewrite !has_op_staged. cbn. by rewrite !orb_true_r.
Qed.

Section replayed.
Hypothesis Hfree : ~ reused.

Lemma left_gone k0 : k0 ∈ left_keys -> S1 !! k0 = None.
Proof. intros Hk. apply eq_None_not_Some. intros Hs. apply Hfree. by exists k0. Qed.

Lemma replay_valid_row i l r :
  L !! i = Some l -> row_of l = Some r -> invalid_row plan S1 (staged_of r) = false.
Proof.
  intros Hl Hr. destruct (row_of_ok _ _ _ Hl Hr) as (k & Hrk & Hro).
  unfold invalid_row. rewrite (s_key_of_row _ _ _ Hl Hr), Hrk, !has_op_staged. cbn [mbind option_bind].
  destruct (sr_operation r) eqn:Hop; cbn [orb andb negb].
  - destruct (row_of_upsert _ _ Hr Hop) as (k1 & Hc & Ho & ->).
    unfold row_key in Hrk. rewrite Hc in Hrk. injection Hrk as ->.
    destruct (live_row _ _ _ Hl Hc) as [row ->]. by rewrite s_old_none.
  - destruct (row_of_delete _ _ Hr Hop) as (k1 & _ & _ & _ & ->). by rewrite s_old_none.
  - destruct (row_of_move _ _ Hr Hop) as (k0 & k1 & (Ho & Hc & Hne) & ->).
    unfold row_key in Hrk. rewrite Hc in Hrk. injection Hrk as ->.
    rewrite (s_old_key_text _ _ k0) by done. cbn [mbind option_bind].
    destruct (live_row _ _ _ Hl Hc) as [row ->]. rewrite left_gone by (apply elem_of_left; exists i, l, k; done).
    by rewrite (bool_decide_false (Some k = Some k0)) by congruence.
Qed.

Lemma replay_valid : validation plan S1 staging = false.
Proof.
  unfold validation, repeated. rewrite !orb_false_iff. split_and!.
  - apply not_true_iff_false. intros (s & Hs & Hi)%existsb_exists.
    apply list_elem_of_In, elem_of_staging in Hs as (i & l & r & Hl & Hr & ->).
    by rewrite (replay_valid_row _ _ _ Hl Hr) in Hi.
  - rewrite bool_decide_true; [done|apply NoDup_group_keys].
  - rewrite bool_decide_true; [done|apply NoDup_group_old_keys].
Qed.

Lemma foldr_delete_absent (T : Table) ks : (forall k, k ∈ ks -> T !! k = None) -> foldr delete T ks = T.
Proof. intros H. apply map_eq. intros k. rewrite foldr_delete_lookup. case_decide; [by rewrite H|done]. Qed.

Lemma omap_nothing {A B} (f : A -> option B) l : (forall x, x ∈ l -> f x = None) -> omap f l = [].
Proof.
  intros H. induction l as [|x l IH]; [done|]. cbn. rewrite H by by left. apply IH. intros y Hy. apply H. by right.
Qed.

Lemma replay_moves_nothing : moved_rows plan S1 staging = [].
Proof.
  apply omap_nothing. intros s (i & l & r & Hl & Hr & Hop & ->)%elem_of_op.
  destruct (row_of_move _ _ Hr Hop) as (k0 & k & Hm & ->). rewrite (s_old_key_text _ _ k0) by done.
  cbn [mbind option_bind]. by rewrite left_gone by (apply elem_of_left; eauto 10).
Qed.

Lemma replay_inserts_nothing : inserted_rows plan S1 staging = [].
Proof.
  apply omap_nothing. intros s (i & l & r & Hl & Hr & Hop & ->)%elem_of_op.
  destruct (row_of_upsert _ _ Hr Hop) as (k & Hc & _ & ->). rewrite (s_key_of_row _ _ _ Hl Hr).
  unfold row_key. rewrite Hc. cbn [mbind option_bind]. by destruct (live_row _ _ _ Hl Hc) as [row ->].
Qed.

(** The cells of an upsert are in the row already. *)
Lemma replay_updates_nothing k row : (k, row) ∈ updated_rows plan S1 staging -> S1 !! k = Some row.
Proof.
  unfold updated_rows. intros (s & (i & l & r & Hl & Hr & Hop & ->)%elem_of_op & H)%list_elem_of_omap.
  rewrite (s_key_of_row _ _ _ Hl Hr) in H.
  destruct (row_of_upsert _ _ Hr Hop) as (k1 & Hc & Ho & ->). unfold row_key in H. rewrite Hc in H.
  pose proof (lineage_facts _ _ Hl) as Hok. destruct (lo_row _ _ _ _ _ Hok _ Hc) as (t & Ht & Hm).
  cbn in H. rewrite Ht in H. cbn in H. injection H as <- <-. rewrite Ht. f_equal.
  destruct (wf_table_row_at _ _ Hatt Hlay _ _ _ (inv_wf _ _ _ _ _ Hinv) Ht) as (Hlt & _ & Hkt).
  rewrite (updated_row_staged _ _ _ _ Hplan Hatt Hlay
    (mkStagingRow OpUpsert (lineage_cells l) None) t k1);
    [|apply Hok|done|by apply (lo_key _ _ _ _ _ Hok)|done]. cbn.
  destruct Ho as [Ho|Ho]; rewrite Ho in Hm.
  - subst t. destruct (new_lineage_plain _ _ _ Hl Ho Hc) as [_ Hp]. by rewrite overlay_full.
  - destruct Hm as (base & Hbase & ->).
    destruct (wf_table_row_at _ _ Hatt Hlay _ _ _ Hwf0 Hbase) as (Hlb & _).
    rewrite overlay_assoc by (rewrite (lo_length _ _ _ _ _ Hok); done). f_equal.
    symmetry. apply overlay_self.
Qed.

Lemma replay_update : (update_statement plan S1 staging).2 = S1.
Proof.
  unfold update_statement. cbn [snd]. apply map_eq. intros k. rewrite insert_all_lookup.
  destruct (list_to_map _ !! k) as [row|] eqn:E; [|done].
  symmetry. apply replay_updates_nothing. by apply elem_of_list_to_map_2.
Qed.

Lemma replay_Ok outcome :
  exists counts, apply_table accepts plan S1 (omap row_of L) outcome = Ok (S1, counts).
Proof.
  unfold apply_table. case_bool_decide; [by eexists|].
  rewrite copy_rows_accepted, stage_all_Ok. unfold ran, accepts. cbn [mbind result_bind].
  rewrite replay_valid. unfold delete_statement, delete_matching. fold deleted_keys.
  rewrite (foldr_delete_absent S1 deleted_keys) by apply deleted_gone.
  unfold move_statement. rewrite replay_moves_nothing. cbn [insert_rows mbind result_bind].
  unfold delete_moved_statement, delete_matching. fold left_keys.
  rewrite (foldr_delete_absent S1 left_keys) by apply left_gone.
  pose proof replay_update as Hu. destruct (update_statement plan S1 staging) as [n T]. cbn in Hu. subst T.
  unfold insert_statement.
  destruct (ap_update_sql plan); cbn [mbind result_bind]; rewrite replay_inserts_nothing; cbn; eauto.
Qed.
End replayed.

Lemma replay_refused outcome : reused ->
  apply_table accepts plan S1 (omap row_of L) outcome
  = Err (InvalidBatch (QualifiedName_to_string (ctp_target (ap_table plan)))).
Proof.
  intros Hr. unfold apply_table. rewrite bool_decide_false.
  - rewrite copy_rows_accepted, stage_all_Ok. unfold ran, accepts. cbn [mbind result_bind].
    by rewrite (reused_invalid Hr).
  - destruct Hr as (k0 & (i & l & k & Hl & Hm)%elem_of_left & _). intros Hn.
    apply length_zero_iff_nil in Hn. apply (list_elem_of_lookup_2 L i) in Hl.
    assert (H : mkStagingRow OpMove (lineage_cells l) (Some (key_cells k0)) ∈ omap row_of L).
    { apply list_elem_of_omap. exists l. split; [done|by eapply row_of_moved]. }
    rewrite Hn in H. by apply elem_of_nil in H.
Qed.

(** The keys moved away from, read off the staging rows. *)
Lemma elem_of_left_row k0 :
  k0 ∈ left_keys <-> exists r, r ∈ omap row_of L /\ sr_operation r = OpMove /\ sr_old_key r = Some (key_cells k0).
Proof.
  rewrite elem_of_left. split.
  - intros (i & l & k & Hl & Hm). exists (mkStagingRow OpMove (lineage_cells l) (Some (key_cells k0))).
    split; [|done]. apply list_elem_of_omap. exists l. split; [by eapply list_elem_of_lookup_2|by eapply row_of_moved].
  - intros (r & (l & [i Hl]%list_elem_of_lookup & Hr)%list_elem_of_omap & Hop & Hold).
    destruct (row_of_move _ _ Hr Hop) as (k1 & k & Hm & ->). cbn in Hold. injection Hold as Hold.
    apply (list_fmap_eq_inj Text) in Hold as ->; [eauto|by intros ? ? [= ->]].
Qed.
End final.

(** A row of the batch moves away from a key that a row of the table has. *)
Definition moves_off_live_key (rows : list StagingRow) (T : Table) : Prop := exists r k0,
  r ∈ rows /\ sr_operation r = OpMove /\ sr_old_key r = Some (map Text k0) /\ is_Some (T !! k0).

(** What folding a batch and applying its staging rows, once and again, amounts to. *)
Lemma batch_refines_twice schema target name plan S0 S1 changes :
  plan_apply schema target name = Ok plan ->
  NoDup (map col_attnum (ts_columns schema)) ->
  wf_table schema S0 -> source_run schema S0 changes S1 ->
  match normalize_table_changes schema changes with
  | Ok rows => wf_table schema S1 /\
      (forall outcome, exists counts, apply_table accepts plan S0 rows outcome = Ok (S1, counts)) /\
      (moves_off_live_key rows S1 -> forall outcome, apply_table accepts plan S1 rows outcome
         = Err (InvalidBatch (QualifiedName_to_string (ctp_target (ap_table plan))))) /\
      (~ moves_off_live_key rows S1 -> forall outcome, exists counts,
         apply_table accepts plan S1 rows outcome = Ok (S1, counts))
  | Err e => e = reuse_error /\ Exists (fun c => carries_old_key (tc_change c)) changes
  | Panic => False
  end.
Proof.
  intros Hplan Hatt Hwf Hrun. pose proof (plan_apply_Ok _ _ _ _ Hplan) as Hfacts.
  destruct (plan_create_table_Ok _ _ _ (pfa_table _ _ _ Hfacts)) as (Hsup & _).
  destruct (PrimaryKeyLayout_new_Ok (E := NormalizeError) schema Hatt) as (pk & Hpk & Hlay).
  unfold normalize_table_changes. rewrite (proj2 (validate_supported_Ok schema) Hsup).
  cbn [map_err mbind result_bind]. unfold Normalizer_new. rewrite Hpk. cbn [mbind result_bind].
  pose proof (run_refines schema pk Hatt Hlay S0 Hwf S0 _ changes S1
    (inv_initial schema pk S0 Hwf) Hrun) as Hfold.
  destruct (foldM _ _ changes) as [nz|e|]; cbn in Hfold |- *; [|exact Hfold|done].
  rewrite (finish_Ok schema pk Hatt Hlay S0 S1 nz Hwf Hfold). split; [apply Hfold|].
  assert (Hre : moves_off_live_key (omap (row_of schema pk nz) (nz_lineages nz)) S1
                <-> reused schema plan pk S1 nz).
  { unfold moves_off_live_key, reused. setoid_rewrite (elem_of_left_row schema plan pk nz).
    unfold key_cells. naive_solver. }
  rewrite Hre. split; [by apply (apply_Ok schema target plan pk Hfacts Hatt Hlay S0 S1 nz Hwf Hfold)|].
  split; intros Hr outcome.
  - by eapply (replay_refused schema target plan pk Hfacts Hatt Hlay S0 S1 nz Hwf Hfold).
  - by apply (replay_Ok schema target plan pk Hfacts Hatt Hlay S0 S1 nz Hwf Hfold).
Qed.

(** What the first application amounts to. *)
Lemma batch_refines schema target name plan S0 S1 changes :
  plan_apply schema target name = Ok plan ->
  NoDup (map col_attnum (ts_columns schema)) ->
  wf_table schema S0 -> source_run schema S0 changes S1 ->
  match normalize_table_changes schema changes with
  | Ok rows => wf_table schema S1 /\
      forall outcome, exists counts, apply_table accepts plan S0 rows outcome = Ok (S1, counts)
  | Err e => e = reuse_error /\ Exists (fun c => carries_old_key (tc_change c)) changes
  | Panic => False
  end.
Proof.
  intros Hplan Hatt Hwf Hrun. pose proof (batch_refines_twice _ _ _ _ _ _ _ Hplan Hatt Hwf Hrun) as H.
  destruct (normalize_table_changes schema changes) as [rows|e|]; tauto.
Qed.

(** ** Properties *)

(** Run on [S0], the plan's statements accept the staging rows and leave [S1] behind. *)
Definition turns_into (plan : ApplyPlan) (S0 : Table) (rows : list StagingRow) (S1 : Table) : Prop :=
  forall outcome, exists counts, apply_table accepts plan S0 rows outcome = Ok (S1, counts).

(** C3: the refinement at the centre of the pipeline. For a supported table whose source
    went from [S0] to [S1] by the row changes of a batch, the normalizer either reports the
    one sequence it does not support - some update moved a row onto a key that another row
    had when the batch began - or produces staging rows that Cloudberry accepts and whose
    statements turn a copy of [S0] into exactly [S1]. It never panics, never fails otherwise,
    and never fails when no update carries an old key. *)
Theorem normalized_batch_reproduces_the_source schema target name plan S0 S1 changes :
  plan_apply schema target name = Ok plan ->
  NoDup (map col_attnum (ts_columns schema)) ->
  wf_table schema S0 -> source_run schema S0 changes S1 ->
  match normalize_table_changes schema changes with
  | Ok rows => turns_into plan S0 rows S1
  | Err e => e = AmbiguousSequence "primary-key update reuses another batch-start key" /\
             Exists (fun c => carries_old_key (tc_change c)) changes
  | Panic => False
  end.
Proof.
  intros Hplan Hatt Hwf Hrun. pose proof (batch_refines _ _ _ _ _ _ _ Hplan Hatt Hwf Hrun) as H.
  destruct (normalize_table_changes schema changes) as [rows|e|]; [|exact H|done]. by destruct H.
Qed.

(** ** Witness *)

Definition int4 : PgType := mkPgType 23 (mkQualifiedName "pg_catalog" "int4") TInt4.
Definition text : PgType := mkPgType 25 (mkQualifiedName "pg_catalog" "text") TText.
Definition example_items : TableSchema :=
  mkTableSchema 7 1 (mkQualifiedName "public" "items") Ordinary RIDefault
    [mkColumnSchema 1 "id" int4 false (Some 1%Z) GenNone IdNone None;
     mkColumnSchema 2 "v" text true None GenNone IdNone None] [] [].
Definition example_S0 : Table := {[ [[x31]] := [Text [x31]; Text [x61]] ]}.
Definition example_S1 : Table := {[ [[x31]] := [Text [x31]; Text [x62]] ]}.

(** The row moves from key 1 to key 2, key 1 is inserted again, and key 2 is deleted. *)
Definition example_row_changes : list RowChange :=
  [Update (Some (mkTuple [Text [x31]])) (mkTuple [Text [x32]; UnchangedToast]);
   Insert (mkTuple [Text [x31]; Text [x62]]);
   Delete (mkTuple [Text [x32]; Null])].
Definition example_changes : list TableChange := map (mkTableChange 7 1) example_row_changes.

Lemma example_key row v : row !! 0%nat = Some (Text v) -> key_of example_items row [v].
Proof. intros H. vm_compute. constructor; [|constructor]. exists 0%nat. split; [reflexivity|exact H]. Qed.

Lemma example_wf : wf_table example_items example_S0.
Proof.
  intros k row H. unfold example_S0 in H. apply lookup_singleton_Some in H as [<- <-].
  split_and!; [done|done|by apply example_key]. Qed.

Lemma example_run : source_run example_items example_S0 example_changes example_S1.
Proof.
  eapply source_more; [|done|done|eapply source_more; [|done|done|eapply source_more; [|done|done|]]].
  - cbn. apply (source_update _ _ _ _ [[x31]] [[x32]] [Text [x31]; Text [x61]]).
    + apply lookup_singleton_eq.
    + done.
    + done.
    + right. split; [done|]. split; [reflexivity|]. vm_compute.
      constructor; [|constructor]. exists 0%nat, 0%nat. done.
    + by apply example_key.
    + right. by apply lookup_singleton_ne.
  - cbn. apply (source_insert _ _ _ [[x31]]); [done|done|by apply example_key|vm_compute; reflexivity].
  - cbn. eapply (source_delete _ _ _ [[x32]]); [|vm_compute; reflexivity].
    left. split; [done|by apply example_key].
  - assert (He : delete [[x32]] (<[[[x31]] := [Text [x31]; Text [x62]]]>
      (<[[[x32]] := [Text [x32]; Text [x61]]]> (delete [[x31]] example_S0))) = example_S1)
      by (vm_compute; reflexivity).
    cbn in He |- *. rewrite He. constructor.
Qed.

Lemma normalized_batch_reproduces_the_source_witness :
  exists plan rows counts,
    plan_apply example_items (mkQualifiedName "target" "items") "staging" = Ok plan /\
    normalize_table_changes example_items example_changes = Ok rows /\ length rows = 1%nat /\
    apply_table accepts plan example_S0 rows no_counts = Ok (example_S1, counts).
Proof.
  assert (exists plan, plan_apply example_items (mkQualifiedName "target" "items") "staging" = Ok plan)
    as [plan Hplan] by (eexists; vm_compute; reflexivity).
  assert (exists rows, normalize_table_changes example_items example_changes = Ok rows /\
    length rows = 1%nat) as (rows & Hrows & Hl).
  { eexists. split; [vm_compute; reflexivity|reflexivity]. }
  pose proof (normalized_batch_reproduces_the_source example_items (mkQualifiedName "target" "items")
    "staging" plan example_S0 example_S1 example_changes Hplan
    ltac:(apply (bool_decide_unpack _); vm_compute; exact I) example_wf example_run) as H.
  rewrite Hrows in H. destruct (H no_counts) as [counts H']. exists plan, rows, counts.
  exact (conj Hplan (conj Hrows (conj Hl H'))).
Defined.

(** ** Replaying a batch *)

Definition example_reuse_S0 : Table := {[ [[x31]] := [Text [x31]; Text [x61]] ]}.
Definition example_reuse : list TableChange :=
  map (mkTableChange 7 1)
    [Update (Some (mkTuple [Text [x31]])) (mkTuple [Text [x32]; UnchangedToast]);
     Insert (mkTuple [Text [x31]; Text [x62]])].

(** C40: a batch can be applied twice exactly when it does not reuse a key it moved a row away
    from. Let the staging rows of a batch have taken the target from [S0] to [S1]. If one of
    them moves a row off a key that a row of [S1] has again, then applying the very same rows
    to [S1] is rejected as an invalid batch; if none does, it is accepted and leaves [S1] as
    it is. *)
Theorem replay_is_idempotent_unless_a_key_is_reused schema target name plan S0 S1 changes rows :
  plan_apply schema target name = Ok plan ->
  NoDup (map col_attnum (ts_columns schema)) ->
  wf_table schema S0 -> source_run schema S0 changes S1 ->
  normalize_table_changes schema changes = Ok rows ->
  (moves_off_live_key rows S1 -> forall outcome,
     apply_table accepts plan S1 rows outcome
     = Err (InvalidBatch (QualifiedName_to_string (ctp_target (ap_table plan))))) /\
  (~ moves_off_live_key rows S1 -> turns_into plan S1 rows S1).
Proof.
  intros Hplan Hatt Hwf Hrun Hrows.
  pose proof (batch_refines_twice _ _ _ _ _ _ _ Hplan Hatt Hwf Hrun) as H. rewrite Hrows in H. apply H.
Qed.

Definition example_reuse_S1 : Table :=
  {[ [[x31]] := [Text [x31]; Text [x62]]; [[x32]] := [Text [x32]; Text [x61]] ]}.

Lemma example_reuse_run : source_run example_items example_reuse_S0 example_reuse example_reuse_S1.
Proof.
  eapply source_more; [|done|done|eapply source_more; [|done|done|]].
  - cbn. apply (source_update _ _ _ _ [[x31]] [[x32]] [Text [x31]; Text [x61]]).
    + apply lookup_singleton_eq.
    + done.
    + done.
    + right. split; [done|]. split; [reflexivity|]. vm_compute.
      constructor; [|constructor]. exists 0%nat, 0%nat. done.
    + by apply example_key.
    + right. by apply lookup_singleton_ne.
  - cbn. apply (source_insert _ _ _ [[x31]]); [done|done|by apply example_key|vm_compute; reflexivity].
  - assert (He : <[[[x31]] := [Text [x31]; Text [x62]]]>
      (<[[[x32]] := [Text [x32]; Text [x61]]]> (delete [[x31]] example_reuse_S0)) = example_reuse_S1)
      by (vm_compute; reflexivity).
    cbn in He |- *. rewrite He. constructor.
Qed.

(** The row moves from key 1 to key 2 and key 1 is inserted again: the second application fails;
    of the batch of the previous witness it succeeds. *)
Lemma replay_is_idempotent_unless_a_key_is_reused_witness :
  exists plan rows rows' counts,
    plan_apply example_items (mkQualifiedName "target" "items") "staging" = Ok plan /\
    normalize_table_changes example_items example_reuse = Ok rows /\
    apply_table accepts plan example_reuse_S1 rows no_counts = Err (InvalidBatch "target.items") /\
    normalize_table_changes example_items example_changes = Ok rows' /\
    apply_table accepts plan example_S1 rows' no_counts = Ok (example_S1, counts).
Proof.
  assert (exists plan, plan_apply example_items (mkQualifiedName "target" "items") "staging" = Ok plan /\
    QualifiedName_to_string (ctp_target (ap_table plan)) = "target.items")
    as (plan & Hplan & Hname) by (eexists; split; vm_compute; reflexivity).
  assert (exists row row', normalize_table_changes example_items example_reuse = Ok [row; row'] /\
    sr_operation row = OpMove /\ sr_old_key row = Some [Text [x31]]) as (row & row' & Hrows & Hop & Hold)
    by (do 2 eexists; split; [vm_compute; reflexivity|split; reflexivity]).
  assert (exists row, normalize_table_changes example_items example_changes = Ok [row] /\
    sr_operation row = OpUpsert) as (row2 & Hrows2 & Hop2)
    by (eexists; split; [vm_compute; reflexivity|reflexivity]).
  assert (Hatt : NoDup (map col_attnum (ts_columns example_items)))
    by (apply (bool_decide_unpack _); vm_compute; exact I).
  destruct (replay_is_idempotent_unless_a_key_is_reused example_items (mkQualifiedName "target" "items")
    "staging" plan example_reuse_S0 example_reuse_S1 example_reuse [row; row'] Hplan Hatt example_wf
    example_reuse_run Hrows) as [Hno _].
  destruct (replay_is_idempotent_unless_a_key_is_reused example_items (mkQualifiedName "target" "items")
    "staging" plan example_S0 example_S1 example_changes [row2] Hplan Hatt example_wf example_run Hrows2)
    as [_ Hyes].
  destruct (Hyes ltac:(intros (r & k0 & ->%list_elem_of_singleton & Hm & _); rewrite Hop2 in Hm; discriminate Hm)
    no_counts) as [counts Hc].
  exists plan, [row; row'], [row2], counts. rewrite <-Hname.
  split; [exact Hplan|]. split; [exact Hrows|]. split; [|exact (conj Hrows2 Hc)].
  apply Hno. exists row, [[x31]]. split; [left|]. split; [exact Hop|]. split; [exact Hold|].
  eexists. vm_compute. reflexivity.
Defined.
