(* ===== verification/Pipeline.v ===== *)
(** * The pipeline's errors, its state machine and its interfaces

    Models the definitions of [crates/engine/src/pipeline.rs] that do not involve the
    replication loop - [PipelineError], the [PipelineMachine], the traits
    [TransactionSource] and [TransactionSink] - and the phases of
    [crates/core/src/pipeline.rs]. *)

From S2P Require Import Prelude Core Schema Change Batch Sql TargetSchema Checkpoint Apply Normalize.

Inductive PipelinePhase : Type :=
| Draft | Validating | Snapshotting | CatchingUp | Running | Paused | Degraded | Failed | Stopped.
Global Instance PipelinePhase_eq_dec : EqDecision PipelinePhase.
Proof. solve_decision. Defined.

Inductive PipelineError : Type :=
| PipelineSource (message : string)
| PipelineTarget (message : string)
| SchemaBarrier (message : string)
| PipelineNormalize (e : NormalizeError)
| Acknowledge (message : string)
| PipelineBatch (e : BatchError)
| InvalidTransition (from to : PipelinePhase).

(** ** [PipelineMachine] *)

Record PipelineMachine : Type := mkPipelineMachine { phase : PipelinePhase }.

(** [PipelineMachine::default]. *)
Definition PipelineMachine_default : PipelineMachine := mkPipelineMachine Draft.

(** The [matches!] table of [transition]. *)
Definition transition_valid (from to : PipelinePhase) : bool :=
  bool_decide (from = to)
  || match from, to with
     | Draft, Validating
     | Validating, Snapshotting
     | Validating, Running
     | Snapshotting, CatchingUp
     | CatchingUp, Running
     | Running, Paused
     | Running, Degraded
     | Degraded, Running
     | Degraded, Paused
     | Paused, Validating
     | Failed, Validating
     | _, Failed
     | _, Stopped => true
     | _, _ => false
     end.

(** [PipelineMachine::transition]. *)
Definition transition (self : PipelineMachine) (to : PipelinePhase)
    : result PipelineError unit * PipelineMachine :=
  let from := phase self in
  if negb (transition_valid from to) then (Err (InvalidTransition from to), self)
  else (Ok tt, mkPipelineMachine to).

(** A history of attempted transitions, failed ones included. *)
Fixpoint transitions (self : PipelineMachine) (targets : list PipelinePhase)
    : list PipelinePhase * PipelineMachine :=
  match targets with
  | [] => ([], self)
  | to :: targets =>
      let (r, self) := transition self to in
      let (visited, self) := transitions self targets in
      (if is_ok r then to :: visited else visited, self)
  end.

(** Phases in which rows are being replicated. *)
Definition replicating (p : PipelinePhase) : bool :=
  match p with CatchingUp | Running | Degraded => true | _ => false end.

Lemma transition_spec self to r self' :
  transition self to = (r, self') ->
  (r = Ok tt /\ phase self' = to /\ transition_valid (phase self) to = true) \/
  (r = Err (InvalidTransition (phase self) to) /\ self' = self /\
   transition_valid (phase self) to = false).
Proof.
  unfold transition. destruct (transition_valid _ _); cbn; intros [= <- <-]; [by left|by right].
Qed.

(** A phase that was entered from another one was entered by a valid transition. *)
Lemma transitions_validated self targets visited self' :
  transitions self targets = (visited, self') ->
  replicating (phase self) = false -> replicating (phase self') = true -> Validating ∈ visited \/
  phase self = Validating \/ phase self = Snapshotting.
Proof.
  revert self visited. induction targets as [|to targets IH]; intros self visited; cbn.
  - intros [= <- <-]. congruence.
  - destruct (transition self to) as [r self1] eqn:Ht.
    destruct (transitions self1 targets) as [vs self2] eqn:Hts. intros [= <- <-] Hn Hr.
    destruct (transition_spec _ _ _ _ Ht) as [(-> & Hp & Hv)|(-> & -> & _)]; cbn; [|by eapply IH].
    destruct (replicating (phase self1)) eqn:Hr1.
    + rewrite Hp in Hr1. destruct (phase self), to; try done; auto.
    + destruct (IH _ _ Hts Hr1 Hr) as [Hin|[Hval|Hsnap]].
      * left. by right.
      * left. rewrite <-Hp, Hval. by left.
      * subst to. rewrite Hsnap in Hv. destruct (phase self); try done; auto.
Qed.

(** ** The interfaces of the replication loop *)

(** [TransactionSource]: what the loop takes its transactions from and acknowledges
    positions to.  A fetch is a future that the loop may drop while it waits; [interrupted]
    is what a fetch leaves behind that is dropped at its [n]-th wait. *)
Class TransactionSource (St : Type) : Type := {
  next_transaction : St -> result PipelineError (option SourceTransaction) * St;
  interrupted : nat -> St -> St;
  acknowledge : St -> SourcePosition -> result PipelineError unit * St;
  (** the position reported to the source server as durable *)
  durable_lsn : St -> Z;
}.

(** Its laws, for the states [inv] of a source of transactions that are [proper]: fetching,
    dropped or not, never moves the durable position; an acknowledgement moves it to the
    acknowledged position and never backwards, or reports an error and leaves it alone. *)
Class TransactionSourceLaws (St : Type) `{TransactionSource St} (inv : St -> Prop)
    (proper : SourceTransaction -> Prop) : Prop := {
  next_inv : forall s r s', inv s -> next_transaction s = (r, s') -> inv s';
  next_proper : forall s t s', inv s -> next_transaction s = (Ok (Some t), s') -> proper t;
  next_keeps_durable : forall s r s',
    inv s -> next_transaction s = (r, s') -> durable_lsn s' = durable_lsn s;
  interrupted_inv : forall n s, inv s -> inv (interrupted n s);
  interrupted_keeps_durable : forall n s, inv s -> durable_lsn (interrupted n s) = durable_lsn s;
  acknowledge_inv : forall s p r s', inv s -> acknowledge s p = (r, s') -> inv s';
  acknowledge_durable : forall s p r s', inv s -> acknowledge s p = (r, s') ->
    (durable_lsn s' = lsn p /\ (durable_lsn s <= lsn p)%Z) \/
    (durable_lsn s' = durable_lsn s /\ is_err r = true);
}.

(** [TransactionSink]: applies a batch and its checkpoint atomically. *)
Class TransactionSink (Db : Type) : Type := {
  apply : Db -> TransactionBatch -> result PipelineError unit * Db;
  (** the position the target has durably applied for the sink's node *)
  applied_lsn : Db -> option Z;
}.

(** Its laws, for batches of [proper] transactions: success means that the batch's last
    position is the applied one; whatever the outcome, the applied position is the old one or
    the batch's, and never moves backwards. *)
Class TransactionSinkLaws (Db : Type) `{TransactionSink Db} (proper : SourceTransaction -> Prop)
    : Prop := {
  apply_ok : forall db b db', Forall proper (transactions b) -> apply db b = (Ok tt, db') ->
    exists t, last (transactions b) = Some t /\ applied_lsn db' = Some (final_lsn t);
  apply_monotone : forall db b r db' l,
    Forall proper (transactions b) -> apply db b = (r, db') -> applied_lsn db = Some l ->
    exists l', applied_lsn db' = Some l' /\ (l <= l')%Z;
}.

Lemma source_laws_weaken {St} `{HS : TransactionSource St} inv (P Q : SourceTransaction -> Prop) :
  TransactionSourceLaws St inv P -> (forall t, P t -> Q t) -> TransactionSourceLaws St inv Q.
Proof.
  intros [] HPQ. split; try done. intros s t s' Hi Hn. eauto.
Qed.

(** *** Properties *)

(** The pipeline state machine never starts replicating unvalidated: however transitions
    are attempted, a pipeline that reaches a replicating phase from one that is not passed
    through validation, or was already past it; and a rejected transition leaves the phase
    alone and names both phases. *)
Theorem replication_is_validated self targets visited self' :
  transitions self targets = (visited, self') ->
  (replicating (phase self) = false -> replicating (phase self') = true ->
   Validating ∈ visited \/ phase self = Validating \/ phase self = Snapshotting) /\
  (forall to r self'', transition self' to = (r, self'') ->
     (is_ok r = true /\ phase self'' = to) \/
     (r = Err (InvalidTransition (phase self') to) /\ self'' = self')).
Proof.
  intros H. split; [by apply (transitions_validated _ _ _ _ H)|].
  intros to r self'' Ht. destruct (transition_spec _ _ _ _ Ht) as [(-> & ? & _)|(? & ? & _)]; auto.
Qed.

Lemma replication_is_validated_witness :
  transitions PipelineMachine_default [Running; Validating; Snapshotting; CatchingUp]
  = ([Validating; Snapshotting; CatchingUp], mkPipelineMachine CatchingUp) /\
  (Validating ∈ [Validating; Snapshotting; CatchingUp] \/ Draft = Validating \/ Draft = Snapshotting).
Proof.
  assert (H : transitions PipelineMachine_default [Running; Validating; Snapshotting; CatchingUp]
    = ([Validating; Snapshotting; CatchingUp], mkPipelineMachine CatchingUp)) by reflexivity.
  split; [exact H|]. by apply (replication_is_validated _ _ _ _ H).
Defined.
