(* ===== verification/Telemetry.v ===== *)
(** * Pipeline telemetry

    Models [crates/engine/src/telemetry.rs]: the runtime snapshot of a pipeline and the
    operations of its handle.  The handle is a mutex around the snapshot, so every operation
    is a function from the snapshot to the snapshot, run to completion before the next one;
    [Utc::now()] is an argument.  A poisoned mutex is entered as if it were not poisoned, so an
    operation that panics leaves behind the updates it had made. *)

From S2P Require Import Prelude Core Pipeline.

Inductive PipelineRuntimeState : Type := RtStarting | RtRunning | RtStopped | RtFailed | RtDegraded.
Global Instance PipelineRuntimeState_eq_dec : EqDecision PipelineRuntimeState.
Proof. solve_decision. Defined.

(** [PipelineRuntimeState::as_str]. *)
Definition runtime_state_as_str (self : PipelineRuntimeState) : string :=
  match self with
  | RtStarting => "starting"
  | RtRunning => "running"
  | RtStopped => "stopped"
  | RtFailed => "failed"
  | RtDegraded => "degraded"
  end.

(** Instants are microseconds since the epoch; a [u64] is a [Z]. *)
Record PipelineRuntimeSnapshot : Type := mkSnapshot {
  rt_pipeline_id : Z;
  rt_phase : PipelinePhase;
  rt_state : PipelineRuntimeState;
  source_received_lsn : option Z;
  source_current_lsn : option Z;
  target_checkpoint_lsn : option Z;
  estimated_byte_lag : option Z;
  slot_retained_wal_bytes : option Z;
  slot_safe_wal_bytes : option Z;
  wal_retention_warning : bool;
  last_transaction_at : option Z;
  last_apply_at : option Z;
  last_ack_at : option Z;
  started_at : option Z;
  stopped_at : option Z;
  restart_count : Z;
  last_error : option string;
}.

(** [PipelineRuntimeSnapshot::phase_name]. *)
Definition phase_name (self : PipelineRuntimeSnapshot) : string :=
  match rt_phase self with
  | Draft => "draft"
  | Validating => "validating"
  | Snapshotting => "snapshotting"
  | CatchingUp => "catching_up"
  | Running => "running"
  | Paused => "paused"
  | Degraded => "degraded"
  | Failed => "failed"
  | Stopped => "stopped"
  end.

(** [PipelineTelemetryHandle::new]. *)
Definition Telemetry_new (pipeline_id : Z) : PipelineRuntimeSnapshot :=
  mkSnapshot pipeline_id Draft RtStopped None None None None None None false None None None None None
    0 None.

(** ** Field updates *)

Definition set_rt_phase (p : PipelinePhase) (s : PipelineRuntimeSnapshot) : PipelineRuntimeSnapshot :=
  mkSnapshot (rt_pipeline_id s) p (rt_state s) (source_received_lsn s) (source_current_lsn s)
    (target_checkpoint_lsn s) (estimated_byte_lag s) (slot_retained_wal_bytes s)
    (slot_safe_wal_bytes s) (wal_retention_warning s) (last_transaction_at s) (last_apply_at s)
    (last_ack_at s) (started_at s) (stopped_at s) (restart_count s) (last_error s).
Definition set_rt_state (r : PipelineRuntimeState) (s : PipelineRuntimeSnapshot)
    : PipelineRuntimeSnapshot :=
  mkSnapshot (rt_pipeline_id s) (rt_phase s) r (source_received_lsn s) (source_current_lsn s)
    (target_checkpoint_lsn s) (estimated_byte_lag s) (slot_retained_wal_bytes s)
    (slot_safe_wal_bytes s) (wal_retention_warning s) (last_transaction_at s) (last_apply_at s)
    (last_ack_at s) (started_at s) (stopped_at s) (restart_count s) (last_error s).
(** The received, current and checkpoint positions. *)
Definition set_lsns (received current checkpoint : option Z) (s : PipelineRuntimeSnapshot)
    : PipelineRuntimeSnapshot :=
  mkSnapshot (rt_pipeline_id s) (rt_phase s) (rt_state s) received current checkpoint
    (estimated_byte_lag s) (slot_retained_wal_bytes s) (slot_safe_wal_bytes s)
    (wal_retention_warning s) (last_transaction_at s) (last_apply_at s) (last_ack_at s)
    (started_at s) (stopped_at s) (restart_count s) (last_error s).
Definition set_lag (lag : option Z) (s : PipelineRuntimeSnapshot) : PipelineRuntimeSnapshot :=
  mkSnapshot (rt_pipeline_id s) (rt_phase s) (rt_state s) (source_received_lsn s)
    (source_current_lsn s) (target_checkpoint_lsn s) lag (slot_retained_wal_bytes s)
    (slot_safe_wal_bytes s) (wal_retention_warning s) (last_transaction_at s) (last_apply_at s)
    (last_ack_at s) (started_at s) (stopped_at s) (restart_count s) (last_error s).
Definition set_wal (retained safe : option Z) (warning : bool) (s : PipelineRuntimeSnapshot)
    : PipelineRuntimeSnapshot :=
  mkSnapshot (rt_pipeline_id s) (rt_phase s) (rt_state s) (source_received_lsn s)
    (source_current_lsn s) (target_checkpoint_lsn s) (estimated_byte_lag s) retained safe warning
    (last_transaction_at s) (last_apply_at s) (last_ack_at s) (started_at s) (stopped_at s)
    (restart_count s) (last_error s).
(** The instants of the last transaction, apply and acknowledgement. *)
Definition set_activity (transaction apply ack : option Z) (s : PipelineRuntimeSnapshot)
    : PipelineRuntimeSnapshot :=
  mkSnapshot (rt_pipeline_id s) (rt_phase s) (rt_state s) (source_received_lsn s)
    (source_current_lsn s) (target_checkpoint_lsn s) (estimated_byte_lag s)
    (slot_retained_wal_bytes s) (slot_safe_wal_bytes s) (wal_retention_warning s) transaction apply
    ack (started_at s) (stopped_at s) (restart_count s) (last_error s).
(** The task's start, stop and number of restarts. *)
Definition set_lifecycle (started stopped : option Z) (restarts : Z) (s : PipelineRuntimeSnapshot)
    : PipelineRuntimeSnapshot :=
  mkSnapshot (rt_pipeline_id s) (rt_phase s) (rt_state s) (source_received_lsn s)
    (source_current_lsn s) (target_checkpoint_lsn s) (estimated_byte_lag s)
    (slot_retained_wal_bytes s) (slot_safe_wal_bytes s) (wal_retention_warning s)
    (last_transaction_at s) (last_apply_at s) (last_ack_at s) started stopped restarts (last_error s).
Definition set_last_error (e : option string) (s : PipelineRuntimeSnapshot) : PipelineRuntimeSnapshot :=
  mkSnapshot (rt_pipeline_id s) (rt_phase s) (rt_state s) (source_received_lsn s)
    (source_current_lsn s) (target_checkpoint_lsn s) (estimated_byte_lag s)
    (slot_retained_wal_bytes s) (slot_safe_wal_bytes s) (wal_retention_warning s)
    (last_transaction_at s) (last_apply_at s) (last_ack_at s) (started_at s) (stopped_at s)
    (restart_count s) e.

(** ** [trim_error] *)

Definition MAX_ERROR_BYTES : nat := 1024.

(** [String::truncate]: nothing past the end, a panic off a character boundary. *)
Definition truncate {E} (s : string) (new_len : nat) : result E string :=
  if bool_decide (new_len <= String.length s)%nat
  then if is_char_boundary s new_len then Ok (String.substring 0 new_len s) else Panic
  else Ok s.

Definition trim_error {E} (error : string) : result E string :=
  if bool_decide (MAX_ERROR_BYTES < String.length error)%nat
  then let? error := truncate error MAX_ERROR_BYTES in Ok (error +:+ "...")
  else Ok error.

(** ** The operations of the handle *)

(** The tail of [with_mut], which recomputes the lag. *)
Definition with_lag (s : PipelineRuntimeSnapshot) : PipelineRuntimeSnapshot :=
  set_lag
    (match source_received_lsn s, target_checkpoint_lsn s with
     | Some received, Some applied => Some (saturating_sub received applied)
     | _, _ => None
     end) s.

(** [with_mut] for an update that returns. *)
Definition with_mut (update : PipelineRuntimeSnapshot -> PipelineRuntimeSnapshot)
    (s : PipelineRuntimeSnapshot) : result string unit * PipelineRuntimeSnapshot :=
  (Ok tt, with_lag (update s)).

(** [with_mut] for an update that ends in [last_error = Some(trim_error(error))]: when that
    panics the guard is dropped with the other fields already written. *)
Definition with_mut_error (update : PipelineRuntimeSnapshot -> PipelineRuntimeSnapshot)
    (error : string) (s : PipelineRuntimeSnapshot) : result string unit * PipelineRuntimeSnapshot :=
  let s := update s in
  match trim_error error with
  | Ok error => (Ok tt, with_lag (set_last_error (Some error) s))
  | Err e => (Err e, s)
  | Panic => (Panic, s)
  end.

(** [if previous.is_none_or(|previous| lsn > previous) { Some(lsn) }]. *)
Definition advance_lsn (previous : option Z) (lsn : Z) : option Z :=
  match previous with
  | Some p => if (p <? lsn)%Z then Some lsn else previous
  | None => Some lsn
  end.

Definition is_degraded_or_failed (p : PipelinePhase) : bool :=
  match p with Degraded | Failed => true | _ => false end.

Definition mark_started (now : Z) : PipelineRuntimeSnapshot -> result string unit * PipelineRuntimeSnapshot :=
  with_mut (fun s =>
    set_rt_state RtStarting
      (set_lifecycle (Some now) None
         (if started_at s then saturating_add (restart_count s) 1 else restart_count s) s)).

Definition mark_running : PipelineRuntimeSnapshot -> result string unit * PipelineRuntimeSnapshot :=
  with_mut (set_rt_state RtRunning).

Definition mark_stopped (now : Z) : PipelineRuntimeSnapshot -> result string unit * PipelineRuntimeSnapshot :=
  with_mut (fun s =>
    set_lifecycle (started_at s) (Some now) (restart_count s)
      (set_rt_phase Stopped (set_rt_state RtStopped s))).

Definition mark_failed (now : Z) (error : string)
    : PipelineRuntimeSnapshot -> result string unit * PipelineRuntimeSnapshot :=
  with_mut_error (fun s =>
    set_lifecycle (started_at s) (Some now) (restart_count s)
      (set_rt_phase Failed (set_rt_state RtFailed s))) error.

Definition mark_degraded (error : string)
    : PipelineRuntimeSnapshot -> result string unit * PipelineRuntimeSnapshot :=
  with_mut_error (fun s => set_rt_phase Degraded (set_rt_state RtDegraded s)) error.

Definition set_phase (phase : PipelinePhase)
    : PipelineRuntimeSnapshot -> result string unit * PipelineRuntimeSnapshot :=
  with_mut (set_rt_phase phase).

Definition source_received (lsn : Z) : PipelineRuntimeSnapshot -> result string unit * PipelineRuntimeSnapshot :=
  with_mut (fun s =>
    let s := set_lsns (advance_lsn (source_received_lsn s) lsn) (source_current_lsn s)
               (target_checkpoint_lsn s) s in
    if is_degraded_or_failed (rt_phase s) then s
    else set_rt_phase
           (match target_checkpoint_lsn s with
            | Some applied => if (applied <? lsn)%Z then CatchingUp else Running
            | None => rt_phase s
            end) s).

Definition transaction_received (lsn commit_time : Z)
    : PipelineRuntimeSnapshot -> result string unit * PipelineRuntimeSnapshot :=
  with_mut (fun s =>
    set_activity (Some commit_time) (last_apply_at s) (last_ack_at s)
      (set_lsns (advance_lsn (source_received_lsn s) lsn) (advance_lsn (source_current_lsn s) lsn)
         (target_checkpoint_lsn s) s)).

Definition checkpoint_initialized (lsn : Z)
    : PipelineRuntimeSnapshot -> result string unit * PipelineRuntimeSnapshot :=
  with_mut (fun s =>
    set_lsns (source_received_lsn s) (source_current_lsn s)
      (advance_lsn (target_checkpoint_lsn s) lsn) s).

Definition applied (now lsn : Z) : PipelineRuntimeSnapshot -> result string unit * PipelineRuntimeSnapshot :=
  with_mut (fun s =>
    let s := set_lsns (source_received_lsn s) (source_current_lsn s)
               (advance_lsn (target_checkpoint_lsn s) lsn) s in
    let s := set_activity (last_transaction_at s) (Some now) (last_ack_at s) s in
    if negb (is_degraded_or_failed (rt_phase s))
       && match source_received_lsn s with Some received => (received <=? lsn)%Z | None => true end
    then set_rt_phase Running s else s).

Definition acknowledged (now lsn : Z)
    : PipelineRuntimeSnapshot -> result string unit * PipelineRuntimeSnapshot :=
  with_mut (fun s =>
    set_activity (last_transaction_at s) (last_apply_at s) (Some now)
      (set_lsns (source_received_lsn s) (source_current_lsn s)
         (advance_lsn (target_checkpoint_lsn s) lsn) s)).

Definition wal_retention_observed (retained safe : option Z) (warning : bool)
    : PipelineRuntimeSnapshot -> result string unit * PipelineRuntimeSnapshot :=
  with_mut (set_wal retained safe warning).

Definition telemetry_error (error : string)
    : PipelineRuntimeSnapshot -> result string unit * PipelineRuntimeSnapshot :=
  with_mut_error (fun s => s) error.

(** A call on the handle; the job, the source, the loop and the reconciler all make them. *)
Inductive TelemetryCall : Type :=
| CallStarted (now : Z)
| CallRunning
| CallStopped (now : Z)
| CallFailed (now : Z) (error : string)
| CallDegraded (error : string)
| CallPhase (phase : PipelinePhase)
| CallSourceReceived (lsn : Z)
| CallTransactionReceived (lsn commit_time : Z)
| CallCheckpointInitialized (lsn : Z)
| CallApplied (now lsn : Z)
| CallAcknowledged (now lsn : Z)
| CallWalRetention (retained safe : option Z) (warning : bool)
| CallError (error : string).

Definition run_call (c : TelemetryCall) (s : PipelineRuntimeSnapshot)
    : result string unit * PipelineRuntimeSnapshot :=
  match c with
  | CallStarted now => mark_started now s
  | CallRunning => mark_running s
  | CallStopped now => mark_stopped now s
  | CallFailed now error => mark_failed now error s
  | CallDegraded error => mark_degraded error s
  | CallPhase phase => set_phase phase s
  | CallSourceReceived lsn => source_received lsn s
  | CallTransactionReceived lsn at_ => transaction_received lsn at_ s
  | CallCheckpointInitialized lsn => checkpoint_initialized lsn s
  | CallApplied now lsn => applied now lsn s
  | CallAcknowledged now lsn => acknowledged now lsn s
  | CallWalRetention retained safe warning => wal_retention_observed retained safe warning s
  | CallError error => telemetry_error error s
  end.

(** An interleaving of calls, whatever they return. *)
Definition run_calls (calls : list TelemetryCall) (s : PipelineRuntimeSnapshot)
    : PipelineRuntimeSnapshot :=
  foldl (fun s c => (run_call c s).2) s calls.

(** ** What a history of calls leaves behind *)

(** The greatest element, if any. *)
Definition greatest (l : list Z) : option Z := foldl advance_lsn None l.

Lemma greatest_snoc l x : greatest (l ++ [x]) = advance_lsn (greatest l) x.
Proof. unfold greatest. by rewrite foldl_app. Qed.

Lemma greatest_spec l :
  match greatest l with
  | Some m => m ∈ l /\ Forall (fun x => (x <= m)%Z) l
  | None => l = []
  end.
Proof.
  induction l as [|x l IH] using rev_ind; [done|]. rewrite greatest_snoc.
  destruct (greatest l) as [m|]; cbn.
  - destruct IH as [Hm Hall]. destruct (Z.ltb_spec m x).
    + split; [set_solver|]. apply Forall_app_2; [|by constructor].
      eapply Forall_impl; [exact Hall|]. cbn. lia.
    + split; [set_solver|]. apply Forall_app_2; [done|by constructor].
  - subst l. split; [set_solver|by constructor].
Qed.

(** The positions a call reports as received, as committed, and as durable on the target. *)
Definition received_of (c : TelemetryCall) : option Z :=
  match c with CallSourceReceived l | CallTransactionReceived l _ => Some l | _ => None end.
Definition current_of (c : TelemetryCall) : option Z :=
  match c with CallTransactionReceived l _ => Some l | _ => None end.
Definition durable_of (c : TelemetryCall) : option Z :=
  match c with
  | CallCheckpointInitialized l | CallApplied _ l | CallAcknowledged _ l => Some l
  | _ => None
  end.
Definition is_start (c : TelemetryCall) : bool := match c with CallStarted _ => true | _ => false end.

Definition lag_of (received checkpoint : option Z) : option Z :=
  match received, checkpoint with
  | Some received, Some applied => Some (saturating_sub received applied)
  | _, _ => None
  end.

Definition advance_opt (previous new : option Z) : option Z :=
  match new with Some l => advance_lsn previous l | None => previous end.

(** What one call does to the positions, the lag and the restart count. *)
Lemma run_call_spec c s :
  estimated_byte_lag s = lag_of (source_received_lsn s) (target_checkpoint_lsn s) ->
  let s' := (run_call c s).2 in
  source_received_lsn s' = advance_opt (source_received_lsn s) (received_of c) /\
  source_current_lsn s' = advance_opt (source_current_lsn s) (current_of c) /\
  target_checkpoint_lsn s' = advance_opt (target_checkpoint_lsn s) (durable_of c) /\
  estimated_byte_lag s' = lag_of (source_received_lsn s') (target_checkpoint_lsn s') /\
  restart_count s' = (if is_start c && bool_decide (is_Some (started_at s))
                      then saturating_add (restart_count s) 1 else restart_count s) /\
  (is_Some (started_at s') <-> is_start c = true \/ is_Some (started_at s)).
Proof.
  intros Hlag. destruct c; cbn; unfold mark_failed, mark_degraded, telemetry_error, with_mut_error;
    try destruct (trim_error _); repeat case_match; cbn in *; split_and!; try done; try (by rewrite andb_comm); try naive_solver.
Qed.

Lemma run_calls_snoc calls c s : run_calls (calls ++ [c]) s = (run_call c (run_calls calls s)).2.
Proof. unfold run_calls. by rewrite foldl_app. Qed.

Lemma telemetry_calls_app l k s : run_calls (l ++ k) s = run_calls k (run_calls l s).
Proof. unfold run_calls. by rewrite foldl_app. Qed.

Lemma omap_snoc {A B} (f : A -> option B) l x :
  omap f (l ++ [x]) = omap f l ++ match f x with Some y => [y] | None => [] end.
Proof. rewrite omap_app. cbn. by destruct (f x). Qed.

Lemma greatest_omap_snoc f (calls : list TelemetryCall) c :
  greatest (omap f (calls ++ [c])) = advance_opt (greatest (omap f calls)) (f c).
Proof.
  rewrite omap_snoc. destruct (f c); cbn; [by rewrite greatest_snoc|by rewrite app_nil_r].
Qed.

(** The number of starts, and how many of them are restarts. *)
Definition starts (calls : list TelemetryCall) : Z := len (List.filter is_start calls).

Lemma starts_snoc calls c : starts (calls ++ [c]) = (starts calls + if is_start c then 1 else 0)%Z.
Proof.
  unfold starts. rewrite List.filter_app, len_app. cbn. by destruct (is_start c).
Qed.
Lemma starts_nonneg calls : (0 <= starts calls)%Z.
Proof. apply len_nonneg. Qed.

Lemma history id calls :
  let s := run_calls calls (Telemetry_new id) in
  source_received_lsn s = greatest (omap received_of calls) /\
  source_current_lsn s = greatest (omap current_of calls) /\
  target_checkpoint_lsn s = greatest (omap durable_of calls) /\
  estimated_byte_lag s = lag_of (source_received_lsn s) (target_checkpoint_lsn s) /\
  restart_count s = Z.min (Z.max (starts calls - 1) 0) u64_max /\
  (is_Some (started_at s) <-> (0 < starts calls)%Z).
Proof.
  induction calls as [|c calls IH] using rev_ind.
  { cbn. split_and!; try done. }
  cbn zeta in *. destruct IH as (Hr & Hc & Ht & Hl & Hn & Hs).
  rewrite run_calls_snoc. destruct (run_call_spec c _ Hl) as (-> & -> & -> & -> & -> & Hs').
  rewrite !greatest_omap_snoc, Hr, Hc, Ht, Hn, starts_snoc, Hs'. pose proof (starts_nonneg calls).
  assert (0 < u64_max)%Z by done. split_and!; try done.
  - destruct (is_start c); cbn; [|by rewrite Z.add_0_r]. case_bool_decide as Hb; rewrite Hs in Hb;
      unfold saturating_add; lia.
  - rewrite Hs. destruct (is_start c); [|naive_solver lia]. split; [lia|by left].
Qed.

(** [o] is not behind [o']. *)
Definition opt_le (o o' : option Z) : Prop :=
  match o, o' with Some a, Some b => (a <= b)%Z | Some _, None => False | None, _ => True end.

Lemma opt_le_greatest_app l k : opt_le (greatest l) (greatest (l ++ k)).
Proof.
  pose proof (greatest_spec l) as H1. pose proof (greatest_spec (l ++ k)) as H2.
  destruct (greatest l) as [m|]; [|done]. destruct H1 as [Hm _]. cbn.
  destruct (greatest (l ++ k)) as [m'|].
  - destruct H2 as [_ H2]. rewrite Forall_forall in H2. apply H2. set_solver.
  - destruct l; [by apply elem_of_nil in Hm|done].
Qed.

(** Calls that report progress, and neither end nor restart the pipeline's phase. *)
Definition progress_call (c : TelemetryCall) : bool :=
  match c with
  | CallStopped _ | CallFailed _ _ | CallDegraded _ | CallPhase _ => false
  | _ => true
  end.

Lemma progress_keeps_degraded c s :
  progress_call c = true -> is_degraded_or_failed (rt_phase s) = true ->
  rt_phase (run_call c s).2 = rt_phase s.
Proof.
  intros Hc Hp. destruct c; try done; cbn; unfold telemetry_error, with_mut_error;
    try destruct (trim_error _); cbn; rewrite ?Hp; try done.
Qed.

(** *** Properties *)

(** Whatever calls the job, the source, the loop and the reconciler interleave on a
    handle, panicking ones included: the positions it shows are exactly the greatest position
    reported as received, committed and durable, so they never move backwards; the lag is the
    distance between the first and the last of them, never negative; the restart count is one
    less than the number of starts, saturating; and reports of progress never hide that the
    pipeline is degraded or failed. *)
Theorem telemetry_shows_the_furthest_progress id calls more :
  let s := run_calls calls (Telemetry_new id) in
  let s' := run_calls (calls ++ more) (Telemetry_new id) in
  (source_received_lsn s = greatest (omap received_of calls) /\
   source_current_lsn s = greatest (omap current_of calls) /\
   target_checkpoint_lsn s = greatest (omap durable_of calls)) /\
  (opt_le (source_received_lsn s) (source_received_lsn s') /\
   opt_le (source_current_lsn s) (source_current_lsn s') /\
   opt_le (target_checkpoint_lsn s) (target_checkpoint_lsn s')) /\
  estimated_byte_lag s = lag_of (source_received_lsn s) (target_checkpoint_lsn s) /\
  restart_count s = Z.min (Z.max (starts calls - 1) 0) u64_max /\
  (forallb progress_call more = true -> is_degraded_or_failed (rt_phase s) = true ->
   rt_phase s' = rt_phase s).
Proof.
  destruct (history id calls) as (Hr & Hc & Ht & Hl & Hn & _).
  destruct (history id (calls ++ more)) as (Hr' & Hc' & Ht' & _).
  cbn zeta. split_and!; try done.
  1-3: rewrite ?Hr, ?Hr', ?Hc, ?Hc', ?Ht, ?Ht', omap_app; apply opt_le_greatest_app.
  rewrite telemetry_calls_app. generalize (run_calls calls (Telemetry_new id)). clear.
  induction more as [|c more IH]; intros s; [done|]. cbn. intros [Hc Hm]%andb_true_iff Hp.
  pose proof (progress_keeps_degraded c s Hc Hp) as He. fold (run_calls more (run_call c s).2).
  rewrite IH; [done|done|by rewrite He].
Qed.

(** One character of a text as UTF-8, for ASCII and the two-byte characters. *)
Inductive utf8_char : string -> Prop :=
| utf8_ascii c : (Ascii.nat_of_ascii c < 0x80)%nat -> utf8_char (String c EmptyString)
| utf8_two c d :
    (0xC2 <= Ascii.nat_of_ascii c < 0xE0)%nat -> (0x80 <= Ascii.nat_of_ascii d < 0xC0)%nat ->
    utf8_char (String c (String d EmptyString)).

(** C39: [trim_error] keeps the recorded error within 1027 bytes and leaves a text of at most
    1024 bytes alone; but it cuts by bytes, so a longer text - a well-formed one - whose
    1024th byte falls inside a character makes the handle panic: the phase is already set to
    failed then, the error is not recorded, and the caller is lost. *)
Theorem long_error_text_can_panic :
  (forall (error : string),
     match trim_error (E := string) error with
     | Ok t => (String.length t <= MAX_ERROR_BYTES + 3)%nat /\
               (String.length error <= MAX_ERROR_BYTES -> t = error)%nat
     | Err _ => False
     | Panic => (MAX_ERROR_BYTES < String.length error)%nat /\
                is_char_boundary error MAX_ERROR_BYTES = false
     end) /\
  exists chars, Forall utf8_char chars /\
    forall now s, exists s', mark_failed now (String.concat "" chars) s = (Panic, s') /\
      rt_phase s' = Failed /\ last_error s' = last_error s.
Proof.
  split.
  - intros error. unfold trim_error, truncate. case_bool_decide as Hl; cbn [mbind result_bind];
      [|split; [lia|done]]. rewrite bool_decide_true by lia.
    destruct (is_char_boundary _ _) eqn:Hb; cbn [mbind result_bind]; [|done].
    rewrite string_length_app, substring_length by lia.
    change (String.length "...") with 3%nat. split; lia.
  - exists (replicate 1023 "a" ++ [String (Ascii.ascii_of_nat 195) (String (Ascii.ascii_of_nat 169) EmptyString)]).
    split.
    + apply Forall_app_2; [|constructor; [|constructor]].
      * apply Forall_replicate. constructor. apply Nat.ltb_lt. reflexivity.
      * constructor; split; (apply Nat.leb_le || apply Nat.ltb_lt); reflexivity.
    + intros now s. unfold mark_failed, with_mut_error.
      assert (H : trim_error (E := string) (String.concat "" (replicate 1023 "a" ++
        [String (Ascii.ascii_of_nat 195) (String (Ascii.ascii_of_nat 169) EmptyString)])) = Panic)
        by (vm_compute; reflexivity).
      rewrite H. eexists. split; [reflexivity|done].
Qed.
