(* ===== verification/PgOutput.v ===== *)
(** * The pgoutput adapter

    Models [crates/engine/src/adapters/pgoutput.rs]: the transaction source of the engine,
    which assembles the decoded messages of a replication transport into transactions and
    reports durable positions back to the server.

    The transport is a boxed [EventTransport].  What it does is up to the server, so it is
    described by the messages it will hand out, in order, the results its status updates will
    have, and the statuses sent so far.  The telemetry handle is the list of the calls made on
    it; [Telemetry.run_calls] says what they do. *)

From S2P Require Import Prelude Core Schema Change Batch Source Wal Pipeline Telemetry.

Record StandbyStatus : Type := mkStandbyStatus {
  write_lsn : Z;
  flush_lsn : Z;
  apply_lsn : Z;
  ss_reply_requested : bool;
}.

Record EventTransport : Type := mkEventTransport {
  inbox : list (result SourceError DecodedMessage);
  send_results : list (result SourceError unit);
  sent : list StandbyStatus;
}.

(** [send_status]: the status goes out, and the next scripted result comes back; when the
    script has ended the transport succeeds. *)
Definition send_status (self : EventTransport) (status : StandbyStatus)
    : result SourceError unit * EventTransport :=
  (default (Ok tt) (head (send_results self)),
   mkEventTransport (inbox self) (tail (send_results self)) (sent self ++ [status])).

Record PgOutputTransactionSource : Type := mkPgOutput {
  po_transport : EventTransport;
  po_assembler : TransactionAssembler;
  durable_applied_lsn : Z;
  delivered_commits : list Z;
  po_telemetry : option (list TelemetryCall);
}.

(** [from_transport_with_telemetry]. *)
Definition from_transport_with_telemetry (transport : EventTransport)
    (assembler : TransactionAssembler) (durable_applied_lsn : Z)
    (telemetry : option (list TelemetryCall)) : PgOutputTransactionSource :=
  mkPgOutput transport assembler durable_applied_lsn [] telemetry.

(** [PgOutputTransactionSource::new], and [from_transport]. *)
Definition PgOutput_new (transport : EventTransport) (assembler : TransactionAssembler)
    (durable_applied_lsn : Z) : PgOutputTransactionSource :=
  from_transport_with_telemetry transport assembler durable_applied_lsn None.

(** [PgOutputTransactionSource::new_with_telemetry]. *)
Definition PgOutput_new_with_telemetry (transport : EventTransport)
    (assembler : TransactionAssembler) (durable_applied_lsn : Z) (telemetry : list TelemetryCall)
    : PgOutputTransactionSource :=
  from_transport_with_telemetry transport assembler durable_applied_lsn (Some telemetry).

(** Field updates. *)
Definition with_transport (self : PgOutputTransactionSource) (t : EventTransport) :=
  mkPgOutput t (po_assembler self) (durable_applied_lsn self) (delivered_commits self)
    (po_telemetry self).
Definition with_inbox (self : PgOutputTransactionSource)
    (messages : list (result SourceError DecodedMessage)) :=
  with_transport self
    (mkEventTransport messages (send_results (po_transport self)) (sent (po_transport self))).
Definition with_assembler (self : PgOutputTransactionSource) (a : TransactionAssembler) :=
  mkPgOutput (po_transport self) a (durable_applied_lsn self) (delivered_commits self)
    (po_telemetry self).
(** [delivered_commits.push_back(lsn)]. *)
Definition with_delivered (self : PgOutputTransactionSource) (l : Z) :=
  mkPgOutput (po_transport self) (po_assembler self) (durable_applied_lsn self)
    (delivered_commits self ++ [l]) (po_telemetry self).
(** [if let Some(telemetry) = &self.telemetry { telemetry.call }]. *)
Definition with_call (self : PgOutputTransactionSource) (c : TelemetryCall) :=
  mkPgOutput (po_transport self) (po_assembler self) (durable_applied_lsn self)
    (delivered_commits self) ((fun calls => calls ++ [c]) <$> po_telemetry self).

Section pgoutput.
(** [error.to_string()] of a source error. *)
Context (source_error_text : SourceError -> string).

Definition source_failed (error : SourceError) : PipelineError :=
  PipelineSource (source_error_text error).

(** [send_durable_status]. *)
Definition send_durable_status (self : PgOutputTransactionSource)
    : result PipelineError unit * PgOutputTransactionSource :=
  let lsn := durable_applied_lsn self in
  let (r, t) := send_status (po_transport self) (mkStandbyStatus lsn lsn lsn false) in
  (map_err (fun error => Acknowledge (source_error_text error)) r, with_transport self t).

(** [validate_acknowledgement]. *)
Definition validate_acknowledgement (self : PgOutputTransactionSource) (position : SourcePosition)
    : result PipelineError unit :=
  let identity := ta_identity (po_assembler self) in
  if negb (node_id position =? sni_node_id identity)%Z
     || negb (system_identifier position =? sni_system_identifier identity)%Z
     || negb (timeline position =? sni_timeline identity)%Z
  then Err (Acknowledge ("position identity does not match source node "
                         +:+ pretty (sni_node_id identity)))
  else if (lsn position <? durable_applied_lsn self)%Z
  then Err (Acknowledge ("durable position regressed from "
                         +:+ Lsn.to_string (durable_applied_lsn self) +:+ " to "
                         +:+ Lsn.to_string (lsn position)))
  else if negb (bool_decide (lsn position ∈ delivered_commits self))
  then Err (Acknowledge ("position " +:+ Lsn.to_string (lsn position)
                         +:+ " was not emitted as a committed transaction"))
  else Ok tt.

(** The loop of [next_transaction] over the messages at hand: [None] when it waits for the
    next one. *)
Fixpoint poll_messages (messages : list (result SourceError DecodedMessage))
    (self : PgOutputTransactionSource)
    : option (result PipelineError (option SourceTransaction)) * PgOutputTransactionSource :=
  match messages with
  | [] => (None, self)
  | message :: messages =>
      let self := with_inbox self (tail (inbox (po_transport self))) in
      match message with
      | Err error => (Some (Err (source_failed error)), self)
      | Panic => (Some Panic, self)
      | Ok message =>
          let (r, assembler) := assembler_push (po_assembler self) message in
          let self := with_assembler self assembler in
          match r with
          | Err error => (Some (Err (source_failed error)), self)
          | Panic => (Some Panic, self)
          | Ok (Some (ATransaction committed)) =>
              (Some (Ok (Some (ct_transaction committed))),
               with_delivered self (final_lsn (ct_transaction committed)))
          | Ok (Some (AKeepalive wal_end _ reply_requested)) =>
              let self := with_call self (CallSourceReceived wal_end) in
              if reply_requested then
                let (r, self) := send_durable_status self in
                match r with
                | Ok _ => poll_messages messages self
                | Err e => (Some (Err e), self)
                | Panic => (Some Panic, self)
                end
              else poll_messages messages self
          | Ok None => poll_messages messages self
          end
      end
  end.

(** [next_transaction], on a transport whose stream ends after the inbox. *)
Definition pgoutput_next (self : PgOutputTransactionSource)
    : result PipelineError (option SourceTransaction) * PgOutputTransactionSource :=
  let (r, self) := poll_messages (inbox (po_transport self)) self in
  match r with
  | Some r => (r, self)
  | None => ((let? _ := map_err source_failed (assembler_finish (po_assembler self)) in Ok None), self)
  end.

(** [next_transaction], dropped while it waits for the message after the [n]-th: nothing
    when it would have returned by then. *)
Definition pgoutput_interrupted (n : nat) (self : PgOutputTransactionSource)
    : PgOutputTransactionSource :=
  match poll_messages (take n (inbox (po_transport self))) self with
  | (None, self) => self
  | (Some _, _) => self
  end.

(** The [while] loop of [acknowledge]. *)
Fixpoint pop_delivered (position : Z) (delivered : list Z) : list Z :=
  match delivered with
  | l :: rest => if (l <=? position)%Z then pop_delivered position rest else delivered
  | [] => []
  end.

(** [acknowledge]. *)
Definition pgoutput_acknowledge (self : PgOutputTransactionSource) (position : SourcePosition)
    : result PipelineError unit * PgOutputTransactionSource :=
  match validate_acknowledgement self position with
  | Ok _ =>
      send_durable_status
        (mkPgOutput (po_transport self) (po_assembler self) (lsn position)
           (pop_delivered (lsn position) (delivered_commits self)) (po_telemetry self))
  | Err e => (Err e, self)
  | Panic => (Panic, self)
  end.

#[export] Instance pgoutput_source : TransactionSource PgOutputTransactionSource := {
  next_transaction := pgoutput_next;
  interrupted := pgoutput_interrupted;
  acknowledge := pgoutput_acknowledge;
  durable_lsn := durable_applied_lsn;
}.
End pgoutput.

(** ** Fetching *)

(** The status that reports [l] as durable. *)
Definition durable_status (l : Z) : StandbyStatus := mkStandbyStatus l l l false.

(** Only a COMMIT emits a transaction, at the COMMIT's end position. *)
Lemma push_emits self event c self' :
  wf_assembler self -> assembler_push self event = (Ok (Some (ATransaction c)), self') ->
  exists commit_lsn timestamp flags,
    event = DCommit commit_lsn (final_lsn (ct_transaction c)) timestamp flags.
Proof.
  intros Hwf. destruct event; cbn [assembler_push to_transaction_change]; intros H;
    try (by destruct (push_change_spec _ _ _ _ Hwf H) as (_ & _ & _ & _ & _ & Hn & _);
         destruct (Hn _ eq_refl)).
  - case_bool_decide; [done|]. by destruct (match _ with Some p => _ | None => _ end).
  - unfold assembler_commit in H. repeat (case_match; try done); injection H as <- _; cbn; eauto.
  - by destruct (accept_relation self event) as [[] s].
  - done.
  - done.
Qed.

(** What a server may send: positions are 64-bit. *)
Definition typed_message (m : result SourceError DecodedMessage) : Prop :=
  match m with Ok (DCommit _ end_lsn _ _) => Lsn.valid end_lsn | _ => True end.

(** Transactions of a node. *)
Definition of_node (identity : SourceNodeIdentity) (t : SourceTransaction) : Prop :=
  st_final_position t = position_of identity (final_lsn t) /\ Lsn.valid (final_lsn t).

Record source_inv (identity : SourceNodeIdentity) (self : PgOutputTransactionSource) : Prop := {
  si_identity : ta_identity (po_assembler self) = identity;
  si_assembler : wf_assembler (po_assembler self);
  si_inbox : Forall typed_message (inbox (po_transport self));
}.

(** The transaction a fetch has emitted, if it has. *)
Definition emission (r : option (result PipelineError (option SourceTransaction)))
    : list SourceTransaction :=
  match r with Some (Ok (Some t)) => [t] | _ => [] end.

(** What fetching does: the durable position stays, every status sent meanwhile repeats it,
    and a transaction is emitted exactly when its position is recorded as delivered. *)
Record fetched (identity : SourceNodeIdentity) (self : PgOutputTransactionSource)
    (r : option (result PipelineError (option SourceTransaction)))
    (self' : PgOutputTransactionSource) : Prop := {
  ft_inv : source_inv identity self';
  ft_durable : durable_applied_lsn self' = durable_applied_lsn self;
  ft_sent : exists n, sent (po_transport self')
    = sent (po_transport self) ++ replicate n (durable_status (durable_applied_lsn self));
  ft_delivered : delivered_commits self'
    = delivered_commits self ++ map final_lsn (emission r);
  ft_emitted : Forall (of_node identity) (emission r);
}.

Lemma fetched_trans identity self self1 r self2 :
  fetched identity self None self1 -> fetched identity self1 r self2 -> fetched identity self r self2.
Proof.
  intros [_ Hd1 [n1 Hs1] Hv1 _] [Hi Hd2 [n2 Hs2] Hv2 He]. split; [done|congruence| | |done].
  - exists (n1 + n2)%nat. by rewrite Hs2, Hs1, Hd1, replicate_add, app_assoc.
  - cbn in Hv1. rewrite Hv2, Hv1. by rewrite app_nil_r.
Qed.

Section pgoutput_lemmas.
Context (source_error_text : SourceError -> string) (identity : SourceNodeIdentity).
Implicit Types self : PgOutputTransactionSource.

Lemma fetched_refl self r :
  source_inv identity self -> emission r = [] -> fetched identity self r self.
Proof.
  intros Hi He. split; [done|done|exists 0%nat; by rewrite app_nil_r| |by rewrite He].
  by rewrite He, app_nil_r.
Qed.

Lemma send_durable_spec self r self' :
  send_durable_status source_error_text self = (r, self') -> source_inv identity self ->
  source_inv identity self' /\ durable_applied_lsn self' = durable_applied_lsn self /\
  sent (po_transport self')
    = sent (po_transport self) ++ [durable_status (durable_applied_lsn self)] /\
  delivered_commits self' = delivered_commits self /\
  inbox (po_transport self') = inbox (po_transport self).
Proof. intros [= <- <-] [Hi Hw Hb]. by split_and!. Qed.

(** One message of the transport, consumed by the assembler. *)
Lemma consume_fetched self message r a :
  source_inv identity self -> inbox (po_transport self) <> [] ->
  assembler_push (po_assembler self) message = (r, a) ->
  typed_message (Ok message) ->
  let self1 := with_assembler (with_inbox self (tail (inbox (po_transport self)))) a in
  fetched identity self None self1 /\
  (forall c, r = Ok (Some (ATransaction c)) -> of_node identity (ct_transaction c)).
Proof.
  intros [Hi Hw Hb] Hne Hp Ht. pose proof (assembler_push_spec _ _ _ _ Hw Hp) as (Hw' & _ & Hi' & _ & Hr).
  split.
  - split; cbn; [|done|exists 0%nat; by rewrite app_nil_r|by rewrite app_nil_r|constructor].
    split; cbn; [congruence|done|]. by destruct (inbox (po_transport self)); [|inversion Hb].
  - intros c ->. destruct Hr as [He _]. destruct (push_emits _ _ _ _ Hw Hp) as (? & ? & ? & ->).
    split; [|done]. rewrite <-Hi. apply He.
Qed.

Lemma poll_fetched messages self r self' :
  source_inv identity self -> (exists rest, inbox (po_transport self) = messages ++ rest) ->
  poll_messages source_error_text messages self = (r, self') -> fetched identity self r self'.
Proof.
  revert self. induction messages as [|message messages IH]; intros self Hinv [rest Hin] H.
  { injection H as <- <-. by apply fetched_refl. }
  cbn [poll_messages] in H. pose proof Hinv as [_ _ Hb]. rewrite Hin in Hb.
  apply Forall_cons in Hb as [Htm Hb]. cbn [app] in Hin.
  assert (Hskip : source_inv identity (with_inbox self (tail (inbox (po_transport self))))).
  { destruct Hinv. split; [done|done|]. cbn. rewrite Hin. done. }
  destruct message as [message|e|].
  - destruct (assembler_push _ _) as [q a] eqn:Hp.
    destruct (consume_fetched _ _ _ _ Hinv ltac:(by rewrite Hin) Hp Htm) as [Hf Hnode].
    set (self1 := with_assembler _ a) in *.
    assert (Hin1 : inbox (po_transport self1) = messages ++ rest) by (cbn; by rewrite Hin).
    destruct q as [[[c|wal_end ts reply]|]|e|].
    + injection H as <- <-. destruct Hf as [[] ? ? Hd ?]. split; cbn; [by split|done|done| |].
      * rewrite app_nil_r in Hd. done.
      * constructor; [|constructor]. by apply Hnode.
    + assert (Hf2 : fetched identity self None (with_call self1 (CallSourceReceived wal_end))).
      { destruct Hf as [[] ? ? ? ?]. split; [by split|done..]. }
      destruct reply; [|by eapply fetched_trans, IH; eauto using ft_inv].
      destruct (send_durable_status _ _) as [q2 self2] eqn:Hs.
      destruct (send_durable_spec _ _ _ Hs (ft_inv _ _ _ _ Hf2)) as (Hi2 & Hd2 & Hs2 & Hv2 & Hb2).
      assert (Hf3 : fetched identity self None self2).
      { eapply fetched_trans; [exact Hf2|]. split; [done|done| | |constructor].
        - by exists 1%nat.
        - by rewrite Hv2, app_nil_r. }
      destruct q2; [|injection H as <- <-; destruct Hf3; by split..].
      eapply fetched_trans; [exact Hf3|]. apply (IH _ Hi2); [|done]. exists rest. by rewrite Hb2.
    + eapply fetched_trans; [exact Hf|]. apply IH; [apply Hf|by exists rest|done].
    + injection H as <- <-. destruct Hf. by split.
    + injection H as <- <-. destruct Hf. by split.
  - injection H as <- <-. split; cbn; [done|done|exists 0%nat; by rewrite app_nil_r|by rewrite app_nil_r|done].
  - injection H as <- <-. split; cbn; [done|done|exists 0%nat; by rewrite app_nil_r|by rewrite app_nil_r|done].
Qed.

Lemma next_fetched self r self' :
  source_inv identity self -> pgoutput_next source_error_text self = (r, self') ->
  fetched identity self (Some r) self'.
Proof.
  intros Hinv H. unfold pgoutput_next in H. destruct (poll_messages _ _ _) as [[q|] s] eqn:Hp.
  - injection H as <- <-. eapply poll_fetched; [done| |done]. exists []. by rewrite app_nil_r.
  - injection H as <- <-. eapply fetched_trans.
    + eapply poll_fetched; [done| |exact Hp]. exists []. by rewrite app_nil_r.
    + apply fetched_refl; [|by destruct (assembler_finish _)].
      eapply ft_inv, poll_fetched; [exact Hinv| |exact Hp]. exists []. by rewrite app_nil_r.
Qed.

Lemma interrupted_fetched n self :
  source_inv identity self ->
  fetched identity self None (pgoutput_interrupted source_error_text n self).
Proof.
  intros Hinv. unfold pgoutput_interrupted. destruct (poll_messages _ _ _) as [[q|] s] eqn:Hp.
  - by apply fetched_refl.
  - eapply poll_fetched; [done| |exact Hp].
    exists (drop n (inbox (po_transport self))). by rewrite take_drop.
Qed.
End pgoutput_lemmas.

(** ** Acknowledging *)

Section acknowledging.
Context (source_error_text : SourceError -> string) (identity : SourceNodeIdentity).
Implicit Types self : PgOutputTransactionSource.

Lemma validate_acknowledgement_Ok self p :
  source_inv identity self ->
  (validate_acknowledgement self p = Ok tt <->
   p = position_of identity (lsn p) /\ (durable_applied_lsn self <= lsn p)%Z /\
   lsn p ∈ delivered_commits self).
Proof.
  intros [<- _ _]. unfold validate_acknowledgement, position_of.
  destruct p as [n s t l]. cbn. split.
  - destruct (Z.eqb_spec n (sni_node_id (ta_identity (po_assembler self)))); [|done].
    destruct (Z.eqb_spec s (sni_system_identifier (ta_identity (po_assembler self)))); [|done].
    destruct (Z.eqb_spec t (sni_timeline (ta_identity (po_assembler self)))); [|done]. cbn.
    destruct (Z.ltb_spec l (durable_applied_lsn self)); [done|].
    case_bool_decide; [|done]. intros _. subst. split_and!; [done|lia|done].
  - intros ([= -> -> ->] & Hl & Hd). rewrite !Z.eqb_refl. cbn.
    destruct (Z.ltb_spec l (durable_applied_lsn self)); [lia|]. by rewrite bool_decide_true.
Qed.

Lemma validate_acknowledgement_Panic self p : validate_acknowledgement self p <> Panic.
Proof. unfold validate_acknowledgement. by destruct_ifs. Qed.

Lemma pop_delivered_subset l ds : pop_delivered l ds ⊆ ds.
Proof.
  induction ds as [|d ds IH]; cbn; [done|]. destruct (d <=? l)%Z; [|done]. set_solver.
Qed.

(** What an acknowledgement does: it either rejects the position and does nothing, or makes
    it the durable position and reports it, whether or not the report gets through. *)
Record acknowledged_post self p (self' : PgOutputTransactionSource) : Prop := {
  ak_valid : validate_acknowledgement self p = Ok tt;
  ak_inv : source_inv identity self';
  ak_durable : durable_applied_lsn self' = lsn p;
  ak_sent : sent (po_transport self') = sent (po_transport self) ++ [durable_status (lsn p)];
  ak_delivered : delivered_commits self' ⊆ delivered_commits self;
}.

Lemma acknowledge_spec self p r self' :
  source_inv identity self -> pgoutput_acknowledge source_error_text self p = (r, self') ->
  acknowledged_post self p self' \/ (is_err r = true /\ self' = self /\
    validate_acknowledgement self p <> Ok tt).
Proof.
  intros Hinv H. unfold pgoutput_acknowledge in H.
  destruct (validate_acknowledgement self p) as [[]|e|] eqn:Hv.
  - left. destruct (send_durable_spec source_error_text identity _ _ _ H) as (Hi & Hd & Hs & Hdel & _).
    { destruct Hinv. by split. }
    split; [done|done|done|done|]. rewrite Hdel. apply pop_delivered_subset.
  - right. by injection H as <- <-.
  - by apply validate_acknowledgement_Panic in Hv.
Qed.

#[export] Instance pgoutput_laws :
  @TransactionSourceLaws PgOutputTransactionSource (pgoutput_source source_error_text)
    (source_inv identity) (of_node identity).
Proof.
  split; cbn.
  - intros s r s' Hinv H. apply (next_fetched source_error_text identity _ _ _ Hinv H).
  - intros s t s' Hinv H. pose proof (next_fetched _ _ _ _ _ Hinv H) as Hf.
    apply ft_emitted in Hf. by inversion Hf.
  - intros s r s' Hinv H. apply (next_fetched _ _ _ _ _ Hinv H).
  - intros n s Hinv. apply (interrupted_fetched _ _ _ _ Hinv).
  - intros n s Hinv. apply (interrupted_fetched _ _ _ _ Hinv).
  - intros s p r s' Hinv H. destruct (acknowledge_spec _ _ _ _ Hinv H) as [Ha|(_ & -> & _)];
      [apply Ha|done].
  - intros s p r s' Hinv H. destruct (acknowledge_spec _ _ _ _ Hinv H) as [Ha|(? & -> & _)].
    + left. split; [apply Ha|]. by apply (validate_acknowledgement_Ok _ _ Hinv), Ha.
    + by right.
Qed.
End acknowledging.

(** ** Histories of a source *)

(** What the engine does with a source. *)
Inductive SourceCall : Type :=
| CallNext
| CallInterrupted (waits : nat)
| CallAcknowledge (position : SourcePosition).

(** A history: the transactions emitted and the positions accepted so far. *)
Record History : Type := mkHistory {
  hi_emitted : list SourceTransaction;
  hi_accepted : list SourcePosition;
}.

Section histories.
Context (source_error_text : SourceError -> string).

Definition source_call (st : History * PgOutputTransactionSource) (c : SourceCall)
    : History * PgOutputTransactionSource :=
  let (h, self) := st in
  match c with
  | CallNext =>
      let (r, self) := pgoutput_next source_error_text self in
      (mkHistory (hi_emitted h ++ emission (Some r)) (hi_accepted h), self)
  | CallInterrupted n => (h, pgoutput_interrupted source_error_text n self)
  | CallAcknowledge p =>
      (mkHistory (hi_emitted h)
         (hi_accepted h ++ (if is_ok (validate_acknowledgement self p) then [p] else [])),
       (pgoutput_acknowledge source_error_text self p).2)
  end.

Definition source_calls (self : PgOutputTransactionSource) (calls : list SourceCall)
    : History * PgOutputTransactionSource :=
  foldl source_call (mkHistory [] [], self) calls.

Context (identity : SourceNodeIdentity) (d0 : Z).

(** The durable position is the last accepted one. *)
Definition last_accepted (h : History) : Z := default d0 (last (map lsn (hi_accepted h))).

(** The positions reported to the server: never backwards, never past the durable one, and
    each of them accepted (or the initial one). *)
Record reports_ok (durable : Z) (accepted : list Z) (ls : list Z) : Prop := {
  ro_sorted : Sorted Z.le (d0 :: ls);
  ro_bound : Forall (fun l => (l <= durable)%Z) (d0 :: ls);
  ro_accepted : forall l, l ∈ ls -> l = d0 \/ l ∈ accepted;
}.

Lemma reports_weaken d d' acc acc' ls :
  reports_ok d acc ls -> (d <= d')%Z -> acc ⊆ acc' -> reports_ok d' acc' ls.
Proof.
  intros [Hs Hb Ha] Hd Hacc. split; [done| |set_solver].
  eapply Forall_impl; [exact Hb|]. cbn. lia.
Qed.

Lemma reports_repeat d acc ls n :
  reports_ok d acc ls -> d = d0 \/ d ∈ acc -> reports_ok d acc (ls ++ replicate n d).
Proof.
  intros Hr Hd. induction n as [|n IH]; [by rewrite app_nil_r|].
  rewrite replicate_S_end, app_assoc. destruct IH as [Hs Hb Ha]. split.
  - rewrite app_comm_cons. apply Sorted_snoc; [done|]. intros y Hy. by apply (Forall_last _ _ _ Hb).
  - rewrite app_comm_cons. apply Forall_app_2; [done|]. constructor; [lia|constructor].
  - intros l [Hl|Hl%list_elem_of_singleton]%elem_of_app; [auto|by subst].
Qed.

Record history_ok (st : History * PgOutputTransactionSource) : Prop := {
  ho_inv : source_inv identity st.2;
  ho_durable : durable_applied_lsn st.2 = last_accepted st.1;
  ho_accepted : forall p, p ∈ hi_accepted st.1 ->
    exists t, t ∈ hi_emitted st.1 /\ st_final_position t = p;
  ho_delivered : forall l, l ∈ delivered_commits st.2 ->
    exists t, t ∈ hi_emitted st.1 /\ final_lsn t = l;
  ho_emitted : Forall (of_node identity) (hi_emitted st.1);
  ho_sent : exists ls, sent (po_transport st.2) = map durable_status ls /\
    reports_ok (durable_applied_lsn st.2) (map lsn (hi_accepted st.1)) ls;
}.

Lemma last_accepted_in h : last_accepted h = d0 \/ last_accepted h ∈ map lsn (hi_accepted h).
Proof.
  unfold last_accepted. destruct (last _) as [l|] eqn:Hl; [|by left]. right.
  by apply last_Some_elem_of.
Qed.

Lemma map_replicate' n l : map durable_status (replicate n l) = replicate n (durable_status l).
Proof. induction n; cbn; congruence. Qed.

(** A fetch keeps a history ok, with the transaction it emits, if any, added. *)
Lemma fetched_history h self r self' :
  history_ok (h, self) -> fetched identity self r self' ->
  history_ok (mkHistory (hi_emitted h ++ emission r) (hi_accepted h), self').
Proof.
  intros [Hi Hd Ha Hv He (ls & Hs & Hr)] [Hi' Hd' [n Hs'] Hv' He']. cbn in *. split; cbn.
  - done.
  - by rewrite Hd', Hd.
  - intros p Hp. destruct (Ha p Hp) as (t & Ht & Heq). exists t. set_solver.
  - intros l. rewrite Hv', elem_of_app. intros [Hl|Hl].
    + destruct (Hv l Hl) as (t & Ht & Heq). exists t. set_solver.
    + apply list_elem_of_fmap in Hl as (t & -> & Ht). exists t. set_solver.
  - by apply Forall_app_2.
  - exists (ls ++ replicate n (durable_applied_lsn self)). split.
    + by rewrite Hs', Hs, map_app, map_replicate'.
    + rewrite Hd'. apply reports_repeat; [done|]. rewrite Hd. apply last_accepted_in.
Qed.

Lemma acknowledge_history h self p r self' :
  history_ok (h, self) -> pgoutput_acknowledge source_error_text self p = (r, self') ->
  history_ok (mkHistory (hi_emitted h)
    (hi_accepted h ++ (if is_ok (validate_acknowledgement self p) then [p] else [])), self').
Proof.
  intros Hok Hack. pose proof Hok as [Hi Hd Ha Hv He (ls & Hs & Hr)]. cbn in *.
  destruct (acknowledge_spec _ _ _ _ _ _ Hi Hack) as [[Hval Hi' Hd' Hs' Hv']|(_ & -> & Hn)].
  - rewrite Hval. apply (validate_acknowledgement_Ok _ _ _ Hi) in Hval as (Hp & Hle & Hin).
    split; cbn.
    + done.
    + unfold last_accepted. cbn [fst hi_accepted]. rewrite map_app. cbn [map]. by rewrite last_snoc.
    + intros q [Hq|Hq%list_elem_of_singleton]%elem_of_app; [by apply Ha|subst q].
      destruct (Hv _ Hin) as (t & Ht & Heq). exists t. split; [done|].
      rewrite Forall_forall in He. destruct (He t Ht) as [Hpos _]. by rewrite Hpos, Heq, <-Hp.
    + intros l Hl. apply Hv. by apply Hv'.
    + done.
    + exists (ls ++ replicate 1 (lsn p)). split; [by rewrite Hs', Hs, map_app|].
      rewrite Hd', map_app. apply reports_repeat; [|right; set_solver].
      eapply reports_weaken; [exact Hr|done|set_solver].
  - destruct (validate_acknowledgement self p) as [[]|e|]; [done| |];
      rewrite app_nil_r; by destruct h.
Qed.

Lemma history_always_ok self calls :
  source_inv identity self -> durable_applied_lsn self = d0 ->
  sent (po_transport self) = [] -> delivered_commits self = [] ->
  history_ok (source_calls self calls).
Proof.
  intros Hinv Hd Hs Hv. unfold source_calls. induction calls as [|c calls IH] using rev_ind.
  - cbn. split; cbn; [done|done|by intros p ?%elem_of_nil| |constructor|].
    + rewrite Hv. by intros l ?%elem_of_nil.
    + exists []. split; [done|]. split; [by repeat constructor| |by intros l ?%elem_of_nil].
      constructor; [lia|constructor].
  - rewrite foldl_app. cbn. destruct (foldl _ _ calls) as [h s]. destruct c as [|n|p]; cbn.
    + destruct (pgoutput_next source_error_text s) as [r s'] eqn:Hn.
      apply (fetched_history h s (Some r) s' IH), (next_fetched _ _ _ _ _ (ho_inv _ IH) Hn).
    + pose proof (fetched_history h s None _ IH
        (interrupted_fetched source_error_text _ n s (ho_inv _ IH))) as H.
      cbn in H. rewrite app_nil_r in H. by destruct h.
    + destruct (pgoutput_acknowledge source_error_text s p) as [r s'] eqn:Ha.
      by eapply acknowledge_history.
Qed.
End histories.

(** ** Streams without errors *)

(** No message of the stream is rejected by the assembler. *)
Fixpoint clean (a : TransactionAssembler) (events : list DecodedMessage) : bool :=
  match events with
  | [] => true
  | e :: events => let (r, a) := assembler_push a e in is_ok r && clean a events
  end.

(** The transactions a stream assembles to. *)
Definition assembled (a : TransactionAssembler) (events : list DecodedMessage)
    : list SourceTransaction := map ct_transaction (assemble a events).1.

Section streams.
Context (source_error_text : SourceError -> string).
Implicit Types self : PgOutputTransactionSource.

(** The transport still has [events] to hand out, and they are clean; statuses get through. *)
Record awaits self (events : list DecodedMessage) : Prop := {
  aw_inbox : inbox (po_transport self) = map Ok events;
  aw_clean : clean (po_assembler self) events = true;
  aw_sends : Forall (fun r => r = Ok tt) (send_results (po_transport self));
}.

Lemma awaits_status self events r self' :
  awaits self events -> send_durable_status source_error_text self = (r, self') ->
  r = Ok tt /\ awaits self' events /\ po_assembler self' = po_assembler self.
Proof.
  intros [Hi Hc Hs] [= <- <-]. destruct (send_results (po_transport self)) as [|q qs] eqn:Hq.
  - split_and!; [done| |done]. by split.
  - apply Forall_cons in Hs as [-> Hs]. split_and!; [done| |done]. by split.
Qed.

(** Consuming the messages at hand yields the first assembled transaction, if they have one,
    and loses nothing. *)
Lemma poll_clean pre post self r self' :
  awaits self (pre ++ post) -> poll_messages source_error_text (map Ok pre) self = (r, self') ->
  exists rest, awaits self' rest /\
    assembled (po_assembler self) (pre ++ post) = emission r ++ assembled (po_assembler self') rest /\
    ((r = None /\ rest = post) \/ exists t, r = Some (Ok (Some t))).
Proof.
  revert self. induction pre as [|e pre IH]; intros self Haw H.
  { injection H as <- <-. exists post. split; [done|]. split; [done|]. by left. }
  destruct Haw as [Hi Hc Hs]. cbn [app clean] in Hc. cbn [map poll_messages] in H.
  unfold assembled. cbn [app assemble]. destruct (assembler_push (po_assembler self) e) as [q a] eqn:Hp.
  apply andb_true_iff in Hc as [Hok Hc].
  cbn [po_assembler with_inbox with_transport] in H. rewrite Hp in H.
  set (self1 := with_assembler _ a) in H.
  assert (Haw1 : awaits self1 (pre ++ post)) by (split; cbn; [by rewrite Hi|done|done]).
  change a with (po_assembler self1) in Hc |- *.
  destruct (assemble (po_assembler self1) (pre ++ post)) as [cs a'] eqn:Hasm.
  assert (Hrest : assembled (po_assembler self1) (pre ++ post) = map ct_transaction cs)
    by (unfold assembled; by rewrite Hasm).
  destruct q as [[[c|wal_end ts reply]|]|e1|]; [| | |done..]; cbn.
  - injection H as <- <-. exists (pre ++ post). cbn. rewrite <-Hrest. split; [|split; [done|eauto]].
    destruct Haw1. by split.
  - rewrite <-Hrest. destruct reply.
    + destruct (send_durable_status _ _) as [q2 self2] eqn:Hst.
      assert (Haw1' : awaits (with_call self1 (CallSourceReceived wal_end)) (pre ++ post))
        by (destruct Haw1; by split).
      destruct (awaits_status _ _ _ _ Haw1' Hst) as (-> & Haw2 & Ha2).
      change (po_assembler self2 = po_assembler self1) in Ha2. rewrite <-Ha2. by apply IH.
    + apply (IH (with_call self1 (CallSourceReceived wal_end))); [|done]. destruct Haw1. by split.
  - rewrite <-Hrest. by apply IH.
Qed.

Lemma assembled_nil a : assembled a [] = [].
Proof. done. Qed.

Lemma next_clean events self r self' :
  awaits self events -> pgoutput_next source_error_text self = (r, self') ->
  exists rest, awaits self' rest /\
    assembled (po_assembler self) events = emission (Some r) ++ assembled (po_assembler self') rest /\
    (emission (Some r) = [] -> rest = []).
Proof.
  intros Haw H. unfold pgoutput_next in H. rewrite (aw_inbox _ _ Haw) in H.
  destruct (poll_messages _ _ _) as [q s] eqn:Hp.
  destruct (poll_clean events [] self q s) as (rest & Haw' & Heq & Hr);
    [by rewrite app_nil_r|done|]. rewrite app_nil_r in Heq.
  destruct Hr as [[-> ->]|[t ->]]; injection H as <- <-.
  - exists []. split; [done|]. split; [|done]. cbn in Heq. rewrite Heq. by destruct (assembler_finish _).
  - exists rest. by split_and!.
Qed.

Lemma interrupted_clean n events self :
  awaits self events ->
  exists rest, awaits (pgoutput_interrupted source_error_text n self) rest /\
    assembled (po_assembler self) events
    = assembled (po_assembler (pgoutput_interrupted source_error_text n self)) rest.
Proof.
  intros Haw. unfold pgoutput_interrupted. rewrite (aw_inbox _ _ Haw).
  replace (take n (map Ok events)) with (map (Ok (E := SourceError)) (take n events))
    by (symmetry; apply firstn_map).
  destruct (poll_messages _ _ _) as [q s] eqn:Hp.
  destruct (poll_clean (take n events) (drop n events) self q s) as (rest & Haw' & Heq & Hr);
    [by rewrite take_drop|done|]. rewrite take_drop in Heq.
  destruct Hr as [[-> ->]|[t ->]]; [by eexists|by exists events].
Qed.

Lemma acknowledge_clean p events self :
  awaits self events ->
  awaits (pgoutput_acknowledge source_error_text self p).2 events /\
  po_assembler (pgoutput_acknowledge source_error_text self p).2 = po_assembler self.
Proof.
  intros Haw. unfold pgoutput_acknowledge. destruct (validate_acknowledgement self p); [|done..].
  destruct (send_durable_status _ _) as [q s] eqn:Hs. cbn.
  eapply awaits_status in Hs as (_ & Haw' & Ha); [|destruct Haw; by split]. by split.
Qed.

Definition is_next (c : SourceCall) : bool := match c with CallNext => true | _ => false end.
Definition fetches (calls : list SourceCall) : nat := length (List.filter is_next calls).

Lemma fetches_snoc calls c :
  fetches (calls ++ [c]) = (fetches calls + if is_next c then 1 else 0)%nat.
Proof. unfold fetches. rewrite List.filter_app, length_app. cbn. by destruct (is_next c). Qed.

Lemma clean_history self events calls :
  awaits self events ->
  exists rest, awaits (source_calls source_error_text self calls).2 rest /\
    assembled (po_assembler self) events
    = hi_emitted (source_calls source_error_text self calls).1
      ++ assembled (po_assembler (source_calls source_error_text self calls).2) rest /\
    length (hi_emitted (source_calls source_error_text self calls).1)
    = Nat.min (fetches calls) (length (assembled (po_assembler self) events)).
Proof.
  intros Haw. induction calls as [|c calls IH] using rev_ind; [by exists events|].
  destruct IH as (rest & Haw1 & Heq & Hl). rewrite fetches_snoc.
  unfold source_calls in *. rewrite foldl_app. cbn. destruct (foldl _ _ calls) as [h s].
  cbn [fst snd] in *. assert (Hlen := f_equal length Heq). rewrite length_app in Hlen.
  destruct c as [|n|p]; cbn.
  - destruct (pgoutput_next source_error_text s) as [r s'] eqn:Hn. cbn.
    destruct (next_clean _ _ _ _ Haw1 Hn) as (rest' & Haw2 & Heq2 & Hnil). exists rest'.
    split; [done|]. change (match r with Ok (Some t) => [t] | _ => [] end) with (emission (Some r)).
    rewrite <-app_assoc, <-Heq2. split; [done|]. rewrite length_app.
    assert (H2 := f_equal length Heq2). rewrite length_app in H2.
    destruct (decide (emission (Some r) = [])) as [He|He].
    + rewrite He in *. rewrite (Hnil eq_refl), assembled_nil in H2. cbn in *. lia.
    + assert (length (emission (Some r)) = 1)%nat by (by destruct r as [[]| |]). lia.
  - destruct (interrupted_clean n _ _ Haw1) as (rest' & Haw2 & Heq2). exists rest'.
    split; [done|]. rewrite <-Heq2. split; [done|lia].
  - destruct (acknowledge_clean p _ _ Haw1) as [Haw2 Ha]. exists rest. rewrite Ha.
    split; [done|]. split; [done|lia].
Qed.
End streams.

(** *** Properties *)

(** Feedback to the server. However the engine fetches, drops fetches and acknowledges,
    and whatever the server sends: every standby status reports one position as written,
    flushed and applied, asks for no reply, and the reported positions never move backwards;
    each is the initial position or the final position of a transaction that the source has
    emitted and whose acknowledgement it has accepted - a keepalive never advances it; and the
    durable position is the last accepted one. *)
Theorem feedback_reports_only_acknowledged error_text identity transport assembler d0 telemetry calls :
  ta_identity assembler = identity -> wf_assembler assembler ->
  Forall typed_message (inbox transport) -> sent transport = [] ->
  let '(h, self) := source_calls error_text
    (from_transport_with_telemetry transport assembler d0 telemetry) calls in
  exists ls, sent (po_transport self) = map durable_status ls /\ Sorted Z.le (d0 :: ls) /\
    durable_applied_lsn self = default d0 (last (map lsn (hi_accepted h))) /\
    Forall (fun l => (l <= durable_applied_lsn self)%Z /\
      (l = d0 \/ exists t, t ∈ hi_emitted h /\ st_final_position t ∈ hi_accepted h /\
                           final_lsn t = l)) ls.
Proof.
  intros Hid Hwf Hin Hs.
  pose proof (history_always_ok error_text identity d0
    (from_transport_with_telemetry transport assembler d0 telemetry) calls) as Hok.
  destruct (source_calls _ _ _) as [h self].
  destruct Hok as [Hi Hd Ha Hv He (ls & Hls & [Hso Hb Hacc])]; [by split|done..|]. cbn in *.
  exists ls. split; [done|]. split; [done|]. split; [done|]. apply Forall_forall. intros l Hl.
  apply Forall_cons in Hb as [_ Hb]. rewrite Forall_forall in Hb. split; [by apply Hb|].
  destruct (Hacc l Hl) as [->|Hp]; [by left|right].
  apply list_elem_of_fmap in Hp as (p & -> & Hp). destruct (Ha p Hp) as (t & Ht & <-). eauto.
Qed.

(** C8: fetching is complete and cancel-safe. From a server that sends an error-free stream,
    the [n]-th fetch returns exactly the [n]-th transaction that the stream assembles to,
    however many fetches are dropped while they wait and whatever is acknowledged in between. *)
Theorem fetching_is_complete_and_cancel_safe error_text transport assembler d0 telemetry events calls :
  inbox transport = map Ok events -> clean assembler events = true ->
  Forall (fun r => r = Ok tt) (send_results transport) ->
  hi_emitted (source_calls error_text
    (from_transport_with_telemetry transport assembler d0 telemetry) calls).1
  = take (fetches calls) (map ct_transaction (assemble assembler events).1).
Proof.
  intros Hi Hc Hs.
  destruct (clean_history error_text (from_transport_with_telemetry transport assembler d0 telemetry)
    events calls) as (rest & _ & Heq & Hl); [by split|].
  cbn [po_assembler from_transport_with_telemetry] in Heq, Hl. unfold assembled in Heq at 1.
  unfold assembled in Hl at 1. rewrite Heq.
  destruct (decide (fetches calls <= length (map ct_transaction (assemble assembler events).1))%nat).
  - rewrite take_app_length' by lia. done.
  - assert (Hlen := f_equal length Heq). rewrite length_app in Hlen.
    rewrite take_ge; [|rewrite length_app; lia]. 
    destruct (assembled _ rest); [by rewrite app_nil_r|cbn in Hlen; lia].
Qed.

(** ** Witnesses *)

Definition example_events : list DecodedMessage :=
  [DKeepalive 90 0 true; DBegin 100 5 7; DInsert 7 1 (mkTuple [Text [x31]]); DCommit 90 110 6 0;
   DKeepalive 120 0 true].
Definition example_source_assembler : TransactionAssembler :=
  mkTransactionAssembler example_identity TransactionLimits_default None None {[7%Z := 1%Z]}.
Definition example_transport : EventTransport := mkEventTransport (map Ok example_events) [] [].
Definition example_calls : list SourceCall :=
  [CallInterrupted 2; CallNext; CallAcknowledge (position_of example_identity 110); CallNext].
Definition example_source_error (e : SourceError) : string := "error".

Lemma fetching_is_complete_and_cancel_safe_witness :
  clean example_source_assembler example_events = true /\
  hi_emitted (source_calls example_source_error
    (from_transport_with_telemetry example_transport example_source_assembler 80 None) example_calls).1
  = take 2 (map ct_transaction (assemble example_source_assembler example_events).1).
Proof.
  assert (Hc : clean example_source_assembler example_events = true) by (vm_compute; reflexivity).
  split; [exact Hc|].
  apply (fetching_is_complete_and_cancel_safe example_source_error example_transport
    example_source_assembler 80 None example_events example_calls eq_refl Hc).
  constructor.
Defined.

Lemma example_source_wf : wf_assembler example_source_assembler.
Proof. split; [by split; vm_compute|done]. Qed.
Lemma example_inbox_typed : Forall typed_message (inbox example_transport).
Proof. repeat constructor; vm_compute; congruence. Qed.

Lemma feedback_reports_only_acknowledged_witness :
  map write_lsn (sent (po_transport (source_calls example_source_error
    (from_transport_with_telemetry example_transport example_source_assembler 80 None)
    example_calls).2)) = [80; 110; 110]%Z /\
  exists ls, sent (po_transport (source_calls example_source_error
    (from_transport_with_telemetry example_transport example_source_assembler 80 None)
    example_calls).2) = map durable_status ls /\ Sorted Z.le (80%Z :: ls).
Proof.
  split; [vm_compute; reflexivity|].
  pose proof (feedback_reports_only_acknowledged example_source_error example_identity
    example_transport example_source_assembler 80 None example_calls eq_refl example_source_wf
    example_inbox_typed eq_refl) as H.
  destruct (source_calls _ _ _) as [h self]. destruct H as (ls & H1 & H2 & _). exists ls.
  split; [exact H1|exact H2].
Defined.
