(* ===== verification/Sink.v ===== *)
(** * Applying a batch to Cloudberry

    Models [execute_apply] and [validate_request] of
    [crates/target-cloudberry/src/apply.rs] and the sink of
    [crates/engine/src/adapters/cloudberry.rs]: the DDL scope, the table bindings and their
    registry, the translation of a batch into an apply request, and
    [CloudberryTransactionSink].

    The target database is its metadata tables and its user tables by qualified name.  The
    transaction of a batch is a function from the database to a result: an error carries no
    database, which is the rollback.  Each call of it may be refused and the reply to its COMMIT
    may be lost, as the connection's drivers say, one per batch ([ApplyDriver], [Connection]);
    a connection that has lost a reply is closed.  How errors and lists of strings are rendered
    as text is a parameter. *)

From S2P Require Import Prelude Core Schema Change Batch Sql Copy TargetSchema Checkpoint Apply Normalize Fold Refine Pipeline.

(** ** [execute_apply] *)

Record TableApplyBatch : Type := mkTableApplyBatch {
  tab_plan : ApplyPlan;
  tab_rows : list StagingRow;
}.

Record ApplyRequest : Type := mkApplyRequest {
  ar_fence : PipelineFence;
  ar_checkpoint : NodeCheckpoint;
  ar_tables : list TableApplyBatch;
}.

Record ApplyOutcome : Type := mkApplyOutcome {
  ao_counts : ApplyCounts;
  ao_checkpoint : AdvanceOutcome;
}.

Record Database : Type := mkDatabase {
  db_meta : Meta;
  db_tables : gmap QualifiedName Table;
}.

(** The loop of [validate_request] over the names seen so far. *)
Fixpoint validate_names (seen : gset string) (tables : list TableApplyBatch)
    : result ApplyError unit :=
  match tables with
  | [] => Ok tt
  | table :: tables =>
      let name := ap_staging_name (tab_plan table) in
      if bool_decide (name ∈ seen) then Err (DuplicateStagingName name)
      else validate_names ({[name]} ∪ seen) tables
  end.

Definition validate_request (request : ApplyRequest) : result ApplyError unit :=
  validate_names ∅ (ar_tables request).

Definition table_target (table : TableApplyBatch) : QualifiedName :=
  ctp_target (ap_table (tab_plan table)).

(** What the transaction of [execute_apply] asks the server: to begin, to lock the fence, the
    calls for each table, and to advance the checkpoint.  COMMIT is apart. *)
Inductive ApplyStep : Type :=
| BeginApply
| LockFence
| TableCall (index : nat) (call : ApplyCall)
| AdvanceCheckpoint.

(** How the server and the connection treat one transaction: the steps that fail, and whether
    the reply to COMMIT is lost - after the server has executed it or not. *)
Record ApplyDriver : Type := mkApplyDriver {
  ad_refused : ApplyStep -> option string;
  ad_lost : option (string * bool);
}.

Definition calm_driver : ApplyDriver := mkApplyDriver accepts None.

Section transaction.
Context (refused : ApplyStep -> option string).

(** A step of which only the failure is visible. *)
Definition stepped (failed : string -> ApplyError) (step : ApplyStep) : result ApplyError unit :=
  match refused step with Some message => Err (failed message) | None => Ok tt end.

Definition checkpoint_failed (message : string) : ApplyError := ApplyCheckpoint (CheckpointDatabase message).

(** One iteration of the loop over the tables: a table without rows is skipped, a table that
    does not exist is a database error. *)
Definition apply_one (st : gmap QualifiedName Table * ApplyCounts) (table : nat * TableApplyBatch)
    : result ApplyError (gmap QualifiedName Table * ApplyCounts) :=
  let (tables, outcome) := st in
  let (index, table) := table in
  if bool_decide (length (tab_rows table) = 0%nat) then Ok (tables, outcome)
  else
    let? T := ok_or (tables !! table_target table) (ApplyDatabase "relation does not exist") in
    let? '(T, outcome) :=
      apply_table (fun call => refused (TableCall index call)) (tab_plan table) T (tab_rows table) outcome in
    Ok (<[table_target table := T]> tables, outcome).

(** [execute_apply] up to its COMMIT: the outcome, and the database that COMMIT would leave. *)
Definition apply_transaction (db : Database) (request : ApplyRequest)
    : result ApplyError (ApplyOutcome * Database) :=
  let? _ := validate_request request in
  let? _ := stepped ApplyDatabase BeginApply in
  let? _ := stepped checkpoint_failed LockFence in
  let? _ := map_err ApplyCheckpoint (lock_pipeline_fence (db_meta db) (ar_fence request)) in
  let? '(tables, counts) := foldM apply_one (db_tables db, no_counts) (enumerate (ar_tables request)) in
  let? _ := stepped checkpoint_failed AdvanceCheckpoint in
  let? '(checkpoint, meta) :=
    map_err ApplyCheckpoint
      (advance_node_checkpoint (db_meta db) (ar_fence request) (ar_checkpoint request)) in
  Ok (mkApplyOutcome counts checkpoint, mkDatabase meta tables).
End transaction.

(** The client of the target: the database it is connected to, how the next transactions will
    fare (well, when nothing is said), and whether the connection is gone.  A COMMIT that was
    executed and not answered leaves a connection that is gone. *)
Record Connection : Type := mkConnection {
  cn_database : Database;
  cn_drivers : list ApplyDriver;
  cn_closed : bool;
}.

Definition connected (db : Database) : Connection := mkConnection db [] false.

Definition closed_driver : ApplyDriver := mkApplyDriver (fun _ => Some "connection closed") None.

Definition next_driver (conn : Connection) : ApplyDriver :=
  if cn_closed conn then closed_driver else default calm_driver (head (cn_drivers conn)).

(** The connection after a transaction that left [db] behind. *)
Definition used (conn : Connection) (db : Database) (gone : bool) : Connection :=
  mkConnection db (tail (cn_drivers conn)) (cn_closed conn || gone).

(** [execute_apply]: an error before COMMIT drops the transaction, which rolls it back. *)
Definition execute_apply (conn : Connection) (request : ApplyRequest)
    : result ApplyError ApplyOutcome * Connection :=
  let driver := next_driver conn in
  match apply_transaction (ad_refused driver) (cn_database conn) request with
  | Ok (outcome, db) =>
      match ad_lost driver with
      | Some (message, executed) =>
          (Err (ApplyDatabase message),
           used conn (if executed : bool then db else cn_database conn) executed)
      | None => (Ok outcome, used conn db false)
      end
  | Err e => (Err e, used conn (cn_database conn) false)
  | Panic => (Panic, used conn (cn_database conn) false)
  end.

(** ** The DDL scope *)

Record DdlScope : Type := mkDdlScope {
  include_schemas : option (gset string);
  exclude_schemas : gset string;
}.

Definition DdlScope_default : DdlScope := mkDdlScope None ∅.

(** [DdlScope::from_lists]. *)
Definition DdlScope_from_lists (include : option (list string)) (exclude : list string)
    : DdlScope :=
  mkDdlScope (list_to_set <$> include) (list_to_set exclude).

(** [DdlScope::exclude]. *)
Definition DdlScope_exclude (self : DdlScope) (schema : string) : DdlScope :=
  mkDdlScope (include_schemas self) ({[schema]} ∪ exclude_schemas self).

(** [DdlScope::requires_barrier]. *)
Definition requires_barrier (self : DdlScope) (message : DdlMessage) : bool :=
  if bool_decide (ddl_affected_schemas message = []) then true
  else
    match include_schemas self with
    | Some included =>
        existsb (fun schema =>
          bool_decide (schema ∈ included) && negb (bool_decide (schema ∈ exclude_schemas self)))
          (ddl_affected_schemas message)
    | None =>
        existsb (fun schema => negb (bool_decide (schema ∈ exclude_schemas self)))
          (ddl_affected_schemas message)
    end.

(** ** Table bindings *)

Inductive AdapterConfigError : Type :=
| AdapterApplyPlan (e : ApplyPlanError)
| DuplicateBinding (relation_id generation : Z)
| DuplicateTarget (target : string)
| AdapterDuplicateStagingName (name : string)
| AdapterInvalidSlotName.

Record TableBinding : Type := mkTableBinding {
  tb_schema : TableSchema;
  tb_plan : ApplyPlan;
}.

(** [TableBinding::new]. *)
Definition TableBinding_new (schema : TableSchema) (target : QualifiedName) (staging_name : string)
    : result AdapterConfigError TableBinding :=
  let? plan := map_err AdapterApplyPlan (plan_apply schema target staging_name) in
  Ok (mkTableBinding schema plan).

Definition binding_key (b : TableBinding) : Z * Z :=
  (ts_relation_id (tb_schema b), ts_generation (tb_schema b)).
Definition binding_target (b : TableBinding) : QualifiedName := ctp_target (ap_table (tb_plan b)).
Definition binding_staging (b : TableBinding) : string := ap_staging_name (tb_plan b).

Notation TableBindingRegistry := (gmap (Z * Z) TableBinding).

(** The variables of the loop of [TableBindingRegistry::new]. *)
Record RegistryState : Type := mkRegistryState {
  rs_by_key : TableBindingRegistry;
  rs_targets : gset QualifiedName;
  rs_staging_names : gset string;
}.

Definition add_binding (st : RegistryState) (b : TableBinding)
    : result AdapterConfigError RegistryState :=
  match rs_by_key st !! binding_key b with
  | Some _ => Err (DuplicateBinding (binding_key b).1 (binding_key b).2)
  | None =>
      if bool_decide (binding_target b ∈ rs_targets st)
      then Err (DuplicateTarget (QualifiedName_to_string (binding_target b)))
      else if bool_decide (binding_staging b ∈ rs_staging_names st)
      then Err (AdapterDuplicateStagingName (binding_staging b))
      else
        Ok (mkRegistryState (<[binding_key b := b]> (rs_by_key st))
              ({[binding_target b]} ∪ rs_targets st) ({[binding_staging b]} ∪ rs_staging_names st))
  end.

(** [TableBindingRegistry::new]. *)
Definition Registry_new (bindings : list TableBinding)
    : result AdapterConfigError TableBindingRegistry :=
  let? st := foldM add_binding (mkRegistryState ∅ ∅ ∅) bindings in
  Ok (rs_by_key st).

(** ** Apply requests *)

Definition change_key (c : TableChange) : Z * Z := (tc_relation_id c, tc_generation c).

Definition key_compare (a b : Z * Z) : comparison :=
  match Z.compare a.1 b.1 with Eq => Z.compare a.2 b.2 | c => c end.

(** [BTreeMap::entry(..).or_default().push(change)], the map as its sorted entries. *)
Fixpoint push_group (key : Z * Z) (change : TableChange)
    (grouped : list ((Z * Z) * list TableChange)) : list ((Z * Z) * list TableChange) :=
  match grouped with
  | [] => [(key, [change])]
  | (k, changes) :: rest =>
      match key_compare key k with
      | Lt => (key, [change]) :: (k, changes) :: rest
      | Eq => (k, changes ++ [change]) :: rest
      | Gt => (k, changes) :: push_group key change rest
      end
  end.

(** The row changes of a batch, in order. *)
Definition batch_rows (batch : TransactionBatch) : list TableChange :=
  omap (fun change => match change with Row change => Some change | _ => None end)
    (concat (map st_changes (transactions batch))).

Definition group_changes (changes : list TableChange) : list ((Z * Z) * list TableChange) :=
  foldl (fun grouped change => push_group (change_key change) change grouped) [] changes.

Section sink.
(** [error.to_string()] of an apply error, and [{:?}] of a list of strings. *)
Context (apply_error_text : ApplyError -> string) (debug_strings : list string -> string).

(** [{:?}] of a list of relation identifiers. *)
Definition debug_ids (ids : list Z) : string := "[" +:+ join ", " (map pretty ids) +:+ "]".

(** The body of [reject_schema_barriers] for one change. *)
Definition barrier_error (ddl_scope : DdlScope) (xid : Z) (change : TransactionChange)
    : option PipelineError :=
  match change with
  | Ddl message =>
      if requires_barrier ddl_scope message
      then Some (SchemaBarrier ("DDL `" +:+ ddl_command_tag message +:+ "` in transaction "
             +:+ pretty xid +:+ " for relations " +:+ debug_ids (ddl_relation_ids message)
             +:+ " and schemas " +:+ debug_strings (ddl_affected_schemas message)))
      else None
  | Truncate relation_ids _ _ =>
      Some (SchemaBarrier ("TRUNCATE in transaction " +:+ pretty xid +:+ " for relations "
             +:+ debug_ids relation_ids))
  | Row _ => None
  end.

(** [reject_schema_barriers]. *)
Definition reject_schema_barriers (batch : TransactionBatch) (ddl_scope : DdlScope)
    : result PipelineError unit :=
  match omap id (concat (map (fun t =>
          map (barrier_error ddl_scope (st_xid t)) (st_changes t)) (transactions batch))) with
  | e :: _ => Err e
  | [] => Ok tt
  end.

(** One iteration of the loop over the groups. *)
Definition group_table (registry : TableBindingRegistry)
    (group : (Z * Z) * list TableChange) : result PipelineError (option TableApplyBatch) :=
  let '((relation_id, generation), changes) := group in
  let? binding := ok_or (registry !! (relation_id, generation))
    (PipelineTarget ("no immutable table binding for relation " +:+ pretty relation_id
                     +:+ " generation " +:+ pretty generation)) in
  let? rows := map_err PipelineNormalize (normalize_table_changes (tb_schema binding) changes) in
  Ok (if bool_decide (length rows = 0%nat) then None
      else Some (mkTableApplyBatch (tb_plan binding) rows)).

(** [build_apply_request_scoped]. *)
Definition build_apply_request_scoped (fence : PipelineFence) (slot_name : string)
    (registry : TableBindingRegistry) (ddl_scope : DdlScope) (batch : TransactionBatch)
    : result PipelineError ApplyRequest :=
  let? _ := reject_schema_barriers batch ddl_scope in
  let? tables := try_map (group_table registry) (group_changes (batch_rows batch)) in
  let? final := final_transaction batch in
  let position := st_final_position final in
  Ok (mkApplyRequest fence
        (mkNodeCheckpoint
           (mkCheckpointKey (pf_pipeline_id fence) (pf_topology_generation fence)
              (node_id position))
           (system_identifier position) (timeline position) slot_name (lsn position))
        (omap id tables)).

(** [build_apply_request]. *)
Definition build_apply_request (fence : PipelineFence) (slot_name : string)
    (registry : TableBindingRegistry) (batch : TransactionBatch) : result PipelineError ApplyRequest :=
  build_apply_request_scoped fence slot_name registry DdlScope_default batch.

(** [CloudberryTransactionSink]; its client is the [Connection] it is given. *)
Record CloudberryTransactionSink : Type := mkCloudberryTransactionSink {
  cts_fence : PipelineFence;
  cts_slot_name : string;
  cts_registry : TableBindingRegistry;
  cts_ddl_scope : DdlScope;
}.

(** [CloudberryTransactionSink::new]. *)
Definition Sink_new (fence : PipelineFence) (slot_name : string)
    (registry : TableBindingRegistry) (ddl_scope : DdlScope)
    : result AdapterConfigError CloudberryTransactionSink :=
  if Lsn.is_empty slot_name || contains_char nul slot_name then Err AdapterInvalidSlotName
  else Ok (mkCloudberryTransactionSink fence slot_name registry ddl_scope).

(** [TransactionSink::apply] for the Cloudberry sink. *)
Definition sink_apply (self : CloudberryTransactionSink) (conn : Connection)
    (batch : TransactionBatch) : result PipelineError unit * Connection :=
  match build_apply_request_scoped (cts_fence self) (cts_slot_name self) (cts_registry self)
          (cts_ddl_scope self) batch with
  | Ok request =>
      let (r, conn) := execute_apply conn request in
      (match r with
       | Ok _ => Ok tt
       | Err error => Err (PipelineTarget (apply_error_text error))
       | Panic => Panic
       end, conn)
  | Err error => (Err error, conn)
  | Panic => (Panic, conn)
  end.
End sink.

(** ** Grouping *)

Lemma key_compare_eq a b : key_compare a b = Eq -> a = b.
Proof.
  destruct a as [a1 a2], b as [b1 b2]. unfold key_compare. cbn.
  destruct (Z.compare_spec a1 b1); [|done..]. intros H2%Z.compare_eq. congruence.
Qed.
Lemma key_compare_refl a : key_compare a a = Eq.
Proof. unfold key_compare. by rewrite !Z.compare_refl. Qed.
Lemma key_compare_gt a b : key_compare a b = Gt -> key_compare b a = Lt.
Proof.
  destruct a as [a1 a2], b as [b1 b2]. unfold key_compare. cbn.
  rewrite (Z.compare_antisym a1 b1), (Z.compare_antisym a2 b2).
  destruct (a1 ?= b1)%Z; cbn; [|done..]. by destruct (a2 ?= b2)%Z.
Qed.

Definition key_lt (a b : Z * Z) : Prop := key_compare a b = Lt.
Lemma key_lt_spec a b : key_lt a b <-> (a.1 < b.1 \/ a.1 = b.1 /\ a.2 < b.2)%Z.
Proof.
  unfold key_lt, key_compare. destruct (Z.compare_spec a.1 b.1); [|split; [left; lia|done]|split; [done|lia]].
  rewrite Z.compare_lt_iff. lia.
Qed.
Lemma key_lt_trans a b c : key_lt a b -> key_lt b c -> key_lt a c.
Proof. rewrite !key_lt_spec. lia. Qed.
Lemma key_lt_irrefl a : ~ key_lt a a.
Proof. rewrite key_lt_spec. lia. Qed.

(** Groups in strictly increasing key order. *)
Definition ordered (grouped : list ((Z * Z) * list TableChange)) : Prop :=
  StronglySorted key_lt (map fst grouped).

Lemma push_group_keys key change grouped k :
  k ∈ map fst (push_group key change grouped) <-> k = key \/ k ∈ map fst grouped.
Proof.
  induction grouped as [|[k1 cs] rest IH]; cbn; [set_solver|].
  destruct (key_compare key k1) eqn:E; cbn.
  - apply key_compare_eq in E as ->. set_solver.
  - set_solver.
  - set_solver.
Qed.

Lemma push_group_ordered key change grouped :
  ordered grouped -> ordered (push_group key change grouped).
Proof.
  unfold ordered. induction grouped as [|[k cs] rest IH]; cbn; intros H; [by repeat constructor|].
  inversion H as [|? ? Hs Hall]; subst. destruct (key_compare key k) eqn:E; cbn.
  - by constructor.
  - constructor; [done|]. constructor; [done|]. eapply Forall_impl; [exact Hall|].
    intros x Hx. by eapply key_lt_trans.
  - constructor; [by apply IH|]. apply Forall_forall. intros x Hx.
    apply push_group_keys in Hx as [->|Hx]; [by apply key_compare_gt|].
    rewrite Forall_forall in Hall. auto.
Qed.

(** The changes filed under a key. *)
Fixpoint group_of (key : Z * Z) (grouped : list ((Z * Z) * list TableChange)) : list TableChange :=
  match grouped with
  | [] => []
  | (k, cs) :: rest => if decide (k = key) then cs else group_of key rest
  end.

Lemma group_of_push key change grouped k :
  ordered grouped ->
  group_of k (push_group key change grouped)
  = group_of k grouped ++ (if decide (key = k) then [change] else []).
Proof.
  unfold ordered. induction grouped as [|[k1 cs] rest IH]; cbn; intros H; [done|].
  inversion H as [|? ? Hs Hall]; subst.
  destruct (key_compare key k1) eqn:E; cbn.
  - apply key_compare_eq in E as ->. repeat case_decide; by rewrite ?app_nil_r.
  - repeat case_decide; subst; rewrite ?app_nil_r; try done.
    + by apply key_lt_irrefl in E.
    + cbn. assert (Hk : group_of k rest = []); [|by rewrite Hk].
      clear -E Hall. induction rest as [|[k2 cs2] rest IH]; cbn in *; [done|].
      apply Forall_cons in Hall as [H2 Hall]. case_decide as Heq; [|by apply IH].
      subst k2. exfalso. by apply (key_lt_irrefl k), (key_lt_trans _ k1).
  - rewrite IH by done. destruct (decide (k1 = k)) as [->|]; [|done].
    rewrite decide_False; [by rewrite app_nil_r|]. intros ->. by rewrite key_compare_refl in E.
Qed.

Definition of_key (k : Z * Z) (c : TableChange) : bool := bool_decide (change_key c = k).

Lemma group_changes_spec changes :
  ordered (group_changes changes) /\
  (forall k, group_of k (group_changes changes) = List.filter (of_key k) changes) /\
  (forall k, k ∈ map fst (group_changes changes) <-> exists c, c ∈ changes /\ change_key c = k).
Proof.
  unfold group_changes. induction changes as [|c cs (IH1 & IH2 & IH3)] using rev_ind.
  - split_and!; [constructor|done|]. intros k. cbn. split; [by intros ?%elem_of_nil|].
    by intros (c & ?%elem_of_nil & _).
  - rewrite !foldl_app. cbn. split_and!.
    + by apply push_group_ordered.
    + intros k. rewrite group_of_push, IH2, List.filter_app by done. cbn. f_equal. unfold of_key.
      case_decide; [by rewrite bool_decide_true|by rewrite bool_decide_false].
    + intros k. rewrite push_group_keys, IH3. setoid_rewrite elem_of_app.
      setoid_rewrite list_elem_of_singleton. naive_solver.
Qed.

Lemma group_of_elem k cs grouped : ordered grouped -> (k, cs) ∈ grouped -> group_of k grouped = cs.
Proof.
  unfold ordered. induction grouped as [|[k1 cs1] rest IH]; cbn; intros H Hin; [by apply elem_of_nil in Hin|].
  inversion H as [|? ? Hs Hall]; subst. apply elem_of_cons in Hin as [[= -> ->]|Hin].
  - by rewrite decide_True.
  - rewrite decide_False; [by apply IH|]. intros ->. rewrite Forall_forall in Hall.
    apply (key_lt_irrefl k), Hall. by apply (list_elem_of_fmap_2 fst _ (k, cs)).
Qed.

Lemma ordered_NoDup grouped : ordered grouped -> NoDup (map fst grouped).
Proof.
  unfold ordered. induction 1 as [|k ks Hs IH Hall]; constructor; [|done].
  intros Hin. rewrite Forall_forall in Hall. by eapply key_lt_irrefl, Hall.
Qed.

(** ** Registries *)

(** What [Registry_new] guarantees of the bindings it was given. *)
Record registry_ok (registry : TableBindingRegistry) : Prop := {
  rok_key : forall k b, registry !! k = Some b -> binding_key b = k;
  rok_target : forall k k' b b', registry !! k = Some b -> registry !! k' = Some b' ->
    binding_target b = binding_target b' -> k = k';
  rok_staging : forall k k' b b', registry !! k = Some b -> registry !! k' = Some b' ->
    binding_staging b = binding_staging b' -> k = k';
}.

Lemma Registry_new_Ok bindings registry :
  Registry_new bindings = Ok registry ->
  registry_ok registry /\ forall k b, registry !! k = Some b <-> b ∈ bindings /\ binding_key b = k.
Proof.
  unfold Registry_new. intros H. apply bind_Ok in H as (st & H & [= <-]).
  apply (foldM_ind add_binding (fun done st =>
    registry_ok (rs_by_key st) /\
    (forall k b, rs_by_key st !! k = Some b <-> b ∈ done /\ binding_key b = k) /\
    (forall k b, rs_by_key st !! k = Some b ->
       binding_target b ∈ rs_targets st /\ binding_staging b ∈ rs_staging_names st))
    (mkRegistryState ∅ ∅ ∅) bindings st) in H; [tauto| |].
  - cbn. split_and!; [by split; intros *; rewrite lookup_empty| |]; intros k b; rewrite lookup_empty;
      [|done]. split; [done|]. by intros [?%elem_of_nil _].
  - intros dn b st1 st2 ([Hk Ht Hs] & Hin & Hset) _ Hadd. unfold add_binding in Hadd.
    destruct (rs_by_key st1 !! binding_key b) eqn:Hfree; [done|].
    case_bool_decide as Htn; [done|]. case_bool_decide as Hsn; [done|]. injection Hadd as <-. cbn.
    split_and!.
    + split.
      * intros k b1 [[<- <-]|[_ Hb1]]%lookup_insert_Some; [done|by apply Hk].
      * intros k k' b1 b2 [[<- <-]|[Hne H1]]%lookup_insert_Some [[<- <-]|[Hne' H2]]%lookup_insert_Some Heq;
          [done| | |by eapply Ht]; exfalso; apply Htn.
        -- rewrite Heq. by apply (Hset _ _ H2).
        -- rewrite <-Heq. by apply (Hset _ _ H1).
      * intros k k' b1 b2 [[<- <-]|[Hne H1]]%lookup_insert_Some [[<- <-]|[Hne' H2]]%lookup_insert_Some Heq;
          [done| | |by eapply Hs]; exfalso; apply Hsn.
        -- rewrite Heq. by apply (Hset _ _ H2).
        -- rewrite <-Heq. by apply (Hset _ _ H1).
    + intros k b1. rewrite lookup_insert_Some, Hin, elem_of_app, list_elem_of_singleton. split.
      * intros [[<- <-]|(_ & ? & ?)]; auto.
      * intros [[Hd| ->] <-]; [|by left]. right. split; [|done]. intros Heq.
        assert (rs_by_key st1 !! binding_key b1 = Some b1) by (by apply Hin). congruence.
    + intros k b1 [[<- <-]|[_ Hb1]]%lookup_insert_Some; [set_solver|].
      destruct (Hset _ _ Hb1). set_solver.
Qed.

(** ** Source and target databases *)

(** The source's replicated tables, by relation and generation. *)
Notation SourceDb := (gmap (Z * Z) Table).

Section mirror.
Context (registry : TableBindingRegistry).

Inductive source_db_step (S : SourceDb) (c : TableChange) : SourceDb -> Prop :=
| source_table_step b T T' :
    registry !! change_key c = Some b -> S !! change_key c = Some T ->
    source_step (tb_schema b) T (tc_change c) T' ->
    source_db_step S c (<[change_key c := T']> S).

Inductive source_db_run : SourceDb -> list TableChange -> SourceDb -> Prop :=
| source_db_done S : source_db_run S [] S
| source_db_more S c S1 cs S2 :
    source_db_step S c S1 -> source_db_run S1 cs S2 -> source_db_run S (c :: cs) S2.

(** Every bound table exists in the source, and its target holds the same rows. *)
Definition mirrors (S : SourceDb) (tables : gmap QualifiedName Table) : Prop :=
  forall k b, registry !! k = Some b ->
    exists T, S !! k = Some T /\ wf_table (tb_schema b) T /\ tables !! binding_target b = Some T.

Hypothesis (Hreg : registry_ok registry).

(** A run of the source, seen by one of its tables. *)
Lemma source_db_run_table S cs S' k b T :
  source_db_run S cs S' -> registry !! k = Some b -> S !! k = Some T ->
  exists T', S' !! k = Some T' /\ source_run (tb_schema b) T (List.filter (of_key k) cs) T'.
Proof.
  intros Hrun Hb. revert T. induction Hrun as [S|S c S1 cs S2 Hstep _ IH]; intros T HT.
  - exists T. split; [done|constructor].
  - inversion Hstep as [b' T0 T0' Hb' HT0 Hs Heq]; subst. cbn. unfold of_key at 1.
    case_bool_decide as Hk.
    + subst k. rewrite Hb in Hb'. injection Hb' as <-. rewrite HT in HT0. injection HT0 as <-.
      destruct (IH T0') as (T' & HT' & Hr); [by rewrite lookup_insert_eq|].
      exists T'. split; [done|]. pose proof (rok_key _ Hreg _ _ Hb) as Hkey.
      unfold binding_key, change_key in Hkey. injection Hkey as H1 H2.
      by eapply source_more.
    + apply IH. by rewrite lookup_insert_ne.
Qed.

Lemma source_db_run_bound S cs S' :
  source_db_run S cs S' -> forall c, c ∈ cs -> is_Some (registry !! change_key c).
Proof.
  induction 1 as [S|S c S1 cs S2 Hstep _ IH]; intros c' Hc; [by apply elem_of_nil in Hc|].
  apply elem_of_cons in Hc as [->|Hc]; [|auto]. inversion Hstep; subst. eauto.
Qed.
End mirror.

(** ** Applying the groups of a batch *)

(** A binding made by [TableBinding_new] for a table whose attribute numbers are distinct. *)
Definition planned_binding (b : TableBinding) : Prop :=
  NoDup (map col_attnum (ts_columns (tb_schema b))) /\
  exists target name, TableBinding_new (tb_schema b) target name = Ok b.

Lemma planned_binding_plan b :
  planned_binding b ->
  NoDup (map col_attnum (ts_columns (tb_schema b))) /\
  exists target name, plan_apply (tb_schema b) target name = Ok (tb_plan b).
Proof.
  intros [Hnd (target & name & H)]. split; [done|]. exists target, name.
  unfold TableBinding_new in H. apply bind_Ok in H as (plan & H & Hb). apply map_err_Ok in H.
  injection Hb as Hb. by rewrite <-Hb.
Qed.

Lemma source_run_wf b T cs T' :
  planned_binding b -> wf_table (tb_schema b) T -> source_run (tb_schema b) T cs T' ->
  wf_table (tb_schema b) T'.
Proof.
  intros (Hnd & target & name & Hplan)%planned_binding_plan Hw Hr.
  pose proof (plan_apply_Ok _ _ _ _ Hplan) as Hf.
  destruct (PrimaryKeyLayout_new_Ok (E := NormalizeError) (tb_schema b) Hnd) as (pk & _ & Hlay).
  induction Hr as [|T c T1 cs T2 Hs _ _ _ IH]; [done|]. apply IH.
  inversion Hs as [new k1 Hl Hp Hk Hn|old new k1 k2 row Hr1 Hl Hb Ho Hk2 Hf2|old k1 row Ho Hr1];
    subst.
  - by apply wf_table_insert.
  - destruct (Hw _ _ Hr1) as (Hlr & Hpr & _).
    apply wf_table_insert; [by apply wf_table_delete| | |done].
    + rewrite overlay_length; congruence.
    + apply overlay_plain; [congruence|done..].
  - by apply wf_table_delete.
Qed.

(** The loop over the tables when the server refuses nothing; the index is irrelevant then. *)
Definition apply_accepted (st : gmap QualifiedName Table * ApplyCounts) (table : TableApplyBatch)
    : result ApplyError (gmap QualifiedName Table * ApplyCounts) :=
  let (tables, outcome) := st in
  if bool_decide (length (tab_rows table) = 0%nat) then Ok (tables, outcome)
  else
    let? T := ok_or (tables !! table_target table) (ApplyDatabase "relation does not exist") in
    let? '(T, outcome) := apply_table accepts (tab_plan table) T (tab_rows table) outcome in
    Ok (<[table_target table := T]> tables, outcome).

Lemma apply_all_accepted st tables :
  foldM (apply_one accepts) st (enumerate tables) = foldM apply_accepted st tables.
Proof. apply (foldM_imap _ (fun i => i)). by intros [] []. Qed.

(** A run with refusals is the run without, or ends with the error of a refusal. *)
Section refusals.
Context (refused : ApplyStep -> option string) (failed : ApplyError -> Prop).
Hypothesis (Hfailed : forall step message, refused step = Some message ->
  failed (ApplyDatabase message) /\ failed (checkpoint_failed message)).

Lemma stepped_cut_short make step :
  make = ApplyDatabase \/ make = checkpoint_failed ->
  cut_short failed (stepped refused make step) (stepped accepts make step).
Proof.
  intros Hm. unfold stepped. destruct (refused step) as [m|] eqn:E; [right|by left].
  destruct (Hfailed _ _ E). destruct Hm as [-> | ->]; eauto.
Qed.
#[local] Hint Resolve stepped_cut_short : cuts.

Lemma apply_one_cut_short st table : cut_short failed (apply_one refused st table) (apply_one accepts st table).
Proof.
  destruct st as [tables outcome], table as [index table]. unfold apply_one. case_bool_decide; [auto with cuts|].
  apply cut_short_bind; [auto with cuts|]. intros T. apply cut_short_bind; [|intros []; auto with cuts].
  apply (apply_table_cut_short (fun call => refused (TableCall index call))).
  intros call message Hr. by apply (Hfailed _ _ Hr).
Qed.
#[local] Hint Resolve apply_one_cut_short cut_short_foldM : cuts.

Lemma apply_transaction_cut_short db request :
  cut_short failed (apply_transaction refused db request) (apply_transaction accepts db request).
Proof. unfold apply_transaction. cut_calls. Qed.
End refusals.

Lemma apply_transaction_committed refused db request x :
  apply_transaction refused db request = Ok x -> apply_transaction accepts db request = Ok x.
Proof. apply (cut_short_Ok (fun _ => True)), apply_transaction_cut_short. done. Qed.

Section groups.
Context (registry : TableBindingRegistry).
Hypothesis (Hreg : registry_ok registry).
Hypothesis (Hplanned : forall k b, registry !! k = Some b -> planned_binding b).

(** The changes of a group take the binding's table from [S] to [S']. *)
Definition group_runs (S S' : SourceDb) (k : Z * Z) (cs : list TableChange) : Prop :=
  exists b T T', registry !! k = Some b /\ S !! k = Some T /\ S' !! k = Some T' /\
    wf_table (tb_schema b) T /\ source_run (tb_schema b) T cs T'.

(** One group: the table of its binding, and no other, becomes the source's. *)
Lemma apply_group S S' k cs b t tables counts :
  group_runs S S' k cs -> registry !! k = Some b -> tables !! binding_target b = S !! k ->
  group_table registry (k, cs) = Ok t ->
  exists tables' counts',
    foldM apply_accepted (tables, counts) (omap id [t]) = Ok (tables', counts') /\
    tables' !! binding_target b = S' !! k /\
    (forall q, q <> binding_target b -> tables' !! q = tables !! q).
Proof.
  intros (b' & T & T' & Hb' & HT & HT' & Hwf & Hrun) Hb Htab Hg. rewrite Hb in Hb'.
  injection Hb' as <-. destruct k as [rel gen]. cbn in Hg. rewrite Hb in Hg. cbn in Hg.
  destruct (planned_binding_plan b (Hplanned _ _ Hb)) as (Hnd & target & name & Hplan).
  pose proof (batch_refines _ _ _ _ _ _ _ Hplan Hnd Hwf Hrun) as Href.
  destruct (normalize_table_changes (tb_schema b) cs) as [rows|e|]; [|done..].
  destruct Href as [_ Happ]. cbn in Hg. case_bool_decide as Hemp; injection Hg as <-; cbn.
  - exists tables, counts. split; [done|]. split; [|done]. rewrite Htab, HT, HT'.
    destruct (Happ counts) as [c Hc]. unfold apply_table in Hc.
    rewrite bool_decide_true in Hc by done. by injection Hc as ->.
  - rewrite bool_decide_false by done. change (table_target (mkTableApplyBatch (tb_plan b) rows))
      with (binding_target b). rewrite Htab, HT. cbn. destruct (Happ counts) as [c ->]. cbn.
    eexists _, _. split; [reflexivity|]. split; [by rewrite lookup_insert_eq|].
    intros q Hq. by rewrite lookup_insert_ne.
Qed.

Lemma omap_id_cons {A} (o : option A) l : omap id (o :: l) = omap id [o] ++ omap id l.
Proof. by destruct o. Qed.

Lemma apply_groups S S' groups ts tables counts :
  NoDup (map fst groups) -> (forall k cs, (k, cs) ∈ groups -> group_runs S S' k cs) ->
  (forall k b, k ∈ map fst groups -> registry !! k = Some b -> tables !! binding_target b = S !! k) ->
  try_map (group_table registry) groups = Ok ts ->
  exists tables' counts',
    foldM apply_accepted (tables, counts) (omap id ts) = Ok (tables', counts') /\
    (forall k b, k ∈ map fst groups -> registry !! k = Some b -> tables' !! binding_target b = S' !! k) /\
    (forall q, (forall k b, k ∈ map fst groups -> registry !! k = Some b -> binding_target b <> q) ->
       tables' !! q = tables !! q).
Proof.
  revert ts tables counts. induction groups as [|[k cs] groups IH]; intros ts tables counts Hnd Hruns Htab Hm.
  - injection Hm as <-. exists tables, counts. split; [done|]. split; [|done].
    by intros k b ?%elem_of_nil.
  - cbn [map fst] in *. apply NoDup_cons in Hnd as [Hni Hnd].
    cbn [try_map] in Hm. apply bind_Ok in Hm as (t & Ht & Hm). apply bind_Ok in Hm as (ts' & Hm & [= <-]).
    pose proof (Hruns k cs ltac:(by left)) as Hrun. pose proof Hrun as (b & _ & _ & Hb & _).
    destruct (apply_group S S' k cs b t tables counts Hrun Hb ltac:(apply Htab; [by left|done]) Ht)
      as (tables1 & counts1 & H1 & Hk1 & Ho1).
    assert (Hne : forall k' b', k' ∈ map fst groups -> registry !! k' = Some b' ->
      binding_target b' <> binding_target b).
    { intros k' b' Hk' Hb' Heq. apply Hni. by rewrite <-(rok_target _ Hreg _ _ _ _ Hb' Hb Heq). }
    destruct (IH ts' tables1 counts1) as (tables2 & counts2 & H2 & Hk2 & Ho2);
      [done| | |done|].
    + intros k' cs' Hin. apply Hruns. by right.
    + intros k' b' Hk' Hb'. rewrite Ho1 by (by eapply Hne). apply Htab; [by right|done].
    + exists tables2, counts2. split; [|split].
      * rewrite omap_id_cons, foldM_app, H1. exact H2.
      * intros k' b' [->|Hk']%elem_of_cons Hb'; [|by apply Hk2].
        rewrite Hb in Hb'. injection Hb' as <-. rewrite Ho2; [done|].
        intros k2 b2 Hk2' Hb2. by eapply Hne.
      * intros q Hq. rewrite Ho2, Ho1; [done| |].
        -- intros ->. apply (Hq k b); [by left|done|done].
        -- intros k2 b2 Hk2' Hb2. apply (Hq k2 b2); [by right|done].
Qed.

(** The staging names of a request never repeat. *)
Lemma validate_names_Ok seen tables :
  NoDup (map (fun t => ap_staging_name (tab_plan t)) tables) ->
  (forall t, t ∈ tables -> ap_staging_name (tab_plan t) ∉ seen) ->
  validate_names seen tables = Ok tt.
Proof.
  revert seen. induction tables as [|t tables IH]; intros seen Hnd Hs; cbn; [done|].
  cbn in Hnd. apply NoDup_cons in Hnd as [Hni Hnd].
  rewrite bool_decide_false by (apply Hs; by left). apply IH; [done|].
  intros t' Ht'. rewrite not_elem_of_union, not_elem_of_singleton. split; [|apply Hs; by right].
  intros Heq. apply Hni. rewrite <-Heq.
  by apply (list_elem_of_fmap_2 (fun t => ap_staging_name (tab_plan t))).
Qed.

Lemma group_table_binding k cs t :
  group_table registry (k, cs) = Ok (Some t) ->
  exists b, registry !! k = Some b /\ tab_plan t = tb_plan b.
Proof.
  destruct k as [rel gen]. cbn. intros H. apply bind_Ok in H as (b & Hb & H). apply ok_or_Ok in Hb.
  apply bind_Ok in H as (rows & _ & H). case_bool_decide; [done|]. injection H as <-. eauto.
Qed.

Lemma request_names groups ts :
  NoDup (map fst groups) -> try_map (group_table registry) groups = Ok ts ->
  validate_names ∅ (omap id ts) = Ok tt.
Proof.
  intros Hnd Hm. apply validate_names_Ok; [|set_solver]. apply try_map_Ok in Hm.
  induction Hm as [|[k cs] o groups ts Hg Hm IH]; [constructor|].
  cbn in Hnd. apply NoDup_cons in Hnd as [Hni Hnd]. specialize (IH Hnd).
  destruct o as [t|]; cbn; [|exact IH]. apply NoDup_cons. split; [|exact IH].
  intros (t' & Heq & Hin)%list_elem_of_fmap. apply Hni.
  apply group_table_binding in Hg as (b & Hb & Hp).
  apply list_elem_of_omap in Hin as (o & Ho & Hot). apply list_elem_of_lookup in Ho as [i Hi].
  destruct (Forall2_lookup_r _ _ _ _ _ Hm Hi) as ([k' cs'] & Hk' & Hg').
  unfold id in Hot. subst o. apply group_table_binding in Hg' as (b' & Hb' & Hp').
  rewrite Hp, Hp' in Heq. rewrite (rok_staging _ Hreg _ _ _ _ Hb Hb' Heq).
  apply (list_elem_of_fmap_2 fst _ (k', cs')). by eapply list_elem_of_lookup_2.
Qed.

(** The groups of a batch run their tables from the old to the new source. *)
Lemma batch_group_runs S S' cs k gs :
  (forall k b, registry !! k = Some b -> exists T, S !! k = Some T /\ wf_table (tb_schema b) T) ->
  source_db_run registry S cs S' -> (k, gs) ∈ group_changes cs -> group_runs S S' k gs.
Proof.
  intros Hwf Hrun Hin. destruct (group_changes_spec cs) as (Hord & Hof & Hkeys).
  assert (Hk : k ∈ map fst (group_changes cs)) by (by apply (list_elem_of_fmap_2 fst _ (k, gs))).
  apply Hkeys in Hk as (c & Hc & Hck).
  destruct (source_db_run_bound _ _ _ _ Hrun c Hc) as [b Hb]. rewrite Hck in Hb.
  destruct (Hwf _ _ Hb) as (T & HT & HwT).
  destruct (source_db_run_table _ Hreg _ _ _ _ _ _ Hrun Hb HT) as (T' & HT' & Hr).
  exists b, T, T'. split_and!; try done. rewrite <-Hof in Hr.
  by rewrite (group_of_elem _ _ _ Hord Hin) in Hr.
Qed.
End groups.

(** ** The sink *)

(** The checkpoint a request of this sink proposes for a batch. *)
Definition batch_checkpoint (self : CloudberryTransactionSink) (t : SourceTransaction)
    : NodeCheckpoint :=
  let position := st_final_position t in
  mkNodeCheckpoint
    (mkCheckpointKey (pf_pipeline_id (cts_fence self)) (pf_topology_generation (cts_fence self))
       (node_id position))
    (system_identifier position) (timeline position) (cts_slot_name self) (lsn position).

Lemma advance_locks db f p o db' :
  advance_node_checkpoint db f p = Ok (o, db') -> exists u, lock_pipeline_fence db f = Ok u.
Proof.
  unfold advance_node_checkpoint. intros H. apply bind_Ok in H as (u & _ & H).
  destruct (_ || _); [done|]. apply bind_Ok in H as (u2 & Hl & _). eauto.
Qed.

Section sink_lemmas.
Context (apply_error_text : ApplyError -> string) (debug_strings : list string -> string).
Context (self : CloudberryTransactionSink).
Hypothesis (Hreg : registry_ok (cts_registry self)).
Hypothesis (Hplanned : forall k b, cts_registry self !! k = Some b -> planned_binding b).

Notation request_of := (build_apply_request_scoped debug_strings (cts_fence self)
  (cts_slot_name self) (cts_registry self) (cts_ddl_scope self)).

Lemma request_Ok batch request :
  request_of batch = Ok request ->
  exists t ts, last (transactions batch) = Some t /\
    try_map (group_table (cts_registry self)) (group_changes (batch_rows batch)) = Ok ts /\
    request = mkApplyRequest (cts_fence self) (batch_checkpoint self t) (omap id ts).
Proof.
  unfold build_apply_request_scoped. intros H. apply bind_Ok in H as (u & _ & H).
  apply bind_Ok in H as (ts & Hts & H). apply bind_Ok in H as (t & Ht & H).
  unfold final_transaction in Ht. apply expect_Ok in Ht. injection H as <-. eauto.
Qed.

(** The tables of a valid request turn a mirror of [S] into a mirror of [S']. *)
Lemma request_tables_apply S S' db batch ts :
  mirrors (cts_registry self) S (db_tables db) ->
  source_db_run (cts_registry self) S (batch_rows batch) S' ->
  try_map (group_table (cts_registry self)) (group_changes (batch_rows batch)) = Ok ts ->
  exists tables counts,
    foldM apply_accepted (db_tables db, no_counts) (omap id ts) = Ok (tables, counts) /\
    mirrors (cts_registry self) S' tables /\
    (forall q, (forall k b, cts_registry self !! k = Some b -> binding_target b <> q) ->
       tables !! q = db_tables db !! q).
Proof.
  intros Hmir Hrun Hts. destruct (group_changes_spec (batch_rows batch)) as (Hord & Hof & Hkeys).
  destruct (apply_groups _ Hreg Hplanned S S' (group_changes (batch_rows batch)) ts (db_tables db)
    no_counts) as (tables & counts & Hf & Hin & Hout); [by apply ordered_NoDup| | |done|].
  { intros k cs. apply batch_group_runs; [done| |done]. intros k' b' Hb'.
    destruct (Hmir _ _ Hb') as (T & HT & Hw & _). eauto. }
  { intros k b _ Hb. destruct (Hmir _ _ Hb) as (T & HT & _ & Htab). congruence. }
  exists tables, counts. split; [done|]. split.
  - intros k b Hb. destruct (Hmir _ _ Hb) as (T & HT & Hw & Htab).
    destruct (source_db_run_table _ Hreg _ _ _ _ _ _ Hrun Hb HT) as (T' & HT' & Hr).
    exists T'. split; [done|].
    destruct (decide (k ∈ map fst (group_changes (batch_rows batch)))) as [Hk|Hk].
    + split; [|by rewrite (Hin k b Hk Hb)].
      by apply (source_run_wf b _ _ _ (Hplanned _ _ Hb) Hw Hr).
    + assert (Hnil : List.filter (of_key k) (batch_rows batch) = []).
      { destruct (List.filter _ _) as [|c l] eqn:E; [done|]. exfalso. apply Hk, Hkeys.
        assert (Hc : c ∈ List.filter (of_key k) (batch_rows batch)) by (rewrite E; by left).
        apply elem_of_List_filter in Hc as [Hc Hc']. apply bool_decide_eq_true in Hc. eauto. }
      rewrite Hnil in Hr. inversion Hr; subst. split; [done|]. rewrite Hout; [done|].
      intros k' b' Hk' Hb' Heq. apply Hk. by rewrite (rok_target _ Hreg _ _ _ _ Hb Hb' (eq_sym Heq)).
  - intros q Hq. apply Hout. intros k b _ Hb. by eapply Hq.
Qed.

(** How the sink ends: the transaction of the batch's request has been committed, or nothing has
    changed; it is only committed without success when the reply to COMMIT is lost, and the
    connection is gone then. *)
Lemma sink_apply_cases conn batch r conn' :
  sink_apply apply_error_text debug_strings self conn batch = (r, conn') ->
  match r with
  | Ok tt => cn_closed conn' = cn_closed conn /\ exists request o,
      request_of batch = Ok request /\
      apply_transaction accepts (cn_database conn) request = Ok (o, cn_database conn')
  | _ => cn_database conn' = cn_database conn \/
      exists request o message, request_of batch = Ok request /\
        apply_transaction accepts (cn_database conn) request = Ok (o, cn_database conn') /\
        ad_lost (next_driver conn) = Some (message, true) /\ cn_closed conn' = true /\
        r = Err (PipelineTarget (apply_error_text (ApplyDatabase message)))
  end.
Proof.
  unfold sink_apply. intros H.
  destruct (request_of batch) as [request| |] eqn:Hreq; [|injection H as <- <-; by left..].
  unfold execute_apply in H. destruct (apply_transaction _ _ _) as [[o db]| |] eqn:Ht;
    [|injection H as <- <-; by left..].
  apply apply_transaction_committed in Ht.
  destruct (ad_lost (next_driver conn)) as [[m []]|] eqn:Hl; injection H as <- <-.
  - right. exists request, o, m. cbn. by rewrite orb_true_r.
  - by left.
  - split; [apply orb_false_r|]. eauto.
Qed.

(** A connection that is gone applies nothing. *)
Lemma sink_apply_closed conn batch r conn' :
  cn_closed conn = true -> sink_apply apply_error_text debug_strings self conn batch = (r, conn') ->
  r <> Ok tt /\ cn_closed conn' = true /\ cn_database conn' = cn_database conn.
Proof.
  unfold sink_apply. intros Hc H.
  destruct (request_of batch) as [request| |]; [|by injection H as <- <-..].
  unfold execute_apply, next_driver in H. rewrite Hc in H. cbn [closed_driver ad_refused ad_lost] in H.
  unfold apply_transaction, stepped in H.
  destruct (validate_request request) as [[]| |]; cbn in H; injection H as <- <-;
    (split; [done|]; split; [cbn; by rewrite Hc|done]).
Qed.

(** What committing the transaction of a batch does. *)
Lemma transaction_effect S S' db batch request o db' :
  mirrors (cts_registry self) S (db_tables db) ->
  source_db_run (cts_registry self) S (batch_rows batch) S' ->
  request_of batch = Ok request -> apply_transaction accepts db request = Ok (o, db') ->
  exists t o, last (transactions batch) = Some t /\
    advance_node_checkpoint (db_meta db) (cts_fence self) (batch_checkpoint self t)
      = Ok (o, db_meta db') /\
    mirrors (cts_registry self) S' (db_tables db') /\
    (forall q, (forall k b, cts_registry self !! k = Some b -> binding_target b <> q) ->
       db_tables db' !! q = db_tables db !! q).
Proof.
  intros Hmir Hrun Hreq Hex. destruct (request_Ok _ _ Hreq) as (t & ts & Hlast & Hts & ->).
  destruct (request_tables_apply _ _ _ _ _ Hmir Hrun Hts) as (tables & counts & Hf & Hm & Ho).
  apply bind_Ok in Hex as (u & _ & Hex). do 3 (apply bind_Ok in Hex as (? & _ & Hex)).
  cbn [ar_tables] in Hex. rewrite apply_all_accepted, Hf in Hex. cbn [mbind result_bind] in Hex.
  apply bind_Ok in Hex as (? & _ & Hex).
  apply bind_Ok in Hex as ([o2 meta] & Hadv & Hex). apply map_err_Ok in Hadv.
  injection Hex as <- <-. exists t, o2. cbn. done.
Qed.

(** Groups whose updates carry no old key always normalize. *)
Lemma groups_normalize S S' batch :
  (forall k b, cts_registry self !! k = Some b ->
     exists T, S !! k = Some T /\ wf_table (tb_schema b) T) ->
  source_db_run (cts_registry self) S (batch_rows batch) S' ->
  Forall (fun c => ~ carries_old_key (tc_change c)) (batch_rows batch) ->
  exists ts, try_map (group_table (cts_registry self)) (group_changes (batch_rows batch)) = Ok ts.
Proof.
  intros Hwf Hrun Hold. apply try_map_all_Ok. intros [k cs] Hin.
  destruct (batch_group_runs _ Hreg S S' _ _ _ Hwf Hrun Hin)
    as (b & T & T' & Hb & _ & _ & Hw & Hr).
  destruct (planned_binding_plan b (Hplanned _ _ Hb)) as (Hnd & target & name & Hplan).
  pose proof (batch_refines _ _ _ _ _ _ _ Hplan Hnd Hw Hr) as Href.
  destruct k as [rel gen]. cbn. rewrite Hb. cbn.
  destruct (normalize_table_changes (tb_schema b) cs) as [rows|e|]; [by eexists| |done].
  destruct Href as [_ Hex]. exfalso. destruct (group_changes_spec (batch_rows batch)) as (Hord & Hof & _).
  rewrite <-(group_of_elem _ _ _ Hord Hin), Hof in Hex.
  apply Exists_exists in Hex as (c & [_ Hc]%elem_of_List_filter & Hcar).
  rewrite Forall_forall in Hold. by apply (Hold c Hc).
Qed.

(** The transaction of a batch within the sink's means goes through when nothing is refused. *)
Lemma admissible_transaction S S' db batch t existing :
  mirrors (cts_registry self) S (db_tables db) ->
  source_db_run (cts_registry self) S (batch_rows batch) S' ->
  Forall (fun c => ~ carries_old_key (tc_change c)) (batch_rows batch) ->
  reject_schema_barriers debug_strings batch (cts_ddl_scope self) = Ok tt ->
  last (transactions batch) = Some t -> typed (batch_checkpoint self t) ->
  read_checkpoint (db_meta db) (nc_key (batch_checkpoint self t)) = Ok existing ->
  admissible (db_meta db) (cts_fence self) (batch_checkpoint self t) existing ->
  exists request x, request_of batch = Ok request /\ apply_transaction accepts db request = Ok x.
Proof.
  intros Hmir Hrun Hold Hbar Hl Ht Hread Hadm.
  destruct (groups_normalize S S' batch) as [ts Hts]; [|done..|].
  { intros k b Hb. destruct (Hmir _ _ Hb) as (T & HT & Hw & _). eauto. }
  destruct (request_tables_apply _ _ _ _ _ Hmir Hrun Hts) as (tables & counts & Hf & _).
  destruct (group_changes_spec (batch_rows batch)) as (Hord & _).
  pose proof (request_names _ Hreg Hplanned _ _ (ordered_NoDup _ Hord) Hts) as Hv.
  destruct (admissible_advances _ _ _ _ Ht Hread Hadm) as (o & meta & Hadv).
  destruct (advance_locks _ _ _ _ _ Hadv) as [g Hlock].
  unfold build_apply_request_scoped. rewrite Hbar. cbn [mbind result_bind].
  rewrite Hts. cbn [mbind result_bind]. unfold final_transaction. rewrite Hl. cbn [expect mbind result_bind].
  eexists _, _. split; [reflexivity|].
  unfold apply_transaction, validate_request. cbn [ar_tables ar_fence ar_checkpoint]. rewrite Hv.
  cbn [stepped accepts mbind result_bind]. rewrite Hlock. cbn [map_err mbind result_bind].
  rewrite apply_all_accepted, Hf. cbn [mbind result_bind].
  change (mkNodeCheckpoint _ _ _ _ _) with (batch_checkpoint self t).
  rewrite Hadv. reflexivity.
Qed.

(** The driver refuses no step and delivers the reply to COMMIT. *)
Definition accepting (driver : ApplyDriver) : Prop :=
  (forall step, ad_refused driver step = None) /\ ad_lost driver = None.

(** What is within the sink's means fails through the database only. *)
Lemma driven_transaction conn batch request x r conn' :
  request_of batch = Ok request -> apply_transaction accepts (cn_database conn) request = Ok x ->
  sink_apply apply_error_text debug_strings self conn batch = (r, conn') ->
  (accepting (next_driver conn) -> r = Ok tt) /\
  (r = Ok tt \/ exists e, r = Err (PipelineTarget (apply_error_text e)) /\ database_failure e).
Proof.
  intros Hreq Ht H. unfold sink_apply in H. rewrite Hreq in H. unfold execute_apply in H.
  set (driver := next_driver conn) in *. split.
  - intros [Hr Hl]. destruct (apply_transaction_cut_short (ad_refused driver) (fun _ => False)) with (cn_database conn) request
      as [He|(? & _ & [])]; [intros step m Hs; by rewrite Hr in Hs|].
    rewrite He, Ht in H. destruct x as [o db]. rewrite Hl in H. by injection H as <- _.
  - destruct (apply_transaction_cut_short (ad_refused driver) database_failure) with (cn_database conn) request
      as [He|(e & He & Hf)]; [done| |].
    + rewrite He, Ht in H. destruct x as [o db].
      destruct (ad_lost driver) as [[m b]|]; injection H as <- _; [right|by left]. by exists (ApplyDatabase m).
    + rewrite He in H. injection H as <- _. eauto.
Qed.
End sink_lemmas.

(** ** Barriers and bindings of a request *)

Lemma requires_barrier_false scope m :
  requires_barrier scope m = false ->
  ddl_affected_schemas m <> [] /\
  forall s, s ∈ ddl_affected_schemas m ->
    s ∈ exclude_schemas scope \/ exists inc, include_schemas scope = Some inc /\ s ∉ inc.
Proof.
  unfold requires_barrier. case_bool_decide as Hne; [done|]. intros H. split; [done|].
  intros s Hs. apply list_elem_of_In in Hs.
  destruct (decide (s ∈ exclude_schemas scope)) as [?|Hex]; [by left|]. right.
  destruct (include_schemas scope) as [inc|].
  - exists inc. split; [done|]. intros Hinc. apply not_true_iff_false in H. apply H.
    apply existsb_exists. exists s. split; [done|].
    by rewrite bool_decide_true, bool_decide_false by done.
  - apply not_true_iff_false in H. exfalso. apply H. apply existsb_exists. exists s.
    split; [done|]. by rewrite bool_decide_false by done.
Qed.

Lemma no_barrier debug scope batch u :
  reject_schema_barriers debug batch scope = Ok u ->
  forall t c, t ∈ transactions batch -> c ∈ st_changes t ->
    barrier_error debug scope (st_xid t) c = None.
Proof.
  unfold reject_schema_barriers. intros H t c Ht Hc.
  destruct (barrier_error debug scope (st_xid t) c) as [e|] eqn:He; [|done]. exfalso.
  set (errors := concat _) in H.
  assert (Hin : Some e ∈ errors).
  { apply list_elem_of_In, in_concat.
    exists (map (barrier_error debug scope (st_xid t)) (st_changes t)).
    split; apply list_elem_of_In; [|by rewrite <-He; apply list_elem_of_fmap_2].
    apply (list_elem_of_fmap_2 (fun t => map (barrier_error debug scope (st_xid t)) (st_changes t))),
      Ht. }
  assert (He2 : e ∈ omap id errors) by (apply list_elem_of_omap; by exists (Some e)).
  destruct (omap id errors); [by apply elem_of_nil in He2|done].
Qed.

Lemma batch_rows_in batch t c :
  t ∈ transactions batch -> Row c ∈ st_changes t -> c ∈ batch_rows batch.
Proof.
  intros Ht Hc. unfold batch_rows. apply list_elem_of_omap. exists (Row c). split; [|done].
  apply list_elem_of_In, in_concat. exists (st_changes t).
  split; apply list_elem_of_In; [|done]. by apply list_elem_of_fmap_2.
Qed.

Lemma grouped_bound registry changes ts :
  try_map (group_table registry) (group_changes changes) = Ok ts ->
  forall c, c ∈ changes -> is_Some (registry !! change_key c).
Proof.
  intros Hts c Hc. destruct (group_changes_spec changes) as (_ & _ & Hkeys).
  assert (Hk : change_key c ∈ map fst (group_changes changes)) by (apply Hkeys; eauto).
  apply list_elem_of_fmap in Hk as ([k cs] & Heq & Hin). cbn in Heq.
  apply list_elem_of_lookup in Hin as [i Hi]. apply try_map_Ok in Hts.
  destruct (Forall2_lookup_l _ _ _ _ _ Hts Hi) as (o & _ & Hg). rewrite Heq.
  destruct k as [rel gen]. cbn in Hg. apply bind_Ok in Hg as (b & Hb & _).
  apply ok_or_Ok in Hb. by exists b.
Qed.

Lemma request_table registry changes ts :
  try_map (group_table registry) (group_changes changes) = Ok ts ->
  forall table, table ∈ omap id ts ->
  exists k b, registry !! k = Some b /\ tab_plan table = tb_plan b /\
    (exists c, c ∈ changes /\ change_key c = k) /\
    normalize_table_changes (tb_schema b) (List.filter (of_key k) changes) = Ok (tab_rows table).
Proof.
  intros Hts table Hin. destruct (group_changes_spec changes) as (Hord & Hof & Hkeys).
  apply list_elem_of_omap in Hin as (o & Ho & Hot). unfold id in Hot. subst o.
  apply list_elem_of_lookup in Ho as [i Hi]. apply try_map_Ok in Hts.
  destruct (Forall2_lookup_r _ _ _ _ _ Hts Hi) as ([k cs] & Hk & Hg).
  apply list_elem_of_lookup_2 in Hk. pose proof (group_of_elem _ _ _ Hord Hk) as Hcs.
  rewrite Hof in Hcs. exists k. destruct k as [rel gen]. cbn in Hg.
  apply bind_Ok in Hg as (b & Hb & Hg). apply ok_or_Ok in Hb.
  apply bind_Ok in Hg as (rows & Hrows & Hg). apply map_err_Ok in Hrows.
  case_bool_decide; [done|]. injection Hg as <-. cbn. exists b. split_and!; try done.
  - apply Hkeys. by apply (list_elem_of_fmap_2 fst _ ((rel, gen), cs)).
  - by rewrite Hcs.
Qed.

(** *** Properties *)

(** What applying a batch does to the database of a sink, and to nothing else: every bound
    target table mirrors the source [S'], and the node's checkpoint is the last position of the
    batch under the sink's fence. *)
Definition batch_applied (self : CloudberryTransactionSink) (S' : SourceDb) (batch : TransactionBatch)
    (db db' : Database) : Prop :=
  mirrors (cts_registry self) S' (db_tables db') /\
  (exists t, last (transactions batch) = Some t /\
     load_node_checkpoint (db_meta db') (nc_key (batch_checkpoint self t))
     = Ok (Some (mkStoredNodeCheckpoint (batch_checkpoint self t) (pf_fencing_token (cts_fence self))))) /\
  (forall q, (forall k b, cts_registry self !! k = Some b -> binding_target b <> q) ->
     db_tables db' !! q = db_tables db !! q).

Lemma registry_facts bindings registry :
  Registry_new bindings = Ok registry -> Forall planned_binding bindings ->
  registry_ok registry /\ (forall k b, registry !! k = Some b -> planned_binding b).
Proof.
  intros Hnew Hall. destruct (Registry_new_Ok _ _ Hnew) as [Hreg Hin]. split; [done|].
  intros k b Hb. apply Hin in Hb as [Hb _]. rewrite Forall_forall in Hall. auto.
Qed.

Lemma transaction_applies debug self S S' db batch request o db' :
  registry_ok (cts_registry self) -> (forall k b, cts_registry self !! k = Some b -> planned_binding b) ->
  mirrors (cts_registry self) S (db_tables db) ->
  source_db_run (cts_registry self) S (batch_rows batch) S' ->
  (forall t, last (transactions batch) = Some t -> typed (batch_checkpoint self t)) ->
  build_apply_request_scoped debug (cts_fence self) (cts_slot_name self) (cts_registry self)
    (cts_ddl_scope self) batch = Ok request ->
  apply_transaction accepts db request = Ok (o, db') -> batch_applied self S' batch db db'.
Proof.
  intros Hreg Hplanned Hmir Hrun Ht Hreq Hex.
  destruct (transaction_effect debug self Hreg Hplanned S S' db batch request o db' Hmir Hrun Hreq Hex)
    as (t & o' & Hl & Hadv & Hm & Ho).
  split; [done|]. split; [|done]. exists t. split; [done|].
  pose proof (advance_node_checkpoint_Ok _ _ _ _ _ (Ht t Hl) Hadv) as Ha.
  destruct (advance_admissible _ _ _ _ _ (Ht t Hl) Hadv) as (ex & _ & Hv & _).
  unfold load_node_checkpoint. unfold validate_checkpoint in Hv. apply bind_Ok in Hv as (g & Hg & _).
  rewrite Hg. apply database_generation_Ok in Hg as [-> _]. cbn [mbind result_bind].
  rewrite key_eta. apply (adv_stored _ _ _ _ _ Ha).
Qed.

(** C4: the end-to-end guarantee of the sink. Let every bound target table mirror its source
    table, and let the source have executed the row changes of the batch. Then applying the
    batch is atomic, however the server and the connection behave: if it succeeds, every bound
    target table mirrors the new source, the node's checkpoint is the batch's last position
    under the sink's fence, and no other table is touched; if it fails, for whatever reason,
    the database is exactly what it was - unless COMMIT was executed and its reply lost, when
    the database is exactly as after a success and the connection is gone. *)
Theorem sink_apply_is_atomic_and_exact error_text debug self bindings S S' conn batch r conn' :
  Registry_new bindings = Ok (cts_registry self) -> Forall planned_binding bindings ->
  mirrors (cts_registry self) S (db_tables (cn_database conn)) ->
  source_db_run (cts_registry self) S (batch_rows batch) S' ->
  (forall t, last (transactions batch) = Some t -> typed (batch_checkpoint self t)) ->
  sink_apply error_text debug self conn batch = (r, conn') ->
  match r with
  | Ok tt => batch_applied self S' batch (cn_database conn) (cn_database conn')
  | _ =>
      cn_database conn' = cn_database conn \/
      exists message, ad_lost (next_driver conn) = Some (message, true) /\ cn_closed conn' = true /\
        r = Err (PipelineTarget (error_text (ApplyDatabase message))) /\
        batch_applied self S' batch (cn_database conn) (cn_database conn')
  end.
Proof.
  intros Hnew Hall Hmir Hrun Ht H. destruct (registry_facts _ _ Hnew Hall) as [Hreg Hplanned].
  apply sink_apply_cases in H. destruct r as [[]|e|].
  1: { destruct H as (_ & request & o & Hreq & Hex). by eapply transaction_applies. }
  all: destruct H as [H|(request & o & m & Hreq & Hex & Hl & Hc & He)]; [by left|right]; exists m;
    (split; [done|]); (split; [done|]); (split; [done|]); by eapply transaction_applies.
Qed.

(** C13: the sink makes progress. Take a batch without barriers, whose updates carry no old
    key, whose changes the source executed, and whose final position the checkpoint contract
    admits under the sink's fence. It is applied whenever the server refuses none of its
    statements and the reply to COMMIT arrives; and whatever they refuse, the only errors it
    can meet are errors of the database, never one of the batch's own. *)
Theorem admissible_batch_is_applied error_text debug self bindings S S' conn batch t existing :
  Registry_new bindings = Ok (cts_registry self) -> Forall planned_binding bindings ->
  mirrors (cts_registry self) S (db_tables (cn_database conn)) ->
  source_db_run (cts_registry self) S (batch_rows batch) S' ->
  Forall (fun c => ~ carries_old_key (tc_change c)) (batch_rows batch) ->
  reject_schema_barriers debug batch (cts_ddl_scope self) = Ok tt ->
  last (transactions batch) = Some t -> typed (batch_checkpoint self t) ->
  read_checkpoint (db_meta (cn_database conn)) (nc_key (batch_checkpoint self t)) = Ok existing ->
  admissible (db_meta (cn_database conn)) (cts_fence self) (batch_checkpoint self t) existing ->
  exists r conn', sink_apply error_text debug self conn batch = (r, conn') /\
    (accepting (next_driver conn) -> r = Ok tt) /\
    (r = Ok tt \/ exists e, r = Err (PipelineTarget (error_text e)) /\ database_failure e).
Proof.
  intros Hnew Hall Hmir Hrun Hold Hbar Hl Ht Hread Hadm.
  destruct (registry_facts _ _ Hnew Hall) as [Hreg Hplanned].
  destruct (admissible_transaction debug self Hreg Hplanned S S' (cn_database conn) batch t existing)
    as (request & x & Hreq & Hex); [done..|].
  destruct (sink_apply error_text debug self conn batch) as [r conn'] eqn:H. exists r, conn'.
  split; [done|]. by eapply driven_transaction.
Qed.

(** No batch that needs schema orchestration reaches the target: a request is only built
    from a batch without TRUNCATE, all of whose DDL messages name affected schemas, none of
    them an included and not excluded one; and it is built for the tables of exactly those
    relations and generations that the batch has row changes for, each with a binding. *)
Theorem barriers_never_reach_the_target debug fence slot registry scope batch request :
  build_apply_request_scoped debug fence slot registry scope batch = Ok request ->
  (forall t c, t ∈ transactions batch -> c ∈ st_changes t ->
    match c with
    | Truncate _ _ _ => False
    | Ddl m => ddl_affected_schemas m <> [] /\
        forall s, s ∈ ddl_affected_schemas m ->
          s ∈ exclude_schemas scope \/ exists inc, include_schemas scope = Some inc /\ s ∉ inc
    | Row c => is_Some (registry !! change_key c)
    end) /\
  (forall table, table ∈ ar_tables request ->
     exists k b, registry !! k = Some b /\ tab_plan table = tb_plan b /\
       (exists c, c ∈ batch_rows batch /\ change_key c = k) /\
       normalize_table_changes (tb_schema b) (List.filter (of_key k) (batch_rows batch))
       = Ok (tab_rows table)).
Proof.
  intros H. unfold build_apply_request_scoped in H. apply bind_Ok in H as (u & Hb & H).
  apply bind_Ok in H as (ts & Hts & H). apply bind_Ok in H as (t & Hl & H). injection H as <-.
  cbn [ar_tables]. split.
  - intros t0 c Ht Hc. apply (no_barrier _ _ _ _ Hb t0 c Ht) in Hc as Hn.
    destruct c as [c|rels cas rst|m]; cbn in Hn; [|done|].
    + assert (Hrow : c ∈ batch_rows batch) by (by apply (batch_rows_in _ t0)).
      by apply (grouped_bound _ _ _ Hts).
    + apply requires_barrier_false. by destruct (requires_barrier scope m).
  - intros table Hin. by apply (request_table _ _ _ Hts).
Qed.

(** ** Witnesses *)

Definition example_bindings : list TableBinding :=
  match TableBinding_new example_items (mkQualifiedName "target" "items") "staging" with
  | Ok b => [b]
  | _ => []
  end.
Definition example_registry : TableBindingRegistry :=
  match Registry_new example_bindings with Ok r => r | _ => ∅ end.
Definition example_sink : CloudberryTransactionSink :=
  mkCloudberryTransactionSink (example_fence 5) "slot" example_registry DdlScope_default.
Definition example_target : Database :=
  mkDatabase example_meta {[mkQualifiedName "target" "items" := example_S0]}.
Definition example_row_batch (changes : list TransactionChange) : TransactionBatch :=
  mkTransactionBatch [mkSourceTransaction 9 0 (mkSourcePosition 0 77 1 32) changes] 1 1 false.
Definition example_error_text (e : ApplyError) : string := "error".
Definition example_debug (l : list string) : string := join ", " l.

Lemma example_bindings_eq :
  exists b, example_bindings = [b] /\ tb_schema b = example_items /\
    binding_target b = mkQualifiedName "target" "items" /\ planned_binding b /\
    example_registry = {[ (7, 1)%Z := b ]}.
Proof.
  assert (exists b, TableBinding_new example_items (mkQualifiedName "target" "items") "staging" = Ok b)
    as [b Hb] by (eexists; vm_compute; reflexivity).
  assert (Hs : tb_schema b = example_items).
  { unfold TableBinding_new in Hb. apply bind_Ok in Hb as (pl & _ & [= <-]). done. }
  assert (Ht : binding_target b = mkQualifiedName "target" "items").
  { assert (match TableBinding_new example_items (mkQualifiedName "target" "items") "staging" with
      | Ok b => binding_target b = mkQualifiedName "target" "items" | _ => False end)
      as H by (vm_compute; reflexivity). by rewrite Hb in H. }
  exists b. split_and!; [by unfold example_bindings; rewrite Hb|done|done| |].
  - split; [rewrite Hs; apply (bool_decide_unpack _); vm_compute; exact I|].
    exists (mkQualifiedName "target" "items"), "staging". by rewrite Hs.
  - unfold example_registry, example_bindings. rewrite Hb. unfold Registry_new. cbn.
    unfold add_binding, binding_key. rewrite Hs. done.
Qed.

Lemma example_new : Registry_new example_bindings = Ok example_registry.
Proof.
  unfold example_registry. assert (H : is_ok (Registry_new example_bindings) = true)
    by (vm_compute; reflexivity). by destruct (Registry_new example_bindings).
Qed.
Lemma example_planned : Forall planned_binding example_bindings.
Proof. destruct example_bindings_eq as (b & -> & _ & _ & H & _). by constructor. Qed.

Lemma example_mirrors : mirrors example_registry {[ (7, 1)%Z := example_S0 ]} (db_tables example_target).
Proof.
  destruct example_bindings_eq as (b & _ & Hs & Ht & _ & ->).
  intros k b' [<- <-]%lookup_singleton_Some. exists example_S0. rewrite Hs, Ht.
  split_and!; [apply lookup_singleton_eq|apply example_wf|apply lookup_singleton_eq].
Qed.

Lemma example_db_run changes S1 :
  Forall (fun c => change_key c = (7, 1)%Z) changes ->
  source_run example_items example_S0 changes S1 ->
  source_db_run example_registry {[ (7, 1)%Z := example_S0 ]} changes {[ (7, 1)%Z := S1 ]}.
Proof.
  destruct example_bindings_eq as (b & _ & Hs & _ & _ & ->).
  generalize example_S0. intros S0 Hk Hrun. induction Hrun as [T|T c T1 cs T2 Hstep _ _ _ IH]; [constructor|].
  apply Forall_cons in Hk as [Hc Hk]. apply (source_db_more _ _ _ {[ (7, 1)%Z := T1 ]}); [|by apply IH].
  assert (He : <[change_key c := T1]> {[ (7, 1)%Z := T ]} =@{SourceDb} {[ (7, 1)%Z := T1 ]})
    by (rewrite Hc; apply insert_singleton_eq).
  rewrite <-He. apply (source_table_step _ _ _ b T T1); rewrite ?Hc; [apply lookup_singleton_eq..|].
  by rewrite Hs.
Qed.

(** A batch with one update and one insert, seen by the source as one run. *)
Definition example_two : list TableChange :=
  map (mkTableChange 7 1)
    [Update None (mkTuple [Text [x31]; Text [x63]]); Insert (mkTuple [Text [x32]; Text [x64]])].
Definition example_S2 : Table :=
  {[ [[x31]] := [Text [x31]; Text [x63]]; [[x32]] := [Text [x32]; Text [x64]] ]}.
Definition example_sink_batch : TransactionBatch := example_row_batch (map Row example_two).

Lemma example_two_run : source_run example_items example_S0 example_two example_S2.
Proof.
  eapply source_more; [|done|done|eapply source_more; [|done|done|]].
  - cbn. apply (source_update _ _ _ _ [[x31]] [[x31]] [Text [x31]; Text [x61]]).
    + apply lookup_singleton_eq.
    + done.
    + done.
    + by apply example_key.
    + by apply example_key.
    + by left.
  - cbn. apply (source_insert _ _ _ [[x32]]); [done|done|by apply example_key|vm_compute; reflexivity].
  - assert (He : <[[[x32]] := [Text [x32]; Text [x64]]]> (<[[[x31]] := [Text [x31]; Text [x63]]]>
      (delete [[x31]] example_S0)) = example_S2) by (vm_compute; reflexivity).
    cbn in He |- *. rewrite He. constructor.
Qed.

Lemma example_sink_run :
  source_db_run example_registry {[ (7, 1)%Z := example_S0 ]} (batch_rows example_sink_batch)
    {[ (7, 1)%Z := example_S2 ]}.
Proof. apply example_db_run; [by repeat constructor|exact example_two_run]. Qed.

Lemma example_sink_typed t :
  last (transactions example_sink_batch) = Some t -> typed (batch_checkpoint example_sink t).
Proof. intros [= <-]. apply example_checkpoint_typed, valid_32. Qed.

Definition example_connection : Connection := connected example_target.
(** The COMMIT of the next transaction is executed, its reply lost. *)
Definition example_lossy : Connection :=
  mkConnection example_target [mkApplyDriver accepts (Some ("connection reset", true))] false.
(** The server refuses a row of the COPY. *)
Definition example_refusing : Connection :=
  mkConnection example_target
    [mkApplyDriver (fun step => match step with
                                | TableCall 0 (SendRow 1) => Some "invalid input syntax"
                                | _ => None
                                end) None] false.

Definition example_applied (db : Database) : option Z :=
  match load_node_checkpoint (db_meta db) (mkCheckpointKey 11 1 0) with
  | Ok (Some stored) => Some (nc_applied_lsn (snc_checkpoint stored))
  | _ => None
  end.

Lemma example_sink_result :
  exists conn', sink_apply example_error_text example_debug example_sink example_connection
    example_sink_batch = (Ok tt, conn').
Proof. eexists. vm_compute. reflexivity. Qed.
Lemma example_lossy_result :
  exists conn', sink_apply example_error_text example_debug example_sink example_lossy
    example_sink_batch = (Err (PipelineTarget "error"), conn') /\
    example_applied (cn_database conn') = Some 32%Z.
Proof.
  assert (H : match sink_apply example_error_text example_debug example_sink example_lossy example_sink_batch with
    | (Err (PipelineTarget text), conn') =>
        bool_decide (text = "error") && bool_decide (example_applied (cn_database conn') = Some 32%Z)
    | _ => false end = true) by (vm_compute; reflexivity).
  destruct (sink_apply _ _ _ _ _) as [[|[]|] conn']; try discriminate H. exists conn'.
  apply andb_true_iff in H as [->%bool_decide_eq_true H%bool_decide_eq_true]. by split.
Qed.

Lemma sink_apply_is_atomic_and_exact_witness :
  exists conn' conn2,
    sink_apply example_error_text example_debug example_sink example_connection example_sink_batch
      = (Ok tt, conn') /\
    mirrors example_registry {[ (7, 1)%Z := example_S2 ]} (db_tables (cn_database conn')) /\
    sink_apply example_error_text example_debug example_sink example_lossy example_sink_batch
      = (Err (PipelineTarget "error"), conn2) /\
    mirrors example_registry {[ (7, 1)%Z := example_S2 ]} (db_tables (cn_database conn2)).
Proof.
  destruct example_sink_result as [conn' H]. destruct example_lossy_result as (conn2 & H2 & Hl2).
  exists conn', conn2. split; [exact H|]. split; [|split; [exact H2|]].
  - apply (sink_apply_is_atomic_and_exact example_error_text example_debug example_sink
      example_bindings {[ (7, 1)%Z := example_S0 ]} {[ (7, 1)%Z := example_S2 ]} example_connection
      example_sink_batch (Ok tt) conn' example_new example_planned example_mirrors example_sink_run
      example_sink_typed H).
  - destruct (sink_apply_is_atomic_and_exact example_error_text example_debug example_sink
      example_bindings {[ (7, 1)%Z := example_S0 ]} {[ (7, 1)%Z := example_S2 ]} example_lossy
      example_sink_batch _ conn2 example_new example_planned example_mirrors example_sink_run
      example_sink_typed H2) as [He|(m & _ & _ & _ & Hm & _)]; [|exact Hm].
    rewrite He in Hl2. assert (example_applied example_target <> Some 32%Z) as Hne
      by (vm_compute; discriminate). destruct (Hne Hl2).
Defined.

Lemma example_read :
  exists existing, read_checkpoint (db_meta example_target) (mkCheckpointKey 11 1 0) = Ok existing /\
    admissible (db_meta example_target) (cts_fence example_sink) (example_checkpoint 32) existing.
Proof.
  eexists. split; [vm_compute; reflexivity|]. split_and!; try (vm_compute; reflexivity).
  intros s [= <-]. by split; vm_compute.
Qed.

Lemma admissible_batch_is_applied_witness :
  exists existing conn' conn2,
    read_checkpoint (db_meta example_target) (mkCheckpointKey 11 1 0) = Ok existing /\
    sink_apply example_error_text example_debug example_sink example_connection example_sink_batch
      = (Ok tt, conn') /\
    sink_apply example_error_text example_debug example_sink example_refusing example_sink_batch
      = (Err (PipelineTarget "error"), conn2).
Proof.
  destruct example_read as (existing & Hread & Hadm). exists existing.
  assert (Hcalm : forall conn, cn_database conn = example_target -> exists r conn',
    sink_apply example_error_text example_debug example_sink conn example_sink_batch = (r, conn') /\
    (accepting (next_driver conn) -> r = Ok tt) /\
    (r = Ok tt \/ exists e, r = Err (PipelineTarget (example_error_text e)) /\ database_failure e)).
  { intros conn Hc. apply (admissible_batch_is_applied example_error_text example_debug example_sink
      example_bindings {[ (7, 1)%Z := example_S0 ]} {[ (7, 1)%Z := example_S2 ]} conn
      example_sink_batch (mkSourceTransaction 9 0 (mkSourcePosition 0 77 1 32) (map Row example_two))
      existing example_new example_planned); try (rewrite Hc).
    - exact example_mirrors.
    - exact example_sink_run.
    - repeat constructor; intros H; exact H.
    - vm_compute. reflexivity.
    - reflexivity.
    - apply example_sink_typed. reflexivity.
    - exact Hread.
    - exact Hadm. }
  destruct (Hcalm example_connection eq_refl) as (r & conn' & H & Hok & _).
  rewrite (Hok ltac:(split; [intros step|]; reflexivity)) in H.
  destruct (Hcalm example_refusing eq_refl) as (r2 & conn2 & H2 & _ & [Hr2|(e & Hr2 & _)]).
  - exfalso. rewrite Hr2 in H2.
    assert (is_ok (sink_apply example_error_text example_debug example_sink example_refusing
      example_sink_batch).1 = false) as Hf by (vm_compute; reflexivity).
    rewrite H2 in Hf. discriminate Hf.
  - rewrite Hr2 in H2. exists conn', conn2. exact (conj Hread (conj H H2)).
Defined.

Lemma barriers_never_reach_the_target_witness :
  exists request,
    build_apply_request_scoped example_debug (example_fence 5) "slot" example_registry
      DdlScope_default example_sink_batch = Ok request /\
    is_Some (example_registry !! (7, 1)%Z).
Proof.
  assert (exists request, build_apply_request_scoped example_debug (example_fence 5) "slot"
    example_registry DdlScope_default example_sink_batch = Ok request) as [request H]
    by (eexists; vm_compute; reflexivity).
  exists request. split; [exact H|].
  destruct (barriers_never_reach_the_target example_debug (example_fence 5) "slot" example_registry
    DdlScope_default example_sink_batch request H) as [Hc _].
  apply (Hc (mkSourceTransaction 9 0 (mkSourcePosition 0 77 1 32) (map Row example_two))
    (Row (mkTableChange 7 1 (Insert (mkTuple [Text [x32]; Text [x64]]))))).
  - left.
  - right. left.
Defined.
