(* ===== verification/Replicate.v ===== *)
(** * The replication loop

    Models [replicate_with_telemetry], [apply_and_ack_or_cancel] and [apply_and_ack] of
    [crates/engine/src/pipeline.rs] against the interfaces [TransactionSource] and
    [TransactionSink], and closes the loop with the Cloudberry sink.

    The loop is driven by its [select!]: which branch is ready, and where a cancellation hits
    a batch that is being applied, is up to the environment.  A schedule lists these choices,
    so the loop is a function of the schedule and every interleaving is some schedule.  The
    delay of the timer only decides how soon its branch becomes ready, and is not modelled. *)

From S2P Require Import Prelude Core Schema Change Batch Sql Copy TargetSchema Checkpoint Apply Normalize Fold Refine Pipeline Telemetry Sink.

(** Where a cancellation hits [apply_and_ack]: before it starts, while the target applies the
    batch - whose transaction may just have been committed - or while the source acknowledges
    it. *)
Inductive Interrupt : Type :=
| NotCancelled
| CancelledBefore
| CancelledInApply (committed : bool)
| CancelledInAck (reached : bool).

(** The ready branch of the [select!]: cancellation, the timer, or the fetch.  The first two
    drop a fetch that has waited [waits] times. *)
Inductive LoopEvent : Type :=
| EvCancelled (waits : nat)
| EvTimer (waits : nat) (i : Interrupt)
| EvFetched (i : Interrupt).

Section loop.
Context {St Db : Type} `{HSrc : TransactionSource St} `{HSnk : TransactionSink Db}.
(** [Utc::now()] at the [n]-th call of the telemetry handle. *)
Context (clock : nat -> Z).

(** The variables of the loop and what it borrows; [lo_received] and [lo_committed] record
    what it was given and which batches the target has reported applied; the loop does not read them. *)
Record LoopState : Type := mkLoopState {
  lo_source : St;
  lo_db : Db;
  lo_batcher : Batcher;
  lo_telemetry : option (list TelemetryCall);
  lo_received : list SourceTransaction;
  lo_committed : list TransactionBatch;
}.

Definition with_source (st : LoopState) (s : St) : LoopState :=
  mkLoopState s (lo_db st) (lo_batcher st) (lo_telemetry st) (lo_received st) (lo_committed st).
Definition with_batcher (st : LoopState) (b : Batcher) : LoopState :=
  mkLoopState (lo_source st) (lo_db st) b (lo_telemetry st) (lo_received st) (lo_committed st).
(** [if let Some(telemetry) = telemetry { call }]; [call] takes the current time. *)
Definition report (st : LoopState) (call : Z -> TelemetryCall) : LoopState :=
  mkLoopState (lo_source st) (lo_db st) (lo_batcher st)
    ((fun calls => calls ++ [call (clock (length calls))]) <$> lo_telemetry st)
    (lo_received st) (lo_committed st).
Definition received (st : LoopState) (t : SourceTransaction) : LoopState :=
  mkLoopState (lo_source st) (lo_db st) (lo_batcher st) (lo_telemetry st)
    (lo_received st ++ [t]) (lo_committed st).

(** [sink.apply(batch)]. *)
Definition run_apply (st : LoopState) (batch : TransactionBatch)
    : result PipelineError unit * LoopState :=
  let (r, db) := apply (lo_db st) batch in
  (r, mkLoopState (lo_source st) db (lo_batcher st) (lo_telemetry st) (lo_received st)
        (lo_committed st ++ (if is_ok r then [batch] else []))).

(** [apply_and_ack], dropped inside the acknowledgement if [cancelled] says so. *)
Definition apply_and_ack (st : LoopState) (batch : TransactionBatch) (cancelled : option bool)
    : result PipelineError bool * LoopState :=
  let (r, st) := run_apply st batch in
  match r with
  | Err e => (Err e, st)
  | Panic => (Panic, st)
  | Ok _ =>
      match final_transaction batch with
      | Err e => (Err e, st)
      | Panic => (Panic, st)
      | Ok final =>
          let position := st_final_position final in
          let st := report st (fun now => CallApplied now (lsn position)) in
          let (r, s) := acknowledge (lo_source st) position in
          match cancelled with
          | Some reached => (Ok false, if reached then with_source st s else st)
          | None =>
              let st := with_source st s in
              match r with
              | Err e => (Err e, st)
              | Panic => (Panic, st)
              | Ok _ => (Ok true, report st (fun now => CallAcknowledged now (lsn position)))
              end
          end
      end
  end.

(** [apply_and_ack_or_cancel]. *)
Definition apply_and_ack_or_cancel (i : Interrupt) (st : LoopState) (batch : TransactionBatch)
    : result PipelineError bool * LoopState :=
  match i with
  | CancelledBefore => (Ok false, st)
  | CancelledInApply committed => (Ok false, if committed then (run_apply st batch).2 else st)
  | CancelledInAck reached => apply_and_ack st batch (Some reached)
  | NotCancelled => apply_and_ack st batch None
  end.

(** The [if let Some(batch) = .. && !apply_and_ack_or_cancel(..).await? { return Ok(()) }]
    that all branches share: [Some] when the loop returns. *)
Definition apply_if_some (i : Interrupt) (st : LoopState) (batch : option TransactionBatch)
    : option (result PipelineError unit) * LoopState :=
  match batch with
  | None => (None, st)
  | Some batch =>
      let (r, st) := apply_and_ack_or_cancel i st batch in
      (match r with
       | Ok true => None
       | Ok false => Some (Ok tt)
       | Err e => Some (Err e)
       | Panic => Some Panic
       end, st)
  end.

(** One iteration of the loop; the timer's branch is disabled while the batcher is empty. *)
Definition loop_step (ev : LoopEvent) (st : LoopState)
    : option (result PipelineError unit) * LoopState :=
  match ev with
  | EvCancelled waits => (Some (Ok tt), with_source st (interrupted waits (lo_source st)))
  | EvTimer waits i =>
      if is_empty (lo_batcher st) then (None, st)
      else
        let st := with_source st (interrupted waits (lo_source st)) in
        let (batch, batcher) := flush (lo_batcher st) in
        apply_if_some i (with_batcher st batcher) batch
  | EvFetched i =>
      let (r, s) := next_transaction (lo_source st) in
      let st := with_source st s in
      match r with
      | Err e => (Some (Err e), st)
      | Panic => (Some Panic, st)
      | Ok None =>
          let (batch, batcher) := flush (lo_batcher st) in
          let (r, st) := apply_if_some i (with_batcher st batcher) batch in
          (Some (default (Ok tt) r), st)
      | Ok (Some transaction) =>
          let st := received st transaction in
          let st := report st (fun _ =>
            CallTransactionReceived (final_lsn transaction) (st_commit_time transaction)) in
          match push (lo_batcher st) transaction with
          | Err e => (Some (Err (PipelineBatch e)), st)
          | Panic => (Some Panic, st)
          | Ok (batch, batcher) => apply_if_some i (with_batcher st batcher) batch
          end
      end
  end.

(** [replicate_with_telemetry], along a schedule: [None] while it is still running. *)
Fixpoint replicate_with_telemetry (schedule : list LoopEvent) (st : LoopState)
    : option (result PipelineError unit) * LoopState :=
  match schedule with
  | [] => (None, st)
  | ev :: schedule =>
      let (r, st) := loop_step ev st in
      match r with
      | Some r => (Some r, st)
      | None => replicate_with_telemetry schedule st
      end
  end.

(** The state in which the loop is entered. *)
Definition loop_start (s : St) (db : Db) (b : Batcher) (telemetry : option (list TelemetryCall))
    : LoopState := mkLoopState s db b telemetry [] [].

(** [replicate]. *)
Definition replicate (s : St) (db : Db) (b : Batcher) (schedule : list LoopEvent)
    : option (result PipelineError unit) * LoopState :=
  replicate_with_telemetry schedule (loop_start s db b None).
End loop.
Arguments LoopState : clear implicits.

(** ** The invariant of the loop *)

Section invariant.
Context {St Db : Type} `{HSrc : TransactionSource St} `{HSnk : TransactionSink Db}.
Context (inv : St -> Prop) (proper : SourceTransaction -> Prop).
Context `{HSL : !TransactionSourceLaws St inv proper} `{HKL : !TransactionSinkLaws Db proper}.
Context (clock : nat -> Z) (d0 : Z).
(** What a client wants to know of the target, given what was received and committed. *)
Context (Q : list SourceTransaction -> list TransactionBatch -> Db -> Prop).
Hypothesis (Q_received : forall rs cs db t, Q rs cs db -> proper t -> Q (rs ++ [t]) cs db).
Hypothesis (Q_apply : forall rs cs db batch rest r db',
  Q rs cs db -> Forall proper rs -> rs = concat (map transactions cs) ++ transactions batch ++ rest ->
  apply db batch = (r, db') -> Q rs (cs ++ (if is_ok r then [batch] else [])) db').
Implicit Types st : LoopState St Db.

(** What the server believes durable is covered by what the target has applied. *)
Definition covered st : Prop :=
  (d0 <= durable_lsn (lo_source st))%Z /\
  (durable_lsn (lo_source st) = d0 \/
   exists l, applied_lsn (lo_db st) = Some l /\ (durable_lsn (lo_source st) <= l)%Z).

(** The loop's invariant, with [rest] received and not committed yet. *)
Record loop_ok st (rest : list SourceTransaction) : Prop := {
  lk_source : inv (lo_source st);
  lk_proper : Forall proper (lo_received st);
  lk_stream : lo_received st = concat (map transactions (lo_committed st)) ++ rest;
  lk_batcher : wf (lo_batcher st);
  lk_covered : covered st;
  lk_client : Q (lo_received st) (lo_committed st) (lo_db st);
}.

Lemma loop_ok_report st rest call :
  loop_ok st rest -> loop_ok (report clock st call) rest.
Proof. intros []. by split. Qed.
Lemma loop_ok_batcher st rest b : wf b -> loop_ok st rest -> loop_ok (with_batcher st b) rest.
Proof. intros Hw []. by split. Qed.
Lemma loop_ok_source st rest s :
  loop_ok st rest -> inv s -> durable_lsn s = durable_lsn (lo_source st) ->
  loop_ok (with_source st s) rest.
Proof.
  intros [Hi Hp Hs Hw [Hd Hc] HQ] Hi' Hd'. split; try done. unfold covered. cbn. by rewrite Hd'.
Qed.

Lemma loop_ok_received st rest t :
  loop_ok st rest -> proper t -> loop_ok (received st t) (rest ++ [t]).
Proof.
  intros [Hi Hp Hs Hw Hc HQ] Ht. split; try done; cbn.
  - apply Forall_app_2; [done|by constructor].
  - by rewrite Hs, app_assoc.
  - by apply Q_received.
Qed.

Lemma batch_proper st batch rest :
  loop_ok st (transactions batch ++ rest) -> Forall proper (transactions batch).
Proof.
  intros [_ Hp Hs _ _ _]. rewrite Hs, !Forall_app in Hp. tauto.
Qed.

(** Applying a batch moves it from the uncommitted to the committed transactions, or not. *)
Lemma run_apply_ok st batch rest r st' :
  loop_ok st (transactions batch ++ rest) -> run_apply st batch = (r, st') ->
  lo_source st' = lo_source st /\ lo_batcher st' = lo_batcher st /\
  (r = Ok tt -> loop_ok st' rest /\ exists t, last (transactions batch) = Some t /\
     applied_lsn (lo_db st') = Some (final_lsn t)) /\
  (r <> Ok tt -> loop_ok st' (transactions batch ++ rest)).
Proof.
  intros Hok Hr. pose proof (batch_proper _ _ _ Hok) as Hpb.
  unfold run_apply in Hr. destruct (apply (lo_db st) batch) as [q db] eqn:Ha.
  injection Hr as <- <-. destruct Hok as [Hi Hp Hs Hw [Hd Hc] HQ].
  pose proof (Q_apply _ _ _ _ _ _ _ HQ Hp Hs Ha) as HQ'.
  assert (Hcov : forall committed, covered (mkLoopState (lo_source st) db (lo_batcher st)
    (lo_telemetry st) (lo_received st) committed)).
  { intros committed. split; [done|]. cbn. destruct Hc as [Hc|(l & Hl & Hle)]; [by left|right].
    destruct (apply_monotone _ _ _ _ _ Hpb Ha Hl) as (l' & Hl' & Hle'). exists l'. split; [done|lia]. }
  split; [done|]. split; [done|]. split.
  - intros ->. split; [|by apply (apply_ok _ _ _ Hpb Ha)]. split; try apply Hcov; try done; cbn.
    rewrite Hs, map_app, concat_app. cbn. by rewrite app_nil_r, <-app_assoc.
  - intros Hne. split; try apply Hcov; try done; cbn. destruct q as [[]| |]; cbn; [done| |];
      by rewrite app_nil_r.
Qed.

Lemma apply_and_ack_ok st batch rest cancelled r st' :
  loop_ok st (transactions batch ++ rest) -> apply_and_ack clock st batch cancelled = (r, st') ->
  lo_batcher st' = lo_batcher st /\ (exists rest', loop_ok st' rest') /\
  (r = Ok true -> loop_ok st' rest) /\ (r = Ok false -> is_Some cancelled).
Proof.
  intros Hok H. unfold apply_and_ack in H. destruct (run_apply st batch) as [q st1] eqn:Hr.
  destruct (run_apply_ok _ _ _ _ _ Hok Hr) as (Hs1 & Hb1 & Hyes & Hno).
  destruct q as [[]|e|]; [|injection H as <- <-; split; [done|]; split; [eauto|done]..].
  destruct (Hyes eq_refl) as [Hok1 (t & Hl & Happ)].
  unfold final_transaction in H. rewrite Hl in H. cbn [expect] in H.
  set (st2 := report clock st1 _) in H.
  assert (Hok2 : loop_ok st2 rest) by (by apply loop_ok_report).
  destruct (acknowledge (lo_source st2) (st_final_position t)) as [q s] eqn:Ha.
  assert (Hok3 : loop_ok (with_source st2 s) rest).
  { destruct Hok2 as [Hi Hp Hst Hw [Hd Hc] HQ]. split; try done; cbn.
    - by eapply acknowledge_inv.
    - destruct (acknowledge_durable _ _ _ _ Hi Ha) as [[Heq Hle]|[Heq _]].
      + split; cbn; [lia|]. right. exists (final_lsn t). split; [done|]. rewrite Heq. done.
      + unfold covered. cbn. by rewrite Heq. }
  destruct cancelled as [[]|].
  - injection H as <- <-. split; [done|]. split; [eauto|]. split; [done|eauto].
  - injection H as <- <-. split; [done|]. split; [eauto|]. split; [done|eauto].
  - destruct q; injection H as <- <-; (split; [done|]); (split; [eauto using loop_ok_report|]);
      (split; [|done]); [intros _; by apply loop_ok_report|done..].
Qed.

Lemma apply_if_some_ok i st batch rest r st' :
  loop_ok st (match batch with Some b => transactions b | None => [] end ++ rest) ->
  apply_if_some clock i st batch = (r, st') ->
  lo_batcher st' = lo_batcher st /\ (exists rest', loop_ok st' rest') /\
  (r = None -> loop_ok st' rest) /\
  (r = Some (Ok tt) -> i <> NotCancelled).
Proof.
  intros Hok H. destruct batch as [batch|]; cbn in H, Hok.
  2: { injection H as <- <-. split; [done|]. split; [eauto|]. done. }
  destruct (apply_and_ack_or_cancel clock i st batch) as [q st1] eqn:Ha.
  assert (Hpost : lo_batcher st1 = lo_batcher st /\ (exists rest', loop_ok st1 rest') /\
    (q = Ok true -> loop_ok st1 rest) /\ (q = Ok false -> i <> NotCancelled)).
  { destruct i as [| |committed|reached]; cbn in Ha.
    - destruct (apply_and_ack_ok _ _ _ _ _ _ Hok Ha) as (? & ? & ? & Hc). split_and!; try done.
      intros Hq. by destruct (Hc Hq).
    - injection Ha as <- <-. split_and!; [done|eauto|done|done].
    - injection Ha as <- <-. destruct committed; [|split_and!; [done|eauto|done|done]].
      destruct (run_apply st batch) as [q1 st1] eqn:Hr. cbn.
      destruct (run_apply_ok _ _ _ _ _ Hok Hr) as (_ & Hb & Hyes & Hno).
      split_and!; [done| |done|done]. destruct q1 as [[]|e|].
      + exists rest. by apply Hyes.
      + exists (transactions batch ++ rest). by apply Hno.
      + exists (transactions batch ++ rest). by apply Hno.
    - destruct (apply_and_ack_ok _ _ _ _ _ _ Hok Ha) as (? & ? & ? & Hc). by split_and!. }
  destruct Hpost as (Hb & Hex & Ht & Hf).
  destruct q as [[]|e|]; injection H as <- <-; split_and!; try done; auto.
Qed.

(** Events without a cancellation. *)
Definition uncancelled (ev : LoopEvent) : Prop :=
  match ev with
  | EvCancelled _ => False
  | EvTimer _ i | EvFetched i => i = NotCancelled
  end.

Lemma loop_step_ok ev st r st' :
  loop_ok st (pending (lo_batcher st)) -> loop_step clock ev st = (r, st') ->
  match r with
  | None => loop_ok st' (pending (lo_batcher st'))
  | Some r => exists rest, loop_ok st' rest /\ (r = Ok tt -> uncancelled ev -> rest = [])
  end.
Proof.
  intros Hok H. pose proof (lk_source _ _ Hok) as Hi. pose proof (lk_batcher _ _ Hok) as Hw.
  destruct ev as [waits|waits i|i]; cbn [loop_step] in H.
  - injection H as <- <-. exists (pending (lo_batcher st)). split; [|done].
    apply loop_ok_source; [exact Hok|by apply interrupted_inv|by apply interrupted_keeps_durable].
  - destruct (is_empty (lo_batcher st)); [by injection H as <- <-|]. cbn [lo_batcher with_source] in H.
    destruct (flush (lo_batcher st)) as [batch b] eqn:Hf.
    destruct (flush_spec _ _ _ Hw Hf) as (Hwb & _ & Hpb & Hb).
    eapply (apply_if_some_ok i _ _ []) in H as (Hbat & [rest' Hrest] & Hnone & Hret).
    + cbn in Hbat. destruct r as [r|].
      * exists rest'. split; [done|]. intros -> Hunc. by destruct Hret.
      * rewrite Hbat, Hpb. auto.
    + apply loop_ok_batcher; [done|].
      apply loop_ok_source; [|by apply interrupted_inv|by apply interrupted_keeps_durable].
      rewrite app_nil_r. by destruct batch as [full|]; [destruct Hb as [_ ->]|rewrite <-Hb].
  - destruct (next_transaction (lo_source st)) as [q s] eqn:Hn.
    assert (Hoks : loop_ok (with_source st s) (pending (lo_batcher st))).
    { apply loop_ok_source; [done|by eapply next_inv|by eapply next_keeps_durable]. }
    destruct q as [[t|]|e|]; [| |injection H as <- <-; by eexists..].
    + pose proof (next_proper _ _ _ Hi Hn) as Ht.
      apply (loop_ok_received _ _ t) in Hoks; [|done].
      apply (loop_ok_report _ _ (fun _ => CallTransactionReceived (final_lsn t) (st_commit_time t))) in Hoks.
      cbn [lo_batcher report received with_source] in H.
      destruct (push (lo_batcher st) t) as [[batch b]|e|] eqn:Hp;
        [|injection H as <- <-; by eexists..].
      destruct (push_spec _ _ _ _ Hw Hp) as (Hwb & _ & Hb).
      eapply (apply_if_some_ok i _ _ (pending b)) in H as (Hbat & [rest' Hrest] & Hnone & Hret).
      * cbn in Hbat. destruct r as [r|]; [|rewrite Hbat; auto].
        exists rest'. split; [done|]. intros -> Hunc. by destruct Hret.
      * apply loop_ok_batcher; [done|]. destruct batch as [full|].
        -- destruct Hb as (_ & -> & ->). exact Hoks.
        -- rewrite Hb. exact Hoks.
    + cbn [lo_batcher with_source] in H. destruct (flush (lo_batcher st)) as [batch b] eqn:Hf.
      destruct (flush_spec _ _ _ Hw Hf) as (Hwb & _ & Hpb & Hb).
      destruct (apply_if_some clock i _ batch) as [q st1] eqn:Ha. injection H as <- <-.
      eapply (apply_if_some_ok i _ _ []) in Ha as (_ & [rest' Hrest] & Hnone & Hret).
      * destruct q as [q|]; [|exists []; auto].
        exists rest'. split; [done|]. cbn. intros -> Hunc. by destruct Hret.
      * apply loop_ok_batcher; [done|]. rewrite app_nil_r.
        by destruct batch as [full|]; [destruct Hb as [_ ->]|rewrite <-Hb].
Qed.

Lemma replicate_ok schedule st r st' :
  loop_ok st (pending (lo_batcher st)) -> replicate_with_telemetry clock schedule st = (r, st') ->
  exists rest, loop_ok st' rest /\
    (r = None -> rest = pending (lo_batcher st')) /\
    (r = Some (Ok tt) -> Forall uncancelled schedule -> rest = []).
Proof.
  revert st. induction schedule as [|ev schedule IH]; intros st Hok H; cbn in H.
  { injection H as <- <-. by eexists. }
  destruct (loop_step clock ev st) as [q st1] eqn:Hs. pose proof (loop_step_ok _ _ _ _ Hok Hs) as Hp.
  destruct q as [q|].
  - injection H as <- <-. destruct Hp as (rest & Hrest & Hr). exists rest. split; [done|].
    split; [done|]. intros [= ->] Hall. apply Forall_cons in Hall as [Hu _]. by apply Hr.
  - destruct (IH _ Hp H) as (rest & Hrest & Hnone & Hr). exists rest. split_and!; [done..|].
    intros Hq Hall. apply Forall_cons in Hall as [_ Hall]. by apply Hr.
Qed.

Lemma loop_start_ok s db l b telemetry :
  inv s -> durable_lsn s = d0 -> limits_ok l -> Batcher_new l = Ok b -> Q [] [] db ->
  loop_ok (loop_start s db b telemetry) (pending (lo_batcher (loop_start s db b telemetry))).
Proof.
  intros Hi Hd Hl Hb HQ. destruct (Batcher_new_Ok _ _ Hl Hb) as (Hw & Hp & _).
  split; cbn; [done|constructor|by rewrite Hp|done| |done]. split; cbn; [lia|by left].
Qed.
End invariant.

(** *** Properties *)

Section properties.
Context {St Db : Type} `{HSrc : TransactionSource St} `{HSnk : TransactionSink Db}.
Context (inv : St -> Prop) (proper : SourceTransaction -> Prop).
Context `{HSL : !TransactionSourceLaws St inv proper} `{HKL : !TransactionSinkLaws Db proper}.
Context (clock : nat -> Z) (limits : BatchLimits) (b : Batcher) (s : St) (db : Db).
Context (telemetry : option (list TelemetryCall)).
Hypotheses (Hlimits : limits_ok limits) (Hbatcher : Batcher_new limits = Ok b) (Hs : inv s).

(** C5: no acknowledgement before durability. For every source and sink that keep their
    promises and every schedule of fetches, timers and cancellations - including one that
    hits a batch while the target commits it or while it is acknowledged - the position the
    server was told never moves backwards and is, unless it is still the initial one, at
    most the position the target has durably applied. *)
Theorem acknowledged_positions_are_applied schedule r st :
  replicate_with_telemetry clock schedule (loop_start s db b telemetry) = (r, st) ->
  (durable_lsn s <= durable_lsn (lo_source st))%Z /\
  (durable_lsn (lo_source st) = durable_lsn s \/
   exists l, applied_lsn (lo_db st) = Some l /\ (durable_lsn (lo_source st) <= l)%Z).
Proof.
  intros H.
  destruct (replicate_ok inv proper clock (durable_lsn s) (fun _ _ _ => True) ltac:(done) ltac:(done)
    schedule _ r st (loop_start_ok _ _ _ _ s db limits b telemetry Hs eq_refl Hlimits Hbatcher I) H)
    as (rest & Hok & _). apply (lk_covered _ _ _ _ _ _ Hok).
Qed.

(** C7: nothing is lost, repeated or reordered. The batches the target reports as applied
    are, concatenated, a prefix of the transactions received from the source; while the loop
    runs, the rest is exactly what the batcher holds; and when the stream ends without a
    cancellation and the loop returns success, nothing is left over. *)
Theorem committed_batches_are_the_received_stream schedule r st :
  replicate_with_telemetry clock schedule (loop_start s db b telemetry) = (r, st) ->
  exists rest, lo_received st = concat (map transactions (lo_committed st)) ++ rest /\
    (r = None -> rest = pending (lo_batcher st)) /\
    (r = Some (Ok tt) -> Forall uncancelled schedule -> rest = []).
Proof.
  intros H.
  destruct (replicate_ok inv proper clock (durable_lsn s) (fun _ _ _ => True) ltac:(done) ltac:(done)
    schedule _ r st (loop_start_ok _ _ _ _ s db limits b telemetry Hs eq_refl Hlimits Hbatcher I) H)
    as (rest & Hok & Hr). exists rest. split; [apply (lk_stream _ _ _ _ _ _ Hok)|exact Hr].
Qed.
End properties.
