(* ===== verification/EndToEnd.v ===== *)
(** * End to end: a source, the loop and the Cloudberry sink

    The Cloudberry sink as an instance of [TransactionSink], and what the replication loop
    guarantees of the target database when it runs against it. *)

From S2P Require Import Prelude Core Schema Change Batch Source Wal Sql Copy TargetSchema Checkpoint Apply Normalize Fold Refine Pipeline Telemetry PgOutput Sink Replicate.

Section cloudberry.
Context (apply_error_text : ApplyError -> string) (debug_strings : list string -> string).
Context (self : CloudberryTransactionSink) (node : Z).

(** The checkpoint of [node] under the sink's fence. *)
Definition sink_key : CheckpointKey :=
  mkCheckpointKey (pf_pipeline_id (cts_fence self)) (pf_topology_generation (cts_fence self)) node.

Definition checkpointed_lsn (db : Database) : option Z :=
  match load_node_checkpoint (db_meta db) sink_key with
  | Ok (Some s) => Some (nc_applied_lsn (snc_checkpoint s))
  | _ => None
  end.

#[export] Instance cloudberry_sink : TransactionSink Connection := {
  apply := sink_apply apply_error_text debug_strings self;
  applied_lsn := fun conn => checkpointed_lsn (cn_database conn);
}.

(** A transaction of the node, whose position fits the columns of the checkpoint table. *)
Definition of_sink (t : SourceTransaction) : Prop :=
  node_id (st_final_position t) = node /\ typed (batch_checkpoint self t).

Notation request_of := (build_apply_request_scoped debug_strings (cts_fence self)
  (cts_slot_name self) (cts_registry self) (cts_ddl_scope self)).

Lemma transaction_advances db batch request o db' :
  request_of batch = Ok request -> apply_transaction accepts db request = Ok (o, db') ->
  exists t o, last (transactions batch) = Some t /\
    advance_node_checkpoint (db_meta db) (cts_fence self) (batch_checkpoint self t)
      = Ok (o, db_meta db').
Proof.
  intros Hreq Hex. destruct (request_Ok _ _ _ _ Hreq) as (t & ts & Hlast & _ & ->).
  apply bind_Ok in Hex as (u & _ & Hex). do 3 (apply bind_Ok in Hex as (? & _ & Hex)).
  apply bind_Ok in Hex as ([tables counts] & _ & Hex). apply bind_Ok in Hex as (? & _ & Hex).
  apply bind_Ok in Hex as ([o2 meta] & Hadv & Hex). apply map_err_Ok in Hadv.
  injection Hex as <- <-. eauto.
Qed.

Lemma load_read db key s :
  load_node_checkpoint db key = Ok (Some s) -> read_checkpoint db key = Ok (Some s).
Proof.
  unfold load_node_checkpoint. intros H. apply bind_Ok in H as (g & Hg & H).
  apply database_generation_Ok in Hg as [-> _]. by rewrite key_eta in H.
Qed.

Lemma advance_loads db p o db' :
  typed p -> advance_node_checkpoint db (cts_fence self) p = Ok (o, db') ->
  load_node_checkpoint db' (nc_key p)
  = Ok (Some (mkStoredNodeCheckpoint p (pf_fencing_token (cts_fence self)))).
Proof.
  intros Ht Hadv. pose proof (advance_node_checkpoint_Ok _ _ _ _ _ Ht Hadv) as Ha.
  destruct (advance_admissible _ _ _ _ _ Ht Hadv) as (ex & _ & Hv & _).
  unfold load_node_checkpoint. unfold validate_checkpoint in Hv. apply bind_Ok in Hv as (g & Hg & _).
  rewrite Hg. apply database_generation_Ok in Hg as [-> _]. cbn [mbind result_bind].
  rewrite key_eta. apply (adv_stored _ _ _ _ _ Ha).
Qed.

Lemma batch_checkpoint_key t :
  node_id (st_final_position t) = node -> nc_key (batch_checkpoint self t) = sink_key.
Proof. intros Hn. unfold sink_key. by rewrite <-Hn. Qed.

(** A committed batch moves the checkpoint to its last transaction, never back. *)
Lemma transaction_checkpoint db batch request o db' :
  Forall of_sink (transactions batch) ->
  request_of batch = Ok request -> apply_transaction accepts db request = Ok (o, db') ->
  exists t, last (transactions batch) = Some t /\ checkpointed_lsn db' = Some (final_lsn t) /\
    forall l, checkpointed_lsn db = Some l -> (l <= final_lsn t)%Z.
Proof.
  intros Hall Hreq Hex. destruct (transaction_advances _ _ _ _ _ Hreq Hex) as (t & o' & Hl & Hadv).
  destruct (Forall_last _ _ _ Hall Hl) as [Hn Ht]. exists t. split; [done|].
  unfold checkpointed_lsn. rewrite <-(batch_checkpoint_key _ Hn).
  rewrite (advance_loads _ _ _ _ Ht Hadv). split; [done|]. intros l Hc.
  destruct (load_node_checkpoint _ _) as [[s|]| |] eqn:Hload; [|done..]. injection Hc as <-.
  apply load_read in Hload. destruct (advance_admissible _ _ _ _ _ Ht Hadv) as (ex & Hread & Hadm).
  rewrite Hload in Hread. injection Hread as <-.
  destruct Hadm as (_ & _ & _ & _ & _ & Hle). by apply (Hle s eq_refl).
Qed.

#[export] Instance cloudberry_laws : TransactionSinkLaws Connection of_sink.
Proof.
  split; cbn.
  - intros conn b conn' Hall (_ & request & o & Hreq & Hex)%sink_apply_cases.
    destruct (transaction_checkpoint _ _ _ _ _ Hall Hreq Hex) as (t & ? & ? & _). eauto.
  - intros conn b r conn' l Hall H%sink_apply_cases Hl.
    assert (Hcommitted : forall request o, request_of b = Ok request ->
      apply_transaction accepts (cn_database conn) request = Ok (o, cn_database conn') ->
      exists l', checkpointed_lsn (cn_database conn') = Some l' /\ (l <= l')%Z).
    { intros request o Hreq Hex. destruct (transaction_checkpoint _ _ _ _ _ Hall Hreq Hex) as (t & _ & ? & ?). eauto. }
    destruct r as [[]|e|]; [destruct H as (_ & request & o & Hreq & Hex); eauto|..];
      (destruct H as [->|(request & o & m & Hreq & Hex & _)]; [by exists l|eauto]).
Qed.
End cloudberry.

(** ** The target follows the source *)

(** The row changes of a stream of transactions, in order. *)
Definition rows_of (ts : list SourceTransaction) : list TableChange :=
  omap (fun change => match change with Row change => Some change | _ => None end)
    (concat (map st_changes ts)).

Lemma rows_of_app l k : rows_of (l ++ k) = rows_of l ++ rows_of k.
Proof. unfold rows_of. by rewrite map_app, concat_app, omap_app. Qed.

Lemma source_db_run_app registry S l k S2 :
  source_db_run registry S (l ++ k) S2 <->
  exists S1, source_db_run registry S l S1 /\ source_db_run registry S1 k S2.
Proof.
  split.
  - revert S. induction l as [|c l IH]; intros S H; cbn in H; [exists S; split; [constructor|done]|].
    inversion H as [|? ? S1 ? ? Hstep Hrun]; subst. destruct (IH _ Hrun) as (S1' & H1 & H2).
    exists S1'. split; [by econstructor|done].
  - intros (S1 & H1 & H2). induction H1; cbn; [done|]. econstructor; eauto.
Qed.

Section end_to_end.
Context (apply_error_text : ApplyError -> string) (debug_strings : list string -> string).
Context (self : CloudberryTransactionSink) (node : Z).
Notation registry := (cts_registry self).
Context (bindings : list TableBinding).
Hypotheses (Hnew : Registry_new bindings = Ok registry) (Hplan : Forall planned_binding bindings).
Context (S0 : SourceDb) (conn0 : Connection).
Hypothesis (Hmirrors : mirrors registry S0 (db_tables (cn_database conn0))).

Notation sink := (cloudberry_sink apply_error_text debug_strings self node).
Notation laws := (cloudberry_laws apply_error_text debug_strings self node).

(** The target mirrors the source as it was after the applied transactions, and its
    checkpoint names the last of them. *)
Record follows (rs applied : list SourceTransaction) (conn : Connection)
    (Sn Sk : SourceDb) (rest : list SourceTransaction) : Prop := {
  fo_stream : rs = applied ++ rest;
  fo_done : source_db_run registry S0 (rows_of applied) Sk;
  fo_todo : source_db_run registry Sk (rows_of rest) Sn;
  fo_mirrors : mirrors registry Sk (db_tables (cn_database conn));
  fo_checkpoint : (applied = [] /\ cn_database conn = cn_database conn0) \/
    exists t, last applied = Some t /\ checkpointed_lsn self node (cn_database conn) = Some (final_lsn t);
}.

(** What is applied is what was committed, and maybe a batch whose COMMIT was not answered; the
    connection is gone then. *)
Definition tracked (rs : list SourceTransaction) (cs : list TransactionBatch) (conn : Connection) : Prop :=
  forall Sn, source_db_run registry S0 (rows_of rs) Sn -> exists extra Sk rest,
    follows rs (concat (map transactions cs) ++ extra) conn Sn Sk rest /\
    (extra = [] \/ cn_closed conn = true).

Lemma tracked_received rs cs conn t : tracked rs cs conn -> tracked (rs ++ [t]) cs conn.
Proof.
  intros Ht Sn Hrun. rewrite rows_of_app in Hrun.
  apply source_db_run_app in Hrun as (Sm & Hrun & Hlast).
  destruct (Ht Sm Hrun) as (extra & Sk & rest & [Hst Hd Htd Hm Hc] & He). exists extra, Sk, (rest ++ [t]).
  split; [|done]. split; [by rewrite Hst, <-!app_assoc|done| |done|done].
  rewrite rows_of_app. apply source_db_run_app. eauto.
Qed.

(** The transaction of the next batch has been committed. *)
Lemma follows_committed rs applied conn Sn Sk batch rest request o conn' :
  follows rs applied conn Sn Sk (transactions batch ++ rest) -> Forall (of_sink self node) rs ->
  build_apply_request_scoped debug_strings (cts_fence self) (cts_slot_name self) registry
    (cts_ddl_scope self) batch = Ok request ->
  apply_transaction accepts (cn_database conn) request = Ok (o, cn_database conn') ->
  exists Sb, follows rs (applied ++ transactions batch) conn' Sn Sb rest.
Proof.
  intros [Hst Hd Htd Hm Hc] Hall Hreq Hex.
  rewrite rows_of_app in Htd. apply source_db_run_app in Htd as (Sb & Hb & Htd).
  destruct (registry_facts _ _ Hnew Hplan) as [Hreg Hplanned].
  destruct (transaction_effect _ self Hreg Hplanned Sk Sb _ batch _ _ _ Hm Hb Hreq Hex)
    as (t & o' & Hl & _ & Hm' & _).
  assert (Hof : Forall (of_sink self node) (transactions batch)).
  { rewrite Hst, !Forall_app in Hall. tauto. }
  exists Sb. split; [by rewrite Hst, <-app_assoc| |done|done|].
  - rewrite rows_of_app. apply source_db_run_app. eauto.
  - right. exists t. rewrite last_app, Hl. split; [done|].
    destruct (transaction_checkpoint debug_strings self node _ _ _ _ _ Hof Hreq Hex) as (t' & Hl' & Hc' & _).
    congruence.
Qed.

Lemma follows_same rs applied conn conn' Sn Sk rest :
  cn_database conn' = cn_database conn -> follows rs applied conn Sn Sk rest ->
  follows rs applied conn' Sn Sk rest.
Proof. intros Hd []. split; by rewrite ?Hd. Qed.

Lemma tracked_apply rs cs conn batch rest r conn' :
  tracked rs cs conn -> Forall (of_sink self node) rs ->
  rs = concat (map transactions cs) ++ transactions batch ++ rest ->
  sink_apply apply_error_text debug_strings self conn batch = (r, conn') ->
  tracked rs (cs ++ (if is_ok r then [batch] else [])) conn'.
Proof.
  intros Ht Hall Hrs Happ Sn Hrun. destruct (Ht Sn Hrun) as (extra & Sk & rest' & Hf & Hextra).
  destruct (cn_closed conn) eqn:Hclosed.
  { destruct (sink_apply_closed _ _ _ _ _ _ _ Hclosed Happ) as (Hr & Hc' & Hd).
    assert (is_ok r = false) as -> by (by destruct r as [[]| |]). rewrite app_nil_r.
    exists extra, Sk, rest'. split; [by eapply follows_same|by right]. }
  destruct Hextra as [->|]; [|done]. rewrite app_nil_r in Hf.
  assert (rest' = transactions batch ++ rest) as ->.
  { pose proof (fo_stream _ _ _ _ _ _ Hf) as Hst. rewrite Hrs in Hst. by apply app_inv_head in Hst. }
  apply sink_apply_cases in Happ. destruct r as [[]|e|]; cbn [is_ok]; rewrite ?app_nil_r.
  - destruct Happ as (_ & request & o & Hreq & Hex).
    destruct (follows_committed _ _ _ _ _ _ _ _ _ _ Hf Hall Hreq Hex) as [Sb Hb].
    exists [], Sb, rest. split; [|by left].
    by rewrite map_app, concat_app; cbn; rewrite !app_nil_r.
  - destruct Happ as [Hd|(request & o & m & Hreq & Hex & _ & Hc & _)].
    + exists [], Sk, (transactions batch ++ rest). rewrite app_nil_r. split; [by eapply follows_same|by left].
    + destruct (follows_committed _ _ _ _ _ _ _ _ _ _ Hf Hall Hreq Hex) as [Sb Hb]. eauto 10.
  - destruct Happ as [Hd|(request & o & m & _ & _ & _ & _ & He)]; [|done].
    exists [], Sk, (transactions batch ++ rest). rewrite app_nil_r. split; [by eapply follows_same|by left].
Qed.

Lemma tracked_start : tracked [] [] conn0.
Proof.
  intros Sn H. exists [], S0, []. split; [|by left]. split; [done|constructor|done|done|by left].
Qed.

Context {St : Type} `{HSrc : TransactionSource St} (inv : St -> Prop).
Context `{HSL : !TransactionSourceLaws St inv (of_sink self node)}.
Context (clock : nat -> Z) (limits : BatchLimits) (b : Batcher) (s : St).
Context (telemetry : option (list TelemetryCall)).
Hypotheses (Hlimits : limits_ok limits) (Hbatcher : Batcher_new limits = Ok b) (Hs : inv s).

(** C1: the end-to-end guarantee. Let the target mirror the source when the loop starts, and
    let the transactions the loop receives be what the source then did. Whatever the
    schedule, whatever the server refuses, whichever COMMIT is not answered, wherever a
    cancellation or an error ends the loop, the target mirrors the source exactly as it was
    after some prefix of the received transactions; the node's checkpoint is the position of
    the last transaction of that prefix (the database is untouched if there is none), so the
    next owner resumes precisely there; and when the stream ends without cancellation and the
    loop succeeds, the prefix is everything. *)
Theorem target_is_always_a_source_state schedule r st Sn :
  replicate_with_telemetry (HSnk := sink) clock schedule (loop_start s conn0 b telemetry) = (r, st) ->
  source_db_run registry S0 (rows_of (lo_received st)) Sn ->
  exists k Sk,
    source_db_run registry S0 (rows_of (take k (lo_received st))) Sk /\
    mirrors registry Sk (db_tables (cn_database (lo_db st))) /\
    ((k = 0%nat /\ cn_database (lo_db st) = cn_database conn0) \/
     exists t, last (take k (lo_received st)) = Some t /\
       checkpointed_lsn self node (cn_database (lo_db st)) = Some (final_lsn t)) /\
    (r = Some (Ok tt) -> Forall uncancelled schedule -> k = length (lo_received st) /\ Sk = Sn).
Proof.
  intros H Hrun.
  destruct (replicate_ok (HSnk := sink) (HKL := laws) inv (of_sink self node) clock (durable_lsn s) tracked
    (fun rs cs db t Ht _ => tracked_received rs cs db t Ht) tracked_apply schedule _ r st
    (loop_start_ok (HSnk := sink) _ _ _ _ s conn0 limits b telemetry Hs eq_refl Hlimits Hbatcher tracked_start) H)
    as (rest & Hok & _ & Hend).
  destruct (lk_client _ _ _ _ _ _ Hok Sn Hrun) as (extra & Sk & rest' & [Hst Hd Htd Hm Hc] & _).
  pose proof (lk_stream _ _ _ _ _ _ Hok) as Hst'. rewrite Hst, <-app_assoc in Hst'.
  apply app_inv_head in Hst'. set (applied := concat (map transactions (lo_committed st)) ++ extra) in *.
  exists (length applied), Sk. rewrite Hst, take_app_length. split; [done|]. split; [done|]. split.
  - destruct Hc as [[Ha Hc]|Hc]; [left|by right]. by rewrite Ha.
  - intros Hr Hunc. rewrite (Hend Hr Hunc) in Hst'. apply app_eq_nil in Hst' as [_ ->].
    rewrite app_nil_r. split; [done|]. by inversion Htd.
Qed.
End end_to_end.

(** ** pgoutput to Cloudberry *)

(** A sink for the node of a pgoutput source: what the source emits, the sink can checkpoint. *)
Lemma of_node_of_sink self identity t :
  (0 <= pf_topology_generation (cts_fence self))%Z ->
  (0 <= sni_system_identifier identity <= u64_max)%Z -> (0 <= sni_timeline identity <= u32_max)%Z ->
  of_node identity t -> of_sink self (sni_node_id identity) t.
Proof.
  intros Hg Hs Ht [Hp Hl]. unfold of_sink, batch_checkpoint. rewrite Hp. split; [done|].
  split; cbn; [done|done|done|exact Hl].
Qed.

Definition flow_identity : SourceNodeIdentity := mkSourceNodeIdentity 0 77 1.
Definition flow_events : list DecodedMessage :=
  [DKeepalive 20 0 true; DBegin 30 5 9;
   DUpdate 7 1 None (mkTuple [Text [x31]; Text [x63]]);
   DInsert 7 1 (mkTuple [Text [x32]; Text [x64]]); DCommit 28 32 6 0].
Definition flow_source : PgOutputTransactionSource :=
  PgOutput_new (mkEventTransport (map Ok flow_events) [] [])
    (mkTransactionAssembler flow_identity TransactionLimits_default None None {[7%Z := 1%Z]}) 16.
Definition flow_batcher : Batcher := mkBatcher BatchLimits_default [] 0 0 None.
Definition flow_clock (n : nat) : Z := Z.of_nat n.
Definition flow_schedule : list LoopEvent := [EvFetched NotCancelled; EvFetched NotCancelled].

#[local] Hint Extern 0 (TransactionSource PgOutputTransactionSource) =>
  exact (pgoutput_source example_source_error) : typeclass_instances.
#[local] Hint Extern 0 (TransactionSink Connection) =>
  exact (cloudberry_sink example_error_text example_debug example_sink 0) : typeclass_instances.
#[local] Hint Extern 0 (TransactionSinkLaws Connection _) =>
  exact (cloudberry_laws example_error_text example_debug example_sink 0) : typeclass_instances.
#[local] Instance flow_src_laws :
  TransactionSourceLaws PgOutputTransactionSource (source_inv flow_identity) (of_sink example_sink 0).
Proof.
  apply (source_laws_weaken _ _ _ (pgoutput_laws example_source_error flow_identity)).
  intros t. by apply of_node_of_sink; vm_compute.
Qed.

Notation flow_run := (replicate_with_telemetry flow_clock flow_schedule
  (loop_start flow_source example_connection flow_batcher (Some []))).

Lemma flow_inv : source_inv flow_identity flow_source.
Proof.
  split; [done| |repeat constructor; vm_compute; congruence]. split; [by split; vm_compute|done].
Qed.
Lemma flow_new : Batcher_new BatchLimits_default = Ok flow_batcher.
Proof. reflexivity. Qed.
Lemma flow_limits : limits_ok BatchLimits_default.
Proof. by repeat split; vm_compute. Qed.

(** The run ends well, having received one transaction, told the server twice. *)
Lemma flow_result :
  exists st, flow_run = (Some (Ok tt), st) /\
    lo_received st = [mkSourceTransaction 9 6 (position_of flow_identity 32) (map Row example_two)] /\
    durable_lsn (lo_source st) = 32%Z /\
    map write_lsn (sent (po_transport (lo_source st))) = [16; 32]%Z.
Proof.
  assert (H : match flow_run with
    | (Some (Ok tt), st) =>
        lo_received st = [mkSourceTransaction 9 6 (position_of flow_identity 32) (map Row example_two)] /\
        durable_lsn (lo_source st) = 32%Z /\
        map write_lsn (sent (po_transport (lo_source st))) = [16; 32]%Z
    | _ => False end) by (vm_compute; done).
  destruct flow_run as [[[[]|e|]|] st]; try done. by exists st.
Qed.

Lemma acknowledged_positions_are_applied_witness :
  exists st l, flow_run = (Some (Ok tt), st) /\ applied_lsn (lo_db st) = Some l /\
    (durable_lsn (lo_source st) <= l)%Z.
Proof.
  destruct flow_result as (st & Hrun & _ & Hd & _).
  destruct (acknowledged_positions_are_applied (source_inv flow_identity) (of_sink example_sink 0)
    flow_clock BatchLimits_default flow_batcher flow_source example_connection (Some []) flow_limits
    flow_new flow_inv flow_schedule (Some (Ok tt)) st Hrun) as [_ [Heq|(l & Hl & Hle)]].
  - rewrite Hd in Heq. discriminate Heq.
  - exists st, l. exact (conj Hrun (conj Hl Hle)).
Defined.

Lemma committed_batches_are_the_received_stream_witness :
  exists st, flow_run = (Some (Ok tt), st) /\
    lo_received st = concat (map transactions (lo_committed st)).
Proof.
  destruct flow_result as (st & Hrun & _). exists st. split; [exact Hrun|].
  destruct (committed_batches_are_the_received_stream (source_inv flow_identity)
    (of_sink example_sink 0) flow_clock BatchLimits_default flow_batcher flow_source example_connection
    (Some []) flow_limits flow_new flow_inv flow_schedule (Some (Ok tt)) st Hrun)
    as (rest & Heq & _ & Hend).
  rewrite (Hend eq_refl ltac:(repeat constructor)), app_nil_r in Heq. exact Heq.
Defined.

Lemma target_is_always_a_source_state_witness :
  exists st, flow_run = (Some (Ok tt), st) /\
    mirrors example_registry {[ (7, 1)%Z := example_S2 ]} (db_tables (cn_database (lo_db st))) /\
    checkpointed_lsn example_sink 0 (cn_database (lo_db st)) = Some 32%Z.
Proof.
  destruct flow_result as (st & Hrun & Hrec & _). exists st. split; [exact Hrun|].
  destruct (target_is_always_a_source_state example_error_text example_debug example_sink 0
    example_bindings example_new example_planned {[ (7, 1)%Z := example_S0 ]} example_connection
    example_mirrors (source_inv flow_identity) flow_clock BatchLimits_default flow_batcher flow_source
    (Some []) flow_limits flow_new flow_inv flow_schedule (Some (Ok tt)) st
    {[ (7, 1)%Z := example_S2 ]} Hrun) as (k & Sk & _ & Hm & Hc & Hend).
  - rewrite Hrec. exact example_sink_run.
  - destruct (Hend eq_refl ltac:(repeat constructor)) as [-> ->]. split; [exact Hm|].
    rewrite Hrec in Hc. destruct Hc as [[Hk _]|(t & Ht & Hc)]; [discriminate Hk|].
    injection Ht as <-. exact Hc.
Defined.
