(* ===== verification/Settings.v ===== *)
(** * Runtime settings

    Models [crates/engine/src/runtime/settings.rs]: the settings of sources, targets and
    pipelines with their validation, the names of publications and slots, and the parsing of
    a settings value, whose JSON decoder is an argument.  [batch_limits] and [ddl_scope] are
    what [crates/engine/src/runtime/job.rs] makes of the validated settings.

    A UUID is its number below [2 ^ 128]; an [i32] is converted to [u32] modulo [2 ^ 32]. *)

From S2P Require Import Prelude Core Schema Change Mapping Batch Wal Sink.

(** ** Data *)

Definition DEFAULT_SOURCE_METADATA_SCHEMA : string := "pg2cb_meta".
Definition TARGET_METADATA_SCHEMA : string := "pg2cb_meta".
Definition MAX_BATCH_ROWS : Z := 1000000.
Definition MAX_BATCH_BYTES : Z := Z.shiftl 1 30.
Definition MAX_BATCH_DELAY_MS : Z := 60000.
Definition MAX_TRANSACTION_CHANGES : Z := 10000000.
Definition MAX_TRANSACTION_BYTES : Z := Z.shiftl 1 36.
Definition MAX_WAL_CHECK_INTERVAL_SECONDS : Z := 3600.
Definition MAX_WAL_RETENTION_BYTES : Z := Z.shiftl 1 50.
Definition MAX_QUARANTINE_RETENTION_DAYS : Z := 3650.
Definition MAX_QUARANTINE_GC_TABLES : Z := 1000.

Definition SYSTEM_SCHEMAS : list string :=
  ["pg_catalog"; "information_schema"; "pg_toast"; "pg_temp"; "pg_toast_temp"].

Inductive TlsMode : Type := Disable | Allow | Prefer | Require | VerifyCa | VerifyFull.

Record ConnectionSettings : Type := mkConnectionSettings {
  cs_host : string;
  cs_port : Z;
  cs_username : string;
  cs_tls_mode : TlsMode;
}.

Record TransactionSettings : Type := mkTransactionSettings {
  trs_max_changes : Z;
  trs_max_bytes : Z;
}.
Definition TransactionSettings_default : TransactionSettings :=
  mkTransactionSettings 1000000 (512 * 1024 * 1024).

Record WalRetentionSettings : Type := mkWalRetentionSettings {
  wr_check_interval_seconds : Z;
  wr_warning_bytes : Z;
  wr_rebuild_bytes : Z;
  wr_minimum_safe_bytes : Z;
}.
Definition WalRetentionSettings_default : WalRetentionSettings :=
  mkWalRetentionSettings 10 (8 * 1024 * 1024 * 1024) (16 * 1024 * 1024 * 1024)
    (1024 * 1024 * 1024).

Record SourceSettings : Type := mkSourceSettings {
  ss_connection : option ConnectionSettings;
  ss_include_schemas : option (list string);
  ss_exclude_schemas : list string;
  ss_metadata_schema : string;
  ss_transaction : TransactionSettings;
  ss_wal_retention : WalRetentionSettings;
}.

Record TargetSettings : Type := mkTargetSettings {
  tgs_connection : option ConnectionSettings;
  tgs_quarantine_retention_days : Z;
  tgs_quarantine_gc_max_tables : Z;
}.
Definition TargetSettings_default : TargetSettings := mkTargetSettings None 30 100.

Record BatchSettings : Type := mkBatchSettings {
  bs_max_rows : Z;
  bs_max_bytes : Z;
  bs_max_delay_ms : Z;
}.
Definition BatchSettings_default : BatchSettings := mkBatchSettings 10000 (16 * 1024 * 1024) 250.

Record TableMapping : Type := mkTableMapping {
  tm_source : QualifiedName;
  tm_target : QualifiedName;
}.

Record PipelineSettings : Type := mkPipelineSettings {
  ps_batch : BatchSettings;
  ps_table_mappings : list TableMapping;
}.
Definition PipelineSettings_default : PipelineSettings := mkPipelineSettings BatchSettings_default [].

Record ReplicationNames : Type := mkReplicationNames {
  rn_publication : string;
  rn_slot : string;
}.

Inductive SettingsError : Type :=
| NotObject (section : string)
| Decode (section source : string)
| Invalid (path reason : string).
Global Instance SettingsError_eq_dec : EqDecision SettingsError.
Proof. solve_decision. Defined.

Definition default_excluded_schemas : list string :=
  SYSTEM_SCHEMAS ++ [DEFAULT_SOURCE_METADATA_SCHEMA].

Definition SourceSettings_default : SourceSettings :=
  mkSourceSettings None None default_excluded_schemas DEFAULT_SOURCE_METADATA_SCHEMA
    TransactionSettings_default WalRetentionSettings_default.

(** ** Helpers *)

Definition invalid {T} (path reason : string) : result SettingsError T := Err (Invalid path reason).

(** [(1..=max).contains(&value)]. *)
Definition within (max value : Z) : bool := (1 <=? value)%Z && (value <=? max)%Z.

Definition between (max : Z) (unit_name : string) : string :=
  "must be between 1 and " +:+ pretty max +:+ unit_name.

(** [format!("{path}[{index}]")]. *)
Definition indexed (path : string) (index : nat) : string :=
  path +:+ "[" +:+ pretty index +:+ "]".

(** One character of Unicode's White_Space at the front of a text, as UTF-8. *)
Definition skip_whitespace (s : string) : option string :=
  match s with
  | EmptyString => None
  | String a s1 =>
      let n := N_of_ascii a in
      if (9 <=? n)%N && (n <=? 13)%N || (n =? 32)%N then Some s1
      else match s1 with
      | EmptyString => None
      | String b s2 =>
          let m := N_of_ascii b in
          if (n =? 0xC2)%N && ((m =? 0x85)%N || (m =? 0xA0)%N) then Some s2
          else match s2 with
          | EmptyString => None
          | String c s3 =>
              let k := N_of_ascii c in
              if (n =? 0xE1)%N && (m =? 0x9A)%N && (k =? 0x80)%N
                 || (n =? 0xE2)%N && (m =? 0x80)%N
                    && ((0x80 <=? k)%N && (k <=? 0x8A)%N || (k =? 0xA8)%N || (k =? 0xA9)%N
                        || (k =? 0xAF)%N)
                 || (n =? 0xE2)%N && (m =? 0x81)%N && (k =? 0x9F)%N
                 || (n =? 0xE3)%N && (m =? 0x80)%N && (k =? 0x80)%N
              then Some s3 else None
          end
      end
  end.

(** [value.trim().is_empty()]: only white space; a text has at most as many characters as
    bytes. *)
Fixpoint blank_within (fuel : nat) (s : string) : bool :=
  match s, fuel with
  | EmptyString, _ => true
  | _, O => false
  | _, S fuel => match skip_whitespace s with Some s => blank_within fuel s | None => false end
  end.
Definition is_blank (s : string) : bool := blank_within (String.length s) s.

Definition is_system_schema (schema : string) : bool :=
  bool_decide (schema ∈ SYSTEM_SCHEMAS)
  || String.prefix "pg_toast_" schema || String.prefix "pg_temp_" schema.

Definition is_reserved_target_schema (schema : string) : bool :=
  is_system_schema schema || bool_decide (schema = TARGET_METADATA_SCHEMA).

Definition validate_schema_name (path value : string) : result SettingsError unit :=
  let? _ :=
    map_err (fun _ => Invalid path "must not be empty or contain NUL") (validate_identifier value) in
  if (POSTGRES_IDENTIFIER_MAX_BYTES <? slen value)%Z
  then invalid path ("must be at most " +:+ pretty POSTGRES_IDENTIFIER_MAX_BYTES +:+ " UTF-8 bytes")
  else Ok tt.

Definition validate_qualified_name (path : string) (value : QualifiedName)
    : result SettingsError unit :=
  let? _ := validate_schema_name (path +:+ ".schema") (qn_schema value) in
  validate_schema_name (path +:+ ".name") (qn_name value).

(** The loop of [validate_schema_list]. *)
Fixpoint validate_schemas_from (path : string) (index : nat) (schemas : list string)
    : result SettingsError unit :=
  match schemas with
  | [] => Ok tt
  | schema :: schemas =>
      let? _ := validate_schema_name (indexed path index) schema in
      validate_schemas_from path (S index) schemas
  end.

Definition validate_schema_list (path : string) (schemas : option (list string))
    : result SettingsError unit :=
  match schemas with
  | Some schemas => validate_schemas_from path 0 schemas
  | None => Ok tt
  end.

(** The loop of [validate_no_duplicates]. *)
Fixpoint no_duplicates_from (path : string) (index : nat) (seen : gset string) (values : list string)
    : result SettingsError unit :=
  match values with
  | [] => Ok tt
  | value :: values =>
      if bool_decide (value ∈ seen)
      then invalid (indexed path index) ("duplicate schema `" +:+ value +:+ "`")
      else no_duplicates_from path (S index) ({[value]} ∪ seen) values
  end.

Definition validate_no_duplicates (path : string) (values : list string)
    : result SettingsError unit :=
  no_duplicates_from path 0 ∅ values.

(** ** Validation *)

Definition ConnectionSettings_validate (self : ConnectionSettings) (path : string)
    : result SettingsError unit :=
  if is_blank (cs_host self) || contains_char nul (cs_host self)
  then invalid (path +:+ ".host") "must not be empty or contain NUL"
  else if (cs_port self =? 0)%Z
  then invalid (path +:+ ".port") "must be between 1 and 65535"
  else if is_blank (cs_username self) || contains_char nul (cs_username self)
  then invalid (path +:+ ".username") "must not be empty or contain NUL"
  else Ok tt.

(** [if let Some(connection) = &self.connection { connection.validate("connection")? }]. *)
Definition validate_connection (connection : option ConnectionSettings)
    : result SettingsError unit :=
  match connection with
  | Some connection => ConnectionSettings_validate connection "connection"
  | None => Ok tt
  end.

Definition BatchSettings_validate (self : BatchSettings) (path : string)
    : result SettingsError unit :=
  if negb (within MAX_BATCH_ROWS (bs_max_rows self))
  then invalid (path +:+ ".max_rows") (between MAX_BATCH_ROWS "")
  else if negb (within MAX_BATCH_BYTES (bs_max_bytes self))
  then invalid (path +:+ ".max_bytes") (between MAX_BATCH_BYTES "")
  else if negb (within MAX_BATCH_DELAY_MS (bs_max_delay_ms self))
  then invalid (path +:+ ".max_delay_ms") (between MAX_BATCH_DELAY_MS " milliseconds")
  else Ok tt.

Definition TransactionSettings_validate (self : TransactionSettings) (path : string)
    : result SettingsError unit :=
  if negb (within MAX_TRANSACTION_CHANGES (trs_max_changes self))
  then invalid (path +:+ ".max_changes") (between MAX_TRANSACTION_CHANGES "")
  else if negb (within MAX_TRANSACTION_BYTES (trs_max_bytes self))
  then invalid (path +:+ ".max_bytes") (between MAX_TRANSACTION_BYTES "")
  else Ok tt.

(** The loop of [WalRetentionSettings::validate] over the named sizes. *)
Fixpoint validate_wal_sizes (path : string) (sizes : list (string * Z)) : result SettingsError unit :=
  match sizes with
  | [] => Ok tt
  | (name, value) :: sizes =>
      if negb (within MAX_WAL_RETENTION_BYTES value)
      then invalid (path +:+ "." +:+ name) (between MAX_WAL_RETENTION_BYTES "")
      else validate_wal_sizes path sizes
  end.

Definition WalRetentionSettings_validate (self : WalRetentionSettings) (path : string)
    : result SettingsError unit :=
  if negb (within MAX_WAL_CHECK_INTERVAL_SECONDS (wr_check_interval_seconds self))
  then invalid (path +:+ ".check_interval_seconds") (between MAX_WAL_CHECK_INTERVAL_SECONDS "")
  else
    let? _ := validate_wal_sizes path
      [("warning_bytes", wr_warning_bytes self); ("rebuild_bytes", wr_rebuild_bytes self);
       ("minimum_safe_bytes", wr_minimum_safe_bytes self)] in
    if (wr_rebuild_bytes self <=? wr_warning_bytes self)%Z
    then invalid (path +:+ ".warning_bytes") "must be smaller than rebuild_bytes"
    else Ok tt.

(** The checks of [SourceSettings::validate] on a list of included schemas. *)
Definition validate_include (self : SourceSettings) (include : list string)
    : result SettingsError unit :=
  if bool_decide (include = [])
  then invalid "include_schemas" "must contain at least one schema when set"
  else
    let? _ := validate_no_duplicates "include_schemas" include in
    let excluded : gset string := list_to_set (ss_exclude_schemas self) in
    match List.find (fun schema => bool_decide (schema ∈ excluded)) include with
    | Some schema =>
        invalid ("include_schemas[" +:+ schema +:+ "]") "schema is also listed in exclude_schemas"
    | None =>
        match List.find (fun schema =>
                is_system_schema schema || bool_decide (schema = ss_metadata_schema self)) include with
        | Some schema =>
            invalid ("include_schemas[" +:+ schema +:+ "]")
              "system and metadata schemas are never eligible"
        | None => Ok tt
        end
    end.

Definition SourceSettings_validate (self : SourceSettings) : result SettingsError unit :=
  let? _ := validate_connection (ss_connection self) in
  let? _ := validate_schema_name "metadata_schema" (ss_metadata_schema self) in
  if is_system_schema (ss_metadata_schema self)
  then invalid "metadata_schema" "must be a dedicated non-system schema"
  else
    let? _ := validate_schema_list "include_schemas" (ss_include_schemas self) in
    let? _ := validate_schema_list "exclude_schemas" (Some (ss_exclude_schemas self)) in
    let? _ := validate_no_duplicates "exclude_schemas" (ss_exclude_schemas self) in
    let? _ :=
      match ss_include_schemas self with
      | Some include => validate_include self include
      | None => Ok tt
      end in
    let? _ := TransactionSettings_validate (ss_transaction self) "transaction" in
    WalRetentionSettings_validate (ss_wal_retention self) "wal_retention".

Definition includes_schema (self : SourceSettings) (schema : string) : bool :=
  negb (is_system_schema schema)
  && negb (bool_decide (schema = ss_metadata_schema self))
  && negb (existsb (fun excluded => bool_decide (excluded = schema)) (ss_exclude_schemas self))
  && match ss_include_schemas self with
     | None => true
     | Some included => existsb (fun candidate => bool_decide (candidate = schema)) included
     end.

Definition TargetSettings_validate (self : TargetSettings) : result SettingsError unit :=
  let? _ := validate_connection (tgs_connection self) in
  if negb (within MAX_QUARANTINE_RETENTION_DAYS (tgs_quarantine_retention_days self))
  then invalid "quarantine_retention_days" (between MAX_QUARANTINE_RETENTION_DAYS "")
  else if negb (within MAX_QUARANTINE_GC_TABLES (tgs_quarantine_gc_max_tables self))
  then invalid "quarantine_gc_max_tables" (between MAX_QUARANTINE_GC_TABLES "")
  else Ok tt.

(** [quarantine_retention] in seconds. *)
Definition quarantine_retention (self : TargetSettings) : Z :=
  (tgs_quarantine_retention_days self * 24 * 60 * 60)%Z.

(** The loop of [PipelineSettings::validate]. *)
Fixpoint validate_mappings (index : nat) (sources targets : gset QualifiedName)
    (mappings : list TableMapping) : result SettingsError unit :=
  match mappings with
  | [] => Ok tt
  | mapping :: mappings =>
      let path := indexed "table_mappings" index in
      let? _ := validate_qualified_name (path +:+ ".source") (tm_source mapping) in
      let? _ := validate_qualified_name (path +:+ ".target") (tm_target mapping) in
      if is_reserved_target_schema (qn_schema (tm_target mapping))
      then invalid (path +:+ ".target.schema")
             "targets may not use a system or reserved metadata schema"
      else if bool_decide (tm_source mapping ∈ sources)
      then invalid (path +:+ ".source") "source relation is mapped more than once"
      else if bool_decide (tm_target mapping ∈ targets)
      then invalid (path +:+ ".target") "target relation is mapped more than once"
      else validate_mappings (S index) ({[tm_source mapping]} ∪ sources)
             ({[tm_target mapping]} ∪ targets) mappings
  end.

Definition PipelineSettings_validate (self : PipelineSettings) : result SettingsError unit :=
  let? _ := BatchSettings_validate (ps_batch self) "batch" in
  validate_mappings 0 ∅ ∅ (ps_table_mappings self).

(** The loop of [validate_with_source]. *)
Fixpoint mappings_in_source (source : SourceSettings) (index : nat) (mappings : list TableMapping)
    : result SettingsError unit :=
  match mappings with
  | [] => Ok tt
  | mapping :: mappings =>
      if negb (includes_schema source (qn_schema (tm_source mapping)))
      then invalid (indexed "table_mappings" index +:+ ".source.schema")
             "source schema is excluded by source settings"
      else mappings_in_source source (S index) mappings
  end.

Definition validate_with_source (self : PipelineSettings) (source : SourceSettings)
    : result SettingsError unit :=
  let? _ := PipelineSettings_validate self in
  let? _ := SourceSettings_validate source in
  mappings_in_source source 0 (ps_table_mappings self).

Definition target_for (self : PipelineSettings) (source : QualifiedName) : option QualifiedName :=
  tm_target <$> List.find (fun mapping => bool_decide (tm_source mapping = source))
                  (ps_table_mappings self).

(** [parse_value]: what the JSON decoder accepts is validated. *)
Definition parse_value {Value T} (is_object : Value -> bool) (from_value : Value -> string + T)
    (validate_settings : T -> result SettingsError unit) (section : string) (value : Value)
    : result SettingsError T :=
  if negb (is_object value) then Err (NotObject section)
  else
    let? settings :=
      match from_value value with
      | inl source => Err (Decode section source)
      | inr settings => Ok settings
      end in
    let? _ := validate_settings settings in
    Ok settings.

(** ** Replication names *)

(** A number as [width] hexadecimal digits: [{:08x}] and [Uuid::simple]. *)
Fixpoint fixed_hex (width : nat) (n : Z) : string :=
  match width with
  | O => EmptyString
  | S width =>
      fixed_hex width (Z.div n 16)
      +:+ String (lower_hex_char (Z.to_N (Z.modulo n 16))) EmptyString
  end.

Definition replication_names (pipeline_id node_id : Z) : ReplicationNames :=
  let uuid := fixed_hex 32 pipeline_id in
  let node := fixed_hex 8 (Z.modulo node_id (2 ^ 32)) in
  mkReplicationNames ("pg2cb_pub_" +:+ uuid +:+ "_" +:+ node) ("pg2cb_slot_" +:+ uuid +:+ "_" +:+ node).

(** The debug assertion of [for_uuid]. *)
Definition is_generated_identifier (value : string) : bool :=
  match value with
  | EmptyString => false
  | String c _ =>
      (slen value <=? POSTGRES_IDENTIFIER_MAX_BYTES)%Z && is_ascii_lowercase c
      && Lsn.str_all is_prefix_char value
  end.

(** ** What the job makes of the settings *)

(** The batcher's limits; the delay in nanoseconds. *)
Definition batch_limits (self : PipelineSettings) : BatchLimits :=
  mkBatchLimits (bs_max_rows (ps_batch self)) (bs_max_bytes (ps_batch self))
    (bs_max_delay_ms (ps_batch self) * 1000000).

Definition transaction_limits (self : SourceSettings) : TransactionLimits :=
  mkTransactionLimits (trs_max_changes (ss_transaction self)) (trs_max_bytes (ss_transaction self)).

Definition ddl_scope (self : SourceSettings) : DdlScope :=
  DdlScope_exclude (DdlScope_from_lists (ss_include_schemas self) (ss_exclude_schemas self))
    (ss_metadata_schema self).

(** ** Lemmas *)

Lemma within_spec max v : within max v = true <-> (1 <= v <= max)%Z.
Proof. unfold within. lia. Qed.

(** Both reasons of [validate_schema_name] reduce to one: [validate_identifier] already
    rejects a name that is too long. *)
Lemma validate_schema_name_spec path value :
  validate_schema_name path value =
  if bool_decide (validate_identifier value = Ok tt) then Ok tt
  else Err (Invalid path "must not be empty or contain NUL").
Proof.
  unfold validate_schema_name. case_bool_decide as H.
  - rewrite H. cbn. apply validate_identifier_Ok in H as (_ & _ & Hl).
    unfold POSTGRES_IDENTIFIER_MAX_BYTES. destruct (Z.ltb_spec 63 (slen value)); [lia|done].
  - unfold validate_identifier in *. by destruct (_ || _).
Qed.

Lemma validate_schema_name_Ok path value :
  validate_schema_name path value = Ok tt <-> valid_identifier value.
Proof. rewrite validate_schema_name_spec, <-validate_identifier_Ok. by case_bool_decide. Qed.

Lemma unit_bind {E} (m k : result E unit) :
  (let? _ := m in k) = Ok tt <-> m = Ok tt /\ k = Ok tt.
Proof. destruct m as [[]| |]; cbn; naive_solver. Qed.

Definition valid_name (q : QualifiedName) : Prop :=
  valid_identifier (qn_schema q) /\ valid_identifier (qn_name q).

Lemma validate_qualified_name_Ok path q :
  validate_qualified_name path q = Ok tt <-> valid_name q.
Proof. unfold validate_qualified_name. by rewrite unit_bind, !validate_schema_name_Ok. Qed.

Lemma validate_schemas_from_Ok path i l :
  validate_schemas_from path i l = Ok tt <-> Forall valid_identifier l.
Proof.
  revert i. induction l as [|s l IH]; intros i; cbn [validate_schemas_from].
  - split; [constructor|done].
  - by rewrite unit_bind, validate_schema_name_Ok, IH, Forall_cons.
Qed.

Lemma no_duplicates_from_Ok path i seen l :
  no_duplicates_from path i seen l = Ok tt <-> NoDup l /\ forall v, v ∈ l -> v ∉ seen.
Proof.
  revert i seen. induction l as [|v l IH]; intros i seen; cbn [no_duplicates_from].
  - split; [|done]. split; [constructor|]. intros v Hv. by apply elem_of_nil in Hv.
  - rewrite NoDup_cons. case_bool_decide as Hv.
    + split; [done|]. intros [_ H]. by destruct (H v (list_elem_of_here _ _)).
    + rewrite IH. split.
      * intros [Hnd H]. split_and!; [|done|].
        -- intros Hin. apply (H v Hin). set_solver.
        -- intros w [->|Hw]%elem_of_cons; [done|]. pose proof (H w Hw). set_solver.
      * intros [[Hnin Hnd] H]. split; [done|]. intros w Hw.
        pose proof (H w (list_elem_of_further _ _ _ Hw)). set_solver.
Qed.

Lemma validate_no_duplicates_Ok path l : validate_no_duplicates path l = Ok tt <-> NoDup l.
Proof. unfold validate_no_duplicates. rewrite no_duplicates_from_Ok. set_solver. Qed.

(** What a table mapping must satisfy on its own. *)
Definition mapping_ok (m : TableMapping) : Prop :=
  valid_name (tm_source m) /\ valid_name (tm_target m) /\
  is_reserved_target_schema (qn_schema (tm_target m)) = false.

Lemma validate_mappings_Ok i sources targets l :
  validate_mappings i sources targets l = Ok tt <->
  Forall mapping_ok l /\
  (NoDup (tm_source <$> l) /\ forall s, s ∈ tm_source <$> l -> s ∉ sources) /\
  (NoDup (tm_target <$> l) /\ forall t, t ∈ tm_target <$> l -> t ∉ targets).
Proof.
  revert i sources targets. induction l as [|m l IH]; intros i sources targets; cbn [validate_mappings].
  { split; [|done]. intros _. split_and!; try constructor; intros ? H; by apply elem_of_nil in H. }
  rewrite !unit_bind, !validate_qualified_name_Ok, Forall_cons, !fmap_cons, !NoDup_cons.
  unfold mapping_ok at 1. destruct (is_reserved_target_schema _); [naive_solver|].
  case_bool_decide as Hs; [set_solver|]. case_bool_decide as Ht; [set_solver|].
  rewrite IH. setoid_rewrite elem_of_cons. set_solver.
Qed.

Lemma mappings_in_source_Ok source i l :
  mappings_in_source source i l = Ok tt <->
  Forall (fun m => includes_schema source (qn_schema (tm_source m)) = true) l.
Proof.
  revert i. induction l as [|m l IH]; intros i; cbn [mappings_in_source].
  - split; [constructor|done].
  - rewrite Forall_cons. destruct (includes_schema _ _); cbn [negb]; [rewrite IH|]; naive_solver.
Qed.

Definition batch_ok (b : BatchSettings) : Prop :=
  (1 <= bs_max_rows b <= MAX_BATCH_ROWS)%Z /\ (1 <= bs_max_bytes b <= MAX_BATCH_BYTES)%Z /\
  (1 <= bs_max_delay_ms b <= MAX_BATCH_DELAY_MS)%Z.

Lemma BatchSettings_validate_Ok b path : BatchSettings_validate b path = Ok tt <-> batch_ok b.
Proof.
  unfold BatchSettings_validate, batch_ok. rewrite <-!within_spec.
  destruct (within _ _), (within _ _), (within _ _); cbn; unfold invalid; naive_solver.
Qed.

Lemma TransactionSettings_validate_Ok t path :
  TransactionSettings_validate t path = Ok tt <->
  (1 <= trs_max_changes t <= MAX_TRANSACTION_CHANGES)%Z /\
  (1 <= trs_max_bytes t <= MAX_TRANSACTION_BYTES)%Z.
Proof.
  unfold TransactionSettings_validate. rewrite <-!within_spec.
  destruct (within _ _), (within _ _); cbn; unfold invalid; naive_solver.
Qed.

Lemma PipelineSettings_validate_Ok self :
  PipelineSettings_validate self = Ok tt <->
  batch_ok (ps_batch self) /\ Forall mapping_ok (ps_table_mappings self) /\
  NoDup (tm_source <$> ps_table_mappings self) /\ NoDup (tm_target <$> ps_table_mappings self).
Proof.
  unfold PipelineSettings_validate. rewrite unit_bind, BatchSettings_validate_Ok, validate_mappings_Ok.
  set_solver.
Qed.

Lemma find_None {A} (p : A -> bool) l : List.find p l = None <-> Forall (fun x => p x = false) l.
Proof.
  induction l as [|x l IH]; cbn; [split; [constructor|done]|].
  rewrite Forall_cons. destruct (p x) eqn:E; [|rewrite IH]; naive_solver.
Qed.

Lemma validate_include_Ok self l :
  validate_include self l = Ok tt ->
  l <> [] /\ NoDup l /\
  Forall (fun s => s ∉ ss_exclude_schemas self /\ is_system_schema s = false /\
                   s <> ss_metadata_schema self) l.
Proof.
  unfold validate_include, invalid. case_bool_decide as He; [done|].
  rewrite unit_bind, validate_no_duplicates_Ok. intros [Hnd H].
  destruct (List.find _ l) eqn:E1 in H; [done|]. apply find_None in E1.
  destruct (List.find _ l) eqn:E2 in H; [done|]. apply find_None in E2.
  split_and!; [done..|]. rewrite Forall_forall in E1, E2 |- *. intros s Hs.
  pose proof (E1 s Hs) as Hx%bool_decide_eq_false. rewrite elem_of_list_to_set in Hx.
  pose proof (E2 s Hs) as [Hy Hz%bool_decide_eq_false]%orb_false_iff. done.
Qed.

Lemma existsb_eq (s : string) (l : list string) : existsb (fun x => bool_decide (x = s)) l = bool_decide (s ∈ l).
Proof.
  apply eq_iff_eq_true. rewrite existsb_exists, bool_decide_eq_true. split.
  - intros (x & Hx & ->%bool_decide_eq_true). by apply list_elem_of_In.
  - intros H. exists s. split; [by apply list_elem_of_In|by apply bool_decide_eq_true].
Qed.

Lemma includes_schema_spec self s :
  includes_schema self s = true <->
  is_system_schema s = false /\ s <> ss_metadata_schema self /\ s ∉ ss_exclude_schemas self /\
  match ss_include_schemas self with Some l => s ∈ l | None => True end.
Proof.
  unfold includes_schema. rewrite !andb_true_iff, !negb_true_iff, !existsb_eq, !bool_decide_eq_false.
  destruct (ss_include_schemas self); rewrite ?existsb_eq, ?bool_decide_eq_true; naive_solver.
Qed.

Lemma SourceSettings_validate_Ok self :
  SourceSettings_validate self = Ok tt ->
  valid_identifier (ss_metadata_schema self) /\ is_system_schema (ss_metadata_schema self) = false /\
  match ss_include_schemas self with
  | Some l => Forall valid_identifier l /\ validate_include self l = Ok tt
  | None => True
  end /\
  (1 <= trs_max_changes (ss_transaction self) <= MAX_TRANSACTION_CHANGES)%Z /\
  (1 <= trs_max_bytes (ss_transaction self) <= MAX_TRANSACTION_BYTES)%Z.
Proof.
  unfold SourceSettings_validate, invalid. rewrite !unit_bind. intros (_ & Hm & H).
  apply validate_schema_name_Ok in Hm. destruct (is_system_schema _); [done|].
  rewrite !unit_bind, TransactionSettings_validate_Ok in H. destruct H as (Hi & _ & _ & Hv & Ht & _).
  destruct (ss_include_schemas self); [|done]. apply validate_schemas_from_Ok in Hi. done.
Qed.

(** The schemas a validated list of inclusions selects are exactly the listed ones. *)
Lemma included_exactly self l s :
  SourceSettings_validate self = Ok tt -> ss_include_schemas self = Some l ->
  includes_schema self s = true <-> s ∈ l.
Proof.
  intros (_ & _ & H & _)%SourceSettings_validate_Ok Hl. rewrite Hl in H.
  destruct H as [_ (_ & _ & HF)%validate_include_Ok]. rewrite Forall_forall in HF.
  rewrite includes_schema_spec, Hl. naive_solver.
Qed.

Lemma requires_barrier_spec self message :
  requires_barrier (ddl_scope self) message = true <->
  ddl_affected_schemas message = [] \/
  exists s, s ∈ ddl_affected_schemas message /\
    s ∉ ss_exclude_schemas self /\ s <> ss_metadata_schema self /\
    match ss_include_schemas self with Some l => s ∈ l | None => True end.
Proof.
  unfold requires_barrier, ddl_scope. cbn [include_schemas exclude_schemas DdlScope_exclude DdlScope_from_lists].
  case_bool_decide as He; [naive_solver|].
  destruct (ss_include_schemas self); cbn [fmap option_fmap option_map];
    rewrite existsb_exists; setoid_rewrite <-list_elem_of_In;
    setoid_rewrite andb_true_iff || idtac;
    setoid_rewrite negb_true_iff; setoid_rewrite bool_decide_eq_false;
    try setoid_rewrite bool_decide_eq_true; set_solver.
Qed.

(** C38: validating a pipeline's settings against its source accepts exactly bounded batches
    and bijective mappings of valid names onto targets outside the system and metadata schemas,
    from schemas the source selects; the batcher and the transaction assembler then accept the
    limits the job gives them, the batcher's delay is at most a minute, and the target of a
    source relation is that of its only mapping. *)
Theorem validated_settings_are_operational (p : PipelineSettings) (s : SourceSettings) :
  (PipelineSettings_validate p = Ok tt <->
     batch_ok (ps_batch p) /\ Forall mapping_ok (ps_table_mappings p) /\
     NoDup (tm_source <$> ps_table_mappings p) /\ NoDup (tm_target <$> ps_table_mappings p)) /\
  (validate_with_source p s = Ok tt <->
     PipelineSettings_validate p = Ok tt /\ SourceSettings_validate s = Ok tt /\
     Forall (fun m => includes_schema s (qn_schema (tm_source m)) = true) (ps_table_mappings p)) /\
  (validate_with_source p s = Ok tt ->
     (exists b, Batcher_new (batch_limits p) = Ok b) /\ limits_ok (batch_limits p) /\
     (max_delay (batch_limits p) <= 60 * 1000000000)%Z /\
     limits_validate (transaction_limits s) = Ok tt /\
     forall m, m ∈ ps_table_mappings p -> target_for p (tm_source m) = Some (tm_target m)).
Proof.
  assert (validate_with_source p s = Ok tt <->
     PipelineSettings_validate p = Ok tt /\ SourceSettings_validate s = Ok tt /\
     Forall (fun m => includes_schema s (qn_schema (tm_source m)) = true) (ps_table_mappings p)) as Hw.
  { unfold validate_with_source. by rewrite !unit_bind, mappings_in_source_Ok. }
  split_and!; [apply PipelineSettings_validate_Ok|done|]. rewrite Hw.
  intros ((Hb & _ & Hnd & _)%PipelineSettings_validate_Ok & (_ & _ & _ & Ht)%SourceSettings_validate_Ok & _).
  unfold batch_ok, MAX_BATCH_ROWS, MAX_BATCH_DELAY_MS in Hb. split_and!.
  - unfold Batcher_new, batch_limits. cbn [max_rows max_bytes max_delay].
    destruct (Z.eqb_spec (bs_max_rows (ps_batch p)) 0); [lia|].
    destruct (Z.eqb_spec (bs_max_bytes (ps_batch p)) 0); [lia|].
    destruct (Z.eqb_spec (bs_max_delay_ms (ps_batch p) * 1000000) 0); [lia|]. by eexists.
  - unfold limits_ok, batch_limits. cbn [max_rows max_bytes max_delay]. lia.
  - unfold batch_limits. cbn [max_delay]. lia.
  - unfold limits_validate, transaction_limits. cbn [tl_max_changes tl_max_bytes].
    destruct (Z.eqb_spec (trs_max_changes (ss_transaction s)) 0); [lia|].
    by destruct (Z.eqb_spec (trs_max_bytes (ss_transaction s)) 0); [lia|].
  - intros m Hm. unfold target_for. revert Hnd Hm. clear.
    induction (ps_table_mappings p) as [|x l IH]; intros Hnd Hm; [by apply elem_of_nil in Hm|].
    rewrite fmap_cons in Hnd. apply NoDup_cons in Hnd as [Hx Hnd]. cbn.
    case_bool_decide as E; apply elem_of_cons in Hm as [->|Hm]; cbn; try done.
    + destruct Hx. rewrite E. by apply list_elem_of_fmap_2.
    + by apply IH.
Qed.

(** Validated source settings and the scans they control.  Selected schemas are never the
    system's, the metadata schema or an excluded one, and when schemas are listed exactly the
    listed ones are selected.  A DDL message stops replication for a schema barrier exactly
    when it names no schema or a selected one; without a list of inclusions, also when it names
    a system schema that the exclusions leave out. *)
Theorem selected_schemas_decide_barriers (s : SourceSettings) (Hs : SourceSettings_validate s = Ok tt) :
  (forall schema, includes_schema s schema = true ->
     is_system_schema schema = false /\ schema <> ss_metadata_schema s /\
     schema ∉ ss_exclude_schemas s) /\
  (forall l schema, ss_include_schemas s = Some l ->
     l <> [] /\ (includes_schema s schema = true <-> schema ∈ l)) /\
  forall message,
    requires_barrier (ddl_scope s) message = true <->
    ddl_affected_schemas message = [] \/
    (exists schema, schema ∈ ddl_affected_schemas message /\ includes_schema s schema = true) \/
    (ss_include_schemas s = None /\
     exists schema, schema ∈ ddl_affected_schemas message /\ is_system_schema schema = true /\
       schema ∉ ss_exclude_schemas s).
Proof.
  split_and!.
  - intros schema (? & ? & ? & _)%includes_schema_spec. done.
  - intros l schema Hl. split; [|by apply included_exactly].
    destruct (SourceSettings_validate_Ok _ Hs) as (_ & _ & H & _). rewrite Hl in H.
    by destruct H as [_ (? & _)%validate_include_Ok].
  - intros message. destruct (SourceSettings_validate_Ok _ Hs) as (_ & Hm & Hi & _).
    rewrite requires_barrier_spec. setoid_rewrite includes_schema_spec. split.
    + intros [?|(x & Hx & He & Hmeta & Hinc)]; [by left|right].
      destruct (is_system_schema x) eqn:Hsys; [|left; by exists x].
      right. destruct (ss_include_schemas s) as [l|] eqn:Hl; [|split; [done|by exists x]].
      destruct Hi as [_ (_ & _ & HF)%validate_include_Ok]. rewrite Forall_forall in HF.
      destruct (HF x Hinc) as (_ & ? & _). congruence.
    + intros [?|[(x & Hx & _ & ? & ? & ?)|(Hn & x & Hx & Hsys & He)]]; [by left|right..].
      * by exists x.
      * exists x. rewrite Hn. split_and!; [done..| |done]. intros ->. congruence.
Qed.

(** *** Replication names *)

Lemma fixed_hex_length width n : String.length (fixed_hex width n) = width.
Proof.
  revert n. induction width as [|w IH]; intros n; [done|]. cbn [fixed_hex].
  rewrite string_length_app, IH. cbn. lia.
Qed.

Lemma fixed_hex_inj width m n :
  (0 <= m < 16 ^ Z.of_nat width)%Z -> (0 <= n < 16 ^ Z.of_nat width)%Z ->
  fixed_hex width m = fixed_hex width n -> m = n.
Proof.
  revert m n. induction width as [|w IH]; intros m n Hm Hn H; [cbn in *; lia|].
  rewrite Nat2Z.inj_succ, Z.pow_succ_r in Hm, Hn by lia. cbn [fixed_hex] in H.
  apply string_app_inj_len in H as [Hq Hr]; [|by rewrite !fixed_hex_length].
  pose proof (Z.mod_pos_bound m 16 ltac:(lia)). pose proof (Z.mod_pos_bound n 16 ltac:(lia)).
  apply IH in Hq; [|split; [apply Z.div_pos; lia|apply Z.div_lt_upper_bound; lia]..].
  injection Hr as Hr. assert (Z.to_N (m mod 16) = Z.to_N (n mod 16)) as He.
  { apply lower_hex_char_inj; [lia..|]. done. }
  rewrite (Z.div_mod m 16), (Z.div_mod n 16) by lia. lia.
Qed.

Lemma str_all_app p s t : Lsn.str_all p (s +:+ t) = Lsn.str_all p s && Lsn.str_all p t.
Proof.
  induction s as [|c s IH]; [done|]. rewrite string_app_cons. cbn. by rewrite IH, andb_assoc.
Qed.

Lemma lower_hex_char_ok (d : N) : (d < 16)%N -> is_prefix_char (lower_hex_char d) = true.
Proof.
  intros Hd. unfold is_prefix_char, is_ascii_lowercase, is_ascii_digit, lower_hex_char.
  rewrite N_ascii_embedding by (case_match; lia).
  destruct (N.ltb_spec d 10); cbn [orb]; rewrite ?orb_true_iff, ?andb_true_iff, ?N.leb_le; lia.
Qed.

Lemma fixed_hex_ok width n : Lsn.str_all is_prefix_char (fixed_hex width n) = true.
Proof.
  revert n. induction width as [|w IH]; intros n; [done|]. cbn [fixed_hex].
  rewrite str_all_app, IH. cbn. rewrite lower_hex_char_ok; [done|].
  pose proof (Z.mod_pos_bound n 16 ltac:(lia)). lia.
Qed.

(** The names of a pipeline's publication and slot on a node are PostgreSQL identifiers of
    lower-case letters, digits and underscores that fit without shortening, and no two pairs of
    a pipeline and a node share a publication or a slot. *)
Theorem replication_names_are_unique (id node : Z) :
  is_generated_identifier (rn_publication (replication_names id node)) = true /\
  is_generated_identifier (rn_slot (replication_names id node)) = true /\
  slen (rn_publication (replication_names id node)) = 51%Z /\
  slen (rn_slot (replication_names id node)) = 52%Z /\
  forall id' node',
    (0 <= id < 2 ^ 128)%Z -> (0 <= id' < 2 ^ 128)%Z ->
    (- 2 ^ 31 <= node < 2 ^ 31)%Z -> (- 2 ^ 31 <= node' < 2 ^ 31)%Z ->
    rn_publication (replication_names id node) = rn_publication (replication_names id' node') \/
    rn_slot (replication_names id node) = rn_slot (replication_names id' node') ->
    id = id' /\ node = node'.
Proof.
  assert (Hlen : forall p i n, slen (p +:+ fixed_hex 32 i +:+ "_" +:+ fixed_hex 8 n) = (slen p + 41)%Z).
  { intros p i n. rewrite !slen_app. unfold slen. rewrite !fixed_hex_length. change (String.length "_") with 1%nat. lia. }
  assert (Hok : forall i n, Lsn.str_all is_prefix_char (fixed_hex 32 i +:+ "_" +:+ fixed_hex 8 n) = true).
  { intros i n. by rewrite !str_all_app, !fixed_hex_ok. }
  unfold replication_names. cbn [rn_publication rn_slot]. split_and!; try by rewrite Hlen.
  - unfold is_generated_identifier. rewrite Hlen, str_all_app, Hok. done.
  - unfold is_generated_identifier. rewrite Hlen, str_all_app, Hok. done.
  - intros id' node' Hi Hi' Hn Hn' H.
    assert (fixed_hex 32 id +:+ "_" +:+ fixed_hex 8 (node mod 2 ^ 32)
      = fixed_hex 32 id' +:+ "_" +:+ fixed_hex 8 (node' mod 2 ^ 32)) as He
      by (destruct H as [H|H]; by apply string_app_inj_l in H).
    apply string_app_inj_len in He as [Hid He]; [|by rewrite !fixed_hex_length].
    apply string_app_inj_l in He. apply fixed_hex_inj in Hid; [|done..].
    pose proof (Z.mod_pos_bound node (2 ^ 32) ltac:(lia)).
    pose proof (Z.mod_pos_bound node' (2 ^ 32) ltac:(lia)).
    apply fixed_hex_inj in He; [|done..].
    split; [done|]. pose proof (Z.div_mod node (2 ^ 32) ltac:(lia)).
    pose proof (Z.div_mod node' (2 ^ 32) ltac:(lia)). lia.
Qed.

Lemma selected_schemas_decide_barriers_witness :
  SourceSettings_validate SourceSettings_default = Ok tt /\
  (includes_schema SourceSettings_default "public" = true ->
     is_system_schema "public" = false).
Proof.
  split; [vm_compute; reflexivity|].
  apply (selected_schemas_decide_barriers SourceSettings_default). vm_compute. reflexivity.
Defined.

Lemma validated_settings_are_operational_witness :
  validate_with_source PipelineSettings_default SourceSettings_default = Ok tt /\
  limits_ok (batch_limits PipelineSettings_default).
Proof.
  assert (H : validate_with_source PipelineSettings_default SourceSettings_default = Ok tt)
    by (vm_compute; reflexivity).
  split; [exact H|].
  apply (validated_settings_are_operational PipelineSettings_default SourceSettings_default), H.
Defined.

Lemma replication_names_are_unique_witness :
  exists id node, rn_slot (replication_names 5 0) = rn_slot (replication_names id node) /\
    5%Z = id /\ 0%Z = node.
Proof.
  exists 5%Z, 0%Z. split; [reflexivity|].
  apply (replication_names_are_unique 5 0); [lia..|]. right. reflexivity.
Defined.
