(* ===== verification/Planning.v ===== *)
(** * Table planning

    Models [crates/engine/src/runtime/planning.rs]: the plan that gives every table of the
    source's inventory its target, its shadow and its staging relation, and the fingerprint of a
    table's schema.  [table_to_value] is the JSON value that the derived serializers of
    [crates/core/src/schema.rs] write: a record is an object with a field per component, an
    enumeration's value is its name in snake case, and a type's kind is tagged with ["kind"].
    The printing of JSON values and SHA-256 are arguments. *)

From S2P Require Import Prelude Core Decimal Schema Mapping Settings.

(** ** JSON values *)

Inductive Value : Type :=
| VNull
| VBool (b : bool)
| VNumber (n : Z)
| VString (s : string)
| VArray (values : list Value)
| VObject (fields : list (string * Value)).

(** [remove_object_key]: the field is removed from every object, however deep. *)
Fixpoint remove_object_key (value : Value) (key : string) : Value :=
  match value with
  | VArray values => VArray (map (fun v => remove_object_key v key) values)
  | VObject fields =>
      VObject ((fix remove (fields : list (string * Value)) : list (string * Value) :=
                  match fields with
                  | [] => []
                  | (k, v) :: fields =>
                      if bool_decide (k = key) then remove fields
                      else (k, remove_object_key v key) :: remove fields
                  end) fields)
  | v => v
  end.

(** [object.remove(key)] on the outermost object. *)
Definition remove_field (value : Value) (key : string) : Value :=
  match value with
  | VObject fields => VObject (List.filter (fun f => negb (bool_decide (f.1 = key))) fields)
  | v => v
  end.

(** ** The derived serializers *)

Definition VOption {A} (f : A -> Value) (o : option A) : Value :=
  match o with Some a => f a | None => VNull end.

Definition QualifiedName_to_value (q : QualifiedName) : Value :=
  VObject [("schema", VString (qn_schema q)); ("name", VString (qn_name q))].

Definition tagged (kind : string) (fields : list (string * Value)) : Value :=
  VObject (("kind", VString kind) :: fields).

Fixpoint PgType_to_value (t : PgType) : Value :=
  match t with
  | mkPgType oid name kind =>
      VObject [("oid", VNumber oid); ("name", QualifiedName_to_value name);
               ("kind", PgTypeKind_to_value kind)]
  end
with PgTypeKind_to_value (k : PgTypeKind) : Value :=
  match k with
  | TBool => tagged "bool" []
  | TInt2 => tagged "int2" []
  | TInt4 => tagged "int4" []
  | TInt8 => tagged "int8" []
  | TNumeric precision scale =>
      tagged "numeric" [("precision", VOption VNumber precision); ("scale", VOption VNumber scale)]
  | TFloat4 => tagged "float4" []
  | TFloat8 => tagged "float8" []
  | TText => tagged "text" []
  | TVarChar length => tagged "var_char" [("length", VOption VNumber length)]
  | TChar length => tagged "char" [("length", VOption VNumber length)]
  | TBytea => tagged "bytea" []
  | TDate => tagged "date" []
  | TTime precision tz =>
      tagged "time" [("precision", VOption VNumber precision); ("with_time_zone", VBool tz)]
  | TTimestamp precision tz =>
      tagged "timestamp" [("precision", VOption VNumber precision); ("with_time_zone", VBool tz)]
  | TInterval precision => tagged "interval" [("precision", VOption VNumber precision)]
  | TUuid => tagged "uuid" []
  | TJson => tagged "json" []
  | TJsonb => tagged "jsonb" []
  | TInet => tagged "inet" []
  | TCidr => tagged "cidr" []
  | TMacAddr => tagged "mac_addr" []
  | TMacAddr8 => tagged "mac_addr8" []
  | TBit length varying =>
      tagged "bit" [("length", VOption VNumber length); ("varying", VBool varying)]
  | TXml => tagged "xml" []
  | TEnum labels => tagged "enum" [("labels", VArray (map VString labels))]
  | TDomain base constraints =>
      tagged "domain" [("base", PgType_to_value base);
                       ("constraints", VArray (map VString constraints))]
  | TArray element => tagged "array" [("element", PgType_to_value element)]
  | TUnsupported reason => tagged "unsupported" [("reason", VString reason)]
  end.

Definition GeneratedColumn_to_value (g : GeneratedColumn) : Value :=
  VString match g with GenNone => "none" | GenStored => "stored" | GenVirtual => "virtual" end.
Definition IdentityColumn_to_value (i : IdentityColumn) : Value :=
  VString match i with IdNone => "none" | IdAlways => "always" | IdByDefault => "by_default" end.
Definition TableKind_to_value (k : TableKind) : Value :=
  VString match k with
          | Ordinary => "ordinary" | Partitioned => "partitioned"
          | CitusDistributed => "citus_distributed" | CitusReference => "citus_reference"
          | CitusLocal => "citus_local"
          end.
Definition ReplicaIdentity_to_value (r : ReplicaIdentity) : Value :=
  VString match r with
          | RIDefault => "default" | RIIndex => "index" | RIFull => "full" | RINothing => "nothing"
          end.

Definition ColumnSchema_to_value (c : ColumnSchema) : Value :=
  VObject [("attnum", VNumber (col_attnum c)); ("name", VString (col_name c));
           ("data_type", PgType_to_value (col_data_type c)); ("nullable", VBool (col_nullable c));
           ("primary_key_ordinal", VOption VNumber (col_primary_key_ordinal c));
           ("generated", GeneratedColumn_to_value (col_generated c));
           ("identity", IdentityColumn_to_value (col_identity c));
           ("collation", VOption QualifiedName_to_value (col_collation c))].

Definition table_to_value (t : TableSchema) : Value :=
  VObject [("relation_id", VNumber (ts_relation_id t)); ("generation", VNumber (ts_generation t));
           ("name", QualifiedName_to_value (ts_name t)); ("kind", TableKind_to_value (ts_kind t));
           ("replica_identity", ReplicaIdentity_to_value (ts_replica_identity t));
           ("columns", VArray (map ColumnSchema_to_value (ts_columns t)));
           ("distribution_key", VArray (map VNumber (ts_distribution_key t)));
           ("partition_key", VArray (map VNumber (ts_partition_key t)))].

(** ** Fingerprints *)

(** The value that [schema_fingerprint] hashes. *)
Definition fingerprint_value (table : TableSchema) : Value :=
  remove_object_key
    (remove_field (remove_field (table_to_value table) "relation_id") "generation") "oid".

Section planning.
Context (sha256 : bytes -> bytes) (to_vec : Value -> bytes).

Definition schema_fingerprint (table : TableSchema) : string :=
  "sha256:" +:+ hex_bytes (sha256 (to_vec (fingerprint_value table))).

(** ** Plans *)

Inductive TablePlanningError : Type :=
| DefaultMapping (source : CoreError)
| UnknownExplicitSource (table : string)
| DuplicateTarget (table : string)
| DuplicateShadow (relation : string)
| DuplicateStaging (relation : string).

Record PlannedTable : Type := mkPlannedTable {
  pt_source : TableSchema;
  pt_target : QualifiedName;
  pt_shadow : QualifiedName;
  pt_staging_name : string;
  pt_schema_fingerprint : string;
}.

(** [.collect::<HashMap<_, _>>()]: a later mapping of the same source wins. *)
Definition explicit_targets (mappings : list TableMapping) : gmap QualifiedName QualifiedName :=
  foldl (fun m mapping => <[tm_source mapping := tm_target mapping]> m) ∅ mappings.

Definition relation_suffix (pipeline_id topology_generation : Z) (source : TableSchema) : string :=
  fixed_hex 32 pipeline_id +:+ "_" +:+ pretty (ts_relation_id source)
  +:+ "_" +:+ pretty topology_generation.

(** The target of a table: the explicit one, or the default mapping's. *)
Definition target_of (mapper : DefaultNameMapper) (explicit : gmap QualifiedName QualifiedName)
    (source : TableSchema) : result TablePlanningError QualifiedName :=
  match explicit !! ts_name source with
  | Some target => Ok target
  | None => map_err DefaultMapping (tt_relation <$> map_name sha256 mapper (ts_name source))
  end.

(** The loop of [plan_tables]. *)
Fixpoint plan_loop (pipeline_id topology_generation : Z) (mapper : DefaultNameMapper)
    (explicit : gmap QualifiedName QualifiedName) (targets shadows : gset QualifiedName)
    (staging_names : gset string) (planned : list PlannedTable) (tables : list TableSchema)
    : result TablePlanningError (list PlannedTable) :=
  match tables with
  | [] => Ok planned
  | source :: tables =>
      let? target := target_of mapper explicit source in
      if bool_decide (target ∈ targets)
      then Err (DuplicateTarget (QualifiedName_to_string target))
      else
        let suffix := relation_suffix pipeline_id topology_generation source in
        let? shadow :=
          map_err DefaultMapping
            (QualifiedName_new (qn_schema target)
               (shorten_identifier sha256 ("pg2cb_shadow_" +:+ suffix))) in
        if bool_decide (shadow ∈ shadows)
        then Err (DuplicateShadow (QualifiedName_to_string shadow))
        else
          let staging_name := shorten_identifier sha256 ("pg2cb_stage_" +:+ suffix) in
          if bool_decide (staging_name ∈ staging_names)
          then Err (DuplicateStaging staging_name)
          else
            plan_loop pipeline_id topology_generation mapper explicit ({[target]} ∪ targets)
              ({[shadow]} ∪ shadows) ({[staging_name]} ∪ staging_names)
              (planned ++ [mkPlannedTable source target shadow staging_name
                             (schema_fingerprint source)]) tables
  end.

Definition plan_tables (pipeline_id topology_generation : Z)
    (source_prefix source_database target_database : string) (settings : PipelineSettings)
    (tables : list TableSchema) : result TablePlanningError (list PlannedTable) :=
  let mapper := mkDefaultNameMapper target_database source_prefix source_database in
  let inventory_names : gset QualifiedName := list_to_set (map ts_name tables) in
  match List.find (fun mapping => negb (bool_decide (tm_source mapping ∈ inventory_names)))
          (ps_table_mappings settings) with
  | Some mapping => Err (UnknownExplicitSource (QualifiedName_to_string (tm_source mapping)))
  | None =>
      plan_loop pipeline_id topology_generation mapper
        (explicit_targets (ps_table_mappings settings)) ∅ ∅ ∅ [] tables
  end.
End planning.

(** ** What a fingerprint stands for *)

(** A type without the object identifiers of the server. *)
Fixpoint portable_type (t : PgType) : PgType :=
  match t with mkPgType _ name kind => mkPgType 0 name (portable_kind kind) end
with portable_kind (k : PgTypeKind) : PgTypeKind :=
  match k with
  | TDomain base constraints => TDomain (portable_type base) constraints
  | TArray element => TArray (portable_type element)
  | k => k
  end.

Definition portable_column (c : ColumnSchema) : ColumnSchema :=
  mkColumnSchema (col_attnum c) (col_name c) (portable_type (col_data_type c)) (col_nullable c)
    (col_primary_key_ordinal c) (col_generated c) (col_identity c) (col_collation c).

(** A schema without the identifiers and the generation of this server and this run. *)
Definition portable (t : TableSchema) : TableSchema :=
  mkTableSchema 0 0 (ts_name t) (ts_kind t) (ts_replica_identity t)
    (map portable_column (ts_columns t)) (ts_distribution_key t) (ts_partition_key t).

Scheme PgType_mut := Induction for PgType Sort Prop
with PgTypeKind_mut := Induction for PgTypeKind Sort Prop.
Combined Scheme PgType_mutind from PgType_mut, PgTypeKind_mut.

Notation strip v := (remove_object_key v "oid").

Lemma strip_strings l : map (fun v => strip v) (map VString l) = map VString l.
Proof. rewrite map_map. by apply map_ext. Qed.

Lemma strip_option_number o : strip (VOption VNumber o) = VOption VNumber o.
Proof. by destruct o. Qed.

Lemma VOption_number_inj a b : VOption VNumber a = VOption VNumber b -> a = b.
Proof. destruct a, b; cbn; congruence. Qed.

Lemma map_reflect {A B C} (f : A -> B) (g : A -> C) l k :
  (forall x y, f x = f y -> g x = g y) -> map f l = map f k -> map g l = map g k.
Proof.
  intros Hf. revert k. induction l as [|x l IH]; intros [|y k] H; try done.
  cbn [map] in *. apply (inj2 cons) in H as [Hx Hl]. f_equal; auto.
Qed.

Lemma map_inj {A B} (f : A -> B) l k : (forall x y, f x = f y -> x = y) -> map f l = map f k -> l = k.
Proof. intros Hf H. rewrite <-(map_id l), <-(map_id k). by apply (map_reflect f). Qed.

Lemma map_VString_inj l k : map VString l = map VString k -> l = k.
Proof. apply map_inj. congruence. Qed.

Lemma strip_portable_type :
  (forall t, strip (PgType_to_value (portable_type t)) = strip (PgType_to_value t)) /\
  (forall k, strip (PgTypeKind_to_value (portable_kind k)) = strip (PgTypeKind_to_value k)).
Proof. apply PgType_mutind; intros; cbn in *; try congruence. all: by f_equal; f_equal; f_equal; f_equal. Qed.

(** Stripped values tell types apart up to their object identifiers. *)
Lemma strip_type_inj :
  (forall t u, strip (PgType_to_value t) = strip (PgType_to_value u) ->
     portable_type t = portable_type u) /\
  (forall k l, strip (PgTypeKind_to_value k) = strip (PgTypeKind_to_value l) ->
     portable_kind k = portable_kind l).
Proof.
  apply PgType_mutind.
  { intros oid name kind IH [oid' name' kind']. cbn. intros [= Hs Hn Hk].
    rewrite (IH _ Hk). destruct name, name'. cbn in *. by subst. }
  all: intros; match goal with H : _ = strip (PgTypeKind_to_value ?l) |- _ => destruct l end;
    cbn in *; try discriminate; try done;
    repeat match goal with
    | H : context [remove_object_key (VOption VNumber _) _] |- _ => rewrite !strip_option_number in H
    | H : context [map (fun v => remove_object_key v _) (map VString _)] |- _ =>
        rewrite !strip_strings in H
    | H : VObject _ = VObject _ |- _ => injection H; clear H; intros
    end;
    f_equal; eauto using VOption_number_inj, map_VString_inj.
Qed.

Lemma strip_name q : strip (QualifiedName_to_value q) = QualifiedName_to_value q.
Proof. done. Qed.

Lemma name_value_inj q r : QualifiedName_to_value q = QualifiedName_to_value r -> q = r.
Proof. destruct q, r. intros [= -> ->]. done. Qed.

Lemma strip_column_inj c d :
  strip (ColumnSchema_to_value c) = strip (ColumnSchema_to_value d) ->
  portable_column c = portable_column d.
Proof.
  destruct c as [an nm ty nl pk ge id co], d as [an' nm' ty' nl' pk' ge' id' co'].
  cbn. rewrite !strip_option_number. intros H. injection H as -> -> Ht -> Hp Hg Hi Hc.
  apply strip_type_inj in Ht. apply VOption_number_inj in Hp.
  unfold portable_column. cbn. f_equal; [done|done|by destruct ge, ge'|by destruct id, id'|].
  destruct co as [q|], co' as [r|]; cbn in Hc; try done. f_equal. by apply name_value_inj.
Qed.

Lemma strip_portable_column c :
  strip (ColumnSchema_to_value (portable_column c)) = strip (ColumnSchema_to_value c).
Proof. destruct c. cbn. by rewrite (proj1 strip_portable_type). Qed.

Lemma fingerprint_value_eq t :
  fingerprint_value t =
  VObject [("name", QualifiedName_to_value (ts_name t)); ("kind", TableKind_to_value (ts_kind t));
           ("replica_identity", ReplicaIdentity_to_value (ts_replica_identity t));
           ("columns", VArray (map (fun c => strip (ColumnSchema_to_value c)) (ts_columns t)));
           ("distribution_key", VArray (map VNumber (ts_distribution_key t)));
           ("partition_key", VArray (map VNumber (ts_partition_key t)))].
Proof.
  rewrite <-(map_map ColumnSchema_to_value (fun v => strip v)).
  transitivity (VObject [("name", strip (QualifiedName_to_value (ts_name t)));
    ("kind", TableKind_to_value (ts_kind t));
    ("replica_identity", ReplicaIdentity_to_value (ts_replica_identity t));
    ("columns", VArray (map (fun v => strip v) (map ColumnSchema_to_value (ts_columns t))));
    ("distribution_key", VArray (map (fun v => strip v) (map VNumber (ts_distribution_key t))));
    ("partition_key", VArray (map (fun v => strip v) (map VNumber (ts_partition_key t))))]);
    [reflexivity|]. by rewrite !map_map.
Qed.

(** Tables have the same hashed value exactly when they agree up to identifiers. *)
Lemma fingerprint_value_spec t u :
  fingerprint_value t = fingerprint_value u <-> portable t = portable u.
Proof.
  split.
  - rewrite !fingerprint_value_eq. intros H. injection H as Hs Hn Hk Hr Hc Hd Hp.
    apply (map_reflect _ portable_column) in Hc; [|exact strip_column_inj].
    apply map_inj in Hd; [|congruence]. apply map_inj in Hp; [|congruence].
    assert (ts_name t = ts_name u) as Hname by (destruct (ts_name t), (ts_name u); cbn in *; by subst).
    assert (ts_kind t = ts_kind u) as Hkind by by destruct (ts_kind t), (ts_kind u).
    assert (ts_replica_identity t = ts_replica_identity u) as Hident
      by by destruct (ts_replica_identity t), (ts_replica_identity u).
    unfold portable. by rewrite Hname, Hkind, Hident, Hc, Hd, Hp.
  - intros H. assert (forall x, fingerprint_value x = fingerprint_value (portable x)) as Hx.
    { intros x. rewrite !fingerprint_value_eq. cbn [ts_name ts_kind ts_replica_identity ts_columns
        ts_distribution_key ts_partition_key portable]. rewrite map_map.
      do 6 f_equal. f_equal. apply map_ext. intros c. by rewrite strip_portable_column. }
    rewrite (Hx t), (Hx u). by f_equal.
Qed.

(** The schema fingerprint is that of a table's portable schema: it is the same on a
    restored server with other object identifiers and in another generation, and two tables
    with one fingerprint have the same name, kind, columns, types and keys unless the digest of
    their two JSON texts collides. *)
Theorem fingerprint_identifies_portable_schema (sha256 : bytes -> bytes) (to_vec : Value -> bytes)
    (t u : TableSchema)
    (Hsha : forall b, length (sha256 b) = 32%nat)
    (Hvec : to_vec (fingerprint_value t) = to_vec (fingerprint_value u) ->
            fingerprint_value t = fingerprint_value u) :
  slen (schema_fingerprint sha256 to_vec t) = 71%Z /\
  (portable t = portable u ->
   schema_fingerprint sha256 to_vec t = schema_fingerprint sha256 to_vec u) /\
  (schema_fingerprint sha256 to_vec t = schema_fingerprint sha256 to_vec u ->
   portable t = portable u \/
   exists x y : bytes, x <> y /\ x = to_vec (fingerprint_value t) /\
     y = to_vec (fingerprint_value u) /\ sha256 x = sha256 y).
Proof.
  split_and!.
  - unfold schema_fingerprint. rewrite slen_app. unfold slen. rewrite hex_bytes_length, Hsha. done.
  - intros H%fingerprint_value_spec. unfold schema_fingerprint. by rewrite H.
  - intros H%string_app_inj_l. apply hex_bytes_inj in H; [|by rewrite !Hsha].
    destruct (decide (to_vec (fingerprint_value t) = to_vec (fingerprint_value u))) as [He|He].
    + left. by apply fingerprint_value_spec, Hvec.
    + right. by exists (to_vec (fingerprint_value t)), (to_vec (fingerprint_value u)).
Qed.

(** ** Plans *)

(** The table of explicit targets is [target_for], when no source is mapped twice. *)
Lemma explicit_targets_lookup settings s :
  NoDup (tm_source <$> ps_table_mappings settings) ->
  explicit_targets (ps_table_mappings settings) !! s = target_for settings s.
Proof.
  unfold explicit_targets, target_for. generalize (ps_table_mappings settings). clear.
  assert (H : forall l (m0 : gmap QualifiedName QualifiedName), NoDup (tm_source <$> l) ->
    foldl (fun m mapping => <[tm_source mapping := tm_target mapping]> m) m0 l !! s =
    match List.find (fun m => bool_decide (tm_source m = s)) l with
    | Some m => Some (tm_target m) | None => m0 !! s end).
  { induction l as [|x l IH]; intros m0 Hnd; [done|]. rewrite fmap_cons in Hnd.
    apply NoDup_cons in Hnd as [Hx Hnd]. cbn. rewrite IH by done. case_bool_decide as E.
    - destruct (List.find _ l) as [y|] eqn:Hf.
      + apply List.find_some in Hf as [Hy Hs%bool_decide_eq_true].
        destruct Hx. rewrite E, <-Hs. by apply list_elem_of_fmap_2, list_elem_of_In.
      + by rewrite E, lookup_insert_eq.
    - destruct (List.find _ l); [done|]. by rewrite lookup_insert_ne. }
  intros l Hnd. rewrite H by done. by destruct (List.find _ l).
Qed.

Section plans.
Context (sha256 : bytes -> bytes) (to_vec : Value -> bytes) (pipeline_id generation : Z)
  (mapper : DefaultNameMapper) (explicit : gmap QualifiedName QualifiedName).

Definition raw_shadow (t : TableSchema) : string :=
  "pg2cb_shadow_" +:+ relation_suffix pipeline_id generation t.
Definition raw_staging (t : TableSchema) : string :=
  "pg2cb_stage_" +:+ relation_suffix pipeline_id generation t.

(** What the plan of one table is. *)
Definition planned_from (x : PlannedTable) : Prop :=
  target_of sha256 mapper explicit (pt_source x) = Ok (pt_target x) /\
  pt_shadow x = mkQualifiedName (qn_schema (pt_target x))
                  (shorten_identifier sha256 (raw_shadow (pt_source x))) /\
  valid_name (pt_shadow x) /\
  pt_staging_name x = shorten_identifier sha256 (raw_staging (pt_source x)) /\
  pt_schema_fingerprint x = schema_fingerprint sha256 to_vec (pt_source x).

Notation loop := (plan_loop sha256 to_vec pipeline_id generation mapper explicit).

(** Adding a fresh key to the keys of a list that avoids it. *)
Lemma fresh_cons {A K} `{Countable K} (f : A -> K) (T : gset K) x new :
  f x ∉ T -> (NoDup (f <$> new) /\ forall y, y ∈ new -> f y ∉ {[f x]} ∪ T) ->
  NoDup (f <$> x :: new) /\ forall y, y ∈ x :: new -> f y ∉ T.
Proof.
  intros Hx [Hnd Hn]. rewrite fmap_cons, NoDup_cons. split_and!; [|done|].
  - intros (y & He & Hy)%list_elem_of_fmap. apply (Hn y Hy). rewrite <-He. set_solver.
  - intros y [->|Hy]%elem_of_cons; [done|]. pose proof (Hn y Hy). set_solver.
Qed.

Lemma plan_loop_Ok T S N acc tables out :
  loop T S N acc tables = Ok out ->
  exists new, out = acc ++ new /\ map pt_source new = tables /\ Forall planned_from new /\
    (NoDup (pt_target <$> new) /\ forall x, x ∈ new -> pt_target x ∉ T) /\
    (NoDup (pt_shadow <$> new) /\ forall x, x ∈ new -> pt_shadow x ∉ S) /\
    (NoDup (pt_staging_name <$> new) /\ forall x, x ∈ new -> pt_staging_name x ∉ N).
Proof.
  revert T S N acc. induction tables as [|t tables IH]; intros T S N acc H; cbn in H.
  { injection H as <-. exists []. rewrite app_nil_r. split_and!; try done; try constructor;
      intros x Hx; by apply elem_of_nil in Hx. }
  res_inv. destruct (bool_decide (_ ∈ T)) eqn:HT; [done|]. res_inv.
  destruct (bool_decide (_ ∈ S)) eqn:HS; [done|].
  destruct (bool_decide (_ ∈ N)) eqn:HN; [done|].
  apply bool_decide_eq_false in HT, HS, HN.
  apply IH in H as (new & -> & <- & HF & Ht & Hs & Hn).
  apply QualifiedName_new_Ok in H1 as (Hv1 & Hv2 & ->).
  eexists (_ :: new). rewrite <-app_assoc. split; [done|]. split; [done|].
  split; [constructor; [by split_and!|done]|].
  split; [by apply (fresh_cons pt_target)|].
  split; [by apply (fresh_cons pt_shadow)|by apply (fresh_cons pt_staging_name)].
Qed.

(** A table whose target is decided without an error. *)
Definition targetable (t : TableSchema) : Prop :=
  (0 <= ts_relation_id t)%Z /\
  exists target, target_of sha256 mapper explicit t = Ok target /\ valid_identifier (qn_schema target).

Lemma relation_suffix_inj t u :
  relation_suffix pipeline_id generation t = relation_suffix pipeline_id generation u ->
  ts_relation_id t = ts_relation_id u.
Proof.
  unfold relation_suffix. intros H. do 2 apply string_app_inj_l in H.
  apply (inj pretty). assert (Hl := H). apply (f_equal String.length) in Hl.
  rewrite !string_length_app in Hl. apply string_app_inj_len in H as [H _]; [done|lia].
Qed.

Lemma relation_suffix_no_nul t :
  (0 <= ts_relation_id t)%Z -> (0 <= generation)%Z ->
  contains_char nul (relation_suffix pipeline_id generation t) = false.
Proof.
  intros Ht Hg. unfold relation_suffix. rewrite !contains_char_app, !pretty_Z_nonneg by done.
  rewrite (all_not_nul is_prefix_char (fixed_hex _ _)) by (done || apply fixed_hex_ok).
  by rewrite !(all_not_nul is_digit (pretty _)) by (done || apply pretty_N_digits).
Qed.

(** Two tables of a list that get the same target. *)
Definition same_target (tables : list TableSchema) (name : string) : Prop :=
  exists t u target, t ∈ tables /\ u ∈ tables /\ ts_relation_id t <> ts_relation_id u /\
    target_of sha256 mapper explicit t = Ok target /\
    target_of sha256 mapper explicit u = Ok target /\ name = QualifiedName_to_string target.

(** Two tables of a list whose derived names have clashing digests. *)
Definition names_clash (tables : list TableSchema) : Prop :=
  exists t u, t ∈ tables /\ u ∈ tables /\
    (digest_clash sha256 (raw_shadow t) (raw_shadow u) \/
     digest_clash sha256 (raw_staging t) (raw_staging u)).

(** The names the loop has seen are those of the tables it has planned. *)
Lemma plan_loop_not_Ok T S N acc tables done_
    (Hsha : forall b, length (sha256 b) = 32%nat) (Hg : (0 <= generation)%Z) :
  NoDup (map ts_relation_id (done_ ++ tables)) -> Forall targetable tables ->
  (forall x, x ∈ T -> exists u, u ∈ done_ /\ target_of sha256 mapper explicit u = Ok x) ->
  (forall s, s ∈ S -> exists u, u ∈ done_ /\ qn_name s = shorten_identifier sha256 (raw_shadow u)) ->
  (forall n, n ∈ N -> exists u, u ∈ done_ /\ n = shorten_identifier sha256 (raw_staging u)) ->
  match loop T S N acc tables with
  | Ok _ => True
  | Err (DuplicateTarget name) => same_target (done_ ++ tables) name
  | Err (DuplicateShadow _ | DuplicateStaging _) => names_clash (done_ ++ tables)
  | _ => False
  end.
Proof.
  revert T S N acc done_. induction tables as [|t tables IH]; intros T S N acc done_ Hnd HF HT HS HN;
    cbn [plan_loop]; [done|].
  apply Forall_cons in HF as [(Ht & target & Htg & Hv) HF]. rewrite Htg. cbn [mbind result_bind].
  assert (Hneq : forall u, u ∈ done_ -> ts_relation_id t <> ts_relation_id u).
  { rewrite map_app, NoDup_app in Hnd. destruct Hnd as (_ & Hnd & _). intros u Hu He.
    apply (Hnd (ts_relation_id u)); [by apply list_elem_of_fmap_2|]. rewrite <-He. by left. }
  assert (Hin : t ∈ done_ ++ t :: tables) by (apply elem_of_app; right; by left).
  case_bool_decide as HinT.
  { destruct (HT _ HinT) as (u & Hu & Hut). exists t, u, target. split_and!; try done; [set_solver|auto]. }
  assert (valid_identifier (shorten_identifier sha256 (raw_shadow t))) as Hvs.
  { apply shorten_valid; [done..|]. unfold raw_shadow.
    by rewrite contains_char_app, relation_suffix_no_nul. }
  fold (raw_shadow t) (raw_staging t).
  rewrite (proj2 (QualifiedName_new_Ok _ _ _) (conj Hv (conj Hvs eq_refl))). cbn [map_err mbind result_bind].
  case_bool_decide as HinS.
  { destruct (HS _ HinS) as (u & Hu & Hc). exists t, u. split_and!; [done|set_solver|left].
    cbn in Hc. apply shorten_inj in Hc as [Hc|?]; [|done..]. exfalso. apply (Hneq u Hu).
    by apply relation_suffix_inj, (string_app_inj_l "pg2cb_shadow_"). }
  case_bool_decide as HinN.
  { destruct (HN _ HinN) as (u & Hu & Hc). exists t, u. split_and!; [done|set_solver|right].
    apply shorten_inj in Hc as [Hc|?]; [|done..]. exfalso. apply (Hneq u Hu).
    by apply relation_suffix_inj, (string_app_inj_l "pg2cb_stage_"). }
  replace (done_ ++ t :: tables) with ((done_ ++ [t]) ++ tables) in * by (by rewrite <-app_assoc).
  apply IH; [done..| | |].
  - intros x [->%elem_of_singleton|Hx]%elem_of_union; [exists t; split; [set_solver|done]|].
    destruct (HT x Hx) as (u & Hu & ?). exists u. split; [set_solver|done].
  - intros s [->%elem_of_singleton|Hs]%elem_of_union; [exists t; split; [set_solver|done]|].
    destruct (HS s Hs) as (u & Hu & ?). exists u. split; [set_solver|done].
  - intros n [->%elem_of_singleton|Hn]%elem_of_union; [exists t; split; [set_solver|done]|].
    destruct (HN n Hn) as (u & Hu & ?). exists u. split; [set_solver|done].
Qed.
End plans.

(** Every table of a validly configured source has a target. *)
Lemma targets_exist sha256 prefix value source_db target_db settings t
    (Hsha : forall b, length (sha256 b) = 32%nat) :
  SourcePrefix_new value = Ok prefix -> valid_identifier source_db -> valid_identifier target_db ->
  PipelineSettings_validate settings = Ok tt -> valid_name (ts_name t) ->
  let mapper := mkDefaultNameMapper target_db prefix source_db in
  exists target,
    target_of sha256 mapper (explicit_targets (ps_table_mappings settings)) t = Ok target /\
    valid_name target /\
    (target_for settings (ts_name t) = Some target \/
     target_for settings (ts_name t) = None /\
     map_name sha256 mapper (ts_name t) = Ok (mkTargetTableName target_db target)).
Proof.
  intros Hp Hs Ht (_ & HF & Hnd & _)%PipelineSettings_validate_Ok [Hv1 Hv2] mapper.
  unfold target_of. rewrite explicit_targets_lookup by done.
  destruct (target_for settings (ts_name t)) as [target|] eqn:E.
  - exists target. split_and!; [done| |by left]. unfold target_for in E.
    destruct (List.find _ _) as [m|] eqn:Hf; [|done]. injection E as <-.
    apply List.find_some in Hf as [Hm _]. rewrite Forall_forall in HF.
    by destruct (HF m (proj2 (list_elem_of_In _ _) Hm)) as (_ & ? & _).
  - destruct (prefix_no_nul _ _ Hp) as [<- Hn].
    destruct (raw_schema_usable mapper (ts_name t)) as [He Hu]; [exact Hn|apply Hs|apply Hv1|].
    assert (valid_identifier (shorten_identifier sha256 (raw_schema mapper (ts_name t)))) as Hshort
      by (by apply shorten_valid).
    assert (map_name sha256 mapper (ts_name t) = Ok (mkTargetTableName target_db
      (mkQualifiedName (shorten_identifier sha256 (raw_schema mapper (ts_name t))) (qn_name (ts_name t)))))
      as Hm by by apply map_name_Ok.
    rewrite Hm. eexists. split_and!; [done|by split|by right].
Qed.

(** Planning the tables of a validly configured pipeline never panics and never meets an
    invalid name.  A plan has the tables of the inventory in order, each with its explicit
    target or the default one, and targets, shadows and staging relations that are valid and
    pairwise distinct.  Planning fails only when an explicit mapping names a table outside the
    inventory, when two tables get one target, or when the digests of derived names clash. *)
Theorem table_plan_is_collision_free (sha256 : bytes -> bytes) (to_vec : Value -> bytes)
    (pipeline_id generation : Z) (value prefix source_db target_db : string)
    (settings : PipelineSettings) (tables : list TableSchema)
    (Hsha : forall b, length (sha256 b) = 32%nat) (Hg : (0 <= generation)%Z)
    (Hprefix : SourcePrefix_new value = Ok prefix)
    (Hsource : valid_identifier source_db) (Htarget : valid_identifier target_db)
    (Hsettings : PipelineSettings_validate settings = Ok tt)
    (Htables : Forall (fun t => valid_name (ts_name t) /\ (0 <= ts_relation_id t)%Z) tables)
    (Hids : NoDup (map ts_relation_id tables)) :
  let mapper := mkDefaultNameMapper target_db prefix source_db in
  let explicit := explicit_targets (ps_table_mappings settings) in
  match plan_tables sha256 to_vec pipeline_id generation prefix source_db target_db settings tables with
  | Ok planned =>
      map pt_source planned = tables /\
      NoDup (pt_target <$> planned) /\ NoDup (pt_shadow <$> planned) /\
      NoDup (pt_staging_name <$> planned) /\
      (forall m, m ∈ ps_table_mappings settings -> tm_source m ∈ map ts_name tables) /\
      forall x, x ∈ planned ->
        (target_for settings (ts_name (pt_source x)) = Some (pt_target x) \/
         target_for settings (ts_name (pt_source x)) = None /\
         map_name sha256 mapper (ts_name (pt_source x)) =
           Ok (mkTargetTableName target_db (pt_target x))) /\
        valid_name (pt_target x) /\ valid_name (pt_shadow x) /\
        qn_schema (pt_shadow x) = qn_schema (pt_target x) /\
        valid_identifier (pt_staging_name x)
  | Err (UnknownExplicitSource name) =>
      exists m, m ∈ ps_table_mappings settings /\ tm_source m ∉ map ts_name tables /\
        name = QualifiedName_to_string (tm_source m)
  | Err (DuplicateTarget name) => same_target sha256 mapper explicit tables name
  | Err (DuplicateShadow _ | DuplicateStaging _) =>
      names_clash sha256 pipeline_id generation tables
  | Err (DefaultMapping _) | Panic => False
  end.
Proof.
  intros mapper explicit. unfold plan_tables. fold mapper explicit. rewrite Forall_forall in Htables.
  assert (Hex : forall t, t ∈ tables -> _)
    by (exact (fun t Ht => targets_exist sha256 prefix value source_db target_db settings t Hsha
                 Hprefix Hsource Htarget Hsettings (proj1 (Htables t Ht)))).
  destruct (List.find _ _) as [m|] eqn:Hf.
  { apply List.find_some in Hf as [Hm Hn%negb_true_iff%bool_decide_eq_false].
    rewrite elem_of_list_to_set in Hn. exists m. split; [by apply list_elem_of_In|done]. }
  apply find_None in Hf. rewrite Forall_forall in Hf.
  assert (HF : Forall (targetable sha256 mapper explicit) tables).
  { apply Forall_forall. intros t Ht. split; [by apply Htables|].
    destruct (Hex t Ht) as (target & ? & [? _] & _). by exists target. }
  pose proof (plan_loop_not_Ok sha256 to_vec pipeline_id generation mapper explicit ∅ ∅ ∅ [] tables []
    Hsha Hg Hids HF ltac:(set_solver) ltac:(set_solver) ltac:(set_solver)) as Herr.
  destruct (plan_loop _ _ _ _ _ _ _ _ _ _ _) as [planned|e|] eqn:E; [|by destruct e|done].
  apply plan_loop_Ok in E as (new & -> & Hsrc & HP & [Ht _] & [Hs _] & [Hn _]).
  rewrite app_nil_l. split_and!; try done.
  { intros m Hm. specialize (Hf m Hm). apply negb_false_iff, bool_decide_eq_true in Hf.
    by rewrite elem_of_list_to_set in Hf. }
  intros x Hx. rewrite Forall_forall in HP. destruct (HP x Hx) as (Htg & Hsh & Hshv & Hst & _).
  assert (Hin : pt_source x ∈ tables) by (rewrite <-Hsrc; by apply list_elem_of_fmap_2).
  destruct (Hex _ Hin) as (target & Htg' & Hv & Hc). fold mapper explicit in Htg'.
  rewrite Htg in Htg'. injection Htg' as <-. split_and!; try done; [by rewrite Hsh|].
  rewrite Hst. apply shorten_valid; [done..|]. unfold raw_staging.
  by rewrite contains_char_app, relation_suffix_no_nul by (done || by apply Htables).
Qed.

Definition example_planned_table (relation_id : Z) (name : string) : TableSchema :=
  mkTableSchema relation_id 1 (mkQualifiedName "public" name) Ordinary RIDefault
    [mkColumnSchema 1 "id" (mkPgType 23 (mkQualifiedName "pg_catalog" "int4") TInt4) false (Some 1%Z)
       GenNone IdNone None] [] [].

Lemma fingerprint_identifies_portable_schema_witness :
  schema_fingerprint (fun _ => replicate 32 x61) (fun _ => []) (example_planned_table 10 "items") =
  schema_fingerprint (fun _ => replicate 32 x61) (fun _ => []) (example_planned_table 99 "items").
Proof.
  apply (fingerprint_identifies_portable_schema (fun _ => replicate 32 x61) (fun _ => [])
    (example_planned_table 10 "items") (example_planned_table 99 "items")).
  - intros _. reflexivity.
  - intros _. reflexivity.
  - reflexivity.
Defined.

Lemma table_plan_is_collision_free_witness :
  exists planned,
    plan_tables (fun _ => replicate 32 x61) (fun _ => []) 7 3 "erp" "sales" "analytics"
      PipelineSettings_default [example_planned_table 10 "items"; example_planned_table 11 "orders"]
      = Ok planned /\ NoDup (pt_target <$> planned).
Proof.
  pose proof (table_plan_is_collision_free (fun _ => replicate 32 x61) (fun _ => []) 7 3 "erp" "erp"
    "sales" "analytics" PipelineSettings_default
    [example_planned_table 10 "items"; example_planned_table 11 "orders"]
    (fun _ => eq_refl) ltac:(lia) eq_refl) as H.
  assert (exists planned,
    plan_tables (fun _ => replicate 32 x61) (fun _ => []) 7 3 "erp" "sales" "analytics"
      PipelineSettings_default [example_planned_table 10 "items"; example_planned_table 11 "orders"]
      = Ok planned) as [planned E] by (eexists; vm_compute; reflexivity).
  exists planned. split; [exact E|]. rewrite E in H. apply H.
  - by apply validate_identifier_Ok.
  - by apply validate_identifier_Ok.
  - vm_compute. reflexivity.
  - repeat constructor; cbn; lia || done.
  - apply (bool_decide_unpack _). vm_compute. exact I.
Defined.
