(* ===== verification/Catalog.v ===== *)
(** * The source's catalog

    Models [crates/source-postgres/src/catalog.rs]: the checks before a pipeline starts, the
    reading of the rows of [pg_attribute] and [pg_type] into table schemas, and the
    classification of tables.  The server is [SourceServer]: the answers of its catalogs, as the
    columns of the queries, with its publications and slots, which [Publication] changes.
    [resolve_type] follows references between types; [type_resolution_terminates] shows that
    it ends on every catalog without a cycle. *)

From S2P Require Import Prelude Core Decimal Schema Sql Source TargetSchema Settings.

(** ** Errors and text *)

(** [Display for CoreError]. *)
Definition CoreError_to_string (e : CoreError) : string :=
  match e with
  | InvalidLsn value => "invalid PostgreSQL LSN `" +:+ value +:+ "`"
  | InvalidIdentifier value => "invalid SQL identifier: " +:+ value
  | InvalidPrefix value =>
      "invalid source prefix `" +:+ value +:+ "`; use lowercase ASCII letters, digits, and underscores"
  | MissingPrimaryKey table => "table " +:+ table +:+ " has no supported primary key"
  | UnsupportedTable table reason => "table " +:+ table +:+ " is unsupported: " +:+ reason
  | CoreInvalidTupleArity relation_id expected actual =>
      "row for relation " +:+ pretty relation_id +:+ " has " +:+ pretty actual +:+ " values, expected "
      +:+ pretty expected
  end.

Definition core_contract {A} (m : result CoreError A) : result SourceError A :=
  map_err (fun e => contract (CoreError_to_string e)) m.

(** [str::parse] for a signed integer type. *)
Definition parse_int (min max : Z) (s : string) : option Z :=
  match s with
  | String c rest =>
      if bool_decide (c = "-"%char)
      then match rest with EmptyString => None | _ => Z.opp <$> parse_digits (- min) 0 rest end
      else parse_uint max s
  | EmptyString => None
  end.

(** [str::trim]: white space is removed at the front, then at the end. *)
Fixpoint trim_start_within (fuel : nat) (s : string) : string :=
  match fuel with
  | O => s
  | S fuel => match skip_whitespace s with Some s => trim_start_within fuel s | None => s end
  end.
Fixpoint trim_end (s : string) : string :=
  if is_blank s then EmptyString
  else match s with String c rest => String c (trim_end rest) | EmptyString => EmptyString end.
Definition trim (s : string) : string := trim_end (trim_start_within (String.length s) s).

(** [str::split] at a character. *)
Fixpoint split_all (sep : ascii) (s : string) : list string :=
  match s with
  | EmptyString => [EmptyString]
  | String c s =>
      if bool_decide (c = sep) then EmptyString :: split_all sep s
      else match split_all sep s with
           | part :: parts => String c part :: parts
           | [] => [String c EmptyString]
           end
  end.

(** [strip_prefix(c)] and [strip_suffix(c)]. *)
Definition strip_prefix (c : ascii) (s : string) : option string :=
  match s with String d rest => if bool_decide (d = c) then Some rest else None | EmptyString => None end.
Fixpoint strip_suffix (c : ascii) (s : string) : option string :=
  match s with
  | EmptyString => None
  | String d EmptyString => if bool_decide (d = c) then Some EmptyString else None
  | String d rest => String d <$> strip_suffix c rest
  end.

(** [eq_ignore_ascii_case]. *)
Definition ascii_lower (c : ascii) : ascii :=
  let n := N_of_ascii c in if (65 <=? n)%N && (n <=? 90)%N then ascii_of_N (n + 32) else c.
Fixpoint to_ascii_lowercase (s : string) : string :=
  match s with EmptyString => EmptyString | String c s => String (ascii_lower c) (to_ascii_lowercase s) end.
Definition eq_ignore_ascii_case (a b : string) : bool :=
  bool_decide (to_ascii_lowercase a = to_ascii_lowercase b).

(** ** The server *)

(** A row of [pg_publication], with its tables as [inspect_publication] selects them, and with what
    PostgreSQL keeps beside them and the program does not read: the row filter and the column
    list of a table ([prqual] and [prattrs] of [pg_publication_rel]), and the schemas that are
    published as a whole ([pg_publication_namespace]). *)
Record PublicationRow : Type := mkPublicationRow {
  pb_owner : string;
  pb_all_tables : bool;
  pb_insert : bool;
  pb_update : bool;
  pb_delete : bool;
  pb_truncate : bool;
  pb_via_partition_root : bool;
  pb_generated_stored : bool;
  pb_tables : list (string * string);
  pb_row_filters : gmap (string * string) string;
  pb_column_lists : gmap (string * string) (list string);
  pb_schemas : list string;
}.

(** A logical slot, a row of [pg_replication_slots] as [inspect_logical_slot] selects it. *)
Record SlotRow : Type := mkSlotRow {
  sl_plugin : string;
  sl_database : option string;
  sl_temporary : bool;
  sl_active : bool;
  sl_confirmed_flush_lsn : option string;
  sl_restart_lsn : option string;
  sl_retained_wal : option string;
  sl_safe_wal_size : option string;
  sl_wal_status : option string;
  sl_invalidation_reason : option string;
  sl_two_phase : bool;
  sl_failover : bool;
  sl_synced : bool;
}.

(** A row of the query of [load_table_candidates]. *)
Record ColumnRow : Type := mkColumnRow {
  cw_relation_id : Z;
  cw_schema_name : string;
  cw_relation_name : string;
  cw_relkind : string;
  cw_relispartition : bool;
  cw_attnum : Z;
  cw_attname : string;
  cw_type_oid : Z;
  cw_type_modifier : Z;
  cw_attnotnull : bool;
  cw_attgenerated : string;
  cw_attidentity : string;
  cw_relreplident : string;
  cw_pk_ordinal : option Z;
  cw_collation_schema : option string;
  cw_collation_name : option string;
  cw_partition_attrs : string;
}.

(** A row of the second query of [load_type_descriptors]. *)
Record TypeRow : Type := mkTypeRow {
  ty_oid : Z;
  ty_schema : string;
  ty_name : string;
  ty_typtype : string;
  ty_base : option Z;
  ty_element : option Z;
  ty_labels : list string;
}.

Record SourceServer : Type := mkSourceServer {
  sv_settings : gmap string string;  (** [SHOW] *)
  sv_system_identifier : string;  (** [pg_control_system] *)
  sv_timeline : Z;
  sv_database : string;
  sv_in_recovery : bool;
  sv_citus_version : option string;
  sv_columns : list ColumnRow;
  sv_domain_constraints : list (Z * string);
  sv_types : list TypeRow;
  sv_publications : gmap string PublicationRow;
  sv_slots : gmap string SlotRow;
}.

(** ** Checks before the start *)

Definition EXPECTED_MAJOR : Z := 18.

Record PreflightOptions : Type := mkPreflightOptions {
  po_metadata_schema : string;
  po_expected_major : Z;
  po_require_logical_replication : bool;
}.
Definition PreflightOptions_default : PreflightOptions :=
  mkPreflightOptions "pg2cb_meta" EXPECTED_MAJOR true.

Record SourceIdentity : Type := mkSourceIdentity {
  si_system_identifier : Z;
  si_timeline : Z;
  si_database : string;
  si_server_version_num : Z;
  si_server_version : string;
  si_in_recovery : bool;
}.

Record PreflightReport : Type := mkPreflightReport {
  pr_identity : SourceIdentity;
  pr_server_encoding : string;
  pr_wal_level : string;
  pr_max_replication_slots : Z;
  pr_max_wal_senders : Z;
  pr_logical_decoding_work_mem : string;
  pr_max_slot_wal_keep_size : string;
  pr_existing_logical_slots : Z;
  pr_citus_version : option string;
}.

Definition show (server : SourceServer) (parameter : string) : result SourceError string :=
  ok_or (sv_settings server !! parameter)
    (Postgres ("unrecognized configuration parameter " +:+ parameter)).

Definition show_i64 (server : SourceServer) (parameter : string) : result SourceError Z :=
  let? value := show server parameter in
  ok_or (parse_int (- 2 ^ 63) i64_max value) (contract ("SHOW " +:+ parameter +:+ " is not an integer")).

Definition parse_u32_value (value : Z) (name : string) : result SourceError Z :=
  if (0 <=? value)%Z && (value <=? u32_max)%Z then Ok value
  else Err (contract (name +:+ " is out of range")).

Definition parse_u64 (value name : string) : result SourceError Z :=
  ok_or (parse_uint u64_max value) (contract (name +:+ " is not an unsigned integer")).

(** [show_i64(..) / 10_000]: Rust's division truncates. *)
Definition preflight (server : SourceServer) (options : PreflightOptions)
    : result SourceError PreflightReport :=
  let? server_version_num := show_i64 server "server_version_num" in
  if negb (Z.quot server_version_num 10000 =? po_expected_major options)%Z
  then Err (contract ("PostgreSQL major version " +:+ pretty (po_expected_major options)
                      +:+ " is required, got server_version_num " +:+ pretty server_version_num))
  else
    let? server_version := show server "server_version" in
    let? server_encoding := show server "server_encoding" in
    if negb (eq_ignore_ascii_case server_encoding "UTF8")
    then Err (contract ("server_encoding must be UTF8, got " +:+ server_encoding))
    else
      let? wal_level := show server "wal_level" in
      if po_require_logical_replication options && negb (eq_ignore_ascii_case wal_level "logical")
      then Err (contract ("wal_level must be logical, got " +:+ wal_level))
      else
        let? max_replication_slots := show_i64 server "max_replication_slots" in
        let? max_wal_senders := show_i64 server "max_wal_senders" in
        let? logical_decoding_work_mem := show server "logical_decoding_work_mem" in
        let? max_slot_wal_keep_size := show server "max_slot_wal_keep_size" in
        if po_require_logical_replication options
           && ((max_replication_slots <? 1)%Z || (max_wal_senders <? 1)%Z)
        then Err (contract "max_replication_slots and max_wal_senders must both be positive")
        else if Lsn.is_empty (po_metadata_schema options)
                || bool_decide (po_metadata_schema options = "pg_catalog")
        then Err (contract "metadata schema must be a dedicated non-system schema")
        else
          let? system_identifier := parse_u64 (sv_system_identifier server) "system_identifier" in
          let? timeline := parse_u32_value (sv_timeline server) "timeline_id" in
          Ok (mkPreflightReport
                (mkSourceIdentity system_identifier timeline (sv_database server) server_version_num
                   server_version (sv_in_recovery server))
                server_encoding wal_level max_replication_slots max_wal_senders
                logical_decoding_work_mem max_slot_wal_keep_size
                (Z.of_nat (size (sv_slots server))) (sv_citus_version server)).

(** ** Types *)

Record TypeDescriptor : Type := mkTypeDescriptor {
  td_oid : Z;
  td_schema : string;
  td_name : string;
  td_typtype : string;
  td_base_oid : option Z;
  td_element_oid : option Z;
  td_labels : list string;
  td_constraints : list string;
}.

Definition numeric_typmod (typmod : Z) : option Z * option Z :=
  if (typmod <? 4)%Z then (None, None)
  else
    let value := (typmod - 4)%Z in
    let precision := Z.land (Z.shiftr value 16) 0xffff in
    let scale := Z.land value 0xffff in
    (Some precision, if (scale <=? 2 ^ 15 - 1)%Z then Some scale else None).

Definition typmod_length (typmod : Z) : option Z :=
  if (4 <=? typmod)%Z && (typmod - 4 <=? u32_max)%Z then Some (typmod - 4)%Z else None.

Definition time_precision (typmod : Z) : option Z :=
  if (0 <=? typmod)%Z && (typmod <=? 255)%Z then Some typmod else None.

Definition scalar_kind (name : string) (typmod : Z) : PgTypeKind :=
  match name with
  | "bool" => TBool
  | "int2" => TInt2
  | "int4" => TInt4
  | "int8" => TInt8
  | "numeric" => let (precision, scale) := numeric_typmod typmod in TNumeric precision scale
  | "float4" => TFloat4
  | "float8" => TFloat8
  | "text" => TText
  | "varchar" => TVarChar (typmod_length typmod)
  | "bpchar" => TChar (typmod_length typmod)
  | "bytea" => TBytea
  | "date" => TDate
  | "time" => TTime (time_precision typmod) false
  | "timetz" => TTime (time_precision typmod) true
  | "timestamp" => TTimestamp (time_precision typmod) false
  | "timestamptz" => TTimestamp (time_precision typmod) true
  | "interval" => TInterval (time_precision typmod)
  | "uuid" => TUuid
  | "json" => TJson
  | "jsonb" => TJsonb
  | "inet" => TInet
  | "cidr" => TCidr
  | "macaddr" => TMacAddr
  | "macaddr8" => TMacAddr8
  | "bit" => TBit (typmod_length typmod) false
  | "varbit" => TBit (typmod_length typmod) true
  | "xml" => TXml
  | _ => TUnsupported ("unregistered PostgreSQL type " +:+ name)
  end%string.

(** [resolve_type] recurses from a domain to its base and from an array to its element.
    [Panic] stands for a recursion deeper than [fuel]: the stack of the program overflows
    when the descriptors form a cycle. *)
Fixpoint resolve_within (fuel : nat) (descriptor : TypeDescriptor) (all : gmap Z TypeDescriptor) (typmod : Z)
    : result SourceError PgType :=
  match fuel with
  | O => Panic
  | S fuel =>
      let? name := core_contract (QualifiedName_new (td_schema descriptor) (td_name descriptor)) in
      let? kind :=
        if bool_decide (td_typtype descriptor = "e") then Ok (TEnum (td_labels descriptor))
        else if bool_decide (td_typtype descriptor = "d") then
          let? base := ok_or (td_base_oid descriptor ≫= fun oid => all !! oid)
            (contract ("domain " +:+ QualifiedName_to_string name +:+ " has no base type")) in
          let? base := resolve_within fuel base all typmod in
          Ok (TDomain base (td_constraints descriptor))
        else if bool_decide (td_typtype descriptor = "b") && bool_decide (is_Some (td_element_oid descriptor)) then
          let? element := ok_or (td_element_oid descriptor ≫= fun oid => all !! oid)
            (contract ("array " +:+ QualifiedName_to_string name +:+ " has no element type")) in
          let? element := resolve_within fuel element all (-1) in
          Ok (TArray element)
        else Ok (scalar_kind (td_name descriptor) typmod) in
      Ok (mkPgType (td_oid descriptor) name kind)
  end.

(** Deep enough for every catalog without a cycle: one level per descriptor, and the first. *)
Definition resolve_type (descriptor : TypeDescriptor) (all : gmap Z TypeDescriptor) (typmod : Z)
    : result SourceError PgType :=
  resolve_within (S (size all)) descriptor all typmod.

(** [constraints_by_type.entry(oid).or_default().push(..)]. *)
Definition push_constraint (m : gmap Z (list string)) (row : Z * string)
    : result SourceError (gmap Z (list string)) :=
  let? oid := parse_u32_value row.1 "domain type oid" in
  Ok (<[oid := default [] (m !! oid) ++ [row.2]]> m).

Definition parse_optional_u32 (value : option Z) (name : string) : result SourceError (option Z) :=
  match value with
  | Some value => let? value := parse_u32_value value name in Ok (Some value)
  | None => Ok None
  end.

Definition insert_descriptor (st : gmap Z (list string) * gmap Z TypeDescriptor) (row : TypeRow)
    : result SourceError (gmap Z (list string) * gmap Z TypeDescriptor) :=
  let (constraints_by_type, descriptors) := st in
  let? oid := parse_u32_value (ty_oid row) "type oid" in
  let? base_oid := parse_optional_u32 (ty_base row) "base type oid" in
  let? element_oid := parse_optional_u32 (ty_element row) "element type oid" in
  Ok (delete oid constraints_by_type,
      <[oid := mkTypeDescriptor oid (ty_schema row) (ty_name row) (ty_typtype row) base_oid element_oid
                 (ty_labels row) (default [] (constraints_by_type !! oid))]> descriptors).

Definition load_type_descriptors (server : SourceServer) : result SourceError (gmap Z TypeDescriptor) :=
  let? constraints_by_type := foldM push_constraint ∅ (sv_domain_constraints server) in
  let? st := foldM insert_descriptor (constraints_by_type, ∅) (sv_types server) in
  Ok st.2.

(** ** Columns and tables *)

Record CatalogOptions : Type := mkCatalogOptions {
  ct_metadata_schema : string;
  ct_include_schemas : option (gset string);
  ct_exclude_schemas : gset string;
  ct_include_partitions : bool;
}.
Definition CatalogOptions_default : CatalogOptions :=
  mkCatalogOptions "pg2cb_meta" None
    (list_to_set ["pg_catalog"; "information_schema"; "pg_toast"; "pg_temp_1"; "pg_toast_temp_1"]) true.

Record RejectedTable : Type := mkRejectedTable {
  rj_name : QualifiedName;
  rj_reason : string;
}.

Record TableInventory : Type := mkTableInventory {
  ti_supported : list TableSchema;
  ti_rejected : list RejectedTable;
}.

Definition eligible_schema (schema : string) (options : CatalogOptions) : bool :=
  if bool_decide (schema = ct_metadata_schema options) || bool_decide (schema ∈ ct_exclude_schemas options)
  then false
  else match ct_include_schemas options with
       | None => true
       | Some schemas => bool_decide (schema ∈ schemas)
       end.

(** The column is of type ["char"], at most one byte. *)
Definition parse_replica_identity (value : string) : result SourceError ReplicaIdentity :=
  let c := match value with String c _ => c | EmptyString => "d"%char end in
  if bool_decide (c = "d"%char) then Ok RIDefault
  else if bool_decide (c = "i"%char) then Ok RIIndex
  else if bool_decide (c = "f"%char) then Ok RIFull
  else if bool_decide (c = "n"%char) then Ok RINothing
  else Err (contract ("unknown replica identity `" +:+ String c "`")).

Definition first_byte (value : string) : Z :=
  match value with String c _ => Z.of_N (N_of_ascii c) | EmptyString => 0 end.

Definition parse_generated (value : string) : result SourceError GeneratedColumn :=
  let b := first_byte value in
  if (b =? 0)%Z then Ok GenNone
  else if (b =? 115)%Z then Ok GenStored
  else if (b =? 118)%Z then Ok GenVirtual
  else Err (contract ("unknown generated marker " +:+ pretty b)).

Definition parse_identity (value : string) : result SourceError IdentityColumn :=
  let b := first_byte value in
  if (b =? 0)%Z then Ok IdNone
  else if (b =? 97)%Z then Ok IdAlways
  else if (b =? 100)%Z then Ok IdByDefault
  else Err (contract ("unknown identity marker " +:+ pretty b)).

Definition parse_attnum (item : string) : result SourceError Z :=
  let? value := ok_or (parse_int (- 2 ^ 15) (2 ^ 15 - 1) (trim item))
    (contract ("invalid attribute number `" +:+ item +:+ "`")) in
  if (value <=? 0)%Z
  then Err (source_unsupported ("partition key expression `" +:+ item +:+ "` is not a plain column"))
  else Ok value.

Definition parse_attnums (value : string) : result SourceError (list Z) :=
  let trimmed := trim value in
  if bool_decide (trimmed = "{}") || Lsn.is_empty trimmed then Ok []
  else
    let? inner := ok_or (strip_prefix "{" trimmed ≫= strip_suffix "}")
      (contract ("invalid int2vector `" +:+ value +:+ "`")) in
    try_map parse_attnum (List.filter (fun item => negb (Lsn.is_empty (trim item))) (split_all "," inner)).

(** [as i16]. *)
Definition as_i16 (value : Z) : Z := ((value + 2 ^ 15) mod 2 ^ 16 - 2 ^ 15)%Z.

Definition optional_collation (schema name : option string) : result SourceError (option QualifiedName) :=
  match schema, name with
  | Some schema, Some name => let? q := core_contract (QualifiedName_new schema name) in Ok (Some q)
  | _, _ => Ok None
  end.

(** [if let Some(table) = tables.last_mut() && table.relation_id == relation_id]. *)
Fixpoint push_column (relation_id : Z) (column : ColumnSchema) (tables : list TableSchema)
    : option (list TableSchema) :=
  match tables with
  | [] => None
  | [table] =>
      if (ts_relation_id table =? relation_id)%Z
      then Some [mkTableSchema (ts_relation_id table) (ts_generation table) (ts_name table) (ts_kind table)
                   (ts_replica_identity table) (ts_columns table ++ [column]) (ts_distribution_key table)
                   (ts_partition_key table)]
      else None
  | table :: tables => cons table <$> push_column relation_id column tables
  end.

(** The body of the loop over the rows. *)
Definition load_row (options : CatalogOptions) (type_descriptors : gmap Z TypeDescriptor)
    (tables : list TableSchema) (row : ColumnRow) : result SourceError (list TableSchema) :=
  if negb (eligible_schema (cw_schema_name row) options) then Ok tables
  else
    let? relation_id := parse_u32_value (cw_relation_id row) "relation_id" in
    if cw_relispartition row && negb (ct_include_partitions options) then Ok tables
    else
      let? qualified_name := core_contract (QualifiedName_new (cw_schema_name row) (cw_relation_name row)) in
      let? replica_identity := parse_replica_identity (cw_relreplident row) in
      let? type_oid := parse_u32_value (cw_type_oid row) "type_oid" in
      let? descriptor := ok_or (type_descriptors !! type_oid)
        (contract ("type OID " +:+ pretty type_oid +:+ " was not found")) in
      let? data_type := resolve_type descriptor type_descriptors (cw_type_modifier row) in
      let? collation := optional_collation (cw_collation_schema row) (cw_collation_name row) in
      let? generated := parse_generated (cw_attgenerated row) in
      let? identity := parse_identity (cw_attidentity row) in
      let column :=
        mkColumnSchema (as_i16 (cw_attnum row)) (cw_attname row) data_type (negb (cw_attnotnull row))
          (cw_pk_ordinal row ≫= fun v => if (0 <=? v)%Z && (v <=? 2 ^ 16 - 1)%Z then Some v else None)
          generated identity collation in
      let? partition_key := parse_attnums (cw_partition_attrs row) in
      match push_column relation_id column tables with
      | Some tables => Ok tables
      | None =>
          Ok (tables ++ [mkTableSchema relation_id 1 qualified_name
                           (if bool_decide (cw_relkind row = "p") then Partitioned else Ordinary)
                           replica_identity [column] [] partition_key])
      end.

Definition load_table_candidates (server : SourceServer) (options : CatalogOptions)
    : result SourceError (list TableSchema) :=
  let? type_descriptors := load_type_descriptors server in
  foldM (load_row options type_descriptors) [] (sv_columns server).

Definition classify_table (st : TableInventory) (table : TableSchema) : TableInventory :=
  match validate_supported table with
  | Err error =>
      mkTableInventory (ti_supported st)
        (ti_rejected st ++ [mkRejectedTable (ts_name table) (CoreError_to_string error)])
  | _ => mkTableInventory (ti_supported st ++ [table]) (ti_rejected st)
  end.

Definition classify_tables (tables : list TableSchema) : TableInventory :=
  foldl classify_table (mkTableInventory [] []) tables.

Definition inspect_tables (server : SourceServer) (options : CatalogOptions)
    : result SourceError TableInventory :=
  let? tables := load_table_candidates server options in
  Ok (classify_tables tables).

Definition load_tables (server : SourceServer) (options : CatalogOptions)
    : result SourceError (list TableSchema) :=
  let? inventory := inspect_tables server options in
  match ti_rejected inventory with
  | rejected :: _ =>
      Err (contract ("table " +:+ QualifiedName_to_string (rj_name rejected)
                     +:+ " is not eligible for replication: " +:+ rj_reason rejected))
  | [] => Ok (ti_supported inventory)
  end.

(** ** Lemmas: type resolution *)

(** The type [oid] needs the type [oid'] to be resolved first. *)
Definition needs (all : gmap Z TypeDescriptor) (oid oid' : Z) : Prop :=
  exists d, all !! oid = Some d /\
    (td_typtype d = "d" /\ td_base_oid d = Some oid' \/
     td_typtype d = "b" /\ td_element_oid d = Some oid').

Lemma Sorted_tc {A} (R : A -> A -> Prop) l : Sorted R l -> StronglySorted (tc R) l.
Proof.
  intros H. apply Sorted_StronglySorted; [intros x y z; apply tc_transitive|].
  induction H as [|x l Hs IH Hhd]; constructor; [done|].
  destruct Hhd; constructor. by apply tc_once.
Qed.

Lemma acyclic_NoDup {A} (R : A -> A -> Prop) l :
  (forall x, ~ tc R x x) -> Sorted R l -> NoDup l.
Proof.
  intros Hac H%Sorted_tc. induction H as [|x l Hs IH Hall]; constructor; [|done].
  intros Hin. rewrite Forall_forall in Hall. by apply (Hac x), Hall.
Qed.

Section resolution.
Context (all : gmap Z TypeDescriptor).

(** What one level of the recursion does: it ends, or resolves one other descriptor. *)
Lemma resolve_step d typmod :
  (exists r, r <> Panic /\ forall n, resolve_within (S n) d all typmod = r) \/
  (exists o d' typmod' (k : PgType -> PgType), (td_typtype d = "d" /\ td_base_oid d = Some o \/
                            td_typtype d = "b" /\ td_element_oid d = Some o) /\ all !! o = Some d' /\
     forall n, resolve_within (S n) d all typmod = k <$> resolve_within n d' all typmod').
Proof.
  cbn [resolve_within]. unfold core_contract.
  destruct (QualifiedName_new (td_schema d) (td_name d)) as [name|e|] eqn:En; cbn [map_err mbind result_bind];
    [|by left; eexists; split; [|done]|].
  2: { unfold QualifiedName_new, validate_identifier in En. by repeat case_match. }
  case_bool_decide as He; [by left; eexists; split; [|done]|].
  case_bool_decide as Hd.
  - destruct (td_base_oid d ≫= _) as [d'|] eqn:Eb; cbn [ok_or mbind result_bind];
      [|by left; eexists; split; [|done]].
    apply bind_Some in Eb as (o & Ho & Hd'). right.
    exists o, d', typmod, (fun b => mkPgType (td_oid d) name (TDomain b (td_constraints d))).
    split_and!; [by left|done|]. intros n. by destruct (resolve_within n d' all typmod).
  - case_bool_decide as Hb; cbn [andb]; [|by left; eexists; split; [|done]].
    destruct (bool_decide (is_Some (td_element_oid d))); cbn [andb]; [|by left; eexists; split; [|done]].
    destruct (td_element_oid d ≫= _) as [d'|] eqn:Eb; cbn [ok_or mbind result_bind];
      [|by left; eexists; split; [|done]].
    apply bind_Some in Eb as (o & Ho & Hd'). right.
    exists o, d', (-1)%Z, (fun b => mkPgType (td_oid d) name (TArray b)).
    split_and!; [by right|done|]. intros n. by destruct (resolve_within n d' all (-1)).
Qed.

(** A recursion that is too deep follows a path of [fuel] descriptors. *)
Lemma resolve_path fuel d typmod :
  resolve_within fuel d all typmod = Panic ->
  exists l, length l = fuel /\ Sorted (needs all) l /\ Forall (fun o => o ∈ dom all) l /\
    forall o, hd_error l = Some o -> td_typtype d = "d" /\ td_base_oid d = Some o \/
                                     td_typtype d = "b" /\ td_element_oid d = Some o.
Proof.
  revert d typmod. induction fuel as [|fuel IH]; intros d typmod H.
  { exists []. by split_and!. }
  destruct (resolve_step d typmod) as [(r & Hr & Heq)|(o & d' & typmod' & k & Href & Hd' & Heq)].
  { exfalso. apply Hr. by rewrite <-(Heq fuel). }
  rewrite Heq in H. destruct (resolve_within fuel d' all typmod') eqn:E; try done.
  destruct (IH _ _ E) as (l & Hlen & Hs & Hf & Hhd). exists (o :: l). split_and!.
  - cbn. by rewrite Hlen.
  - constructor; [done|]. destruct l as [|o' l]; constructor. exists d'. split; [done|]. by apply Hhd.
  - constructor; [by apply elem_of_dom|done].
  - intros o2 Ho2. by injection Ho2 as <-.
Qed.

(** More fuel does not change a result. *)
Lemma resolve_more fuel n d typmod :
  resolve_within fuel d all typmod <> Panic -> (fuel <= n)%nat ->
  resolve_within n d all typmod = resolve_within fuel d all typmod.
Proof.
  revert n d typmod. induction fuel as [|fuel IH]; intros [|n] d typmod H Hn; try done; [lia|].
  destruct (resolve_step d typmod) as [(r & Hr & Heq)|(o & d' & typmod' & k & _ & _ & Heq)].
  - by rewrite !Heq.
  - rewrite Heq in H. rewrite !Heq. rewrite (IH n); [done| |lia].
    intros E. apply H. by rewrite E.
Qed.

Lemma resolve_enough d typmod :
  (forall oid, ~ tc (needs all) oid oid) -> resolve_within (S (size all)) d all typmod <> Panic.
Proof.
  intros Hac H. destruct (resolve_path _ _ _ H) as (l & Hlen & Hs & Hf & _).
  pose proof (acyclic_NoDup _ _ Hac Hs) as Hnd.
  enough (length l <= size all)%nat by lia.
  rewrite <-size_dom, <-(size_list_to_set (C := gset Z) l) by done.
  apply subseteq_size. intros o Ho. apply elem_of_list_to_set in Ho.
  rewrite Forall_forall in Hf. by apply Hf.
Qed.
End resolution.

(** ** Lemmas: rows and tables *)

(** The rows that the loop does not skip. *)
Definition kept (options : CatalogOptions) (row : ColumnRow) : bool :=
  eligible_schema (cw_schema_name row) options && (negb (cw_relispartition row) || ct_include_partitions options).

(** What a row says about its table and its column. *)
Record row_of (types : gmap Z TypeDescriptor) (row : ColumnRow) (table : TableSchema) (column : ColumnSchema)
    : Prop := {
  ro_relation : ts_relation_id table = cw_relation_id row;
  ro_attnum : col_attnum column = as_i16 (cw_attnum row);
  ro_name : col_name column = cw_attname row;
  ro_nullable : col_nullable column = negb (cw_attnotnull row);
  ro_type : exists d, types !! cw_type_oid row = Some d /\
    resolve_type d types (cw_type_modifier row) = Ok (col_data_type column);
}.

(** The columns of all tables, each with its table. *)
Definition flat (tables : list TableSchema) : list (TableSchema * ColumnSchema) :=
  concat (map (fun t => map (pair t) (ts_columns t)) tables).

(** [b] is the table [a] with more columns. *)
Definition extends (a b : TableSchema) : Prop :=
  ts_relation_id b = ts_relation_id a /\ ts_name b = ts_name a /\ ts_kind b = ts_kind a /\
  ts_replica_identity b = ts_replica_identity a.

(** The loop so far: the tables hold the kept rows, neighbours differ. *)
Record loaded (options : CatalogOptions) (types : gmap Z TypeDescriptor) (rows : list ColumnRow)
    (tables : list TableSchema) : Prop := {
  ld_rows : Forall2 (fun row p => row_of types row p.1 p.2) (List.filter (kept options) rows) (flat tables);
  ld_columns : Forall (fun t => ts_columns t <> []) tables;
  ld_distinct : Sorted (fun a b => ts_relation_id a <> ts_relation_id b) tables;
  ld_names : forall t, t ∈ tables -> exists row, row ∈ List.filter (kept options) rows /\
    cw_relation_id row = ts_relation_id t /\ ts_name t = mkQualifiedName (cw_schema_name row) (cw_relation_name row);
}.

Lemma parse_u32_value_Ok value name v :
  parse_u32_value value name = Ok v <-> v = value /\ (0 <= value <= u32_max)%Z.
Proof.
  unfold parse_u32_value. destruct (Z.leb_spec 0 value), (Z.leb_spec value u32_max); cbn; split;
    try (intros; done || lia); intros H'; try (injection H' as <-; split; [done|lia]).
  by destruct H' as [-> _].
Qed.

Lemma flat_app a b : flat (a ++ b) = flat a ++ flat b.
Proof. unfold flat. by rewrite map_app, concat_app. Qed.

Lemma push_column_spec relation_id column tables :
  (exists init t, tables = init ++ [t] /\ ts_relation_id t = relation_id /\
     exists t', extends t t' /\ ts_columns t' = ts_columns t ++ [column] /\
       push_column relation_id column tables = Some (init ++ [t'])) \/
  (push_column relation_id column tables = None /\
   forall t, last tables = Some t -> ts_relation_id t <> relation_id).
Proof.
  induction tables as [|t tables IH]; [by right|]. destruct tables as [|t2 tables].
  - cbn [push_column]. destruct (Z.eqb_spec (ts_relation_id t) relation_id) as [He|Hne].
    + left. exists [], t. split_and!; [done..|]. eexists. by split; [|split; [|reflexivity]].
    + right. split; [done|]. intros t' Ht'. by injection Ht' as <-.
  - change (push_column relation_id column (t :: t2 :: tables))
      with (cons t <$> push_column relation_id column (t2 :: tables)).
    destruct IH as [(init & u & -> & Hid & t' & He & Hc & Hp)|[Hp Hl]].
    + left. exists (t :: init), u. split_and!; [done..|]. exists t'. split_and!; [done..|]. by rewrite Hp.
    + right. rewrite Hp. split; [done|]. intros u Hu. apply Hl. exact Hu.
Qed.

Lemma row_of_extends types row a b c : extends a b -> row_of types row a c -> row_of types row b c.
Proof. intros (Hid & _) []. split; try done. by rewrite Hid. Qed.

Lemma Forall2_row_extends types rows a b cs :
  extends a b -> Forall2 (fun row p => row_of types row p.1 p.2) rows (map (pair a) cs) ->
  Forall2 (fun row p => row_of types row p.1 p.2) rows (map (pair b) cs).
Proof.
  intros He. revert rows. induction cs as [|c cs IH]; intros rows H; inversion H; subst; constructor; auto.
  by eapply row_of_extends.
Qed.

Lemma loaded_snoc options types rows row tables : kept options row = false ->
  loaded options types rows tables -> loaded options types (rows ++ [row]) tables.
Proof.
  intros Hk []. split; try done; rewrite List.filter_app; cbn; rewrite Hk, app_nil_r; done.
Qed.

Lemma kept_Ok options types tables row tables' :
  load_row options types tables row = Ok tables' -> kept options row = true ->
  exists column name, name = mkQualifiedName (cw_schema_name row) (cw_relation_name row) /\
    (forall t, ts_relation_id t = cw_relation_id row -> row_of types row t column) /\
    (0 <= cw_relation_id row <= u32_max)%Z /\
    match push_column (cw_relation_id row) column tables with
    | Some tables => tables' = tables
    | None => exists t, tables' = tables ++ [t] /\ ts_relation_id t = cw_relation_id row /\ ts_name t = name /\
                ts_columns t = [column]
    end.
Proof.
  unfold kept, load_row. intros H [He Hp]%andb_true_iff. rewrite He in H. cbn [negb] in H.
  apply bind_Ok in H as (id & Hid & H). apply parse_u32_value_Ok in Hid as [-> Hid].
  assert (Hskip : cw_relispartition row && negb (ct_include_partitions options) = false).
  { by destruct (cw_relispartition row), (ct_include_partitions options). }
  rewrite Hskip in H. apply bind_Ok in H as (name & Hname & H). unfold core_contract in Hname.
  apply map_err_Ok, QualifiedName_new_Ok in Hname as (_ & _ & ->).
  apply bind_Ok in H as (ri & _ & H). apply bind_Ok in H as (oid & Hoid & H).
  apply parse_u32_value_Ok in Hoid as [-> _]. apply bind_Ok in H as (d & Hd & H). apply ok_or_Ok in Hd.
  apply bind_Ok in H as (t & Ht & H). apply bind_Ok in H as (coll & _ & H).
  apply bind_Ok in H as (g & _ & H). apply bind_Ok in H as (i & _ & H). cbv zeta in H.
  apply bind_Ok in H as (pk & _ & H). revert H.
  match goal with |- context [push_column _ ?c _] => set (column := c) end. intros H.
  exists column. eexists. split; [reflexivity|]. split_and!; [|lia..|].
  - intros u Hu. split; try done. by exists d.
  - destruct (push_column _ _ _); injection H as <-; [done|]. by eexists.
Qed.

Section extending.
Context (options : CatalogOptions) (types : gmap Z TypeDescriptor) (rows : list ColumnRow) (row : ColumnRow)
  (c : ColumnSchema).
Context (Hk : kept options row = true)
  (Hc : forall t, ts_relation_id t = cw_relation_id row -> row_of types row t c).

Lemma kept_snoc :
  List.filter (kept options) (rows ++ [row]) = List.filter (kept options) rows ++ [row].
Proof. rewrite List.filter_app. cbn. by rewrite Hk. Qed.

Lemma named_by_row (tables : list TableSchema) u :
  (forall t, t ∈ tables -> exists row, row ∈ List.filter (kept options) rows /\
     cw_relation_id row = ts_relation_id t /\
     ts_name t = mkQualifiedName (cw_schema_name row) (cw_relation_name row)) ->
  u ∈ tables ->
  exists r, r ∈ List.filter (kept options) (rows ++ [row]) /\ cw_relation_id r = ts_relation_id u /\
    ts_name u = mkQualifiedName (cw_schema_name r) (cw_relation_name r).
Proof.
  intros Hnames Hu. destruct (Hnames u Hu) as (r & Hr & ?). exists r. split; [|done].
  rewrite kept_snoc. apply elem_of_app. by left.
Qed.

Lemma loaded_push init t t' :
  loaded options types rows (init ++ [t]) -> ts_relation_id t = cw_relation_id row ->
  extends t t' -> ts_columns t' = ts_columns t ++ [c] -> loaded options types (rows ++ [row]) (init ++ [t']).
Proof using Hk Hc.
  intros [Hrows Hcols Hdist Hnames] Hid He Hcs.
  assert (Hid' : ts_relation_id t' = cw_relation_id row) by (destruct He as [-> _]; done). split.
  - rewrite flat_app in Hrows. unfold flat in Hrows at 2. cbn in Hrows. rewrite app_nil_r in Hrows.
    apply Forall2_app_inv_r in Hrows as (r1 & r2 & H1 & H2 & Hr).
    rewrite kept_snoc, Hr, flat_app. unfold flat at 2. cbn. rewrite app_nil_r, Hcs, map_app, <-app_assoc.
    apply Forall2_app; [done|]. apply Forall2_app; [by eapply Forall2_row_extends|].
    constructor; [by apply Hc|constructor].
  - apply Forall_app in Hcols as [Hci _]. apply Forall_app. split; [done|].
    constructor; [|constructor]. rewrite Hcs. by destruct (ts_columns t).
  - clear -Hdist He. destruct He as (Hid & _). induction init as [|u init IH]; cbn in *; [by repeat constructor|].
    inversion Hdist as [|? ? Hs Hhd]; subst. constructor; [by apply IH|].
    destruct init as [|v init]; cbn in *; inversion Hhd; subst; constructor; congruence.
  - intros u Hu. apply elem_of_app in Hu as [Hu|Hu].
    + eapply named_by_row; [exact Hnames|]. apply elem_of_app. by left.
    + apply list_elem_of_singleton in Hu as ->. destruct He as (-> & -> & _).
      eapply named_by_row; [exact Hnames|]. apply elem_of_app. right. by left.
Qed.

Lemma loaded_new tables t :
  loaded options types rows tables -> (forall u, last tables = Some u -> ts_relation_id u <> cw_relation_id row) ->
  ts_relation_id t = cw_relation_id row ->
  ts_name t = mkQualifiedName (cw_schema_name row) (cw_relation_name row) -> ts_columns t = [c] ->
  loaded options types (rows ++ [row]) (tables ++ [t]).
Proof using Hk Hc.
  intros [Hrows Hcols Hdist Hnames] Hlast Hid Hn Hcs. split.
  - rewrite kept_snoc, flat_app. unfold flat at 2. cbn. rewrite app_nil_r, Hcs. cbn.
    apply Forall2_app; [done|]. constructor; [by apply Hc|constructor].
  - apply Forall_app. split; [done|]. constructor; [by rewrite Hcs|constructor].
  - apply Sorted_snoc; [done|]. intros y Hy. rewrite Hid. by apply Hlast.
  - intros u Hu. apply elem_of_app in Hu as [Hu|Hu]; [by eapply named_by_row|].
    apply list_elem_of_singleton in Hu as ->. exists row. split; [|done].
    rewrite kept_snoc. apply elem_of_app. right. by left.
Qed.
End extending.

Lemma load_row_loaded options types rows tables row tables' :
  loaded options types rows tables -> load_row options types tables row = Ok tables' ->
  loaded options types (rows ++ [row]) tables'.
Proof.
  intros Hl H. destruct (kept options row) eqn:Hk.
  - destruct (kept_Ok _ _ _ _ _ H Hk) as (c & name & -> & Hc & _ & Hp).
    destruct (push_column_spec (cw_relation_id row) c tables)
      as [(init & t & -> & Hid & t' & He & Hcs & Hpush)|[Hpush Hlast]]; rewrite Hpush in Hp.
    + subst tables'. by eapply loaded_push.
    + destruct Hp as (t & -> & Hid & Hn & Hcs). by eapply loaded_new.
  - assert (tables' = tables) as ->; [|by apply loaded_snoc].
    unfold load_row in H. unfold kept in Hk.
    destruct (eligible_schema _ _); cbn [negb andb] in *; [|by injection H as <-].
    apply bind_Ok in H as (id & _ & H). apply orb_false_iff in Hk as [Hp Hi].
    apply negb_false_iff in Hp. rewrite Hp, Hi in H. cbn in H. by injection H as <-.
Qed.

Lemma candidates_loaded server options tables :
  load_table_candidates server options = Ok tables ->
  exists types, load_type_descriptors server = Ok types /\ loaded options types (sv_columns server) tables.
Proof.
  unfold load_table_candidates. intros H. apply bind_Ok in H as (types & Ht & H). exists types. split; [done|].
  revert H. apply (foldM_ind _ (fun rows tables => loaded options types rows tables)).
  - split; [constructor|constructor|constructor|]. intros t Ht'. by apply elem_of_nil in Ht'.
  - intros rows row s1 s2 Hl _ Hr. by eapply load_row_loaded.
Qed.

(** The order of the query, [ORDER BY c.oid, ..]. *)
Definition ordered_rows (rows : list ColumnRow) : Prop :=
  StronglySorted (fun a b => cw_relation_id a <= cw_relation_id b)%Z rows.

Lemma StronglySorted_filter {A} (R : A -> A -> Prop) p l :
  StronglySorted R l -> StronglySorted R (List.filter p l).
Proof.
  induction 1 as [|x l Hs IH Hall]; cbn; [constructor|]. destruct (p x); [|done]. constructor; [done|].
  rewrite Forall_forall in *. intros y [_ Hy]%elem_of_List_filter. by apply Hall.
Qed.

Lemma flat_sorted options types rows tables :
  ordered_rows rows -> Forall2 (fun row p => row_of types row p.1 p.2) (List.filter (kept options) rows) (flat tables) ->
  StronglySorted (fun p q => ts_relation_id p.1 <= ts_relation_id q.1)%Z (flat tables).
Proof.
  intros H%(StronglySorted_filter _ (kept options)). revert H. generalize (List.filter (kept options) rows).
  intros l Hl H. induction H as [|row p l k Hr HF IH]; [constructor|].
  inversion Hl as [|? ? Hs Hall]; subst. constructor; [by apply IH|].
  apply Forall_forall. intros q Hq. apply list_elem_of_lookup in Hq as [i Hi].
  destruct (Forall2_lookup_r _ _ _ _ _ HF Hi) as (r & Hri & Hrq).
  rewrite Forall_forall in Hall. rewrite (ro_relation _ _ _ _ Hr), (ro_relation _ _ _ _ Hrq).
  apply Hall. by eapply list_elem_of_lookup_2.
Qed.

Lemma loaded_distinct tables :
  StronglySorted (fun p q => ts_relation_id p.1 <= ts_relation_id q.1)%Z (flat tables) ->
  Forall (fun t => ts_columns t <> []) tables -> Sorted (fun a b => ts_relation_id a <> ts_relation_id b) tables ->
  NoDup (map ts_relation_id tables).
Proof.
  intros Hs Hne Hd.
  assert (H : Sorted Z.lt (map ts_relation_id tables)).
  { induction tables as [|t tables IH]; cbn; [constructor|].
    inversion Hne as [|? ? Ht Hts]; subst. inversion Hd as [|? ? Hd' Hhd]; subst.
    unfold flat in Hs. cbn in Hs. fold (flat tables) in Hs.
    constructor; [apply IH; [by eapply StronglySorted_app_1_r|done..]|].
    destruct tables as [|u tables]; cbn; constructor. inversion Hhd as [|? ? Htu]; subst.
    inversion Hts as [|? ? Hu _]; subst.
    destruct (ts_columns t) as [|c cs] eqn:Ec; [done|]. destruct (ts_columns u) as [|d ds] eqn:Ed; [done|].
    cbn in Hs. inversion Hs as [|? ? _ Hall]; subst. rewrite Forall_forall in Hall.
    assert (Hin : (u, d) ∈ map (pair t) cs ++ flat (u :: tables)).
    { apply elem_of_app. right. unfold flat. cbn. rewrite Ed. by left. }
    specialize (Hall _ Hin). cbn in Hall. lia. }
  apply (acyclic_NoDup Z.lt); [|done]. intros x Hx.
  enough (forall a b, tc Z.lt a b -> (a < b)%Z) as Hlt by (specialize (Hlt x x Hx); lia).
  intros a b Hab. induction Hab; lia.
Qed.

Definition accepted (t : TableSchema) : bool := is_ok (validate_supported t).

Lemma accepted_supported t : accepted t = true <-> supported t.
Proof.
  unfold accepted. rewrite <-validate_supported_Ok. destruct (validate_supported t) as [[]| |]; by cbn.
Qed.

Lemma classify_tables_spec tables :
  ti_supported (classify_tables tables) = List.filter accepted tables /\
  map rj_name (ti_rejected (classify_tables tables)) = map ts_name (List.filter (fun t => negb (accepted t)) tables).
Proof.
  induction tables as [|t tables [IH1 IH2]] using rev_ind; [done|].
  unfold classify_tables in *. rewrite foldl_app, !List.filter_app. cbn [foldl].
  set (st := foldl classify_table _ tables) in *. unfold classify_table. cbn. unfold accepted at 2 4.
  pose proof (validate_supported_no_panic t). destruct (validate_supported t) as [[]|e|]; try done; cbn.
  - rewrite app_nil_r, IH1. done.
  - by rewrite !map_app, IH2, app_nil_r.
Qed.

(** A failing row fails the whole inspection. *)
Lemma foldM_stuck {E A S} (f : S -> A -> result E S) l x s :
  x ∈ l -> (forall s s', f s x <> Ok s') -> forall s', foldM f s l <> Ok s'.
Proof.
  intros Hx Hf. revert s. induction l as [|y l IH]; intros s s' H; [by apply elem_of_nil in Hx|].
  cbn in H. apply bind_Ok in H as (s1 & H1 & H). apply elem_of_cons in Hx as [<-|Hx]; [by eapply Hf|].
  by eapply IH.
Qed.

(** The text of an [int2vector]: the numbers, separated by spaces. *)
Definition int2vector_out (attnums : list Z) : string := join " " (map pretty attnums).

(** How the server packs a precision and a scale, [(p << 16 | (s & 0x7ff)) + 4]. *)
Definition numeric_modifier (precision scale : Z) : Z :=
  (Z.lor (Z.shiftl precision 16) (Z.land scale 0x7ff) + 4)%Z.

Lemma numeric_typmod_modifier p s :
  (0 <= p < 2 ^ 16)%Z ->
  numeric_typmod (numeric_modifier p s) = (Some p, Some (s mod 2048)%Z).
Proof.
  intros Hp. unfold numeric_modifier, numeric_typmod.
  change 0x7ff%Z with (Z.ones 11). change 0xffff%Z with (Z.ones 16).
  rewrite (Z.land_ones s 11) by done. change (2 ^ 11)%Z with 2048%Z.
  pose proof (Z.mod_pos_bound s 2048 ltac:(done)) as Hm. set (m := (s mod 2048)%Z) in *.
  assert (Hv : (0 <= Z.lor (Z.shiftl p 16) m)%Z).
  { apply Z.lor_nonneg. split; [|lia]. apply Z.shiftl_nonneg. lia. }
  destruct (Z.ltb_spec (Z.lor (Z.shiftl p 16) m + 4) 4); [lia|]. rewrite Z.add_simpl_r.
  rewrite Z.shiftr_lor, Z.shiftr_shiftl_l, Z.shiftl_0_r by done.
  rewrite (Z.shiftr_div_pow2 m) by done. rewrite (Z.div_small m) by lia. rewrite Z.lor_0_r, Z.land_ones by done.
  rewrite (Z.mod_small p) by lia. rewrite Z.land_lor_distr_l, !Z.land_ones by done.
  rewrite Z.shiftl_mul_pow2, Z.mod_mul, Z.lor_0_l by done. rewrite (Z.mod_small m) by lia.
  destruct (Z.leb_spec m (2 ^ 15 - 1)); [done|lia].
Qed.

Lemma skip_digit c rest : is_digit c = true -> skip_whitespace (String c rest) = None.
Proof.
  unfold is_digit, Lsn.Z_of_ascii. intros [H1%Z.leb_le H2%Z.leb_le]%andb_true_iff. cbn [skip_whitespace].
  assert (Hn : (48 <= N_of_ascii c <= 57)%N) by lia. revert Hn. generalize (N_of_ascii c). intros n Hn.
  destruct (N.leb_spec 9 n), (N.leb_spec n 13), (N.eqb_spec n 32); try lia; cbn [andb orb].
  destruct rest as [|b [|d r]]; [done| |];
    destruct (N.eqb_spec n 0xC2), (N.eqb_spec n 0xE1), (N.eqb_spec n 0xE2), (N.eqb_spec n 0xE3);
    try lia; done.
Qed.

Lemma trim_digit c rest : is_digit c = true -> exists rest', trim (String c rest) = String c rest'.
Proof.
  intros Hc. unfold trim. cbn [String.length trim_start_within]. rewrite skip_digit by done.
  exists (trim_end rest). cbn [trim_end]. unfold is_blank. cbn [String.length blank_within].
  by rewrite skip_digit.
Qed.

Lemma pretty_digit n : (0 <= n)%Z -> exists c rest, pretty n = String c rest /\ is_digit c = true.
Proof.
  intros Hn. pose proof (pretty_N_digits (Z.to_N n)) as Hd. rewrite <-pretty_Z_nonneg in Hd by done.
  pose proof (parse_uint_pretty n n ltac:(lia)) as Hp.
  destruct (pretty n) as [|c rest]; [done|]. exists c, rest. split; [done|].
  cbn in Hd. by apply andb_true_iff in Hd as [? _].
Qed.

(** An [int2vector] that is not empty has no braces, and is not read. *)
Lemma parse_attnums_int2vector a attnums v :
  (0 <= a)%Z -> parse_attnums (int2vector_out (a :: attnums)) <> Ok v.
Proof.
  intros Ha. destruct (pretty_digit a Ha) as (c & rest & Hp & Hc).
  assert (exists r, int2vector_out (a :: attnums) = String c r) as [r ->].
  { unfold int2vector_out. cbn [map]. rewrite Hp. destruct (map pretty attnums); by eexists. }
  unfold parse_attnums. destruct (trim_digit c r Hc) as [r' ->].
  assert (Hne : (c =? "{")%char = false).
  { apply Ascii.eqb_neq. intros ->. by cbn in Hc. }
  rewrite bool_decide_false; [|intros H; injection H as -> _; by cbn in Hc]. cbn [orb Lsn.is_empty].
  unfold strip_prefix. rewrite bool_decide_false; [|by apply Ascii.eqb_neq]. done.
Qed.

(** The types [scalar_kind] knows. *)
Definition registered_types : list string :=
  ["bool"; "int2"; "int4"; "int8"; "numeric"; "float4"; "float8"; "text"; "varchar"; "bpchar"; "bytea";
   "date"; "time"; "timetz"; "timestamp"; "timestamptz"; "interval"; "uuid"; "json"; "jsonb"; "inet";
   "cidr"; "macaddr"; "macaddr8"; "bit"; "varbit"; "xml"].

Lemma scalar_kind_registered name typmod :
  is_supported (scalar_kind name typmod) = true <-> name ∈ registered_types.
Proof.
  split.
  - intros H. destruct (decide (name ∈ registered_types)) as [|Hn]; [done|exfalso].
    revert H. unfold scalar_kind.
    repeat (match goal with |- context [match ?x with _ => _ end] => is_var x; destruct x end;
            try (intros; discriminate));
    intros _; apply Hn; apply (bool_decide_unpack _); vm_compute; exact I.
  - intros H. unfold registered_types in H. repeat (apply elem_of_cons in H as [->|H]; [
      cbn; try (by destruct (numeric_typmod typmod)); reflexivity|]). by apply elem_of_nil in H.
Qed.

(** A scalar column type as it is declared. *)
Inductive DeclaredType : Type :=
| DPlain (name : string) (kind : PgTypeKind)
| DNumeric (precision_scale : option (Z * Z))
| DVarChar (length : option Z)
| DChar (length : option Z)
| DTime (precision : option Z) (with_time_zone : bool)
| DTimestamp (precision : option Z) (with_time_zone : bool)
| DInterval (fields precision : option Z)
| DBit (length : option Z) (varying : bool).

Definition plain_types : list (string * PgTypeKind) :=
  [("bool", TBool); ("int2", TInt2); ("int4", TInt4); ("int8", TInt8); ("float4", TFloat4); ("float8", TFloat8);
   ("text", TText); ("bytea", TBytea); ("date", TDate); ("uuid", TUuid); ("json", TJson); ("jsonb", TJsonb);
   ("inet", TInet); ("cidr", TCidr); ("macaddr", TMacAddr); ("macaddr8", TMacAddr8); ("xml", TXml)].

(** What the server lets a column declare; an [interval] may name its fields, a mask of 15 bits. *)
Definition declarable (d : DeclaredType) : Prop :=
  match d with
  | DPlain name kind => (name, kind) ∈ plain_types
  | DNumeric m => forall p s, m = Some (p, s) -> (1 <= p <= 1000)%Z /\ (-1000 <= s <= 1000)%Z
  | DVarChar n | DChar n => forall l, n = Some l -> (1 <= l <= 10485760)%Z
  | DTime p _ | DTimestamp p _ => forall l, p = Some l -> (0 <= l <= 6)%Z
  | DInterval f p =>
      (forall m, f = Some m -> (1 <= m < 0x7FFF)%Z) /\ (forall l, p = Some l -> (0 <= l <= 6)%Z)
  | DBit n _ => forall l, n = Some l -> (1 <= l <= 83886080)%Z
  end.

Definition declared_name (d : DeclaredType) : string :=
  match d with
  | DPlain name _ => name
  | DNumeric _ => "numeric"
  | DVarChar _ => "varchar"
  | DChar _ => "bpchar"
  | DTime _ tz => if tz then "timetz" else "time"
  | DTimestamp _ tz => if tz then "timestamptz" else "timestamp"
  | DInterval _ _ => "interval"
  | DBit _ varying => if varying then "varbit" else "bit"
  end.

(** [atttypmod], as the type's [typmodin] packs it: a character length behind a header of four
    bytes; the precision of a time and the length of a bit string as they are; the fields of an
    interval above its precision, all ones when not given. *)
Definition declared_modifier (d : DeclaredType) : Z :=
  match d with
  | DNumeric (Some (p, s)) => numeric_modifier p s
  | DVarChar (Some n) | DChar (Some n) => n + 4
  | DTime (Some p) _ | DTimestamp (Some p) _ => p
  | DInterval None None => -1
  | DInterval f p => Z.lor (Z.shiftl (default 0x7FFF%Z f) 16) (default 0xFFFF%Z p)
  | DBit (Some n) _ => n
  | _ => -1
  end.

(** The kind that says what was declared. *)
Definition declared_kind (d : DeclaredType) : PgTypeKind :=
  match d with
  | DPlain _ kind => kind
  | DNumeric m => TNumeric (fst <$> m) (snd <$> m)
  | DVarChar n => TVarChar n
  | DChar n => TChar n
  | DTime p tz => TTime p tz
  | DTimestamp p tz => TTimestamp p tz
  | DInterval _ p => TInterval p
  | DBit n varying => TBit n varying
  end.

Lemma typmod_length_header n : (0 <= n <= u32_max)%Z -> typmod_length (n + 4) = Some n.
Proof.
  intros Hl. unfold typmod_length. rewrite Z.add_simpl_r.
  destruct (Z.leb_spec 4 (n + 4)), (Z.leb_spec n u32_max); [done|lia..].
Qed.

Lemma time_precision_small p : (0 <= p <= 6)%Z -> time_precision p = Some p.
Proof. intros Hp. unfold time_precision. destruct (Z.leb_spec 0 p), (Z.leb_spec p 255); [done|lia..]. Qed.

(** The precision of an interval is never read: the fields are above it. *)
Lemma interval_precision_lost f p :
  declarable (DInterval f p) -> time_precision (declared_modifier (DInterval f p)) = None.
Proof.
  intros [Hf Hp].
  assert (Hbig : forall fields precision, (1 <= fields)%Z -> (0 <= precision)%Z ->
    time_precision (Z.lor (Z.shiftl fields 16) precision) = None).
  { intros fields precision H1 H2. assert (H3 : (65536 <= Z.lor (Z.shiftl fields 16) precision)%Z).
    { assert (Hs : Z.shiftr (Z.lor (Z.shiftl fields 16) precision) 16 = Z.lor fields (Z.shiftr precision 16)).
      { by rewrite Z.shiftr_lor, Z.shiftr_shiftl_l, Z.shiftl_0_r by done. }
      assert (Hn : (0 <= Z.lor fields (Z.shiftr precision 16))%Z)
        by (apply Z.lor_nonneg; split; [lia|by apply Z.shiftr_nonneg]).
      assert (Hne : Z.lor fields (Z.shiftr precision 16) <> 0%Z) by (intros [? _]%Z.lor_eq_0_iff; lia).
      rewrite <-Hs, Z.shiftr_div_pow2 in Hn, Hne by done. change (2 ^ 16)%Z with 65536%Z in *.
      destruct (Z.le_gt_cases 65536 (Z.lor (Z.shiftl fields 16) precision)) as [|Hlt]; [done|].
      destruct Hne. apply Z.div_small. split; [|done]. apply Z.lor_nonneg. split; [|done].
      apply Z.shiftl_nonneg. lia. }
    unfold time_precision. destruct (Z.leb_spec (Z.lor (Z.shiftl fields 16) precision) 255); [lia|].
    by rewrite andb_false_r. }
  destruct f as [m|], p as [l|]; cbn; [..|done]; apply Hbig; try done.
  - specialize (Hf m eq_refl). lia.
  - specialize (Hp l eq_refl). lia.
  - specialize (Hf m eq_refl). lia.
  - specialize (Hp l eq_refl). lia.
Qed.

Lemma declared_read d : declarable d -> scalar_kind (declared_name d) (declared_modifier d) =
  match d with
  | DNumeric (Some (p, s)) => TNumeric (Some p) (Some (if (s <? 0)%Z then s + 2048 else s)%Z)
  | DBit n varying => TBit (n ≫= fun n => if (n <? 4)%Z then None else Some (n - 4)%Z) varying
  | DInterval _ _ => TInterval None
  | d => declared_kind d
  end.
Proof.
  destruct d as [name kind|[[p s]|]|[n|]|[n|]|[p|] []|[p|] []|f p|[n|] []]; intros Hd;
    cbn [declared_name declared_modifier declared_kind]; try reflexivity.
  - cbn in Hd. repeat (apply elem_of_cons in Hd as [[= -> ->]|Hd]; [reflexivity|]). by apply elem_of_nil in Hd.
  - destruct (Hd p s eq_refl) as [Hp Hs]. unfold scalar_kind.
    rewrite numeric_typmod_modifier by lia. f_equal. f_equal. destruct (Z.ltb_spec s 0).
    + symmetry. apply Z.mod_unique with (-1)%Z; lia.
    + apply Z.mod_small. lia.
  - specialize (Hd n eq_refl). unfold scalar_kind. rewrite typmod_length_header; [done|unfold u32_max; lia].
  - specialize (Hd n eq_refl). unfold scalar_kind. rewrite typmod_length_header; [done|unfold u32_max; lia].
  - specialize (Hd p eq_refl). unfold scalar_kind. by rewrite time_precision_small.
  - specialize (Hd p eq_refl). unfold scalar_kind. by rewrite time_precision_small.
  - specialize (Hd p eq_refl). unfold scalar_kind. by rewrite time_precision_small.
  - specialize (Hd p eq_refl). unfold scalar_kind. by rewrite time_precision_small.
  - by rewrite <-(interval_precision_lost f p Hd).
  - specialize (Hd n eq_refl). unfold scalar_kind, typmod_length. cbn.
    destruct (Z.ltb_spec n 4), (Z.leb_spec 4 n), (Z.leb_spec (n - 4) u32_max); unfold u32_max in *; done || lia.
  - specialize (Hd n eq_refl). unfold scalar_kind, typmod_length. cbn.
    destruct (Z.ltb_spec n 4), (Z.leb_spec 4 n), (Z.leb_spec (n - 4) u32_max); unfold u32_max in *; done || lia.
Qed.

(** The names of a descriptor are identifiers. *)
Definition named (d : TypeDescriptor) : Prop := valid_identifier (td_schema d) /\ valid_identifier (td_name d).

(** The descriptor of a scalar type. *)
Definition plain_scalar (d : TypeDescriptor) : Prop :=
  named d /\ td_typtype d = "b" /\ td_element_oid d = None.

Lemma some_room (all : gmap Z TypeDescriptor) oid d : all !! oid = Some d -> exists n, size all = S n.
Proof.
  intros H. destruct (size all) as [|n] eqn:E; [|by exists n]. apply map_size_empty_inv in E. by subst.
Qed.

Lemma resolve_scalar n d all typmod : plain_scalar d ->
  resolve_within (S n) d all typmod =
    Ok (mkPgType (td_oid d) (mkQualifiedName (td_schema d) (td_name d)) (scalar_kind (td_name d) typmod)).
Proof.
  intros ([Hs Hn] & Ht & He). cbn [resolve_within]. unfold core_contract.
  by rewrite (proj2 (QualifiedName_new_Ok _ _ _) (conj Hs (conj Hn eq_refl))), Ht, He.
Qed.

(** ** Properties *)

(** C27: Resolving a type ends on every catalog in which no type needs itself: [resolve_type]
    never recurses deeper than there are descriptors, and any more room gives the same result;
    a domain that is its own base overflows every stack. *)
Theorem type_resolution_terminates descriptor all typmod :
  (forall oid, ~ tc (needs all) oid oid) ->
  resolve_type descriptor all typmod <> Panic /\
  (forall fuel, (size all < fuel)%nat ->
     resolve_within fuel descriptor all typmod = resolve_type descriptor all typmod) /\
  (forall fuel oid d cyclic, cyclic !! oid = Some d -> td_typtype d = "d" -> td_base_oid d = Some oid ->
     valid_identifier (td_schema d) -> valid_identifier (td_name d) ->
     resolve_within fuel d cyclic typmod = Panic).
Proof.
  intros Hac. pose proof (resolve_enough all descriptor typmod Hac) as H. split; [done|]. split.
  - intros fuel Hf. by apply resolve_more.
  - intros fuel oid d cyclic Hd Ht Hb Hs Hn. induction fuel as [|fuel IH]; [done|].
    cbn [resolve_within]. unfold core_contract.
    rewrite (proj2 (QualifiedName_new_Ok _ _ _) (conj Hs (conj Hn eq_refl))). cbn [map_err mbind result_bind].
    rewrite Ht, Hb. cbn. rewrite Hd. cbn. by rewrite IH.
Qed.

(** C26: When the inspection of the catalog succeeds, every column row of an eligible table is a
    column of exactly one candidate table, in the order of the query, with its resolved type;
    and the inventory is a partition of the candidates into those that satisfy the contract
    and those that are reported as rejected: none is skipped. *)
Theorem inventory_covers_the_scope server options inventory :
  ordered_rows (sv_columns server) -> inspect_tables server options = Ok inventory ->
  exists types tables, load_type_descriptors server = Ok types /\
    Forall2 (fun row p => row_of types row p.1 p.2) (List.filter (kept options) (sv_columns server)) (flat tables) /\
    NoDup (map ts_relation_id tables) /\
    ti_supported inventory = List.filter accepted tables /\
    map rj_name (ti_rejected inventory) = map ts_name (List.filter (fun t => negb (accepted t)) tables) /\
    (forall t, t ∈ ti_supported inventory -> supported t).
Proof.
  unfold inspect_tables. intros Ho H. apply bind_Ok in H as (tables & Ht & H). injection H as <-.
  destruct (candidates_loaded _ _ _ Ht) as (types & Htypes & [Hrows Hcols Hd _]).
  exists types, tables. destruct (classify_tables_spec tables) as [H1 H2]. split_and!; try done.
  - eapply loaded_distinct; [by eapply flat_sorted|done..].
  - rewrite H1. intros t [Ht' _]%elem_of_List_filter. by apply accepted_supported.
Qed.

(** C35: What is read of a registered scalar type, for every modifier that can be declared. It is
    what was declared for the types without modifiers, for [varchar], [char], [time], [timetz],
    [timestamp] and [timestamptz], and for a [numeric] whose scale is not negative. It is not
    otherwise: a negative scale is read as [2048 + scale]; the length of [bit(n)] and
    [varbit(n)], whose modifier has no header, as four less, or as none below four; the
    precision and the fields of an [interval] are lost; so is the modifier of the elements of an
    array, and that of the base type of a domain (a column of a domain has the modifier [-1], and
    the domain's own is not read); and a fixed-length type with an element type, such as
    [point], is read as a supported array. Unregistered scalar types are unsupported. *)
Theorem types_are_read_with_known_losses :
  (forall name typmod, is_supported (scalar_kind name typmod) = true <-> name ∈ registered_types) /\
  (forall d, declarable d -> scalar_kind (declared_name d) (declared_modifier d) =
     match d with
     | DNumeric (Some (p, s)) => TNumeric (Some p) (Some (if (s <? 0)%Z then s + 2048 else s)%Z)
     | DBit n varying => TBit (n ≫= fun n => if (n <? 4)%Z then None else Some (n - 4)%Z) varying
     | DInterval _ _ => TInterval None
     | d => declared_kind d
     end) /\
  (forall all d oid inner typmod, all !! oid = Some inner -> plain_scalar inner -> named d ->
     td_typtype d = "b" -> td_element_oid d = Some oid ->
     exists t element, resolve_type d all typmod = Ok t /\ pgtype_kind t = TArray element /\
       pgtype_kind element = scalar_kind (td_name inner) (-1)) /\
  (forall all d oid inner, all !! oid = Some inner -> plain_scalar inner -> named d ->
     td_typtype d = "d" -> td_base_oid d = Some oid ->
     exists t base, resolve_type d all (-1) = Ok t /\ pgtype_kind t = TDomain base (td_constraints d) /\
       pgtype_kind base = scalar_kind (td_name inner) (-1)) /\
  (forall all float8, all !! 701%Z = Some float8 ->
     float8 = mkTypeDescriptor 701 "pg_catalog" "float8" "b" None None [] [] ->
     exists t, resolve_type (mkTypeDescriptor 600 "pg_catalog" "point" "b" None (Some 701%Z) [] []) all (-1) = Ok t /\
       pgtype_kind t = TArray (mkPgType 701 (mkQualifiedName "pg_catalog" "float8") TFloat8) /\
       type_is_supported t = true).
Proof.
  split_and!.
  - apply scalar_kind_registered.
  - apply declared_read.
  - intros all d oid inner typmod Ha Hi Hd Ht He. destruct (some_room _ _ _ Ha) as [n Hn].
    eexists (mkPgType _ _ _), (mkPgType _ (mkQualifiedName _ _) (scalar_kind _ (-1))).
    split; [|split; reflexivity]. unfold resolve_type. rewrite Hn. remember (S n) as room eqn:Hroom. cbn [resolve_within].
    unfold core_contract.
    rewrite (proj2 (QualifiedName_new_Ok _ _ _) (conj (proj1 Hd) (conj (proj2 Hd) eq_refl))), Ht, He.
    cbn. rewrite Ha, Hroom. cbn -[resolve_within]. by rewrite (resolve_scalar n _ all (-1) Hi).
  - intros all d oid inner Ha Hi Hd Ht Hb. destruct (some_room _ _ _ Ha) as [n Hn].
    eexists (mkPgType _ _ _), (mkPgType _ (mkQualifiedName _ _) (scalar_kind _ (-1))).
    split; [|split; reflexivity]. unfold resolve_type. rewrite Hn. remember (S n) as room eqn:Hroom. cbn [resolve_within].
    unfold core_contract.
    rewrite (proj2 (QualifiedName_new_Ok _ _ _) (conj (proj1 Hd) (conj (proj2 Hd) eq_refl))), Ht, Hb.
    cbn. rewrite Ha, Hroom. cbn -[resolve_within]. by rewrite (resolve_scalar n _ all (-1) Hi).
  - intros all float8 Hf ->. unfold resolve_type. destruct (some_room _ _ _ Hf) as [n Hn].
    rewrite Hn. cbn. rewrite Hf. cbn. by eexists.
Qed.

Lemma types_are_read_with_known_losses_witness :
  scalar_kind "bit" (declared_modifier (DBit (Some 8%Z) false)) = TBit (Some 4%Z) false /\
  scalar_kind "numeric" (declared_modifier (DNumeric (Some (10, -2)%Z))) = TNumeric (Some 10%Z) (Some 2046%Z) /\
  (exists t element,
    resolve_type (mkTypeDescriptor 1231 "pg_catalog" "_numeric" "b" None (Some 1700%Z) [] [])
      {[1700%Z := mkTypeDescriptor 1700 "pg_catalog" "numeric" "b" None None [] []]} (numeric_modifier 10 2) = Ok t /\
    pgtype_kind t = TArray element /\ pgtype_kind element = TNumeric None None).
Proof.
  destruct types_are_read_with_known_losses as (_ & H & Harray & _). split; [|split].
  - refine (H (DBit (Some 8%Z) false) _). intros l Hl. injection Hl as <-. lia.
  - refine (H (DNumeric (Some (10, -2)%Z)) _). intros p s Hl. injection Hl as <- <-. lia.
  - refine (Harray _ _ 1700%Z (mkTypeDescriptor 1700 "pg_catalog" "numeric" "b" None None [] []) _ _ _ _ _ _);
      try (vm_compute; reflexivity); repeat split; vm_compute; try done; try reflexivity; try discriminate.
Defined.

(** A partitioned table in the scope makes the whole inspection fail, whatever the other
    tables are: the text of its key, an [int2vector], has no braces and is refused. *)
Theorem partitioned_tables_block_the_catalog server options row a attnums inventory :
  row ∈ sv_columns server -> kept options row = true -> (0 <= a)%Z ->
  cw_partition_attrs row = int2vector_out (a :: attnums) ->
  inspect_tables server options <> Ok inventory.
Proof.
  intros Hrow Hk Ha Hp H. unfold inspect_tables, load_table_candidates in H.
  apply bind_Ok in H as (tables & H & _). apply bind_Ok in H as (types & _ & H). revert H.
  eapply foldM_stuck; [exact Hrow|]. clear tables. intros tables tables' H.
  unfold kept in Hk. apply andb_true_iff in Hk as [He Hi]. unfold load_row in H. rewrite He in H.
  cbn [negb] in H. apply bind_Ok in H as (id & _ & H).
  assert (Hskip : cw_relispartition row && negb (ct_include_partitions options) = false).
  { by destruct (cw_relispartition row), (ct_include_partitions options). }
  rewrite Hskip in H. do 8 (apply bind_Ok in H as (? & _ & H)). cbv zeta in H.
  apply bind_Ok in H as (v & Hv & _). rewrite Hp in Hv. by eapply parse_attnums_int2vector.
Qed.

(** The checks before the start accept a server of the expected version with UTF-8 and logical
    replication, and report the identity the server has. *)
Lemma preflight_Ok server options report :
  preflight server options = Ok report ->
  (exists n, show_i64 server "server_version_num" = Ok n /\ Z.quot n 10000 = po_expected_major options) /\
  si_database (pr_identity report) = sv_database server /\
  si_in_recovery (pr_identity report) = sv_in_recovery server /\
  parse_uint u64_max (sv_system_identifier server) = Some (si_system_identifier (pr_identity report)) /\
  si_timeline (pr_identity report) = sv_timeline server /\
  pr_citus_version report = sv_citus_version server /\
  (po_require_logical_replication options = true -> eq_ignore_ascii_case (pr_wal_level report) "logical" = true).
Proof.
  unfold preflight. intros H. apply bind_Ok in H as (n & Hn & H).
  destruct (Z.eqb_spec (Z.quot n 10000) (po_expected_major options)) as [Hm|]; [|done]. cbn [negb] in H.
  apply bind_Ok in H as (sv & _ & H). apply bind_Ok in H as (enc & _ & H).
  destruct (eq_ignore_ascii_case enc "UTF8"); [|done]. cbn [negb] in H.
  apply bind_Ok in H as (wal & _ & H). destruct (_ && negb (eq_ignore_ascii_case wal "logical")) eqn:Hw; [done|].
  do 4 (apply bind_Ok in H as (? & _ & H)). destruct (_ && _) in H; [done|]. destruct (_ || _) in H; [done|].
  apply bind_Ok in H as (sysid & Hs & H). apply ok_or_Ok in Hs.
  apply bind_Ok in H as (tl & Htl & H). apply parse_u32_value_Ok in Htl as [-> _]. injection H as <-. cbn.
  split_and!; try done; [by exists n|]. intros Hr. rewrite Hr in Hw. cbn in Hw. by apply negb_false_iff in Hw.
Qed.

(** ** Witnesses *)

Definition example_column (relation : Z) (schema table : string) (attnum : Z) (name : string) (type_oid : Z)
    (pk : option Z) : ColumnRow :=
  mkColumnRow relation schema table "r" false attnum name type_oid (-1) true EmptyString EmptyString "d" pk
    None None "{}".
Definition example_type_rows : list TypeRow :=
  [mkTypeRow 23 "pg_catalog" "int4" "b" None None []; mkTypeRow 25 "pg_catalog" "text" "b" None None [];
   mkTypeRow 16390 "public" "quantity" "d" (Some 23%Z) None []].
Definition example_settings : gmap string string :=
  list_to_map [("server_version_num", "180001"); ("server_version", "18.1"); ("server_encoding", "UTF8");
               ("wal_level", "logical"); ("max_replication_slots", "10"); ("max_wal_senders", "10");
               ("logical_decoding_work_mem", "64MB"); ("max_slot_wal_keep_size", "-1")].
Definition example_column_rows : list ColumnRow :=
  [example_column 7 "public" "items" 1 "id" 23 (Some 1%Z); example_column 7 "public" "items" 2 "amount" 16390 None;
   example_column 8 "public" "log" 1 "line" 25 None; example_column 9 "pg2cb_meta" "ddl_audit" 1 "event_id" 23 (Some 1%Z)].
Definition example_server : SourceServer :=
  mkSourceServer example_settings "77" 1 "shop" false None example_column_rows [(16390%Z, "CHECK (VALUE >= 0)")]
    example_type_rows ∅ ∅.

Lemma type_resolution_terminates_witness :
  exists all, load_type_descriptors example_server = Ok all /\
    exists d, all !! 16390%Z = Some d /\ resolve_type d all (-1) <> Panic.
Proof.
  destruct (load_type_descriptors example_server) as [all| |] eqn:E; [|by vm_compute in E..].
  exists all. split; [done|]. vm_compute in E. injection E as <-.
  eexists. split; [reflexivity|]. apply type_resolution_terminates.
  intros oid Hc.
  enough (forall a b, tc (needs _) a b -> (b < a)%Z) as Hlt by (specialize (Hlt oid oid Hc); lia).
  intros a b Hab. induction Hab as [a b (d & Hd & H)|a b c (d & Hd & H) _ IH]; [|eapply Z.lt_trans; [exact IH|]].
  all: apply elem_of_map_to_list in Hd; vm_compute in Hd;
    repeat (apply elem_of_cons in Hd as [[= -> ->]|Hd];
            [destruct H as [[H1 H2]|[H1 H2]]; try discriminate; by injection H2 as <-|]);
    by apply elem_of_nil in Hd.
Defined.

Lemma inventory_covers_the_scope_witness :
  exists inventory, inspect_tables example_server CatalogOptions_default = Ok inventory /\
    map rj_name (ti_rejected inventory) = [mkQualifiedName "public" "log"] /\
    Forall supported (ti_supported inventory).
Proof.
  destruct (inspect_tables example_server CatalogOptions_default) as [inventory| |] eqn:E; [|by vm_compute in E..].
  exists inventory. split; [done|]. split.
  - vm_compute in E. by injection E as <-.
  - destruct (inventory_covers_the_scope example_server CatalogOptions_default inventory) as (_ & _ & _ & _ & _ & _ & _ & H).
    + unfold ordered_rows. cbn. repeat first [constructor | done].
    + exact E.
    + apply Forall_forall. exact H.
Defined.

Definition partitioned_row : ColumnRow :=
  mkColumnRow 10 "public" "events" "p" false 1 "id" 23 (-1) true EmptyString EmptyString "d" (Some 1%Z) None None "1 2".
Definition partitioned_server : SourceServer :=
  mkSourceServer example_settings "77" 1 "shop" false None (example_column_rows ++ [partitioned_row]) [] example_type_rows ∅ ∅.

Lemma partitioned_tables_block_the_catalog_witness :
  exists e, inspect_tables partitioned_server CatalogOptions_default = Err e.
Proof.
  destruct (inspect_tables partitioned_server CatalogOptions_default) as [inventory|e|] eqn:E;
    [exfalso|by exists e|by vm_compute in E]. revert E.
  apply (partitioned_tables_block_the_catalog partitioned_server CatalogOptions_default partitioned_row 1 [2%Z]).
  - unfold partitioned_server. cbn. repeat (try (by left); right).
  - by vm_compute.
  - done.
  - by vm_compute.
Defined.
