(* ===== verification/Publication.v ===== *)
(** * Publications and logical slots

    Models [crates/source-postgres/src/publication.rs] on the publications and slots of
    [Catalog.SourceServer].  A statement has its text, which the server may refuse ([refused]),
    and its effect; the reply to a COMMIT may be lost ([lost]), with or without the commit.
    Operations are effects: what was done before a failure remains. *)

From S2P Require Import Prelude Effects Core Decimal Schema Sql Source TargetSchema Settings Catalog.

(** ** Errors as text: [Display for SourceError] *)
Definition SourceError_to_string (e : SourceError) : string :=
  match e with
  | Postgres message => "PostgreSQL query failed: " +:+ message
  | ReplicationPostgres message => "replication query failed: " +:+ message
  | Tls message => "TLS initialization failed: " +:+ message
  | ReplicationProtocol message => "replication protocol error: " +:+ message
  | InvalidSlotSnapshotResponse message => "invalid replication slot snapshot response: " +:+ message
  | SnapshotReadersPending ready expected =>
      "snapshot readers are not ready: " +:+ pretty ready +:+ " of " +:+ pretty expected +:+ " registered"
  | SnapshotReadersComplete expected =>
      "snapshot reader registration is already complete (" +:+ pretty expected +:+ " readers)"
  | SnapshotGuardReleased => "snapshot slot guard has already been released"
  | Contract message => "invalid source contract: " +:+ message
  | Unsupported message => "unsupported source: " +:+ message
  | SourceInvalidIdentifier value => "invalid SQL identifier `" +:+ value +:+ "`"
  | SourceInvalidLsn value => "invalid LSN `" +:+ value +:+ "`"
  | SourceCopy message => "COPY stream failed: " +:+ message
  | SourceDdl message => "DDL installer error: " +:+ message
  | SourceJson message => "JSON encoding failed: " +:+ message
  | SourceIo message => "I/O error: " +:+ message
  end.

(** ** Specifications and states *)

Record PublicationSpec : Type := mkPublicationSpec {
  ps_name : string;
  ps_tables : list QualifiedName;
  ps_publish_via_partition_root : bool;
}.

Record PublicationState : Type := mkPublicationState {
  pst_owner : string;
  pst_all_tables : bool;
  pst_publish_insert : bool;
  pst_publish_update : bool;
  pst_publish_delete : bool;
  pst_publish_truncate : bool;
  pst_publish_via_partition_root : bool;
  pst_publish_generated_columns_stored : bool;
  pst_tables : list QualifiedName;
}.

Record LogicalSlotState : Type := mkLogicalSlotState {
  ls_name : string;
  ls_plugin : string;
  ls_database : option string;
  ls_temporary : bool;
  ls_active : bool;
  ls_confirmed_flush_lsn : option string;
  ls_restart_lsn : option string;
  ls_retained_wal_bytes : option Z;
  ls_safe_wal_size : option Z;
  ls_wal_status : option string;
  ls_invalidation_reason : option string;
  ls_two_phase : bool;
  ls_failover : bool;
  ls_synced : bool;
}.

Record ReplicationCapabilities : Type := mkReplicationCapabilities {
  rc_proto_version : Z;
  rc_messages : bool;
  rc_streaming : bool;
  rc_two_phase : bool;
}.
Definition ReplicationCapabilities_default : ReplicationCapabilities :=
  mkReplicationCapabilities 1 true false false.

Definition ReplicationCapabilities_validate (self : ReplicationCapabilities) : result SourceError unit :=
  if negb (rc_proto_version self =? 1)%Z
  then Err (source_unsupported ("pgoutput protocol version " +:+ pretty (rc_proto_version self)
                                +:+ " is not supported by the pinned decoder"))
  else if negb (rc_messages self)
  then Err (contract "pgoutput messages must be enabled for transactional DDL notices")
  else if rc_streaming self || rc_two_phase self
  then Err (source_unsupported
              "streaming/two-phase logical replication is unavailable; pause and rebuild instead")
  else Ok tt.

Definition validate_name (name : string) : result SourceError unit :=
  if Lsn.is_empty name || contains_char nul name || (63 <? slen name)%Z
  then Err (SourceInvalidIdentifier name) else Ok tt.

Definition validate_lsn (value : string) : result SourceError unit :=
  let? p := ok_or (Lsn.split_once "/" value) (SourceInvalidLsn value) in
  let (high, low) := (p : string * string) in
  if Lsn.is_empty high || Lsn.is_empty low || (8 <? slen low)%Z then Err (SourceInvalidLsn value)
  else
    let? _ := ok_or (Lsn.u32_from_hex high) (SourceInvalidLsn value) in
    let? _ := ok_or (Lsn.u32_from_hex low) (SourceInvalidLsn value) in
    Ok tt.

(** [PublicationSpec::new]: the key of a table is [schema NUL name]. *)
Fixpoint check_listed (seen : gset string) (tables : list QualifiedName) : result SourceError unit :=
  match tables with
  | [] => Ok tt
  | table :: tables =>
      let key := qn_schema table +:+ String nul (qn_name table) in
      if bool_decide (key ∈ seen)
      then Err (contract ("publication table " +:+ QualifiedName_to_string table +:+ " is listed more than once"))
      else check_listed ({[key]} ∪ seen) tables
  end.

Definition PublicationSpec_new (name : string) (tables : list QualifiedName)
    : result SourceError PublicationSpec :=
  let? _ := validate_name name in
  if bool_decide (tables = [])
  then Err (contract "a publication must contain at least one allow-listed table")
  else
    let? _ := check_listed ∅ tables in
    Ok (mkPublicationSpec name tables false).

Definition table_list (tables : list QualifiedName) : result SourceError string :=
  let? parts := try_map (fun table => quote_qualified (qn_schema table) (qn_name table)) tables in
  Ok (join ", " parts).

Definition bool_text (b : bool) : string := if b then "true" else "false".

Definition create_sql (self : PublicationSpec) : result SourceError string :=
  let? tables := table_list (ps_tables self) in
  let? name := source_quote_identifier (ps_name self) in
  Ok ("CREATE PUBLICATION " +:+ name +:+ " FOR TABLE " +:+ tables
      +:+ " WITH (publish = 'insert, update, delete, truncate', publish_via_partition_root = "
      +:+ bool_text (ps_publish_via_partition_root self) +:+ ", publish_generated_columns = 'stored')").

Definition alter_tables_sql (self : PublicationSpec) : result SourceError string :=
  let? tables := table_list (ps_tables self) in
  let? name := source_quote_identifier (ps_name self) in
  Ok ("ALTER PUBLICATION " +:+ name +:+ " SET TABLE " +:+ tables).

(** [sort_by_key(ToString::to_string)], which is stable. *)
Fixpoint insert_by_text (x : QualifiedName) (l : list QualifiedName) : list QualifiedName :=
  match l with
  | [] => [x]
  | y :: l =>
      if bool_decide (String.le (QualifiedName_to_string x) (QualifiedName_to_string y)) then x :: y :: l
      else y :: insert_by_text x l
  end.
Fixpoint sort_by_text (l : list QualifiedName) : list QualifiedName :=
  match l with [] => [] | x :: l => insert_by_text x (sort_by_text l) end.

Definition membership_matches (actual expected : list QualifiedName) : bool :=
  bool_decide (sort_by_text actual = sort_by_text expected).

Definition not_owner (expected_owner : option string) (state : PublicationState) : bool :=
  match expected_owner with Some owner => negb (bool_decide (pst_owner state = owner)) | None => false end.
Definition owner_error (spec : PublicationSpec) (expected_owner : option string) (state : PublicationState)
    : SourceError :=
  contract ("publication " +:+ ps_name spec +:+ " is owned by " +:+ pst_owner state +:+ ", expected "
            +:+ default EmptyString expected_owner).
Definition publishes_rows (state : PublicationState) : bool :=
  pst_publish_insert state && pst_publish_update state && pst_publish_delete state && pst_publish_truncate state.
Definition root_error (spec : PublicationSpec) (state : PublicationState) : SourceError :=
  contract ("publication " +:+ ps_name spec +:+ " has publish_via_partition_root="
            +:+ bool_text (pst_publish_via_partition_root state) +:+ ", expected "
            +:+ bool_text (ps_publish_via_partition_root spec)).

Definition validate_publication_state (state : PublicationState) (spec : PublicationSpec)
    (expected_owner : option string) : result SourceError unit :=
  if pst_all_tables state
  then Err (contract ("publication " +:+ ps_name spec +:+ " unexpectedly includes all tables"))
  else if not_owner expected_owner state then Err (owner_error spec expected_owner state)
  else if negb (publishes_rows state)
  then Err (contract ("publication " +:+ ps_name spec +:+ " does not publish the required row operations"))
  else if negb (Bool.eqb (pst_publish_via_partition_root state) (ps_publish_via_partition_root spec))
  then Err (root_error spec state)
  else if negb (pst_publish_generated_columns_stored state)
  then Err (contract ("publication " +:+ ps_name spec +:+ " does not publish stored generated columns"))
  else if negb (membership_matches (pst_tables state) (ps_tables spec))
  then Err (contract ("publication " +:+ ps_name spec +:+ " table allow-list differs from configuration"))
  else Ok tt.

(** ** The server *)

Definition with_publications (f : gmap string PublicationRow -> gmap string PublicationRow) (s : SourceServer)
    : SourceServer :=
  mkSourceServer (sv_settings s) (sv_system_identifier s) (sv_timeline s) (sv_database s) (sv_in_recovery s)
    (sv_citus_version s) (sv_columns s) (sv_domain_constraints s) (sv_types s) (f (sv_publications s)) (sv_slots s).
Definition with_slots (f : gmap string SlotRow -> gmap string SlotRow) (s : SourceServer) : SourceServer :=
  mkSourceServer (sv_settings s) (sv_system_identifier s) (sv_timeline s) (sv_database s) (sv_in_recovery s)
    (sv_citus_version s) (sv_columns s) (sv_domain_constraints s) (sv_types s) (sv_publications s) (f (sv_slots s)).

Section server.
(** The role that creates a publication owns it. *)
Context (refused : string -> option string) (lost : option (string * bool)) (role : string).

Definition statement (sql : string) (effect : SourceServer -> result string SourceServer) (s : SourceServer)
    : result SourceError SourceServer :=
  match refused sql with
  | Some message => Err (Postgres message)
  | None => map_err Postgres (effect s)
  end.

Definition execute_internal_ddl (ddl : string) (effect : SourceServer -> result string SourceServer)
    : Eff SourceServer SourceError unit := fun s =>
  let transaction :=
    let? _ := statement "BEGIN" Ok s in
    let? _ := statement "SELECT set_config('pg2cb.internal_ddl', 'on', true)" Ok s in
    statement ddl effect s in
  match transaction with
  | Err e => (Err e, s)
  | Panic => (Panic, s)
  | Ok committed =>
      match lost with
      | Some (message, executed) => (Err (Postgres message), if executed : bool then committed else s)
      | None => (Ok tt, committed)
      end
  end.

Definition pair_of (q : QualifiedName) : string * string := (qn_schema q, qn_name q).

(** [CREATE PUBLICATION], [ALTER PUBLICATION .. SET (..)] and [.. SET TABLE ..]: the last replaces
    all members, schemas included, by whole tables. *)
Definition create_publication (spec : PublicationSpec) (s : SourceServer) : result string SourceServer :=
  match sv_publications s !! ps_name spec with
  | Some _ => Err ("publication already exists: " +:+ ps_name spec)
  | None =>
      Ok (with_publications
            (insert (ps_name spec)
               (mkPublicationRow role false true true true true (ps_publish_via_partition_root spec) true
                  (map pair_of (ps_tables spec)) ∅ ∅ [])) s)
  end.
Definition alter_publication (name : string) (f : PublicationRow -> PublicationRow) (s : SourceServer)
    : result string SourceServer :=
  match sv_publications s !! name with
  | Some row => Ok (with_publications (insert name (f row)) s)
  | None => Err ("publication does not exist: " +:+ name)
  end.
Definition set_generated_stored (row : PublicationRow) : PublicationRow :=
  mkPublicationRow (pb_owner row) (pb_all_tables row) (pb_insert row) (pb_update row) (pb_delete row)
    (pb_truncate row) (pb_via_partition_root row) true (pb_tables row) (pb_row_filters row)
    (pb_column_lists row) (pb_schemas row).
Definition set_tables (tables : list QualifiedName) (row : PublicationRow) : PublicationRow :=
  mkPublicationRow (pb_owner row) (pb_all_tables row) (pb_insert row) (pb_update row) (pb_delete row)
    (pb_truncate row) (pb_via_partition_root row) (pb_generated_stored row) (map pair_of tables)
    ∅ ∅ [].

(** [ORDER BY n.nspname, c.relname] is the order of type [name], by bytes. *)
Definition pair_le (a b : string * string) : bool :=
  if bool_decide (a.1 = b.1) then bool_decide (String.le a.2 b.2) else bool_decide (String.le a.1 b.1).
Fixpoint insert_pair (x : string * string) (l : list (string * string)) : list (string * string) :=
  match l with
  | [] => [x]
  | y :: l => if pair_le x y then x :: y :: l else y :: insert_pair x l
  end.
Definition order_pairs : list (string * string) -> list (string * string) := foldr insert_pair [].

Definition state_of_row (row : PublicationRow) : result SourceError PublicationState :=
  let? tables := try_map (fun p => core_contract (QualifiedName_new p.1 p.2)) (order_pairs (pb_tables row)) in
  Ok (mkPublicationState (pb_owner row) (pb_all_tables row) (pb_insert row) (pb_update row) (pb_delete row)
        (pb_truncate row) (pb_via_partition_root row) (pb_generated_stored row) tables).

Definition inspect_publication (s : SourceServer) (name : string) : result SourceError (option PublicationState) :=
  let? _ := validate_name name in
  match sv_publications s !! name with
  | None => Ok None
  | Some row => let? state := state_of_row row in Ok (Some state)
  end.

Definition inspected (name : string) : Eff SourceServer SourceError (option PublicationState) :=
  do! s := get in pure (inspect_publication s name).

(** The checks of a publication that exists, before it is changed. *)
Definition check_existing (spec : PublicationSpec) (expected_owner : option string) (state : PublicationState)
    : result SourceError unit :=
  if pst_all_tables state
  then Err (contract ("publication " +:+ ps_name spec +:+ " is not an explicit allow-list"))
  else if not_owner expected_owner state then Err (owner_error spec expected_owner state)
  else if negb (publishes_rows state)
  then Err (contract ("publication " +:+ ps_name spec +:+ " does not publish the required row operations"))
  else if negb (Bool.eqb (pst_publish_via_partition_root state) (ps_publish_via_partition_root spec))
  then Err (root_error spec state)
  else Ok tt.

Definition reconcile_publication (spec : PublicationSpec) (state : PublicationState)
    : Eff SourceServer SourceError unit :=
  do! _ :=
    if negb (pst_publish_generated_columns_stored state) then
      do! name := pure (source_quote_identifier (ps_name spec)) in
      execute_internal_ddl ("ALTER PUBLICATION " +:+ name +:+ " SET (publish_generated_columns = 'stored')")
        (alter_publication (ps_name spec) set_generated_stored)
    else eff_ret tt in
  if negb (membership_matches (pst_tables state) (ps_tables spec)) then
    do! sql := pure (alter_tables_sql spec) in
    execute_internal_ddl sql (alter_publication (ps_name spec) (set_tables (ps_tables spec)))
  else eff_ret tt.

Definition ensure_publication (spec : PublicationSpec) (expected_owner : option string)
    : Eff SourceServer SourceError PublicationState :=
  do! existing := inspected (ps_name spec) in
  do! _ :=
    match existing with
    | Some state =>
        do! _ := pure (check_existing spec expected_owner state) in
        reconcile_publication spec state
    | None =>
        do! sql := pure (create_sql spec) in
        execute_internal_ddl sql (create_publication spec)
    end in
  do! state := inspected (ps_name spec) in
  do! state := pure (ok_or state (contract "publication disappeared after creation")) in
  do! _ := pure (validate_publication_state state spec expected_owner) in
  eff_ret state.

Definition validate_publication (s : SourceServer) (spec : PublicationSpec) (expected_owner : option string)
    : result SourceError PublicationState :=
  let? state := inspect_publication s (ps_name spec) in
  let? state := ok_or state (contract ("publication " +:+ ps_name spec +:+ " is missing")) in
  let? _ := validate_publication_state state spec expected_owner in
  Ok state.

(** *** Slots *)

Definition parse_optional_nonnegative_u64 (value : option string) (label : string)
    : result SourceError (option Z) :=
  match value with
  | None => Ok None
  | Some value =>
      let? n := ok_or (parse_uint u64_max value)
        (contract (label +:+ " value `" +:+ value +:+ "` is not a non-negative integer")) in
      Ok (Some n)
  end.

Definition slot_state (name : string) (row : SlotRow) : result SourceError LogicalSlotState :=
  let? retained := parse_optional_nonnegative_u64 (sl_retained_wal row) "retained WAL" in
  let? safe := parse_optional_nonnegative_u64 (sl_safe_wal_size row) "safe WAL size" in
  Ok (mkLogicalSlotState name (sl_plugin row) (sl_database row) (sl_temporary row) (sl_active row)
        (sl_confirmed_flush_lsn row) (sl_restart_lsn row) retained safe (sl_wal_status row)
        (sl_invalidation_reason row) (sl_two_phase row) (sl_failover row) (sl_synced row)).

Definition inspect_logical_slot (s : SourceServer) (slot_name : string)
    : result SourceError (option LogicalSlotState) :=
  let? _ := validate_name slot_name in
  match sv_slots s !! slot_name with
  | None => Ok None
  | Some row => let? state := slot_state slot_name row in Ok (Some state)
  end.

(** [pg_create_logical_replication_slot], at the position [lsn] of the server. *)
Definition new_slot (plugin : string) (s : SourceServer) (lsn : string) : SlotRow :=
  mkSlotRow plugin (Some (sv_database s)) false false (Some lsn) (Some lsn) (Some "0") None (Some "reserved") None
    false false false.
Definition create_slot (slot_name plugin lsn : string) (s : SourceServer) : result string SourceServer :=
  match sv_slots s !! slot_name with
  | Some _ => Err ("replication slot already exists: " +:+ slot_name)
  | None => Ok (with_slots (insert slot_name (new_slot plugin s lsn)) s)
  end.
Definition drop_slot (slot_name : string) (s : SourceServer) : result string SourceServer :=
  match sv_slots s !! slot_name with
  | Some row =>
      if sl_active row then Err ("replication slot is active: " +:+ slot_name)
      else Ok (with_slots (delete slot_name) s)
  | None => Err ("replication slot does not exist: " +:+ slot_name)
  end.

Definition contains_quote (s : string) : bool := contains_char squote s.

(** A statement outside a transaction; the reply to it may be lost. *)
Definition autocommit (sql : string) (effect : SourceServer -> result string SourceServer)
    : Eff SourceServer SourceError unit := fun s =>
  match statement sql effect s with
  | Ok committed =>
      match lost with
      | Some (message, executed) => (Err (Postgres message), if executed : bool then committed else s)
      | None => (Ok tt, committed)
      end
  | Err e => (Err e, s)
  | Panic => (Panic, s)
  end.

Definition create_logical_slot (slot_name plugin lsn : string) : Eff SourceServer SourceError (option string) :=
  do! _ := pure (validate_name slot_name) in
  if Lsn.is_empty plugin || contains_char nul plugin || contains_quote plugin
  then eff_err (contract "invalid logical decoding plugin name")
  else
    do! _ := autocommit "SELECT lsn::text FROM pg_create_logical_replication_slot($1, $2)"
               (create_slot slot_name plugin lsn) in
    eff_ret (Some lsn).

Definition drop_logical_slot (slot_name : string) : Eff SourceServer SourceError unit :=
  do! _ := pure (validate_name slot_name) in
  autocommit "SELECT pg_drop_replication_slot($1)" (drop_slot slot_name).
End server.

Definition start_replication_sql_with_capabilities (slot_name start_lsn publication_name : string)
    (capabilities : ReplicationCapabilities) : result SourceError string :=
  let? _ := validate_name slot_name in
  let? _ := validate_name publication_name in
  let? _ := validate_lsn start_lsn in
  let? _ := ReplicationCapabilities_validate capabilities in
  let? slot := source_quote_identifier slot_name in
  let? version := source_quote_literal (pretty (rc_proto_version capabilities)) in
  let? publication := source_quote_literal publication_name in
  let? messages := source_quote_literal (bool_text (rc_messages capabilities)) in
  let q s := String dquote (s +:+ String dquote EmptyString) in
  Ok ("START_REPLICATION SLOT " +:+ slot +:+ " LOGICAL " +:+ start_lsn +:+ " (" +:+ q "proto_version" +:+ " "
      +:+ version +:+ ", " +:+ q "publication_names" +:+ " " +:+ publication +:+ ", " +:+ q "messages" +:+ " "
      +:+ messages +:+ ")").

Definition start_replication_sql (slot_name start_lsn publication_name : string) : result SourceError string :=
  start_replication_sql_with_capabilities slot_name start_lsn publication_name ReplicationCapabilities_default.

(** ** Lemmas *)

Definition text_le (a b : QualifiedName) : Prop := String.le (QualifiedName_to_string a) (QualifiedName_to_string b).

Lemma insert_by_text_perm x l : insert_by_text x l ≡ₚ x :: l.
Proof.
  induction l as [|y l IH]; cbn; [done|]. case_bool_decide; [done|]. rewrite IH. apply Permutation_swap.
Qed.
Lemma sort_by_text_perm l : sort_by_text l ≡ₚ l.
Proof. induction l as [|x l IH]; cbn; [done|]. by rewrite insert_by_text_perm, IH. Qed.

Lemma text_le_trans : Transitive text_le.
Proof. intros x y z. unfold text_le. apply (transitivity (R := String.le)). Qed.

Lemma insert_by_text_sorted x l : Sorted text_le l -> Sorted text_le (insert_by_text x l).
Proof.
  induction 1 as [|y l Hs IH Hhd]; cbn; [by repeat constructor|].
  case_bool_decide as Hle; [by repeat constructor|].
  assert (text_le y x). { destruct (total String.le (QualifiedName_to_string x) (QualifiedName_to_string y)); done. }
  constructor; [done|]. destruct Hhd as [|z l Hz]; cbn; [by constructor|]. case_bool_decide; by constructor.
Qed.
Lemma sort_by_text_sorted l : StronglySorted text_le (sort_by_text l).
Proof.
  apply Sorted_StronglySorted; [apply text_le_trans|].
  induction l; cbn; [constructor|by apply insert_by_text_sorted].
Qed.

(** A match of memberships is an equality of sets: always sound, and complete when no two
    tables have the same text. *)
Lemma membership_perm actual expected : membership_matches actual expected = true -> actual ≡ₚ expected.
Proof.
  unfold membership_matches. rewrite bool_decide_eq_true. intros H.
  by rewrite <-(sort_by_text_perm actual), H, sort_by_text_perm.
Qed.

Lemma perm_membership actual expected :
  NoDup (map QualifiedName_to_string expected) -> actual ≡ₚ expected ->
  membership_matches actual expected = true.
Proof.
  intros Hnd Hp. unfold membership_matches. apply bool_decide_eq_true.
  apply (StronglySorted_unique_strong text_le); try apply sort_by_text_sorted.
  - intros x y Hx Hy Hxy Hyx. rewrite sort_by_text_perm, Hp in Hx. rewrite sort_by_text_perm in Hy.
    assert (Ht : QualifiedName_to_string x = QualifiedName_to_string y) by by apply (anti_symm String.le).
    apply list_elem_of_lookup in Hx as [i Hi]. apply list_elem_of_lookup in Hy as [j Hj].
    assert (i = j) as ->; [|by congruence].
    eapply (NoDup_lookup _ i j (QualifiedName_to_string x) Hnd); rewrite list_lookup_fmap;
      [by rewrite Hi|rewrite Hj; cbn; by rewrite Ht].
  - by rewrite !sort_by_text_perm.
Qed.

Lemma insert_pair_perm x l : insert_pair x l ≡ₚ x :: l.
Proof. induction l as [|y l IH]; cbn; [done|]. destruct (pair_le x y); [done|]. rewrite IH. apply Permutation_swap. Qed.
Lemma order_pairs_perm l : order_pairs l ≡ₚ l.
Proof. unfold order_pairs. induction l as [|x l IH]; cbn; [done|]. by rewrite insert_pair_perm, IH. Qed.

Lemma pair_of_inj a b : pair_of a = pair_of b -> a = b.
Proof. destruct a, b. unfold pair_of. cbn. by intros [= -> ->]. Qed.

(** The row of a publication that carries what [spec] asks for, as far as [inspect_publication]
    can see. *)
Record exact (spec : PublicationSpec) (expected_owner : option string) (row : PublicationRow) : Prop := {
  ex_explicit : pb_all_tables row = false;
  ex_owner : forall owner, expected_owner = Some owner -> pb_owner row = owner;
  ex_operations : pb_insert row = true /\ pb_update row = true /\ pb_delete row = true /\ pb_truncate row = true;
  ex_root : pb_via_partition_root row = ps_publish_via_partition_root spec;
  ex_generated : pb_generated_stored row = true;
  ex_tables : pb_tables row ≡ₚ map pair_of (ps_tables spec);
}.

(** What it cannot see. *)
Definition restrictions (row : PublicationRow) :=
  (pb_row_filters row, pb_column_lists row, pb_schemas row).
(** The listed tables are published whole, and nothing else. *)
Definition unrestricted (row : PublicationRow) : Prop := restrictions row = (∅, ∅, []).

Lemma state_of_row_Ok row state :
  state_of_row row = Ok state ->
  pb_tables row ≡ₚ map pair_of (pst_tables state) /\
  state = mkPublicationState (pb_owner row) (pb_all_tables row) (pb_insert row) (pb_update row) (pb_delete row)
            (pb_truncate row) (pb_via_partition_root row) (pb_generated_stored row) (pst_tables state).
Proof.
  unfold state_of_row. intros H. apply bind_Ok in H as (tables & Ht & H). injection H as <-. cbn. split; [|done].
  apply try_map_Ok in Ht. rewrite <-(order_pairs_perm (pb_tables row)).
  enough (order_pairs (pb_tables row) = map pair_of tables) as -> by done.
  induction Ht as [|[s n] q l k Hq _ IH]; cbn; [done|]. rewrite IH. f_equal.
  unfold core_contract in Hq. by apply map_err_Ok, QualifiedName_new_Ok in Hq as (_ & _ & ->).
Qed.

Lemma not_owner_false expected_owner state :
  not_owner expected_owner state = false -> forall owner, expected_owner = Some owner -> pst_owner state = owner.
Proof. unfold not_owner. intros H owner ->. apply negb_false_iff, bool_decide_eq_true in H. done. Qed.

Lemma validate_state_exact spec expected_owner row state :
  state_of_row row = Ok state -> validate_publication_state state spec expected_owner = Ok tt ->
  exact spec expected_owner row.
Proof.
  intros [Hp He]%state_of_row_Ok H. unfold validate_publication_state in H.
  destruct (pst_all_tables state) eqn:H1; [done|]. destruct (not_owner _ _) eqn:H2; [done|].
  destruct (publishes_rows state) eqn:H3; [|done]. destruct (Bool.eqb _ _) eqn:H4; [|done].
  destruct (pst_publish_generated_columns_stored state) eqn:H5; [|done].
  destruct (membership_matches _ _) eqn:H6; [|done]. apply membership_perm in H6.
  apply Bool.eqb_prop in H4. unfold publishes_rows in H3.
  apply andb_true_iff in H3 as [[[Hi Hu]%andb_true_iff Hd]%andb_true_iff Ht].
  rewrite He in *. cbn in *. split; try done.
  - intros owner Ho. pose proof (not_owner_false _ _ H2 owner Ho). done.
  - by rewrite Hp, H6.
Qed.

(** The same, as the answer of [inspect_publication]. *)
Lemma inspect_Some s name state :
  inspect_publication s name = Ok (Some state) ->
  exists row, sv_publications s !! name = Some row /\ state_of_row row = Ok state.
Proof.
  unfold inspect_publication. intros H. apply bind_Ok in H as (u & _ & H).
  destruct (sv_publications s !! name) as [row|]; [|done]. apply bind_Ok in H as (st & Hs & H).
  injection H as <-. by exists row.
Qed.

(** Only the publication [name] may differ. *)
Definition only_publication (name : string) (s s' : SourceServer) : Prop :=
  exists f, s' = with_publications f s /\
    forall n, n <> name -> sv_publications s' !! n = sv_publications s !! n.

Lemma only_publication_refl name s : only_publication name s s.
Proof. exists id. split; [by destruct s|done]. Qed.
Lemma only_publication_trans name s1 s2 s3 :
  only_publication name s1 s2 -> only_publication name s2 s3 -> only_publication name s1 s3.
Proof.
  intros (f & -> & Hf) (g & -> & Hg). exists (g ∘ f). split; [done|]. intros n Hn.
  rewrite Hg by done. by apply Hf.
Qed.
Lemma only_publication_slots name s s' : only_publication name s s' -> sv_slots s' = sv_slots s.
Proof. by intros (f & -> & _). Qed.

Section operations.
Context (refused : string -> option string) (lost : option (string * bool)) (role : string).

Lemma execute_internal_ddl_keeps name ddl effect s0 :
  (forall s s', effect s = Ok s' -> only_publication name s s') ->
  preserves (only_publication name s0) (execute_internal_ddl refused lost ddl effect).
Proof.
  intros He s r s' Hs H. unfold execute_internal_ddl in H.
  destruct (statement refused "BEGIN" Ok s) as [s1| |]; cbn [mbind result_bind] in H; [|by injection H as <- <-..].
  destruct (statement refused "SELECT set_config('pg2cb.internal_ddl', 'on', true)" Ok s) as [s2| |];
    cbn [mbind result_bind] in H; [|by injection H as <- <-..].
  destruct (statement refused ddl effect s) as [c| |] eqn:E; [|by injection H as <- <-..].
  assert (only_publication name s c) as Hc.
  { unfold statement in E. destruct (refused ddl); [done|]. apply map_err_Ok in E. by apply He. }
  destruct lost as [[m []]|]; injection H as <- <-; try done; by eapply only_publication_trans.
Qed.

Lemma create_publication_only spec s s' :
  create_publication role spec s = Ok s' -> only_publication (ps_name spec) s s'.
Proof.
  unfold create_publication. destruct (_ !! _); [done|]. injection 1 as <-. eexists. split; [reflexivity|].
  intros n Hn. cbn. by rewrite lookup_insert_ne.
Qed.
Lemma alter_publication_only name f s s' :
  alter_publication name f s = Ok s' -> only_publication name s s'.
Proof.
  unfold alter_publication. destruct (_ !! _); [|done]. injection 1 as <-. eexists. split; [reflexivity|].
  intros n Hn. cbn. by rewrite lookup_insert_ne.
Qed.

Lemma ensure_keeps spec owner s0 :
  preserves (only_publication (ps_name spec) s0) (ensure_publication refused lost role spec owner).
Proof.
  assert (Hi : preserves (only_publication (ps_name spec) s0) (inspected (ps_name spec))).
  { apply preserves_bind; auto with eff. }
  assert (Hr : forall state, preserves (only_publication (ps_name spec) s0)
                               (reconcile_publication refused lost spec state)).
  { intros state. apply preserves_bind.
    - apply ensures_if; intros _; [|apply preserves_ret]. apply preserves_bind; [auto with eff|]. intros q.
      apply execute_internal_ddl_keeps. apply alter_publication_only.
    - intros _. apply ensures_if; intros _; [|apply preserves_ret].
      apply preserves_bind; [auto with eff|]. intros q.
      apply execute_internal_ddl_keeps. apply alter_publication_only. }
  apply preserves_bind; [done|]. intros existing. apply preserves_bind.
  - destruct existing as [state|]; (apply preserves_bind; [auto with eff|]).
    + intros _. apply Hr.
    + intros sql. apply execute_internal_ddl_keeps. apply create_publication_only.
  - intros _. apply preserves_bind; [done|]. intros state. apply preserves_bind; [auto with eff|].
    intros st. apply preserves_bind; auto with eff.
Qed.

Lemma inspected_Ok name s r s' : inspected name s = (r, s') -> r = inspect_publication s name /\ s' = s.
Proof. unfold inspected, eff_bind, get, pure. by intros [= <- <-]. Qed.

Lemma execute_internal_ddl_Ok ddl effect s u s' :
  execute_internal_ddl refused lost ddl effect s = (Ok u, s') -> effect s = Ok s'.
Proof.
  unfold execute_internal_ddl. intros H. destruct (_ ≫= _) as [c|e|] eqn:E; [|done..].
  destruct lost as [[m []]|]; [done..|]. injection H as _ <-.
  apply bind_Ok in E as (? & _ & E). apply bind_Ok in E as (? & _ & E).
  unfold statement in E. destruct (refused ddl); [done|]. by apply map_err_Ok in E.
Qed.

Lemma alter_publication_Ok name f s s' row :
  sv_publications s !! name = Some row -> alter_publication name f s = Ok s' ->
  sv_publications s' !! name = Some (f row).
Proof. unfold alter_publication. intros ->. injection 1 as <-. cbn. by rewrite lookup_insert_eq. Qed.

(** Reconciling either leaves the members alone, or lists the tables anew. *)
Lemma reconciled spec state s u s' old :
  sv_publications s !! ps_name spec = Some old -> state_of_row old = Ok state ->
  reconcile_publication refused lost spec state s = (Ok u, s') ->
  exists row, sv_publications s' !! ps_name spec = Some row /\
    (unrestricted row \/ (pb_tables old ≡ₚ map pair_of (ps_tables spec) /\ restrictions row = restrictions old)).
Proof.
  intros Hold Hst H. unfold reconcile_publication in H. apply eff_bind_Ok in H as (v & s1 & H1 & H).
  assert (exists row1, sv_publications s1 !! ps_name spec = Some row1 /\ restrictions row1 = restrictions old)
    as (row1 & Hr1 & He1).
  { destruct (negb (pst_publish_generated_columns_stored state)).
    - apply eff_bind_Ok in H1 as (name & s2 & Hn & H1). injection Hn as _ <-.
      apply execute_internal_ddl_Ok in H1. eexists. split; [by eapply alter_publication_Ok|done].
    - injection H1 as _ <-. by exists old. }
  destruct (membership_matches _ _) eqn:Hm; cbn [negb] in H.
  - injection H as _ <-. exists row1. split; [done|right]. split; [|done].
    apply membership_perm in Hm. apply state_of_row_Ok in Hst as [Hp _]. by rewrite Hp, Hm.
  - apply eff_bind_Ok in H as (sql & s2 & Hn & H). injection Hn as _ <-.
    apply execute_internal_ddl_Ok in H. eexists. split; [by eapply alter_publication_Ok|by left].
Qed.

Lemma ensure_published spec owner s state s' :
  ensure_publication refused lost role spec owner s = (Ok state, s') ->
  exists row, sv_publications s' !! ps_name spec = Some row /\ state_of_row row = Ok state /\ exact spec owner row /\
    (unrestricted row \/ exists old, sv_publications s !! ps_name spec = Some old /\
       pb_tables old ≡ₚ map pair_of (ps_tables spec) /\ restrictions row = restrictions old).
Proof.
  unfold ensure_publication. intros H. apply eff_bind_Ok in H as (existing & s1 & H1 & H).
  apply inspected_Ok in H1 as [Hex ->].
  apply eff_bind_Ok in H as (u & s2 & H2 & H). apply eff_bind_Ok in H as (o & s3 & H3 & H).
  apply inspected_Ok in H3 as [Ho ->]. apply eff_bind_Ok in H as (st & s4 & Hst & H).
  injection Hst as Hst <-. apply ok_or_Ok in Hst as ->. apply eff_bind_Ok in H as ([] & s5 & Hv & H).
  injection Hv as Hv <-. injection H as <- <-. symmetry in Ho, Hex. apply inspect_Some in Ho as (row & Hr & Hs).
  exists row. split_and!; [done..|by eapply validate_state_exact|]. destruct existing as [seen|].
  - apply inspect_Some in Hex as (old & Hold & Hseen). apply eff_bind_Ok in H2 as (v & s6 & Hc & H2).
    injection Hc as _ <-. destruct (reconciled _ _ _ _ _ _ Hold Hseen H2) as (row' & Hr' & Hres).
    rewrite Hr in Hr'. injection Hr' as <-. destruct Hres as [?|[? ?]]; eauto.
  - apply eff_bind_Ok in H2 as (sql & s6 & Hc & H2). injection Hc as _ <-.
    apply execute_internal_ddl_Ok in H2. unfold create_publication in H2.
    destruct (sv_publications s !! ps_name spec); [done|]. injection H2 as <-. cbn in Hr.
    rewrite lookup_insert_eq in Hr. injection Hr as <-. by left.
Qed.
End operations.

(** A row with valid tables is read as the state with those tables. *)
Lemma exact_state spec row :
  pb_tables row ≡ₚ map pair_of (ps_tables spec) -> Forall valid_name (ps_tables spec) ->
  exists tables, state_of_row row = Ok (mkPublicationState (pb_owner row) (pb_all_tables row)
              (pb_insert row) (pb_update row) (pb_delete row) (pb_truncate row) (pb_via_partition_root row)
              (pb_generated_stored row) tables) /\ tables ≡ₚ ps_tables spec.
Proof.
  intros H6 Hvalid. destruct (try_map_all_Ok (fun p => core_contract (QualifiedName_new p.1 p.2))
                                (order_pairs (pb_tables row))) as [k Hk].
  { intros p Hp. rewrite order_pairs_perm, H6 in Hp. apply list_elem_of_fmap in Hp as (q & -> & Hq).
    rewrite Forall_forall in Hvalid. destruct (Hvalid q Hq) as [Hqs Hqn]. exists q. unfold core_contract.
    apply map_err_Ok, QualifiedName_new_Ok. split_and!; [done..|]. by destruct q. }
  eassert (Hs : state_of_row row = Ok _) by (unfold state_of_row; rewrite Hk; reflexivity).
  exists k. split; [done|]. apply state_of_row_Ok in Hs as [Hperm _]. cbn in Hperm. rewrite H6 in Hperm.
  apply (Permutation_map (fun p => mkQualifiedName p.1 p.2)) in Hperm. rewrite !map_map in Hperm.
  assert (Hid : forall l, map (fun q => mkQualifiedName (pair_of q).1 (pair_of q).2) l = l).
  { intros l. rewrite <-(map_id l) at 2. apply map_ext. by intros []. }
  by rewrite !Hid in Hperm.
Qed.

(** ** Properties *)

(** What the checks say of a publication that carries the specification. *)
Lemma exact_validates s spec owner row :
  NoDup (map QualifiedName_to_string (ps_tables spec)) -> Forall valid_name (ps_tables spec) ->
  validate_name (ps_name spec) = Ok tt ->
  sv_publications s !! ps_name spec = Some row -> exact spec owner row ->
  exists state, inspect_publication s (ps_name spec) = Ok (Some state) /\
    check_existing spec owner state = Ok tt /\ pst_publish_generated_columns_stored state = true /\
    membership_matches (pst_tables state) (ps_tables spec) = true /\
    validate_publication_state state spec owner = Ok tt.
Proof.
  intros Hnd Hvalid Hname Hr [H1 H2 (Hi & Hu & Hd & Ht) H4 H5 H6].
  destruct (exact_state spec row H6 Hvalid) as (tables & Hs & Hp).
  unfold inspect_publication. rewrite Hname. cbn. rewrite Hr, Hs. cbn. eexists. split; [reflexivity|].
  unfold check_existing, validate_publication_state, publishes_rows. cbn. rewrite H1, Hi, Hu, Hd, Ht, H4, H5.
  assert (not_owner owner (mkPublicationState (pb_owner row) false true true true true
            (ps_publish_via_partition_root spec) true tables) = false) as ->.
  { unfold not_owner. destruct owner as [o|]; [|done]. cbn. rewrite (H2 o eq_refl). by rewrite bool_decide_true. }
  cbn. rewrite Bool.eqb_reflx, (perm_membership tables) by done. done.
Qed.

(** C25: When the publication is ensured, the server's publication carries the specification:
    it lists its tables and no others, publishes all row operations and stored generated
    columns, and has the expected owner. What it publishes beyond the list is exact when the
    program has written the list: no row filter, no column list, no schema. But a publication
    that listed these tables before keeps the row filters, column lists and schemas it had,
    and one that carries the specification is accepted as it is whatever they are, since the
    program never reads them. Whatever the result, no other publication and no slot changes,
    and a publication of another kind - of all tables, of another owner, without an operation,
    or through the partition root - is reported and left alone. *)
Theorem ensured_publication_is_exact refused lost role spec owner s r s' :
  ensure_publication refused lost role spec owner s = (r, s') ->
  only_publication (ps_name spec) s s' /\
  (forall state, r = Ok state -> exists row, sv_publications s' !! ps_name spec = Some row /\ exact spec owner row /\
     (unrestricted row \/ exists old, sv_publications s !! ps_name spec = Some old /\
        pb_tables old ≡ₚ map pair_of (ps_tables spec) /\ restrictions row = restrictions old)) /\
  (forall row, sv_publications s !! ps_name spec = Some row -> exact spec owner row ->
     NoDup (map QualifiedName_to_string (ps_tables spec)) -> Forall valid_name (ps_tables spec) ->
     validate_name (ps_name spec) = Ok tt -> (exists state, r = Ok state) /\ s' = s) /\
  (forall state e, inspect_publication s (ps_name spec) = Ok (Some state) ->
     check_existing spec owner state = Err e -> r = Err e /\ s' = s).
Proof.
  intros H. split_and!.
  - eapply (ensure_keeps refused lost role spec owner s); [apply only_publication_refl|exact H].
  - intros state ->. destruct (ensure_published _ _ _ _ _ _ _ _ H) as (row & ? & _ & ? & ?). by exists row.
  - intros row Hr Hex Hnd Hvalid Hname.
    destruct (exact_validates _ _ _ _ Hnd Hvalid Hname Hr Hex) as (state & Hi & Hc & Hg & Hm & Hv).
    unfold ensure_publication, reconcile_publication, inspected, eff_bind, get, pure, eff_ret in H.
    cbn beta iota in H. rewrite Hi in H. cbn beta iota in H. rewrite Hc, Hg, Hm in H. cbn beta iota in H.
    cbn [negb] in H. rewrite Hi in H. cbn in H. rewrite Hv in H. injection H as <- <-. eauto.
  - intros state e Hi He. unfold ensure_publication, inspected, eff_bind, get, pure in H.
    cbn beta iota in H. rewrite Hi in H. cbn beta iota in H. rewrite He in H. by injection H as <- <-.
Qed.

(** Validating the publication on a resume changes nothing and succeeds exactly on a
    publication that carries the specification, for tables with distinct texts and valid
    names; any drift the program reads is an error. *)
Theorem publication_drift_is_detected s spec owner :
  NoDup (map QualifiedName_to_string (ps_tables spec)) -> Forall valid_name (ps_tables spec) ->
  validate_name (ps_name spec) = Ok tt ->
  (exists state, validate_publication s spec owner = Ok state) <->
  (exists row, sv_publications s !! ps_name spec = Some row /\ exact spec owner row).
Proof.
  intros Hnd Hvalid Hname. unfold validate_publication. split.
  - intros (state & H). apply bind_Ok in H as (o & Ho & H). apply bind_Ok in H as (st & Hst & H).
    apply ok_or_Ok in Hst as ->. apply bind_Ok in H as ([] & Hv & _).
    apply inspect_Some in Ho as (row & Hr & Hs). exists row. split; [done|]. by eapply validate_state_exact.
  - intros (row & Hr & Hex).
    destruct (exact_validates _ _ _ _ Hnd Hvalid Hname Hr Hex) as (state & -> & _ & _ & _ & Hv).
    cbn. rewrite Hv. by eexists.
Qed.

(** Tables whose texts agree are compared in the order given: a membership that is the same set
    may then not match. *)
Lemma membership_is_by_text :
  membership_matches [mkQualifiedName "a" "b.c"; mkQualifiedName "a.b" "c"]
                     [mkQualifiedName "a.b" "c"; mkQualifiedName "a" "b.c"] = false.
Proof. reflexivity. Qed.

(** ** Witnesses *)

Definition example_spec : PublicationSpec :=
  mkPublicationSpec "etl_pub" [mkQualifiedName "public" "items"; mkQualifiedName "public" "books"] false.
Definition nothing_refused (sql : string) : option string := None.
Definition published_server : SourceServer :=
  (ensure_publication nothing_refused None "etl" example_spec None example_server).2.

(** The publication of the example with a row filter that hides most rows, and a whole schema. *)
Definition restricted_server : SourceServer :=
  with_publications
    (alter (fun row => mkPublicationRow (pb_owner row) (pb_all_tables row) (pb_insert row) (pb_update row)
       (pb_delete row) (pb_truncate row) (pb_via_partition_root row) (pb_generated_stored row) (pb_tables row)
       {[ ("public", "items") := "(id < 10)" ]} ∅ ["private"]) "etl_pub") published_server.

Lemma ensured_publication_is_exact_witness :
  (exists state s', ensure_publication nothing_refused None "etl" example_spec None example_server = (Ok state, s') /\
     exists row, sv_publications s' !! "etl_pub" = Some row /\ exact example_spec None row /\ unrestricted row) /\
  exists state, ensure_publication nothing_refused None "etl" example_spec None restricted_server
    = (Ok state, restricted_server).
Proof.
  split.
  - destruct (ensure_publication nothing_refused None "etl" example_spec None example_server) as [[state|e|] s'] eqn:E;
      [|by vm_compute in E..].
    exists state, s'. split; [done|].
    destruct (ensured_publication_is_exact _ _ _ _ _ _ _ _ E) as (_ & H & _).
    destruct (H state eq_refl) as (row & Hr & He & [Hu|(old & Hold & _)]); [by exists row|].
    exfalso. by vm_compute in Hold.
  - destruct (ensure_publication nothing_refused None "etl" example_spec None restricted_server) as [r s'] eqn:E.
    destruct (ensured_publication_is_exact _ _ _ _ _ _ _ _ E) as (_ & _ & H & _).
    destruct (H (mkPublicationRow "etl" false true true true true false true
      [("public", "items"); ("public", "books")] {[ ("public", "items") := "(id < 10)" ]} ∅ ["private"]))
      as [[state ->] ->].
    + vm_compute. reflexivity.
    + by split.
    + by vm_compute; repeat constructor; set_solver.
    + repeat constructor; by vm_compute.
    + reflexivity.
    + by exists state.
Defined.

Lemma publication_drift_is_detected_witness :
  exists state, validate_publication published_server example_spec None = Ok state.
Proof.
  apply publication_drift_is_detected.
  - by vm_compute; repeat constructor; set_solver.
  - repeat constructor; by vm_compute.
  - reflexivity.
  - eexists. split; [vm_compute; reflexivity|]. by split.
Defined.
