(* ===== verification/SlotSnapshot.v ===== *)
(** * Slots with an exported snapshot, and its readers

    Models [crates/source-postgres/src/snapshot_slot.rs], the guard that keeps the snapshot of a
    new slot exported until every reader has imported it, and the sessions and texts of
    [crates/source-postgres/src/snapshot.rs].  The connection of the guard is open or closed;
    a session reads the server as it was at the slot's consistent point. *)

From S2P Require Import Prelude Effects Core Decimal Schema Sql Source TargetSchema Settings Catalog Publication.

(** ** The guard of an exported snapshot *)

Definition OUTPUT_PLUGIN : string := "pgoutput".

Record ReplicationSlotSnapshot : Type := mkReplicationSlotSnapshot {
  rs_slot_name : string;
  rs_consistent_point : Z;
  rs_snapshot_name : string;
}.

Inductive SnapshotSlotState : Type := Created | ReadersReady | Released.
Global Instance SnapshotSlotState_eq_dec : EqDecision SnapshotSlotState.
Proof. solve_decision. Defined.

(** [client] says whether the replication connection is held. *)
Record SnapshotSlotGuard : Type := mkSnapshotSlotGuard {
  gd_client : bool;
  gd_snapshot : ReplicationSlotSnapshot;
  gd_expected_readers : Z;
  gd_ready_readers : Z;
  gd_state : SnapshotSlotState;
}.

(** A message of the simple query protocol: a row with its named columns, or another. *)
Inductive SimpleQueryMessage : Type :=
| QueryRow (columns : list (string * option string))
| QueryOther.

Definition validate_slot_name (slot_name : string) : result SourceError unit :=
  let allowed c :=
    let n := Lsn.Z_of_ascii c in
    ((97 <=? n) && (n <=? 122))%Z || ((48 <=? n) && (n <=? 57))%Z || (n =? 95)%Z in
  if Lsn.is_empty slot_name || (63 <? slen slot_name)%Z || negb (Lsn.str_all allowed slot_name)
  then Err (SourceInvalidIdentifier slot_name)
  else Ok tt.

Definition create_exported_snapshot_sql (slot_name : string) : result SourceError string :=
  let? _ := validate_slot_name slot_name in
  let? name := source_quote_identifier slot_name in
  Ok ("CREATE_REPLICATION_SLOT " +:+ name +:+ " LOGICAL " +:+ OUTPUT_PLUGIN +:+ " EXPORT_SNAPSHOT").

Definition drop_replication_slot_sql (slot_name : string) : result SourceError string :=
  let? _ := validate_slot_name slot_name in
  let? name := source_quote_identifier slot_name in
  Ok ("DROP_REPLICATION_SLOT " +:+ name).

Definition required_field (name : string) (value : option string) : result SourceError string :=
  match value with
  | Some v =>
      if Lsn.is_empty v then Err (InvalidSlotSnapshotResponse ("missing or empty `" +:+ name +:+ "` field")) else Ok v
  | None => Err (InvalidSlotSnapshotResponse ("missing or empty `" +:+ name +:+ "` field"))
  end.

Definition has_control (s : string) : bool :=
  contains_char nul s || contains_char (chr 10) s || contains_char (chr 13) s.

Definition parse_slot_fields (slot_name : string)
    (returned_slot consistent_point snapshot_name output_plugin : option string)
    : result SourceError ReplicationSlotSnapshot :=
  let? returned_slot := required_field "slot_name" returned_slot in
  if negb (bool_decide (returned_slot = slot_name))
  then Err (InvalidSlotSnapshotResponse
              ("server returned slot `" +:+ returned_slot +:+ "`, expected `" +:+ slot_name +:+ "`"))
  else
    let? consistent_point := required_field "consistent_point" consistent_point in
    let? consistent_point :=
      map_err (fun _ => InvalidSlotSnapshotResponse ("invalid consistent_point `" +:+ consistent_point +:+ "`"))
        (Lsn.from_str consistent_point) in
    let? snapshot_name := required_field "snapshot_name" snapshot_name in
    if Lsn.is_empty snapshot_name || has_control snapshot_name
    then Err (InvalidSlotSnapshotResponse "snapshot_name is empty or contains a control character")
    else
      let? output_plugin := required_field "output_plugin" output_plugin in
      if negb (bool_decide (output_plugin = OUTPUT_PLUGIN))
      then Err (InvalidSlotSnapshotResponse
                  ("server returned output plugin `" +:+ output_plugin +:+ "`, expected `" +:+ OUTPUT_PLUGIN +:+ "`"))
      else Ok (mkReplicationSlotSnapshot returned_slot consistent_point snapshot_name).

(** [row.try_get(name)]: a column that is missing is an error of the driver. *)
Fixpoint try_get (name : string) (columns : list (string * option string)) : result SourceError (option string) :=
  match columns with
  | [] => Err (ReplicationPostgres ("invalid column `" +:+ name +:+ "`"))
  | (column, value) :: columns => if bool_decide (column = name) then Ok value else try_get name columns
  end.

Definition single_row (row : option (list (string * option string))) (message : SimpleQueryMessage)
    : result SourceError (option (list (string * option string))) :=
  match message with
  | QueryRow value =>
      match row with
      | Some _ => Err (InvalidSlotSnapshotResponse "replication command returned more than one row")
      | None => Ok (Some value)
      end
  | QueryOther => Ok row
  end.

Definition parse_create_slot_response (messages : list SimpleQueryMessage) (requested_slot : string)
    : result SourceError ReplicationSlotSnapshot :=
  let? row := foldM single_row None messages in
  let? row := ok_or row (InvalidSlotSnapshotResponse "replication command returned no result row") in
  let? returned_slot := try_get "slot_name" row in
  let? consistent_point := try_get "consistent_point" row in
  let? snapshot_name := try_get "snapshot_name" row in
  let? output_plugin := try_get "output_plugin" row in
  parse_slot_fields requested_slot returned_slot consistent_point snapshot_name output_plugin.

Section guard.
(** [reply] is the server's answer to the command, [point] the text of its consistent point;
    the connection may fail, and the reply may be lost after the slot was created. *)
Context (connect : result SourceError unit) (refused : string -> option string)
  (lost : option (string * bool)) (reply : list SimpleQueryMessage) (point : string).

Definition create_with_client (slot_name : string) (reader_count : Z)
    : Eff SourceServer SourceError SnapshotSlotGuard :=
  if (reader_count =? 0)%Z
  then eff_err (contract "an exported snapshot guard requires at least one reader")
  else
    do! sql := pure (create_exported_snapshot_sql slot_name) in
    do! _ := autocommit refused lost sql (create_slot slot_name OUTPUT_PLUGIN point) in
    match parse_create_slot_response reply slot_name with
    | Ok snapshot => eff_ret (mkSnapshotSlotGuard true snapshot reader_count 0 Created)
    | Panic => pure Panic
    | Err error =>
        do! drop_sql := pure (drop_replication_slot_sql slot_name) in
        do! _ := attempt (autocommit refused lost drop_sql (drop_slot slot_name)) in
        eff_err error
    end.

Definition create (slot_name : string) (reader_count : Z) : Eff SourceServer SourceError SnapshotSlotGuard :=
  if (reader_count =? 0)%Z
  then eff_err (contract "an exported snapshot guard requires at least one reader")
  else
    do! _ := pure (validate_slot_name slot_name) in
    do! _ := pure connect in
    create_with_client slot_name reader_count.
End guard.

Definition with_ready (ready : Z) (state : SnapshotSlotState) (self : SnapshotSlotGuard) : SnapshotSlotGuard :=
  mkSnapshotSlotGuard (gd_client self) (gd_snapshot self) (gd_expected_readers self) ready state.

(** A method on [&mut self]: its result and the guard afterwards. *)
Definition mark_reader_ready (self : SnapshotSlotGuard) : result SourceError unit * SnapshotSlotGuard :=
  match gd_state self with
  | Released => (Err SnapshotGuardReleased, self)
  | ReadersReady => (Err (SnapshotReadersComplete (gd_expected_readers self)), self)
  | Created =>
      if (gd_expected_readers self <=? gd_ready_readers self)%Z
      then (Err (SnapshotReadersComplete (gd_expected_readers self)), self)
      else
        let ready := (gd_ready_readers self + 1)%Z in
        (Ok tt, with_ready ready (if (ready =? gd_expected_readers self)%Z then ReadersReady else Created) self)
  end.

Definition release (self : SnapshotSlotGuard) : result SourceError unit * SnapshotSlotGuard :=
  match gd_state self with
  | Released => (Err SnapshotGuardReleased, self)
  | Created => (Err (SnapshotReadersPending (gd_ready_readers self) (gd_expected_readers self)), self)
  | ReadersReady =>
      (Ok tt, mkSnapshotSlotGuard false (gd_snapshot self) (gd_expected_readers self) (gd_ready_readers self) Released)
  end.

(** ** Sessions *)

Inductive CopyFormat : Type := Binary | Text.
Definition copy_format_sql (self : CopyFormat) : string := match self with Binary => "binary" | Text => "text" end.

Inductive DateStyle : Type := Iso.
Inductive IntervalStyle : Type := PostgresStyle.
Inductive TimeZone : Type := Utc.
Inductive ByteaOutput : Type := Hex.
Inductive ClientEncoding : Type := Utf8.
Inductive ExtraFloatDigits : Type := Three.
Definition date_style_sql (self : DateStyle) : string := match self with Iso => "ISO" end.
Definition interval_style_sql (self : IntervalStyle) : string := match self with PostgresStyle => "postgres" end.
Definition time_zone_sql (self : TimeZone) : string := match self with Utc => "UTC" end.
Definition bytea_output_sql (self : ByteaOutput) : string := match self with Hex => "hex" end.
Definition client_encoding_sql (self : ClientEncoding) : string := match self with Utf8 => "UTF8" end.
Definition extra_float_digits_value (self : ExtraFloatDigits) : Z := match self with Three => 3 end.

Record SnapshotSettings : Type := mkSnapshotSettings {
  se_date_style : DateStyle;
  se_interval_style : IntervalStyle;
  se_time_zone : TimeZone;
  se_extra_float_digits : ExtraFloatDigits;
  se_bytea_output : ByteaOutput;
  se_client_encoding : ClientEncoding;
}.
Definition SnapshotSettings_default : SnapshotSettings := mkSnapshotSettings Iso PostgresStyle Utc Three Hex Utf8.

Definition settings_sql (self : SnapshotSettings) : string :=
  "SET LOCAL DateStyle = '" +:+ date_style_sql (se_date_style self)
  +:+ "'; SET LOCAL IntervalStyle = '" +:+ interval_style_sql (se_interval_style self)
  +:+ "'; SET LOCAL TimeZone = '" +:+ time_zone_sql (se_time_zone self)
  +:+ "'; SET LOCAL extra_float_digits = " +:+ pretty (extra_float_digits_value (se_extra_float_digits self))
  +:+ "; SET LOCAL bytea_output = '" +:+ bytea_output_sql (se_bytea_output self)
  +:+ "'; SET LOCAL client_encoding = '" +:+ client_encoding_sql (se_client_encoding self) +:+ "';".

Definition validate_snapshot_id (value : string) : result SourceError unit :=
  if Lsn.is_empty value || has_control value
  then Err (Contract ("invalid exported snapshot identifier `" +:+ value +:+ "`"))
  else Ok tt.

Definition set_snapshot_sql (snapshot_id : string) : result SourceError string :=
  let? _ := validate_snapshot_id snapshot_id in
  let? literal := source_quote_literal snapshot_id in
  Ok ("SET TRANSACTION SNAPSHOT " +:+ literal).

Definition copy_sql_columns (table : QualifiedName) (columns : list string) (format : CopyFormat)
    : result SourceError string :=
  if bool_decide (columns = []) then Err (Contract "snapshot COPY requires at least one column")
  else
    let? qualified_table := quote_qualified (qn_schema table) (qn_name table) in
    let? quoted := try_map source_quote_identifier columns in
    Ok ("COPY (SELECT " +:+ join ", " quoted +:+ " FROM " +:+ qualified_table
        +:+ ") TO STDOUT WITH (FORMAT " +:+ copy_format_sql format
        +:+ ", HEADER false, DELIMITER E'\t', NULL E'\\N')").

Definition copy_text_sql (schema : TableSchema) : result SourceError string :=
  copy_sql_columns (ts_name schema) (map col_name (ts_columns schema)) Text.

(** The transaction of a reader: the server as the snapshot shows it. *)
Record SnapshotSession : Type := mkSnapshotSession {
  sn_transaction : SourceServer;
  sn_snapshot_id : string;
}.

Section sessions.
(** The snapshots that are exported, by name. *)
Context (refused : string -> option string) (exported : string -> option SourceServer).

Definition source_statement (sql : string) : result SourceError unit :=
  match refused sql with Some message => Err (Postgres message) | None => Ok tt end.

Definition begin_at_exported_snapshot_with_settings (snapshot_id : string) (settings : SnapshotSettings)
    : result SourceError SnapshotSession :=
  let? _ := validate_snapshot_id snapshot_id in
  let? _ := source_statement "START TRANSACTION ISOLATION LEVEL REPEATABLE READ, READ ONLY" in
  let? literal := source_quote_literal snapshot_id in
  let? _ := source_statement ("SET TRANSACTION SNAPSHOT " +:+ literal) in
  let? view := ok_or (exported snapshot_id) (Postgres ("snapshot does not exist: " +:+ snapshot_id)) in
  let? _ := source_statement (settings_sql settings) in
  Ok (mkSnapshotSession view snapshot_id).

Definition begin_at_exported_snapshot (snapshot_id : string) : result SourceError SnapshotSession :=
  begin_at_exported_snapshot_with_settings snapshot_id SnapshotSettings_default.

(** A session of its own, on the server as it is, that exports its snapshot under [name]. *)
Definition begin_exported_snapshot_with_settings (server : SourceServer) (name : string)
    (settings : SnapshotSettings) : result SourceError SnapshotSession :=
  let? _ := source_statement "START TRANSACTION ISOLATION LEVEL REPEATABLE READ, READ ONLY" in
  let? _ := source_statement (settings_sql settings) in
  let? _ := source_statement "SELECT pg_export_snapshot()" in
  let? _ := validate_snapshot_id name in
  Ok (mkSnapshotSession server name).
Definition begin_exported_snapshot (server : SourceServer) (name : string) : result SourceError SnapshotSession :=
  begin_exported_snapshot_with_settings server name SnapshotSettings_default.

Definition session_configure (self : SnapshotSession) (settings : SnapshotSettings) : result SourceError unit :=
  source_statement (settings_sql settings).

Definition session_inspect_tables (self : SnapshotSession) (options : CatalogOptions)
    : result SourceError TableInventory :=
  inspect_tables (sn_transaction self) options.

(** [copy_text_table] starts the stream; its chunks are the server's. *)
Definition copy_text_table (self : SnapshotSession) (schema : TableSchema) : result SourceError unit :=
  let? sql := copy_text_sql schema in
  source_statement sql.

Definition session_commit (self : SnapshotSession) : result SourceError unit := source_statement "COMMIT".
Definition session_rollback (self : SnapshotSession) : result SourceError unit := source_statement "ROLLBACK".
End sessions.

(** ** The life of a guard *)

Inductive GuardCall : Type := MarkReady | Release.

(** What the calls on a guard answered, in order, and the guard at the end. *)
Fixpoint guard_calls (calls : list GuardCall) (self : SnapshotSlotGuard)
    : list (GuardCall * result SourceError unit) * SnapshotSlotGuard :=
  match calls with
  | [] => ([], self)
  | c :: calls =>
      let (r, self) := match c with MarkReady => mark_reader_ready self | Release => release self end in
      let (answers, self) := guard_calls calls self in
      ((c, r) :: answers, self)
  end.

Definition marked (answers : list (GuardCall * result SourceError unit)) : Z :=
  len (List.filter (fun a => match a with (MarkReady, Ok _) => true | _ => false end) answers).
Definition released (answers : list (GuardCall * result SourceError unit)) : bool :=
  existsb (fun a => match a with (Release, Ok _) => true | _ => false end) answers.

Record guard_inv (self : SnapshotSlotGuard) : Prop := {
  gi_bounds : (0 <= gd_ready_readers self <= gd_expected_readers self)%Z;
  gi_created : gd_state self = Created <-> (gd_ready_readers self < gd_expected_readers self)%Z;
  gi_client : gd_client self = negb (bool_decide (gd_state self = Released));
}.

Lemma guard_calls_inv calls self answers self' :
  guard_inv self -> guard_calls calls self = (answers, self') ->
  guard_inv self' /\ gd_snapshot self' = gd_snapshot self /\
  gd_expected_readers self' = gd_expected_readers self /\
  gd_ready_readers self' = (gd_ready_readers self + marked answers)%Z /\
  (gd_state self' = Released <-> gd_state self = Released \/ released answers = true).
Proof.
  revert self answers. induction calls as [|c calls IH]; intros self answers Hi H; cbn in H.
  { injection H as <- <-. cbn. split_and!; [done..|unfold marked, len; cbn; lia|naive_solver]. }
  destruct (match c with MarkReady => _ | Release => _ end) as [r s1] eqn:E1.
  destruct (guard_calls calls s1) as [k s2] eqn:E2. injection H as <- <-.
  enough (guard_inv s1 /\ gd_snapshot s1 = gd_snapshot self /\ gd_expected_readers s1 = gd_expected_readers self /\
          gd_ready_readers s1 = (gd_ready_readers self + marked [(c, r)])%Z /\
          (gd_state s1 = Released <-> gd_state self = Released \/ released [(c, r)] = true))
    as (H1 & H2 & H3 & H4 & H5).
  { destruct (IH _ _ H1 E2) as (G1 & G2 & G3 & G4 & G5). split_and!; [done|congruence..| |].
    - rewrite G4, H4. unfold marked, len. cbn.
      destruct c, r; cbn; lia.
    - rewrite G5, H5. unfold released. cbn. rewrite orb_false_r, orb_true_iff. tauto. }
  destruct Hi as [Hb Hc Hcl]. destruct c; unfold mark_reader_ready, release in E1;
    destruct (gd_state self) eqn:Es; try (injection E1 as <- <-; cbn; split_and!; [by split; rewrite ?Es|done..
      |unfold marked, len; cbn; lia|rewrite Es; cbn; naive_solver]).
  - destruct (Z.leb_spec (gd_expected_readers self) (gd_ready_readers self)) as [Hle|Hlt].
    { exfalso. destruct Hc as [Hc _]. specialize (Hc eq_refl). lia. }
    injection E1 as <- <-. cbn. unfold marked, len. cbn. split_and!; try done; try lia.
    + split; cbn; [lia| |].
      * destruct (Z.eqb_spec (gd_ready_readers self + 1) (gd_expected_readers self)); split; try done; lia.
      * rewrite Hcl. by destruct (_ =? _)%Z.
    + destruct (_ =? _)%Z; naive_solver.
  - injection E1 as <- <-. cbn. unfold marked, len. cbn. split_and!; try done; try lia.
    + split; cbn; [lia| |done]. split; [done|]. intros Hr. by apply Hc in Hr.
    + naive_solver.
Qed.

Definition fresh_guard (snapshot : ReplicationSlotSnapshot) (readers : Z) : SnapshotSlotGuard :=
  mkSnapshotSlotGuard true snapshot readers 0 Created.

Lemma fresh_inv snapshot readers : (0 < readers)%Z -> guard_inv (fresh_guard snapshot readers).
Proof. intros H. split; cbn; [lia|split; [lia|done]|done]. Qed.

Lemma marks snapshot readers n :
  (Z.of_nat n <= readers)%Z -> (0 < readers)%Z ->
  exists answers self, guard_calls (replicate n MarkReady) (fresh_guard snapshot readers) = (answers, self) /\
    gd_ready_readers self = Z.of_nat n /\ gd_expected_readers self = readers /\ gd_snapshot self = snapshot /\
    gd_client self = true /\ gd_state self = if (Z.of_nat n =? readers)%Z then ReadersReady else Created.
Proof.
  intros Hn Hr.
  enough (forall m self, guard_inv self -> gd_state self = Created ->
            (gd_ready_readers self + Z.of_nat m <= gd_expected_readers self)%Z ->
            exists answers self', guard_calls (replicate m MarkReady) self = (answers, self') /\
              gd_ready_readers self' = (gd_ready_readers self + Z.of_nat m)%Z /\
              gd_expected_readers self' = gd_expected_readers self /\ gd_snapshot self' = gd_snapshot self /\
              gd_client self' = gd_client self /\
              gd_state self' = if (gd_ready_readers self + Z.of_nat m =? gd_expected_readers self)%Z
                               then ReadersReady else Created) as H.
  { exact (H n (fresh_guard snapshot readers) (fresh_inv _ _ Hr) eq_refl Hn). }
  clear. induction m as [|m IH]; intros self Hi Hs Hm.
  - exists [], self. split_and!; try done; [lia|]. rewrite Z.add_0_r.
    destruct (Z.eqb_spec (gd_ready_readers self) (gd_expected_readers self)) as [He|]; [|done].
    apply (gi_created _ Hi) in Hs. lia.
  - cbn [replicate guard_calls]. unfold mark_reader_ready at 1. rewrite Hs.
    destruct (Z.leb_spec (gd_expected_readers self) (gd_ready_readers self)); [lia|]. cbv zeta.
    destruct (guard_calls [MarkReady] self) as [k s1] eqn:E1.
    destruct (guard_calls_inv [MarkReady] self _ _ Hi E1) as (H1 & _).
    cbn [guard_calls] in E1. unfold mark_reader_ready in E1. rewrite Hs in E1.
    destruct (Z.leb_spec (gd_expected_readers self) (gd_ready_readers self)); [lia|]. injection E1 as <- <-.
    destruct (Z.eqb_spec (gd_ready_readers self + 1) (gd_expected_readers self)) as [He|Hne].
    + assert (m = 0)%nat as -> by lia. cbn. eexists _, _. split_and!; try reflexivity.
      destruct (Z.eqb_spec (gd_ready_readers self + Z.of_nat 1) (gd_expected_readers self)); [done|lia].
    + destruct (IH _ H1) as (answers & s2 & -> & A & B & C & D & F); [done|cbn; lia|]. cbn in *.
      eexists _, s2. split_and!; [reflexivity|lia|done..|]. rewrite F.
      by replace (gd_ready_readers self + 1 + Z.of_nat m)%Z with (gd_ready_readers self + Z.of_nat (S m))%Z by lia.
Qed.

Lemma with_slots_id s : with_slots id s = s.
Proof. by destruct s. Qed.

(** Dropping the slot that was just created gives back the server. *)
Lemma drop_created name plugin point s s1 :
  create_slot name plugin point s = Ok s1 -> drop_slot name s1 = Ok s.
Proof.
  unfold create_slot, drop_slot. destruct (sv_slots s !! name) eqn:Hn; [done|]. injection 1 as <-. cbn.
  rewrite lookup_insert_eq. cbn. destruct s. cbn in *. unfold with_slots. cbn. by rewrite delete_insert_id.
Qed.

Lemma parse_fields_Ok name a b c d snap :
  parse_slot_fields name a b c d = Ok snap ->
  rs_slot_name snap = name /\ validate_snapshot_id (rs_snapshot_name snap) = Ok tt /\
  exists text, b = Some text /\ Lsn.from_str text = Ok (rs_consistent_point snap).
Proof.
  unfold parse_slot_fields. intros H. apply bind_Ok in H as (slot & Hs & H).
  case_bool_decide as Hn; [|done]. cbn [negb] in H. apply bind_Ok in H as (t & Ht & H).
  apply bind_Ok in H as (p & Hp & H). apply map_err_Ok in Hp. apply bind_Ok in H as (sn & _ & H).
  destruct (_ || _) eqn:Hc in H; [done|]. apply bind_Ok in H as (pl & _ & H).
  destruct (negb _) in H; [done|]. injection H as <-. cbn. subst slot. split_and!; [done|..].
  - unfold validate_snapshot_id. by rewrite Hc.
  - exists t. split; [|done]. unfold required_field in Ht. destruct b as [v|]; [|done].
    destruct (Lsn.is_empty v); [done|]. by injection Ht as <-.
Qed.

Lemma bind_not_Panic {E A B} (m : result E A) (f : A -> result E B) :
  m <> Panic -> (forall a, f a <> Panic) -> mbind f m <> Panic.
Proof. destruct m; cbn; auto. Qed.

Lemma foldM_not_Panic {E A S} (f : S -> A -> result E S) l s :
  (forall s x, f s x <> Panic) -> foldM f s l <> Panic.
Proof. intros Hf. revert s. induction l as [|x l IH]; intros s; cbn; [done|]. by apply bind_not_Panic. Qed.

Lemma try_get_not_Panic name columns : try_get name columns <> Panic.
Proof. induction columns as [|[c v] columns IH]; cbn; [done|]. by case_bool_decide. Qed.

Lemma from_str_not_Panic text : Lsn.from_str text <> Panic.
Proof.
  unfold Lsn.from_str. apply bind_not_Panic; [by destruct (Lsn.split_once _ _)|]. intros [high low].
  destruct (_ || _); [done|]. apply bind_not_Panic; [by destruct (Lsn.u32_from_hex high)|]. intros h.
  by apply bind_not_Panic; [destruct (Lsn.u32_from_hex low)|].
Qed.

Lemma parse_response_not_Panic messages name : parse_create_slot_response messages name <> Panic.
Proof.
  unfold parse_create_slot_response.
  apply bind_not_Panic; [apply foldM_not_Panic; by intros [] []|]. intros row.
  apply bind_not_Panic; [by destruct row|]. intros fields.
  do 4 (apply bind_not_Panic; [apply try_get_not_Panic|]; intros ?).
  assert (Hf : forall n v, required_field n v <> Panic).
  { intros n [v|]; cbn; [|done]. by destruct (Lsn.is_empty v). }
  unfold parse_slot_fields. apply bind_not_Panic; [done|]. intros slot. destruct (negb _); [done|].
  apply bind_not_Panic; [done|]. intros text. apply bind_not_Panic.
  { pose proof (from_str_not_Panic text). by destruct (Lsn.from_str text). }
  intros p. apply bind_not_Panic; [done|]. intros sn. destruct (_ || _); [done|].
  apply bind_not_Panic; [done|]. intros pl. by destruct (negb _).
Qed.

Lemma parse_response_Ok messages name snap :
  parse_create_slot_response messages name = Ok snap -> rs_slot_name snap = name.
Proof.
  unfold parse_create_slot_response. intros H. do 6 (apply bind_Ok in H as (? & _ & H)).
  by apply parse_fields_Ok in H as (? & _).
Qed.

(** ** Properties *)

(** C28: Whatever is called on a guard, in whatever order, the connection that keeps the snapshot
    exported is closed only by a release that succeeded, which needs as many registered
    readers as were announced; and registering exactly that many makes the next release
    succeed. *)
Theorem snapshot_is_held_for_every_reader snapshot readers calls answers self :
  (0 < readers)%Z -> guard_calls calls (fresh_guard snapshot readers) = (answers, self) ->
  (gd_client self = false <-> released answers = true) /\
  (released answers = true -> marked answers = readers) /\
  (marked answers <= readers)%Z /\ gd_snapshot self = snapshot /\
  (exists full, fst (guard_calls (replicate (Z.to_nat readers) MarkReady ++ [Release]) (fresh_guard snapshot readers))
                = full ++ [(Release, Ok tt)]).
Proof.
  intros Hr H. destruct (guard_calls_inv _ _ _ _ (fresh_inv snapshot readers Hr) H) as (Hi & Hs & He & Hm & Hst).
  cbn in He, Hm, Hst. rewrite Hs.
  assert (Hrel : gd_state self = Released <-> released answers = true) by naive_solver.
  pose proof (gi_bounds _ Hi). split_and!; try done.
  - rewrite (gi_client _ Hi), negb_false_iff, bool_decide_eq_true. done.
  - intros Hx. apply Hrel in Hx. pose proof (gi_created _ Hi) as Hc. rewrite Hx in Hc.
    assert (~ (gd_ready_readers self < gd_expected_readers self)%Z) by (intros Hlt; by apply Hc in Hlt). lia.
  - lia.
  - destruct (marks snapshot readers (Z.to_nat readers)) as (k & g & Hg & _ & _ & _ & _ & Hgs); [lia..|].
    rewrite Z2Nat.id, Z.eqb_refl in Hgs by lia. clear -Hg Hgs.
    assert (Happ : forall a b g, guard_calls (a ++ b) g =
              let (x, g1) := guard_calls a g in let (y, g2) := guard_calls b g1 in (x ++ y, g2)).
    { induction a as [|c a IH]; intros b g0; cbn; [by destruct (guard_calls b g0)|].
      destruct (match c with MarkReady => _ | Release => _ end) as [r g1]. rewrite IH.
      destruct (guard_calls a g1) as [x g2]. by destruct (guard_calls b g2). }
    rewrite Happ, Hg. cbn. unfold release. rewrite Hgs. cbn. by eexists.
Qed.

(** Creating a slot with an exported snapshot either returns a guard that holds a snapshot
    of the requested slot, with the slot on the server; or an error, and then - when no reply
    was lost and the server does not refuse the drop - the server is as before: a malformed
    answer leaves no slot behind. *)
Theorem failed_slot_creation_leaves_no_slot connect refused lost reply point name readers s r s' :
  (0 <= readers)%Z -> connect <> Panic ->
  create connect refused lost reply point name readers s = (r, s') ->
  match r with
  | Ok guard =>
      sv_slots s !! name = None /\ sv_slots s' = <[name := new_slot OUTPUT_PLUGIN s point]> (sv_slots s) /\
      guard_inv guard /\ gd_state guard = Created /\ gd_expected_readers guard = readers /\
      rs_slot_name (gd_snapshot guard) = name
  | Err _ => lost = None -> (forall sql, drop_replication_slot_sql name = Ok sql -> refused sql = None) -> s' = s
  | Panic => False
  end.
Proof.
  intros Hr Hconn. unfold create, create_with_client.
  destruct (Z.eqb_spec readers 0) as [|Hne]; [by intros [= <- <-]|].
  unfold eff_bind, pure. destruct (validate_slot_name name) as [[]|e|] eqn:Hv;
    [|by intros [= <- <-]|by unfold validate_slot_name in Hv; repeat case_match].
  destruct connect as [[]|e|]; [|by intros [= <- <-]|done].
  unfold create_exported_snapshot_sql, drop_replication_slot_sql. rewrite Hv. cbn [mbind result_bind].
  destruct (source_quote_identifier name) as [q|e|] eqn:Hq; cbn [mbind result_bind];
    [|by intros [= <- <-]|by unfold source_quote_identifier in Hq; repeat case_match].
  intros H. unfold autocommit at 1 in H. unfold statement in H at 1.
  destruct (refused _) as [m|] in H; [by injection H as <- <-|].
  destruct (create_slot name OUTPUT_PLUGIN point s) as [s1|m|] eqn:Hc; cbn [map_err] in H;
    [|by injection H as <- <-|by unfold create_slot in Hc; case_match].
  destruct lost as [[m b]|]; [by injection H as <- <-; intros|].
  pose proof (parse_response_not_Panic reply name) as Hnp.
  destruct (parse_create_slot_response reply name) as [snap|e|] eqn:Hp; [| |done].
  - injection H as <- <-. unfold create_slot in Hc. destruct (sv_slots s !! name) eqn:Hn; [done|].
    injection Hc as <-. split_and!; try done; [|by eapply parse_response_Ok]. apply (fresh_inv snap). lia.
  - unfold attempt, autocommit, statement in H. cbn beta iota in H.
    destruct (refused ("DROP_REPLICATION_SLOT " +:+ q)) as [m|] eqn:Hd.
    + injection H as <- <-. intros _ Hno. specialize (Hno _ eq_refl). congruence.
    + rewrite (drop_created _ _ _ _ _ Hc) in H. cbn in H. by injection H as <- <-.
Qed.

(** ** Witnesses *)

Definition example_snapshot : ReplicationSlotSnapshot := mkReplicationSlotSnapshot "etl_slot" 22 "00000003-1".
Definition example_reply (plugin : string) : list SimpleQueryMessage :=
  [QueryRow [("slot_name", Some "etl_slot"); ("consistent_point", Some "0/16"); ("snapshot_name", Some "00000003-1");
             ("output_plugin", Some plugin)]; QueryOther].

Lemma snapshot_is_held_for_every_reader_witness :
  exists answers self,
    guard_calls [Release; MarkReady; MarkReady; Release; Release] (fresh_guard example_snapshot 2) = (answers, self) /\
    released answers = true /\ marked answers = 2%Z /\ gd_client self = false.
Proof.
  destruct (guard_calls [Release; MarkReady; MarkReady; Release; Release] (fresh_guard example_snapshot 2))
    as [answers self] eqn:E.
  exists answers, self. split; [done|].
  destruct (snapshot_is_held_for_every_reader example_snapshot 2 _ _ _ eq_refl E) as (H1 & H2 & _).
  assert (released answers = true) as Hrel by (vm_compute in E; by injection E as <- <-).
  split_and!; [done|by apply H2|by apply H1].
Defined.

Lemma failed_slot_creation_leaves_no_slot_witness :
  exists e, create (Ok tt) nothing_refused None (example_reply "wal2json") "0/16" "etl_slot" 1 example_server
            = (Err e, example_server).
Proof.
  destruct (create (Ok tt) nothing_refused None (example_reply "wal2json") "0/16" "etl_slot" 1 example_server)
    as [r s'] eqn:E.
  pose proof (failed_slot_creation_leaves_no_slot (Ok tt) nothing_refused None (example_reply "wal2json") "0/16"
    "etl_slot" 1 example_server r s' ltac:(done) ltac:(done) E) as H.
  destruct r as [g|e|]; [by vm_compute in E| |done]. exists e. by rewrite H.
Defined.
