(* ===== verification/Ddl.v ===== *)
(** * DDL capture on the source

    Models the installation of the DDL capture in [crates/source-postgres/src/ddl.rs]; decoding
    the messages it emits is in [Source].  The catalogs are [CaptureCatalog]: the event
    triggers, the functions and the audit tables.  The installer is both the text the code
    renders and, statement by statement, a function on the catalogs; the query that decides
    whether the capture is current is a boolean on them. *)

From S2P Require Import Prelude Effects Core Schema Sql Source Settings Publication.

Definition DDL_CAPTURE_MARKER : string := "pg2cloudberry_ddl_capture_v4".
Definition CANONICAL_DDL_TRIGGER_NAME : string := "pg2cb_ddl_command_end".

Record DdlInstallSpec : Type := mkDdlInstallSpec {
  ds_metadata_schema : string;
  ds_trigger_name : string;
  ds_allow_citus_worker_guard : bool;
}.
Definition DdlInstallSpec_default : DdlInstallSpec :=
  mkDdlInstallSpec "pg2cb_meta" CANONICAL_DDL_TRIGGER_NAME true.

Record DdlFunctionSources : Type := mkDdlFunctionSources {
  df_schema_snapshot : string;
  df_schema_fingerprint : string;
  df_emit_ddl_event : string;
  df_emit_sql_drop_event : string;
}.

Definition drop_trigger_name (self : DdlInstallSpec) : result SourceError string :=
  let name := ds_trigger_name self +:+ "_drop" in
  let? _ := validate_schema name in
  Ok name.

Definition DdlInstallSpec_validate (self : DdlInstallSpec) : result SourceError unit :=
  let? _ := validate_schema (ds_metadata_schema self) in
  let? _ := validate_schema (ds_trigger_name self) in
  let? _ := drop_trigger_name self in
  Ok tt.

(** ** The texts *)

Definition worker_guard_sql (self : DdlInstallSpec) : string :=
  if ds_allow_citus_worker_guard self then "        IF EXISTS (SELECT 1 FROM pg_extension WHERE extname = 'citus')
           AND to_regclass('pg_catalog.pg_dist_node') IS NULL THEN
            RETURN;
        END IF;"
  else "        NULL;".

Definition schema_snapshot_source : string := "
    SELECT jsonb_build_object(
        'relation_id', c.oid::text,
        'schema', n.nspname,
        'name', c.relname,
        'relkind', c.relkind::text,
        'replica_identity', c.relreplident::text,
        'columns', COALESCE((
            SELECT jsonb_agg(jsonb_build_object(
                'attnum', a.attnum,
                'name', a.attname,
                'type_oid', a.atttypid::text,
                'type_modifier', a.atttypmod,
                'not_null', a.attnotnull,
                'generated', a.attgenerated::text,
                'identity', a.attidentity::text
            ) ORDER BY a.attnum)
            FROM pg_attribute a
            WHERE a.attrelid = c.oid AND a.attnum > 0 AND NOT a.attisdropped
        ), '[]'::jsonb),
        'primary_key', COALESCE((
            SELECT to_jsonb(i.indkey::text)
            FROM pg_index i
            WHERE i.indrelid = c.oid AND i.indisprimary
        ), 'null'::jsonb),
        'partition_key', COALESCE((
            SELECT to_jsonb(p.partattrs::text)
            FROM pg_partitioned_table p
            WHERE p.partrelid = c.oid
        ), 'null'::jsonb)
    )
    FROM pg_class c
    JOIN pg_namespace n ON n.oid = c.relnamespace
    WHERE c.oid = target_oid;
".

Definition schema_fingerprint_source (schema snapshot : string) : string :=
  "
    SELECT md5(COALESCE(" +:+ schema +:+ "." +:+ snapshot +:+ "(target_oid), '{}'::jsonb)::text);
".

Definition emit_ddl_event_source (worker_guard schema fingerprint : string) : string :=
  "
DECLARE
    commands jsonb;
    relation_ids oid[];
    affected_schemas text[];
    fingerprint text;
    payload jsonb;
BEGIN
    -- DROP is emitted by the sql_drop trigger below. This prevents one logical DDL event from
    -- being emitted twice when PostgreSQL invokes both event-trigger phases.
    IF TG_TAG LIKE 'DROP %' THEN
        RETURN;
    END IF;
    IF current_setting('pg2cb.internal_ddl', true) = 'on' THEN
        RETURN;
    END IF;
" +:+ worker_guard +:+ "
    SELECT COALESCE(jsonb_agg(jsonb_build_object(
        'class_id', classid::text,
        'object_id', objid::text,
        'object_type', object_type,
        'schema_name', schema_name,
        'object_identity', object_identity,
        'command_tag', command_tag
    ) ORDER BY classid, objid, objsubid), '[]'::jsonb)
      INTO commands
      FROM pg_event_trigger_ddl_commands();

    SELECT COALESCE(array_agg(objid ORDER BY objid), '{}'::oid[])
      INTO relation_ids
      FROM pg_event_trigger_ddl_commands()
     WHERE classid = 'pg_class'::regclass;

    SELECT COALESCE(array_agg(DISTINCT affected_schema ORDER BY affected_schema), '{}'::text[])
      INTO affected_schemas
      FROM (
          SELECT CASE
              WHEN object_type = 'schema' THEN (parse_ident(object_identity, true))[1]
              ELSE schema_name
          END AS affected_schema
            FROM pg_event_trigger_ddl_commands()
      ) objects
     WHERE affected_schema IS NOT NULL AND affected_schema <> '';

    SELECT md5(COALESCE(
        (SELECT jsonb_agg(" +:+ schema +:+ "." +:+ fingerprint +:+ "(objid) ORDER BY objid)::text
           FROM pg_event_trigger_ddl_commands()
          WHERE classid = 'pg_class'::regclass),
        '[]')) INTO fingerprint;
    payload := jsonb_build_object(
        'version', " +:+ pretty DDL_MESSAGE_VERSION +:+ ",
        'command_tag', TG_TAG,
        'relation_ids', to_jsonb(ARRAY(SELECT value::text FROM unnest(relation_ids) AS value)),
        'affected_schemas', to_jsonb(affected_schemas),
        'schema_fingerprint', fingerprint,
        'commands', commands
    );

    INSERT INTO " +:+ schema +:+ ".ddl_audit(command_tag, relation_ids, schema_fingerprint, payload)
    VALUES (TG_TAG, relation_ids, fingerprint, payload);

    PERFORM pg_logical_emit_message(true, '" +:+ DDL_MESSAGE_PREFIX +:+ "', payload::text);
END;
".

Definition emit_sql_drop_event_source (worker_guard schema : string) : string :=
  "
DECLARE
    dropped jsonb;
    relation_ids oid[];
    affected_schemas text[];
    fingerprint text;
    payload jsonb;
BEGIN
    IF current_setting('pg2cb.internal_ddl', true) = 'on' THEN
        RETURN;
    END IF;
" +:+ worker_guard +:+ "
    -- Retain schema/table/type objects: these are the objects whose removal can invalidate the
    -- mirrored catalog. Other DROP commands still produce an empty-scope message, which the
    -- engine treats as unknown and therefore fail-closed.
    SELECT COALESCE(jsonb_agg(jsonb_build_object(
        'class_id', classid::text,
        'object_id', objid::text,
        'object_sub_id', objsubid,
        'object_type', object_type,
        'schema_name', schema_name,
        'object_name', object_name,
        'object_identity', object_identity,
        'original', original,
        'normal', normal
    ) ORDER BY classid, objid, objsubid), '[]'::jsonb)
      INTO dropped
      FROM pg_event_trigger_dropped_objects()
     WHERE object_type IN (
         'schema', 'table', 'partitioned table', 'foreign table',
         'type', 'domain', 'composite type'
     );

    SELECT COALESCE(array_agg(objid ORDER BY objid), '{}'::oid[])
      INTO relation_ids
      FROM pg_event_trigger_dropped_objects()
     WHERE classid = 'pg_class'::regclass
       AND objsubid = 0
       AND object_type IN ('table', 'partitioned table', 'foreign table');

    SELECT COALESCE(array_agg(DISTINCT affected_schema ORDER BY affected_schema), '{}'::text[])
      INTO affected_schemas
      FROM (
          SELECT CASE
              WHEN object_type = 'schema' THEN (parse_ident(object_identity, true))[1]
              ELSE schema_name
          END AS affected_schema
            FROM pg_event_trigger_dropped_objects()
           WHERE object_type IN (
               'schema', 'table', 'partitioned table', 'foreign table',
               'type', 'domain', 'composite type'
           )
      ) objects
     WHERE affected_schema IS NOT NULL AND affected_schema <> '';

    fingerprint := md5(dropped::text);
    payload := jsonb_build_object(
        'version', " +:+ pretty DDL_MESSAGE_VERSION +:+ ",
        'command_tag', TG_TAG,
        'relation_ids', to_jsonb(ARRAY(SELECT value::text FROM unnest(relation_ids) AS value)),
        'affected_schemas', to_jsonb(affected_schemas),
        'schema_fingerprint', fingerprint,
        'commands', dropped
    );

    INSERT INTO " +:+ schema +:+ ".ddl_audit(command_tag, relation_ids, schema_fingerprint, payload)
    VALUES (TG_TAG, relation_ids, fingerprint, payload);

    PERFORM pg_logical_emit_message(true, '" +:+ DDL_MESSAGE_PREFIX +:+ "', payload::text);
END;
".

Definition singleton_cleanup_sql (self : DdlInstallSpec) : string :=
  if negb (bool_decide (ds_trigger_name self = CANONICAL_DDL_TRIGGER_NAME)) then EmptyString
  else
    "DO $pg2cb$
DECLARE
    managed_trigger record;
BEGIN
    FOR managed_trigger IN
        SELECT e.evtname
          FROM pg_event_trigger e
         WHERE e.evtname NOT IN ('" +:+ CANONICAL_DDL_TRIGGER_NAME +:+ "', '" +:+ CANONICAL_DDL_TRIGGER_NAME +:+ "_drop')
           AND COALESCE(obj_description(e.oid, 'pg_event_trigger'), '')
               LIKE 'pg2cloudberry_ddl_capture_v%'
    LOOP
        EXECUTE format('DROP EVENT TRIGGER %I', managed_trigger.evtname);
    END LOOP;
END;
$pg2cb$;".

Definition function_sources (self : DdlInstallSpec) : result SourceError DdlFunctionSources :=
  let? _ := DdlInstallSpec_validate self in
  let? schema := source_quote_identifier (ds_metadata_schema self) in
  let? snapshot := source_quote_identifier "schema_snapshot" in
  let? fingerprint := source_quote_identifier "schema_fingerprint" in
  let worker_guard := worker_guard_sql self in
  Ok (mkDdlFunctionSources schema_snapshot_source (schema_fingerprint_source schema snapshot)
        (emit_ddl_event_source worker_guard schema fingerprint) (emit_sql_drop_event_source worker_guard schema)).

Definition install_sql (self : DdlInstallSpec) : result SourceError string :=
  let? _ := DdlInstallSpec_validate self in
  let? sources := function_sources self in
  let? schema := source_quote_identifier (ds_metadata_schema self) in
  let? trigger := source_quote_identifier (ds_trigger_name self) in
  let? drop_name := drop_trigger_name self in
  let? drop_trigger := source_quote_identifier drop_name in
  let? trigger_name_literal := source_quote_literal (ds_trigger_name self) in
  let? drop_trigger_name_literal := source_quote_literal drop_name in
  let? function := source_quote_identifier "emit_ddl_event" in
  let? drop_function := source_quote_identifier "emit_sql_drop_event" in
  let? snapshot := source_quote_identifier "schema_snapshot" in
  let? fingerprint := source_quote_identifier "schema_fingerprint" in
  let singleton_cleanup := singleton_cleanup_sql self in
  Ok ("CREATE SCHEMA IF NOT EXISTS " +:+ schema +:+ ";

CREATE TABLE IF NOT EXISTS " +:+ schema +:+ ".ddl_audit (
    event_id bigint GENERATED ALWAYS AS IDENTITY PRIMARY KEY,
    transaction_id bigint NOT NULL DEFAULT txid_current(),
    emitted_at timestamptz NOT NULL DEFAULT clock_timestamp(),
    command_tag text NOT NULL,
    relation_ids oid[] NOT NULL,
    schema_fingerprint text NOT NULL,
    payload jsonb NOT NULL
);

CREATE OR REPLACE FUNCTION " +:+ schema +:+ "." +:+ snapshot +:+ "(target_oid oid)
RETURNS jsonb
LANGUAGE sql
STABLE
AS $pg2cb$" +:+ df_schema_snapshot sources +:+ "$pg2cb$;

CREATE OR REPLACE FUNCTION " +:+ schema +:+ "." +:+ fingerprint +:+ "(target_oid oid)
RETURNS text
LANGUAGE sql
STABLE
AS $pg2cb$" +:+ df_schema_fingerprint sources +:+ "$pg2cb$;

CREATE OR REPLACE FUNCTION " +:+ schema +:+ "." +:+ function +:+ "()
RETURNS event_trigger
LANGUAGE plpgsql
SECURITY DEFINER
SET search_path = pg_catalog, " +:+ schema +:+ "
AS $pg2cb$" +:+ df_emit_ddl_event sources +:+ "$pg2cb$;

CREATE OR REPLACE FUNCTION " +:+ schema +:+ "." +:+ drop_function +:+ "()
RETURNS event_trigger
LANGUAGE plpgsql
SECURITY DEFINER
SET search_path = pg_catalog, " +:+ schema +:+ "
AS $pg2cb$" +:+ df_emit_sql_drop_event sources +:+ "$pg2cb$;

" +:+ singleton_cleanup +:+ "

DO $pg2cb$
DECLARE
    conflicting_trigger text;
BEGIN
    SELECT e.evtname
      INTO conflicting_trigger
      FROM pg_event_trigger e
     WHERE e.evtname IN (" +:+ trigger_name_literal +:+ ", " +:+ drop_trigger_name_literal +:+ ")
       AND COALESCE(obj_description(e.oid, 'pg_event_trigger'), '')
           NOT LIKE 'pg2cloudberry_ddl_capture_v%'
     LIMIT 1;
    IF conflicting_trigger IS NOT NULL THEN
        RAISE EXCEPTION 'event trigger % is not managed by pg2cloudberry', conflicting_trigger;
    END IF;
END;
$pg2cb$;

DROP EVENT TRIGGER IF EXISTS " +:+ drop_trigger +:+ ";
DROP EVENT TRIGGER IF EXISTS " +:+ trigger +:+ ";
CREATE EVENT TRIGGER " +:+ trigger +:+ "
    ON ddl_command_end
    EXECUTE FUNCTION " +:+ schema +:+ "." +:+ function +:+ "();
CREATE EVENT TRIGGER " +:+ drop_trigger +:+ "
    ON sql_drop
    EXECUTE FUNCTION " +:+ schema +:+ "." +:+ drop_function +:+ "();
COMMENT ON EVENT TRIGGER " +:+ trigger +:+ " IS '" +:+ DDL_CAPTURE_MARKER +:+ "';
COMMENT ON EVENT TRIGGER " +:+ drop_trigger +:+ " IS '" +:+ DDL_CAPTURE_MARKER +:+ "';
COMMENT ON FUNCTION " +:+ schema +:+ "." +:+ function +:+ "() IS '" +:+ DDL_CAPTURE_MARKER +:+ "';
COMMENT ON FUNCTION " +:+ schema +:+ "." +:+ drop_function +:+ "() IS '" +:+ DDL_CAPTURE_MARKER +:+ "';
").

Definition uninstall_sql (self : DdlInstallSpec) : result SourceError string :=
  let? _ := DdlInstallSpec_validate self in
  let? drop_name := drop_trigger_name self in
  let? drop_trigger := source_quote_identifier drop_name in
  let? trigger := source_quote_identifier (ds_trigger_name self) in
  Ok ("DROP EVENT TRIGGER IF EXISTS " +:+ drop_trigger +:+ "; DROP EVENT TRIGGER IF EXISTS " +:+ trigger).

(** ** The catalogs *)

(** A row of [pg_proc], under its schema, name and argument types. *)
Record FunctionRow : Type := mkFunctionRow {
  fr_language : string;
  fr_kind : string;
  fr_return_type : string;
  fr_returns_set : bool;
  fr_volatility : string;
  fr_security_definer : bool;
  fr_strict : bool;
  fr_leakproof : bool;
  fr_parallel : string;
  fr_configuration : option (list string);
  fr_source : string;
  fr_comment : option string;
}.

(** A row of [pg_event_trigger], under its name, with its function's schema and name. *)
Record TriggerRow : Type := mkTriggerRow {
  et_event : string;
  et_function : string * string;
  et_enabled : string;
  et_tags : option (list string);
  et_comment : option string;
}.

Record AuditColumn : Type := mkAuditColumn {
  ac_attnum : Z;
  ac_name : string;
  ac_type : string;
  ac_typmod : Z;
  ac_not_null : bool;
  ac_identity : string;
  ac_generated : string;
  ac_default : option string;
}.
Global Instance AuditColumn_eq_dec : EqDecision AuditColumn.
Proof. solve_decision. Defined.

(** A relation named [ddl_audit]; [at_plain]: an ordinary, permanent table that is no
    partition.  The valid primary keys are lists of attribute numbers without expressions. *)
Record AuditTable : Type := mkAuditTable {
  at_plain : bool;
  at_columns : list AuditColumn;
  at_primary_key : option (list Z);
}.

Record CaptureCatalog : Type := mkCaptureCatalog {
  cc_triggers : gmap string TriggerRow;
  cc_functions : gmap (string * string * list string) FunctionRow;
  cc_audit : gmap string AuditTable;
}.

Definition set_cc_triggers (f : gmap string TriggerRow -> gmap string TriggerRow) (c : CaptureCatalog)
    : CaptureCatalog := mkCaptureCatalog (f (cc_triggers c)) (cc_functions c) (cc_audit c).
Definition set_cc_functions
    (f : gmap (string * string * list string) FunctionRow -> gmap (string * string * list string) FunctionRow)
    (c : CaptureCatalog) : CaptureCatalog := mkCaptureCatalog (cc_triggers c) (f (cc_functions c)) (cc_audit c).
Definition set_cc_audit (f : gmap string AuditTable -> gmap string AuditTable) (c : CaptureCatalog)
    : CaptureCatalog := mkCaptureCatalog (cc_triggers c) (cc_functions c) (f (cc_audit c)).

(** [LIKE]: an underscore matches any character, a percent sign any text. *)
Fixpoint like (pattern s : string) : bool :=
  match pattern with
  | EmptyString => Lsn.is_empty s
  | String p pattern =>
      if bool_decide (p = "%"%char) then
        (fix rest (s : string) : bool :=
           like pattern s || match s with String _ s => rest s | EmptyString => false end) s
      else match s with
           | String c s => (bool_decide (p = "_"%char) || bool_decide (p = c)) && like pattern s
           | EmptyString => false
           end
  end.

(** [COALESCE(obj_description(..), '') LIKE 'pg2cloudberry_ddl_capture_v%']. *)
Definition managed (row : TriggerRow) : bool :=
  like "pg2cloudberry_ddl_capture_v%" (default EmptyString (et_comment row)).

#[global] Arguments managed : simpl never.

(** ** What is expected *)

Definition audit_columns : list AuditColumn :=
  [mkAuditColumn 1 "event_id" "bigint" (-1) true "a" EmptyString None;
   mkAuditColumn 2 "transaction_id" "bigint" (-1) true EmptyString EmptyString (Some "txid_current()");
   mkAuditColumn 3 "emitted_at" "timestamptz" (-1) true EmptyString EmptyString (Some "clock_timestamp()");
   mkAuditColumn 4 "command_tag" "text" (-1) true EmptyString EmptyString None;
   mkAuditColumn 5 "relation_ids" "oid[]" (-1) true EmptyString EmptyString None;
   mkAuditColumn 6 "schema_fingerprint" "text" (-1) true EmptyString EmptyString None;
   mkAuditColumn 7 "payload" "jsonb" (-1) true EmptyString EmptyString None].

Section capture.
(** The server's [quote_ident], and what it refuses to execute. *)
Context (quote_ident : string -> string) (refused : string -> option string).

(** The row that [CREATE OR REPLACE FUNCTION] writes; a comment stays. *)
Definition sql_function (return_type source : string) (comment : option string) : FunctionRow :=
  mkFunctionRow "sql" "f" return_type false "s" false false false "u" None source comment.
Definition trigger_function (schema source : string) (comment : option string) : FunctionRow :=
  mkFunctionRow "plpgsql" "f" "event_trigger" false "v" true false false "u"
    (Some ["search_path=pg_catalog, " +:+ quote_ident schema]) source comment.

(** [function.* = expected.*] of a row of [expected_functions]. *)
Definition valid_function (c : CaptureCatalog) (schema name : string) (arguments : list string)
    (language return_type volatility : string) (security_definer : bool) (configuration : option (list string))
    (source : string) (marker : option string) : bool :=
  match cc_functions c !! (schema, name, arguments) with
  | Some row =>
      bool_decide (fr_language row = language) && bool_decide (fr_kind row = "f")
      && bool_decide (fr_return_type row = return_type) && negb (fr_returns_set row)
      && bool_decide (fr_volatility row = volatility) && Bool.eqb (fr_security_definer row) security_definer
      && negb (fr_strict row) && negb (fr_leakproof row) && bool_decide (fr_parallel row = "u")
      && bool_decide (fr_configuration row = configuration) && bool_decide (fr_source row = source)
      && match marker with Some _ => bool_decide (fr_comment row = marker) | None => true end
  | None => false
  end.

Definition valid_functions (c : CaptureCatalog) (schema : string) (sources : DdlFunctionSources) : bool :=
  let search_path := Some ["search_path=pg_catalog, " +:+ quote_ident schema] in
  valid_function c schema "schema_snapshot" ["oid"] "sql" "jsonb" "s" false None (df_schema_snapshot sources) None
  && valid_function c schema "schema_fingerprint" ["oid"] "sql" "text" "s" false None
       (df_schema_fingerprint sources) None
  && valid_function c schema "emit_ddl_event" [] "plpgsql" "event_trigger" "v" true search_path
       (df_emit_ddl_event sources) (Some DDL_CAPTURE_MARKER)
  && valid_function c schema "emit_sql_drop_event" [] "plpgsql" "event_trigger" "v" true search_path
       (df_emit_sql_drop_event sources) (Some DDL_CAPTURE_MARKER).

Definition valid_trigger (c : CaptureCatalog) (schema name event function : string) : bool :=
  match cc_triggers c !! name with
  | Some row =>
      bool_decide (et_event row = event) && bool_decide (et_function row = (schema, function))
      && bool_decide (et_enabled row = "O") && bool_decide (et_tags row = None)
      && bool_decide (et_comment row = Some DDL_CAPTURE_MARKER)
  | None => false
  end.

Definition valid_audit (c : CaptureCatalog) (schema : string) : bool :=
  match cc_audit c !! schema with
  | Some table =>
      at_plain table && bool_decide (at_columns table = audit_columns)
      && bool_decide (at_primary_key table = Some [1%Z])
  | None => false
  end.

Definition ddl_capture_is_current (c : CaptureCatalog) (spec : DdlInstallSpec) (drop_trigger : string)
    (sources : DdlFunctionSources) : bool :=
  let schema := ds_metadata_schema spec in
  valid_functions c schema sources
  && valid_trigger c schema (ds_trigger_name spec) "ddl_command_end" "emit_ddl_event"
  && valid_trigger c schema drop_trigger "sql_drop" "emit_sql_drop_event"
  && valid_audit c schema.

(** ** What the installer does *)

Definition create_audit_table (schema : string) (c : CaptureCatalog) : CaptureCatalog :=
  match cc_audit c !! schema with
  | Some _ => c
  | None => set_cc_audit (insert schema (mkAuditTable true audit_columns (Some [1%Z]))) c
  end.

Definition create_or_replace_function (schema name : string) (arguments : list string)
    (row : option string -> FunctionRow) (c : CaptureCatalog) : result string CaptureCatalog :=
  match cc_functions c !! (schema, name, arguments) with
  | None => Ok (set_cc_functions (insert (schema, name, arguments) (row None)) c)
  | Some old =>
      if bool_decide (fr_kind old = "f") && bool_decide (fr_return_type old = fr_return_type (row None))
         && Bool.eqb (fr_returns_set old) (fr_returns_set (row None))
      then Ok (set_cc_functions (insert (schema, name, arguments) (row (fr_comment old))) c)
      else Err "cannot change return type of existing function"
  end.

(** The [DO] block: other managed triggers are dropped. *)
Definition singleton_cleanup (c : CaptureCatalog) : CaptureCatalog :=
  set_cc_triggers
    (filter (fun t => t.1 = CANONICAL_DDL_TRIGGER_NAME \/ t.1 = CANONICAL_DDL_TRIGGER_NAME +:+ "_drop"
                      \/ managed t.2 = false)) c.

Definition conflicting (c : CaptureCatalog) (name : string) : bool :=
  match cc_triggers c !! name with Some row => negb (managed row) | None => false end.

Definition comment_function (schema name : string) (c : CaptureCatalog) : CaptureCatalog :=
  set_cc_functions
    (alter (fun row => mkFunctionRow (fr_language row) (fr_kind row) (fr_return_type row) (fr_returns_set row)
                         (fr_volatility row) (fr_security_definer row) (fr_strict row) (fr_leakproof row)
                         (fr_parallel row) (fr_configuration row) (fr_source row) (Some DDL_CAPTURE_MARKER))
       (schema, name, [])) c.

Definition create_trigger (schema name event function : string) (c : CaptureCatalog) : CaptureCatalog :=
  set_cc_triggers
    (insert name (mkTriggerRow event (schema, function) "O" None (Some DDL_CAPTURE_MARKER))) c.

(** The four [CREATE OR REPLACE FUNCTION]. *)
Definition replace_functions (schema : string) (sources : DdlFunctionSources) (c : CaptureCatalog)
    : result string CaptureCatalog :=
  let? c := create_or_replace_function schema "schema_snapshot" ["oid"]
              (sql_function "jsonb" (df_schema_snapshot sources)) c in
  let? c := create_or_replace_function schema "schema_fingerprint" ["oid"]
              (sql_function "text" (df_schema_fingerprint sources)) c in
  let? c := create_or_replace_function schema "emit_ddl_event" []
              (trigger_function schema (df_emit_ddl_event sources)) c in
  create_or_replace_function schema "emit_sql_drop_event" []
    (trigger_function schema (df_emit_sql_drop_event sources)) c.

(** The statements of [install_sql], in order. *)
Definition run_installer (spec : DdlInstallSpec) (drop_trigger : string) (sources : DdlFunctionSources)
    (c : CaptureCatalog) : result string CaptureCatalog :=
  let schema := ds_metadata_schema spec in
  let? c := replace_functions schema sources (create_audit_table schema c) in
  let c := if bool_decide (ds_trigger_name spec = CANONICAL_DDL_TRIGGER_NAME) then singleton_cleanup c else c in
  if conflicting c (ds_trigger_name spec) || conflicting c drop_trigger
  then Err "event trigger is not managed by pg2cloudberry"
  else
    let c := set_cc_triggers (fun m => delete (ds_trigger_name spec) (delete drop_trigger m)) c in
    let c := create_trigger schema (ds_trigger_name spec) "ddl_command_end" "emit_ddl_event" c in
    let c := create_trigger schema drop_trigger "sql_drop" "emit_sql_drop_event" c in
    Ok (comment_function schema "emit_sql_drop_event" (comment_function schema "emit_ddl_event" c)).

(** The first row of the query for a managed trigger in another schema. *)
Definition foreign_schema (c : CaptureCatalog) (spec : DdlInstallSpec) (drop_trigger : string) : option string :=
  let other name :=
    match cc_triggers c !! name with
    | Some row =>
        if managed row && negb (bool_decide ((et_function row).1 = ds_metadata_schema spec))
        then Some (et_function row).1 else None
    | None => None
    end in
  match other (ds_trigger_name spec) with Some schema => Some schema | None => other drop_trigger end.

Definition execute (sql : string) (effect : CaptureCatalog -> result string CaptureCatalog) (c : CaptureCatalog)
    : result SourceError CaptureCatalog :=
  match refused sql with
  | Some message => Err (Postgres message)
  | None => map_err Postgres (effect c)
  end.

Definition capture_transaction (spec : DdlInstallSpec) (drop_trigger : string) (sources : DdlFunctionSources)
    (sql : string) (c : CaptureCatalog) : result SourceError (bool * CaptureCatalog) :=
  let? c := execute "SELECT pg_advisory_xact_lock(hashtextextended(current_database(), 0))" Ok c in
  match foreign_schema c spec drop_trigger with
  | Some existing_schema =>
      Err (SourceDdl ("DDL capture is already owned by metadata schema `" +:+ existing_schema +:+ "`"))
  | None =>
      let current := ddl_capture_is_current c spec drop_trigger sources in
      let? c := execute "SELECT set_config('pg2cb.internal_ddl', 'on', true)" Ok c in
      if current then
        let? c :=
          if bool_decide (ds_trigger_name spec = CANONICAL_DDL_TRIGGER_NAME)
          then execute (singleton_cleanup_sql spec) (fun c => Ok (singleton_cleanup c)) c else Ok c in
        Ok (false, c)
      else
        let? c := execute sql (run_installer spec drop_trigger sources) c in
        if negb (ddl_capture_is_current c spec drop_trigger sources)
        then Err (SourceDdl "DDL capture installation did not produce the required catalog definitions")
        else Ok (true, c)
  end.

(** [lost] is an error of the COMMIT, which may have been executed. *)
Definition ensure_ddl_capture (lost : option (string * bool)) (spec : DdlInstallSpec)
    : Eff CaptureCatalog SourceError bool := fun c =>
  match
    (let? _ := DdlInstallSpec_validate spec in
     let? drop_trigger := drop_trigger_name spec in
     let? sources := function_sources spec in
     let? sql := install_sql spec in
     let? _ := execute "BEGIN" Ok c in
     capture_transaction spec drop_trigger sources sql c)
  with
  | Err e => (Err e, c)
  | Panic => (Panic, c)
  | Ok (installed, committed) =>
      match lost with
      | Some (message, executed) => (Err (Postgres message), if executed : bool then committed else c)
      | None => (Ok installed, committed)
      end
  end.
End capture.

(** ** Lemmas *)

Definition drop_name (spec : DdlInstallSpec) : string := ds_trigger_name spec +:+ "_drop".

Lemma drop_trigger_name_Ok spec name : drop_trigger_name spec = Ok name -> name = drop_name spec.
Proof. unfold drop_trigger_name. intros H. apply bind_Ok in H as (u & _ & H). by injection H as <-. Qed.

Lemma append_cancel s t : s = s +:+ t -> t = EmptyString.
Proof. induction s as [|c s IH]; cbn; intros H; [done|]. injection H as H. by apply IH. Qed.

Lemma trigger_names_differ spec : ds_trigger_name spec <> drop_name spec.
Proof. intros H. by apply append_cancel in H. Qed.

Section capture_lemmas.
Context (quote_ident : string -> string) (refused : string -> option string).
Notation is_current := (ddl_capture_is_current quote_ident).

(** What the check reads. *)
Record agree (schema : string) (names : list string) (c c' : CaptureCatalog) : Prop := {
  ag_triggers : forall name, name ∈ names -> cc_triggers c' !! name = cc_triggers c !! name;
  ag_functions : cc_functions c' = cc_functions c;
  ag_audit : cc_audit c' = cc_audit c;
}.

Lemma current_agree spec sources c c' :
  agree (ds_metadata_schema spec) [ds_trigger_name spec; drop_name spec] c c' ->
  is_current c' spec (drop_name spec) sources = is_current c spec (drop_name spec) sources.
Proof.
  intros [Ht Hf Ha]. unfold ddl_capture_is_current, valid_functions, valid_function, valid_trigger, valid_audit.
  by rewrite Hf, Ha, !Ht by set_solver.
Qed.

Lemma cleanup_agree spec c :
  ds_trigger_name spec = CANONICAL_DDL_TRIGGER_NAME ->
  agree (ds_metadata_schema spec) [ds_trigger_name spec; drop_name spec] c (singleton_cleanup c).
Proof.
  intros Hc. split; [|done..]. intros name Hn. unfold singleton_cleanup, set_cc_triggers. cbn [cc_triggers].
  rewrite map_lookup_filter.
  destruct (cc_triggers c !! name) as [row|] eqn:E; [|done]. cbn [mbind option_bind]. rewrite option_guard_True; [done|].
  unfold drop_name in Hn. rewrite Hc in Hn.
  apply elem_of_cons in Hn as [->|[->|[]%elem_of_nil]%elem_of_cons]; auto.
Qed.

Lemma cleanup_twice c : singleton_cleanup (singleton_cleanup c) = singleton_cleanup c.
Proof.
  unfold singleton_cleanup, set_cc_triggers. cbn [cc_triggers cc_functions cc_audit]. f_equal.
  rewrite map_filter_filter. apply map_filter_ext.
  naive_solver.
Qed.

(** The capture of another schema is not current here. *)
Lemma current_not_foreign spec sources c :
  is_current c spec (drop_name spec) sources = true -> foreign_schema c spec (drop_name spec) = None.
Proof.
  unfold ddl_capture_is_current, valid_trigger, foreign_schema. rewrite !andb_true_iff.
  intros [[[_ H1] H2] _]. destruct (cc_triggers c !! ds_trigger_name spec) as [r1|]; [|done].
  destruct (cc_triggers c !! drop_name spec) as [r2|]; [|done].
  rewrite !andb_true_iff, !bool_decide_eq_true in H1, H2.
  destruct H1 as [[[[_ ->] _] _] _], H2 as [[[[_ ->] _] _] _].
  cbn [fst]. by rewrite !(bool_decide_true (ds_metadata_schema spec = _)), !andb_false_r by done.
Qed.

(** The installer. *)
Lemma replace_triggers schema name args row c c' :
  create_or_replace_function schema name args row c = Ok c' ->
  cc_triggers c' = cc_triggers c /\ cc_audit c' = cc_audit c.
Proof.
  unfold create_or_replace_function. destruct (cc_functions c !! _) as [old|]; [|by injection 1 as <-].
  destruct (_ && _); [|done]. by injection 1 as <-.
Qed.

Lemma replace_functions_triggers schema sources c c' :
  replace_functions quote_ident schema sources c = Ok c' -> cc_triggers c' = cc_triggers c.
Proof.
  unfold replace_functions. intros H. apply bind_Ok in H as (c1 & H1 & H).
  apply bind_Ok in H as (c2 & H2 & H). apply bind_Ok in H as (c3 & H3 & H4).
  apply replace_triggers in H1 as [H1 _], H2 as [H2 _], H3 as [H3 _], H4 as [H4 _]. congruence.
Qed.

Lemma create_audit_triggers schema c : cc_triggers (create_audit_table schema c) = cc_triggers c.
Proof. unfold create_audit_table. by destruct (_ !! _). Qed.

Lemma installer_triggers spec sources c c' :
  run_installer quote_ident spec (drop_name spec) sources c = Ok c' ->
  exists m, m = (if bool_decide (ds_trigger_name spec = CANONICAL_DDL_TRIGGER_NAME)
                 then cc_triggers (singleton_cleanup c) else cc_triggers c) /\
  (forall name row, name = ds_trigger_name spec \/ name = drop_name spec -> m !! name = Some row ->
     managed row = true) /\
  exists r1 r2, managed r1 = true /\ managed r2 = true /\
    cc_triggers c' = <[drop_name spec := r2]> (<[ds_trigger_name spec := r1]> (delete (ds_trigger_name spec)
                       (delete (drop_name spec) m))).
Proof.
  unfold run_installer. intros H.
  apply bind_Ok in H as (c4 & H4 & H). apply replace_functions_triggers in H4.
  rewrite create_audit_triggers in H4. cbv zeta in H.
  set (c5 := if bool_decide _ then singleton_cleanup c4 else c4) in *.
  exists (cc_triggers c5). split.
  { subst c5. case_bool_decide; [|congruence]. unfold singleton_cleanup, set_cc_triggers.
    cbn [cc_triggers]. congruence. }
  destruct (conflicting c5 _) eqn:E1; [done|]. destruct (conflicting c5 (drop_name spec)) eqn:E2; [done|].
  injection H as <-. split.
  - unfold conflicting in E1, E2. intros name row [->| ->] Hrow; [rewrite Hrow in E1|rewrite Hrow in E2];
      by apply negb_false_iff.
  - exists (mkTriggerRow "ddl_command_end" (ds_metadata_schema spec, "emit_ddl_event") "O" None
              (Some DDL_CAPTURE_MARKER)),
      (mkTriggerRow "sql_drop" (ds_metadata_schema spec, "emit_sql_drop_event") "O" None
         (Some DDL_CAPTURE_MARKER)).
    by split_and!.
Qed.

(** What a capture leaves behind: the definitions are current, no other managed trigger of the
    canonical installation is left, foreign triggers are untouched, and a capture that was
    current keeps its functions and its audit table. *)
Record captured (spec : DdlInstallSpec) (sources : DdlFunctionSources) (installed : bool)
    (c c' : CaptureCatalog) : Prop := {
  cp_current : is_current c' spec (drop_name spec) sources = true;
  cp_single : ds_trigger_name spec = CANONICAL_DDL_TRIGGER_NAME -> forall name row,
    cc_triggers c' !! name = Some row -> managed row = true ->
    name = ds_trigger_name spec \/ name = drop_name spec;
  cp_foreign : forall name row, cc_triggers c !! name = Some row -> managed row = false ->
    cc_triggers c' !! name = Some row;
  cp_kept : installed = false -> is_current c spec (drop_name spec) sources = true /\
    cc_functions c' = cc_functions c /\ cc_audit c' = cc_audit c;
}.

Lemma cleanup_lookup c name row :
  cc_triggers (singleton_cleanup c) !! name = Some row <->
  cc_triggers c !! name = Some row /\
  (name = CANONICAL_DDL_TRIGGER_NAME \/ name = CANONICAL_DDL_TRIGGER_NAME +:+ "_drop" \/ managed row = false).
Proof.
  unfold singleton_cleanup, set_cc_triggers. cbn [cc_triggers]. by rewrite map_lookup_filter_Some.
Qed.

Lemma capture_executed sql effect c c' : execute refused sql effect c = Ok c' -> effect c = Ok c'.
Proof. unfold execute. destruct (refused sql); [done|]. apply map_err_Ok. Qed.

Lemma kept_captured spec sources c :
  is_current c spec (drop_name spec) sources = true ->
  captured spec sources false c
    (if bool_decide (ds_trigger_name spec = CANONICAL_DDL_TRIGGER_NAME) then singleton_cleanup c else c).
Proof.
  intros Hcur. case_bool_decide as Hc; split; try done.
  - by rewrite (current_agree spec sources c) by (by apply cleanup_agree).
  - intros _ name row Hrow Hm. apply cleanup_lookup in Hrow as [_ Hrow]. rewrite Hm in Hrow.
    unfold drop_name. rewrite Hc. by destruct Hrow as [?|[?|?]]; [left|right|].
  - intros name row Hrow Hm. apply cleanup_lookup. auto.
Qed.

Lemma installed_captured spec sources c c' :
  run_installer quote_ident spec (drop_name spec) sources c = Ok c' ->
  is_current c' spec (drop_name spec) sources = true -> captured spec sources true c c'.
Proof.
  intros H Hcur. apply installer_triggers in H as (m & Hm & Hconf & r1 & r2 & Hr1 & Hr2 & Ht).
  split; [done|..|done].
  - intros Hc name row. rewrite Ht, lookup_insert_Some, lookup_insert_Some, !lookup_delete_Some.
    intros [[<- _]|[_ [[<- _]|(_ & _ & _ & Hrow)]]] Hman; [by right|by left|].
    rewrite Hm, bool_decide_true in Hrow by done. apply cleanup_lookup in Hrow as [_ Hrow].
    unfold drop_name. rewrite Hc. rewrite Hman in Hrow. by destruct Hrow as [?|[?|?]]; [left|right|].
  - intros name row Hrow Hf.
    assert (Hin : m !! name = Some row).
    { rewrite Hm. case_bool_decide; [apply cleanup_lookup; auto|done]. }
    assert (Hne : name <> ds_trigger_name spec /\ name <> drop_name spec).
    { split; intros ->; (apply Hconf in Hin; [congruence|auto]). }
    destruct Hne. by rewrite Ht, !lookup_insert_ne, !lookup_delete_ne by done.
Qed.

Lemma transaction_captured spec sources sql c installed c' :
  capture_transaction quote_ident refused spec (drop_name spec) sources sql c = Ok (installed, c') ->
  captured spec sources installed c c'.
Proof.
  unfold capture_transaction. intros H. apply bind_Ok in H as (c1 & H1 & H).
  apply capture_executed in H1. injection H1 as <-.
  destruct (foreign_schema _ _ _); [done|]. cbv zeta in H.
  apply bind_Ok in H as (c2 & H2 & H). apply capture_executed in H2. injection H2 as <-.
  destruct (is_current c spec _ _) eqn:Hcur.
  - apply bind_Ok in H as (c3 & H3 & H). injection H as <- <-.
    pose proof (kept_captured spec sources c Hcur) as Hk. case_bool_decide.
    + apply capture_executed in H3. by injection H3 as <-.
    + by injection H3 as <-.
  - apply bind_Ok in H as (c3 & H3 & H). apply capture_executed in H3.
    destruct (is_current c3 spec _ _) eqn:Hcur3; [|done]. injection H as <- <-. by apply installed_captured.
Qed.

(** A capture that is current, alone, stays as it is. *)
Lemma current_transaction spec sources sql c :
  (forall sql, refused sql = None) -> is_current c spec (drop_name spec) sources = true ->
  (ds_trigger_name spec = CANONICAL_DDL_TRIGGER_NAME -> singleton_cleanup c = c) ->
  capture_transaction quote_ident refused spec (drop_name spec) sources sql c = Ok (false, c).
Proof.
  intros Hr Hcur Hs. unfold capture_transaction, execute. rewrite !Hr. cbn [map_err mbind result_bind].
  rewrite (current_not_foreign _ _ _ Hcur), Hcur. case_bool_decide as Hc; cbn [map_err mbind result_bind]; [|done].
  by rewrite Hs.
Qed.

Lemma captured_cleanup spec sources installed c c' :
  captured spec sources installed c c' -> ds_trigger_name spec = CANONICAL_DDL_TRIGGER_NAME ->
  singleton_cleanup c' = c'.
Proof.
  intros [_ Hs _ _] Hc. specialize (Hs Hc). destruct c' as [t f a].
  unfold singleton_cleanup, set_cc_triggers. cbn [cc_triggers cc_functions cc_audit] in *. f_equal.
  apply map_filter_id. intros name row Hrow. unfold drop_name in Hs. rewrite Hc in Hs.
  destruct (managed row) eqn:Hm; [|by auto]. destruct (Hs _ _ Hrow Hm); auto.
Qed.
End capture_lemmas.

Section properties.
Context (quote_ident : string -> string) (refused : string -> option string).

(** What the code computes before it opens the transaction. *)
Definition prepared (spec : DdlInstallSpec) : result SourceError (string * DdlFunctionSources * string) :=
  let? _ := DdlInstallSpec_validate spec in
  let? drop_trigger := drop_trigger_name spec in
  let? sources := function_sources spec in
  let? sql := install_sql spec in
  Ok (drop_trigger, sources, sql).

Lemma ensure_prepared lost spec c :
  ensure_ddl_capture quote_ident refused lost spec c =
  match
    (let? p := prepared spec in
     let? _ := execute refused "BEGIN" Ok c in
     capture_transaction quote_ident refused spec p.1.1 p.1.2 p.2 c)
  with
  | Err e => (Err e, c)
  | Panic => (Panic, c)
  | Ok (installed, committed) =>
      match lost with
      | Some (message, executed) => (Err (Postgres message), if executed : bool then committed else c)
      | None => (Ok installed, committed)
      end
  end.
Proof.
  unfold ensure_ddl_capture, prepared. destruct (DdlInstallSpec_validate spec); cbn [mbind result_bind]; try done.
  destruct (drop_trigger_name spec); cbn [mbind result_bind]; try done.
  destruct (function_sources spec); cbn [mbind result_bind]; try done.
  by destruct (install_sql spec).
Qed.

Lemma prepared_drop spec drop sources sql :
  prepared spec = Ok (drop, sources, sql) -> drop_name spec = drop.
Proof.
  intros Hp. unfold prepared in Hp. apply bind_Ok in Hp as (u & _ & Hp). apply bind_Ok in Hp as (d & Hd & Hp).
  apply bind_Ok in Hp as (s & _ & Hp). apply bind_Ok in Hp as (q & _ & Hp).
  injection Hp as <- _ _. by apply drop_trigger_name_Ok in Hd.
Qed.

(** The capture stands in [c'] as the installation makes it out of [c], and a second
    installation - every reconnection - succeeds without changing anything, so that it emits no
    DDL of its own. *)
Definition stands (spec : DdlInstallSpec) (installed : bool) (c c' : CaptureCatalog) : Prop :=
  (exists sources, function_sources spec = Ok sources /\ captured quote_ident spec sources installed c c') /\
  ensure_ddl_capture quote_ident (fun _ => None) None spec c' = (Ok false, c').

End properties.

Section outcome.
Context (quote_ident : string -> string) (refused : string -> option string).

Lemma committed_stands spec drop sources sql c installed c' :
  prepared spec = Ok (drop, sources, sql) ->
  capture_transaction quote_ident refused spec drop sources sql c = Ok (installed, c') ->
  stands quote_ident spec installed c c'.
Proof.
  intros Hp Ht. pose proof (prepared_drop _ _ _ _ Hp) as Hd. rewrite <-Hd in *.
  pose proof (transaction_captured _ _ _ _ _ _ _ _ Ht) as Hc. split.
  - exists sources. split; [|done]. unfold prepared in Hp. apply bind_Ok in Hp as (u & _ & Hp).
    apply bind_Ok in Hp as (d & _ & Hp). apply bind_Ok in Hp as (s & Hs & Hp).
    apply bind_Ok in Hp as (q & _ & Hp). by injection Hp as _ <- _.
  - rewrite ensure_prepared, Hp. cbn [execute map_err mbind result_bind fst snd].
    rewrite (current_transaction quote_ident (fun _ => None) spec sources); [done..|by destruct Hc|].
    by eapply captured_cleanup.
Qed.

(** How an installation ends, whatever is refused and whether the reply of the COMMIT is lost. *)
Lemma ensured_capture lost spec c r c' :
  ensure_ddl_capture quote_ident refused lost spec c = (r, c') ->
  match r with
  | Ok installed => lost = None /\ stands quote_ident spec installed c c'
  | Err e => c' = c \/ exists message installed,
      lost = Some (message, true) /\ e = Postgres message /\ stands quote_ident spec installed c c'
  | Panic => c' = c
  end.
Proof.
  rewrite ensure_prepared. intros H.
  destruct (prepared spec) as [[[drop sources] sql]| |] eqn:Hp; cbn [mbind result_bind] in H;
    [|injection H as <- <-; by try left..].
  destruct (execute _ _ _ _) as [u| |]; cbn [mbind result_bind fst snd] in H; [|injection H as <- <-; by try left..].
  destruct (capture_transaction _ _ _ _ _ _ _) as [[i k]| |] eqn:Ht; [|injection H as <- <-; by try left..].
  pose proof (committed_stands _ _ _ _ _ _ _ Hp Ht) as Hs.
  destruct lost as [[message []]|]; injection H as <- <-; [right; by exists message, i|by left|done].
Qed.
End outcome.

Section success.
Context (quote_ident : string -> string) (refused : string -> option string).

(** A function that [CREATE OR REPLACE] can write. *)
Definition replaceable (c : CaptureCatalog) (schema name : string) (arguments : list string) (return_type : string)
    : Prop :=
  forall old, cc_functions c !! (schema, name, arguments) = Some old ->
    fr_kind old = "f" /\ fr_return_type old = return_type /\ fr_returns_set old = false.

Definition capture_functions : list (string * list string * string) :=
  [("schema_snapshot", ["oid"], "jsonb"); ("schema_fingerprint", ["oid"], "text");
   ("emit_ddl_event", [], "event_trigger"); ("emit_sql_drop_event", [], "event_trigger")].

(** Nothing on the server is in the way of the installer. *)
Record installable (spec : DdlInstallSpec) (c : CaptureCatalog) : Prop := {
  in_triggers : forall name row, name = ds_trigger_name spec \/ name = drop_name spec ->
    cc_triggers c !! name = Some row -> managed row = true /\ (et_function row).1 = ds_metadata_schema spec;
  in_functions : forall f, f ∈ capture_functions -> replaceable c (ds_metadata_schema spec) f.1.1 f.1.2 f.2;
  in_audit : is_Some (cc_audit c !! ds_metadata_schema spec) -> valid_audit c (ds_metadata_schema spec) = true;
}.

Lemma replace_Ok schema name args (row : option string -> FunctionRow) c rt :
  replaceable c schema name args rt ->
  (forall k, fr_return_type (row k) = rt /\ fr_returns_set (row k) = false) ->
  exists k, create_or_replace_function schema name args row c
            = Ok (set_cc_functions (insert (schema, name, args) (row k)) c).
Proof.
  intros Hr Hrow. unfold create_or_replace_function. destruct (Hrow None) as [H1 H2].
  destruct (cc_functions c !! _) as [old|] eqn:E; [|by eexists].
  destruct (Hr _ E) as (-> & -> & ->). rewrite H1, H2, !bool_decide_true by done. by eexists.
Qed.

Lemma replaceable_insert c schema name args row name' args' rt :
  (name', args') <> (name, args) -> replaceable c schema name' args' rt ->
  replaceable (set_cc_functions (insert (schema, name, args) row) c) schema name' args' rt.
Proof.
  intros Hne Hr old. unfold set_cc_functions. cbn [cc_functions].
  rewrite lookup_insert_ne by congruence. apply Hr.
Qed.

Lemma replace_functions_Ok schema sources c :
  (forall f, f ∈ capture_functions -> replaceable c schema f.1.1 f.1.2 f.2) ->
  exists c', replace_functions quote_ident schema sources c = Ok c' /\ cc_triggers c' = cc_triggers c /\
    cc_audit c' = cc_audit c /\
    exists k1 k2 k3 k4, cc_functions c' =
      <[(schema, "emit_sql_drop_event", []) :=
          trigger_function quote_ident schema (df_emit_sql_drop_event sources) k4]>
      (<[(schema, "emit_ddl_event", []) := trigger_function quote_ident schema (df_emit_ddl_event sources) k3]>
      (<[(schema, "schema_fingerprint", ["oid"]) := sql_function "text" (df_schema_fingerprint sources) k2]>
      (<[(schema, "schema_snapshot", ["oid"]) := sql_function "jsonb" (df_schema_snapshot sources) k1]>
      (cc_functions c)))).
Proof.
  intros Hr. unfold replace_functions.
  destruct (replace_Ok schema "schema_snapshot" ["oid"] (sql_function "jsonb" (df_schema_snapshot sources)) c
              "jsonb") as (k1 & ->); [apply (Hr ("schema_snapshot", ["oid"], "jsonb")); by left|done|].
  cbn [mbind result_bind]. set (c1 := set_cc_functions _ c).
  destruct (replace_Ok schema "schema_fingerprint" ["oid"] (sql_function "text" (df_schema_fingerprint sources))
              c1 "text") as (k2 & ->); [|done|].
  { apply replaceable_insert; [done|]. apply (Hr ("schema_fingerprint", ["oid"], "text")). by right; left. }
  cbn [mbind result_bind]. set (c2 := set_cc_functions _ c1).
  destruct (replace_Ok schema "emit_ddl_event" []
              (trigger_function quote_ident schema (df_emit_ddl_event sources)) c2 "event_trigger")
    as (k3 & ->); [|done|].
  { do 2 (apply replaceable_insert; [done|]). apply (Hr ("emit_ddl_event", [], "event_trigger")).
    by do 2 right; left. }
  cbn [mbind result_bind]. set (c3 := set_cc_functions _ c2).
  destruct (replace_Ok schema "emit_sql_drop_event" []
              (trigger_function quote_ident schema (df_emit_sql_drop_event sources)) c3 "event_trigger")
    as (k4 & ->); [|done|].
  { do 3 (apply replaceable_insert; [done|]). apply (Hr ("emit_sql_drop_event", [], "event_trigger")).
    by do 3 right; left. }
  eexists. split_and!; [reflexivity..|]. by exists k1, k2, k3, k4.
Qed.

Lemma installer_succeeds spec sources c :
  installable spec c ->
  exists c', run_installer quote_ident spec (drop_name spec) sources c = Ok c' /\
    ddl_capture_is_current quote_ident c' spec (drop_name spec) sources = true.
Proof.
  intros [Ht Hf Ha]. unfold run_installer. set (schema := ds_metadata_schema spec) in *.
  set (c0 := create_audit_table schema c).
  assert (Ha0 : valid_audit c0 schema = true).
  { unfold c0, create_audit_table. destruct (cc_audit c !! schema) eqn:E; [by apply Ha; eexists|].
    unfold valid_audit, set_cc_audit. cbn [cc_audit]. by rewrite lookup_insert_eq. }
  destruct (replace_functions_Ok schema sources c0) as (c4 & -> & Ht4 & Ha4 & k1 & k2 & k3 & k4 & Hf4).
  { intros f Hin old. unfold c0, create_audit_table. intros Hold. apply (Hf f Hin). by destruct (_ !! schema). }
  cbn [mbind result_bind]. unfold c0 in Ht4. rewrite create_audit_triggers in Ht4.
  set (c5 := if bool_decide _ then singleton_cleanup c4 else c4).
  assert (Hnc : forall name, name = ds_trigger_name spec \/ name = drop_name spec -> conflicting c5 name = false).
  { intros name Hn. unfold conflicting. destruct (cc_triggers c5 !! name) as [row|] eqn:E; [|done].
    assert (Hrow : cc_triggers c !! name = Some row).
    { rewrite <-Ht4. unfold c5 in E. case_bool_decide; [by apply cleanup_lookup in E as [E _]|done]. }
    apply (Ht _ _ Hn) in Hrow as [-> _]. done. }
  rewrite !Hnc by auto. cbn [orb]. eexists. split; [reflexivity|].
  assert (Hf5 : cc_functions c5 = cc_functions c4) by (unfold c5; by case_bool_decide).
  assert (Ha5 : cc_audit c5 = cc_audit c0) by (unfold c5; by case_bool_decide).
  unfold ddl_capture_is_current. fold schema. rewrite !andb_true_iff.
  unfold valid_functions, valid_function, valid_trigger, valid_audit in *.
  unfold comment_function, create_trigger, set_cc_functions, set_cc_triggers.
  cbn [cc_functions cc_triggers cc_audit]. rewrite Hf5, Hf4, Ha5. split_and!; try done;
    repeat first [rewrite lookup_alter_ne by congruence | rewrite lookup_alter_eq | rewrite lookup_insert_eq
                 | rewrite lookup_insert_ne by congruence
                 | rewrite lookup_insert_ne by (apply not_eq_sym, trigger_names_differ)];
    cbn; by rewrite !bool_decide_true.
Qed.

(** On a server where nothing is in the way, the installer produces what the check of its
    result asks for, and where the capture is current already it is found so: the installation
    succeeds. *)
Theorem capture_can_be_installed spec c :
  (forall sql, refused sql = None) -> (exists p, prepared spec = Ok p) -> installable spec c ->
  exists installed c', ensure_ddl_capture quote_ident refused None spec c = (Ok installed, c').
Proof.
  intros Hr [[[drop sources] sql] Hp] Hin. rewrite ensure_prepared, Hp.
  rewrite <-(prepared_drop _ _ _ _ Hp). unfold execute at 1. rewrite Hr. cbn [map_err mbind result_bind fst snd].
  destruct (ddl_capture_is_current quote_ident c spec (drop_name spec) sources) eqn:Hcur.
  - unfold capture_transaction, execute. rewrite !Hr. cbn [map_err mbind result_bind].
    rewrite (current_not_foreign _ _ _ _ Hcur), Hcur. case_bool_decide; cbn [map_err mbind result_bind]; by do 2 eexists.
  - destruct (installer_succeeds spec sources c Hin) as (c' & Hi & Hc').
    unfold capture_transaction, execute. rewrite !Hr. cbn [map_err mbind result_bind].
    assert (Hfs : foreign_schema c spec (drop_name spec) = None).
    { destruct Hin as [Ht _ _]. unfold foreign_schema.
      destruct (cc_triggers c !! ds_trigger_name spec) as [r1|] eqn:E1,
        (cc_triggers c !! drop_name spec) as [r2|] eqn:E2; cbv zeta;
        repeat match goal with
        | E : cc_triggers c !! _ = Some _ |- _ => apply Ht in E as [-> ->]; [|by auto]
        end; by rewrite ?bool_decide_true. }
    rewrite Hfs, Hcur, Hi. cbn [map_err mbind result_bind]. rewrite Hc'. by do 2 eexists.
Qed.

(** C24: When the installation of the DDL capture reports success, the catalogs hold exactly the
    expected functions, triggers and audit table, no other managed trigger of the canonical
    installation is left, foreign triggers are untouched; a second installation - every
    reconnection - succeeds without changing anything, so that it emits no DDL of its own.  When
    it fails, whichever statement was refused, nothing changed - except that the COMMIT may have
    been executed though its reply was lost, and then the capture stands as after a success.  It
    does succeed when nothing on the server is in its way, no statement is refused and the reply
    arrives. *)
Theorem capture_is_installed_once lost spec c r c' :
  ensure_ddl_capture quote_ident refused lost spec c = (r, c') ->
  match r with
  | Ok installed => lost = None /\ stands quote_ident spec installed c c'
  | Err e => c' = c \/ exists message installed,
      lost = Some (message, true) /\ e = Postgres message /\ stands quote_ident spec installed c c'
  | Panic => c' = c
  end /\
  ((forall sql, refused sql = None) -> lost = None -> (exists p, prepared spec = Ok p) -> installable spec c ->
   exists installed, r = Ok installed).
Proof.
  intros H. split; [by eapply ensured_capture|]. intros Hr -> Hp Hin.
  destruct (capture_can_be_installed spec c Hr Hp Hin) as (installed & c1 & H1). rewrite H1 in H.
  injection H as <- _. by exists installed.
Qed.
End success.

(** ** Examples *)

Definition no_catalog : CaptureCatalog := mkCaptureCatalog ∅ ∅ ∅.
Definition other_trigger : TriggerRow := mkTriggerRow "ddl_command_end" ("audit", "log") "O" None None.
(** A server with a trigger of someone else and the capture of an older version. *)
Definition used_catalog : CaptureCatalog :=
  mkCaptureCatalog
    (<["log_all" := other_trigger]>
       {["pg2cb_old" := mkTriggerRow "ddl_command_end" ("pg2cb_meta", "emit_ddl_event") "O" None
                          (Some "pg2cloudberry_ddl_capture_v2")]}) ∅ ∅.

Lemma prepared_default : exists p, prepared DdlInstallSpec_default = Ok p.
Proof.
  destruct (prepared DdlInstallSpec_default) as [p|e|] eqn:E; [by eexists|..];
    exfalso; apply (f_equal is_ok) in E; vm_compute in E; discriminate E.
Qed.

Lemma used_installable : installable DdlInstallSpec_default used_catalog.
Proof.
  split.
  - intros name row [->| ->] H; vm_compute in H; discriminate H.
  - intros f _ old H. discriminate H.
  - intros [table H]. discriminate H.
Qed.

Lemma capture_can_be_installed_witness :
  exists installed c',
    ensure_ddl_capture id (fun _ => None) None DdlInstallSpec_default used_catalog = (Ok installed, c').
Proof. apply capture_can_be_installed; [done|exact prepared_default|exact used_installable]. Defined.

(** The trigger of the older version is gone. *)
Lemma older_is_gone lost r c' :
  ensure_ddl_capture id (fun _ => None) lost DdlInstallSpec_default used_catalog = (r, c') ->
  lost = None \/ lost = Some ("connection closed", true) ->
  cc_triggers c' !! "pg2cb_old" = None.
Proof.
  intros E Hl. apply (f_equal (fun x => bool_decide (cc_triggers x.2 !! "pg2cb_old" = None))) in E.
  cbn [snd] in E. symmetry in E.
  assert (Ht : bool_decide (cc_triggers c' !! "pg2cb_old" = None) = true)
    by (rewrite E; destruct Hl as [->| ->]; vm_compute; reflexivity).
  by apply bool_decide_eq_true in Ht.
Qed.

(** The installation succeeds; and when its COMMIT is executed without a reply, it reports an
    error and leaves the same capture. *)
Lemma capture_is_installed_once_witness :
  (exists installed c',
    ensure_ddl_capture id (fun _ => None) None DdlInstallSpec_default used_catalog = (Ok installed, c') /\
    cc_triggers c' !! "log_all" = Some other_trigger /\ cc_triggers c' !! "pg2cb_old" = None /\
    ensure_ddl_capture id (fun _ => None) None DdlInstallSpec_default c' = (Ok false, c')) /\
  (exists e c',
    ensure_ddl_capture id (fun _ => None) (Some ("connection closed", true)) DdlInstallSpec_default used_catalog
      = (Err e, c') /\
    cc_triggers c' !! "pg2cb_old" = None /\
    (c' = used_catalog \/
     ensure_ddl_capture id (fun _ => None) None DdlInstallSpec_default c' = (Ok false, c'))).
Proof.
  split.
  - destruct (ensure_ddl_capture id (fun _ => None) None DdlInstallSpec_default used_catalog) as [r c'] eqn:E.
    destruct (capture_is_installed_once id (fun _ => None) _ _ _ _ _ E) as [H Hok].
    destruct (Hok (fun _ => eq_refl) eq_refl prepared_default used_installable) as [installed ->].
    destruct H as (_ & (sources & _ & [_ _ Hf _]) & Hagain). exists installed, c'. split_and!; [done|..|done].
    + by apply (Hf "log_all" other_trigger).
    + eapply older_is_gone; [exact E|by left].
  - destruct (ensure_ddl_capture id (fun _ => None) (Some ("connection closed", true)) DdlInstallSpec_default
                used_catalog) as [r c'] eqn:E.
    destruct (capture_is_installed_once id (fun _ => None) _ _ _ _ _ E) as [H _].
    destruct r as [installed|e|].
    + destruct H as [Hl _]. discriminate Hl.
    + exists e, c'. split_and!; [done|eapply older_is_gone; [exact E|by right]|].
      destruct H as [->|(message & installed & _ & _ & _ & Hagain)]; [by left|by right].
    + exfalso. apply (f_equal (fun x => match x.1 with Panic => true | _ => false end)) in E.
      vm_compute in E. discriminate E.
Defined.
