(* ===== verification/Store.v ===== *)
(** * The control store

    Models [crates/metadata/src/{store,model,migration}.rs]: the control database as finite
    maps from primary keys to rows, and every operation of [PostgresControlStore] as what its
    one statement does to them.  A statement commits on its own, so an operation returns the
    new database next to its result; a violated constraint is an [Err] that changes nothing.

    Readings of the database's [clock_timestamp()] are arguments, one per occurrence, in
    microseconds; so is the rounding of a duration to an interval.  A UUID is a number.  JSON
    numbers are integers.  Rows are never deleted: the store has no such operation.  The
    connection pools and the collation of [ORDER BY] are not modelled: a list operation
    returns its rows as the map holds them. *)

From S2P Require Import Prelude Core Mapping Planning.

(** ** Data *)

Inductive SourceTopology : Type := Standalone | PhysicalHa | Citus.
Global Instance SourceTopology_eq_dec : EqDecision SourceTopology.
Proof. solve_decision. Defined.

Record EncryptedSecret : Type := mkEncryptedSecret {
  es_key_version : Z;
  es_nonce : bytes;
  es_ciphertext : bytes;
}.

Record SourceProfile : Type := mkSourceProfile {
  sp_id : Z;
  sp_name : string;
  sp_prefix : string;
  sp_database_name : string;
  sp_topology : SourceTopology;
  sp_encrypted_dsn : EncryptedSecret;
  sp_settings : Value;
  sp_enabled : bool;
  sp_created_at : Z;
  sp_updated_at : Z;
}.

Record TargetProfile : Type := mkTargetProfile {
  tp_id : Z;
  tp_name : string;
  tp_database_name : string;
  tp_encrypted_dsn : EncryptedSecret;
  tp_settings : Value;
  tp_enabled : bool;
  tp_created_at : Z;
  tp_updated_at : Z;
}.

Record PipelineDefinition : Type := mkPipelineDefinition {
  pd_id : Z;
  pd_name : string;
  pd_source_id : Z;
  pd_target_id : Z;
  pd_desired_running : bool;
  pd_config_revision : Z;
  pd_snapshot_generation : Z;
  pd_settings : Value;
  pd_created_at : Z;
  pd_updated_at : Z;
}.

Record RebuildRequest : Type := mkRebuildRequest {
  rq_pipeline : PipelineDefinition;
  rq_operation_id : Z;
}.

Record OperationRecord : Type := mkOperationRecord {
  op_id : Z;
  op_pipeline_id : option Z;
  op_operation_type : string;
  op_state : string;
  op_detail : Value;
  op_created_at : Z;
  op_updated_at : Z;
}.

Record PipelineLease : Type := mkPipelineLease {
  pl_pipeline_id : Z;
  pl_holder_id : Z;
  pl_fencing_token : Z;
  pl_expires_at : Z;
}.
Global Instance PipelineLease_eq_dec : EqDecision PipelineLease.
Proof. solve_decision. Defined.

Inductive StoreError : Type :=
| StoreDatabase (message : string)
| StorePool (message : string)
| StoreInvalidPrefix (source : CoreError)
| InvalidTopology (topology : string)
| InvalidLeaseDuration
| StaleRevision
| IncompatibleSchemaVersion (expected actual : Z)
| ReadOnly.
Global Instance StoreError_eq_dec : EqDecision StoreError.
Proof. solve_decision. Defined.

(** ** The control database *)

(** A row of [sources]: the topology and the key version as the columns hold them. *)
Record SourceRow : Type := mkSourceRow {
  sr_name : string;
  sr_prefix : string;
  sr_database_name : string;
  sr_topology : string;
  sr_dsn_key_version : Z;
  sr_dsn_nonce : bytes;
  sr_dsn_ciphertext : bytes;
  sr_settings : Value;
  sr_enabled : bool;
  sr_created_at : Z;
  sr_updated_at : Z;
}.

(** A row of [targets]. *)
Record TargetRow : Type := mkTargetRow {
  tr_name : string;
  tr_database_name : string;
  tr_dsn_key_version : Z;
  tr_dsn_nonce : bytes;
  tr_dsn_ciphertext : bytes;
  tr_settings : Value;
  tr_enabled : bool;
  tr_created_at : Z;
  tr_updated_at : Z;
}.

(** A row of [pipeline_leases]. *)
Record LeaseRow : Type := mkLeaseRow {
  lr_holder_id : Z;
  lr_fencing_token : Z;
  lr_expires_at : Z;
  lr_updated_at : Z;
}.

(** A row of [audit_log]; the list keeps the order of its identity column. *)
Record AuditRow : Type := mkAuditRow {
  au_action : string;
  au_object_type : string;
  au_object_id : Z;
  au_detail : Value;
}.

(** A row of [schema_migrations]. *)
Record MigrationRow : Type := mkMigrationRow {
  mr_name : string;
  mr_checksum : bytes;
}.

Record ControlDb : Type := mkControlDb {
  cd_migrations : gmap Z MigrationRow;
  cd_sources : gmap Z SourceRow;
  cd_targets : gmap Z TargetRow;
  cd_pipelines : gmap Z PipelineDefinition;
  cd_config_revisions : gmap (Z * Z) Value;
  cd_leases : gmap Z LeaseRow;
  cd_operations : gmap Z OperationRecord;
  cd_audit : list AuditRow;
}.

Definition set_sources (m : gmap Z SourceRow) (db : ControlDb) : ControlDb :=
  mkControlDb (cd_migrations db) m (cd_targets db) (cd_pipelines db) (cd_config_revisions db)
    (cd_leases db) (cd_operations db) (cd_audit db).
Definition set_targets (m : gmap Z TargetRow) (db : ControlDb) : ControlDb :=
  mkControlDb (cd_migrations db) (cd_sources db) m (cd_pipelines db) (cd_config_revisions db)
    (cd_leases db) (cd_operations db) (cd_audit db).
Definition set_pipelines (m : gmap Z PipelineDefinition) (db : ControlDb) : ControlDb :=
  mkControlDb (cd_migrations db) (cd_sources db) (cd_targets db) m (cd_config_revisions db)
    (cd_leases db) (cd_operations db) (cd_audit db).
Definition set_config_revisions (m : gmap (Z * Z) Value) (db : ControlDb) : ControlDb :=
  mkControlDb (cd_migrations db) (cd_sources db) (cd_targets db) (cd_pipelines db) m
    (cd_leases db) (cd_operations db) (cd_audit db).
Definition set_leases (m : gmap Z LeaseRow) (db : ControlDb) : ControlDb :=
  mkControlDb (cd_migrations db) (cd_sources db) (cd_targets db) (cd_pipelines db)
    (cd_config_revisions db) m (cd_operations db) (cd_audit db).
Definition set_operations (m : gmap Z OperationRecord) (audit : list AuditRow) (db : ControlDb)
    : ControlDb :=
  mkControlDb (cd_migrations db) (cd_sources db) (cd_targets db) (cd_pipelines db)
    (cd_config_revisions db) (cd_leases db) m (cd_audit db ++ audit).
Definition set_migrations (m : gmap Z MigrationRow) (db : ControlDb) : ControlDb :=
  mkControlDb m (cd_sources db) (cd_targets db) (cd_pipelines db) (cd_config_revisions db)
    (cd_leases db) (cd_operations db) (cd_audit db).

(** ** Pure conversions *)

Definition CONTROL_SCHEMA_VERSION : Z := 2.

(** [u32 as i32] and [i32 as u32]. *)
Definition u32_as_i32 (n : Z) : Z := if (n <? 2 ^ 31)%Z then n else (n - 2 ^ 32)%Z.
Definition i32_as_u32 (n : Z) : Z := Z.modulo n (2 ^ 32).

(** A duration in nanoseconds; the bound on the seconds is exact on such durations. *)
Definition duration_seconds (duration : Z) : result StoreError Z :=
  if (0 <? duration)%Z && (duration <=? 86400 * 1000000000)%Z then Ok duration
  else Err InvalidLeaseDuration.

Definition topology_name (topology : SourceTopology) : string :=
  match topology with
  | Standalone => "standalone"
  | PhysicalHa => "physical_ha"
  | Citus => "citus"
  end.

Definition topology_from_name (value : string) : result StoreError SourceTopology :=
  if bool_decide (value = "standalone") then Ok Standalone
  else if bool_decide (value = "physical_ha") then Ok PhysicalHa
  else if bool_decide (value = "citus") then Ok Citus
  else Err (InvalidTopology value).

Definition source_from_row (id : Z) (row : SourceRow) : result StoreError SourceProfile :=
  let? prefix := map_err StoreInvalidPrefix (SourcePrefix_new (sr_prefix row)) in
  let? topology := topology_from_name (sr_topology row) in
  Ok (mkSourceProfile id (sr_name row) prefix (sr_database_name row) topology
        (mkEncryptedSecret (i32_as_u32 (sr_dsn_key_version row)) (sr_dsn_nonce row)
           (sr_dsn_ciphertext row))
        (sr_settings row) (sr_enabled row) (sr_created_at row) (sr_updated_at row)).

Definition target_from_row (id : Z) (row : TargetRow) : TargetProfile :=
  mkTargetProfile id (tr_name row) (tr_database_name row)
    (mkEncryptedSecret (i32_as_u32 (tr_dsn_key_version row)) (tr_dsn_nonce row)
       (tr_dsn_ciphertext row))
    (tr_settings row) (tr_enabled row) (tr_created_at row) (tr_updated_at row).

Definition lease_from_row (pipeline_id : Z) (row : LeaseRow) : PipelineLease :=
  mkPipelineLease pipeline_id (lr_holder_id row) (lr_fencing_token row) (lr_expires_at row).

(** ** Sources, targets and pipelines *)

(** A unique column: no row under another key has the value. *)
Definition unique_in {A B} `{EqDecision B} (m : gmap Z A) (key : Z) (f : A -> B) (value : B) : bool :=
  forallb (fun kv => bool_decide (kv.1 = key) || negb (bool_decide (f kv.2 = value))) (map_to_list m).

Definition check_readiness (read_only : bool) (db : ControlDb) : result StoreError unit :=
  let actual := foldr (fun kv => Z.max kv.1) 0%Z (map_to_list (cd_migrations db)) in
  if negb (actual =? CONTROL_SCHEMA_VERSION)%Z
  then Err (IncompatibleSchemaVersion CONTROL_SCHEMA_VERSION actual)
  else if read_only then Err ReadOnly else Ok tt.

Definition put_source (now : Z) (source : SourceProfile) (db : ControlDb)
    : result StoreError unit * ControlDb :=
  let secret := sp_encrypted_dsn source in
  if negb (unique_in (cd_sources db) (sp_id source) sr_name (sp_name source))
     || negb (unique_in (cd_sources db) (sp_id source) sr_prefix (sp_prefix source))
  then (Err (StoreDatabase "duplicate key value violates unique constraint"), db)
  else
    let row created updated :=
      mkSourceRow (sp_name source) (sp_prefix source) (sp_database_name source)
        (topology_name (sp_topology source)) (u32_as_i32 (es_key_version secret)) (es_nonce secret)
        (es_ciphertext secret) (sp_settings source) (sp_enabled source) created updated in
    let row :=
      match cd_sources db !! sp_id source with
      | None => row (sp_created_at source) (sp_updated_at source)
      | Some old => row (sr_created_at old) now
      end in
    (Ok tt, set_sources (<[sp_id source := row]> (cd_sources db)) db).

Definition list_sources (db : ControlDb) : result StoreError (list SourceProfile) :=
  try_map (fun kv => source_from_row kv.1 kv.2) (map_to_list (cd_sources db)).

Definition put_target (now : Z) (target : TargetProfile) (db : ControlDb)
    : result StoreError unit * ControlDb :=
  let secret := tp_encrypted_dsn target in
  if negb (unique_in (cd_targets db) (tp_id target) tr_name (tp_name target))
  then (Err (StoreDatabase "duplicate key value violates unique constraint"), db)
  else
    let row created updated :=
      mkTargetRow (tp_name target) (tp_database_name target) (u32_as_i32 (es_key_version secret))
        (es_nonce secret) (es_ciphertext secret) (tp_settings target) (tp_enabled target) created
        updated in
    let row :=
      match cd_targets db !! tp_id target with
      | None => row (tp_created_at target) (tp_updated_at target)
      | Some old => row (tr_created_at old) now
      end in
    (Ok tt, set_targets (<[tp_id target := row]> (cd_targets db)) db).

Definition list_targets (db : ControlDb) : list TargetProfile :=
  map (fun kv => target_from_row kv.1 kv.2) (map_to_list (cd_targets db)).

(** The constraints of [pipelines] on a row that is written: the unique ones, then the
    references, which are checked at the end of the statement. *)
Definition pipeline_unique (db : ControlDb) (p : PipelineDefinition) : bool :=
  unique_in (cd_pipelines db) (pd_id p) pd_name (pd_name p)
  && unique_in (cd_pipelines db) (pd_id p) (fun q => (pd_source_id q, pd_target_id q))
       (pd_source_id p, pd_target_id p).
Definition pipeline_references (db : ControlDb) (p : PipelineDefinition) : bool :=
  bool_decide (is_Some (cd_sources db !! pd_source_id p))
  && bool_decide (is_Some (cd_targets db !! pd_target_id p)).

(** [DO UPDATE SET]: the row keeps whether it should run and its creation time. *)
Definition updated_pipeline (now : Z) (old pipeline : PipelineDefinition) : PipelineDefinition :=
  mkPipelineDefinition (pd_id pipeline) (pd_name pipeline) (pd_source_id pipeline)
    (pd_target_id pipeline) (pd_desired_running old) (pd_config_revision pipeline)
    (pd_snapshot_generation pipeline) (pd_settings pipeline) (pd_created_at old) now.

Definition put_pipeline (definition : PipelineDefinition -> Value) (now : Z)
    (pipeline : PipelineDefinition) (db : ControlDb) : result StoreError unit * ControlDb :=
  if (pd_config_revision pipeline <=? 0)%Z || (pd_snapshot_generation pipeline <=? 0)%Z
  then (Err (StoreDatabase "new row violates check constraint"), db)
  else
    let changed :=
      match cd_pipelines db !! pd_id pipeline with
      | None => Some pipeline
      | Some old =>
          if (pd_config_revision old <? pd_config_revision pipeline)%Z
             && (pd_snapshot_generation old <? pd_snapshot_generation pipeline)%Z
          then Some (updated_pipeline now old pipeline)
          else None
      end in
    match changed with
    | None => (Err StaleRevision, db)
    | Some row =>
        if negb (pipeline_unique db row)
        then (Err (StoreDatabase "duplicate key value violates unique constraint"), db)
        else if negb (pipeline_references db row)
        then (Err (StoreDatabase "insert or update on table violates foreign key constraint"), db)
        else
          let db := set_pipelines (<[pd_id row := row]> (cd_pipelines db)) db in
          let key := (pd_id row, pd_config_revision row) in
          match cd_config_revisions db !! key with
          | Some _ => (Err StaleRevision, db)
          | None =>
              (Ok tt, set_config_revisions (<[key := definition pipeline]> (cd_config_revisions db)) db)
          end
    end.

Definition list_pipelines (db : ControlDb) : list PipelineDefinition :=
  map snd (map_to_list (cd_pipelines db)).

Definition with_desired_running (desired_running : bool) (now : Z) (p : PipelineDefinition)
    : PipelineDefinition :=
  mkPipelineDefinition (pd_id p) (pd_name p) (pd_source_id p) (pd_target_id p) desired_running
    (pd_config_revision p) (pd_snapshot_generation p) (pd_settings p) (pd_created_at p) now.

Definition set_pipeline_desired_running (now : Z) (pipeline_id : Z) (desired_running : bool)
    (db : ControlDb) : result StoreError (option PipelineDefinition) * ControlDb :=
  match cd_pipelines db !! pipeline_id with
  | None => (Ok None, db)
  | Some p =>
      let p := with_desired_running desired_running now p in
      (Ok (Some p), set_pipelines (<[pipeline_id := p]> (cd_pipelines db)) db)
  end.

(** ** Rebuilds *)

Definition with_generation (generation now : Z) (p : PipelineDefinition) : PipelineDefinition :=
  mkPipelineDefinition (pd_id p) (pd_name p) (pd_source_id p) (pd_target_id p) (pd_desired_running p)
    (pd_config_revision p) generation (pd_settings p) (pd_created_at p) now.

(** [operation_id] is the new [OperationId]. *)
Definition request_pipeline_rebuild (now operation_id pipeline_id : Z) (db : ControlDb)
    : result StoreError (option RebuildRequest) * ControlDb :=
  match cd_pipelines db !! pipeline_id with
  | None => (Ok None, db)
  | Some p =>
      let generation := (pd_snapshot_generation p + 1)%Z in
      if (i64_max <? generation)%Z
      then (Err (StoreDatabase "bigint out of range"), db)
      else
        match cd_operations db !! operation_id with
        | Some _ => (Err (StoreDatabase "duplicate key value violates unique constraint"), db)
        | None =>
            let p := with_generation generation now p in
            let detail := VObject [("snapshot_generation", VNumber generation)] in
            let operation :=
              mkOperationRecord operation_id (Some pipeline_id) "rebuild" "requested" detail now now in
            let audit :=
              mkAuditRow "pipeline.rebuild_requested" "pipeline" pipeline_id
                (VObject [("operation_id", VNumber operation_id);
                          ("snapshot_generation", VNumber generation)]) in
            (Ok (Some (mkRebuildRequest p operation_id)),
             set_operations (<[operation_id := operation]> (cd_operations db)) [audit]
               (set_pipelines (<[pipeline_id := p]> (cd_pipelines db)) db))
        end
  end.

(** [detail->'snapshot_generation'], when it is a number. *)
Fixpoint number_field (key : string) (fields : list (string * Value)) : option Z :=
  match fields with
  | [] => None
  | (k, v) :: fields =>
      if bool_decide (k = key) then match v with VNumber n => Some n | _ => None end
      else number_field key fields
  end.
Definition detail_generation (detail : Value) : option Z :=
  match detail with VObject fields => number_field "snapshot_generation" fields | _ => None end.

(** [detail || jsonb_build_object(key, value)] on an object. *)
Definition detail_with (detail : Value) (key : string) (value : Value) : Value :=
  match detail with
  | VObject fields =>
      VObject (List.filter (fun f => negb (bool_decide (f.1 = key))) fields ++ [(key, value)])
  | v => v
  end.

(** The rebuilds that a completed snapshot answers. *)
Definition rebuild_answered (pipeline_id snapshot_generation : Z) (op : OperationRecord) : bool :=
  bool_decide (op_pipeline_id op = Some pipeline_id)
  && bool_decide (op_operation_type op = "rebuild") && bool_decide (op_state op = "requested")
  && match detail_generation (op_detail op) with
     | Some generation => (generation <=? snapshot_generation)%Z
     | None => false
     end.

Definition complete_operation (snapshot_generation now : Z) (op : OperationRecord)
    : OperationRecord :=
  mkOperationRecord (op_id op) (op_pipeline_id op) (op_operation_type op) "completed"
    (detail_with (op_detail op) "completed_snapshot_generation" (VNumber snapshot_generation))
    (op_created_at op) now.

Definition complete_pipeline_rebuilds (now pipeline_id snapshot_generation : Z) (db : ControlDb)
    : result StoreError Z * ControlDb :=
  let answered := rebuild_answered pipeline_id snapshot_generation in
  let completed := List.filter (fun kv => answered kv.2) (map_to_list (cd_operations db)) in
  let audit :=
    map (fun kv => mkAuditRow "pipeline.rebuild_completed" "pipeline" pipeline_id
           (VObject [("operation_id", VNumber kv.1);
                     ("snapshot_generation", VNumber snapshot_generation)])) completed in
  (Ok (len completed),
   set_operations
     ((fun op => if answered op then complete_operation snapshot_generation now op else op)
        <$> cd_operations db) audit db).

(** [ORDER BY created_at DESC LIMIT 200]. *)
Definition list_operations (db : ControlDb) : list OperationRecord :=
  take 200 (sort_by_key (fun op => - op_created_at op)%Z (map snd (map_to_list (cd_operations db)))).

(** ** Leases *)
Section leases.
Context (interval_micros : Z -> Z).

(** [issued] is read for the inserted row, [checked] after its lock is held, [written] for the
    row's [updated_at]. *)
Definition try_acquire_lease (issued checked written : Z) (pipeline_id holder_id ttl : Z)
    (db : ControlDb) : result StoreError (option PipelineLease) * ControlDb :=
  match duration_seconds ttl with
  | Err e => (Err e, db)
  | Panic => (Panic, db)
  | Ok ttl =>
      let write row :=
        (Ok (Some (lease_from_row pipeline_id row)), set_leases (<[pipeline_id := row]> (cd_leases db)) db) in
      match cd_leases db !! pipeline_id with
      | None =>
          if bool_decide (is_Some (cd_pipelines db !! pipeline_id))
          then write (mkLeaseRow holder_id 1 (issued + interval_micros ttl)%Z written)
          else (Err (StoreDatabase "insert violates foreign key constraint"), db)
      | Some row =>
          if (lr_expires_at row <=? checked)%Z || (lr_holder_id row =? holder_id)%Z
          then
            if (i64_max <? lr_fencing_token row + 1)%Z
            then (Err (StoreDatabase "bigint out of range"), db)
            else write (mkLeaseRow holder_id (lr_fencing_token row + 1)
                          (issued + interval_micros ttl)%Z written)
          else (Ok None, db)
      end
  end.

(** The row that an update of the given lease finds. *)
Definition lease_row (lease : PipelineLease) (db : ControlDb) : option LeaseRow :=
  match cd_leases db !! pl_pipeline_id lease with
  | Some row =>
      if (lr_holder_id row =? pl_holder_id lease)%Z && (lr_fencing_token row =? pl_fencing_token lease)%Z
      then Some row else None
  | None => None
  end.

(** [checked] is read for the condition, [issued] for the new expiry. *)
Definition renew_lease (checked issued written : Z) (lease : PipelineLease) (ttl : Z)
    (db : ControlDb) : result StoreError (option PipelineLease) * ControlDb :=
  match duration_seconds ttl with
  | Err e => (Err e, db)
  | Panic => (Panic, db)
  | Ok ttl =>
      match lease_row lease db with
      | Some row =>
          if (checked <? lr_expires_at row)%Z
          then
            let row :=
              mkLeaseRow (lr_holder_id row) (lr_fencing_token row) (issued + interval_micros ttl)%Z
                written in
            (Ok (Some (lease_from_row (pl_pipeline_id lease) row)),
             set_leases (<[pl_pipeline_id lease := row]> (cd_leases db)) db)
          else (Ok None, db)
      | None => (Ok None, db)
      end
  end.

Definition release_lease (now written : Z) (lease : PipelineLease) (db : ControlDb)
    : result StoreError unit * ControlDb :=
  match lease_row lease db with
  | Some row =>
      (Ok tt,
       set_leases (<[pl_pipeline_id lease :=
                       mkLeaseRow (lr_holder_id row) (lr_fencing_token row) now written]>
                     (cd_leases db)) db)
  | None => (Ok tt, db)
  end.
End leases.

(** ** Migrations *)

Inductive MigrationError : Type :=
| MigrationDatabase (message : string)
| ChecksumMismatch (version : Z).

Record Migration : Type := mkMigration {
  mg_version : Z;
  mg_name : string;
  mg_sql : string;
}.

(** One transaction of [migrate_control_database]; the migration's script, which creates
    tables and columns, is an argument that may fail. *)
Definition migrate_one (sha256 : bytes -> bytes)
    (script : Migration -> ControlDb -> result string ControlDb) (db : ControlDb)
    (migration : Migration) : result MigrationError ControlDb :=
  let checksum := sha256 (bytes_of_string (mg_sql migration)) in
  match cd_migrations db !! mg_version migration with
  | Some row =>
      if bool_decide (mr_checksum row = checksum) then Ok db
      else Err (ChecksumMismatch (mg_version migration))
  | None =>
      let? db := map_err MigrationDatabase (script migration db) in
      Ok (set_migrations
            (<[mg_version migration := mkMigrationRow (mg_name migration) checksum]> (cd_migrations db)) db)
  end.

(** The loop: what was committed stays when a later migration fails. *)
Fixpoint migrate_control_database (sha256 : bytes -> bytes)
    (script : Migration -> ControlDb -> result string ControlDb) (migrations : list Migration)
    (db : ControlDb) : result MigrationError unit * ControlDb :=
  match migrations with
  | [] => (Ok tt, db)
  | migration :: migrations =>
      match migrate_one sha256 script db migration with
      | Ok db => migrate_control_database sha256 script migrations db
      | Err e => (Err e, db)
      | Panic => (Panic, db)
      end
  end.

(** ** Histories of leases

    Processes acquire, renew and release leases of one control database whose clock only moves
    forward.  All use one [ttl], as the reconciler does.  A reply may be lost: the statement
    has committed and the process does not know.  [lh_held] is the lease each process believes
    to hold - a process that asks for a lease does not rely on an older one any more - and
    [lh_grants] is every lease the database ever returned. *)
Record LeaseHistory : Type := mkLeaseHistory {
  lh_db : ControlDb;
  lh_now : Z;
  lh_held : gmap (Z * Z) PipelineLease;
  lh_grants : list PipelineLease;
}.

Section histories.
Context (interval_micros : Z -> Z) (ttl : Z).

Inductive lease_step : LeaseHistory -> LeaseHistory -> Prop :=
| Step_tick s now :
    (lh_now s <= now)%Z ->
    lease_step s (mkLeaseHistory (lh_db s) now (lh_held s) (lh_grants s))
| Step_acquired s issued checked written pipeline holder delivered lease db :
    (issued <= checked)%Z -> (lh_now s <= checked)%Z ->
    try_acquire_lease interval_micros issued checked written pipeline holder ttl (lh_db s)
      = (Ok (Some lease), db) ->
    lease_step s (mkLeaseHistory db checked
      (if delivered : bool then <[(pipeline, holder) := lease]> (lh_held s)
       else delete (pipeline, holder) (lh_held s))
      (lease :: lh_grants s))
| Step_renewed s checked issued written lease delivered renewed db :
    (lh_now s <= checked)%Z -> (checked <= issued)%Z ->
    lh_held s !! (pl_pipeline_id lease, pl_holder_id lease) = Some lease ->
    renew_lease interval_micros checked issued written lease ttl (lh_db s) = (Ok (Some renewed), db) ->
    lease_step s (mkLeaseHistory db issued
      (if delivered : bool
       then <[(pl_pipeline_id lease, pl_holder_id lease) := renewed]> (lh_held s) else lh_held s)
      (renewed :: lh_grants s))
| Step_released s now written lease db :
    (lh_now s <= now)%Z ->
    lh_held s !! (pl_pipeline_id lease, pl_holder_id lease) = Some lease ->
    release_lease now written lease (lh_db s) = (Ok tt, db) ->
    lease_step s (mkLeaseHistory db now
      (delete (pl_pipeline_id lease, pl_holder_id lease) (lh_held s)) (lh_grants s))
| Step_forgotten s key :
    lease_step s (mkLeaseHistory (lh_db s) (lh_now s) (delete key (lh_held s)) (lh_grants s)).

Definition lease_start (db : ControlDb) (now : Z) : LeaseHistory := mkLeaseHistory db now ∅ [].

(** What one row of the lease table says about the leases of its pipeline. *)
Record lease_inv (s : LeaseHistory) : Prop := {
  li_key : forall p h L, lh_held s !! (p, h) = Some L -> pl_pipeline_id L = p /\ pl_holder_id L = h;
  li_held : forall p h L, lh_held s !! (p, h) = Some L -> (lh_now s < pl_expires_at L)%Z ->
    exists row, cd_leases (lh_db s) !! p = Some row /\ lr_holder_id row = h /\
      lr_fencing_token row = pl_fencing_token L /\ (pl_expires_at L <= lr_expires_at row)%Z;
  li_bound : forall p row, cd_leases (lh_db s) !! p = Some row ->
    (lr_expires_at row <= lh_now s + interval_micros ttl)%Z;
  li_grants : forall L, L ∈ lh_grants s ->
    exists row, cd_leases (lh_db s) !! pl_pipeline_id L = Some row /\
      (pl_fencing_token L <= lr_fencing_token row)%Z /\
      (pl_fencing_token L = lr_fencing_token row -> pl_holder_id L = lr_holder_id row);
  li_unique : forall L M, L ∈ lh_grants s -> M ∈ lh_grants s ->
    pl_pipeline_id L = pl_pipeline_id M -> pl_fencing_token L = pl_fencing_token M ->
    pl_holder_id L = pl_holder_id M;
}.

Lemma duration_Ok d : duration_seconds ttl = Ok d -> d = ttl.
Proof. unfold duration_seconds. destruct (_ && _); [|done]. by intros [= ->]. Qed.

Lemma try_acquire_Some issued checked written p h db lease db' :
  try_acquire_lease interval_micros issued checked written p h ttl db = (Ok (Some lease), db') ->
  lease = mkPipelineLease p h (pl_fencing_token lease) (issued + interval_micros ttl)%Z /\
  db' = set_leases (<[p := mkLeaseRow h (pl_fencing_token lease) (issued + interval_micros ttl)%Z written]>
                      (cd_leases db)) db /\
  match cd_leases db !! p with
  | None => pl_fencing_token lease = 1%Z
  | Some row => pl_fencing_token lease = (lr_fencing_token row + 1)%Z /\
      ((lr_expires_at row <= checked)%Z \/ lr_holder_id row = h)
  end.
Proof.
  unfold try_acquire_lease. destruct (duration_seconds ttl) as [d| |] eqn:Hd; [|done..].
  apply duration_Ok in Hd as ->. destruct (cd_leases db !! p) as [row|] eqn:E.
  - destruct (_ || _) eqn:Hc; [|done]. destruct (i64_max <? _)%Z; [done|]. intros [= <- <-].
    split_and!; [done..|]. apply orb_true_iff in Hc as [?%Z.leb_le|?%Z.eqb_eq]; auto.
  - case_bool_decide; [|done]. intros [= <- <-]. done.
Qed.

Lemma renew_Some checked issued written lease db renewed db' :
  renew_lease interval_micros checked issued written lease ttl db = (Ok (Some renewed), db') ->
  exists row, cd_leases db !! pl_pipeline_id lease = Some row /\
    lr_holder_id row = pl_holder_id lease /\ lr_fencing_token row = pl_fencing_token lease /\
    (checked < lr_expires_at row)%Z /\
    renewed = mkPipelineLease (pl_pipeline_id lease) (pl_holder_id lease) (pl_fencing_token lease)
                (issued + interval_micros ttl)%Z /\
    db' = set_leases (<[pl_pipeline_id lease :=
            mkLeaseRow (pl_holder_id lease) (pl_fencing_token lease) (issued + interval_micros ttl)%Z
              written]> (cd_leases db)) db.
Proof.
  unfold renew_lease, lease_row. destruct (duration_seconds ttl) as [d| |] eqn:Hd; [|done..].
  apply duration_Ok in Hd as ->. destruct (cd_leases db !! _) as [row|] eqn:E; [|done].
  destruct (Z.eqb_spec (lr_holder_id row) (pl_holder_id lease)) as [Hh|]; [|done].
  destruct (Z.eqb_spec (lr_fencing_token row) (pl_fencing_token lease)) as [Ht|]; [|done]. cbn [andb].
  destruct (Z.ltb_spec checked (lr_expires_at row)); [|done].
  rewrite Hh, Ht. intros [= <- <-]. by exists row.
Qed.

Lemma release_cases now written lease db db' :
  release_lease now written lease db = (Ok tt, db') ->
  db' = db \/
  exists row, cd_leases db !! pl_pipeline_id lease = Some row /\
    lr_holder_id row = pl_holder_id lease /\
    db' = set_leases (<[pl_pipeline_id lease :=
            mkLeaseRow (lr_holder_id row) (lr_fencing_token row) now written]> (cd_leases db)) db.
Proof.
  unfold release_lease, lease_row. destruct (cd_leases db !! _) as [row|] eqn:E; [|intros [= <-]; by left].
  destruct (Z.eqb_spec (lr_holder_id row) (pl_holder_id lease)) as [Hh|]; cbn [andb];
    [|intros [= <-]; by left].
  destruct (Z.eqb_spec (lr_fencing_token row) (pl_fencing_token lease)) as [Ht|];
    [|intros [= <-]; by left].
  intros [= <-]. right. by exists row.
Qed.
Context (Hmicros : (0 <= interval_micros ttl)%Z).

(** A statement that writes the row of one pipeline and returns it as a lease. *)
Lemma write_inv s now p row held' :
  lease_inv s -> (lh_now s <= now)%Z -> (lr_expires_at row <= now + interval_micros ttl)%Z ->
  (forall old, cd_leases (lh_db s) !! p = Some old ->
     (lr_fencing_token old < lr_fencing_token row)%Z \/
     lr_fencing_token row = lr_fencing_token old /\ lr_holder_id row = lr_holder_id old) ->
  (forall q h K, held' !! (q, h) = Some K ->
     q = p /\ h = lr_holder_id row /\ K = lease_from_row p row \/
     lh_held s !! (q, h) = Some K /\
       (q = p -> (now < pl_expires_at K)%Z ->
        lr_holder_id row = h /\ lr_fencing_token row = pl_fencing_token K /\
        (pl_expires_at K <= lr_expires_at row)%Z)) ->
  lease_inv (mkLeaseHistory (set_leases (<[p := row]> (cd_leases (lh_db s))) (lh_db s)) now held'
               (lease_from_row p row :: lh_grants s)).
Proof.
  intros [Hk Hh Hb Hg Hu] Hnow Hexp Hold Hheld. split; cbn [lh_db lh_now lh_held lh_grants cd_leases set_leases].
  - intros q h L [(-> & -> & ->)|[HL _]]%Hheld; [done|by eapply Hk].
  - intros q h L [(-> & -> & ->)|[HL Hp]]%Hheld Hlt.
    + exists row. rewrite lookup_insert_eq. split_and!; done.
    + destruct (decide (q = p)) as [->|Hne].
      * exists row. rewrite lookup_insert_eq. split; [done|]. by apply Hp.
      * rewrite lookup_insert_ne by done. eapply Hh; [done|lia].
  - intros q r. destruct (decide (q = p)) as [->|Hne].
    + rewrite lookup_insert_eq. by intros [= <-].
    + rewrite lookup_insert_ne by done. intros Hr%Hb. lia.
  - intros L [->|HL]%elem_of_cons.
    { exists row. cbn. rewrite lookup_insert_eq. split_and!; done. }
    destruct (Hg L HL) as (r & Hr & Hle & Heq). destruct (decide (pl_pipeline_id L = p)) as [Hp|Hne].
    + exists row. rewrite Hp, lookup_insert_eq. split; [done|]. rewrite Hp in Hr.
      destruct (Hold r Hr) as [?|[Ht Hho]]; [lia|]. split; [lia|]. intros He. rewrite Hho. apply Heq. lia.
    + exists r. by rewrite lookup_insert_ne.
  - assert (Hnew : forall L, L ∈ lh_grants s -> pl_pipeline_id L = p ->
      pl_fencing_token L = lr_fencing_token row -> pl_holder_id L = lr_holder_id row).
    { intros L HL Hp He. destruct (Hg L HL) as (r & Hr & Hle & Heq). rewrite Hp in Hr.
      destruct (Hold r Hr) as [?|[Ht Hho]]; [lia|]. rewrite Hho. apply Heq. lia. }
    intros L M [->|HL]%elem_of_cons [->|HM]%elem_of_cons Hp Ht; [done| | |by apply Hu]; cbn in *.
    + symmetry. by apply Hnew.
    + by apply Hnew.
Qed.

(** Time passes and processes forget leases. *)
Lemma forget_inv s now held' :
  lease_inv s -> (lh_now s <= now)%Z ->
  (forall k L, held' !! k = Some L -> lh_held s !! k = Some L) ->
  lease_inv (mkLeaseHistory (lh_db s) now held' (lh_grants s)).
Proof.
  intros [Hk Hh Hb Hg Hu] Hnow Hheld. split; cbn [lh_db lh_now lh_held lh_grants]; [| | |done|done].
  - intros p h L HL%Hheld. by eapply Hk.
  - intros p h L HL%Hheld Hlt. eapply Hh; [done|lia].
  - intros p row Hr%Hb. lia.
Qed.

Lemma acquired_inv s issued checked written p h (delivered : bool) lease db :
  lease_inv s -> (issued <= checked)%Z -> (lh_now s <= checked)%Z ->
  try_acquire_lease interval_micros issued checked written p h ttl (lh_db s) = (Ok (Some lease), db) ->
  lease_inv (mkLeaseHistory db checked
    (if delivered then <[(p, h) := lease]> (lh_held s) else delete (p, h) (lh_held s)) (lease :: lh_grants s)).
Proof.
  intros Hi Hic Hnow Hacq. pose proof (li_held _ Hi) as Hh.
  apply try_acquire_Some in Hacq as (HL & -> & Hrow).
  set (row := mkLeaseRow h _ _ _). replace lease with (lease_from_row p row) by (by rewrite HL).
  apply write_inv; [done|done|cbn; lia| |].
  + intros old Ho. rewrite Ho in Hrow. cbn. lia.
  + assert (Hother : forall h' K, h' <> h -> lh_held s !! (p, h') = Some K ->
      (pl_expires_at K <= checked)%Z).
    { intros h' K Hne HK. destruct (decide (checked < pl_expires_at K)%Z) as [Hlt|]; [|lia].
      destruct (Hh p h' K HK) as (old & Ho & Hoh & _ & He); [lia|]. rewrite Ho in Hrow. lia. }
    intros q h' K HK.
    assert (q = p /\ h' = h /\ K = lease_from_row p row \/
            (q, h') <> (p, h) /\ lh_held s !! (q, h') = Some K) as [?|[Hne HK']].
    { destruct delivered; destruct (decide ((q, h') = (p, h))) as [[= -> ->]|Hne].
      - rewrite lookup_insert_eq in HK. injection HK as <-. by left.
      - rewrite lookup_insert_ne in HK by done. by right.
      - by rewrite lookup_delete_eq in HK.
      - rewrite lookup_delete_ne in HK by done. by right. }
    { by left. }
    right. split; [done|]. intros -> Hlt.
    pose proof (Hother h' K ltac:(congruence) HK'). lia.
Qed.

Lemma renewed_inv s checked issued written lease (delivered : bool) renewed db :
  lease_inv s -> (lh_now s <= checked)%Z -> (checked <= issued)%Z ->
  renew_lease interval_micros checked issued written lease ttl (lh_db s) = (Ok (Some renewed), db) ->
  lease_inv (mkLeaseHistory db issued
    (if delivered then <[(pl_pipeline_id lease, pl_holder_id lease) := renewed]> (lh_held s) else lh_held s)
    (renewed :: lh_grants s)).
Proof.
  intros Hi Hnow Hic Hren. assert (Hi' := Hi). destruct Hi' as [Hk Hh Hb Hg Hu].
  apply renew_Some in Hren as (old & Ho & Hoh & Hot & Hlt & -> & ->).
  pose proof (Hb _ _ Ho) as Hbound.
  apply (write_inv s issued (pl_pipeline_id lease)
    (mkLeaseRow (pl_holder_id lease) (pl_fencing_token lease) (issued + interval_micros ttl)%Z written));
    [done|lia|cbn; lia| |].
  + intros old' Ho'. rewrite Ho in Ho'. injection Ho' as <-. cbn. right. by split.
  + intros q h' K HK. cbn [lr_holder_id lr_fencing_token lr_expires_at].
    assert (Hmine : lh_held s !! (q, h') = Some K -> q = pl_pipeline_id lease ->
      (issued < pl_expires_at K)%Z -> pl_holder_id lease = h' /\
      pl_fencing_token lease = pl_fencing_token K /\
      (pl_expires_at K <= issued + interval_micros ttl)%Z).
    { intros HK' -> Hx. destruct (Hh _ _ _ HK') as (old' & Ho' & ? & ? & ?); [lia|].
      rewrite Ho in Ho'. injection Ho' as <-. split_and!; [congruence|congruence|lia]. }
    destruct delivered; [|right; split; [exact HK|exact (Hmine HK)]].
    destruct (decide ((q, h') = (pl_pipeline_id lease, pl_holder_id lease))) as [[= -> ->]|Hne].
    * rewrite lookup_insert_eq in HK. injection HK as <-. by left.
    * rewrite lookup_insert_ne in HK by done. right. split; [exact HK|exact (Hmine HK)].
Qed.

Lemma released_inv s now written lease db :
  lease_inv s -> (lh_now s <= now)%Z -> release_lease now written lease (lh_db s) = (Ok tt, db) ->
  lease_inv (mkLeaseHistory db now
    (delete (pl_pipeline_id lease, pl_holder_id lease) (lh_held s)) (lh_grants s)).
Proof.
  intros Hi Hnow Hrel.
  assert (Hi' : lease_inv (mkLeaseHistory (lh_db s) now
    (delete (pl_pipeline_id lease, pl_holder_id lease) (lh_held s)) (lh_grants s))).
  { apply forget_inv; [done|done|]. intros k L Hl. by apply lookup_delete_Some in Hl as [_ ?]. }
  apply release_cases in Hrel as [->|(row & Hr & Hho & ->)]; [done|].
  destruct Hi' as [Hk' Hh' Hb' Hg' Hu']. split; cbn [lh_db lh_now lh_held lh_grants cd_leases set_leases] in *; try done.
  + intros q h L Hl Hlt. destruct (Hh' q h L Hl Hlt) as (row' & Hr' & Hx & ? & ?).
    destruct (decide (q = pl_pipeline_id lease)) as [->|Hne].
    * exfalso. rewrite Hr in Hr'. injection Hr' as <-. rewrite Hho in Hx. subst h.
      by rewrite lookup_delete_eq in Hl.
    * exists row'. by rewrite lookup_insert_ne.
  + intros q r. destruct (decide (q = pl_pipeline_id lease)) as [->|Hne].
    * rewrite lookup_insert_eq. intros [= <-]. cbn. lia.
    * rewrite lookup_insert_ne by done. apply Hb'.
  + intros L HL'. destruct (Hg' L HL') as (r & Hr' & ? & ?).
    destruct (decide (pl_pipeline_id L = pl_pipeline_id lease)) as [He|Hne].
    * rewrite He in Hr' |- *. rewrite Hr in Hr'. injection Hr' as <-.
      eexists. by rewrite lookup_insert_eq.
    * exists r. by rewrite lookup_insert_ne.
Qed.

Lemma lease_step_inv s s' : lease_inv s -> lease_step s s' -> lease_inv s'.
Proof.
  intros Hi Hs. destruct Hs as [s now Hnow|s issued checked written p h delivered lease db Hic Hnow Hacq
    |s checked issued written lease delivered renewed db Hnow Hic HL Hren
    |s now written lease db Hnow HL Hrel|s key].
  - apply forget_inv; auto.
  - exact (acquired_inv _ _ _ _ _ _ _ _ _ Hi Hic Hnow Hacq).
  - exact (renewed_inv _ _ _ _ _ _ _ _ Hi Hnow Hic Hren).
  - exact (released_inv _ _ _ _ _ Hi Hnow Hrel).
  - apply forget_inv; [done|lia|]. intros k L Hl. by apply lookup_delete_Some in Hl as [_ ?].
Qed.
End histories.

Lemma lease_history_inv im ttl db now s :
  (0 <= im ttl)%Z -> cd_leases db = ∅ ->
  rtc (lease_step im ttl) (lease_start db now) s -> lease_inv im ttl s.
Proof.
  intros Hm Hdb Hs. assert (Hi : lease_inv im ttl (lease_start db now)).
  { split; cbn [lease_start lh_held lh_grants lh_db].
    1-2: intros p h L HL; by rewrite lookup_empty in HL.
    - intros p row Hr. by rewrite Hdb, lookup_empty in Hr.
    - intros L HL. by apply elem_of_nil in HL.
    - intros L M HL. by apply elem_of_nil in HL. }
  induction Hs as [|x y z Hxy _ IH]; [done|]. by apply IH, (lease_step_inv im ttl Hm x).
Qed.

(** C29: over any history of acquisitions, renewals, releases, lost replies, crashes and passing
    time, at most one process holds an unexpired lease of a pipeline.  Fencing tokens identify
    their holder, and a newly acquired lease has a greater token than every lease granted
    before: an expired or released one is always taken over so, and a lease that was
    superseded can not be renewed. *)
Theorem lease_is_exclusive (interval_micros : Z -> Z) (ttl : Z) (db : ControlDb) (now : Z)
    (s : LeaseHistory)
    (Hmicros : (0 <= interval_micros ttl)%Z) (Hempty : cd_leases db = ∅)
    (Hs : rtc (lease_step interval_micros ttl) (lease_start db now) s) :
  (forall p h1 h2 L1 L2,
     lh_held s !! (p, h1) = Some L1 -> lh_held s !! (p, h2) = Some L2 ->
     (lh_now s < pl_expires_at L1)%Z -> (lh_now s < pl_expires_at L2)%Z -> h1 = h2) /\
  (forall L1 L2, L1 ∈ lh_grants s -> L2 ∈ lh_grants s ->
     pl_pipeline_id L1 = pl_pipeline_id L2 -> pl_fencing_token L1 = pl_fencing_token L2 ->
     pl_holder_id L1 = pl_holder_id L2) /\
  (forall issued checked written p h lease db',
     try_acquire_lease interval_micros issued checked written p h ttl (lh_db s)
       = (Ok (Some lease), db') ->
     forall L, L ∈ lh_grants s -> pl_pipeline_id L = p ->
       (pl_fencing_token L < pl_fencing_token lease)%Z) /\
  (forall issued checked written p h row,
     duration_seconds ttl = Ok ttl -> cd_leases (lh_db s) !! p = Some row ->
     (lr_expires_at row <= checked)%Z -> (lr_fencing_token row < i64_max)%Z ->
     exists lease db', try_acquire_lease interval_micros issued checked written p h ttl (lh_db s)
       = (Ok (Some lease), db')) /\
  (forall checked issued written L M, L ∈ lh_grants s -> M ∈ lh_grants s ->
     pl_pipeline_id L = pl_pipeline_id M -> (pl_fencing_token L < pl_fencing_token M)%Z ->
     duration_seconds ttl = Ok ttl ->
     renew_lease interval_micros checked issued written L ttl (lh_db s) = (Ok None, lh_db s)).
Proof.
  destruct (lease_history_inv _ _ _ _ _ Hmicros Hempty Hs) as [Hk Hh Hb Hg Hu]. split_and!.
  - intros p h1 h2 L1 L2 H1 H2 He1 He2.
    destruct (Hh _ _ _ H1 He1) as (r1 & Hr1 & <- & _), (Hh _ _ _ H2 He2) as (r2 & Hr2 & <- & _).
    congruence.
  - exact Hu.
  - intros issued checked written p h lease db' (_ & _ & Hrow)%try_acquire_Some L HL Hp.
    destruct (Hg L HL) as (row & Hr & Hle & _). rewrite Hp in Hr. rewrite Hr in Hrow. lia.
  - intros issued checked written p h row Hd Hr He Ht. unfold try_acquire_lease. rewrite Hd, Hr.
    destruct (Z.leb_spec (lr_expires_at row) checked); [|lia]. cbn [orb].
    destruct (Z.ltb_spec i64_max (lr_fencing_token row + 1)); [lia|]. by eexists _, _.
  - intros checked issued written L M HL HM Hp Ht Hd. unfold renew_lease, lease_row. rewrite Hd, Hp.
    destruct (Hg M HM) as (row & Hr & Hle & _). rewrite Hr.
    destruct (Z.eqb_spec (lr_fencing_token row) (pl_fencing_token L)); [lia|].
    by rewrite andb_false_r.
Qed.

(** ** Histories of the control plane *)

Inductive store_op : Type :=
| OpPutSource (now : Z) (source : SourceProfile)
| OpPutTarget (now : Z) (target : TargetProfile)
| OpPutPipeline (now : Z) (pipeline : PipelineDefinition)
| OpSetDesired (now pipeline_id : Z) (desired_running : bool)
| OpRequestRebuild (now operation_id pipeline_id : Z)
| OpCompleteRebuilds (now pipeline_id snapshot_generation : Z)
| OpAcquire (issued checked written pipeline_id holder_id ttl : Z)
| OpRenew (checked issued written : Z) (lease : PipelineLease) (ttl : Z)
| OpRelease (now written : Z) (lease : PipelineLease).

Section control_plane.
Context (interval_micros : Z -> Z) (definition : PipelineDefinition -> Value).

Definition run_op (db : ControlDb) (o : store_op) : ControlDb :=
  match o with
  | OpPutSource now source => (put_source now source db).2
  | OpPutTarget now target => (put_target now target db).2
  | OpPutPipeline now pipeline => (put_pipeline definition now pipeline db).2
  | OpSetDesired now id desired => (set_pipeline_desired_running now id desired db).2
  | OpRequestRebuild now operation id => (request_pipeline_rebuild now operation id db).2
  | OpCompleteRebuilds now id generation => (complete_pipeline_rebuilds now id generation db).2
  | OpAcquire issued checked written id holder ttl =>
      (try_acquire_lease interval_micros issued checked written id holder ttl db).2
  | OpRenew checked issued written lease ttl =>
      (renew_lease interval_micros checked issued written lease ttl db).2
  | OpRelease now written lease => (release_lease now written lease db).2
  end.

Definition run_ops (ops : list store_op) (db : ControlDb) : ControlDb := foldl run_op db ops.

Definition empty_db : ControlDb := mkControlDb ∅ ∅ ∅ ∅ ∅ ∅ ∅ [].

(** A pipeline's version after [p]: never an older revision or generation. *)
Definition newer (p q : PipelineDefinition) : Prop :=
  pd_id q = pd_id p /\ (pd_config_revision p <= pd_config_revision q)%Z /\
  (pd_snapshot_generation p <= pd_snapshot_generation q)%Z.

Global Instance newer_preorder : PreOrder newer.
Proof. split; unfold newer; [intros p|intros p q r]; lia. Qed.

(** Every recorded revision is at most the current one of its pipeline. *)
Record control_inv (db : ControlDb) : Prop := {
  ci_key : forall id p, cd_pipelines db !! id = Some p -> pd_id p = id;
  ci_revision : forall id r d, cd_config_revisions db !! (id, r) = Some d ->
    exists p, cd_pipelines db !! id = Some p /\ (r <= pd_config_revision p)%Z;
}.

Lemma empty_inv : control_inv empty_db.
Proof. split; [intros id p H|intros id r d H]; cbn in H; by rewrite lookup_empty in H. Qed.

(** What an operation may do to pipelines and revisions: nothing, or write a newer row, or
    write a row together with its revision. *)
Inductive pipelines_change (db db' : ControlDb) : Prop :=
| Change_none :
    cd_pipelines db' = cd_pipelines db -> cd_config_revisions db' = cd_config_revisions db ->
    pipelines_change db db'
| Change_row p q :
    cd_pipelines db !! pd_id p = Some p -> newer p q ->
    cd_pipelines db' = <[pd_id p := q]> (cd_pipelines db) ->
    cd_config_revisions db' = cd_config_revisions db -> pipelines_change db db'
| Change_revision q d :
    (forall p, cd_pipelines db !! pd_id q = Some p -> pd_id p = pd_id q -> newer p q) ->
    cd_pipelines db' = <[pd_id q := q]> (cd_pipelines db) ->
    cd_config_revisions db' = <[(pd_id q, pd_config_revision q) := d]> (cd_config_revisions db) ->
    pipelines_change db db'.

Lemma pipelines_change_inv db db' : control_inv db -> pipelines_change db db' ->
  control_inv db' /\
  forall id p, cd_pipelines db !! id = Some p -> exists q, cd_pipelines db' !! id = Some q /\ newer p q.
Proof.
  intros [Hk Hr] [Hp Hc|p q Hp0 Hn Hp Hc|q d Hn Hp Hc].
  - split; [split; rewrite Hp, ?Hc; done|]. intros id p Hid. exists p. by rewrite Hp.
  - split; [split|].
    + intros id x. rewrite Hp. destruct (decide (id = pd_id p)) as [->|].
      * rewrite lookup_insert_eq. intros [= <-]. apply Hn.
      * rewrite lookup_insert_ne by done. apply Hk.
    + intros id r d. rewrite Hc, Hp. intros (x & Hx & Hle)%Hr.
      destruct (decide (id = pd_id p)) as [->|].
      * rewrite lookup_insert_eq. exists q. split; [done|]. rewrite Hp0 in Hx. injection Hx as <-.
        destruct Hn as (_ & ? & _). lia.
      * exists x. by rewrite lookup_insert_ne.
    + intros id x Hx. rewrite Hp. destruct (decide (id = pd_id p)) as [->|].
      * exists q. rewrite lookup_insert_eq. rewrite Hp0 in Hx. by injection Hx as <-.
      * exists x. by rewrite lookup_insert_ne.
  - split; [split|].
    + intros id x. rewrite Hp. destruct (decide (id = pd_id q)) as [->|].
      * rewrite lookup_insert_eq. by intros [= <-].
      * rewrite lookup_insert_ne by done. apply Hk.
    + intros id r d'. rewrite Hc, Hp. destruct (decide ((id, r) = (pd_id q, pd_config_revision q))) as [[= -> ->]|Hne].
      * intros _. exists q. rewrite lookup_insert_eq. split; [done|lia].
      * rewrite lookup_insert_ne by done. intros (x & Hx & Hle)%Hr.
        destruct (decide (id = pd_id q)) as [->|].
        -- rewrite lookup_insert_eq. exists q. split; [done|].
           destruct (Hn x Hx (Hk _ _ Hx)) as (_ & ? & _). lia.
        -- exists x. by rewrite lookup_insert_ne.
    + intros id x Hx. rewrite Hp. destruct (decide (id = pd_id q)) as [->|].
      * exists q. rewrite lookup_insert_eq. split; [done|]. apply Hn; [done|by apply Hk].
      * exists x. by rewrite lookup_insert_ne.
Qed.

(** [put_pipeline] by cases, when the recorded revisions are those of the pipelines. *)
Lemma put_pipeline_cases now p db r db' :
  control_inv db -> put_pipeline definition now p db = (r, db') ->
  (r = Err StaleRevision /\ db' = db /\ exists old, cd_pipelines db !! pd_id p = Some old /\
     ((pd_config_revision p <= pd_config_revision old)%Z \/
      (pd_snapshot_generation p <= pd_snapshot_generation old)%Z)) \/
  ((exists m, r = Err (StoreDatabase m)) /\ db' = db) \/
  exists q, r = Ok tt /\ pd_id q = pd_id p /\ pd_config_revision q = pd_config_revision p /\
    pd_snapshot_generation q = pd_snapshot_generation p /\ pd_settings q = pd_settings p /\
    (forall old, cd_pipelines db !! pd_id p = Some old ->
       (pd_config_revision old < pd_config_revision q)%Z /\
       (pd_snapshot_generation old < pd_snapshot_generation q)%Z /\
       pd_desired_running q = pd_desired_running old) /\
    cd_pipelines db' = <[pd_id q := q]> (cd_pipelines db) /\
    cd_config_revisions db' =
      <[(pd_id q, pd_config_revision q) := definition p]> (cd_config_revisions db).
Proof.
  intros [Hk Hr]. unfold put_pipeline. destruct (_ || _); [intros [= <- <-]; right; left; eauto|].
  destruct (cd_pipelines db !! pd_id p) as [old|] eqn:Ho.
  - destruct (Z.ltb_spec (pd_config_revision old) (pd_config_revision p)) as [H1|H1]; cbn [andb];
      [|intros [= <- <-]; left; eauto 6].
    destruct (Z.ltb_spec (pd_snapshot_generation old) (pd_snapshot_generation p)) as [H2|H2];
      [|intros [= <- <-]; left; eauto 6].
    do 2 (destruct (negb _); [intros [= <- <-]; right; left; eauto|]).
    cbn [cd_config_revisions set_pipelines pd_id pd_config_revision updated_pipeline].
    destruct (cd_config_revisions db !! _) as [d|] eqn:Hd.
    { destruct (Hr _ _ _ Hd) as (x & Hx & Hle). rewrite Ho in Hx. injection Hx as <-. lia. }
    intros [= <- <-]. right; right. exists (updated_pipeline now old p).
    split_and!; try done. by intros ? [= <-].
  - do 2 (destruct (negb _); [intros [= <- <-]; right; left; eauto|]).
    cbn [cd_config_revisions set_pipelines].
    destruct (cd_config_revisions db !! _) as [d|] eqn:Hd.
    { destruct (Hr _ _ _ Hd) as (x & Hx & _). congruence. }
    intros [= <- <-]. right; right. exists p. by split_and!.
Qed.

Lemma run_op_change db o : control_inv db -> pipelines_change db (run_op db o).
Proof.
  intros Hi. destruct o as [now s|now t|now p|now id b|now op id|now id g|i c w p h ttl|c i w L ttl|now w L];
    cbn [run_op].
  - unfold put_source. destruct (_ || _); by apply Change_none.
  - unfold put_target. destruct (negb _); by apply Change_none.
  - destruct (put_pipeline definition now p db) as [r db'] eqn:E. cbn [snd].
    apply put_pipeline_cases in E as [(_ & -> & _)|[(_ & ->)|(q & _ & Hid & _ & _ & _ & Hold & Hp & Hc)]];
      [by apply Change_none..| |done].
    apply (Change_revision _ _ q (definition p)); [|done|done]. intros old Ho Hk. rewrite Hid in Ho.
    destruct (Hold _ Ho) as (? & ? & _). split_and!; [done|lia..].
  - unfold set_pipeline_desired_running. destruct (cd_pipelines db !! id) as [p|] eqn:Hp; [|by apply Change_none].
    pose proof (ci_key _ Hi _ _ Hp) as <-. by apply (Change_row _ _ p (with_desired_running b now p)).
  - unfold request_pipeline_rebuild. destruct (cd_pipelines db !! id) as [p|] eqn:Hp; [|by apply Change_none].
    destruct (i64_max <? _)%Z; [by apply Change_none|].
    destruct (cd_operations db !! op); [by apply Change_none|]. pose proof (ci_key _ Hi _ _ Hp) as <-.
    apply (Change_row _ _ p (with_generation (pd_snapshot_generation p + 1) now p)); [done| |done|done].
    split_and!; cbn; [done|lia|lia].
  - by apply Change_none.
  - unfold try_acquire_lease. destruct (duration_seconds ttl); [|by apply Change_none..].
    repeat case_match; by apply Change_none.
  - unfold renew_lease. destruct (duration_seconds ttl); [|by apply Change_none..].
    repeat case_match; by apply Change_none.
  - unfold release_lease. case_match; by apply Change_none.
Qed.

Lemma run_ops_inv ops db : control_inv db ->
  control_inv (run_ops ops db) /\
  forall id p, cd_pipelines db !! id = Some p ->
    exists q, cd_pipelines (run_ops ops db) !! id = Some q /\ newer p q.
Proof.
  revert db. induction ops as [|o ops IH]; intros db Hi; cbn; [split; [done|]; intros id p; by exists p|].
  destruct (pipelines_change_inv _ _ Hi (run_op_change db o Hi)) as [Hi' Hn'].
  destruct (IH _ Hi') as [Hi'' Hn'']. split; [done|]. intros id p Hp.
  destruct (Hn' _ _ Hp) as (q & Hq & Hpq). destruct (Hn'' _ _ Hq) as (r & Hr & Hqr).
  exists r. split; [done|]. by trans q.
Qed.
End control_plane.

(** In every history of the control plane, configuration revisions and snapshot
    generations of a pipeline only grow and a pipeline never disappears.  Storing a definition
    reports a stale revision exactly when it is well formed and not newer in both, and any
    failure leaves the database as it was; a stored definition replaces the older one except
    for its desired state, and its revision is recorded. *)
Theorem pipeline_versions_only_grow (interval_micros : Z -> Z)
    (definition : PipelineDefinition -> Value) (ops : list store_op) :
  let db := run_ops interval_micros definition ops empty_db in
  (forall more id p, cd_pipelines db !! id = Some p ->
     exists q, cd_pipelines (run_ops interval_micros definition more db) !! id = Some q /\ newer p q) /\
  forall now p r db', put_pipeline definition now p db = (r, db') ->
    (r = Err StaleRevision <->
       (0 < pd_config_revision p)%Z /\ (0 < pd_snapshot_generation p)%Z /\
       exists old, cd_pipelines db !! pd_id p = Some old /\
         ((pd_config_revision p <= pd_config_revision old)%Z \/
          (pd_snapshot_generation p <= pd_snapshot_generation old)%Z)) /\
    (r <> Ok tt -> db' = db) /\
    (r = Ok tt -> exists q, cd_pipelines db' = <[pd_id p := q]> (cd_pipelines db) /\
       pd_config_revision q = pd_config_revision p /\
       pd_snapshot_generation q = pd_snapshot_generation p /\ pd_settings q = pd_settings p /\
       cd_config_revisions db' !! (pd_id p, pd_config_revision p) = Some (definition p) /\
       forall old, cd_pipelines db !! pd_id p = Some old ->
         pd_desired_running q = pd_desired_running old).
Proof.
  intros db.
  assert (Hi : control_inv db).
  { apply run_ops_inv, empty_inv. }
  split; [intros more; by apply run_ops_inv|]. intros now p r db' H.
  assert (Hpos : r = Err StaleRevision -> (0 < pd_config_revision p)%Z /\ (0 < pd_snapshot_generation p)%Z).
  { intros ->. unfold put_pipeline in H. destruct (_ || _) eqn:E; [done|]. lia. }
  assert (Hstale : (0 < pd_config_revision p)%Z -> (0 < pd_snapshot_generation p)%Z ->
    forall old, cd_pipelines db !! pd_id p = Some old ->
      ((pd_config_revision p <= pd_config_revision old)%Z \/
       (pd_snapshot_generation p <= pd_snapshot_generation old)%Z) -> r = Err StaleRevision).
  { intros H1 H2 old Ho Hle. unfold put_pipeline in H. rewrite Ho in H.
    destruct (_ || _) eqn:E in H; [lia|]. destruct (_ && _) eqn:E2 in H; [lia|].
    by injection H as <- _. }
  apply put_pipeline_cases in H as [(-> & -> & old & Ho & Hle)|[([m ->] & ->)|(q & -> & Hid & Hr & Hg & Hs & Hold & Hp & Hc)]];
    [| |..]; [split_and!; [|done|done]|split_and!; [|done|done]|split_and!; [|done|]|done].
  - split; [|done]. intros _. destruct Hpos; [done|]. split_and!; [done..|]. by exists old.
  - split; [done|]. intros (H1 & H2 & old & Ho & Hle). by apply (Hstale H1 H2 old).
  - split; [done|]. intros (H1 & H2 & old & Ho & Hle). by apply (Hstale H1 H2 old).
  - intros _. exists q. rewrite Hp, Hc, Hid, <-Hr, lookup_insert_eq. split_and!; try done.
    intros old Ho. by destruct (Hold _ Ho) as (_ & _ & ->).
Qed.

(** Whether an operation completes the rebuilds of a generation. *)
Definition completes (pipeline_id generation : Z) (o : store_op) : bool :=
  match o with
  | OpCompleteRebuilds _ id g => (id =? pipeline_id)%Z && (generation <=? g)%Z
  | _ => false
  end.

(** A recorded request for a rebuild, open or completed. *)
Definition rebuild_record (pipeline_id generation : Z) (completed : bool) (op : OperationRecord) : Prop :=
  op_pipeline_id op = Some pipeline_id /\ op_operation_type op = "rebuild" /\
  op_state op = (if completed then "completed" else "requested") /\
  detail_generation (op_detail op) = Some generation.

Lemma detail_with_generation d key v g :
  key <> "snapshot_generation" -> detail_generation d = Some g ->
  detail_generation (detail_with d key v) = Some g.
Proof.
  intros Hk. destruct d as [| | | | |fields]; try done. cbn [detail_with detail_generation].
  induction fields as [|[k w] fields IH]; [done|]. cbn [number_field List.filter fst].
  case_bool_decide as E.
  - subst k. rewrite bool_decide_false by done. cbn. by rewrite bool_decide_true.
  - intros H%IH. case_bool_decide; cbn [negb]; [done|]. cbn. by rewrite bool_decide_false.
Qed.

Lemma run_op_rebuild im def o db rid pid g completed rec :
  cd_operations db !! rid = Some rec -> rebuild_record pid g completed rec ->
  exists rec', cd_operations (run_op im def db o) !! rid = Some rec' /\
    rebuild_record pid g (completed || completes pid g o) rec'.
Proof.
  intros Hrec Hr.
  assert (Hsame : forall db', cd_operations db' = cd_operations db -> completes pid g o = false ->
    exists rec', cd_operations db' !! rid = Some rec' /\
      rebuild_record pid g (completed || completes pid g o) rec').
  { intros db' -> ->. rewrite orb_false_r. by exists rec. }
  destruct o as [now s|now t|now p|now id b|now op id|now id gen|i c w p h ttl|c i w L ttl|now w L];
    cbn [run_op].
  - apply Hsame; [|done]. unfold put_source. by case_match.
  - apply Hsame; [|done]. unfold put_target. by case_match.
  - apply Hsame; [|done]. unfold put_pipeline. repeat case_match; done.
  - apply Hsame; [|done]. unfold set_pipeline_desired_running. by case_match.
  - unfold request_pipeline_rebuild. destruct (cd_pipelines db !! id); [|by apply Hsame].
    destruct (i64_max <? _)%Z; [by apply Hsame|].
    destruct (cd_operations db !! op) eqn:Ho; [by apply Hsame|]. cbn [snd cd_operations set_operations completes].
    exists rec. rewrite orb_false_r, lookup_insert_ne by congruence. done.
  - unfold complete_pipeline_rebuilds. cbn [snd cd_operations set_operations completes].
    rewrite lookup_fmap, Hrec. eexists. split; [done|]. destruct Hr as (H1 & H2 & H3 & H4).
    unfold rebuild_answered. rewrite H1, H2, H4, H3. destruct completed; cbn [orb].
    + rewrite (bool_decide_false ("completed" = "requested")) by done. rewrite andb_false_r. by split_and!.
    + rewrite (bool_decide_true ("rebuild" = "rebuild")), (bool_decide_true ("requested" = "requested")) by done.
      destruct (Z.eqb_spec id pid) as [->|Hne].
      * rewrite bool_decide_true by done. cbn [andb]. destruct (g <=? gen)%Z; [|by split_and!].
        split_and!; cbn; try done. by apply detail_with_generation.
      * rewrite bool_decide_false by congruence. by split_and!.
  - apply Hsame; [|done]. unfold try_acquire_lease. by repeat case_match.
  - apply Hsame; [|done]. unfold renew_lease. by repeat case_match.
  - apply Hsame; [|done]. unfold release_lease. by case_match.
Qed.

Lemma run_ops_rebuild im def ops db rid pid g completed rec :
  cd_operations db !! rid = Some rec -> rebuild_record pid g completed rec ->
  exists rec', cd_operations (run_ops im def ops db) !! rid = Some rec' /\
    rebuild_record pid g (completed || existsb (completes pid g) ops) rec'.
Proof.
  revert db completed rec. induction ops as [|o ops IH]; intros db c rec Hrec Hr; cbn [run_ops foldl existsb].
  - exists rec. by rewrite orb_false_r.
  - destruct (run_op_rebuild im def o db rid pid g c rec Hrec Hr) as (rec' & Hrec' & Hr').
    rewrite orb_assoc. by eapply IH.
Qed.

(** C33: a request for a rebuild raises the pipeline's snapshot generation by one and is
    recorded for it; whatever happens afterwards, the record is completed exactly when a
    snapshot of the pipeline at that generation or a later one was reported complete. *)
Theorem rebuild_request_is_answered (interval_micros : Z -> Z)
    (definition : PipelineDefinition -> Value) (before after : list store_op)
    (now operation_id pipeline_id : Z) (request : RebuildRequest) (db : ControlDb)
    (Hrequest : request_pipeline_rebuild now operation_id pipeline_id
                  (run_ops interval_micros definition before empty_db) = (Ok (Some request), db)) :
  let generation := pd_snapshot_generation (rq_pipeline request) in
  (exists p, cd_pipelines (run_ops interval_micros definition before empty_db) !! pipeline_id = Some p /\
     generation = (pd_snapshot_generation p + 1)%Z) /\
  (exists q, cd_pipelines (run_ops interval_micros definition after db) !! pipeline_id = Some q /\
     (generation <= pd_snapshot_generation q)%Z) /\
  exists rec,
    cd_operations (run_ops interval_micros definition after db) !! operation_id = Some rec /\
    op_pipeline_id rec = Some pipeline_id /\ op_operation_type rec = "rebuild" /\
    detail_generation (op_detail rec) = Some generation /\
    op_state rec =
      (if existsb (completes pipeline_id generation) after then "completed" else "requested").
Proof.
  intros generation.
  assert (Hi : control_inv (run_ops interval_micros definition before empty_db)).
  { apply run_ops_inv, empty_inv. }
  assert (Hdb : db = run_op interval_micros definition
    (run_ops interval_micros definition before empty_db) (OpRequestRebuild now operation_id pipeline_id))
    by (cbn; by rewrite Hrequest).
  assert (Hi' : control_inv db)
    by (rewrite Hdb; by eapply pipelines_change_inv, run_op_change).
  revert Hi Hrequest. generalize (run_ops interval_micros definition before empty_db) as db0. clear Hdb.
  intros db0 Hi Hrequest. unfold request_pipeline_rebuild in Hrequest.
  destruct (cd_pipelines db0 !! pipeline_id) as [p|] eqn:Hp; [|done].
  destruct (i64_max <? _)%Z; [done|]. destruct (cd_operations db0 !! operation_id); [done|].
  injection Hrequest as <- Hdb. cbn in generation. split_and!.
  - by exists p.
  - destruct (proj2 (run_ops_inv interval_micros definition after db Hi') pipeline_id
      (with_generation generation now p)) as (q & Hq & _ & _ & Hle).
    { rewrite <-Hdb. apply lookup_insert_eq. }
    by exists q.
  - assert (Hr : exists rec, cd_operations db !! operation_id = Some rec /\
      rebuild_record pipeline_id generation false rec).
    { rewrite <-Hdb. cbn [cd_operations set_operations]. eexists. by rewrite lookup_insert_eq. }
    destruct Hr as (rec & Hrec & Hr).
    destruct (run_ops_rebuild interval_micros definition after db operation_id pipeline_id generation
      false rec Hrec Hr) as (rec' & Hrec' & ? & ? & ? & ?). by exists rec'.
Qed.

(** ** Examples *)

Definition example_source : SourceProfile :=
  mkSourceProfile 10 "erp" "erp" "sales" Standalone (mkEncryptedSecret 1 [] []) VNull true 0 0.
Definition example_target : TargetProfile :=
  mkTargetProfile 20 "warehouse" "analytics" (mkEncryptedSecret 1 [] []) VNull true 0 0.
Definition example_pipeline : PipelineDefinition :=
  mkPipelineDefinition 1 "erp to warehouse" 10 20 true 1 1 VNull 0 0.
Notation example_setup :=
  [OpPutSource 0 example_source; OpPutTarget 0 example_target; OpPutPipeline 0 example_pipeline].
Notation micros := (fun n => Z.div n 1000).
Notation example_db := (run_ops micros (fun _ => VNull) example_setup empty_db).
Notation half_minute := (30 * 1000000000)%Z.

Lemma lease_is_exclusive_witness :
  exists s, rtc (lease_step micros half_minute) (lease_start example_db 0) s /\
    map pl_fencing_token (lh_grants s) = [2%Z; 1%Z] /\
    forall L1 L2, L1 ∈ lh_grants s -> L2 ∈ lh_grants s ->
      pl_pipeline_id L1 = pl_pipeline_id L2 -> pl_fencing_token L1 = pl_fencing_token L2 ->
      pl_holder_id L1 = pl_holder_id L2.
Proof.
  assert (exists s, rtc (lease_step micros half_minute) (lease_start example_db 0) s /\
    map pl_fencing_token (lh_grants s) = [2%Z; 1%Z]) as (s & Hs & Hg).
  { eexists. split.
    - eapply rtc_l.
      { apply (Step_acquired micros half_minute _ 0 0 0 1 7 true); [reflexivity|vm_compute; discriminate|].
        vm_compute. reflexivity. }
      eapply rtc_l; [|apply rtc_refl].
      apply (Step_acquired micros half_minute _ 31000000 31000000 31000000 1 8 true);
        [vm_compute; discriminate|vm_compute; discriminate|]. vm_compute. reflexivity.
    - reflexivity. }
  exists s. split; [exact Hs|]. split; [exact Hg|].
  apply (lease_is_exclusive micros half_minute example_db 0 s); [vm_compute; discriminate|reflexivity|exact Hs].
Defined.

Lemma rebuild_request_is_answered_witness :
  exists request db,
    request_pipeline_rebuild 5 99 1 example_db = (Ok (Some request), db) /\
    exists rec, cd_operations (run_ops micros (fun _ => VNull)
        [OpCompleteRebuilds 6 1 1; OpCompleteRebuilds 7 1 2] db) !! 99%Z = Some rec /\
      op_state rec = "completed".
Proof.
  assert (exists request db, request_pipeline_rebuild 5 99 1 example_db = (Ok (Some request), db) /\
    pd_snapshot_generation (rq_pipeline request) = 2%Z) as (request & db & H & Hg)
    by (do 2 eexists; split; [vm_compute; reflexivity|reflexivity]).
  exists request, db. split; [exact H|].
  destruct (rebuild_request_is_answered micros (fun _ => VNull) example_setup
    [OpCompleteRebuilds 6 1 1; OpCompleteRebuilds 7 1 2] 5 99 1 request db H)
    as (_ & _ & rec & Hr & _ & _ & _ & Hs).
  exists rec. split; [exact Hr|]. rewrite Hs, Hg. reflexivity.
Defined.

(** What is stored of a source is read back, but for the times of an update. *)
Lemma stored_source_is_read_back now s db db' :
  SourcePrefix_new (sp_prefix s) = Ok (sp_prefix s) ->
  (0 <= es_key_version (sp_encrypted_dsn s) <= u32_max)%Z ->
  put_source now s db = (Ok tt, db') ->
  exists row created updated, cd_sources db' !! sp_id s = Some row /\
    source_from_row (sp_id s) row =
      Ok (mkSourceProfile (sp_id s) (sp_name s) (sp_prefix s) (sp_database_name s) (sp_topology s)
            (sp_encrypted_dsn s) (sp_settings s) (sp_enabled s) created updated).
Proof.
  intros Hp Hv. unfold put_source. destruct (_ || _); [done|]. intros [= <-].
  cbn [cd_sources set_sources]. rewrite lookup_insert_eq.
  assert (Hk : i32_as_u32 (u32_as_i32 (es_key_version (sp_encrypted_dsn s)))
             = es_key_version (sp_encrypted_dsn s)).
  { unfold i32_as_u32, u32_as_i32, u32_max in *.
    destruct (Z.ltb_spec (es_key_version (sp_encrypted_dsn s)) (2 ^ 31)); [apply Z.mod_small; lia|].
    symmetry. apply (Z.mod_unique _ _ (-1)); lia. }
  assert (Ht : topology_from_name (topology_name (sp_topology s)) = Ok (sp_topology s))
    by by destruct (sp_topology s).
  destruct (cd_sources db !! sp_id s) as [old|]; do 3 eexists; (split; [done|]);
    unfold source_from_row; cbn [sr_prefix sr_topology sr_dsn_key_version sr_name sr_database_name
      sr_dsn_nonce sr_dsn_ciphertext sr_settings sr_enabled sr_created_at sr_updated_at];
    rewrite Hp, Ht, Hk; cbn; by destruct (sp_encrypted_dsn s).
Qed.
