(* ===== verification/Supervisor.v ===== *)
(** * The pipeline supervisor

    Models [crates/engine/src/supervisor.rs]: the tasks of pipelines, their registration,
    cancellation, joining and telemetry.  The lifecycle mutex makes [start], the stops and
    [reap_finished] atomic with respect to each other, so each is a function; what a task
    returns when it is awaited is an argument.  A task finishes and reports telemetry on its
    own, and the future of a stop may be dropped while it awaits: these are events of their
    own.  Tasks are numbered in the order in which they were spawned and never forgotten;
    [tk_status] tells which still run.

    The texts of identifiers and durations are arguments.  The iteration order of a hash map
    is that of [map_to_list]. *)

From S2P Require Import Prelude Core Pipeline Telemetry.

Inductive SupervisorError : Type :=
| AlreadyRunning (pipeline_id : Z)
| NotRunning (pipeline_id : Z)
| TaskError (reason : string)
| Join (error : string)
| StopTimeout (pipeline_id timeout : Z).

(** What a task's join handle yields: [None] is [Ok(())]. *)
Notation outcome := (option SupervisorError).

Inductive TaskStatus : Type :=
| TaskRunning
| TaskDone (r : outcome).

Record Task : Type := mkTask {
  tk_pipeline : Z;
  tk_cancelled : bool;
  tk_status : TaskStatus;
}.

Record PipelineTaskOutcome : Type := mkPipelineTaskOutcome {
  pto_pipeline_id : Z;
  pto_result : outcome;
}.

Record PipelineSupervisor : Type := mkPipelineSupervisor {
  sv_tasks : list Task;
  sv_pipelines : gmap Z nat;
  sv_telemetry : gmap Z PipelineRuntimeSnapshot;
}.

Definition PipelineSupervisor_new : PipelineSupervisor := mkPipelineSupervisor [] ∅ ∅.

Definition with_tasks (f : list Task -> list Task) (self : PipelineSupervisor) : PipelineSupervisor :=
  mkPipelineSupervisor (f (sv_tasks self)) (sv_pipelines self) (sv_telemetry self).
Definition with_pipelines (f : gmap Z nat -> gmap Z nat) (self : PipelineSupervisor)
    : PipelineSupervisor :=
  mkPipelineSupervisor (sv_tasks self) (f (sv_pipelines self)) (sv_telemetry self).
Definition with_telemetry (f : gmap Z PipelineRuntimeSnapshot -> gmap Z PipelineRuntimeSnapshot)
    (self : PipelineSupervisor) : PipelineSupervisor :=
  mkPipelineSupervisor (sv_tasks self) (sv_pipelines self) (f (sv_telemetry self)).

(** [managed.handle.is_finished()]. *)
Definition is_finished (self : PipelineSupervisor) (task : nat) : bool :=
  match sv_tasks self !! task with
  | Some t => match tk_status t with TaskDone _ => true | TaskRunning => false end
  | None => false
  end.

(** [cancellation.cancel()]. *)
Definition cancel_task (t : Task) : Task := mkTask (tk_pipeline t) true (tk_status t).
Definition cancel (task : nat) : PipelineSupervisor -> PipelineSupervisor :=
  with_tasks (alter cancel_task task).

(** A running task ends with [r]; a finished one stays as it is. *)
Definition finish_task (r : outcome) (t : Task) : Task :=
  match tk_status t with
  | TaskRunning => mkTask (tk_pipeline t) (tk_cancelled t) (TaskDone r)
  | TaskDone _ => t
  end.

(** [join_managed]: the task's result, [finish] if it still runs. *)
Definition join_managed (task : nat) (finish : outcome) (self : PipelineSupervisor)
    : outcome * PipelineSupervisor :=
  let self := with_tasks (alter (finish_task finish) task) self in
  match sv_tasks self !! task with
  | Some (mkTask _ _ (TaskDone r)) => (r, self)
  | _ => (finish, self)
  end.

Section supervisor.
Context (show_id : Z -> string) (show_duration : Z -> string).

Definition SupervisorError_to_string (e : SupervisorError) : string :=
  match e with
  | AlreadyRunning id => "pipeline " +:+ show_id id +:+ " is already running"
  | NotRunning id => "pipeline " +:+ show_id id +:+ " is not running"
  | TaskError reason => "pipeline task failed: " +:+ reason
  | Join error => "pipeline task panicked: " +:+ error
  | StopTimeout id timeout =>
      "pipeline " +:+ show_id id +:+ " did not stop within " +:+ show_duration timeout
      +:+ " and was aborted"
  end.

(** A call on a telemetry handle; a panic inside it reaches the caller. *)
Definition report (pipeline_id : Z) (call : PipelineRuntimeSnapshot -> result string unit * PipelineRuntimeSnapshot)
    (self : PipelineSupervisor) : result SupervisorError unit * PipelineSupervisor :=
  match sv_telemetry self !! pipeline_id with
  | None => (Ok tt, self)
  | Some s =>
      let (r, s) := call s in
      (match r with Ok _ => Ok tt | _ => Panic end, with_telemetry (<[pipeline_id := s]>) self)
  end.

Definition record_finished (now pipeline_id : Z) (r : outcome) (intentional_stop : bool)
    (self : PipelineSupervisor) : result SupervisorError unit * PipelineSupervisor :=
  report pipeline_id (fun s =>
    if intentional_stop then mark_stopped now s
    else match r with
         | Some error => mark_failed now (SupervisorError_to_string error) s
         | None =>
             match rt_state s with
             | RtDegraded | RtFailed => (Ok tt, s)
             | _ => mark_stopped now s
             end
         end) self.

(** [telemetry_for]: the entry, created when missing. *)
Definition telemetry_for (pipeline_id : Z) (self : PipelineSupervisor) : PipelineSupervisor :=
  match sv_telemetry self !! pipeline_id with
  | Some _ => self
  | None => with_telemetry (<[pipeline_id := Telemetry_new pipeline_id]>) self
  end.

Definition runtime_snapshots (self : PipelineSupervisor) : list PipelineRuntimeSnapshot :=
  map snd (map_to_list (sv_telemetry self)).
Definition runtime_snapshot (pipeline_id : Z) (self : PipelineSupervisor)
    : option PipelineRuntimeSnapshot :=
  sv_telemetry self !! pipeline_id.

(** [tokio::spawn] and the registration of the new task. *)
Definition spawn (pipeline_id : Z) (self : PipelineSupervisor) : PipelineSupervisor :=
  mkPipelineSupervisor (sv_tasks self ++ [mkTask pipeline_id false TaskRunning])
    (<[pipeline_id := length (sv_tasks self)]> (sv_pipelines self)) (sv_telemetry self).

(** The end of [start], after a finished task has been reaped. *)
Definition start_new (now pipeline_id : Z) (self : PipelineSupervisor)
    : result SupervisorError unit * PipelineSupervisor :=
  let self := telemetry_for pipeline_id self in
  match sv_pipelines self !! pipeline_id with
  | Some _ => (Err (AlreadyRunning pipeline_id), self)
  | None =>
      match report pipeline_id (mark_started now) self with
      | (Ok _, self) => (Ok tt, spawn pipeline_id self)
      | r => r
      end
  end.

Definition start (now pipeline_id : Z) (self : PipelineSupervisor)
    : result SupervisorError unit * PipelineSupervisor :=
  match sv_pipelines self !! pipeline_id with
  | Some task =>
      if is_finished self task
      then
        let self := with_pipelines (delete pipeline_id) self in
        let (r, self) := join_managed task None self in
        match record_finished now pipeline_id r false self with
        | (Ok _, self) => start_new now pipeline_id self
        | r => r
        end
      else (Err (AlreadyRunning pipeline_id), self)
  | None => start_new now pipeline_id self
  end.

Definition outcome_result (r : outcome) : result SupervisorError unit :=
  match r with None => Ok tt | Some e => Err e end.

(** Registration removed and the token cancelled: what every stop does first. *)
Definition take_managed (pipeline_id : Z) (task : nat) (self : PipelineSupervisor)
    : PipelineSupervisor :=
  cancel task (with_pipelines (delete pipeline_id) self).

Definition stop (now pipeline_id : Z) (finish : outcome) (self : PipelineSupervisor)
    : result SupervisorError unit * PipelineSupervisor :=
  match sv_pipelines self !! pipeline_id with
  | None => (Err (NotRunning pipeline_id), self)
  | Some task =>
      let self := take_managed pipeline_id task self in
      let (r, self) := join_managed task finish self in
      match record_finished now pipeline_id r true self with
      | (Ok _, self) => (outcome_result r, self)
      | r => r
      end
  end.

(** [finish] is [None] when the timeout elapses first: the task is aborted and awaited. *)
Definition stop_with_timeout (now pipeline_id timeout : Z) (finish : option outcome)
    (self : PipelineSupervisor) : result SupervisorError unit * PipelineSupervisor :=
  match sv_pipelines self !! pipeline_id with
  | None => (Err (NotRunning pipeline_id), self)
  | Some task =>
      let self := take_managed pipeline_id task self in
      let (r, self) :=
        match (if is_finished self task then Some None else finish) with
        | Some finish => join_managed task finish self
        | None =>
            (Some (StopTimeout pipeline_id timeout),
             (join_managed task (Some (Join "task was cancelled")) self).2)
        end in
      let timed_out := match r with Some (StopTimeout _ _) => true | _ => false end in
      match record_finished now pipeline_id r (negb timed_out) self with
      | (Ok _, self) => (outcome_result r, self)
      | r => r
      end
  end.

(** The joining loop of [stop_all]; a panic leaves the remaining tasks unawaited. *)
Fixpoint join_all (now : Z) (finish : Z -> outcome) (managed : list (Z * nat))
    (first_error : outcome) (self : PipelineSupervisor)
    : result SupervisorError unit * PipelineSupervisor :=
  match managed with
  | [] => (outcome_result first_error, self)
  | (pipeline_id, task) :: managed =>
      let (r, self) := join_managed task (finish pipeline_id) self in
      match record_finished now pipeline_id r true self with
      | (Ok _, self) =>
          join_all now finish managed
            (match first_error with Some e => Some e | None => r end) self
      | r => r
      end
  end.

Definition cancel_all (managed : list (Z * nat)) (self : PipelineSupervisor) : PipelineSupervisor :=
  foldl (fun self m => cancel m.2 self) self managed.

Definition stop_all (now : Z) (finish : Z -> outcome) (self : PipelineSupervisor)
    : result SupervisorError unit * PipelineSupervisor :=
  let managed := map_to_list (sv_pipelines self) in
  let self := cancel_all managed (with_pipelines (fun _ => ∅) self) in
  join_all now finish managed None self.

Definition running (self : PipelineSupervisor) : list Z :=
  omap (fun m => if is_finished self m.2 then None else Some m.1) (map_to_list (sv_pipelines self)).

(** The joining loop of [reap_finished]. *)
Fixpoint reap_all (now : Z) (finished : list (Z * nat)) (outcomes : list PipelineTaskOutcome)
    (self : PipelineSupervisor)
    : result SupervisorError (list PipelineTaskOutcome) * PipelineSupervisor :=
  match finished with
  | [] => (Ok outcomes, self)
  | (pipeline_id, task) :: finished =>
      let (r, self) := join_managed task None self in
      match record_finished now pipeline_id r false self with
      | (Ok _, self) =>
          reap_all now finished (outcomes ++ [mkPipelineTaskOutcome pipeline_id r]) self
      | (_, self) => (Panic, self)
      end
  end.

Definition reap_finished (now : Z) (self : PipelineSupervisor)
    : result SupervisorError (list PipelineTaskOutcome) * PipelineSupervisor :=
  let finished := List.filter (fun m => is_finished self m.2) (map_to_list (sv_pipelines self)) in
  let self :=
    with_pipelines (fun pipelines => foldl (fun m kv => delete kv.1 m) pipelines finished) self in
  reap_all now finished [] self.
End supervisor.

(** ** Schedules *)

Inductive sv_event : Type :=
| EvStart (now pipeline_id : Z)
| EvStop (now pipeline_id : Z) (finish : outcome)
| EvStopTimeout (now pipeline_id timeout : Z) (finish : option outcome)
| EvStopDropped (pipeline_id : Z)
| EvStopAll (now : Z) (finish : Z -> outcome)
| EvStopAllDropped
| EvReap (now : Z)
| EvFinish (task : nat) (r : outcome)
| EvReport (task : nat) (call : TelemetryCall).

Section schedules.
Context (show_id : Z -> string) (show_duration : Z -> string).

Definition sv_step (self : PipelineSupervisor) (ev : sv_event) : PipelineSupervisor :=
  match ev with
  | EvStart now id => (start show_id show_duration now id self).2
  | EvStop now id finish => (stop show_id show_duration now id finish self).2
  | EvStopTimeout now id timeout finish =>
      (stop_with_timeout show_id show_duration now id timeout finish self).2
  | EvStopDropped id =>
      match sv_pipelines self !! id with
      | Some task => take_managed id task self
      | None => self
      end
  | EvStopAll now finish => (stop_all show_id show_duration now finish self).2
  | EvStopAllDropped =>
      cancel_all (map_to_list (sv_pipelines self)) (with_pipelines (fun _ => ∅) self)
  | EvReap now => (reap_finished show_id show_duration now self).2
  | EvFinish task r => with_tasks (alter (finish_task r) task) self
  | EvReport task call =>
      match sv_tasks self !! task with
      | Some (mkTask id _ TaskRunning) => (report id (run_call call) self).2
      | _ => self
      end
  end.

(** No stop is dropped while it awaits, and none panics before it has awaited every task. *)
Definition awaits (self : PipelineSupervisor) (ev : sv_event) : Prop :=
  match ev with
  | EvStopDropped _ | EvStopAllDropped => False
  | EvStopAll now finish => (stop_all show_id show_duration now finish self).1 <> Panic
  | _ => True
  end.

Definition sv_run (events : list sv_event) (self : PipelineSupervisor) : PipelineSupervisor :=
  foldl sv_step self events.

Fixpoint all_await (self : PipelineSupervisor) (events : list sv_event) : Prop :=
  match events with
  | [] => True
  | ev :: events => awaits self ev /\ all_await (sv_step self ev) events
  end.

(** A task that runs and has not been told to stop. *)
Definition active (self : PipelineSupervisor) (t : nat) (p : Z) : Prop :=
  sv_tasks self !! t = Some (mkTask p false TaskRunning).

(** Registered tasks are not cancelled, and active tasks are registered. *)
Record sv_inv (self : PipelineSupervisor) : Prop := {
  si_registered : forall p t, sv_pipelines self !! p = Some t ->
    exists k, sv_tasks self !! t = Some k /\ tk_pipeline k = p /\ tk_cancelled k = false;
  si_active : forall t p, active self t p -> sv_pipelines self !! p = Some t;
}.

(** Every running task is active: no task runs on after it was told to stop. *)
Definition no_orphans (self : PipelineSupervisor) : Prop :=
  forall t k, sv_tasks self !! t = Some k -> tk_status k = TaskRunning -> tk_cancelled k = false.

(** What a task can become. *)
Definition task_evolves (k k' : Task) : Prop :=
  tk_pipeline k' = tk_pipeline k /\ (tk_status k' = TaskRunning -> tk_status k = TaskRunning) /\
  (tk_cancelled k' = false -> tk_cancelled k = false).

Lemma inv_evolve self self' :
  sv_inv self ->
  (forall t k', sv_tasks self' !! t = Some k' -> exists k, sv_tasks self !! t = Some k /\ task_evolves k k') ->
  (forall p t, sv_pipelines self' !! p = Some t -> sv_pipelines self !! p = Some t /\
     exists k', sv_tasks self' !! t = Some k' /\ tk_cancelled k' = false) ->
  (forall p t, sv_pipelines self !! p = Some t -> active self' t p -> sv_pipelines self' !! p = Some t) ->
  sv_inv self'.
Proof.
  intros [Hr Ha] Ht Hp Hk. split.
  - intros p t Hpt. destruct (Hp p t Hpt) as (Ho & k' & Hk' & Hc).
    destruct (Ht t k' Hk') as (k & Hkk & Hpl & _). destruct (Hr p t Ho) as (k0 & Hk0 & Hpk & _).
    exists k'. split_and!; [done| |done]. rewrite Hkk in Hk0. injection Hk0 as <-. by rewrite Hpl.
  - intros t p Hact. apply Hk; [|done]. destruct (Ht t _ Hact) as (k & Hkk & Hpl & Hs & Hc).
    cbn in Hpl, Hs, Hc. apply Ha. unfold active. rewrite Hkk. destruct k as [kp kc ks]. cbn in *.
    subst kp. by rewrite Hs, Hc.
Qed.

Lemma evolves_refl k : task_evolves k k.
Proof. done. Qed.
Lemma evolves_cancel k : task_evolves k (cancel_task k).
Proof. by split_and!. Qed.
Lemma evolves_finish r k : task_evolves k (finish_task r k).
Proof. unfold finish_task, task_evolves. destruct (tk_status k) eqn:E; cbn; by rewrite ?E. Qed.

Lemma alter_evolves f (l : list Task) t u k' :
  (forall k, task_evolves k (f k)) -> alter f t l !! u = Some k' ->
  exists k, l !! u = Some k /\ task_evolves k k'.
Proof.
  intros Hf. destruct (decide (u = t)) as [->|Hne].
  - rewrite list_lookup_alter_eq. destruct (l !! t) as [k|]; [|done]. intros [= <-]. by exists k.
  - rewrite list_lookup_alter_ne by done. intros Hk. by exists k'.
Qed.

Lemma telemetry_inv f self : sv_inv self -> sv_inv (with_telemetry f self).
Proof. by intros [Hr Ha]. Qed.

Lemma finish_inv r t self : sv_inv self -> sv_inv (with_tasks (alter (finish_task r) t) self).
Proof.
  intros Hi. apply (inv_evolve self); cbn; [done| | |done].
  - intros u k'. apply alter_evolves, evolves_finish.
  - intros p u Hp. split; [done|]. destruct (si_registered _ Hi p u Hp) as (k & Hk & _ & Hc).
    destruct (decide (u = t)) as [->|Hne].
    + exists (finish_task r k). rewrite list_lookup_alter_eq, Hk. split; [done|].
      unfold finish_task. by destruct (tk_status k).
    + exists k. by rewrite list_lookup_alter_ne.
Qed.

Lemma delete_inv p t self :
  sv_inv self -> sv_pipelines self !! p = Some t -> is_finished self t = true ->
  sv_inv (with_pipelines (delete p) self).
Proof.
  intros Hi Hp Hf. apply (inv_evolve self); cbn; [done| | |].
  - intros u k Hk. by exists k.
  - intros q u Hq. apply lookup_delete_Some in Hq as [Hne Hq]. split; [done|].
    destruct (si_registered _ Hi q u Hq) as (k & Hk & _ & Hc). by exists k.
  - intros q u Hq Hact. destruct (decide (q = p)) as [->|Hne]; [|by rewrite lookup_delete_ne].
    rewrite Hp in Hq. injection Hq as <-. unfold is_finished in Hf. unfold active in Hact. cbn in Hact.
    by rewrite Hact in Hf.
Qed.

Lemma take_inv p t self :
  sv_inv self -> sv_pipelines self !! p = Some t -> sv_inv (take_managed p t self).
Proof.
  intros Hi Hp. apply (inv_evolve self); cbn; [done| | |].
  - intros u k'. apply alter_evolves, evolves_cancel.
  - intros q u Hq. apply lookup_delete_Some in Hq as [Hne Hq]. split; [done|].
    destruct (si_registered _ Hi q u Hq) as (k & Hk & Hkp & Hc). exists k.
    destruct (decide (u = t)) as [->|Hnt]; [|by rewrite list_lookup_alter_ne].
    destruct (si_registered _ Hi p t Hp) as (k2 & Hk2 & Hkp2 & _). congruence.
  - intros q u Hq Hact. destruct (decide (q = p)) as [->|Hne]; [|by rewrite lookup_delete_ne].
    rewrite Hp in Hq. injection Hq as <-. unfold active in Hact. cbn in Hact.
    rewrite list_lookup_alter_eq in Hact. by destruct (sv_tasks self !! t).
Qed.

Lemma spawn_inv p self :
  sv_inv self -> sv_pipelines self !! p = None -> sv_inv (spawn p self).
Proof.
  intros [Hr Ha] Hp. split; cbn.
  - intros q t. destruct (decide (q = p)) as [->|Hne].
    + rewrite lookup_insert_eq. intros [= <-]. eexists. by rewrite list_lookup_middle.
    + rewrite lookup_insert_ne by done. intros (k & Hk & ? & ?)%Hr. exists k.
      rewrite lookup_app_l by (by eapply lookup_lt_Some). done.
  - intros t q Hact. unfold active in Hact. cbn in Hact.
    apply lookup_app_Some in Hact as [Hact|[Hle Hact]].
    + specialize (Ha t q Hact). rewrite lookup_insert_ne; [done|congruence].
    + apply list_lookup_singleton_Some in Hact as [Ht [= <-]]. replace t with (length (sv_tasks self)) by lia.
      apply lookup_insert_eq.
Qed.
Lemma cancel_all_lookup managed self t :
  sv_tasks (cancel_all managed self) !! t =
  (if bool_decide (t ∈ managed.*2) then cancel_task else id) <$> sv_tasks self !! t.
Proof.
  revert self. induction managed as [|[p u] managed IH]; intros self.
  { rewrite bool_decide_false by set_solver. 
    change (cancel_all [] self) with self. by destruct (sv_tasks self !! t). }
  change (cancel_all ((p, u) :: managed) self) with (cancel_all managed (cancel u self)).
  rewrite IH, fmap_cons. cbn [cancel with_tasks sv_tasks snd].
  destruct (decide (u = t)) as [->|Hne].
  - rewrite list_lookup_alter_eq, (bool_decide_true (t ∈ _ :: _)) by set_solver.
    destruct (sv_tasks self !! t); [|done]. by case_bool_decide.
  - rewrite list_lookup_alter_ne by done. do 2 case_bool_decide; set_solver.
Qed.

Lemma cancel_all_pipelines managed self : sv_pipelines (cancel_all managed self) = sv_pipelines self.
Proof.
  revert self. induction managed as [|m managed IH]; intros self; [done|].
  change (cancel_all (m :: managed) self) with (cancel_all managed (cancel m.2 self)). by rewrite IH.
Qed.

Lemma registered_in_list self p t :
  sv_pipelines self !! p = Some t -> t ∈ (map_to_list (sv_pipelines self)).*2.
Proof. intros H. apply list_elem_of_fmap. exists (p, t). split; [done|]. by apply elem_of_map_to_list. Qed.

Lemma drain_inv self :
  sv_inv self -> sv_inv (cancel_all (map_to_list (sv_pipelines self)) (with_pipelines (fun _ => ∅) self)).
Proof.
  intros Hi. apply (inv_evolve self); [done| | |].
  - intros t k'. rewrite cancel_all_lookup. cbn. destruct (sv_tasks self !! t) as [k|]; [|done].
    intros [= <-]. exists k. split; [done|]. case_bool_decide; [apply evolves_cancel|done].
  - intros p t. by rewrite cancel_all_pipelines.
  - intros p t Hp Hact. unfold active in Hact. rewrite cancel_all_lookup in Hact. cbn in Hact.
    rewrite bool_decide_true in Hact by (by eapply registered_in_list).
    by destruct (sv_tasks self !! t).
Qed.

Lemma report_inv p call self : sv_inv self -> sv_inv (report p call self).2.
Proof.
  intros Hi. unfold report. destruct (sv_telemetry self !! p) as [s|]; [|done].
  destruct (call s). by apply telemetry_inv.
Qed.

Lemma report_frame p call self :
  sv_tasks (report p call self).2 = sv_tasks self /\
  sv_pipelines (report p call self).2 = sv_pipelines self.
Proof. unfold report. destruct (sv_telemetry self !! p) as [s|]; [|done]. by destruct (call s). Qed.

Lemma report_not_Err p call self e self' : report p call self = (Err e, self') -> False.
Proof. unfold report. destruct (sv_telemetry self !! p) as [s|]; [|done]. by destruct (call s) as [[]]. Qed.

Lemma join_snd t r self : (join_managed t r self).2 = with_tasks (alter (finish_task r) t) self.
Proof.
  unfold join_managed. cbn [with_tasks sv_tasks]. by destruct (alter _ _ _ !! t) as [[? ? []]|].
Qed.

Lemma join_inv t r self : sv_inv self -> sv_inv (join_managed t r self).2.
Proof. rewrite join_snd. apply finish_inv. Qed.

Lemma telemetry_for_inv p self : sv_inv self -> sv_inv (telemetry_for p self).
Proof. unfold telemetry_for. destruct (sv_telemetry self !! p); [done|]. apply telemetry_inv. Qed.

Lemma telemetry_for_frame p self :
  sv_tasks (telemetry_for p self) = sv_tasks self /\
  sv_pipelines (telemetry_for p self) = sv_pipelines self.
Proof. unfold telemetry_for. by destruct (sv_telemetry self !! p). Qed.

(** [start_new] by cases. *)
Lemma start_new_cases now p self :
  sv_pipelines self !! p = None ->
  exists self1, sv_tasks self1 = sv_tasks self /\ sv_pipelines self1 = sv_pipelines self /\
    (sv_inv self -> sv_inv self1) /\
    (start_new now p self = (Ok tt, spawn p self1) \/ start_new now p self = (Panic, self1)).
Proof.
  intros Hp. unfold start_new. destruct (telemetry_for_frame p self) as [Ht Hm]. rewrite Hm, Hp.
  destruct (report_frame p (mark_started now) (telemetry_for p self)) as [Ht' Hm'].
  exists (report p (mark_started now) (telemetry_for p self)).2.
  rewrite Ht', Hm', Ht, Hm. split_and!; [done|done| |].
  { intros Hi. by apply report_inv, telemetry_for_inv. }
  unfold report in *. destruct (sv_telemetry _ !! p) as [s|]; [|by left].
  destruct (mark_started now s) as [[]]; cbn; auto.
Qed.

Lemma start_new_inv now p self :
  sv_inv self -> sv_pipelines self !! p = None -> sv_inv (start_new now p self).2.
Proof.
  intros Hi Hp. destruct (start_new_cases now p self Hp) as (self1 & _ & Hm & Hi1 & [-> | ->]); cbn; [|auto].
  apply spawn_inv; [auto|by rewrite Hm].
Qed.

Lemma start_inv now p self : sv_inv self -> sv_inv (start show_id show_duration now p self).2.
Proof.
  intros Hi. unfold start. destruct (sv_pipelines self !! p) as [t|] eqn:Hp; [|by apply start_new_inv].
  destruct (is_finished self t) eqn:Hf; [|done].
  pose proof (join_inv t None _ (delete_inv p t self Hi Hp Hf)) as Hj. rewrite join_snd in Hj.
  destruct (join_managed t None (with_pipelines (delete p) self)) as [r self1] eqn:Ej.
  pose proof (join_snd t None (with_pipelines (delete p) self)) as Hs. rewrite Ej in Hs. cbn in Hs. subst self1.
  unfold record_finished.
  match goal with |- context [report p ?c ?s] =>
    pose proof (report_inv p c s Hj) as Hrep; pose proof (report_frame p c s) as [_ Hm];
    destruct (report p c s) as [[[]| |] self2] end; [|done..].
  apply start_new_inv; [done|]. cbn in Hm. rewrite Hm. apply lookup_delete_eq.
Qed.
(** Tasks that still run are as they were, and [ended] ones do not run. *)
Definition only_ends (self self' : PipelineSupervisor) (ended : nat -> Prop) : Prop :=
  forall u k', sv_tasks self' !! u = Some k' -> tk_status k' = TaskRunning ->
    sv_tasks self !! u = Some k' /\ ~ ended u.

Lemma join_ends t r self : only_ends self (join_managed t r self).2 (fun u => u = t).
Proof.
  rewrite join_snd. intros u k'. cbn. destruct (decide (u = t)) as [->|Hne].
  - rewrite list_lookup_alter_eq. destruct (sv_tasks self !! t) as [k|]; [|done].
    intros [= <-]. unfold finish_task. by destruct (tk_status k) eqn:E; cbn; rewrite ?E.
  - by rewrite list_lookup_alter_ne.
Qed.

(** One round of a joining loop: a task is awaited and its end recorded. *)
Lemma round_spec p t finish call self :
  let self' := (report p call (join_managed t finish self).2).2 in
  (sv_inv self -> sv_inv self') /\ sv_pipelines self' = sv_pipelines self /\
  only_ends self self' (fun u => u = t).
Proof.
  cbn zeta. destruct (report_frame p call (join_managed t finish self).2) as [Ht Hm]. split_and!.
  - intros Hi. by apply report_inv, join_inv.
  - rewrite Hm. by rewrite join_snd.
  - unfold only_ends. rewrite Ht. apply join_ends.
Qed.

Lemma join_all_spec now finish managed e self :
  let r := join_all show_id show_duration now finish managed e self in
  (sv_inv self -> sv_inv r.2) /\ sv_pipelines r.2 = sv_pipelines self /\
  only_ends self r.2 (fun u => r.1 <> Panic /\ u ∈ managed.*2).
Proof.
  revert e self. induction managed as [|[p t] managed IH]; intros e self; cbn zeta.
  { cbn. split_and!; [done|done|]. intros u k' Hk _. split; [done|]. set_solver. }
  cbn [join_all]. destruct (join_managed t (finish p) self) as [r self1] eqn:Ej.
  unfold record_finished.
  match goal with |- context [report p ?c self1] =>
    pose proof (round_spec p t (finish p) c self) as (Hi & Hm & Ho) end.
  rewrite Ej in Hi, Hm, Ho. cbn [snd] in Hi, Hm, Ho.
  destruct (report p _ self1) as [[[]|er|] self2] eqn:Er; cbn [fst snd] in *.
  - destruct (IH (match e with Some e => Some e | None => r end) self2) as (Hi' & Hm' & Ho').
    split_and!; [auto|congruence|]. intros u k' Hk Hs. destruct (Ho' u k' Hk Hs) as [Hk2 Hn].
    destruct (Ho u k' Hk2 Hs) as [Hk1 Hne]. split; [done|]. rewrite fmap_cons. cbn. set_solver.
  - by apply report_not_Err in Er.
  - split_and!; [done|done|]. intros u k' Hk Hs. split; [by apply (Ho u k' Hk Hs)|]. by intros [? _].
Qed.

Lemma stop_all_spec now finish self :
  let r := stop_all show_id show_duration now finish self in
  sv_inv self -> sv_inv r.2 /\
  (r.1 <> Panic -> forall u k', sv_tasks r.2 !! u = Some k' -> tk_status k' = TaskRunning ->
     sv_tasks self !! u = Some k').
Proof.
  cbn zeta. intros Hi. unfold stop_all.
  destruct (join_all_spec now finish (map_to_list (sv_pipelines self)) None
    (cancel_all (map_to_list (sv_pipelines self)) (with_pipelines (fun _ => ∅) self))) as (Hi' & _ & Ho).
  split; [by apply Hi', drain_inv|]. intros Hr u k' Hk Hs. destruct (Ho u k' Hk Hs) as [Hk1 Hn].
  rewrite cancel_all_lookup in Hk1. rewrite bool_decide_false in Hk1 by tauto.
  cbn in Hk1. by destruct (sv_tasks self !! u).
Qed.

(** Taking a registered task, awaiting it and recording its end. *)
Lemma stop_round p t finish call self :
  let self' := (report p call (join_managed t finish (take_managed p t self)).2).2 in
  sv_pipelines self !! p = Some t -> sv_inv self ->
  sv_inv self' /\
  forall u k', sv_tasks self' !! u = Some k' -> tk_status k' = TaskRunning ->
    sv_tasks self !! u = Some k' /\ sv_pipelines self !! p <> Some u.
Proof.
  cbn zeta. intros Hp Hi.
  destruct (round_spec p t finish call (take_managed p t self)) as (Hi' & _ & Ho).
  split; [by apply Hi', take_inv|]. intros u k' Hk Hs. destruct (Ho u k' Hk Hs) as [Hk1 Hne].
  cbn in Hk1. rewrite list_lookup_alter_ne in Hk1 by done. split; [done|congruence].
Qed.

(** What every stop does to the tasks. *)
Definition stops (p : Z) (self self' : PipelineSupervisor) : Prop :=
  sv_inv self' /\
  forall u k', sv_tasks self' !! u = Some k' -> tk_status k' = TaskRunning ->
    sv_tasks self !! u = Some k' /\ sv_pipelines self !! p <> Some u.

Lemma stop_spec now p finish self :
  sv_inv self -> stops p self (stop show_id show_duration now p finish self).2.
Proof.
  intros Hi. unfold stop. destruct (sv_pipelines self !! p) as [t|] eqn:Hp.
  2: { split; [done|]. intros u k' Hk _. split; [done|]. by rewrite Hp. }
  pose proof (fun call => stop_round p t finish call self Hp Hi) as Hs.
  destruct (join_managed t finish (take_managed p t self)) as [r self1]. cbn [snd] in Hs.
  unfold record_finished. match goal with |- context [report p ?c self1] => specialize (Hs c) end.
  by destruct (report p _ self1) as [[[]|er|] self2].
Qed.

Lemma stop_with_timeout_spec now p timeout finish self :
  sv_inv self -> stops p self (stop_with_timeout show_id show_duration now p timeout finish self).2.
Proof.
  intros Hi. unfold stop_with_timeout. destruct (sv_pipelines self !! p) as [t|] eqn:Hp.
  2: { split; [done|]. intros u k' Hk _. split; [done|]. by rewrite Hp. }
  match goal with |- context [let (_, _) := ?m in _] => set (joined := m) end.
  assert (exists f, joined.2 = (join_managed t f (take_managed p t self)).2) as [f Hf].
  { unfold joined. destruct (if is_finished _ _ then _ else _) as [f|]; by eexists. }
  clearbody joined. destruct joined as [r self1]. cbn in Hf. subst self1.
  unfold record_finished. match goal with |- context [report p ?c _] =>
    pose proof (stop_round p t f c self Hp Hi) as Hs end.
  by destruct (report p _ _) as [[[]|er|] self2].
Qed.

(** *** Reaping *)

Lemma delete_all_lookup (l : list (Z * nat)) (m : gmap Z nat) p t :
  foldl (fun m kv => delete kv.1 m) m l !! p = Some t <-> m !! p = Some t /\ p ∉ l.*1.
Proof.
  revert m. induction l as [|[q u] l IH]; intros m; cbn; [set_solver|].
  rewrite IH, lookup_delete_Some, not_elem_of_cons. naive_solver.
Qed.

Notation finished_of self := (List.filter (fun m => is_finished self m.2) (map_to_list (sv_pipelines self))).
Notation unregister l := (with_pipelines (fun pipelines => foldl (fun m kv => delete kv.1 m) pipelines l)).

Lemma finished_of_spec self p t :
  (p, t) ∈ finished_of self <-> sv_pipelines self !! p = Some t /\ is_finished self t = true.
Proof. rewrite list_elem_of_In, filter_In, <-list_elem_of_In, elem_of_map_to_list. done. Qed.

Lemma finished_of_fst self p t :
  sv_pipelines self !! p = Some t -> p ∈ (finished_of self).*1 -> is_finished self t = true.
Proof.
  intros Hp ([q u] & Hq & Hin%finished_of_spec)%list_elem_of_fmap. cbn in Hq. subst q.
  destruct Hin as [Hu Hf]. congruence.
Qed.

Lemma unregister_inv self : sv_inv self -> sv_inv (unregister (finished_of self) self).
Proof.
  intros Hi. apply (inv_evolve self); cbn; [done| | |].
  - intros u k Hk. by exists k.
  - intros p t [Hp _]%delete_all_lookup. split; [done|].
    destruct (si_registered _ Hi p t Hp) as (k & Hk & _ & Hc). by exists k.
  - intros p t Hp Hact. apply delete_all_lookup. split; [done|]. intros Hf.
    apply (finished_of_fst self p t Hp) in Hf. unfold is_finished in Hf. unfold active in Hact.
    cbn in Hact. by rewrite Hact in Hf.
Qed.

(** The result a finished task has. *)
Definition result_of (self : PipelineSupervisor) (t : nat) : outcome :=
  match sv_tasks self !! t with Some (mkTask _ _ (TaskDone r)) => r | _ => None end.

Lemma join_finished self t r :
  is_finished self t = true -> join_managed t r self = (result_of self t, self).
Proof.
  unfold is_finished, join_managed, result_of. cbn [with_tasks sv_tasks].
  destruct (sv_tasks self !! t) as [k|] eqn:E; [|done].
  destruct k as [kp kc [|d]]; [done|]. intros _. rewrite list_lookup_alter_eq, E. cbn.
  f_equal. unfold with_tasks. destruct self as [ts ps tel]. cbn in *. f_equal.
  apply list_eq. intros u. destruct (decide (u = t)) as [->|Hne].
  - by rewrite list_lookup_alter_eq, E.
  - by rewrite list_lookup_alter_ne.
Qed.

Lemma reap_all_spec now l outs self :
  Forall (fun m => is_finished self m.2 = true) l ->
  let r := reap_all show_id show_duration now l outs self in
  sv_tasks r.2 = sv_tasks self /\ sv_pipelines r.2 = sv_pipelines self /\
  (sv_inv self -> sv_inv r.2) /\
  (forall e, r.1 <> Err e) /\
  forall o, r.1 = Ok o -> o = outs ++ map (fun m => mkPipelineTaskOutcome m.1 (result_of self m.2)) l.
Proof.
  revert outs self. induction l as [|[p t] l IH]; intros outs self HF; cbn zeta.
  { cbn. split_and!; try done. intros o [= <-]. by rewrite app_nil_r. }
  apply Forall_cons in HF as [Hf HF]. cbn [reap_all]. rewrite join_finished by done.
  unfold record_finished. match goal with |- context [report p ?c self] =>
    destruct (report_frame p c self) as [Ht Hm]; pose proof (report_inv p c self) as Hi;
    destruct (report p c self) as [[[]|er|] self2] end; cbn [snd] in Ht, Hm, Hi; try done.
  destruct (IH (outs ++ [mkPipelineTaskOutcome p (result_of self t)]) self2) as (Ht' & Hm' & Hi' & He & Ho).
  { eapply Forall_impl; [exact HF|]. cbn. unfold is_finished. by rewrite Ht. }
  split_and!; [congruence|congruence|auto|done|]. intros o Hr. rewrite (Ho o Hr), <-app_assoc. cbn.
  do 2 f_equal. apply map_ext. intros m. unfold result_of. by rewrite Ht.
Qed.

Lemma reap_finished_spec now self :
  let r := reap_finished show_id show_duration now self in
  sv_inv self ->
  sv_inv r.2 /\ sv_tasks r.2 = sv_tasks self /\
  (forall p t, sv_pipelines r.2 !! p = Some t <->
     sv_pipelines self !! p = Some t /\ is_finished self t = false) /\
  forall o, r.1 = Ok o -> forall p x, mkPipelineTaskOutcome p x ∈ o <->
    exists t, sv_pipelines self !! p = Some t /\ is_finished self t = true /\ x = result_of self t.
Proof.
  cbn zeta. intros Hi. unfold reap_finished.
  destruct (reap_all_spec now (finished_of self) [] (unregister (finished_of self) self))
    as (Ht & Hm & Hi' & _ & Ho).
  { apply Forall_forall. intros [p t] [_ Hf]%finished_of_spec. exact Hf. }
  split_and!; [by apply Hi', unregister_inv|done| |].
  - intros p t. rewrite Hm. cbn. rewrite delete_all_lookup. split; intros [Hp Hx]; (split; [done|]).
    + destruct (is_finished self t) eqn:Hf; [|done]. destruct Hx. apply list_elem_of_fmap.
      exists (p, t). split; [done|]. by apply finished_of_spec.
    + intros Hin. apply (finished_of_fst self p t Hp) in Hin. congruence.
  - intros o Hr p x. rewrite (Ho o Hr), app_nil_l, list_elem_of_In, in_map_iff. split.
    + intros ([q t] & [= -> <-] & Hin). apply list_elem_of_In, finished_of_spec in Hin as [Hp Hf]. by exists t.
    + intros (t & Hp & Hf & ->). exists (p, t). split; [done|]. by apply list_elem_of_In, finished_of_spec.
Qed.
(** *** Starting, and all events *)

Lemma start_spec now p self :
  let r := start show_id show_duration now p self in
  (r = (Err (AlreadyRunning p), self) /\
   exists t, sv_pipelines self !! p = Some t /\ is_finished self t = false) \/
  (forall t, sv_pipelines self !! p = Some t -> is_finished self t = true) /\
  (r.1 = Ok tt /\ sv_tasks r.2 = sv_tasks self ++ [mkTask p false TaskRunning] \/
   r.1 = Panic /\ sv_tasks r.2 = sv_tasks self).
Proof.
  cbn zeta. unfold start. destruct (sv_pipelines self !! p) as [t|] eqn:Hp.
  - destruct (is_finished self t) eqn:Hf; [|left; split; [done|by exists t]]. right.
    split; [by intros ? [= <-]|]. rewrite join_finished by exact Hf. unfold record_finished.
    match goal with |- context [report p ?c ?s] =>
      destruct (report_frame p c s) as [Ht Hm]; pose proof (report_not_Err p c s) as Hne;
      destruct (report p c s) as [[[]|er|] self2] end; cbn [snd] in Ht, Hm.
    + assert (Hp2 : sv_pipelines self2 !! p = None) by (rewrite Hm; apply lookup_delete_eq).
      cbn in Ht. destruct (start_new_cases now p self2 Hp2) as (self1 & Ht1 & _ & _ & [-> | ->]);
        [left|right]; (split; [done|]); cbn; by rewrite Ht1, Ht.
    + by destruct (Hne er self2).
    + right. by split.
  - right. split; [done|].
    destruct (start_new_cases now p self Hp) as (self1 & Ht1 & _ & _ & [-> | ->]); [left|right];
      (split; [done|]); cbn; by rewrite Ht1.
Qed.

Lemma step_inv self ev : sv_inv self -> sv_inv (sv_step self ev).
Proof.
  intros Hi. destruct ev as [now p|now p f|now p d f|p|now f| |now|t r|t call]; cbn [sv_step].
  - by apply start_inv.
  - by apply stop_spec.
  - by apply stop_with_timeout_spec.
  - destruct (sv_pipelines self !! p) eqn:Hp; [by apply take_inv|done].
  - by apply stop_all_spec.
  - by apply drain_inv.
  - by apply reap_finished_spec.
  - by apply finish_inv.
  - destruct (sv_tasks self !! t) as [[p c [|]]|]; [by apply report_inv|done..].
Qed.

Lemma step_no_orphans self ev :
  sv_inv self -> awaits self ev -> no_orphans self -> no_orphans (sv_step self ev).
Proof.
  intros Hi Haw Hno u k Hk Hs. destruct ev as [now p|now p f|now p d f|p|now f| |now|t r|t call]; cbn [sv_step] in Hk.
  - destruct (start_spec now p self) as [[Hr _]|[_ [[_ Hr]|[_ Hr]]]]; rewrite Hr in Hk; [by eapply Hno| |by eapply Hno].
    apply lookup_app_Some in Hk as [Hk|[_ Hk]]; [by eapply Hno|].
    by apply list_lookup_singleton_Some in Hk as [_ <-].
  - destruct (stop_spec now p f self Hi) as [_ Ho]. eapply Hno; [by apply Ho|done].
  - destruct (stop_with_timeout_spec now p d f self Hi) as [_ Ho]. eapply Hno; [by apply Ho|done].
  - done.
  - destruct (stop_all_spec now f self Hi) as [_ Ho]. eapply Hno; [by apply Ho|done].
  - done.
  - destruct (reap_finished_spec now self Hi) as (_ & Ht & _). rewrite Ht in Hk. by eapply Hno.
  - cbn in Hk. destruct (alter_evolves _ _ _ _ _ (evolves_finish r) Hk) as (k0 & Hk0 & _ & Hs0 & _).
    destruct (decide (u = t)) as [->|Hne].
    + rewrite list_lookup_alter_eq, Hk0 in Hk. injection Hk as <-. unfold finish_task in Hs.
      by rewrite (Hs0 Hs) in Hs.
    + rewrite list_lookup_alter_ne in Hk by done. by eapply Hno.
  - destruct (sv_tasks self !! t) as [[p c [|]]|]; [|by eapply Hno..].
    destruct (report_frame p (run_call call) self) as [Ht _]. rewrite Ht in Hk. by eapply Hno.
Qed.

Lemma run_inv events self :
  sv_inv self -> sv_inv (sv_run events self) /\
  (no_orphans self -> all_await self events -> no_orphans (sv_run events self)).
Proof.
  revert self. induction events as [|ev events IH]; intros self Hi; [done|]. cbn [sv_run foldl all_await].
  destruct (IH (sv_step self ev) (step_inv self ev Hi)) as [Hi' Hn]. split; [done|].
  intros Hno [Haw Hall]. apply Hn; [by apply step_no_orphans|done].
Qed.

Lemma new_inv : sv_inv PipelineSupervisor_new.
Proof.
  split; [intros p t H; cbn in H; by rewrite lookup_empty in H|].
  intros t p H. unfold active in H. cbn in H. by rewrite lookup_nil in H.
Qed.

Lemma running_spec self p :
  sv_inv self -> p ∈ running self <-> exists t, active self t p.
Proof.
  intros Hi. unfold running. rewrite list_elem_of_omap. split.
  - intros ([q t] & Hq%elem_of_map_to_list & Hr). cbn in Hr. destruct (is_finished self t) eqn:Hf; [done|].
    injection Hr as ->. exists t. destruct (si_registered _ Hi p t Hq) as (k & Hk & <- & Hc).
    unfold is_finished in Hf. rewrite Hk in Hf. unfold active. rewrite Hk.
    destruct k as [kp kc [|]]; [by cbn in Hc; subst|done].
  - intros (t & Ha). exists (p, t). split; [by apply elem_of_map_to_list, (si_active _ Hi)|].
    cbn. unfold is_finished. by rewrite Ha.
Qed.
End schedules.

(** C30: whatever is started, stopped, reaped, dropped, finished and reported, a pipeline has at
    most one running task that was not told to stop, it is the registered one, and [running]
    lists exactly the pipelines that have one.  Starting fails exactly when there is one.  As
    long as every stop is awaited, no other task runs at all, and when a stop returns, its
    pipeline's task does not run any more.  Reaping returns the result of every finished task
    once. *)
Theorem supervised_tasks_are_unique (show_id show_duration : Z -> string) (events : list sv_event) :
  let sv := sv_run show_id show_duration events PipelineSupervisor_new in
  (forall p t u, active sv t p -> active sv u p -> t = u /\ sv_pipelines sv !! p = Some t) /\
  (forall p, p ∈ running sv <-> exists t, active sv t p) /\
  (forall now p, (start show_id show_duration now p sv).1 = Err (AlreadyRunning p) <-> p ∈ running sv) /\
  (all_await show_id show_duration PipelineSupervisor_new events ->
   (forall t u k l, sv_tasks sv !! t = Some k -> sv_tasks sv !! u = Some l ->
      tk_status k = TaskRunning -> tk_status l = TaskRunning -> tk_pipeline k = tk_pipeline l -> t = u) /\
   forall now p timeout finish finish' sv',
     sv' = (stop show_id show_duration now p finish sv).2 \/
     sv' = (stop_with_timeout show_id show_duration now p timeout finish' sv).2 ->
     forall t k, sv_tasks sv' !! t = Some k -> tk_status k = TaskRunning -> tk_pipeline k <> p) /\
  (forall now o sv', reap_finished show_id show_duration now sv = (Ok o, sv') ->
     (forall p x, mkPipelineTaskOutcome p x ∈ o <->
        exists t, sv_pipelines sv !! p = Some t /\ is_finished sv t = true /\ x = result_of sv t) /\
     forall p t, sv_pipelines sv' !! p = Some t <->
       sv_pipelines sv !! p = Some t /\ is_finished sv t = false).
Proof.
  intros sv. destruct (run_inv show_id show_duration events _ new_inv) as [Hi Hno]. fold sv in Hi, Hno.
  assert (Hnew : no_orphans PipelineSupervisor_new).
  { intros t k Hk. cbn in Hk. by rewrite lookup_nil in Hk. }
  assert (Hact : forall t k, no_orphans sv -> sv_tasks sv !! t = Some k -> tk_status k = TaskRunning ->
    sv_pipelines sv !! tk_pipeline k = Some t).
  { intros t [kp kc ks] Hn Hk Hs. cbn in Hs. subst ks. pose proof (Hn t _ Hk eq_refl) as Hc. cbn in Hc. subst kc.
    by apply (si_active _ Hi). }
  split_and!.
  - intros p t u Ht Hu. apply (si_active _ Hi) in Ht, Hu. split; [congruence|done].
  - intros p. by apply running_spec.
  - intros now p. rewrite running_spec by done.
    destruct (start_spec show_id show_duration now p sv) as [[-> (t & Hp & Hf)]|[Hfin [[Hr _]|[Hr _]]]].
    + split; [|done]. intros _. apply running_spec; [done|]. unfold running. apply list_elem_of_omap.
      exists (p, t). split; [by apply elem_of_map_to_list|]. cbn. by rewrite Hf.
    + rewrite Hr. split; [done|]. intros [t Ht]. pose proof (si_active _ Hi _ _ Ht) as Hp.
      specialize (Hfin t Hp). unfold is_finished in Hfin. by rewrite Ht in Hfin.
    + rewrite Hr. split; [done|]. intros [t Ht]. pose proof (si_active _ Hi _ _ Ht) as Hp.
      specialize (Hfin t Hp). unfold is_finished in Hfin. by rewrite Ht in Hfin.
  - intros Haw. specialize (Hno Hnew Haw). split.
    + intros t u k l Hk Hl Hsk Hsl He. pose proof (Hact t k Hno Hk Hsk) as H1.
      pose proof (Hact u l Hno Hl Hsl) as H2. congruence.
    + intros now p timeout finish finish' sv' Hsv t k Hk Hs He.
      assert (Hst : stops p sv sv')
        by (destruct Hsv as [-> | ->]; [by apply stop_spec|by apply stop_with_timeout_spec]).
      destruct (proj2 Hst t k Hk Hs) as [Hk0 Hn]. apply Hn. rewrite <-He. by apply Hact.
  - intros now o sv' Hr. destruct (reap_finished_spec show_id show_duration now sv Hi) as (_ & _ & Hp & Ho).
    rewrite Hr in Hp, Ho. cbn in Hp, Ho. split; [by apply Ho|done].
Qed.

Lemma supervised_tasks_are_unique_witness :
  let events := [EvStart 0 7; EvFinish 0 None; EvStart 1 7; EvStart 1 8] in
  all_await (fun _ => "id") (fun _ => "1s") PipelineSupervisor_new events /\
  forall t k,
    sv_tasks (stop (fun _ => "id") (fun _ => "1s") 2 7 None
      (sv_run (fun _ => "id") (fun _ => "1s") events PipelineSupervisor_new)).2 !! t = Some k ->
    tk_status k = TaskRunning -> tk_pipeline k <> 7%Z.
Proof.
  assert (Haw : all_await (fun _ => "id") (fun _ => "1s") PipelineSupervisor_new
    [EvStart 0 7; EvFinish 0 None; EvStart 1 7; EvStart 1 8]) by (cbn; tauto).
  split; [exact Haw|].
  destruct (supervised_tasks_are_unique (fun _ => "id") (fun _ => "1s")
    [EvStart 0 7; EvFinish 0 None; EvStart 1 7; EvStart 1 8]) as (_ & _ & _ & H & _).
  apply (proj2 (H Haw) 2%Z 7%Z 0%Z None None). left. reflexivity.
Defined.
