(* ===== verification/Reconciler.v ===== *)
(** * The desired-state reconciler

    Models [crates/engine/src/runtime/reconciler.rs]: its configuration, the runtime state it
    keeps, and every method of a tick.  An [Instant] and a [Duration] are nanoseconds.  A
    method takes the readings of the clock and the answers of the store, the job factory and
    the supervisor as arguments, and returns the new runtime state with the list of what it did
    to the outside, in order.  Renewals of one tick run concurrently, four at a time: their
    completions are an argument, in the order in which they complete.

    The second half puts any number of processes together with the leases of [Store] on one
    clock and shows that no pipeline runs in two of them. *)

From S2P Require Import Prelude Core Pipeline Telemetry Planning Store Supervisor.

(** ** Configuration *)

Inductive ReconcilerConfigError : Type :=
| ZeroPollInterval | ZeroLeaseTtl | ZeroRenewInterval | RenewalTooLate | ZeroInitialBackoff
| BackoffRange | ZeroBackoffReset.

Record ReconcilerConfig : Type := mkReconcilerConfig {
  poll_interval : Z;
  lease_ttl : Z;
  lease_renew_interval : Z;
  restart_backoff_initial : Z;
  restart_backoff_max : Z;
  restart_backoff_reset_after : Z;
}.

Notation seconds n := (n * 1000000000)%Z.

Definition ReconcilerConfig_default : ReconcilerConfig :=
  mkReconcilerConfig (seconds 2) (seconds 30) (seconds 10) (seconds 1) (seconds 60) (seconds 300).

Definition ReconcilerConfig_validate (self : ReconcilerConfig) : result ReconcilerConfigError unit :=
  if (poll_interval self =? 0)%Z then Err ZeroPollInterval
  else if (lease_ttl self =? 0)%Z then Err ZeroLeaseTtl
  else if (lease_renew_interval self =? 0)%Z then Err ZeroRenewInterval
  else if (Z.div (lease_ttl self) 3 <? lease_renew_interval self)%Z then Err RenewalTooLate
  else if (restart_backoff_initial self =? 0)%Z then Err ZeroInitialBackoff
  else if (restart_backoff_max self <? restart_backoff_initial self)%Z then Err BackoffRange
  else if (restart_backoff_reset_after self =? 0)%Z then Err ZeroBackoffReset
  else Ok tt.

Definition tick_interval (self : ReconcilerConfig) : Z :=
  Z.min (poll_interval self) (lease_renew_interval self).

(** ** The lease deadline *)

Definition lease_stop_at (request_started ttl safety_margin : Z) : Z :=
  (request_started + ttl - safety_margin)%Z.

(** [LeaseDeadlineGuard::expired], at [now], when the watcher has [fired] or not. *)
Definition guard_expired (stop_at now : Z) (fired : bool) : bool := fired || (stop_at <=? now)%Z.

(** What one check of a guard sees. *)
Record GuardReading : Type := mkGuardReading {
  gr_now : Z;
  gr_fired : bool;
}.
Definition expired_at (stop_at : Z) (r : GuardReading) : bool :=
  guard_expired stop_at (gr_now r) (gr_fired r).

(** [LeaseDeadlineGuard::rearm]: the deadline sent to the watcher, and whether the guard is
    armed with it. *)
Definition rearm (stop_at request_started ttl safety_margin : Z) (before after : GuardReading)
    : option Z * bool :=
  if expired_at stop_at before then (None, false)
  else
    let stop_at := lease_stop_at request_started ttl safety_margin in
    (Some stop_at, negb (expired_at stop_at after)).

(** [LeaseGuardedJob::run], a poll of its biased [select!]: [None] while it goes on. *)
Definition guarded_poll (lease_cancelled : bool) (inner : option outcome) : option outcome :=
  if lease_cancelled then Some (Some (TaskError "pipeline lease safety deadline reached"))
  else inner.

(** ** Runtime state *)

Record OwnedPipeline : Type := mkOwnedPipeline {
  ow_lease : PipelineLease;
  ow_config_revision : Z;
  ow_snapshot_generation : Z;
  ow_started_at : Z;
  ow_next_renewal : Z;
  ow_stop_at : Z;
}.

Record RestartState : Type := mkRestartState {
  rs_failures : Z;
  rs_retry_at : option Z;
}.

Record RuntimeState : Type := mkRuntimeState {
  rn_owned : gmap Z OwnedPipeline;
  rn_restart : gmap Z RestartState;
}.
Definition RuntimeState_default : RuntimeState := mkRuntimeState ∅ ∅.

Definition with_owned (f : gmap Z OwnedPipeline -> gmap Z OwnedPipeline) (self : RuntimeState)
    : RuntimeState := mkRuntimeState (f (rn_owned self)) (rn_restart self).
Definition with_restart (f : gmap Z RestartState -> gmap Z RestartState) (self : RuntimeState)
    : RuntimeState := mkRuntimeState (rn_owned self) (f (rn_restart self)).

Definition can_start (self : RuntimeState) (pipeline_id now : Z) : bool :=
  match rn_restart self !! pipeline_id with
  | Some (mkRestartState _ (Some retry_at)) => (retry_at <=? now)%Z
  | _ => true
  end.

Definition mark_pipeline_started (pipeline_id : Z) : RuntimeState -> RuntimeState :=
  with_restart (alter (fun state => mkRestartState (rs_failures state) None) pipeline_id).

(** [Duration::MAX]. *)
Definition duration_max : Z := (u64_max * 1000000000 + 999999999)%Z.
Definition saturating_mul (duration multiplier : Z) : Z := Z.min (duration * multiplier) duration_max.

(** The delay that [record_failure] computes from the number of failures before. *)
Definition backoff_delay (config : ReconcilerConfig) (failures : Z) : Z :=
  let shift := Z.min failures 31 in
  let multiplier := Z.shiftl 1 shift in
  Z.min (saturating_mul (restart_backoff_initial config) multiplier) (restart_backoff_max config).

Definition record_failure (config : ReconcilerConfig) (pipeline_id now : Z) (self : RuntimeState)
    : RuntimeState :=
  let state := default (mkRestartState 0 None) (rn_restart self !! pipeline_id) in
  with_restart (<[pipeline_id :=
    mkRestartState (Z.min (rs_failures state + 1) u32_max)
      (Some (now + backoff_delay config (rs_failures state))%Z)]>) self.

Definition forget_restart (pipeline_id : Z) : RuntimeState -> RuntimeState :=
  with_restart (delete pipeline_id).

(** ** Effects *)

(** What a method does outside its own state, with the answer it got where it relies on it. *)
Inductive effect : Type :=
| Acquire (pipeline_id requested : Z) (answer : option PipelineLease)
| RequestRenewal (lease : PipelineLease)
| Renew (lease : PipelineLease) (requested : Z) (answer : option PipelineLease)
| Rearm (pipeline_id stop_at : Z)
| Release (lease : PipelineLease)
| StartJob (pipeline_id : Z) (lease : PipelineLease) (stop_at : Z)
| StopJob (pipeline_id : Z)
| Reaped (pipeline_id : Z)
| StopAll.

Definition MAX_CONCURRENT_LEASE_RENEWALS : nat := 4.

(** ** Methods *)
Section methods.
Context (config : ReconcilerConfig).

(** [stop_owned]: the job is cancelled and awaited before the lease is released. *)
Definition stop_owned (pipeline_id : Z) (self : RuntimeState) : RuntimeState * list effect :=
  match rn_owned self !! pipeline_id with
  | None => (self, [])
  | Some owned => (with_owned (delete pipeline_id) self, [StopJob pipeline_id; Release (ow_lease owned)])
  end.

(** The clock when a pipeline's end is handled, for its running time and for its backoff. *)
Record EndReading : Type := mkEndReading { er_now : Z; er_failed_at : Z }.

(** The restart bookkeeping of a pipeline that stopped on its own or lost its lease. *)
Definition note_end (pipeline_id started_at : Z) (i : EndReading) (self : RuntimeState) : RuntimeState :=
  let stable := (restart_backoff_reset_after config <=? er_now i - started_at)%Z in
  let self := if stable then forget_restart pipeline_id self else self in
  record_failure config pipeline_id (er_failed_at i) self.

(** The loop of [reap_finished], over the outcomes of the supervisor. *)
Fixpoint reap_outcomes (inputs : list (PipelineTaskOutcome * EndReading)) (self : RuntimeState)
    : RuntimeState * list effect :=
  match inputs with
  | [] => (self, [])
  | (outcome, i) :: inputs =>
      let id := pto_pipeline_id outcome in
      match rn_owned self !! id with
      | None =>
          let (self, effects) := reap_outcomes inputs self in
          (self, Reaped id :: effects)
      | Some owned =>
          let self := note_end id (ow_started_at owned) i (with_owned (delete id) self) in
          let (self, effects) := reap_outcomes inputs self in
          (self, Reaped id :: Release (ow_lease owned) :: effects)
      end
  end.

(** The renewals that are due, most urgent first; [clock] is read for each owned pipeline. *)
Definition due_renewals (clock : Z -> Z) (self : RuntimeState) : list (Z * PipelineLease) :=
  map (fun kv => (kv.1, ow_lease kv.2))
    (sort_by_key (fun kv => ow_stop_at kv.2)
       (List.filter (fun kv => (ow_next_renewal kv.2 <=? clock kv.1)%Z) (map_to_list (rn_owned self)))).

(** A completed renewal: when it was requested, its answer, and the guard's readings. *)
Record RenewInput : Type := mkRenewInput {
  rw_pipeline_id : Z;
  rw_request_started : Z;
  rw_result : result StoreError (option PipelineLease);
  rw_before : GuardReading;
  rw_after : GuardReading;
}.

Definition granted (result : result StoreError (option PipelineLease)) : option PipelineLease :=
  match result with Ok answer => answer | _ => None end.

(** One answer, for the [lease] that was to be renewed: whether the lease is kept. *)
Definition finish_renewal (i : RenewInput) (self : RuntimeState) : RuntimeState * list effect * bool :=
  match granted (rw_result i), rn_owned self !! rw_pipeline_id i with
  | Some renewed, Some owned =>
      let (sent, armed) :=
        rearm (ow_stop_at owned) (rw_request_started i) (lease_ttl config)
          (lease_renew_interval config) (rw_before i) (rw_after i) in
      let owned' :=
        mkOwnedPipeline (if armed then renewed else ow_lease owned) (ow_config_revision owned)
          (ow_snapshot_generation owned) (ow_started_at owned)
          (if armed then (rw_request_started i + lease_renew_interval config)%Z
           else ow_next_renewal owned)
          (default (ow_stop_at owned) sent) in
      (with_owned (<[rw_pipeline_id i := owned']>) self,
       match sent with Some stop_at => [Rearm (rw_pipeline_id i) stop_at] | None => [] end, armed)
  | _, _ => (self, [], false)
  end.

(** The loop over [renewals.next()]: [requested] are in flight, [waiting] not yet requested;
    an answer to no request is skipped.  The result ends with the leases that were lost. *)
Fixpoint finish_renewals (inputs : list RenewInput) (requested waiting : list (Z * PipelineLease))
    (self : RuntimeState) : RuntimeState * list effect * list (Z * PipelineLease) :=
  match inputs with
  | [] => (self, [], [])
  | i :: inputs =>
      match list_find (fun kv => kv.1 = rw_pipeline_id i) requested with
      | None => finish_renewals inputs requested waiting self
      | Some (n, (id, lease)) =>
          let renewed := Renew lease (rw_request_started i) (granted (rw_result i)) in
          let '(self, rearmed, kept) := finish_renewal i self in
          let '(self, effects, lost) :=
            finish_renewals inputs (delete n requested ++ take 1 waiting) (drop 1 waiting) self in
          (self,
           renewed :: rearmed ++ map (fun kv => RequestRenewal kv.2) (take 1 waiting) ++ effects,
           if kept then lost else (id, lease) :: lost)
      end
  end.

Definition lease_lost (i : EndReading) (pipeline_id : Z) (lease : PipelineLease) (self : RuntimeState)
    : RuntimeState * list effect :=
  let effects := [StopJob pipeline_id; Release lease] in
  match rn_owned self !! pipeline_id with
  | None => (self, effects)
  | Some owned =>
      (note_end pipeline_id (ow_started_at owned) i (with_owned (delete pipeline_id) self), effects)
  end.

(** The last loop of [renew_leases]. *)
Fixpoint lose_leases (readings : Z -> EndReading) (lost : list (Z * PipelineLease)) (self : RuntimeState)
    : RuntimeState * list effect :=
  match lost with
  | [] => (self, [])
  | (id, lease) :: lost =>
      let (self, effects) := lease_lost (readings id) id lease self in
      let (self, more) := lose_leases readings lost self in
      (self, effects ++ more)
  end.

Definition renew_leases (clock : Z -> Z) (inputs : list RenewInput) (readings : Z -> EndReading)
    (self : RuntimeState) : RuntimeState * list effect :=
  let due := due_renewals clock self in
  let first := take MAX_CONCURRENT_LEASE_RENEWALS due in
  let '(self, renewed, lost) :=
    finish_renewals inputs first (drop MAX_CONCURRENT_LEASE_RENEWALS due) self in
  let (self, effects) := lose_leases readings lost self in
  (self, map (fun kv => RequestRenewal kv.2) first ++ renewed ++ effects).

(** What [start_pipeline] meets. *)
Record StartInput : Type := mkStartInput {
  si_acquire_started : Z;
  si_lease : result StoreError (option PipelineLease);
  si_acquired : GuardReading;
  si_create : result string unit;
  si_created : GuardReading;
  si_start : result SupervisorError unit;
  si_started_at : Z;
  si_failed_at : Z;
}.

Definition start_pipeline (i : StartInput) (definition : PipelineDefinition) (self : RuntimeState)
    : RuntimeState * list effect :=
  let id := pd_id definition in
  let failed self := record_failure config id (si_failed_at i) self in
  let acquire := Acquire id (si_acquire_started i) (granted (si_lease i)) in
  match si_lease i with
  | Ok (Some lease) =>
      let stop_at :=
        lease_stop_at (si_acquire_started i) (lease_ttl config) (lease_renew_interval config) in
      if expired_at stop_at (si_acquired i) then (failed self, [acquire; Release lease])
      else if negb (is_ok (si_create i)) then (failed self, [acquire; Release lease])
      else if expired_at stop_at (si_created i) then (failed self, [acquire; Release lease])
      else if negb (is_ok (si_start i)) then (failed self, [acquire; Release lease])
      else
        let owned :=
          mkOwnedPipeline lease (pd_config_revision definition) (pd_snapshot_generation definition)
            (si_started_at i) (si_acquire_started i + lease_renew_interval config)%Z stop_at in
        (mark_pipeline_started id (with_owned (<[id := owned]>) self),
         [acquire; StartJob id lease stop_at])
  | Ok None => (self, [acquire])
  | _ => (failed self, [acquire])
  end.

(** One round of the loop of [reconcile] over the definitions. *)
Definition reconcile_one (now : Z) (i : StartInput) (definition : PipelineDefinition)
    (self : RuntimeState) : RuntimeState * list effect :=
  let id := pd_id definition in
  let start_if_allowed self :=
    if can_start self id now then start_pipeline i definition self else (self, []) in
  if negb (pd_desired_running definition) then stop_owned id (forget_restart id self)
  else
    match rn_owned self !! id with
    | Some owned =>
        if (ow_config_revision owned =? pd_config_revision definition)%Z
           && (ow_snapshot_generation owned =? pd_snapshot_generation definition)%Z
        then (self, [])
        else
          let (self, stopped) := stop_owned id self in
          let (self, started) := start_if_allowed (forget_restart id self) in
          (self, stopped ++ started)
    | None => start_if_allowed self
    end.

Fixpoint reconcile_all (now : Z) (definitions : list (PipelineDefinition * StartInput))
    (self : RuntimeState) : RuntimeState * list effect :=
  match definitions with
  | [] => (self, [])
  | (definition, i) :: definitions =>
      let (self, effects) := reconcile_one now i definition self in
      let (self, more) := reconcile_all now definitions self in
      (self, effects ++ more)
  end.

(** [stop_owned] for a list of pipelines, as at the end of [reconcile] and in [shutdown]. *)
Fixpoint stop_list (forget : bool) (ids : list Z) (self : RuntimeState) : RuntimeState * list effect :=
  match ids with
  | [] => (self, [])
  | id :: ids =>
      let (self, effects) := stop_owned id self in
      let self := if forget then forget_restart id self else self in
      let (self, more) := stop_list forget ids self in
      (self, effects ++ more)
  end.

(** [reconcile]: [None] when the store could not list the pipelines. *)
Definition reconcile (now : Z) (definitions : option (list (PipelineDefinition * StartInput)))
    (self : RuntimeState) : RuntimeState * list effect :=
  match definitions with
  | None => (self, [])
  | Some definitions =>
      let seen : gset Z := list_to_set (map (fun d => pd_id d.1) definitions) in
      let (self, effects) := reconcile_all now definitions self in
      let obsolete :=
        List.filter (fun id => negb (bool_decide (id ∈ seen))) (map fst (map_to_list (rn_owned self))) in
      let (self, more) := stop_list true obsolete self in
      (with_restart (filter (fun kv => kv.1 ∈ seen)) self, effects ++ more)
  end.

(** The inputs of one tick: when it begins, and what it meets; [ti_poll] is when the pipelines
    were listed and the answer, for a tick that polls. *)
Record TickInput : Type := mkTickInput {
  ti_now : Z;
  ti_reaped : list (PipelineTaskOutcome * EndReading);
  ti_clock : Z -> Z;
  ti_renewals : list RenewInput;
  ti_lost : Z -> EndReading;
  ti_poll : Z * option (list (PipelineDefinition * StartInput));
}.

Definition tick (poll_due : bool) (i : TickInput) (self : RuntimeState) : RuntimeState * list effect :=
  let (self, reaped) := reap_outcomes (ti_reaped i) self in
  let (self, renewed) := renew_leases (ti_clock i) (ti_renewals i) (ti_lost i) self in
  let (self, reconciled) :=
    if poll_due then reconcile (ti_poll i).1 (ti_poll i).2 self else (self, []) in
  (self, reaped ++ renewed ++ reconciled).

Definition shutdown (self : RuntimeState) : RuntimeState * list effect :=
  let (self, effects) := stop_list false (map fst (map_to_list (rn_owned self))) self in
  (self, effects ++ [StopAll]).

(** The loop of [run], which polls when the poll interval is over. *)
Fixpoint run_ticks (next_poll : Z) (inputs : list TickInput) (self : RuntimeState)
    : RuntimeState * list effect :=
  match inputs with
  | [] => (self, [])
  | i :: inputs =>
      let poll_due := (next_poll <=? ti_now i)%Z in
      let next_poll := if poll_due then (ti_now i + poll_interval config)%Z else next_poll in
      let (self, effects) := tick poll_due i self in
      let (self, more) := run_ticks next_poll inputs self in
      (self, effects ++ more)
  end.

(** [run], from [started] over a number of ticks to the shutdown. *)
Definition run (started : Z) (inputs : list TickInput) : RuntimeState * list effect :=
  let (self, effects) := run_ticks started inputs RuntimeState_default in
  let (self, more) := shutdown self in
  (self, effects ++ more).
End methods.

(** ** The conduct of one process

    What a process may do about one pipeline, as an automaton over its effects: it asks for a
    lease only while it runs no job, starts and rearms a job only with the deadline of a
    request that was granted since the last release, and releases a lease only when the job is
    gone and the lease is one it was given. *)

Record Conduct : Type := mkConduct {
  cn_running : bool;
  cn_requests : list Z;
  cn_leases : list PipelineLease;
}.

Section conduct.
Context (config : ReconcilerConfig) (pipeline : Z).

Definition stop_at_of (requested : Z) : Z :=
  lease_stop_at requested (lease_ttl config) (lease_renew_interval config).

Definition is_deadline (stop_at : Z) (c : Conduct) : bool :=
  bool_decide (stop_at ∈ map stop_at_of (cn_requests c)).

(** An effect that says nothing about the pipeline. *)
Definition elsewhere (e : effect) : bool :=
  match e with
  | Acquire id _ _ | Rearm id _ | StartJob id _ _ | StopJob id | Reaped id =>
      negb (id =? pipeline)%Z
  | Renew lease _ _ | Release lease => negb (pl_pipeline_id lease =? pipeline)%Z
  | RequestRenewal _ => true
  | StopAll => false
  end.

Definition observe (e : effect) (c : Conduct) : option Conduct :=
  if elsewhere e then Some c
  else
    match e with
    | Acquire _ requested answer =>
        if cn_running c then None
        else Some (match answer with
                   | Some lease => mkConduct false [requested] (lease :: cn_leases c)
                   | None => mkConduct false [] (cn_leases c)
                   end)
    | Renew lease requested answer =>
        if cn_running c && bool_decide (lease ∈ cn_leases c)
        then Some (match answer with
                   | Some renewed => mkConduct true (requested :: cn_requests c) (renewed :: cn_leases c)
                   | None => c
                   end)
        else None
    | Rearm _ stop_at => if cn_running c && is_deadline stop_at c then Some c else None
    | StartJob _ lease stop_at =>
        if negb (cn_running c) && is_deadline stop_at c && bool_decide (lease ∈ cn_leases c)
        then Some (mkConduct true (cn_requests c) (cn_leases c)) else None
    | Release lease =>
        if negb (cn_running c) && bool_decide (lease ∈ cn_leases c)
        then Some (mkConduct false [] (cn_leases c)) else None
    | StopJob _ | Reaped _ | StopAll => Some (mkConduct false (cn_requests c) (cn_leases c))
    | RequestRenewal _ => Some c
    end.

Fixpoint observe_all (effects : list effect) (c : Conduct) : option Conduct :=
  match effects with
  | [] => Some c
  | e :: effects => match observe e c with Some c => observe_all effects c | None => None end
  end.

Lemma observe_all_app l k c :
  observe_all (l ++ k) c =
  match observe_all l c with Some c => observe_all k c | None => None end.
Proof.
  revert c. induction l as [|e l IH]; intros c; cbn; [done|]. by destruct (observe e c).
Qed.

Lemma observe_elsewhere e c : elsewhere e = true -> observe e c = Some c.
Proof. unfold observe. by intros ->. Qed.

(** The runtime state and the automaton agree, and [lost] leases were given to the process. *)
Definition tracks (self : RuntimeState) (lost : list (Z * PipelineLease)) (c : Conduct) : Prop :=
  match rn_owned self !! pipeline with
  | Some owned => cn_running c = true /\ ow_lease owned ∈ cn_leases c
  | None => cn_running c = false
  end /\
  forall lease, (pipeline, lease) ∈ lost -> lease ∈ cn_leases c.
End conduct.

Section conducts.
Context (config : ReconcilerConfig).

Definition owned_ok (self : RuntimeState) (lost : list (Z * PipelineLease)) : Prop :=
  (forall id owned, rn_owned self !! id = Some owned -> pl_pipeline_id (ow_lease owned) = id) /\
  (forall id lease, (id, lease) ∈ lost -> pl_pipeline_id lease = id).

(** A method keeps to the automaton of every pipeline. *)
Definition conducts (self : RuntimeState) (lost : list (Z * PipelineLease))
    (effects : list effect) (self' : RuntimeState) (lost' : list (Z * PipelineLease)) : Prop :=
  owned_ok self lost ->
  owned_ok self' lost' /\
  forall p c, tracks p self lost c ->
    exists c', observe_all config p effects c = Some c' /\ tracks p self' lost' c'.

Lemma conducts_app self K es self1 K1 es' self2 K2 :
  conducts self K es self1 K1 -> conducts self1 K1 es' self2 K2 ->
  conducts self K (es ++ es') self2 K2.
Proof.
  intros H1 H2 Hok. destruct (H1 Hok) as [Hok1 Ht1]. destruct (H2 Hok1) as [Hok2 Ht2].
  split; [done|]. intros p c (c1 & E1 & (c2 & E2 & Ht)%Ht2)%Ht1. exists c2.
  by rewrite observe_all_app, E1.
Qed.

(** Only the owned pipelines and the known leases count. *)
Lemma conducts_owned self K es self1 self2 K' :
  rn_owned self1 = rn_owned self2 -> conducts self K es self1 K' -> conducts self K es self2 K'.
Proof. unfold conducts, owned_ok, tracks. by intros <-. Qed.

Lemma conducts_from self1 self2 K es self' K' :
  rn_owned self1 = rn_owned self2 -> conducts self1 K es self' K' -> conducts self2 K es self' K'.
Proof. unfold conducts, owned_ok, tracks. by intros <-. Qed.

Lemma conducts_weaken self K es self' K1 K2 :
  (forall x, x ∈ K2 -> x ∈ K1) -> conducts self K es self' K1 -> conducts self K es self' K2.
Proof.
  intros HK Hc [[Ho Hl] Ht]%Hc. split; [split; [done|]; eauto|].
  intros p c (c' & E & Hp & Hk)%Ht. exists c'. split_and!; [done|]. split; eauto.
Qed.

(** Nothing outside, and what is now known was owned. *)
Lemma conducts_known self K :
  (forall id lease, (id, lease) ∈ K ->
     exists owned, rn_owned self !! id = Some owned /\ ow_lease owned = lease) ->
  conducts self [] [] self K.
Proof.
  intros HK [Ho _]. split; [split; [done|]; intros id lease (o & Hid & <-)%HK; by apply Ho|].
  intros p c [Hp _]. exists c. split; [done|]. split; [done|].
  intros lease (o & Hid & <-)%HK. rewrite Hid in Hp. naive_solver.
Qed.

Lemma conducts_refl self K : conducts self K [] self K.
Proof. intros Hok. split; [done|]. intros p c Ht. by exists c. Qed.

(** The effects about one pipeline: the others do not notice. *)
Lemma conducts_one id es self self' K K' :
  Forall (fun e => forall p, p <> id -> elsewhere p e = true) es ->
  (forall p, p <> id -> rn_owned self' !! p = rn_owned self !! p) ->
  (forall p lease, p <> id -> (p, lease) ∈ K' -> (p, lease) ∈ K) ->
  owned_ok self' K' ->
  (forall c, tracks id self K c -> exists c', observe_all config id es c = Some c' /\ tracks id self' K' c') ->
  conducts self K es self' K'.
Proof.
  intros Hes Hs HK Hok Hid _. split; [done|]. intros p c Ht.
  destruct (decide (p = id)) as [->|Hne]; [by apply Hid|]. exists c. split.
  - clear -Hes Hne. induction Hes as [|e es He _ IH]; cbn; [done|]. by rewrite observe_elsewhere by auto.
  - destruct Ht as [Ho Hl]. split; [by rewrite Hs|]. eauto.
Qed.

Lemma owned_ok_delete id self K : owned_ok self K -> owned_ok (with_owned (delete id) self) K.
Proof. intros [Ho Hl]. split; [|done]. intros i o Hi. cbn in Hi. apply lookup_delete_Some in Hi as [_ ?]. eauto. Qed.

Lemma owned_ok_insert id owned self K :
  pl_pipeline_id (ow_lease owned) = id -> owned_ok self K -> owned_ok (with_owned (<[id := owned]>) self) K.
Proof. intros Hid [Ho Hl]. split; [|done]. intros i o Hi. cbn in Hi. apply lookup_insert_Some in Hi as [[<- <-]|[_ ?]]; eauto. Qed.

Lemma elsewhere_ne (p q : Z) : p <> q -> negb (q =? p)%Z = true.
Proof. intros. by rewrite (proj2 (Z.eqb_neq q p)) by lia. Qed.

Lemma tracks_owned p self K c owned :
  rn_owned self !! p = Some owned -> tracks p self K c -> ow_lease owned ∈ cn_leases c.
Proof. intros E [H _]. rewrite E in H. by destruct H. Qed.

(** A job's end - it is stopped, or was found to have ended - and the release of a lease that
    the process was given. *)
Lemma job_end_conducts id ended lease self K :
  ended = StopJob id \/ ended = Reaped id ->
  (exists owned, rn_owned self !! id = Some owned /\ ow_lease owned = lease) \/ (id, lease) ∈ K ->
  conducts self K [ended; Release lease] (with_owned (delete id) self) K.
Proof.
  intros He Hl Hok. assert (Hid : pl_pipeline_id lease = id).
  { destruct Hok as [Ho Hk]. destruct Hl as [(o & Hi & <-)|Hin]; eauto. }
  refine (conducts_one id _ _ _ K K _ _ _ _ _ Hok).
  - repeat constructor; intros p Hp; [destruct He as [-> | ->]|]; cbn; [..|rewrite Hid]; by apply elsewhere_ne.
  - intros p Hp. cbn. by rewrite lookup_delete_ne.
  - done.
  - by apply owned_ok_delete.
  - intros c Ht. assert (Hin : lease ∈ cn_leases c).
    { destruct Hl as [(o & Hi & <-)|Hin]; [by eapply tracks_owned|]. destruct Ht as [_ Hk]. auto. }
    exists (mkConduct false [] (cn_leases c)). split.
    + destruct He as [-> | ->]; cbn; unfold observe; cbn; rewrite ?Hid, Z.eqb_refl; cbn;
        rewrite bool_decide_true by done; done.
    + destruct Ht as [_ Hk]. split; [by cbn; rewrite lookup_delete_eq|done].
Qed.

Lemma stop_owned_conducts id self K :
  let '(self', es) := stop_owned id self in conducts self K es self' K.
Proof.
  unfold stop_owned. destruct (rn_owned self !! id) as [o|] eqn:E; [|apply conducts_refl].
  apply job_end_conducts; [by left|]. left. by exists o.
Qed.

Lemma reap_outcomes_conducts inputs self K :
  let '(self', es) := reap_outcomes config inputs self in conducts self K es self' K.
Proof.
  revert self. induction inputs as [|[outcome i] inputs IH]; intros self; cbn [reap_outcomes]; [apply conducts_refl|].
  set (id := pto_pipeline_id outcome). destruct (rn_owned self !! id) as [o|] eqn:E.
  - set (self1 := note_end _ _ _ _ _). specialize (IH self1).
    destruct (reap_outcomes config inputs self1) as [self' es].
    change (Reaped id :: Release (ow_lease o) :: es) with ([Reaped id; Release (ow_lease o)] ++ es).
    eapply conducts_app; [|exact IH]. eapply conducts_owned; [|apply (job_end_conducts id); eauto].
    subst self1. unfold note_end. by case_match.
  - specialize (IH self). destruct (reap_outcomes config inputs self) as [self' es].
    change (Reaped id :: es) with ([Reaped id] ++ es). eapply conducts_app; [|exact IH]. intros Hok.
    refine (conducts_one id _ _ _ K K _ _ _ _ _ Hok); [|done..|].
    + repeat constructor. intros p Hp. by apply elsewhere_ne.
    + intros c [Hr Hk]. rewrite E in Hr. exists c. split; [|by split; [rewrite E|]].
      cbn. unfold observe. cbn. rewrite Z.eqb_refl. cbn. rewrite <- Hr. by destruct c.
Qed.

(** The store's answers are about the pipeline they were asked for. *)
Definition answers_for (id : Z) (answer : result StoreError (option PipelineLease)) : Prop :=
  forall lease, granted answer = Some lease -> pl_pipeline_id lease = id.
Definition renewal_answered (i : RenewInput) : Prop := answers_for (rw_pipeline_id i) (rw_result i).

Lemma requests_conduct self K (l : list (Z * PipelineLease)) :
  conducts self K (map (fun kv => RequestRenewal kv.2) l) self K.
Proof.
  intros Hok. split; [done|]. intros p c Ht. exists c. split; [|done].
  by induction l as [|kv l IH].
Qed.

Lemma finish_renewal_owned i self p :
  is_Some (rn_owned self !! p) -> is_Some (rn_owned (finish_renewal config i self).1.1 !! p).
Proof.
  intros Hp. unfold finish_renewal. destruct (granted _); [|done].
  destruct (rn_owned self !! rw_pipeline_id i) as [o|]; [|done]. destruct (rearm _ _ _ _ _ _) as [sent armed].
  cbn. destruct (decide (rw_pipeline_id i = p)) as [->|]; [by rewrite lookup_insert_eq|].
  by rewrite lookup_insert_ne.
Qed.

Lemma observe_renew id lease requested answer c :
  pl_pipeline_id lease = id -> cn_running c = true -> lease ∈ cn_leases c ->
  observe config id (Renew lease requested answer) c =
  Some match answer with
       | Some renewed => mkConduct true (requested :: cn_requests c) (renewed :: cn_leases c)
       | None => c
       end.
Proof.
  intros <- Hr Hl. unfold observe. cbn. rewrite Z.eqb_refl, Hr. cbn. by rewrite bool_decide_true.
Qed.

Lemma observe_rearm id stop_at c :
  cn_running c = true -> is_deadline config stop_at c = true ->
  observe config id (Rearm id stop_at) c = Some c.
Proof. intros Hr Hd. unfold observe. cbn. by rewrite Z.eqb_refl, Hr, Hd. Qed.

Lemma rearm_sent (stop_at requested : Z) before after sent armed :
  rearm stop_at requested (lease_ttl config) (lease_renew_interval config) before after = (sent, armed) ->
  (sent = None /\ armed = false) \/ sent = Some (stop_at_of config requested).
Proof. unfold rearm. case_match; intros [= <- <-]; auto. Qed.

Lemma finish_renewal_conducts i lease self K :
  renewal_answered i -> (rw_pipeline_id i, lease) ∈ K -> is_Some (rn_owned self !! rw_pipeline_id i) ->
  let '(self', rearmed, kept) := finish_renewal config i self in
  conducts self K (Renew lease (rw_request_started i) (granted (rw_result i)) :: rearmed) self' K.
Proof.
  intros Ha HK [o Ho]. unfold finish_renewal. rewrite Ho. unfold renewal_answered, answers_for in Ha.
  set (id := rw_pipeline_id i) in *. destruct (granted (rw_result i)) as [renewed|] eqn:Hg.
  - specialize (Ha renewed eq_refl). destruct (rearm _ _ _ _ _ _) as [sent armed] eqn:Hr. intros Hok.
    pose proof (proj2 Hok _ _ HK) as Hid. refine (conducts_one id _ _ _ K K _ _ _ _ _ Hok).
    + constructor; [intros p Hp; cbn; rewrite Hid; by apply elsewhere_ne|].
      destruct sent; repeat constructor. intros p Hp. by apply elsewhere_ne.
    + intros p Hp. cbn. by rewrite lookup_insert_ne.
    + done.
    + apply owned_ok_insert; [|done]. cbn. destruct armed; [done|]. by apply (proj1 Hok).
    + intros c [Hrun Hk]. rewrite Ho in Hrun. destruct Hrun as [Hrun Hl].
      exists (mkConduct true (rw_request_started i :: cn_requests c) (renewed :: cn_leases c)). split.
      * apply rearm_sent in Hr as [[-> _]| ->]; cbn [observe_all]; rewrite (observe_renew id lease) by auto; [done|].
        rewrite observe_rearm; [done..|]. unfold is_deadline. cbn. apply bool_decide_eq_true. left.
      * split; [|intros; right; auto]. cbn. rewrite lookup_insert_eq. split; [done|].
        destruct armed; [left|by right].
  - intros Hok. pose proof (proj2 Hok _ _ HK) as Hid. refine (conducts_one id _ _ _ K K _ _ _ Hok _ Hok); [|done..|].
    + repeat constructor. intros p Hp. cbn. rewrite Hid. by apply elsewhere_ne.
    + intros c Ht. exists c. split; [|done]. destruct Ht as [Hrun Hk]. rewrite Ho in Hrun.
      cbn [observe_all]. rewrite observe_renew; naive_solver.
Qed.

Lemma finish_renewals_conducts inputs requested waiting self K :
  Forall renewal_answered inputs ->
  (forall x, x ∈ requested ++ waiting -> x ∈ K /\ is_Some (rn_owned self !! x.1)) ->
  let '(self', es, lost) := finish_renewals config inputs requested waiting self in
  conducts self K es self' K /\ forall x, x ∈ lost -> x ∈ K.
Proof.
  intros Ha. revert requested waiting self. induction Ha as [|i inputs Hi _ IH]; intros requested waiting self HK;
    cbn [finish_renewals]; [split; [apply conducts_refl|by intros x ?%elem_of_nil]|].
  destruct (list_find _ requested) as [[n [id lease]]|] eqn:E; [|by apply IH].
  apply list_find_Some in E as (Hn & Hid & _). cbn in Hid. subst id.
  destruct (HK (rw_pipeline_id i, lease)) as [Hin Hown].
  { apply elem_of_app. left. by eapply list_elem_of_lookup_2. }
  pose proof (finish_renewal_conducts i lease self K Hi Hin Hown) as H1.
  pose proof (finish_renewal_owned i self) as Hdom.
  destruct (finish_renewal config i self) as [[self1 rearmed] kept]. cbn in Hdom.
  specialize (IH (delete n requested ++ take 1 waiting) (drop 1 waiting) self1).
  destruct (finish_renewals config inputs _ _ self1) as [[self' es] lost]. destruct IH as [H2 Hlost].
  { intros x Hx. destruct (HK x) as [Hxk Hxo]; [|auto]. rewrite <- app_assoc, take_drop in Hx.
    rewrite !elem_of_app in *. destruct Hx as [Hx|]; [left|by right].
    eapply elem_of_submseteq; [exact Hx|]. apply sublist_submseteq, sublist_delete. }
  split.
  - rewrite app_comm_cons. eapply conducts_app; [exact H1|].
    eapply conducts_app; [apply requests_conduct|exact H2].
  - destruct kept; [done|]. intros x [->|Hx]%elem_of_cons; auto.
Qed.

Lemma rn_owned_note_end id started i self : rn_owned (note_end config id started i self) = rn_owned self.
Proof. unfold note_end. by case_match. Qed.

Lemma lose_leases_conducts readings lost self K :
  (forall x, x ∈ lost -> x ∈ K) ->
  let '(self', es) := lose_leases config readings lost self in conducts self K es self' K.
Proof.
  revert self. induction lost as [|[id lease] lost IH]; intros self HK; cbn [lose_leases]; [apply conducts_refl|].
  assert (H1 : let '(self', es) := lease_lost config (readings id) id lease self in conducts self K es self' K).
  { pose proof (job_end_conducts id (StopJob id) lease self K) as Hj. unfold lease_lost.
    assert (Hl : (id, lease) ∈ K) by (apply HK; left).
    destruct (rn_owned self !! id) as [o|] eqn:E.
    - eapply conducts_owned; [symmetry; apply rn_owned_note_end|]. apply Hj; auto.
    - eapply conducts_owned; [|apply Hj; auto]. cbn. by apply delete_id. }
  destruct (lease_lost config (readings id) id lease self) as [self1 es].
  specialize (IH self1). destruct (lose_leases config readings lost self1) as [self2 es'].
  eapply conducts_app; [exact H1|]. apply IH. intros x Hx. apply HK. by right.
Qed.

Lemma due_renewals_owned clock self x :
  x ∈ due_renewals clock self -> exists owned, rn_owned self !! x.1 = Some owned /\ ow_lease owned = x.2.
Proof.
  unfold due_renewals. intros ([id o] & -> & Hx)%list_elem_of_fmap. exists o. split; [|done].
  apply elem_of_map_to_list. rewrite sort_by_key_perm in Hx.
  apply list_elem_of_In, filter_In in Hx as [Hx _]. by apply list_elem_of_In.
Qed.

Lemma renew_leases_conducts clock inputs readings self :
  Forall renewal_answered inputs ->
  let '(self', es) := renew_leases config clock inputs readings self in conducts self [] es self' [].
Proof.
  intros Ha. unfold renew_leases. set (due := due_renewals clock self).
  pose proof (finish_renewals_conducts inputs (take MAX_CONCURRENT_LEASE_RENEWALS due)
    (drop MAX_CONCURRENT_LEASE_RENEWALS due) self due Ha) as H1.
  destruct (finish_renewals config inputs _ _ self) as [[self1 es] lost]. destruct H1 as [H1 Hlost].
  { rewrite take_drop. intros x Hx. split; [done|].
    apply due_renewals_owned in Hx as (o & -> & _). by exists o. }
  pose proof (lose_leases_conducts readings lost self1 due Hlost) as H2.
  destruct (lose_leases config readings lost self1) as [self2 es'].
  change (conducts self [] ([] ++ map (fun kv => RequestRenewal kv.2) (take MAX_CONCURRENT_LEASE_RENEWALS due)
    ++ es ++ es') self2 []).
  eapply conducts_app; [apply (conducts_known self due)|].
  - intros id lease Hx. by apply due_renewals_owned in Hx.
  - eapply conducts_app; [apply requests_conduct|]. eapply conducts_app; [exact H1|].
    eapply conducts_weaken; [|exact H2]. by intros x ?%elem_of_nil.
Qed.

Lemma observe_acquire id requested answer c :
  cn_running c = false ->
  observe config id (Acquire id requested answer) c =
  Some match answer with
       | Some lease => mkConduct false [requested] (lease :: cn_leases c)
       | None => mkConduct false [] (cn_leases c)
       end.
Proof. intros Hr. unfold observe. cbn. by rewrite Z.eqb_refl, Hr. Qed.

Lemma start_pipeline_conducts i definition self :
  answers_for (pd_id definition) (si_lease i) -> rn_owned self !! pd_id definition = None ->
  let '(self', es) := start_pipeline config i definition self in conducts self [] es self' [].
Proof.
  intros Ha Ho. set (id := pd_id definition) in *.
  assert (Hone : forall es self',
    Forall (fun e => forall p, p <> id -> elsewhere p e = true) es ->
    (forall p, p <> id -> rn_owned self' !! p = rn_owned self !! p) ->
    (owned_ok self [] -> owned_ok self' []) ->
    (forall c, cn_running c = false ->
       exists c', observe_all config id es c = Some c' /\ tracks id self' [] c') ->
    conducts self [] es self' []).
  { intros es self' Hes Hs Hok' Hc Hok. refine (conducts_one id _ _ _ [] [] Hes Hs _ (Hok' Hok) _ Hok); [done|].
    intros c [Hr _]. rewrite Ho in Hr. auto. }
  unfold start_pipeline. fold id. destruct (si_lease i) as [[lease|]|e|] eqn:Hl; cbn [granted];
    [|apply Hone; [repeat constructor; intros p Hp; by apply elsewhere_ne|done..|];
      intros c Hr; eexists; cbn [observe_all]; rewrite observe_acquire by done; cbn; split; [done|];
      split; [by cbn; rewrite Ho|by intros ? ?%elem_of_nil]..].
  specialize (Ha lease eq_refl). set (acquire := Acquire _ _ _). set (stop_at := lease_stop_at _ _ _).
  assert (Hfail : forall self', rn_owned self' = rn_owned self ->
    conducts self [] [acquire; Release lease] self' []).
  { intros self' Hs. eapply conducts_owned; [symmetry; exact Hs|].
    apply Hone; [repeat constructor; intros p Hp; cbn; rewrite ?Ha; by apply elsewhere_ne|done..|].
    intros c Hr. eexists. cbn [observe_all]. subst acquire. rewrite observe_acquire by done.
    unfold observe. cbn. rewrite Ha, Z.eqb_refl. cbn. rewrite bool_decide_true by left. split; [done|].
    split; [by cbn; rewrite Ho|by intros ? ?%elem_of_nil]. }
  destruct (expired_at stop_at (si_acquired i)); [by apply Hfail|].
  destruct (negb (is_ok (si_create i))); [by apply Hfail|].
  destruct (expired_at stop_at (si_created i)); [by apply Hfail|].
  destruct (negb (is_ok (si_start i))); [by apply Hfail|].
  apply Hone; [repeat constructor; intros p Hp; by apply elsewhere_ne|intros p Hp; cbn; by rewrite lookup_insert_ne| |].
  - intros Hok. by apply (owned_ok_insert id (mkOwnedPipeline lease _ _ _ _ _) self []).
  - intros c Hr. eexists. cbn [observe_all]. subst acquire. rewrite observe_acquire by done.
    unfold observe. cbn. rewrite Z.eqb_refl. cbn. unfold is_deadline. cbn. rewrite !bool_decide_true by left.
    split; [done|]. split; [|by intros ? ?%elem_of_nil]. cbn. rewrite lookup_insert_eq. split; [done|left].
Qed.

Lemma reconcile_one_conducts now i definition self :
  answers_for (pd_id definition) (si_lease i) ->
  let '(self', es) := reconcile_one config now i definition self in conducts self [] es self' [].
Proof.
  intros Ha. unfold reconcile_one. set (id := pd_id definition).
  assert (Hstart : forall self, rn_owned self !! id = None ->
    let '(self', es) := if can_start self id now then start_pipeline config i definition self else (self, [])
    in conducts self [] es self' []).
  { intros self' Hnone. destruct (can_start self' id now); [by apply start_pipeline_conducts|apply conducts_refl]. }
  destruct (negb (pd_desired_running definition)).
  - pose proof (stop_owned_conducts id (forget_restart id self) []) as H.
    destruct (stop_owned id (forget_restart id self)). by eapply conducts_from; [|exact H].
  - destruct (rn_owned self !! id) as [o|] eqn:E; [|by apply Hstart].
    destruct (_ && _); [apply conducts_refl|].
    pose proof (stop_owned_conducts id self []) as H1. unfold stop_owned in *. rewrite E in *.
    set (self1 := with_owned (delete id) self) in *. specialize (Hstart (forget_restart id self1)).
    destruct (if can_start _ id now then _ else _) as [self2 es].
    eapply conducts_app; [exact H1|]. eapply conducts_from; [|apply Hstart; apply lookup_delete_eq]. done.
Qed.

Lemma reconcile_all_conducts now definitions self :
  Forall (fun d => answers_for (pd_id d.1) (si_lease d.2)) definitions ->
  let '(self', es) := reconcile_all config now definitions self in conducts self [] es self' [].
Proof.
  intros Ha. revert self. induction Ha as [|[definition i] definitions Hi _ IH]; intros self;
    cbn [reconcile_all]; [apply conducts_refl|].
  pose proof (reconcile_one_conducts now i definition self Hi) as H1.
  destruct (reconcile_one config now i definition self) as [self1 es]. specialize (IH self1).
  destruct (reconcile_all config now definitions self1) as [self2 es']. by eapply conducts_app.
Qed.

Lemma stop_list_conducts forget ids self :
  let '(self', es) := stop_list forget ids self in conducts self [] es self' [].
Proof.
  revert self. induction ids as [|id ids IH]; intros self; cbn [stop_list]; [apply conducts_refl|].
  pose proof (stop_owned_conducts id self []) as H1. destruct (stop_owned id self) as [self1 es].
  specialize (IH (if forget then forget_restart id self1 else self1)).
  destruct (stop_list forget ids _) as [self2 es']. eapply conducts_app; [exact H1|].
  eapply conducts_from; [|exact IH]. by destruct forget.
Qed.

(** Every answer of a tick is about the pipeline it was asked for. *)
Definition tick_answered (i : TickInput) : Prop :=
  Forall renewal_answered (ti_renewals i) /\
  forall definitions, (ti_poll i).2 = Some definitions ->
    Forall (fun d => answers_for (pd_id d.1) (si_lease d.2)) definitions.

Lemma tick_conducts poll_due i self :
  tick_answered i -> let '(self', es) := tick config poll_due i self in conducts self [] es self' [].
Proof.
  intros [Hr Hp]. unfold tick.
  pose proof (reap_outcomes_conducts (ti_reaped i) self []) as H1.
  destruct (reap_outcomes config (ti_reaped i) self) as [self1 es1].
  pose proof (renew_leases_conducts (ti_clock i) (ti_renewals i) (ti_lost i) self1 Hr) as H2.
  destruct (renew_leases config _ _ _ self1) as [self2 es2].
  assert (H3 : let '(self', es) :=
     if poll_due then reconcile config (ti_poll i).1 (ti_poll i).2 self2 else (self2, []) in
     conducts self2 [] es self' []).
  { destruct poll_due; [|apply conducts_refl]. destruct (ti_poll i) as [now [definitions|]];
      [|apply conducts_refl]. cbn. specialize (Hp definitions eq_refl). unfold reconcile.
    pose proof (reconcile_all_conducts now definitions self2 Hp) as H3.
    destruct (reconcile_all config now definitions self2) as [self3 es3].
    set (obsolete := List.filter _ _). pose proof (stop_list_conducts true obsolete self3) as H4.
    destruct (stop_list true obsolete self3) as [self4 es4].
    eapply conducts_app; [exact H3|]. by eapply conducts_owned; [|exact H4]. }
  destruct (if poll_due then _ else _) as [self3 es3].
  eapply conducts_app; [exact H1|]. eapply conducts_app; [exact H2|exact H3].
Qed.

Lemma run_ticks_conducts next_poll inputs self :
  Forall tick_answered inputs ->
  let '(self', es) := run_ticks config next_poll inputs self in conducts self [] es self' [].
Proof.
  intros Ha. revert next_poll self. induction Ha as [|i inputs Hi _ IH]; intros next_poll self;
    cbn [run_ticks]; [apply conducts_refl|]. set (due := (next_poll <=? ti_now i)%Z).
  pose proof (tick_conducts due i self Hi) as H1. destruct (tick config due i self) as [self1 es].
  specialize (IH (if due then (ti_now i + poll_interval config)%Z else next_poll) self1).
  destruct (run_ticks config _ inputs self1) as [self2 es']. by eapply conducts_app.
Qed.

(** A whole run keeps to the automaton, from a start with no job to an end with none. *)
Lemma run_conducts p started inputs c :
  Forall tick_answered inputs -> cn_running c = false ->
  exists c', observe_all config p (run config started inputs).2 c = Some c' /\ cn_running c' = false.
Proof.
  intros Ha Hc. unfold run. pose proof (run_ticks_conducts started inputs RuntimeState_default Ha) as H1.
  destruct (run_ticks config started inputs RuntimeState_default) as [self1 es1]. unfold shutdown.
  pose proof (stop_list_conducts false (map fst (map_to_list (rn_owned self1))) self1) as H2.
  destruct (stop_list false _ self1) as [self2 es2]. cbn.
  destruct (conducts_app _ _ _ _ _ _ _ _ H1 H2) as [_ Ht]; [split; [done|]; by intros ?? ?%elem_of_nil|].
  destruct (Ht p c) as (c' & E & _); [split; [done|]; by intros ? ?%elem_of_nil|].
  rewrite app_assoc, observe_all_app, E. by eexists.
Qed.
End conducts.

(** ** Processes and the lease table

    Any number of processes with one clock, in nanoseconds, of which the database reads whole
    microseconds.  A process is a holder, and what it still has to do about a pipeline is a list
    of effects.  A job is the deadline its watcher has; the watcher ends it at most [lag] after
    that deadline.  A request that got no answer was executed before the process went on, or
    never. *)

Definition micros_of (nanos : Z) : Z := Z.div nanos 1000.

Record World : Type := mkWorld {
  wd_db : ControlDb;
  wd_now : Z;
  wd_jobs : gmap (Z * Z) Z;
  wd_todo : gmap (Z * Z) (list effect);
}.

Section world.
Context (config : Z -> ReconcilerConfig) (interval_micros : Z -> Z) (lag : Z).

(** A process performs an effect: the database and the process's job of the pipeline. *)
Inductive performs (holder now : Z) : effect -> ControlDb * option Z -> ControlDb * option Z -> Prop :=
| Performs_acquire pipeline requested answer issued written result db db' job :
    (requested <= issued <= now)%Z ->
    try_acquire_lease interval_micros (micros_of issued) (micros_of now) written pipeline holder
      (lease_ttl (config holder)) db = (result, db') ->
    answer = None \/ answer = granted result ->
    performs holder now (Acquire pipeline requested answer) (db, job) (db', job)
| Performs_renew lease requested answer checked written result db db' job :
    (requested <= checked <= now)%Z ->
    renew_lease interval_micros (micros_of checked) (micros_of now) written lease
      (lease_ttl (config holder)) db = (result, db') ->
    answer = None \/ answer = granted result ->
    performs holder now (Renew lease requested answer) (db, job) (db', job)
| Performs_release lease written db db' job :
    release_lease (micros_of now) written lease db = (Ok tt, db') ->
    performs holder now (Release lease) (db, job) (db', job)
| Performs_unreached e db job :
    (exists id requested, e = Acquire id requested None) \/
    (exists lease requested, e = Renew lease requested None) \/ (exists lease, e = Release lease) ->
    performs holder now e (db, job) (db, job)
| Performs_start pipeline lease stop_at db job :
    performs holder now (StartJob pipeline lease stop_at) (db, job)
      (db, if (now <=? stop_at + lag)%Z then Some stop_at else None)
| Performs_rearm pipeline stop_at db job :
    performs holder now (Rearm pipeline stop_at) (db, job) (db, Z.max stop_at <$> job)
| Performs_end e db job :
    (exists id, e = StopJob id) \/ (exists id, e = Reaped id) \/ e = StopAll ->
    performs holder now e (db, job) (db, None).

Inductive world_step : World -> World -> Prop :=
| World_time w now :
    (wd_now w <= now)%Z ->
    (forall key stop_at, wd_jobs w !! key = Some stop_at -> (now <= stop_at + lag)%Z) ->
    world_step w (mkWorld (wd_db w) now (wd_jobs w) (wd_todo w))
| World_ended w key :
    world_step w (mkWorld (wd_db w) (wd_now w) (delete key (wd_jobs w)) (wd_todo w))
| World_crashed w key :
    world_step w (mkWorld (wd_db w) (wd_now w) (delete key (wd_jobs w)) (delete key (wd_todo w)))
| World_control w db :
    cd_leases db = cd_leases (wd_db w) ->
    world_step w (mkWorld db (wd_now w) (wd_jobs w) (wd_todo w))
| World_effect w pipeline holder e effects db job :
    wd_todo w !! (pipeline, holder) = Some (e :: effects) ->
    performs holder (wd_now w) e (wd_db w, wd_jobs w !! (pipeline, holder)) (db, job) ->
    world_step w (mkWorld db (wd_now w) (partial_alter (fun _ => job) (pipeline, holder) (wd_jobs w))
                    (<[(pipeline, holder) := effects]> (wd_todo w))).

(** At the start every process has a run of its reconciler before it. *)
Definition world_start (db : ControlDb) (now : Z) (w : World) : Prop :=
  wd_db w = db /\ wd_now w = now /\ wd_jobs w = ∅ /\
  forall pipeline holder effects, wd_todo w !! (pipeline, holder) = Some effects ->
    exists started inputs, Forall tick_answered inputs /\
      effects = List.filter (fun e => negb (elsewhere pipeline e)) (run (config holder) started inputs).2.

(** Until when a granted request protects the pipeline. *)
Definition safe_until (holder requested : Z) : Z := (stop_at_of (config holder) requested + lag)%Z.

Definition row_for (db : ControlDb) (pipeline holder requested : Z) : Prop :=
  exists row, cd_leases db !! pipeline = Some row /\ lr_holder_id row = holder /\
    (micros_of requested + interval_micros (lease_ttl (config holder)) <= lr_expires_at row)%Z.

(** What a process may rely on, and what it has left to do. *)
Record own_inv (db : ControlDb) (now : Z) (job : option Z) (pipeline holder : Z) (c : Conduct) : Prop := {
  oi_leases : forall lease, lease ∈ cn_leases c -> pl_holder_id lease = holder;
  oi_requests : forall requested, requested ∈ cn_requests c -> (requested <= now)%Z /\
    ((now <= safe_until holder requested)%Z -> row_for db pipeline holder requested);
  oi_job : forall stop_at, job = Some stop_at ->
    cn_running c = true /\ (now <= stop_at + lag)%Z /\ is_deadline (config holder) stop_at c = true;
}.

Record key_inv (w : World) (pipeline holder : Z) (c : Conduct) : Prop := {
  ki_todo : Forall (fun e => elsewhere pipeline e = false) (default [] (wd_todo w !! (pipeline, holder)));
  ki_end : exists c', observe_all (config holder) pipeline
    (default [] (wd_todo w !! (pipeline, holder))) c = Some c' /\ cn_running c' = false;
  ki_own : own_inv (wd_db w) (wd_now w) (wd_jobs w !! (pipeline, holder)) pipeline holder c;
}.

Definition world_inv (w : World) : Prop := forall pipeline holder, exists c, key_inv w pipeline holder c.

Hypothesis Hmargin : forall holder,
  (lease_ttl (config holder) - lease_renew_interval (config holder) + lag + 1000
   <= 1000 * interval_micros (lease_ttl (config holder)))%Z.

(** A protected request's row has not expired. *)
Lemma safe_not_expired db pipeline holder requested now :
  (now <= safe_until holder requested)%Z -> row_for db pipeline holder requested ->
  exists row, cd_leases db !! pipeline = Some row /\ lr_holder_id row = holder /\
    (micros_of now < lr_expires_at row)%Z.
Proof.
  intros Hs (row & Hr & Hh & He). exists row. split_and!; [done..|].
  unfold safe_until, stop_at_of, lease_stop_at, micros_of in *. specialize (Hmargin holder).
  set (im := interval_micros _) in *.
  assert (now / 1000 <= (requested + (im - 1) * 1000) / 1000)%Z by (apply Z.div_le_mono; lia).
  rewrite Z.div_add in H by lia. lia.
Qed.

Lemma job_row db now stop_at pipeline holder c :
  own_inv db now (Some stop_at) pipeline holder c ->
  exists row, cd_leases db !! pipeline = Some row /\ lr_holder_id row = holder /\
    (micros_of now < lr_expires_at row)%Z.
Proof.
  intros [_ Hr Hj]. destruct (Hj _ eq_refl) as (_ & Ht & (r & -> & Hin)%bool_decide_eq_true%list_elem_of_fmap).
  destruct (Hr r Hin) as [_ Hrow]. eapply safe_not_expired; [exact Ht|]. by apply Hrow.
Qed.

(** A refused request writes nothing. *)
Lemma acquire_refused issued checked written pipeline holder ttl db result db' :
  try_acquire_lease interval_micros issued checked written pipeline holder ttl db = (result, db') ->
  granted result = None -> db' = db.
Proof. unfold try_acquire_lease. intros H. repeat case_match; by simplify_eq. Qed.

Lemma renew_refused checked issued written lease ttl db result db' :
  renew_lease interval_micros checked issued written lease ttl db = (result, db') ->
  granted result = None -> db' = db.
Proof. unfold renew_lease. intros H. repeat case_match; by simplify_eq. Qed.

Lemma row_for_other db pipeline row q holder requested :
  q <> pipeline -> row_for db q holder requested ->
  row_for (set_leases (<[pipeline := row]> (cd_leases db)) db) q holder requested.
Proof. intros Hq (r & Hr & H). exists r. cbn. by rewrite lookup_insert_ne. Qed.

Lemma row_for_new db pipeline holder requested token issued written :
  (requested <= issued)%Z ->
  row_for (set_leases (<[pipeline := mkLeaseRow holder token
     (micros_of issued + interval_micros (lease_ttl (config holder)))%Z written]> (cd_leases db)) db)
    pipeline holder requested.
Proof.
  intros Hr. eexists. cbn. rewrite lookup_insert_eq. split_and!; [done..|]. cbn.
  assert (micros_of requested <= micros_of issued)%Z by (apply Z.div_le_mono; lia). lia.
Qed.

(** A process that keeps to the automaton only touches its own row, or one that protects
    nobody. *)
Lemma performs_keeps_others pipeline holder now e c c1 db job db' job' q g requested :
  performs holder now e (db, job) (db', job') ->
  elsewhere pipeline e = false -> observe (config holder) pipeline e c = Some c1 ->
  (forall lease, lease ∈ cn_leases c -> pl_holder_id lease = holder) ->
  (q, g) <> (pipeline, holder) -> (now <= safe_until g requested)%Z ->
  row_for db q g requested -> row_for db' q g requested.
Proof.
  intros Hp He Ho Hl Hne Hs Hrow.
  assert (Hwrite : forall row old, cd_leases db !! pipeline = Some old ->
    (lr_expires_at old <= micros_of now)%Z \/ lr_holder_id old = holder ->
    row_for (set_leases (<[pipeline := row]> (cd_leases db)) db) q g requested).
  { intros row old Hold Hc. destruct (decide (q = pipeline)) as [->|]; [|by apply row_for_other].
    destruct (safe_not_expired db pipeline g requested now Hs Hrow) as (r & Hr & Hg & Hx).
    rewrite Hold in Hr. injection Hr as <-. destruct Hc as [|Hc]; [lia|]. congruence. }
  unfold observe in Ho. rewrite He in Ho. inversion Hp as
    [p r a issued written res db1 db2 j Ht Hacq Ha|lease r a checked written res db1 db2 j Ht Hren Ha
    |lease written db1 db2 j Hrel|e' db1 j _|p lease s db1 j|p s db1 j|e' db1 j _]; subst; try exact Hrow.
  - assert (p = pipeline) as -> by (cbn in He; apply negb_false_iff, Z.eqb_eq in He; done).
    destruct (granted res) as [lease|] eqn:Hg; [|by rewrite (acquire_refused _ _ _ _ _ _ _ _ _ Hacq Hg)].
    destruct res as [[l'|]| |]; try done. apply try_acquire_Some in Hacq as (_ & -> & Hold). destruct (cd_leases db !! pipeline) as [old|] eqn:E.
    + destruct Hold as [_ Hold]. by eapply Hwrite.
    + apply row_for_other; [|done]. intros ->. destruct Hrow as (r' & Hr' & _). congruence.
  - cbn in He. apply negb_false_iff, Z.eqb_eq in He. case_match eqn:Hc; [|done].
    apply andb_true_iff in Hc as [_ Hc%bool_decide_eq_true].
    destruct (granted res) as [renewed|] eqn:Hg; [|by rewrite (renew_refused _ _ _ _ _ _ _ _ Hren Hg)].
    destruct res as [[l'|]| |]; try done. apply renew_Some in Hren as (old & Hold & Hh & _ & _ & _ & ->). rewrite He in *.
    eapply Hwrite; [exact Hold|]. right. rewrite Hh. by apply Hl.
  - cbn in He. apply negb_false_iff, Z.eqb_eq in He. case_match eqn:Hc; [|done].
    apply andb_true_iff in Hc as [_ Hc%bool_decide_eq_true].
    apply release_cases in Hrel as [->|(old & Hold & Hh & ->)]; [done|]. rewrite He in *.
    eapply Hwrite; [exact Hold|]. right. rewrite Hh. by apply Hl.
Qed.

(** The store's answer to an acquisition or a renewal that was granted. *)
Lemma acquired_row pipeline holder now requested issued written result answer db db' :
  (requested <= issued)%Z -> answer = None \/ answer = granted result ->
  try_acquire_lease interval_micros (micros_of issued) (micros_of now) written pipeline holder
    (lease_ttl (config holder)) db = (result, db') ->
  forall lease, answer = Some lease -> pl_holder_id lease = holder /\ row_for db' pipeline holder requested.
Proof.
  intros Ht Ha Hacq lease ->. destruct Ha as [|Ha]; [done|]. destruct result as [[l|]| |]; try done.
  injection Ha as <-. apply try_acquire_Some in Hacq as (-> & -> & _). split; [done|]. by apply row_for_new.
Qed.

(** A renewal leaves the row with its holder, and no earlier expiry than what was granted. *)
Lemma renewed_row pipeline holder now requested checked written result answer lease db db' :
  (requested <= now)%Z -> pl_pipeline_id lease = pipeline -> pl_holder_id lease = holder ->
  answer = None \/ answer = granted result ->
  renew_lease interval_micros (micros_of checked) (micros_of now) written lease
    (lease_ttl (config holder)) db = (result, db') ->
  (forall renewed, answer = Some renewed ->
     pl_holder_id renewed = holder /\ row_for db' pipeline holder requested) /\
  (forall r, (r <= now)%Z -> row_for db pipeline holder r -> row_for db' pipeline holder r).
Proof.
  intros Ht <- <- Ha Hren.
  destruct (granted result) as [l|] eqn:Hg.
  2: { rewrite (renew_refused _ _ _ _ _ _ _ _ Hren Hg). split; [|done]. intros ? ->. by destruct Ha. }
  destruct result as [[l'|]| |]; try done. injection Hg as ->. apply renew_Some in Hren as (old & Hold & Hh & _ & _ & -> & ->). split.
  - intros renewed ->. destruct Ha as [|[= ->]]; [done|]. split; [done|]. by apply row_for_new.
  - intros r Hr _. by apply row_for_new.
Qed.


(** Without a job only the leases count, and the requests not given up. *)
Lemma own_inv_idle db now job pipeline holder c running requests :
  own_inv db now job pipeline holder c -> (forall r, r ∈ requests -> r ∈ cn_requests c) ->
  own_inv db now None pipeline holder (mkConduct running requests (cn_leases c)).
Proof. intros [Hl Hr _] Hsub. split; cbn; [done|auto|done]. Qed.

Lemma own_inv_no_job db now job pipeline holder c :
  own_inv db now job pipeline holder c -> cn_running c = false -> job = None.
Proof. intros [_ _ Hj] Hr. destruct job as [s|]; [|done]. destruct (Hj s eq_refl). congruence. Qed.

Lemma own_inv_granted db db' now job pipeline holder c running requested lease requests :
  own_inv db now job pipeline holder c ->
  (forall s, job = Some s -> running = true) ->
  (forall r, r ∈ requests -> r ∈ cn_requests c) ->
  (forall s, job = Some s -> requests = cn_requests c) ->
  (forall r, (r <= now)%Z -> r ∈ requests -> row_for db pipeline holder r -> row_for db' pipeline holder r) ->
  (requested <= now)%Z -> pl_holder_id lease = holder -> row_for db' pipeline holder requested ->
  own_inv db' now job pipeline holder
    (mkConduct running (requested :: requests) (lease :: cn_leases c)).
Proof.
  intros [Hl Hr Hj] Hrun Hsub Heq Hrow Hle Hh Hnew. split; cbn.
  - by intros l [->|?]%elem_of_cons; auto.
  - intros r [->|Hin]%elem_of_cons; [done|]. destruct (Hr r (Hsub r Hin)) as [? ?]. auto.
  - intros s Hs. destruct (Hj s Hs) as (_ & Ht & Hd%bool_decide_eq_true). split_and!; [eauto|done|].
    apply bool_decide_eq_true. cbn. right. by rewrite (Heq s Hs).
Qed.

Lemma own_inv_same_rows db db' now job pipeline holder c :
  (forall r, (r <= now)%Z -> row_for db pipeline holder r -> row_for db' pipeline holder r) ->
  own_inv db now job pipeline holder c -> own_inv db' now job pipeline holder c.
Proof. intros Hrow [Hl Hr Hj]. split; [done| |done]. intros r Hin. destruct (Hr r Hin). auto. Qed.

(** The effects that only concern the job. *)
Lemma performs_job pipeline holder now e c c1 db job job' :
  performs holder now e (db, job) (db, job') ->
  match e with StartJob _ _ _ | Rearm _ _ | StopJob _ | Reaped _ | StopAll | RequestRenewal _ => True | _ => False end ->
  elsewhere pipeline e = false -> observe (config holder) pipeline e c = Some c1 ->
  own_inv db now job pipeline holder c -> own_inv db now job' pipeline holder c1.
Proof.
  intros Hp Hkind He Ho Hi. unfold observe in Ho. rewrite He in Ho. inversion Hp; subst; try done.
  - naive_solver.
  - destruct (_ && bool_decide _) eqn:Hc; [|done]. apply andb_true_iff in Hc as [[Hr Hd]%andb_true_iff _].
    injection Ho as <-. destruct (Z.leb_spec now (stop_at + lag)%Z); [|by eapply own_inv_idle].
    destruct Hi as [Hl Hreq _]. split; cbn; [done|done|]. by intros s [= <-].
  - destruct (cn_running c && _) eqn:Hc; [|done]. apply andb_true_iff in Hc as [Hr Hd]. injection Ho as <-.
    destruct Hi as [Hl Hreq Hj]. split; [done..|]. intros s (s0 & Hs0 & ->)%fmap_Some.
    destruct (Hj s0 Hs0) as (_ & Ht & Hd0). split_and!; [done|lia|].
    by destruct (Z.max_spec stop_at s0) as [[_ ->]|[_ ->]].
  - match goal with Hend : (exists id, e = StopJob id) \/ _ |- _ =>
      destruct Hend as [[id ->]|[[id ->]| ->]]; simplify_eq; by eapply own_inv_idle end.
Qed.

Lemma performs_own pipeline holder now e c c1 db job db' job' :
  performs holder now e (db, job) (db', job') ->
  elsewhere pipeline e = false -> observe (config holder) pipeline e c = Some c1 ->
  own_inv db now job pipeline holder c -> own_inv db' now job' pipeline holder c1.
Proof.
  intros Hp He Ho Hi. pose proof Ho as Ho'. unfold observe in Ho. rewrite He in Ho. inversion Hp as
    [p r a issued written res db1 db2 j Ht Hacq Ha|lease r a checked written res db1 db2 j Ht Hren Ha
    |lease written db1 db2 j Hrel|e' db1 j Hun|p lease s db1 j|p s db1 j|e' db1 j Hend]; subst.
  - assert (p = pipeline) as -> by (cbn in He; apply negb_false_iff, Z.eqb_eq in He; done).
    pose proof (acquired_row _ _ _ _ _ _ _ _ _ _ (proj1 Ht) Ha Hacq) as Hrow.
    destruct (cn_running c) eqn:Hr; [done|]. injection Ho as <-.
    assert (job' = None) as -> by (by eapply own_inv_no_job). destruct a as [lease|].
    + destruct (Hrow lease eq_refl) as [Hh Hrow'].
      eapply own_inv_granted; [exact Hi|done|by intros ? ?%elem_of_nil|done|by intros ? ? ?%elem_of_nil|lia|done..].
    + destruct Hi as [Hl _ _]. split; cbn; [done|by intros ? ?%elem_of_nil|done].
  - cbn in He. apply negb_false_iff, Z.eqb_eq in He. case_match eqn:Hc; [|done].
    apply andb_true_iff in Hc as [Hr Hc%bool_decide_eq_true]. pose proof (oi_leases _ _ _ _ _ _ Hi _ Hc) as Hh.
    destruct (renewed_row pipeline holder now r checked written res a lease db db') as [Hnew Hold]; [lia|done..|].
    destruct a as [renewed|]; injection Ho as <-; [|by eapply own_inv_same_rows].
    destruct (Hnew renewed eq_refl). eapply own_inv_granted; [exact Hi|done..|auto|lia|done|done].
  - case_match eqn:Hc; [|done]. apply andb_true_iff in Hc as [Hr%negb_true_iff _]. injection Ho as <-.
    assert (job' = None) as -> by (by eapply own_inv_no_job).
    destruct Hi as [Hl _ _]. split; cbn; [done|by intros ? ?%elem_of_nil|done].
  - destruct Hun as [(id & r & ->)|[(lease & r & ->)|(lease & ->)]].
    + destruct (cn_running c) eqn:Hr; [done|]. injection Ho as <-.
      assert (job' = None) as -> by (by eapply own_inv_no_job).
      eapply own_inv_idle; [exact Hi|by intros ? ?%elem_of_nil].
    + case_match; by simplify_eq.
    + case_match eqn:Hc; [|done]. apply andb_true_iff in Hc as [Hr%negb_true_iff _]. injection Ho as <-.
      assert (job' = None) as -> by (by eapply own_inv_no_job).
      eapply own_inv_idle; [exact Hi|by intros ? ?%elem_of_nil].
  - by eapply performs_job.
  - by eapply performs_job.
  - eapply performs_job; [exact Hp| |done..]. by destruct Hend as [[id ->]|[[id ->]| ->]].
Qed.

(** Less happens to a process that only loses its job, or sees time pass. *)
Lemma own_inv_later db db' now now' job job' pipeline holder c :
  own_inv db now job pipeline holder c -> cd_leases db' = cd_leases db -> (now <= now')%Z ->
  (job' = None \/ job' = job /\ forall stop_at, job = Some stop_at -> (now' <= stop_at + lag)%Z) ->
  own_inv db' now' job' pipeline holder c.
Proof.
  intros [Hl Hr Hj] Hdb Hle Hjob. split; [done| |].
  - intros r Hin. destruct (Hr r Hin) as [? Hrow]. split; [lia|]. intros Hs.
    destruct Hrow as (row & ? & ?); [lia|]. exists row. by rewrite Hdb.
  - intros s ->. destruct Hjob as [|[<- Ht]]; [done|]. destruct (Hj s eq_refl) as (? & ? & ?). auto.
Qed.

Lemma observe_all_filter c p h effects :
  observe_all (config h) p (List.filter (fun e => negb (elsewhere p e)) effects) c =
  observe_all (config h) p effects c.
Proof.
  revert c. induction effects as [|e effects IH]; intros c; cbn; [done|].
  destruct (elsewhere p e) eqn:He; cbn.
  - by rewrite IH, observe_elsewhere.
  - by destruct (observe (config h) p e c).
Qed.

Lemma world_start_inv db now w : world_start db now w -> world_inv w.
Proof.
  intros (_ & _ & Hj & Ht) p h. exists (mkConduct false [] []). split.
  - destruct (wd_todo w !! (p, h)) as [es|] eqn:E; cbn; [|done].
    destruct (Ht _ _ _ E) as (started & inputs & _ & ->). apply Forall_forall. intros e He.
    apply list_elem_of_In, filter_In in He as [_ He]. by apply negb_true_iff.
  - destruct (wd_todo w !! (p, h)) as [es|] eqn:E; cbn; [|by eexists].
    destruct (Ht _ _ _ E) as (started & inputs & Ha & ->). rewrite observe_all_filter. by apply run_conducts.
  - rewrite Hj. split; cbn; [by intros ? ?%elem_of_nil..|done].
Qed.

Lemma world_effect_inv w pipeline holder e effects db job :
  world_inv w -> wd_todo w !! (pipeline, holder) = Some (e :: effects) ->
  performs holder (wd_now w) e (wd_db w, wd_jobs w !! (pipeline, holder)) (db, job) ->
  world_inv (mkWorld db (wd_now w) (partial_alter (fun _ => job) (pipeline, holder) (wd_jobs w))
               (<[(pipeline, holder) := effects]> (wd_todo w))).
Proof.
  intros Hi Ht Hp q g. destruct (Hi pipeline holder) as (c & [Hfor (c' & E & Hend) Hown]).
  rewrite Ht in Hfor, E. cbn in Hfor, E. apply Forall_cons in Hfor as [He Hfor].
  destruct (observe (config holder) pipeline e c) as [c1|] eqn:Ho; [|done].
  destruct (decide ((q, g) = (pipeline, holder))) as [[= -> ->]|Hne].
  - exists c1. split; cbn; rewrite ?lookup_insert_eq, ?lookup_partial_alter_eq; [done|by exists c'|].
    by eapply performs_own.
  - destruct (Hi q g) as (c2 & [Hfor2 Hend2 [Hl2 Hr2 Hj2]]). exists c2.
    split; cbn; rewrite ?lookup_insert_ne, ?lookup_partial_alter_ne by congruence; [done..|].
    split; [done| |done]. intros r Hin. destruct (Hr2 r Hin) as [? Hrow]. split; [done|]. intros Hs.
    eapply performs_keeps_others; [exact Hp|exact He|exact Ho|apply Hown|done..|]. by apply Hrow.
Qed.

Lemma world_step_inv w w' : world_inv w -> world_step w w' -> world_inv w'.
Proof.
  intros Hi Hstep. destruct Hstep as [w now Hle Hjobs|w key|w key|w db Hdb|w pipeline holder e effects db job Ht Hp];
    [..|exact (world_effect_inv _ _ _ _ _ _ _ Hi Ht Hp)]; intros p h; destruct (Hi p h) as (c & [Hf He Ho]).
  - exists c. split; [done..|]. eapply own_inv_later; [exact Ho|done|done|]. right. split; [done|].
    intros s Hs. by eapply Hjobs.
  - exists c. split; [done..|]. eapply own_inv_later; [exact Ho|done|done|]. cbn.
    destruct (decide (key = (p, h))) as [->|]; [left; apply lookup_delete_eq|right].
    rewrite lookup_delete_ne by done. split; [done|]. intros s Hs. by apply (oi_job _ _ _ _ _ _ Ho).
  - destruct (decide (key = (p, h))) as [->|].
    + exists (mkConduct false [] (cn_leases c)). split; cbn; rewrite ?lookup_delete_eq; [done|by eexists|].
      eapply own_inv_later; [eapply own_inv_idle; [exact Ho|by intros ? ?%elem_of_nil]|done|done|by left].
    + exists c. split; cbn; rewrite ?lookup_delete_ne by done; done.
  - exists c. split; [done..|]. eapply own_inv_later; [exact Ho|done|done|]. right. split; [done|].
    intros s Hs. by apply (oi_job _ _ _ _ _ _ Ho).
Qed.

(** C22: whatever the reconcilers of any number of processes meet - stored definitions, failed
    and lost requests, jobs that end or miss their deadline by at most [lag], crashes - a
    pipeline runs in at most one of them, under an unexpired lease of that process; and a
    process that has done everything it had to do, up to its shutdown, runs nothing. *)
Theorem pipelines_run_in_one_process (db : ControlDb) (now : Z) (w0 w : World) :
  world_start db now w0 -> rtc world_step w0 w ->
  (forall pipeline holder stop_at, wd_jobs w !! (pipeline, holder) = Some stop_at ->
     exists row, cd_leases (wd_db w) !! pipeline = Some row /\ lr_holder_id row = holder /\
       (micros_of (wd_now w) < lr_expires_at row)%Z) /\
  (forall pipeline h1 h2, is_Some (wd_jobs w !! (pipeline, h1)) -> is_Some (wd_jobs w !! (pipeline, h2)) ->
     h1 = h2) /\
  (forall pipeline holder, wd_todo w !! (pipeline, holder) = Some [] ->
     wd_jobs w !! (pipeline, holder) = None).
Proof.
  intros Hstart Hsteps. assert (Hi : world_inv w).
  { apply world_start_inv in Hstart. clear db now. induction Hsteps as [|x y z Hxy _ IH]; [done|].
    by apply IH, (world_step_inv x). }
  assert (Hrow : forall pipeline holder stop_at, wd_jobs w !! (pipeline, holder) = Some stop_at ->
     exists row, cd_leases (wd_db w) !! pipeline = Some row /\ lr_holder_id row = holder /\
       (micros_of (wd_now w) < lr_expires_at row)%Z).
  { intros p h s Hs. destruct (Hi p h) as (c & [_ _ Ho]). rewrite Hs in Ho. by eapply job_row. }
  split_and!; [done| |].
  - intros p h1 h2 [s1 H1] [s2 H2]. destruct (Hrow _ _ _ H1) as (row & Hr & <- & _).
    destruct (Hrow _ _ _ H2) as (row' & Hr' & <- & _). congruence.
  - intros p h Ht. destruct (Hi p h) as (c & [_ (c' & E & Hend) Ho]). rewrite Ht in E. injection E as ->.
    by eapply own_inv_no_job.
Qed.
End world.

(** ** Restart backoff *)

(** Under a valid configuration the delay doubles with every failure from the initial one up to
    the maximum, and a pipeline that failed is not started before its delay is over. *)
Lemma backoff_is_bounded (config : ReconcilerConfig) (failures : Z) :
  ReconcilerConfig_validate config = Ok tt -> (0 < restart_backoff_initial config)%Z ->
  (restart_backoff_max config <= duration_max)%Z -> (0 <= failures)%Z ->
  backoff_delay config failures =
    Z.min (restart_backoff_initial config * 2 ^ Z.min failures 31) (restart_backoff_max config) /\
  (restart_backoff_initial config <= backoff_delay config failures <= restart_backoff_max config)%Z.
Proof.
  intros Hv Hpos Hmax Hf. unfold ReconcilerConfig_validate in Hv. repeat (case_match; [done|]).
  match goal with H : (restart_backoff_max _ <? _)%Z = false |- _ => apply Z.ltb_ge in H as Hrange end.
  unfold backoff_delay, saturating_mul. rewrite Z.shiftl_mul_pow2, Z.mul_1_l by lia.
  assert (1 <= 2 ^ Z.min failures 31)%Z.
  { change 1%Z with (2 ^ 0)%Z at 1. apply Z.pow_le_mono_r; lia. }
  split; [lia|]. nia.
Qed.

Lemma failed_pipeline_waits config id now now' self :
  can_start (record_failure config id now self) id now' =
  (now + backoff_delay config (rs_failures (default (mkRestartState 0 None) (rn_restart self !! id)))
   <=? now')%Z.
Proof. unfold can_start, record_failure. cbn. by rewrite lookup_insert_eq. Qed.

(** ** Examples *)

Lemma default_config_is_valid :
  ReconcilerConfig_validate ReconcilerConfig_default = Ok tt /\ tick_interval ReconcilerConfig_default = seconds 2.
Proof. done. Qed.

Notation no_reading := (fun _ => mkEndReading 0 0).
Notation fresh := (mkGuardReading 0 false).

(** A tick that acquires the lease of the example pipeline for a holder and starts its job. *)
Definition example_tick (holder requested issued : Z) : TickInput :=
  mkTickInput requested [] (fun _ => 0%Z) [] no_reading
    (requested, Some [(example_pipeline,
      mkStartInput requested (Ok (Some (mkPipelineLease 1 holder 1 (issued + micros (seconds 30))%Z)))
        fresh (Ok tt) fresh (Ok tt) requested requested)]).

Definition example_world : World :=
  mkWorld example_db 0 ∅
    (<[(1, 7)%Z := List.filter (fun e => negb (elsewhere 1 e))
       (run ReconcilerConfig_default 0 [example_tick 7 0 0]).2]>
     (<[(1, 8)%Z := List.filter (fun e => negb (elsewhere 1 e))
       (run ReconcilerConfig_default 0 []).2]> ∅)).

Lemma pipelines_run_in_one_process_witness :
  exists w, rtc (world_step (fun _ => ReconcilerConfig_default) micros (seconds 5)) example_world w /\
    wd_jobs w !! (1, 7)%Z = Some (seconds 20) /\
    (forall holder, is_Some (wd_jobs w !! (1, holder)%Z) -> holder = 7%Z).
Proof.
  assert (exists w, rtc (world_step (fun _ => ReconcilerConfig_default) micros (seconds 5)) example_world w /\
    wd_jobs w !! (1, 7)%Z = Some (seconds 20)) as (w & Hw & Hj).
  { eexists. split.
    - eapply rtc_l.
      { eapply (World_effect _ _ _ example_world 1 7); [vm_compute; reflexivity|].
        eapply (Performs_acquire _ _ _ _ _ _ _ _ 0 0); [vm_compute; split; discriminate|vm_compute; reflexivity|by right]. }
      eapply rtc_l; [|apply rtc_refl].
      eapply (World_effect _ _ _ _ 1 7); [vm_compute; reflexivity|apply Performs_start].
    - vm_compute. reflexivity. }
  exists w. split; [exact Hw|]. split; [exact Hj|].
  eapply (pipelines_run_in_one_process (fun _ => ReconcilerConfig_default) micros (seconds 5)) in Hw as (_ & Hone & _).
  - intros h Hh. symmetry. eapply (Hone 1%Z 7%Z h); [by exists (seconds 20)|exact Hh].
  - intros _. vm_compute. discriminate.
  - split_and!; [reflexivity..|]. intros p h es Hes. unfold example_world in Hes. cbn [wd_todo] in Hes.
    apply lookup_insert_Some in Hes as [[[= <- <-] <-]|[_ [[[= <- <-] <-]|[_ ?]]%lookup_insert_Some]]; [..|done].
    + eexists 0%Z, [_]. split; [|reflexivity]. constructor; [|done]. split; [done|].
      intros definitions [= <-]. constructor; [|done]. by intros lease [= <-].
    + exists 0%Z, []. by split.
Defined.
