(* ===== verification/Snapshot.v ===== *)
(** * Snapshot targets

    Models [crates/target-cloudberry/src/snapshot.rs]: the plan of a shadow table, the records
    of managed relations and types, the validations, and the evolution of enum types.  The
    database is [TargetDb]: its relations and types by name, with their catalog identity, and
    the tables of [pg2cb_meta] as finite maps from their primary keys to rows as they are
    stored.  Statements are functions on it; a constraint that is violated is a database
    error, and so is a statement that the server refuses for a reason of its own ([refused]).
    [Manifest], [Load], [Activation] and [Cleanup] build on this file. *)

From S2P Require Import Prelude Core Schema Sql TargetSchema Checkpoint.

(** ** Errors *)

Inductive SnapshotTargetError : Type :=
| SnapshotSchema (e : SchemaError)
| SnapshotSql (e : SqlRenderError)
| SnapshotDatabase (message : string)
| SnapshotCheckpoint (e : CheckpointError)
| TargetIsShadow
| CrossSchemaShadowUnsupported (target shadow : string)
| ExistingUnmanagedTable (table : string)
| ManagedByOtherPipeline (table : string) (expected actual : Z)
| ManagedByOtherSource (table : string) (expected actual : Z)
| ManagedByNewerFence (object : string) (current actual : Z)
| ManagedRelationMissing (table : string)
| UnexpectedManagedTableState (table expected actual : string)
| ShadowGenerationMismatch (table : string) (expected actual : Z)
| ShadowFingerprintMismatch (table : string)
| TargetAlreadyActive (table : string)
| ExistingPrerequisiteType (name : string)
| ManagedPrerequisiteTypeMissing (name : string)
| PrerequisiteTypeManagedByOtherPipeline (name : string) (expected actual : Z)
| UnsupportedPrerequisiteTypeEvolution (name reason : string)
| SourceStream (message : string)
| CopySink (message : string)
| CopyAlreadyCompleted
| CopyNotCompleted
| InvalidOwnership
| InvalidSnapshotGroupId
| SnapshotGroupNotRegistered (group : Z)
| CorruptSnapshotGroupManifest (group : Z)
| SnapshotGroupManifestMismatch (group : Z)
| SnapshotGroupAlreadyActive (group : Z)
| SnapshotGroupNotLoading (group : Z)
| InvalidSnapshotCleanupFence
| SnapshotGroupFenceMismatch (group expected_generation expected_token actual_generation actual_token : Z)
| UnexpectedSnapshotShadow (table : string)
| MissingRelationIdentity (table : string)
| RelationIdentityMismatch (table : string) (expected actual : Z)
| InvalidQuarantineRetention
| InvalidQuarantineBatchSize
| MissingQuarantineMetadata (table : string)
| QuarantineMetadataMismatch (table : string)
| QuarantineRecordMismatch (table : string)
| MissingActiveSnapshotGroup (pipeline generation : Z)
| MultipleActiveSnapshotGroups (pipeline generation : Z)
| SnapshotTableNotInManifest (group : Z) (table : string)
| SnapshotTableManifestMismatch (group : Z) (table : string)
| ShadowSnapshotGroupMismatch (table : string) (expected : Z) (actual : option Z)
| SnapshotGenerationOutOfRange (generation : Z)
| InvalidManagedTableValue (table field value : string)
| EmptyActivationGroup
| DuplicateActivationIdentity
| EmptyActivationFingerprint (table : string)
| InvalidActivationSourceRelation
| ActivationGenerationNotNewer (table : string) (active proposed : Z)
| MixedActivationState
| IncompleteShadow (table : string)
| ActiveCheckpointIncomplete (node : Z)
| ZeroInitialCheckpoint (node : Z)
| QuarantineNameConflict (table : string)
| UnexpectedMetadataWriteCount (written : Z).

(** The [From] conversions that [?] applies. *)
Definition schema_err {A} (m : result SchemaError A) : result SnapshotTargetError A :=
  map_err SnapshotSchema m.
Definition render_err {A} (m : result SqlRenderError A) : result SnapshotTargetError A :=
  map_err SnapshotSql m.
Definition checkpoint_err {A} (m : result CheckpointError A) : result SnapshotTargetError A :=
  map_err SnapshotCheckpoint m.
(** [QualifiedName::new(..).map_err(SchemaError::from)?]. *)
Definition qualified_name (schema name : string) : result SnapshotTargetError QualifiedName :=
  schema_err (core_err (QualifiedName_new schema name)).

(** ** Requests and plans *)

Record SnapshotOwnership : Type := mkSnapshotOwnership {
  so_fence : PipelineFence;
  so_snapshot_group_id : Z;
  so_schema_fingerprint : string;
}.

Record SnapshotTargetPlan : Type := mkSnapshotTargetPlan {
  stp_target : QualifiedName;
  stp_shadow : CreateTablePlan;
  stp_copy_sql : string;
  stp_source_relation_id : Z;
  stp_source_generation : Z;
}.

Record SnapshotActivationTable : Type := mkSnapshotActivationTable {
  sat_target : QualifiedName;
  sat_shadow : QualifiedName;
  sat_source_relation_id : Z;
  sat_table_generation : Z;
  sat_schema_fingerprint : string;
}.
Global Instance SnapshotActivationTable_eq_dec : EqDecision SnapshotActivationTable.
Proof. solve_decision. Defined.

Record SnapshotActivationRequest : Type := mkSnapshotActivationRequest {
  sar_fence : PipelineFence;
  sar_snapshot_group_id : Z;
  sar_tables : list SnapshotActivationTable;
  sar_initial_checkpoints : list NodeCheckpoint;
}.
Global Instance SnapshotActivationRequest_eq_dec : EqDecision SnapshotActivationRequest.
Proof. solve_decision. Defined.

Inductive SnapshotActivationDisposition : Type := Activated | ActivationAlreadyActive.

Record SnapshotActivationOutcome : Type := mkSnapshotActivationOutcome {
  sao_disposition : SnapshotActivationDisposition;
  sao_quarantined : list QualifiedName;
}.

(** [plan_snapshot_target]. *)
Definition plan_snapshot_target (source : TableSchema) (target shadow : QualifiedName)
    : result SnapshotTargetError SnapshotTargetPlan :=
  if bool_decide (target = shadow) then Err TargetIsShadow
  else if bool_decide (qn_schema target <> qn_schema shadow)
  then Err (CrossSchemaShadowUnsupported (QualifiedName_to_string target) (QualifiedName_to_string shadow))
  else
    let? shadow := schema_err (plan_create_table source shadow) in
    let columns := map cp_name (ctp_columns shadow) in
    let? table := render_err (quote_qualified_name (ctp_target shadow)) in
    let? columns := render_err (quote_identifier_list columns) in
    Ok (mkSnapshotTargetPlan target shadow
          ("COPY " +:+ table +:+ " (" +:+ columns +:+ ") FROM STDIN WITH (FORMAT text, HEADER false, "
           +:+ "DELIMITER E'" +:+ String backslash "t', NULL E'"
           +:+ String backslash (String backslash "N')"))
          (ts_relation_id source) (ts_generation source)).

Definition activation_table (self : SnapshotTargetPlan) (schema_fingerprint : string)
    : SnapshotActivationTable :=
  mkSnapshotActivationTable (stp_target self) (ctp_target (stp_shadow self))
    (stp_source_relation_id self) (stp_source_generation self) schema_fingerprint.

Definition validate_ownership (ownership : SnapshotOwnership) : result SnapshotTargetError unit :=
  if (pf_fencing_token (so_fence ownership) <=? 0)%Z
     || bool_decide (so_schema_fingerprint ownership = EmptyString)
  then Err InvalidOwnership
  else if (so_snapshot_group_id ownership =? 0)%Z then Err InvalidSnapshotGroupId
  else Ok tt.

Definition database_generation (generation : Z) : result SnapshotTargetError Z :=
  if (generation <=? i64_max)%Z then Ok generation else Err (SnapshotGenerationOutOfRange generation).

Definition ensure_one_metadata_row (written : Z) : result SnapshotTargetError unit :=
  if (written =? 1)%Z then Ok tt else Err (UnexpectedMetadataWriteCount written).

(** ** Evolution of enum types *)

Inductive EnumAlteration : Type :=
| AddBefore (label before : string)
| Append (label : string)
| Rename (from to : string).

(** [Vec::insert]; an index past the end panics. *)
Definition vec_insert {E A} (index : nat) (x : A) (v : list A) : result E (list A) :=
  if (index <=? length v)%nat then Ok (take index v ++ x :: drop index v) else Panic.

(** [existing.iter().try_fold(..)]: where the last label was found, if all were in order. *)
Fixpoint subsequence_end (desired : list string) (at_ : nat) (existing : list string) : option nat :=
  match existing with
  | [] => Some at_
  | label :: existing =>
      match position (fun candidate => bool_decide (candidate = label)) (drop at_ desired) with
      | Some offset => subsequence_end desired (at_ + offset + 1) existing
      | None => None
      end
  end.

(** The loop over [desired.iter().enumerate()]. *)
Fixpoint plan_additions (at_ : nat) (desired current : list string)
    : result string (list EnumAlteration) :=
  match desired with
  | [] => Ok []
  | label :: desired =>
      if bool_decide (current !! at_ = Some label) then plan_additions (S at_) desired current
      else if bool_decide (label ∈ current) then Err "enum label reordering is not supported"
      else
        let alteration :=
          match current !! at_ with Some before => AddBefore label before | None => Append label end in
        let? current := vec_insert at_ label current in
        let? alterations := plan_additions (S at_) desired current in
        Ok (alteration :: alterations)
  end.

Definition plan_enum_evolution (existing desired : list string) : result string (list EnumAlteration) :=
  if bool_decide (existing = desired) then Ok []
  else if bool_decide (is_Some (subsequence_end desired 0 existing))
  then plan_additions 0 desired existing
  else if bool_decide (length existing = length desired)
          && forallb (fun p => bool_decide (p.1 = p.2) || negb (bool_decide (p.2 ∈ existing)))
               (zip existing desired)
  then Ok (map (fun p => Rename p.1 p.2)
             (List.filter (fun p => negb (bool_decide (p.1 = p.2))) (zip existing desired)))
  else Err "enum label removal, reordering, or combined rename/add is not supported".

(** The statement that [reconcile_prerequisite_type] renders for an alteration. *)
Definition alteration_sql (type_name : string) (alteration : EnumAlteration)
    : result SnapshotTargetError string :=
  match alteration with
  | AddBefore label before =>
      let? label := render_err (quote_literal label) in
      let? before := render_err (quote_literal before) in
      Ok ("ALTER TYPE " +:+ type_name +:+ " ADD VALUE " +:+ label +:+ " BEFORE " +:+ before)
  | Append label =>
      let? label := render_err (quote_literal label) in
      Ok ("ALTER TYPE " +:+ type_name +:+ " ADD VALUE " +:+ label)
  | Rename from to =>
      let? from := render_err (quote_literal from) in
      let? to := render_err (quote_literal to) in
      Ok ("ALTER TYPE " +:+ type_name +:+ " RENAME VALUE " +:+ from +:+ " TO " +:+ to)
  end.

(** What the statement does to the labels, in their order; [None] when the server refuses it. *)
Definition alter_labels (alteration : EnumAlteration) (labels : list string) : option (list string) :=
  match alteration with
  | AddBefore label before =>
      if bool_decide (label ∈ labels) then None
      else
        match position (fun l => bool_decide (l = before)) labels with
        | Some at_ => Some (take at_ labels ++ label :: drop at_ labels)
        | None => None
        end
  | Append label => if bool_decide (label ∈ labels) then None else Some (labels ++ [label])
  | Rename from to =>
      if bool_decide (to ∈ labels) || negb (bool_decide (from ∈ labels)) then None
      else Some (map (fun l => if bool_decide (l = from) then to else l) labels)
  end.

Fixpoint alter_all (alterations : list EnumAlteration) (labels : list string) : option (list string) :=
  match alterations with
  | [] => Some labels
  | alteration :: alterations =>
      match alter_labels alteration labels with
      | Some labels => alter_all alterations labels
      | None => None
      end
  end.

Section evolution.

Lemma position_head (x : string) l : position (fun c => bool_decide (c = x)) (x :: l) = Some 0%nat.
Proof. cbn. by rewrite bool_decide_true. Qed.

Lemma position_after (x : string) l k :
  x ∉ l -> position (fun c => bool_decide (c = x)) (l ++ x :: k) = Some (length l).
Proof.
  induction l as [|y l IH]; intros Hx; [apply position_head|]. cbn.
  rewrite bool_decide_false by (intros ->; apply Hx; by left).
  by rewrite IH by (intros Hin; apply Hx; by right).
Qed.

(** The first search is a test for being a subsequence. *)
Lemma subsequence_end_sublist desired existing n :
  is_Some (subsequence_end desired n existing) <-> existing `sublist_of` drop n desired.
Proof.
  revert n. induction existing as [|label existing IH]; intros n; cbn.
  { split; [|by eexists]. intros _. apply sublist_nil_l. }
  destruct (position _ (drop n desired)) as [offset|] eqn:E.
  - apply position_Some in E as (x & Hx & ->%bool_decide_eq_true & Hmin).
    rewrite IH, <- Nat.add_assoc, <- drop_drop. set (l := drop n desired) in *. clear IH. split.
    + intros Hs. rewrite <- (take_drop_middle l offset label Hx). apply sublist_inserts_l.
      apply sublist_skip. replace (S offset) with (offset + 1)%nat by lia. done.
    + intros Hs. apply sublist_cons_l in Hs as (k1 & k2 & Hl & Hs).
      assert (Hle : (offset <= length k1)%nat).
      { destruct (decide (length k1 < offset)%nat) as [Hlt|]; [|lia]. exfalso.
        assert (Hk : l !! length k1 = Some label) by (rewrite Hl; by apply list_lookup_middle).
        specialize (Hmin _ _ Hlt Hk). by apply bool_decide_eq_false in Hmin. }
      etrans; [exact Hs|]. rewrite Hl, cons_middle, app_assoc.
      rewrite drop_app_le by (rewrite length_app; cbn; lia). by apply sublist_inserts_l.
  - split; [by intros [? ?]|]. intros Hs. apply sublist_cons_l in Hs as (k1 & k2 & Hl & Hs).
    pose proof (position_None _ _ E label) as Hn. cbn in Hn. rewrite bool_decide_true in Hn by done.
    discriminate Hn. rewrite Hl. apply elem_of_app. right. left.
Qed.

(** The loop turns a subsequence into the desired labels, one statement at a time. *)
Lemma plan_additions_correct done desired rest :
  NoDup (done ++ desired) -> rest `sublist_of` desired ->
  exists alterations, plan_additions (length done) desired (done ++ rest) = Ok alterations /\
    alter_all alterations (done ++ rest) = Some (done ++ desired).
Proof.
  revert done rest. induction desired as [|label desired IH]; intros done rest Hnd Hs.
  { apply sublist_nil_r in Hs as ->. exists []. by split. }
  cbn [plan_additions]. rewrite lookup_app_r, Nat.sub_diag by lia.
  assert (Hnd' : NoDup ((done ++ [label]) ++ desired)) by (by rewrite <- app_assoc).
  apply NoDup_app in Hnd as (_ & Hdone & Hnd2). apply NoDup_cons in Hnd2 as [Hlabel _].
  assert (Hlast : length (done ++ [label]) = S (length done)) by (rewrite length_app; cbn; lia).
  destruct rest as [|head rest].
  - rewrite !bool_decide_false; [|rewrite app_nil_r; intros Hin; apply (Hdone _ Hin); left|done].
    unfold vec_insert. rewrite app_nil_r, Nat.leb_refl, firstn_all, drop_all.
    destruct (IH (done ++ [label]) []) as (alts & Hp & Ha); [done|apply sublist_nil_l|].
    rewrite Hlast in Hp. rewrite app_nil_r in Hp, Ha. cbn. rewrite Hp. cbn. eexists. split; [done|]. cbn.
    rewrite bool_decide_false by (intros Hin; apply (Hdone _ Hin); left). by rewrite Ha, <- app_assoc.
  - cbn [lookup list_lookup]. apply sublist_cons_r in Hs as [Hs|(rest' & [= -> ->] & Hs)].
    + assert (Hhead : head ∈ desired) by (eapply elem_of_sublist; [left|exact Hs]).
      assert (Hnew : label ∉ done ++ head :: rest).
      { intros [Hin|Hin]%elem_of_app; [apply (Hdone _ Hin); left|]. apply Hlabel.
        by eapply elem_of_sublist. }
      rewrite !bool_decide_false by (try done; intros [= ->]; done).
      unfold vec_insert. rewrite (proj2 (Nat.leb_le _ _)) by (rewrite length_app; lia).
      rewrite take_app_length, drop_app_length.
      destruct (IH (done ++ [label]) (head :: rest)) as (alts & Hp & Ha); [done..|].
      rewrite Hlast, <- app_assoc in Hp. cbn in Hp |- *. rewrite Hp. cbn. eexists. split; [done|]. cbn.
      rewrite bool_decide_false by done.
      rewrite position_after by (intros Hin; apply (Hdone _ Hin); by right).
      rewrite take_app_length, drop_app_length. rewrite <- !app_assoc in Ha. exact Ha.
    + rewrite bool_decide_true by done.
      destruct (IH (done ++ [label]) rest') as (alts & Hp & Ha); [done..|].
      rewrite Hlast in Hp. rewrite <- app_assoc in Hp. rewrite <- !app_assoc in Ha. by exists alts.
Qed.

(** Renaming labels one after the other to new ones. *)
Lemma renames_correct pre existing desired :
  length existing = length desired -> NoDup (pre ++ desired) -> NoDup existing ->
  (forall l, l ∈ existing -> l ∉ pre) ->
  (forall from to, (from, to) ∈ zip existing desired -> from = to \/ to ∉ existing) ->
  alter_all
    (map (fun p => Rename p.1 p.2)
       (List.filter (fun p => negb (bool_decide (p.1 = p.2))) (zip existing desired)))
    (pre ++ existing) = Some (pre ++ desired).
Proof.
  revert pre desired. induction existing as [|from existing IH]; intros pre [|to desired] Hlen Hnd He Hdone Hto;
    [done..|]. cbn in Hlen. assert (length existing = length desired) as Hlen' by lia. clear Hlen.
  apply NoDup_cons in He as [Hfrom He].
  assert (Hnd' : NoDup ((pre ++ [to]) ++ desired)) by (by rewrite <- app_assoc).
  assert (Htodone : to ∉ pre).
  { apply NoDup_app in Hnd as (_ & Hd & _). intros Hin. apply (Hd _ Hin). left. }
  assert (Hrest : forall l, l ∈ existing -> l ∉ pre ++ [to]).
  { intros l Hl [Hin|Hin%list_elem_of_singleton]%elem_of_app; [apply (Hdone l); [by right|done]|].
    subst l. destruct (Hto from to) as [->|Hn]; [left|done|]. apply Hn. by right. }
  assert (Hto' : forall a b, (a, b) ∈ zip existing desired -> a = b \/ b ∉ existing).
  { intros a b Hab. destruct (Hto a b) as [|Hn]; [by right|by left|]. right. intros Hin. apply Hn. by right. }
  specialize (IH (pre ++ [to]) desired Hlen' Hnd' He Hrest Hto'). rewrite <- !app_assoc in IH. cbn in IH.
  cbn. case_bool_decide as Heq; cbn; [by subst|].
  destruct (Hto from to) as [?|Hnew]; [left|done|].
  rewrite bool_decide_false by (intros [Hin|Hin]%elem_of_app; done).
  rewrite (bool_decide_true (from ∈ _)) by (apply elem_of_app; right; left). cbn.
  rewrite map_app. cbn. rewrite bool_decide_true by done.
  assert (Hsame : forall l, from ∉ l -> map (fun x => if bool_decide (x = from) then to else x) l = l).
  { induction l as [|x l IHl]; intros Hn; [done|]. cbn. rewrite bool_decide_false by (intros ->; apply Hn; left).
    f_equal. apply IHl. intros Hin. apply Hn. by right. }
  rewrite !Hsame; [exact IH|done|]. intros Hin. by apply (Hdone from); [left|].
Qed.

Lemma subsequence_sublist existing desired :
  is_Some (subsequence_end desired 0 existing) <-> existing `sublist_of` desired.
Proof. apply subsequence_end_sublist. Qed.
End evolution.

(** What a plan does, whether it exists, and that the loops do not panic. *)
Lemma evolution_planned (existing desired : list string) :
  NoDup existing -> NoDup desired ->
  match plan_enum_evolution existing desired with
  | Ok alterations => alter_all alterations existing = Some desired
  | Err _ => ~ existing `sublist_of` desired
  | Panic => False
  end.
Proof.
  intros He Hd. unfold plan_enum_evolution. case_bool_decide as Heq; [by subst|].
  case_bool_decide as Hs.
  - apply subsequence_sublist in Hs.
    destruct (plan_additions_correct [] desired existing) as (alts & Hp & Ha); [done..|].
    cbn in Hp, Ha. by rewrite Hp.
  - rewrite subsequence_sublist in Hs. destruct (_ && _) eqn:Hc; [|done].
    apply andb_true_iff in Hc as [Hlen%bool_decide_eq_true Hall].
    apply (renames_correct []); [done..| |].
    + intros l _. by apply not_elem_of_nil.
    + intros from to Hin. rewrite forallb_forall in Hall. apply list_elem_of_In in Hin.
      specialize (Hall _ Hin). cbn in Hall. apply orb_true_iff in Hall as [Hx|Hx].
      * left. by apply bool_decide_eq_true in Hx.
      * right. by apply negb_true_iff, bool_decide_eq_false in Hx.
Qed.

Lemma evolution_exact (existing desired : list string) alterations :
  NoDup existing -> NoDup desired -> plan_enum_evolution existing desired = Ok alterations ->
  alter_all alterations existing = Some desired.
Proof. intros He Hd Hp. pose proof (evolution_planned existing desired He Hd) as H. by rewrite Hp in H. Qed.

(** From any labels to any others without repetition, a plan of alterations that the server
    executes leaves exactly the desired labels in the desired order; the planning loop never
    panics, and added labels are always planned when the existing ones are among the desired
    ones in order. *)
Theorem enum_evolution_reaches_desired (existing desired : list string) :
  NoDup existing -> NoDup desired ->
  (forall alterations, plan_enum_evolution existing desired = Ok alterations ->
     alter_all alterations existing = Some desired) /\
  (existing `sublist_of` desired -> exists alterations, plan_enum_evolution existing desired = Ok alterations) /\
  plan_enum_evolution existing desired <> Panic.
Proof.
  intros He Hd. split; [by intros; apply evolution_exact|].
  pose proof (evolution_planned existing desired He Hd) as H.
  destruct (plan_enum_evolution existing desired) as [alts| |]; [by split; [exists alts|]|done|done].
Qed.

Lemma enum_evolution_reaches_desired_witness :
  plan_enum_evolution ["low"; "high"] ["low"; "mid"; "high"; "top"] =
    Ok [AddBefore "mid" "high"; Append "top"] /\
  alter_all [AddBefore "mid" "high"; Append "top"] ["low"; "high"] = Some ["low"; "mid"; "high"; "top"].
Proof.
  split; [vm_compute; reflexivity|].
  apply (enum_evolution_reaches_desired ["low"; "high"] ["low"; "mid"; "high"; "top"]);
    [apply NoDup_ListNoDup; repeat constructor; cbn; intuition discriminate..|vm_compute; reflexivity].
Defined.

(** ** The target database *)

(** A relation: its catalog identity, whether it is a table ([relkind] r, p or f), the statement
    that created it, and the rows it was loaded with, in their text form. *)
Record Relation : Type := mkRelation {
  rel_oid : Z;
  rel_is_table : bool;
  rel_sql : string;
  rel_data : bytes;
}.

Inductive TypeDef : Type := EnumType (labels : list string) | OtherType (kind : string).

(** A row of [pg2cb_meta.managed_tables]. *)
Record ManagedTableRow : Type := mkManagedTableRow {
  mt_pipeline_id : Z;
  mt_snapshot_group_id : option Z;
  mt_relation_oid : option Z;
  mt_source_relation_id : Z;
  mt_table_generation : Z;
  mt_schema_fingerprint : string;
  mt_state : string;
  mt_fencing_token : Z;
}.

(** A row of [pg2cb_meta.managed_types]. *)
Record ManagedTypeRecord : Type := mkManagedTypeRecord {
  my_pipeline_id : Z;
  my_definition_checksum : bytes;
  my_fencing_token : Z;
}.

(** Rows of [snapshot_groups], [snapshot_group_tables] and [snapshot_group_nodes]; the columns
    [numeric] and [pg_lsn] are written from and read as text, which is kept. *)
Record GroupRow : Type := mkGroupRow {
  gr_pipeline_id : Z;
  gr_topology_generation : Z;
  gr_fencing_token : Z;
  gr_state : string;
  gr_table_count : Z;
  gr_node_count : Z;
  gr_manifest_checksum : bytes;
}.
Record GroupTableRow : Type := mkGroupTableRow {
  gt_target : QualifiedName;
  gt_shadow : QualifiedName;
  gt_source_relation_id : Z;
  gt_table_generation : Z;
  gt_schema_fingerprint : string;
}.
Record GroupNodeRow : Type := mkGroupNodeRow {
  gn_node_id : Z;
  gn_system_identifier : string;
  gn_timeline : Z;
  gn_slot_name : string;
  gn_consistent_lsn : string;
}.

(** A row of [snapshot_reconciliation_log]; its key is the group and the original table. *)
Record LogRow : Type := mkLogRow {
  lg_quarantine : QualifiedName;
  lg_quarantine_relation_oid : option Z;
  lg_pipeline_id : Z;
  lg_topology_generation : Z;
  lg_source_relation_id : Z;
  lg_previous_snapshot_group_id : option Z;
  lg_table_generation : Z;
  lg_schema_fingerprint : string;
  lg_reason : string;
  lg_previous_fencing_token : option Z;
  lg_fencing_token : Z;
  lg_recorded_at : Z;
  lg_purged : option (Z * Z);
}.

Record TargetDb : Type := mkTargetDb {
  sd_meta : Meta;
  sd_schemas : gset string;
  sd_relations : gmap QualifiedName Relation;
  sd_types : gmap QualifiedName TypeDef;
  sd_next_oid : Z;
  sd_managed_tables : gmap QualifiedName ManagedTableRow;
  sd_managed_types : gmap QualifiedName ManagedTypeRecord;
  sd_groups : gmap Z GroupRow;
  sd_group_tables : gmap Z (list GroupTableRow);
  sd_group_nodes : gmap Z (list GroupNodeRow);
  sd_log : gmap (Z * QualifiedName) LogRow;
}.

Definition with_meta (f : Meta -> Meta) (db : TargetDb) : TargetDb :=
  mkTargetDb (f (sd_meta db)) (sd_schemas db) (sd_relations db) (sd_types db) (sd_next_oid db)
    (sd_managed_tables db) (sd_managed_types db) (sd_groups db) (sd_group_tables db)
    (sd_group_nodes db) (sd_log db).
Definition with_schemas (f : gset string -> gset string) (db : TargetDb) : TargetDb :=
  mkTargetDb (sd_meta db) (f (sd_schemas db)) (sd_relations db) (sd_types db) (sd_next_oid db)
    (sd_managed_tables db) (sd_managed_types db) (sd_groups db) (sd_group_tables db)
    (sd_group_nodes db) (sd_log db).
Definition with_relations (f : gmap QualifiedName Relation -> gmap QualifiedName Relation) (db : TargetDb)
    : TargetDb :=
  mkTargetDb (sd_meta db) (sd_schemas db) (f (sd_relations db)) (sd_types db) (sd_next_oid db)
    (sd_managed_tables db) (sd_managed_types db) (sd_groups db) (sd_group_tables db)
    (sd_group_nodes db) (sd_log db).
Definition with_types (f : gmap QualifiedName TypeDef -> gmap QualifiedName TypeDef) (db : TargetDb)
    : TargetDb :=
  mkTargetDb (sd_meta db) (sd_schemas db) (sd_relations db) (f (sd_types db)) (sd_next_oid db)
    (sd_managed_tables db) (sd_managed_types db) (sd_groups db) (sd_group_tables db)
    (sd_group_nodes db) (sd_log db).
Definition with_next_oid (f : Z -> Z) (db : TargetDb) : TargetDb :=
  mkTargetDb (sd_meta db) (sd_schemas db) (sd_relations db) (sd_types db) (f (sd_next_oid db))
    (sd_managed_tables db) (sd_managed_types db) (sd_groups db) (sd_group_tables db)
    (sd_group_nodes db) (sd_log db).
Definition with_managed_tables (f : gmap QualifiedName ManagedTableRow -> gmap QualifiedName ManagedTableRow)
    (db : TargetDb) : TargetDb :=
  mkTargetDb (sd_meta db) (sd_schemas db) (sd_relations db) (sd_types db) (sd_next_oid db)
    (f (sd_managed_tables db)) (sd_managed_types db) (sd_groups db) (sd_group_tables db)
    (sd_group_nodes db) (sd_log db).
Definition with_managed_types (f : gmap QualifiedName ManagedTypeRecord -> gmap QualifiedName ManagedTypeRecord)
    (db : TargetDb) : TargetDb :=
  mkTargetDb (sd_meta db) (sd_schemas db) (sd_relations db) (sd_types db) (sd_next_oid db)
    (sd_managed_tables db) (f (sd_managed_types db)) (sd_groups db) (sd_group_tables db)
    (sd_group_nodes db) (sd_log db).
Definition with_groups (groups : gmap Z GroupRow -> gmap Z GroupRow)
    (tables : gmap Z (list GroupTableRow) -> gmap Z (list GroupTableRow))
    (nodes : gmap Z (list GroupNodeRow) -> gmap Z (list GroupNodeRow)) (db : TargetDb) : TargetDb :=
  mkTargetDb (sd_meta db) (sd_schemas db) (sd_relations db) (sd_types db) (sd_next_oid db)
    (sd_managed_tables db) (sd_managed_types db) (groups (sd_groups db))
    (tables (sd_group_tables db)) (nodes (sd_group_nodes db)) (sd_log db).
Definition with_log (f : gmap (Z * QualifiedName) LogRow -> gmap (Z * QualifiedName) LogRow)
    (db : TargetDb) : TargetDb :=
  mkTargetDb (sd_meta db) (sd_schemas db) (sd_relations db) (sd_types db) (sd_next_oid db)
    (sd_managed_tables db) (sd_managed_types db) (sd_groups db) (sd_group_tables db)
    (sd_group_nodes db) (f (sd_log db)).

(** ** Statements *)
Section statements.
(** The server's own reasons to refuse a statement, such as missing privileges. *)
Context (refused : string -> option string).

Definition execute (sql : string) (effect : TargetDb -> result SnapshotTargetError TargetDb) (db : TargetDb)
    : result SnapshotTargetError TargetDb :=
  match refused sql with Some message => Err (SnapshotDatabase message) | None => effect db end.

(** A relation or a type may not take a name that either has: a table has a row type. *)
Definition name_taken (db : TargetDb) (name : QualifiedName) : bool :=
  bool_decide (is_Some (sd_relations db !! name)) || bool_decide (is_Some (sd_types db !! name)).

Definition create_schema (schema : string) (db : TargetDb) : result SnapshotTargetError TargetDb :=
  let? name := render_err (quote_identifier schema) in
  execute ("CREATE SCHEMA IF NOT EXISTS " +:+ name) (fun db => Ok (with_schemas (union {[schema]}) db)) db.

(** A [CREATE TABLE]: an empty table with a fresh identity. *)
Definition create_table (name : QualifiedName) (sql : string) (db : TargetDb)
    : result SnapshotTargetError TargetDb :=
  execute sql (fun db =>
    if negb (bool_decide (qn_schema name ∈ sd_schemas db)) then Err (SnapshotDatabase "schema does not exist")
    else if name_taken db name then Err (SnapshotDatabase "relation already exists")
    else Ok (with_next_oid Z.succ
               (with_relations (<[name := mkRelation (sd_next_oid db) true sql []]>) db))) db.

Definition drop_table (name : QualifiedName) (db : TargetDb) : result SnapshotTargetError TargetDb :=
  let? table := render_err (quote_qualified_name name) in
  execute ("DROP TABLE " +:+ table) (fun db =>
    match sd_relations db !! name with
    | Some relation =>
        if rel_is_table relation then Ok (with_relations (delete name) db)
        else Err (SnapshotDatabase "relation is not a table")
    | None => Err (SnapshotDatabase "relation does not exist")
    end) db.

(** [rename_table_sql] and what it does: the relation keeps its identity and its rows. *)
Definition rename_table_sql (table : QualifiedName) (new_name : string) : result SnapshotTargetError string :=
  let? table := render_err (quote_qualified_name table) in
  let? new_name := render_err (quote_identifier new_name) in
  Ok ("ALTER TABLE " +:+ table +:+ " RENAME TO " +:+ new_name).

Definition rename_table (table : QualifiedName) (new_name : string) (db : TargetDb)
    : result SnapshotTargetError TargetDb :=
  let? sql := rename_table_sql table new_name in
  execute sql (fun db =>
    match sd_relations db !! table with
    | Some relation =>
        let to := mkQualifiedName (qn_schema table) new_name in
        if name_taken db to then Err (SnapshotDatabase "relation already exists")
        else Ok (with_relations (fun m => <[to := relation]> (delete table m)) db)
    | None => Err (SnapshotDatabase "relation does not exist")
    end) db.

(** A [CREATE TYPE] or [CREATE DOMAIN] of a plan. *)
Definition create_type (type : UserTypePlan) (db : TargetDb) : result SnapshotTargetError TargetDb :=
  execute (utp_create_sql type) (fun db =>
    if negb (bool_decide (qn_schema (utp_name type) ∈ sd_schemas db))
    then Err (SnapshotDatabase "schema does not exist")
    else if name_taken db (utp_name type) then Err (SnapshotDatabase "type already exists")
    else
      let definition :=
        match utp_definition type with DefEnum labels => EnumType labels | DefDomain _ => OtherType "d" end in
      Ok (with_types (<[utp_name type := definition]>) db)) db.

Definition alter_type (name : QualifiedName) (sql : string) (alteration : EnumAlteration) (db : TargetDb)
    : result SnapshotTargetError TargetDb :=
  execute sql (fun db =>
    match sd_types db !! name with
    | Some (EnumType labels) =>
        match alter_labels alteration labels with
        | Some labels => Ok (with_types (<[name := EnumType labels]>) db)
        | None => Err (SnapshotDatabase "enum label conflict")
        end
    | Some (OtherType _) => Err (SnapshotDatabase "type is not an enum")
    | None => Err (SnapshotDatabase "type does not exist")
    end) db.

(** ** Managed relations *)

Inductive ManagedTableState : Type := StShadow | StActive | StBlocked | StQuarantined.
Global Instance ManagedTableState_eq_dec : EqDecision ManagedTableState.
Proof. solve_decision. Defined.

Definition ManagedTableState_as_str (self : ManagedTableState) : string :=
  match self with
  | StShadow => "shadow" | StActive => "active" | StBlocked => "blocked" | StQuarantined => "quarantined"
  end.

Definition ManagedTableState_parse (table : QualifiedName) (value : string)
    : result SnapshotTargetError ManagedTableState :=
  if bool_decide (value = "shadow") then Ok StShadow
  else if bool_decide (value = "active") then Ok StActive
  else if bool_decide (value = "blocked") then Ok StBlocked
  else if bool_decide (value = "quarantined") then Ok StQuarantined
  else Err (InvalidManagedTableValue (QualifiedName_to_string table) "state" value).

Record ManagedTableRecord : Type := mkManagedTableRecord {
  mr_pipeline_id : Z;
  mr_snapshot_group_id : option Z;
  mr_relation_oid : option Z;
  mr_source_relation_id : Z;
  mr_table_generation : Z;
  mr_schema_fingerprint : string;
  mr_state : ManagedTableState;
  mr_fencing_token : Z;
}.

Inductive RelationState : Type :=
| Vacant
| Unmanaged
| ManagedObjectMissing (record : ManagedTableRecord)
| Managed (record : ManagedTableRecord).

Definition managed_table_record_from_row (table : QualifiedName) (row : ManagedTableRow)
    : result SnapshotTargetError ManagedTableRecord :=
  let relation_raw := mt_source_relation_id row in
  let? source_relation_id :=
    if (0 <=? relation_raw)%Z && (relation_raw <=? u32_max)%Z then Ok relation_raw
    else Err (InvalidManagedTableValue (QualifiedName_to_string table) "source_relation_id" (pretty relation_raw)) in
  let generation_raw := mt_table_generation row in
  let? table_generation :=
    if (0 <=? generation_raw)%Z then Ok generation_raw
    else Err (InvalidManagedTableValue (QualifiedName_to_string table) "table_generation" (pretty generation_raw)) in
  let? state := ManagedTableState_parse table (mt_state row) in
  Ok (mkManagedTableRecord (mt_pipeline_id row) (mt_snapshot_group_id row) (mt_relation_oid row)
        source_relation_id table_generation (mt_schema_fingerprint row) state (mt_fencing_token row)).

Definition relation_exists (db : TargetDb) (table : QualifiedName) : bool :=
  bool_decide (is_Some (sd_relations db !! table)).

Definition relation_oid (db : TargetDb) (table : QualifiedName) : option Z :=
  match sd_relations db !! table with
  | Some relation => if rel_is_table relation then Some (rel_oid relation) else None
  | None => None
  end.

Definition load_relation_state (db : TargetDb) (table : QualifiedName)
    : result SnapshotTargetError RelationState :=
  let? record :=
    match sd_managed_tables db !! table with
    | Some row => let? record := managed_table_record_from_row table row in Ok (Some record)
    | None => Ok None
    end in
  Ok (match relation_exists db table, record with
      | false, None => Vacant
      | true, None => Unmanaged
      | false, Some record => ManagedObjectMissing record
      | true, Some record => Managed record
      end).

Definition validate_managed_identity (table : QualifiedName) (record : ManagedTableRecord)
    (pipeline_id source_relation_id : Z) : result SnapshotTargetError unit :=
  if negb (mr_pipeline_id record =? pipeline_id)%Z
  then Err (ManagedByOtherPipeline (QualifiedName_to_string table) pipeline_id (mr_pipeline_id record))
  else if negb (mr_source_relation_id record =? source_relation_id)%Z
  then Err (ManagedByOtherSource (QualifiedName_to_string table) source_relation_id (mr_source_relation_id record))
  else Ok tt.

Definition validate_managed_fence (table : QualifiedName) (record : ManagedTableRecord) (current : Z)
    : result SnapshotTargetError unit :=
  if (current <? mr_fencing_token record)%Z
  then Err (ManagedByNewerFence (QualifiedName_to_string table) current (mr_fencing_token record))
  else Ok tt.

Definition matches_activation (record : ManagedTableRecord) (table : SnapshotActivationTable)
    (snapshot_group_id : Z) : bool :=
  bool_decide (mr_snapshot_group_id record = Some snapshot_group_id)
  && (mr_source_relation_id record =? sat_source_relation_id table)%Z
  && (mr_table_generation record =? sat_table_generation table)%Z
  && bool_decide (mr_schema_fingerprint record = sat_schema_fingerprint table).

(** Inserting a row of [managed_tables], with the constraints of the table. *)
Definition managed_row_ok (row : ManagedTableRow) : bool :=
  (0 <? mt_source_relation_id row)%Z && (0 <=? mt_table_generation row)%Z
  && negb (bool_decide (mt_schema_fingerprint row = EmptyString))
  && bool_decide (mt_state row ∈ ["shadow"; "active"; "blocked"; "quarantined"])
  && (0 <? mt_fencing_token row)%Z.

Definition insert_managed_table (table : QualifiedName) (row : ManagedTableRow) (db : TargetDb)
    : result SnapshotTargetError TargetDb :=
  if negb (managed_row_ok row) then Err (SnapshotDatabase "new row violates check constraint")
  else if bool_decide (is_Some (sd_managed_tables db !! table))
  then Err (SnapshotDatabase "duplicate key value violates unique constraint")
  else Ok (with_managed_tables (<[table := row]>) db).

(** Deleting the row of a name: the rows deleted must be one. *)
Definition delete_managed_table (table : QualifiedName) (keep : ManagedTableRow -> bool) (db : TargetDb)
    : result SnapshotTargetError TargetDb :=
  match sd_managed_tables db !! table with
  | Some row =>
      if keep row then Err (UnexpectedMetadataWriteCount 0) else Ok (with_managed_tables (delete table) db)
  | None => Err (UnexpectedMetadataWriteCount 0)
  end.

(** ** Prerequisite types *)

Inductive ManagedTypeAction : Type := TypeCreate | TypeReuse | TypeReconcile.

Definition type_exists (db : TargetDb) (data_type : QualifiedName) : bool := name_taken db data_type.

Definition classify_prerequisite_type (name : QualifiedName) (exists_ : bool)
    (managed : option ManagedTypeRecord) (pipeline_id fencing_token : Z) (definition_checksum : bytes)
    : result SnapshotTargetError ManagedTypeAction :=
  match exists_, managed with
  | false, None => Ok TypeCreate
  | true, None => Err (ExistingPrerequisiteType (QualifiedName_to_string name))
  | false, Some _ => Err (ManagedPrerequisiteTypeMissing (QualifiedName_to_string name))
  | true, Some record =>
      if negb (my_pipeline_id record =? pipeline_id)%Z
      then Err (PrerequisiteTypeManagedByOtherPipeline (QualifiedName_to_string name) pipeline_id
                  (my_pipeline_id record))
      else if (fencing_token <? my_fencing_token record)%Z
      then Err (ManagedByNewerFence (QualifiedName_to_string name) fencing_token (my_fencing_token record))
      else if bool_decide (my_definition_checksum record <> definition_checksum) then Ok TypeReconcile
      else Ok TypeReuse
  end.

(** [load_enum_labels]; the row type of a table has kind [c]. *)
Definition load_enum_labels (db : TargetDb) (name : QualifiedName) : result SnapshotTargetError (list string) :=
  let wrong_kind kind :=
    Err (UnsupportedPrerequisiteTypeEvolution (QualifiedName_to_string name)
           ("managed object is PostgreSQL type kind `" +:+ kind +:+ "`, expected enum")) in
  match sd_types db !! name with
  | Some (EnumType labels) => Ok labels
  | Some (OtherType kind) => wrong_kind kind
  | None =>
      if relation_exists db name then wrong_kind "c"
      else Err (SnapshotDatabase "query returned an unexpected number of rows")
  end.

Definition reconcile_prerequisite_type (prerequisite : UserTypePlan) (db : TargetDb)
    : result SnapshotTargetError TargetDb :=
  match utp_definition prerequisite with
  | DefDomain _ =>
      Err (UnsupportedPrerequisiteTypeEvolution (QualifiedName_to_string (utp_name prerequisite))
             "constraint-free domain base-type changes require a versioned target type")
  | DefEnum desired =>
      let? existing := load_enum_labels db (utp_name prerequisite) in
      let? alterations :=
        map_err (UnsupportedPrerequisiteTypeEvolution (QualifiedName_to_string (utp_name prerequisite)))
          (plan_enum_evolution existing desired) in
      let? type_name := render_err (quote_qualified_name (utp_name prerequisite)) in
      foldM (fun db alteration =>
        let? sql := alteration_sql type_name alteration in
        alter_type (utp_name prerequisite) sql alteration db) db alterations
  end.

(** [update_managed_type] and the insertion of a new type's row; the checksum has 32 bytes. *)
Definition put_managed_type (fresh : bool) (prerequisite : UserTypePlan) (ownership : SnapshotOwnership)
    (definition_checksum : bytes) (db : TargetDb) : result SnapshotTargetError TargetDb :=
  let name := utp_name prerequisite in
  let token := pf_fencing_token (so_fence ownership) in
  if negb (len definition_checksum =? 32)%Z || (token <=? 0)%Z
  then Err (SnapshotDatabase "new row violates check constraint")
  else
    match fresh, sd_managed_types db !! name with
    | true, Some _ => Err (SnapshotDatabase "duplicate key value violates unique constraint")
    | false, None => Err (UnexpectedMetadataWriteCount 0)
    | true, None =>
        Ok (with_managed_types
              (<[name := mkManagedTypeRecord (pf_pipeline_id (so_fence ownership)) definition_checksum token]>) db)
    | false, Some row =>
        Ok (with_managed_types
              (<[name := mkManagedTypeRecord (my_pipeline_id row) definition_checksum token]>) db)
    end.

Context (sha256 : bytes -> bytes).

Definition ensure_prerequisite_type (ownership : SnapshotOwnership) (db : TargetDb)
    (prerequisite : UserTypePlan) : result SnapshotTargetError TargetDb :=
  let managed := sd_managed_types db !! utp_name prerequisite in
  let definition_checksum := sha256 (bytes_of_string (utp_create_sql prerequisite)) in
  let? action :=
    classify_prerequisite_type (utp_name prerequisite) (type_exists db (utp_name prerequisite)) managed
      (pf_pipeline_id (so_fence ownership)) (pf_fencing_token (so_fence ownership)) definition_checksum in
  match action with
  | TypeCreate =>
      let? db := create_type prerequisite db in
      put_managed_type true prerequisite ownership definition_checksum db
  | TypeReuse => put_managed_type false prerequisite ownership definition_checksum db
  | TypeReconcile =>
      let? db := reconcile_prerequisite_type prerequisite db in
      put_managed_type false prerequisite ownership definition_checksum db
  end.
End statements.
