(* ===== verification/Manifest.v ===== *)
(** * Manifests of snapshot groups

    Models [crates/target-cloudberry/src/snapshot/manifest.rs]: the canonical form of a request,
    its checksum, and its registration in and loading from the tables of [pg2cb_meta].  The
    order in which the server returns the rows of a group - [ORDER BY target_schema,
    target_table], by the collation of the database - is an argument. *)

From S2P Require Import Prelude Core Decimal Schema Sql TargetSchema Checkpoint Snapshot.

(** ** The order of names: [(&schema, &name).cmp] *)

Definition name_le (p q : QualifiedName) : Prop :=
  String.le (qn_schema p) (qn_schema q) /\
  (qn_schema p = qn_schema q -> String.le (qn_name p) (qn_name q)).
Global Instance name_le_dec : RelDecision name_le.
Proof. intros p q. unfold name_le. apply _. Defined.
Definition table_le (a b : SnapshotActivationTable) : Prop := name_le (sat_target a) (sat_target b).
Global Instance table_le_dec : RelDecision table_le.
Proof. intros a b. unfold table_le. apply _. Defined.

(** ** Canonical requests *)

Inductive SnapshotGroupState : Type := GroupLoading | GroupActive.
Global Instance SnapshotGroupState_eq_dec : EqDecision SnapshotGroupState.
Proof. solve_decision. Defined.

Definition SnapshotGroupState_parse (snapshot_group_id : Z) (value : string)
    : result SnapshotTargetError SnapshotGroupState :=
  if bool_decide (value = "loading") then Ok GroupLoading
  else if bool_decide (value = "active") then Ok GroupActive
  else Err (CorruptSnapshotGroupManifest snapshot_group_id).

Inductive SnapshotGroupRegistrationDisposition : Type :=
| Registered | AlreadyRegistered | AlreadyActive.

Record StoredSnapshotGroup : Type := mkStoredSnapshotGroup {
  sg_state : SnapshotGroupState;
  sg_request : SnapshotActivationRequest;
}.

Definition validate_table (table : SnapshotActivationTable) : result SnapshotTargetError unit :=
  if bool_decide (sat_target table = sat_shadow table) then Err TargetIsShadow
  else if bool_decide (qn_schema (sat_target table) <> qn_schema (sat_shadow table))
  then Err (CrossSchemaShadowUnsupported (QualifiedName_to_string (sat_target table))
              (QualifiedName_to_string (sat_shadow table)))
  else if (sat_source_relation_id table =? 0)%Z then Err InvalidActivationSourceRelation
  else
    let? _ := database_generation (sat_table_generation table) in
    if bool_decide (sat_schema_fingerprint table = EmptyString)
    then Err (EmptyActivationFingerprint (QualifiedName_to_string (sat_target table)))
    else Ok tt.

Definition validate_checkpoint (fence : PipelineFence) (checkpoint : NodeCheckpoint)
    : result SnapshotTargetError unit :=
  if negb (ck_pipeline_id (nc_key checkpoint) =? pf_pipeline_id fence)%Z
     || negb (ck_topology_generation (nc_key checkpoint) =? pf_topology_generation fence)%Z
  then Err (SnapshotCheckpoint FenceKeyMismatch)
  else if (nc_applied_lsn checkpoint =? Lsn.ZERO)%Z
  then Err (ZeroInitialCheckpoint (ck_node_id (nc_key checkpoint)))
  else
    let? _ := checkpoint_err (checkpoint_reached None checkpoint) in
    Ok tt.

(** [windows(2)]: whether two neighbours have the same key. *)
Fixpoint equal_neighbours {A B} `{EqDecision B} (key : A -> B) (l : list A) : bool :=
  match l with
  | a :: (b :: _) as l => bool_decide (key a = key b) || equal_neighbours key l
  | _ => false
  end.

(** The loop that inserts every identity into a hash set. *)
Fixpoint identities_distinct (names : gset QualifiedName) (sources : gset Z)
    (tables : list SnapshotActivationTable) : bool :=
  match tables with
  | [] => true
  | table :: tables =>
      let names' := {[sat_target table]} ∪ names in
      if bool_decide (sat_target table ∈ names) || bool_decide (sat_shadow table ∈ names')
         || bool_decide (sat_source_relation_id table ∈ sources)
      then false
      else identities_distinct ({[sat_shadow table]} ∪ names') ({[sat_source_relation_id table]} ∪ sources) tables
  end.

Definition canonical_request (request : SnapshotActivationRequest)
    : result SnapshotTargetError SnapshotActivationRequest :=
  if (sar_snapshot_group_id request =? 0)%Z then Err InvalidSnapshotGroupId
  else if bool_decide (sar_tables request = []) || bool_decide (sar_initial_checkpoints request = [])
  then Err EmptyActivationGroup
  else if (pf_fencing_token (sar_fence request) <=? 0)%Z then Err (SnapshotCheckpoint InvalidFencingToken)
  else
    let? _ := database_generation (pf_topology_generation (sar_fence request)) in
    let? _ := try_map validate_table (sar_tables request) in
    let tables := merge_sort table_le (sar_tables request) in
    if equal_neighbours sat_target tables then Err DuplicateActivationIdentity
    else if negb (identities_distinct ∅ ∅ tables) then Err DuplicateActivationIdentity
    else
      let? _ := try_map (validate_checkpoint (sar_fence request)) (sar_initial_checkpoints request) in
      let checkpoints :=
        sort_by_key (fun c => ck_node_id (nc_key c)) (sar_initial_checkpoints request) in
      if equal_neighbours (fun c => ck_node_id (nc_key c)) checkpoints then Err DuplicateActivationIdentity
      else
        Ok (mkSnapshotActivationRequest (sar_fence request) (sar_snapshot_group_id request) tables checkpoints).

(** ** The checksum *)

(** [to_be_bytes] of a [width]-byte integer. *)
Fixpoint be_bytes (width : nat) (n : Z) : bytes :=
  match width with
  | O => []
  | S width => be_bytes width (Z.div n 256) ++ [default x00 (Byte.of_N (Z.to_N (Z.modulo n 256)))]
  end.

(** [hash_field]: what is fed to the hasher for one field. *)
Definition hash_field (value : bytes) : bytes := be_bytes 8 (len value) ++ value.

Definition table_fields (table : SnapshotActivationTable) : list bytes :=
  [bytes_of_string (qn_schema (sat_target table)); bytes_of_string (qn_name (sat_target table));
   bytes_of_string (qn_schema (sat_shadow table)); bytes_of_string (qn_name (sat_shadow table));
   be_bytes 4 (sat_source_relation_id table); be_bytes 8 (sat_table_generation table);
   bytes_of_string (sat_schema_fingerprint table)].

Definition checkpoint_fields (checkpoint : NodeCheckpoint) : list bytes :=
  [be_bytes 4 (ck_node_id (nc_key checkpoint)); be_bytes 8 (nc_system_identifier checkpoint);
   be_bytes 4 (nc_timeline checkpoint); bytes_of_string (nc_slot_name checkpoint);
   be_bytes 8 (nc_applied_lsn checkpoint)].

Definition manifest_fields (request : SnapshotActivationRequest) : list bytes :=
  [bytes_of_string "pg2cb-snapshot-manifest-v1"; be_bytes 16 (sar_snapshot_group_id request);
   be_bytes 16 (pf_pipeline_id (sar_fence request));
   be_bytes 8 (pf_topology_generation (sar_fence request))]
  ++ concat (map table_fields (sar_tables request))
  ++ concat (map checkpoint_fields (sar_initial_checkpoints request)).

Section manifest.
Context (sha256 : bytes -> bytes) (text_order : list GroupTableRow -> list GroupTableRow).

Definition manifest_checksum (request : SnapshotActivationRequest) : bytes :=
  sha256 (concat (map hash_field (manifest_fields request))).

(** ** Registration *)

Definition i64_of_count (group : Z) (count : Z) : result SnapshotTargetError Z :=
  if (count <=? i64_max)%Z then Ok count else Err (CorruptSnapshotGroupManifest group).

Definition group_table_row (table : SnapshotActivationTable) : result SnapshotTargetError GroupTableRow :=
  let? generation := database_generation (sat_table_generation table) in
  Ok (mkGroupTableRow (sat_target table) (sat_shadow table) (sat_source_relation_id table) generation
        (sat_schema_fingerprint table)).

Definition group_node_row (checkpoint : NodeCheckpoint) : GroupNodeRow :=
  mkGroupNodeRow (ck_node_id (nc_key checkpoint)) (pretty (nc_system_identifier checkpoint))
    (nc_timeline checkpoint) (nc_slot_name checkpoint) (Lsn.to_string (nc_applied_lsn checkpoint)).

(** The constraints of the three tables. *)
Definition group_row_ok (row : GroupRow) : bool :=
  (0 <=? gr_topology_generation row)%Z && (0 <? gr_fencing_token row)%Z
  && bool_decide (gr_state row ∈ ["loading"; "active"])
  && (0 <? gr_table_count row)%Z && (0 <? gr_node_count row)%Z
  && (len (gr_manifest_checksum row) =? 32)%Z.
Definition group_table_rows_ok (rows : list GroupTableRow) : bool :=
  bool_decide (NoDup (map gt_target rows)) && bool_decide (NoDup (map gt_shadow rows))
  && bool_decide (NoDup (map gt_source_relation_id rows))
  && forallb (fun r => (0 <? gt_source_relation_id r)%Z && (0 <=? gt_table_generation r)%Z
                       && negb (bool_decide (gt_schema_fingerprint r = EmptyString))) rows.
Definition group_node_rows_ok (rows : list GroupNodeRow) : bool :=
  bool_decide (NoDup (map gn_node_id rows))
  && forallb (fun r => (0 <? gn_timeline r)%Z && (gn_timeline r <=? u32_max)%Z
                       && negb (bool_decide (gn_slot_name r = EmptyString))) rows.

Definition insert_snapshot_group (request : SnapshotActivationRequest) (db : TargetDb)
    : result SnapshotTargetError TargetDb :=
  let group := sar_snapshot_group_id request in
  let? topology_generation := database_generation (pf_topology_generation (sar_fence request)) in
  let? table_count := i64_of_count group (len (sar_tables request)) in
  let? node_count := i64_of_count group (len (sar_initial_checkpoints request)) in
  let row := mkGroupRow (pf_pipeline_id (sar_fence request)) topology_generation
               (pf_fencing_token (sar_fence request)) "loading" table_count node_count
               (manifest_checksum request) in
  if negb (group_row_ok row && negb (bool_decide (is_Some (sd_groups db !! group)))) then Err (SnapshotDatabase "new group row violates a constraint") else
  let? tables := try_map group_table_row (sar_tables request) in
  let stored := default [] (sd_group_tables db !! group) ++ tables in
  if negb (group_table_rows_ok stored) then Err (SnapshotDatabase "new table row violates a constraint") else
  let nodes := map group_node_row (sar_initial_checkpoints request) in
  let stored_nodes := default [] (sd_group_nodes db !! group) ++ nodes in
  if negb (group_node_rows_ok stored_nodes) then Err (SnapshotDatabase "new node row violates a constraint") else
  Ok (with_groups (<[group := row]>) (<[group := stored]>) (<[group := stored_nodes]>) db).

Definition persisted_u64 (raw group : Z) : result SnapshotTargetError Z :=
  if (0 <=? raw)%Z then Ok raw else Err (CorruptSnapshotGroupManifest group).
Definition persisted_u32 (raw group : Z) : result SnapshotTargetError Z :=
  if (0 <=? raw)%Z && (raw <=? u32_max)%Z then Ok raw else Err (CorruptSnapshotGroupManifest group).
Definition persisted_count (raw group : Z) : result SnapshotTargetError Z :=
  if (0 <? raw)%Z then Ok raw else Err (CorruptSnapshotGroupManifest group).

Definition table_from_row (group : Z) (row : GroupTableRow) : result SnapshotTargetError SnapshotActivationTable :=
  let? source_relation_id := persisted_u32 (gt_source_relation_id row) group in
  let? table_generation := persisted_u64 (gt_table_generation row) group in
  let? target := qualified_name (qn_schema (gt_target row)) (qn_name (gt_target row)) in
  let? shadow := qualified_name (qn_schema (gt_shadow row)) (qn_name (gt_shadow row)) in
  Ok (mkSnapshotActivationTable target shadow source_relation_id table_generation (gt_schema_fingerprint row)).

Definition checkpoint_from_row (group pipeline_id topology_generation : Z) (row : GroupNodeRow)
    : result SnapshotTargetError NodeCheckpoint :=
  let? system_identifier :=
    ok_or (parse_uint u64_max (gn_system_identifier row)) (CorruptSnapshotGroupManifest group) in
  let? timeline := persisted_u32 (gn_timeline row) group in
  let? applied_lsn :=
    map_err (fun _ => CorruptSnapshotGroupManifest group) (Lsn.from_str (gn_consistent_lsn row)) in
  Ok (mkNodeCheckpoint (mkCheckpointKey pipeline_id topology_generation (gn_node_id row))
        system_identifier timeline (gn_slot_name row) applied_lsn).

Definition load_snapshot_group_optional (db : TargetDb) (group : Z)
    : result SnapshotTargetError (option StoredSnapshotGroup) :=
  if (group =? 0)%Z then Err InvalidSnapshotGroupId
  else
    match sd_groups db !! group with
    | None => Ok None
    | Some row =>
        let? topology_generation := persisted_u64 (gr_topology_generation row) group in
        let? state := SnapshotGroupState_parse group (gr_state row) in
        let? table_count := persisted_count (gr_table_count row) group in
        let? node_count := persisted_count (gr_node_count row) group in
        let checksum := gr_manifest_checksum row in
        if (gr_fencing_token row <=? 0)%Z || negb (len checksum =? 32)%Z
        then Err (CorruptSnapshotGroupManifest group)
        else
          let table_rows := text_order (default [] (sd_group_tables db !! group)) in
          if negb (len table_rows =? table_count)%Z then Err (CorruptSnapshotGroupManifest group)
          else
            let? tables := try_map (table_from_row group) table_rows in
            let node_rows := sort_by_key gn_node_id (default [] (sd_group_nodes db !! group)) in
            if negb (len node_rows =? node_count)%Z then Err (CorruptSnapshotGroupManifest group)
            else
              let? checkpoints :=
                try_map (checkpoint_from_row group (gr_pipeline_id row) topology_generation) node_rows in
              let reconstructed :=
                mkSnapshotActivationRequest
                  (mkPipelineFence (gr_pipeline_id row) topology_generation (gr_fencing_token row))
                  group tables checkpoints in
              let? canonical :=
                map_err (fun _ => CorruptSnapshotGroupManifest group) (canonical_request reconstructed) in
              if bool_decide (canonical <> reconstructed)
                 || bool_decide (manifest_checksum canonical <> checksum)
              then Err (CorruptSnapshotGroupManifest group)
              else Ok (Some (mkStoredSnapshotGroup state canonical))
    end.

Definition load_snapshot_group (db : TargetDb) (group : Z) : result SnapshotTargetError StoredSnapshotGroup :=
  let? stored := load_snapshot_group_optional db group in
  ok_or stored (SnapshotGroupNotRegistered group).

(** [begin_snapshot_group]: on an error the transaction is rolled back. *)
Definition begin_snapshot_group (request : SnapshotActivationRequest) (db : TargetDb)
    : result SnapshotTargetError (SnapshotGroupRegistrationDisposition * TargetDb) :=
  let? canonical := canonical_request request in
  let? _ := checkpoint_err (lock_pipeline_fence (sd_meta db) (sar_fence canonical)) in
  let? stored := load_snapshot_group_optional db (sar_snapshot_group_id canonical) in
  match stored with
  | Some stored =>
      if bool_decide (sg_request stored <> canonical)
      then Err (SnapshotGroupManifestMismatch (sar_snapshot_group_id request))
      else
        Ok (match sg_state stored with GroupLoading => AlreadyRegistered | GroupActive => AlreadyActive end, db)
  | None =>
      let? db := insert_snapshot_group canonical db in
      Ok (Registered, db)
  end.

Definition validate_exact_request (stored : StoredSnapshotGroup) (request : SnapshotActivationRequest)
    : result SnapshotTargetError SnapshotActivationRequest :=
  let? canonical := canonical_request request in
  if bool_decide (sg_request stored = canonical) then Ok canonical
  else Err (SnapshotGroupManifestMismatch (sar_snapshot_group_id request)).

Definition validate_apply_membership (stored : StoredSnapshotGroup) (plan : SnapshotTargetPlan)
    (ownership : SnapshotOwnership) : result SnapshotTargetError unit :=
  let request := sg_request stored in
  let group := so_snapshot_group_id ownership in
  if negb (sar_snapshot_group_id request =? group)%Z
     || bool_decide (sar_fence request <> so_fence ownership)
  then Err (SnapshotGroupManifestMismatch group)
  else
    let expected := activation_table plan (so_schema_fingerprint ownership) in
    match List.find (fun table => bool_decide (sat_target table = stp_target plan)) (sar_tables request) with
    | None => Err (SnapshotTableNotInManifest group (QualifiedName_to_string (stp_target plan)))
    | Some table =>
        if bool_decide (table <> expected)
        then Err (SnapshotTableManifestMismatch group (QualifiedName_to_string (stp_target plan)))
        else Ok tt
    end.

Definition mark_snapshot_group_active (group : Z) (db : TargetDb) : result SnapshotTargetError TargetDb :=
  match sd_groups db !! group with
  | Some row =>
      if bool_decide (gr_state row = "loading")
      then
        let row := mkGroupRow (gr_pipeline_id row) (gr_topology_generation row) (gr_fencing_token row)
                     "active" (gr_table_count row) (gr_node_count row) (gr_manifest_checksum row) in
        Ok (with_groups (<[group := row]>) id id db)
      else Err (UnexpectedMetadataWriteCount 0)
  | None => Err (UnexpectedMetadataWriteCount 0)
  end.
End manifest.

(** ** Lemmas: orders *)

Global Instance name_le_trans : Transitive name_le.
Proof.
  intros p q r [H1 H2] [H3 H4]. split; [by etrans|]. intros He.
  assert (qn_schema p = qn_schema q) as E1.
  { apply (anti_symm String.le); [done|]. by rewrite He. }
  assert (qn_schema q = qn_schema r) as E2 by congruence. etrans; [by apply H2|by apply H4].
Qed.
Global Instance name_le_antisym : AntiSymm (=) name_le.
Proof.
  intros [s n] [s' n'] [H1 H2] [H3 H4]. cbn in *.
  assert (s = s') as -> by by apply (anti_symm String.le).
  f_equal. apply (anti_symm String.le); auto.
Qed.
Global Instance name_le_total : Total name_le.
Proof.
  intros [s n] [s' n']. unfold name_le. cbn. destruct (decide (s = s')) as [->|Hne].
  - destruct (total String.le n n'); [left|right]; done.
  - destruct (total String.le s s'); [left|right]; split; try done; intros; by subst.
Qed.
Global Instance table_le_trans : Transitive table_le.
Proof. intros a b c. apply name_le_trans. Qed.
Global Instance table_le_total : Total table_le.
Proof. intros a b. apply name_le_total. Qed.

(** Lists of tables with distinct targets have one sorted order. *)
Lemma tables_sorted_unique l k :
  NoDup (map sat_target l) -> Sorted table_le l -> Sorted table_le k -> l ≡ₚ k -> l = k.
Proof.
  intros Hnd Hl Hk Hp. eapply (Sorted_unique_strong table_le); [|done..].
  intros a b Ha Hb Hab Hba. rewrite <- Hp in Hb.
  assert (sat_target a = sat_target b) as He by by apply (anti_symm name_le).
  apply list_elem_of_lookup in Ha as [i Hi]. apply list_elem_of_lookup in Hb as [j Hj].
  assert (i = j) as ->; [|congruence].
  eapply NoDup_lookup; [exact Hnd|by rewrite list_lookup_fmap, Hi|by rewrite list_lookup_fmap, Hj, He].
Qed.

Lemma equal_neighbours_NoDup {A B} `{EqDecision B} (key : A -> B) l :
  NoDup (map key l) -> equal_neighbours key l = false.
Proof.
  induction l as [|a [|b l] IH]; intros Hnd; [done..|].
  change (bool_decide (key a = key b) || equal_neighbours key (b :: l) = false).
  apply NoDup_cons in Hnd as [Ha Hnd]. rewrite IH by done.
  rewrite bool_decide_false; [done|]. intros He. apply Ha. rewrite He. left.
Qed.

(** In key order without equal neighbours, all keys are distinct. *)
Lemma sorted_NoDup {A} (key : A -> Z) l :
  Sorted (key_le key) l -> equal_neighbours key l = false -> NoDup (map key l).
Proof.
  intros Hs He. assert (Hlt : StronglySorted Z.lt (map key l)).
  { apply Sorted_StronglySorted; [intros ???; lia|].
    induction Hs as [|a l Hs IH Hhd]; [constructor|]. cbn in *. destruct l as [|b l].
    - repeat constructor.
    - apply orb_false_iff in He as [Hne He]. apply bool_decide_eq_false in Hne.
      constructor; [by apply IH|]. constructor. inversion Hhd as [|? ? Hle]; subst. unfold key_le in Hle. lia. }
  induction Hlt as [|a k Hk IH Hall]; [constructor|]. constructor; [|done].
  intros Hin. rewrite Forall_forall in Hall. specialize (Hall a Hin). lia.
Qed.

(** ** Lemmas: canonical requests *)

Definition identities (tables : list SnapshotActivationTable) : list QualifiedName :=
  concat (map (fun t => [sat_target t; sat_shadow t]) tables).

Lemma identities_distinct_spec names sources tables :
  identities_distinct names sources tables = true <->
  NoDup (identities tables) /\ (forall n, n ∈ identities tables -> n ∉ names) /\
  NoDup (map sat_source_relation_id tables) /\
  (forall t, t ∈ tables -> sat_source_relation_id t ∉ sources).
Proof.
  revert names sources. induction tables as [|t tables IH]; intros names sources; cbn [identities_distinct].
  { split; [|done]. intros _. split_and!; try constructor; intros ? ?%elem_of_nil; done. }
  destruct (_ || _ || _) eqn:Hc.
  - split; [done|]. intros (Hnd & Hn & Hs & Ht). exfalso. cbn in Hnd, Hn.
    apply NoDup_cons in Hnd as [Hts _]. rewrite !orb_true_iff, !bool_decide_eq_true in Hc.
    destruct Hc as [[Hc|Hc]|Hc].
    + apply (Hn (sat_target t)); [left|done].
    + apply elem_of_union in Hc as [Hc%elem_of_singleton|Hc]; [apply Hts; rewrite Hc; left|].
      apply (Hn (sat_shadow t)); [right; left|done].
    + apply (Ht t); [left|done].
  - rewrite !orb_false_iff, !bool_decide_eq_false in Hc. destruct Hc as [[H1 H2] H3].
    rewrite IH. clear IH. cbn. rewrite !NoDup_cons, !elem_of_cons.
    fold (identities tables). split.
    + intros (Hnd & Hn & Hs & Ht). split_and!; try done.
      * intros [He|Hin]; [set_solver|]. apply (Hn _ Hin). set_solver.
      * intros Hin. apply (Hn _ Hin). set_solver.
      * intros n [->|[->|Hin]%elem_of_cons]%elem_of_cons; [done|set_solver|]. specialize (Hn n Hin). set_solver.
      * intros (t' & He & Hin)%list_elem_of_fmap. apply (Ht t' Hin). rewrite He. set_solver.
      * intros t' [->|Hin]%elem_of_cons; [done|]. specialize (Ht t' Hin). set_solver.
    + intros ((Hts & Hsh & Hnd) & Hn & (Hsrc & Hs) & Ht). split_and!; try done.
      * intros n Hin. specialize (Hn n). set_solver.
      * intros t' Hin. specialize (Ht t' (list_elem_of_further _ _ _ Hin)).
        assert (sat_source_relation_id t' <> sat_source_relation_id t).
        { intros He. apply Hsrc. rewrite <- He. by apply list_elem_of_fmap_2. }
        set_solver.
Qed.

(** What a canonical request needs of its parts; none of it depends on their order. *)
Record request_ok (r : SnapshotActivationRequest) : Prop := {
  ro_group : sar_snapshot_group_id r <> 0%Z;
  ro_tables : sar_tables r <> [];
  ro_checkpoints : sar_initial_checkpoints r <> [];
  ro_token : (0 < pf_fencing_token (sar_fence r))%Z;
  ro_generation : (pf_topology_generation (sar_fence r) <= i64_max)%Z;
  ro_valid_tables : Forall (fun t => validate_table t = Ok tt) (sar_tables r);
  ro_identities : NoDup (identities (sar_tables r));
  ro_sources : NoDup (map sat_source_relation_id (sar_tables r));
  ro_valid_checkpoints : Forall (fun c => validate_checkpoint (sar_fence r) c = Ok tt) (sar_initial_checkpoints r);
  ro_nodes : NoDup (map (fun c => ck_node_id (nc_key c)) (sar_initial_checkpoints r));
}.

Definition canonical_of (r : SnapshotActivationRequest) : SnapshotActivationRequest :=
  mkSnapshotActivationRequest (sar_fence r) (sar_snapshot_group_id r) (merge_sort table_le (sar_tables r))
    (sort_by_key (fun c => ck_node_id (nc_key c)) (sar_initial_checkpoints r)).

Lemma identities_perm l k : l ≡ₚ k -> identities l ≡ₚ identities k.
Proof. intros H. unfold identities. induction H; cbn; [done|by do 2 f_equiv|solve_Permutation|by etrans]. Qed.

Lemma identities_targets l : NoDup (identities l) -> NoDup (map sat_target l).
Proof.
  induction l as [|t l IH]; cbn; [constructor|].
  intros [Ht [_ Hnd]%NoDup_cons]%NoDup_cons. constructor; [|by apply IH].
  intros (t' & He & Hin)%list_elem_of_fmap. apply Ht. right. rewrite He.
  apply list_elem_of_In, in_concat. exists [sat_target t'; sat_shadow t'].
  split; [|by left]. apply in_map_iff. exists t'. split; [done|]. by apply list_elem_of_In.
Qed.

Lemma try_map_unit {E A} (f : A -> result E unit) l :
  (exists k, try_map f l = Ok k) <-> Forall (fun x => f x = Ok tt) l.
Proof.
  split.
  - intros [k H%try_map_Ok]. induction H as [|x u l k Hx _ IH]; constructor; [by destruct u|done].
  - intros H. apply try_map_all_Ok. rewrite Forall_forall in H. eauto.
Qed.

Lemma canonical_request_Ok r c : canonical_request r = Ok c <-> request_ok r /\ c = canonical_of r.
Proof.
  unfold canonical_request. split.
  - intros H. destruct (Z.eqb_spec (sar_snapshot_group_id r) 0); [done|].
    case_bool_decide as Ht; [done|]. case_bool_decide as Hn; [done|]. cbn in H.
    destruct (Z.leb_spec (pf_fencing_token (sar_fence r)) 0); [done|].
    apply bind_Ok in H as (g & Hg & H). apply bind_Ok in H as (ts & Hts & H).
    destruct (equal_neighbours sat_target _); [done|].
    destruct (identities_distinct ∅ ∅ _) eqn:Hid; [|done]. cbn in H.
    apply bind_Ok in H as (cs & Hcs & H). destruct (equal_neighbours _ _) eqn:Hen; [done|].
    injection H as <-. split; [|done]. apply identities_distinct_spec in Hid as (Hid & _ & Hsrc & _).
    rewrite (identities_perm _ _ (merge_sort_Permutation table_le _)) in Hid.
    rewrite (merge_sort_Permutation table_le) in Hsrc.
    apply sorted_NoDup in Hen; [|apply sort_by_key_sorted]. rewrite sort_by_key_perm in Hen.
    split; try done.
    + unfold database_generation in Hg. destruct (Z.leb_spec (pf_topology_generation (sar_fence r)) i64_max); done.
    + apply try_map_unit. by exists ts.
    + apply try_map_unit. by exists cs.
  - intros ([Hg Ht Hn Htok Hgen Hvt Hid Hsrc Hvc Hnodes] & ->).
    rewrite (proj2 (Z.eqb_neq _ _)) by done. rewrite !bool_decide_false by done. cbn [orb].
    rewrite (proj2 (Z.leb_gt _ _)) by done. unfold database_generation.
    rewrite (proj2 (Z.leb_le _ _)) by done. cbn [mbind result_bind].
    apply try_map_unit in Hvt as [ts ->]. cbn [mbind result_bind].
    rewrite equal_neighbours_NoDup by
      (rewrite merge_sort_Permutation; by apply identities_targets).
    replace (identities_distinct ∅ ∅ _) with true.
    2: { symmetry. apply identities_distinct_spec. split_and!; [|set_solver| |set_solver].
         - by rewrite (identities_perm _ _ (merge_sort_Permutation table_le _)).
         - by rewrite (merge_sort_Permutation table_le). }
    cbn [negb]. apply try_map_unit in Hvc as [cs ->]. cbn [mbind result_bind].
    by rewrite equal_neighbours_NoDup by (by rewrite sort_by_key_perm).
Qed.

(** Requests with the same parts in another order. *)
Record reordered (r s : SnapshotActivationRequest) : Prop := {
  re_fence : sar_fence r = sar_fence s;
  re_group : sar_snapshot_group_id r = sar_snapshot_group_id s;
  re_tables : sar_tables r ≡ₚ sar_tables s;
  re_checkpoints : sar_initial_checkpoints r ≡ₚ sar_initial_checkpoints s;
}.

Lemma reordered_canonical_of r : reordered (canonical_of r) r.
Proof. split; cbn; [done..|apply merge_sort_Permutation|apply sort_by_key_perm]. Qed.

Lemma request_ok_reordered r s : reordered r s -> request_ok r -> request_ok s.
Proof.
  intros [Hf Hg Ht Hc] [H1 H2 H3 H4 H5 H6 H7 H8 H9 H10]. rewrite Hf, Hg in *. split; try done.
  - intros He. rewrite He in Ht. by apply Permutation_nil_r in Ht.
  - intros He. rewrite He in Hc. by apply Permutation_nil_r in Hc.
  - by rewrite <- Ht.
  - by rewrite <- (identities_perm _ _ Ht).
  - by rewrite <- Ht.
  - by rewrite <- Hc.
  - by rewrite <- Hc.
Qed.

Global Instance key_le_trans {A} (key : A -> Z) : Transitive (key_le key).
Proof. intros a b c. unfold key_le. lia. Qed.

(** In key order with distinct keys there is one list. *)
Lemma sort_by_key_unique {A} (key : A -> Z) l k :
  NoDup (map key l) -> l ≡ₚ k -> sort_by_key key l = sort_by_key key k.
Proof.
  intros Hnd Hp. apply (Sorted_unique_strong (key_le key)).
  - intros a b Ha Hb Hab Hba. rewrite sort_by_key_perm in Ha, Hb. rewrite <- Hp in Hb.
    unfold key_le in *. apply list_elem_of_lookup in Ha as [i Hi]. apply list_elem_of_lookup in Hb as [j Hj].
    assert (i = j) as ->; [|congruence].
    eapply NoDup_lookup; [exact Hnd|by rewrite list_lookup_fmap, Hi|].
    rewrite list_lookup_fmap, Hj. cbn. f_equal. lia.
  - apply sort_by_key_sorted.
  - apply sort_by_key_sorted.
  - by rewrite !sort_by_key_perm.
Qed.

Lemma canonical_of_reordered r s : request_ok r -> reordered r s -> canonical_of r = canonical_of s.
Proof.
  intros Hok [Hf Hg Ht Hc]. unfold canonical_of. rewrite Hf, Hg. f_equal.
  - apply tables_sorted_unique; [|apply Sorted_merge_sort, _..|by rewrite !merge_sort_Permutation].
    rewrite merge_sort_Permutation. apply identities_targets, Hok.
  - apply sort_by_key_unique; [apply Hok|done].
Qed.

Lemma canonical_of_idemp r : request_ok r -> canonical_of (canonical_of r) = canonical_of r.
Proof. intros Hok. symmetry. apply canonical_of_reordered; [done|]. destruct (reordered_canonical_of r). split; by symmetry. Qed.

(** ** Lemmas: rows *)

(** The bounds a request has by its Rust types, and the validity of its names, which only
    [QualifiedName::new] makes. *)
Definition valid_name (n : QualifiedName) : Prop :=
  valid_identifier (qn_schema n) /\ valid_identifier (qn_name n).

Record table_typed (t : SnapshotActivationTable) : Prop := {
  tt_target_name : valid_name (sat_target t);
  tt_shadow_name : valid_name (sat_shadow t);
  tt_source : (0 <= sat_source_relation_id t <= u32_max)%Z;
  tt_generation : (0 <= sat_table_generation t)%Z;
}.

Record request_typed (r : SnapshotActivationRequest) : Prop := {
  rt_generation : (0 <= pf_topology_generation (sar_fence r))%Z;
  rt_tables : Forall table_typed (sar_tables r);
  rt_checkpoints : Forall typed (sar_initial_checkpoints r);
}.

Definition row_of_table (t : SnapshotActivationTable) : GroupTableRow :=
  mkGroupTableRow (sat_target t) (sat_shadow t) (sat_source_relation_id t) (sat_table_generation t)
    (sat_schema_fingerprint t).

Lemma valid_name_new n : valid_name n -> qualified_name (qn_schema n) (qn_name n) = Ok n.
Proof.
  intros [Hs Hn]. unfold qualified_name, core_err, QualifiedName_new.
  rewrite (proj2 (validate_identifier_Ok _)) by done. rewrite (proj2 (validate_identifier_Ok _)) by done.
  by destruct n.
Qed.

Lemma in_range_true (lo n hi : Z) : (lo <= n <= hi)%Z -> (lo <=? n)%Z && (n <=? hi)%Z = true.
Proof. intros. by rewrite !(proj2 (Z.leb_le _ _)) by lia. Qed.

Lemma table_round_trip group t : table_typed t -> table_from_row group (row_of_table t) = Ok t.
Proof.
  intros [Ht Hs Hi Hg]. unfold table_from_row, persisted_u32, persisted_u64. cbn.
  rewrite in_range_true by done. rewrite (proj2 (Z.leb_le _ _)) by done. cbn [mbind result_bind].
  rewrite !valid_name_new by done. by destruct t.
Qed.

Lemma node_round_trip group fence c :
  typed c -> validate_checkpoint fence c = Ok tt ->
  checkpoint_from_row group (pf_pipeline_id fence) (pf_topology_generation fence) (group_node_row c) = Ok c.
Proof.
  intros [Hg Hs Ht Hl] Hv. unfold checkpoint_from_row. cbn.
  rewrite parse_uint_pretty by done. cbn [ok_or mbind result_bind]. unfold persisted_u32.
  rewrite in_range_true by done. cbn [mbind result_bind]. rewrite Lsn.from_str_to_string by done. cbn.
  unfold validate_checkpoint in Hv. destruct (negb (_ =? _)%Z || _) eqn:Hc; [done|].
  apply orb_false_iff in Hc as [Hp%negb_false_iff%Z.eqb_eq Hk%negb_false_iff%Z.eqb_eq].
  rewrite <- Hp, <- Hk, key_eta. by destruct c.
Qed.

Lemma try_map_round_trip {E A B} (f : A -> B) (g : B -> result E A) l :
  Forall (fun x => g (f x) = Ok x) l -> try_map g (map f l) = Ok l.
Proof. intros H. apply try_map_Ok. induction H; cbn; constructor; done. Qed.

Section manifests.
Context (sha256 : bytes -> bytes) (text_order : list GroupTableRow -> list GroupTableRow).
Hypothesis Hsha : forall b, length (sha256 b) = 32%nat.
Hypothesis Horder : forall l, text_order l ≡ₚ l.

Definition state_name (state : SnapshotGroupState) : string :=
  match state with GroupLoading => "loading" | GroupActive => "active" end.

(** The rows of a canonical request. *)
Record stored_group (db : TargetDb) (state : SnapshotGroupState) (c : SnapshotActivationRequest) : Prop := {
  st_group : sd_groups db !! sar_snapshot_group_id c =
    Some (mkGroupRow (pf_pipeline_id (sar_fence c)) (pf_topology_generation (sar_fence c))
            (pf_fencing_token (sar_fence c)) (state_name state) (len (sar_tables c))
            (len (sar_initial_checkpoints c)) (manifest_checksum sha256 c));
  st_tables : sd_group_tables db !! sar_snapshot_group_id c = Some (map row_of_table (sar_tables c));
  st_nodes : sd_group_nodes db !! sar_snapshot_group_id c = Some (map group_node_row (sar_initial_checkpoints c));
}.

(** The server returns the tables of the group in the order of their bytes. *)
Definition byte_ordered (db : TargetDb) (group : Z) : Prop :=
  Sorted name_le (map gt_target (text_order (default [] (sd_group_tables db !! group)))).

Lemma Sorted_map {A B} (R : B -> B -> Prop) (f : A -> B) l :
  Sorted R (map f l) <-> Sorted (fun a b => R (f a) (f b)) l.
Proof.
  induction l as [|a l IH]; [split; constructor|]. split; intros H; inversion H as [|? ? Hs Hh]; subst;
    (constructor; [by apply IH|]); destruct l; inversion Hh; subst; by constructor.
Qed.

Lemma canonical_tables_sorted c : canonical_of c = c -> Sorted name_le (map sat_target (sar_tables c)).
Proof. intros <-. cbn. apply Sorted_map. apply (Sorted_merge_sort table_le). Qed.

Lemma canonical_nodes_sorted c :
  canonical_of c = c ->
  sort_by_key gn_node_id (map group_node_row (sar_initial_checkpoints c)) = map group_node_row (sar_initial_checkpoints c).
Proof.
  intros <-. cbn. apply sort_by_key_id, Sorted_map. apply sort_by_key_sorted.
Qed.

(** What the server returns for the tables of a stored group. *)
Lemma loaded_tables group c :
  Forall table_typed (sar_tables c) ->
  exists tables, text_order (map row_of_table (sar_tables c)) = map row_of_table tables /\
    tables ≡ₚ sar_tables c /\ try_map (table_from_row group) (map row_of_table tables) = Ok tables.
Proof.
  intros Ht. destruct (Permutation_map_inv _ _ (Horder (map row_of_table (sar_tables c)))) as (tables & E & Hp).
  exists tables. split_and!; [done|by symmetry|]. apply try_map_round_trip. rewrite <- Hp.
  eapply Forall_impl; [exact Ht|]. intros t. apply table_round_trip.
Qed.

(** The header of a stored group passes the checks of the loader. *)
Lemma loaded_canonical c tables :
  request_ok c -> canonical_of c = c -> tables ≡ₚ sar_tables c ->
  canonical_request
    (mkSnapshotActivationRequest (sar_fence c) (sar_snapshot_group_id c) tables (sar_initial_checkpoints c)) = Ok c.
Proof.
  intros Hok Hcan Hp. set (r := mkSnapshotActivationRequest _ _ _ _).
  assert (Hre : reordered c r) by (split; [done..|by symmetry|done]).
  apply canonical_request_Ok. split; [by eapply request_ok_reordered|].
  rewrite <- (canonical_of_reordered c r); done.
Qed.

(** Loading a stored group gives its request, or reports a corrupt manifest when the database
    orders the names of its tables in another way than by their bytes. *)
Lemma load_stored db state c :
  stored_group db state c -> request_ok c -> canonical_of c = c -> request_typed c ->
  load_snapshot_group_optional sha256 text_order db (sar_snapshot_group_id c) =
  if bool_decide (byte_ordered db (sar_snapshot_group_id c))
  then Ok (Some (mkStoredSnapshotGroup state c))
  else Err (CorruptSnapshotGroupManifest (sar_snapshot_group_id c)).
Proof.
  intros [Hg Ht Hn] Hok Hcan Htyped. unfold byte_ordered, load_snapshot_group_optional. rewrite Hg, Ht, Hn.
  destruct (loaded_tables (sar_snapshot_group_id c) c) as (tables & E & Hp & Hmap); [apply Htyped|].
  pose proof (loaded_canonical c tables Hok Hcan Hp) as Hcr.
  cbn [from_option id gr_topology_generation gr_state gr_table_count gr_node_count gr_manifest_checksum
    gr_fencing_token gr_pipeline_id]. rewrite E, canonical_nodes_sorted by done.
  set (group := sar_snapshot_group_id c) in *. rewrite (proj2 (Z.eqb_neq group 0)) by apply Hok.
  assert (persisted_u64 (pf_topology_generation (sar_fence c)) group = Ok (pf_topology_generation (sar_fence c)))
    as -> by (unfold persisted_u64; by rewrite (proj2 (Z.leb_le _ _)) by apply Htyped).
  cbn [mbind result_bind].
  assert (SnapshotGroupState_parse group (state_name state) = Ok state) as -> by by destruct state.
  cbn [mbind result_bind]. unfold persisted_count.
  assert (Hpos : forall {A} (l : list A), l <> [] -> (0 <? len l)%Z = true).
  { intros A [|x l] H; [done|]. apply Z.ltb_lt. unfold len. cbn. lia. }
  rewrite !Hpos by apply Hok. cbn [mbind result_bind]. rewrite (proj2 (Z.leb_gt _ _)) by apply Hok.
  assert (len (manifest_checksum sha256 c) = 32)%Z as -> by (unfold len, manifest_checksum; by rewrite Hsha).
  cbn [orb negb Z.eqb Pos.eqb].
  assert (len (map row_of_table tables) = len (sar_tables c)) as ->
    by (unfold len; rewrite length_map; by rewrite (Permutation_length Hp)).
  assert (len (map group_node_row (sar_initial_checkpoints c)) = len (sar_initial_checkpoints c)) as ->
    by (unfold len; by rewrite length_map).
  rewrite !Z.eqb_refl. cbn [negb]. rewrite Hmap. cbn [mbind result_bind]. rewrite try_map_round_trip.
  2: { rewrite Forall_forall. intros n Hin. pose proof (ro_valid_checkpoints _ Hok) as Hv.
       pose proof (rt_checkpoints _ Htyped) as Hty. rewrite Forall_forall in Hv, Hty.
       apply node_round_trip; auto. }
  cbn [mbind result_bind]. assert (mkPipelineFence (pf_pipeline_id (sar_fence c))
    (pf_topology_generation (sar_fence c)) (pf_fencing_token (sar_fence c)) = sar_fence c) as ->
    by by destruct (sar_fence c).
  rewrite Hcr. cbn [map_err mbind result_bind]. rewrite map_map. cbn [gt_target row_of_table].
  destruct (decide (Sorted name_le (map sat_target tables))) as [Hs|Hs].
  - rewrite (bool_decide_true (Sorted _ _)) by done.
    assert (tables = sar_tables c) as ->.
    { apply tables_sorted_unique; [|by apply (Sorted_map name_le sat_target)|by apply (Sorted_map name_le sat_target), canonical_tables_sorted|done].
      rewrite Hp. apply identities_targets, Hok. }
    rewrite !bool_decide_false; [done| |]; intros Hx; apply Hx; [done|]. subst group. by destruct c.
  - rewrite (bool_decide_false (Sorted _ _)) by done. rewrite bool_decide_true; [done|].
    intros He. apply (f_equal sar_tables) in He. cbn in He. rewrite <- He in Hs.
    by apply Hs, canonical_tables_sorted.
Qed.

Lemma table_row_valid t :
  table_typed t -> validate_table t = Ok tt ->
  group_table_row t = Ok (row_of_table t) /\
  (0 <? sat_source_relation_id t)%Z && (0 <=? sat_table_generation t)%Z
  && negb (bool_decide (sat_schema_fingerprint t = EmptyString)) = true.
Proof.
  intros [_ _ Hi Hg] Hv. unfold validate_table in Hv. unfold group_table_row.
  destruct (bool_decide _); [done|]. destruct (bool_decide _); [done|].
  destruct (Z.eqb_spec (sat_source_relation_id t) 0); [done|].
  destruct (database_generation (sat_table_generation t)) as [g| |] eqn:E; [|done..]. cbn in Hv.
  unfold database_generation in E. destruct (_ <=? _)%Z; [|done]. injection E as <-. split; [done|].
  case_bool_decide; [done|]. rewrite (proj2 (Z.ltb_lt _ _)) by lia. by rewrite (proj2 (Z.leb_le _ _)).
Qed.

Lemma checkpoint_row_valid fence c :
  typed c -> validate_checkpoint fence c = Ok tt ->
  (0 <? nc_timeline c)%Z && (nc_timeline c <=? u32_max)%Z
  && negb (bool_decide (nc_slot_name c = EmptyString)) = true.
Proof.
  intros [_ _ Ht _] Hv. unfold validate_checkpoint in Hv. destruct (_ || _); [done|].
  destruct (_ =? _)%Z; [done|]. unfold checkpoint_reached in Hv.
  destruct (Checkpoint.validate_checkpoint c) as [u| |] eqn:E; [|done..].
  unfold Checkpoint.validate_checkpoint in E. apply bind_Ok in E as (g & _ & E).
  destruct (Z.eqb_spec (nc_timeline c) 0); [done|]. destruct (_ || _) eqn:Hs in E; [done|].
  rewrite (proj2 (Z.ltb_lt _ _)) by lia. rewrite (proj2 (Z.leb_le _ _)) by lia. cbn.
  case_bool_decide as He; [|done]. by rewrite He in Hs.
Qed.

(** The rows of a canonical request satisfy every constraint of their tables. *)
Lemma group_rows_valid c :
  request_ok c -> request_typed c ->
  try_map group_table_row (sar_tables c) = Ok (map row_of_table (sar_tables c)) /\
  group_table_rows_ok (map row_of_table (sar_tables c)) = true /\
  group_node_rows_ok (map group_node_row (sar_initial_checkpoints c)) = true.
Proof.
  intros [_ _ _ _ _ Hvt Hid Hsrc Hvc Hnodes] [_ Htt Htc].
  pose proof (proj1 (Forall_forall _ _) Hvt) as Hvt'. pose proof (proj1 (Forall_forall _ _) Htt) as Htt'.
  pose proof (proj1 (Forall_forall _ _) Hvc) as Hvc'. pose proof (proj1 (Forall_forall _ _) Htc) as Htc'.
  split_and!.
  - apply try_map_Ok. rewrite Forall2_fmap_r. apply Forall_Forall2_diag, Forall_forall. intros t Hin. cbn.
    by apply table_row_valid; auto.
  - unfold group_table_rows_ok. rewrite !map_map. cbn.
    rewrite !bool_decide_true; [|done| |by apply identities_targets].
    + cbn [andb]. apply forallb_forall. intros r Hr. apply in_map_iff in Hr as (t & <- & Hin).
      apply list_elem_of_In in Hin. by apply table_row_valid; auto.
    + clear -Hid. induction (sar_tables c) as [|t l IH]; cbn in *; [constructor|].
      apply NoDup_cons in Hid as [_ [Hs Hnd]%NoDup_cons]. constructor; [|by apply IH].
      intros (t' & He & Hin)%list_elem_of_fmap. apply Hs. rewrite He.
      apply list_elem_of_In, in_concat. exists [sat_target t'; sat_shadow t'].
      split; [|right; by left]. apply in_map_iff. exists t'. split; [done|]. by apply list_elem_of_In.
  - unfold group_node_rows_ok. rewrite map_map. cbn. rewrite bool_decide_true by done. cbn [andb].
    apply forallb_forall. intros r Hr. apply in_map_iff in Hr as (n & <- & Hin).
    apply list_elem_of_In in Hin. eapply checkpoint_row_valid; eauto.
Qed.

Lemma insert_snapshot_group_stored db c :
  request_ok c -> request_typed c ->
  (len (sar_tables c) <= i64_max)%Z -> (len (sar_initial_checkpoints c) <= i64_max)%Z ->
  sd_groups db !! sar_snapshot_group_id c = None -> sd_group_tables db !! sar_snapshot_group_id c = None ->
  sd_group_nodes db !! sar_snapshot_group_id c = None ->
  exists db', insert_snapshot_group sha256 c db = Ok db' /\ stored_group db' GroupLoading c /\
    sd_meta db' = sd_meta db /\
    forall g, g <> sar_snapshot_group_id c ->
      load_snapshot_group_optional sha256 text_order db' g = load_snapshot_group_optional sha256 text_order db g.
Proof.
  intros Hok Hty Hlt Hln Hg Ht Hn. destruct (group_rows_valid c Hok Hty) as (Hrows & Htr & Hnr).
  unfold insert_snapshot_group, database_generation, i64_of_count. rewrite Hg, Ht, Hn.
  rewrite !(proj2 (Z.leb_le _ _)) by (done || apply Hok). cbn [mbind result_bind].
  assert (group_row_ok (mkGroupRow (pf_pipeline_id (sar_fence c)) (pf_topology_generation (sar_fence c))
    (pf_fencing_token (sar_fence c)) "loading" (len (sar_tables c)) (len (sar_initial_checkpoints c))
    (manifest_checksum sha256 c)) = true) as ->.
  { unfold group_row_ok. cbn. rewrite (proj2 (Z.leb_le _ _)) by apply Hty.
    rewrite (proj2 (Z.ltb_lt 0 (pf_fencing_token _))) by apply Hok. cbn.
    assert (Hpos : forall {A} (l : list A), l <> [] -> (0 <? len l)%Z = true).
    { intros A [|x l] H; [done|]. apply Z.ltb_lt. unfold len. cbn. lia. }
    rewrite !Hpos by apply Hok. unfold len at 1, manifest_checksum. by rewrite Hsha. }
  rewrite bool_decide_false by (by intros [? ?]). cbn [negb andb]. rewrite Hrows. cbn [mbind result_bind from_option app].
  rewrite Htr, Hnr. cbn [negb]. eexists. split; [done|]. split.
  { split; cbn; by rewrite lookup_insert_eq. }
  split; [done|]. intros g Hne. unfold load_snapshot_group_optional. cbn. by rewrite !lookup_insert_ne.
Qed.

Lemma reordered_iff_canonical r s :
  request_ok r -> sar_fence r = sar_fence s -> sar_snapshot_group_id r = sar_snapshot_group_id s ->
  canonical_of r = canonical_of s <-> reordered r s.
Proof.
  intros Hok Hf Hg. split; [|by apply canonical_of_reordered]. intros He.
  destruct (reordered_canonical_of r) as [_ _ Ht Hc]. destruct (reordered_canonical_of s) as [_ _ Ht' Hc'].
  rewrite He in Ht, Hc. split; [done|done|by rewrite <- Ht|by rewrite <- Hc].
Qed.

Lemma request_typed_canonical r : request_typed r -> request_typed (canonical_of r).
Proof.
  intros [Hg Ht Hc]. split; cbn; [done|by rewrite merge_sort_Permutation|by rewrite sort_by_key_perm].
Qed.

(** A group that is stored answers every later registration. *)
Lemma begin_stored db c r state :
  stored_group db state c -> request_ok c -> canonical_of c = c -> request_typed c ->
  request_ok r -> sar_fence r = sar_fence c -> sar_snapshot_group_id r = sar_snapshot_group_id c ->
  lock_pipeline_fence (sd_meta db) (sar_fence c) = Ok tt ->
  begin_snapshot_group sha256 text_order r db =
  if bool_decide (byte_ordered db (sar_snapshot_group_id c))
  then
    if bool_decide (canonical_of r = c)
    then Ok (match state with GroupLoading => AlreadyRegistered | GroupActive => AlreadyActive end, db)
    else Err (SnapshotGroupManifestMismatch (sar_snapshot_group_id c))
  else Err (CorruptSnapshotGroupManifest (sar_snapshot_group_id c)).
Proof.
  intros Hst Hok Hcan Hty Hr Hf Hg Hlock. unfold begin_snapshot_group.
  rewrite (proj2 (canonical_request_Ok r _)) by done. cbn [mbind result_bind].
  change (sar_fence (canonical_of r)) with (sar_fence r).
  change (sar_snapshot_group_id (canonical_of r)) with (sar_snapshot_group_id r).
  rewrite Hf, Hg, Hlock. cbn [mbind result_bind checkpoint_err map_err].
  rewrite (load_stored db state c) by done. case_bool_decide; [|done]. cbn.
  destruct (decide (c = canonical_of r)) as [He|Hne].
  - rewrite bool_decide_false by (intros Hx; by apply Hx). by rewrite bool_decide_true.
  - rewrite bool_decide_true by done. by rewrite bool_decide_false by congruence.
Qed.

(** C34: the current owner of a pipeline registers any valid request under a new group.  When the
    database orders names by their bytes, the canonical request is what is loaded afterwards,
    registering the same request again in any order changes nothing, and any other request for
    the group is rejected; otherwise a group whose names it orders differently is reported
    corrupt from then on.  Other groups are not affected. *)
Theorem registered_manifest_is_loaded (db : TargetDb) (request canonical : SnapshotActivationRequest) :
  let group := sar_snapshot_group_id request in
  canonical_request request = Ok canonical -> request_typed request ->
  lock_pipeline_fence (sd_meta db) (sar_fence request) = Ok tt ->
  sd_groups db !! group = None -> sd_group_tables db !! group = None -> sd_group_nodes db !! group = None ->
  (len (sar_tables request) <= i64_max)%Z -> (len (sar_initial_checkpoints request) <= i64_max)%Z ->
  exists db', begin_snapshot_group sha256 text_order request db = Ok (Registered, db') /\
    load_snapshot_group sha256 text_order db' group =
      (if bool_decide (byte_ordered db' group) then Ok (mkStoredSnapshotGroup GroupLoading canonical)
       else Err (CorruptSnapshotGroupManifest group)) /\
    (forall r, reordered r request ->
       begin_snapshot_group sha256 text_order r db' =
       if bool_decide (byte_ordered db' group) then Ok (AlreadyRegistered, db')
       else Err (CorruptSnapshotGroupManifest group)) /\
    (forall r c, canonical_request r = Ok c -> sar_fence r = sar_fence request ->
       sar_snapshot_group_id r = group -> ~ reordered r request -> byte_ordered db' group ->
       begin_snapshot_group sha256 text_order r db' = Err (SnapshotGroupManifestMismatch group)) /\
    (forall g, g <> group ->
       load_snapshot_group_optional sha256 text_order db' g = load_snapshot_group_optional sha256 text_order db g).
Proof.
  intros group Hc Hty Hlock Hg Ht Hn Hlt Hln. apply canonical_request_Ok in Hc as [Hok ->].
  set (c := canonical_of request) in *.
  assert (Hokc : request_ok c).
  { eapply request_ok_reordered; [|exact Hok]. destruct (reordered_canonical_of request). split; by symmetry. }
  assert (Hcan : canonical_of c = c) by by apply canonical_of_idemp.
  assert (Htyc : request_typed c) by by apply request_typed_canonical.
  destruct (insert_snapshot_group_stored db c) as (db' & Hins & Hst & Hmeta & Hothers); try done.
  { unfold len, c. cbn. by rewrite merge_sort_Permutation. }
  { unfold len, c. cbn. by rewrite sort_by_key_perm. }
  assert (Hlock' : lock_pipeline_fence (sd_meta db') (sar_fence c) = Ok tt) by by rewrite Hmeta.
  exists db'. split_and!.
  - unfold begin_snapshot_group. rewrite (proj2 (canonical_request_Ok request c)) by done.
    cbn [mbind result_bind]. change (sar_fence c) with (sar_fence request). rewrite Hlock. cbn.
    change (sar_snapshot_group_id request) with group. unfold load_snapshot_group_optional. rewrite Hg.
    rewrite (proj2 (Z.eqb_neq group 0)) by apply Hok. cbn. by rewrite Hins.
  - unfold load_snapshot_group. change group with (sar_snapshot_group_id c).
    rewrite (load_stored db' GroupLoading c) by done. by case_bool_decide.
  - intros r Hre. assert (Hokr : request_ok r).
    { eapply request_ok_reordered; [|exact Hok]. destruct Hre. split; by symmetry. }
    rewrite (begin_stored db' c r GroupLoading) by (done || apply Hre).
    change (sar_snapshot_group_id c) with group. case_bool_decide; [|done].
    rewrite bool_decide_true; [done|]. by apply canonical_of_reordered.
  - intros r c' [Hokr _]%canonical_request_Ok Hf Hgr Hre Hord.
    rewrite (begin_stored db' c r GroupLoading) by done. change (sar_snapshot_group_id c) with group.
    rewrite bool_decide_true by done. rewrite bool_decide_false; [done|].
    intros He%reordered_iff_canonical; done.
  - done.
Qed.
End manifests.

(** ** Examples *)

Definition example_fence : PipelineFence := mkPipelineFence 5 1 3.
Definition example_table (name : string) (id : Z) : SnapshotActivationTable :=
  mkSnapshotActivationTable (mkQualifiedName "sales" name) (mkQualifiedName "sales" ("pg2cb_s_" +:+ name))
    id 1 "sha256:x".
Definition example_checkpoint : NodeCheckpoint :=
  mkNodeCheckpoint (mkCheckpointKey 5 1 0) 99 1 "pg2cb_slot" 256.
Definition example_group (names : list string) : SnapshotActivationRequest :=
  mkSnapshotActivationRequest example_fence 77
    (imap (fun i name => example_table name (Z.of_nat i + 1)%Z) names) [example_checkpoint].
Definition empty_target : TargetDb :=
  mkTargetDb (mkMeta {[5%Z := mkFenceRow 1 3]} ∅) {["sales"]} ∅ ∅ 16384 ∅ ∅ ∅ ∅ ∅ ∅.
Notation example_sha := (fun _ : bytes => replicate 32 x61).
(** A database that orders names by their bytes, and one that ignores the case of a letter. *)
Definition by_bytes : list GroupTableRow -> list GroupTableRow :=
  merge_sort (fun a b => name_le (gt_target a) (gt_target b)).
Definition lower (c : ascii) : ascii :=
  let n := N_of_ascii c in if ((65 <=? n) && (n <=? 90))%N then ascii_of_N (n + 32) else c.
Fixpoint lower_string (s : string) : string :=
  match s with EmptyString => EmptyString | String c s => String (lower c) (lower_string s) end.
Definition by_letters : list GroupTableRow -> list GroupTableRow :=
  merge_sort (fun a b => String.le (lower_string (qn_name (gt_target a))) (lower_string (qn_name (gt_target b)))).

Lemma example_table_typed name id :
  valid_identifier name -> valid_identifier ("pg2cb_s_" +:+ name) -> (0 <= id <= u32_max)%Z ->
  table_typed (example_table name id).
Proof. intros Hn Hs Hi. split; cbn; [split|split|done|done]; try done; by apply validate_identifier_Ok. Qed.

Lemma example_group_typed : request_typed (example_group ["orders"; "Items"]).
Proof.
  split; [done| |].
  - repeat (apply Forall_cons; split); [..|apply Forall_nil; done]; apply example_table_typed;
      (by apply validate_identifier_Ok) || done.
  - apply Forall_cons. split; [|apply Forall_nil; done]. split; done.
Qed.

Lemma registered_manifest_is_loaded_witness :
  exists db', begin_snapshot_group example_sha by_bytes (example_group ["orders"; "Items"]) empty_target =
    Ok (Registered, db') /\
    load_snapshot_group example_sha by_bytes db' 77 =
      Ok (mkStoredSnapshotGroup GroupLoading (canonical_of (example_group ["orders"; "Items"]))).
Proof.
  assert (exists db0, begin_snapshot_group example_sha by_bytes (example_group ["orders"; "Items"]) empty_target =
    Ok (Registered, db0) /\ bool_decide (byte_ordered by_bytes db0 77) = true) as (db0 & E & Hord).
  { eexists. split; [vm_compute; reflexivity|vm_compute; reflexivity]. }
  destruct (registered_manifest_is_loaded example_sha by_bytes ltac:(intros; reflexivity)
    ltac:(intros; apply merge_sort_Permutation) empty_target (example_group ["orders"; "Items"])
    (canonical_of (example_group ["orders"; "Items"]))) as (db' & Hb & Hl & _).
  - vm_compute. reflexivity.
  - apply example_group_typed.
  - vm_compute. reflexivity.
  - reflexivity.
  - reflexivity.
  - reflexivity.
  - vm_compute. discriminate.
  - vm_compute. discriminate.
  - rewrite E in Hb. injection Hb as <-. exists db0. split; [exact E|].
    change (sar_snapshot_group_id _) with 77%Z in Hl. rewrite Hord in Hl. exact Hl.
Defined.

(** With such a database two tables whose names differ in case order suffice. *)
Lemma case_insensitive_order_corrupts :
  exists db', begin_snapshot_group example_sha by_letters (example_group ["items"; "Orders"]) empty_target =
    Ok (Registered, db') /\
    load_snapshot_group example_sha by_letters db' 77 = Err (CorruptSnapshotGroupManifest 77).
Proof. eexists. split; [vm_compute; reflexivity|vm_compute; reflexivity]. Qed.
