(* ===== verification/Load.v ===== *)
(** * Loading a snapshot into a shadow table

    Models [begin_snapshot_apply] and [SnapshotApply] of
    [crates/target-cloudberry/src/snapshot.rs].  A transaction is the database it would commit;
    the stream of the source and the answers of the server to the COPY are arguments. *)

From S2P Require Import Prelude Core Schema Sql TargetSchema Checkpoint Snapshot Manifest.

Definition validate_target_for_load (state : RelationState) (plan : SnapshotTargetPlan)
    (ownership : SnapshotOwnership) : result SnapshotTargetError unit :=
  let target := stp_target plan in
  match state with
  | Vacant => Ok tt
  | Unmanaged => Err (ExistingUnmanagedTable (QualifiedName_to_string target))
  | ManagedObjectMissing _ => Err (ManagedRelationMissing (QualifiedName_to_string target))
  | Managed record =>
      let? _ := validate_managed_identity target record (pf_pipeline_id (so_fence ownership))
                  (stp_source_relation_id plan) in
      let? _ := validate_managed_fence target record (pf_fencing_token (so_fence ownership)) in
      if negb (bool_decide (mr_state record = StActive))
      then Err (UnexpectedManagedTableState (QualifiedName_to_string target)
                  (ManagedTableState_as_str StActive) (ManagedTableState_as_str (mr_state record)))
      else if (mr_table_generation record =? stp_source_generation plan)%Z
              && bool_decide (mr_schema_fingerprint record = so_schema_fingerprint ownership)
      then Err (TargetAlreadyActive (QualifiedName_to_string target))
      else Ok tt
  end.

(** Whether an exactly owned committed shadow is to be replaced. *)
Definition validate_shadow_for_rebuild (state : RelationState) (plan : SnapshotTargetPlan)
    (ownership : SnapshotOwnership) : result SnapshotTargetError bool :=
  let shadow := ctp_target (stp_shadow plan) in
  match state with
  | Vacant => Ok false
  | Unmanaged => Err (ExistingUnmanagedTable (QualifiedName_to_string shadow))
  | ManagedObjectMissing _ => Err (ManagedRelationMissing (QualifiedName_to_string shadow))
  | Managed record =>
      let? _ := validate_managed_identity shadow record (pf_pipeline_id (so_fence ownership))
                  (stp_source_relation_id plan) in
      let? _ := validate_managed_fence shadow record (pf_fencing_token (so_fence ownership)) in
      if negb (bool_decide (mr_state record = StShadow))
      then Err (UnexpectedManagedTableState (QualifiedName_to_string shadow)
                  (ManagedTableState_as_str StShadow) (ManagedTableState_as_str (mr_state record)))
      else if negb (bool_decide (mr_snapshot_group_id record = Some (so_snapshot_group_id ownership)))
      then
        if (mr_fencing_token record <? pf_fencing_token (so_fence ownership))%Z then Ok true
        else Err (ShadowSnapshotGroupMismatch (QualifiedName_to_string shadow)
                    (so_snapshot_group_id ownership) (mr_snapshot_group_id record))
      else if negb (mr_table_generation record =? stp_source_generation plan)%Z
      then Err (ShadowGenerationMismatch (QualifiedName_to_string shadow) (stp_source_generation plan)
                  (mr_table_generation record))
      else if negb (bool_decide (mr_schema_fingerprint record = so_schema_fingerprint ownership))
      then Err (ShadowFingerprintMismatch (QualifiedName_to_string shadow))
      else Ok true
  end.

Inductive SnapshotApplyMode : Type := Copy.
Inductive SnapshotApplyOutcome : Type := Copied (rows : Z).

(** The open target transaction. *)
Record SnapshotApply : Type := mkSnapshotApply {
  sa_transaction : TargetDb;
  sa_aborted : bool;
  sa_plan : SnapshotTargetPlan;
  sa_mode : SnapshotApplyMode;
  sa_copied_rows : option Z;
}.

Section load.
Context (refused : string -> option string) (sha256 : bytes -> bytes)
  (text_order : list GroupTableRow -> list GroupTableRow).

Definition remove_managed_shadow (table : QualifiedName) (db : TargetDb)
    : result SnapshotTargetError TargetDb :=
  let? db := drop_table refused table db in
  delete_managed_table table (fun _ => false) db.

Definition register_shadow (plan : SnapshotTargetPlan) (ownership : SnapshotOwnership) (db : TargetDb)
    : result SnapshotTargetError TargetDb :=
  let? generation := database_generation (stp_source_generation plan) in
  let shadow := ctp_target (stp_shadow plan) in
  let? oid := ok_or (relation_oid db shadow) (ManagedRelationMissing (QualifiedName_to_string shadow)) in
  insert_managed_table shadow
    (mkManagedTableRow (pf_pipeline_id (so_fence ownership)) (Some (so_snapshot_group_id ownership))
       (Some oid) (stp_source_relation_id plan) generation (so_schema_fingerprint ownership) "shadow"
       (pf_fencing_token (so_fence ownership))) db.

Definition begin_snapshot_apply (plan : SnapshotTargetPlan) (ownership : SnapshotOwnership) (db : TargetDb)
    : result SnapshotTargetError SnapshotApply :=
  let? _ := validate_ownership ownership in
  let? _ := checkpoint_err (lock_pipeline_fence (sd_meta db) (so_fence ownership)) in
  let? manifest := load_snapshot_group sha256 text_order db (so_snapshot_group_id ownership) in
  let? _ := validate_apply_membership manifest plan ownership in
  if bool_decide (sg_state manifest = GroupActive)
  then Err (SnapshotGroupAlreadyActive (so_snapshot_group_id ownership))
  else
    let shadow := ctp_target (stp_shadow plan) in
    let? db := create_schema refused (qn_schema (stp_target plan)) db in
    let? target_state := load_relation_state db (stp_target plan) in
    let? _ := validate_target_for_load target_state plan ownership in
    let? shadow_state := load_relation_state db shadow in
    let? rebuild := validate_shadow_for_rebuild shadow_state plan ownership in
    let? db := if rebuild : bool then remove_managed_shadow shadow db else Ok db in
    let? db := foldM (ensure_prerequisite_type refused sha256 ownership) db (ctp_prerequisites (stp_shadow plan)) in
    let? db := create_table refused shadow (ctp_create_sql (stp_shadow plan)) db in
    let? db := register_shadow plan ownership db in
    Ok (mkSnapshotApply db false plan Copy None).

(** [forward_chunks]: an item is a chunk or the error of the source, with the error of the
    sink's [send], if there is one.  The result ends with what the sink accepted. *)
Fixpoint forward_chunks (items : list (result string bytes * option string))
    : result SnapshotTargetError bytes :=
  match items with
  | [] => Ok []
  | (chunk, sent) :: items =>
      let? chunk := map_err SourceStream chunk in
      match sent with
      | Some message => Err (CopySink message)
      | None => let? rest := forward_chunks items in Ok (chunk ++ rest)
      end
  end.

Definition append_rows (table : QualifiedName) (data : bytes) : TargetDb -> TargetDb :=
  with_relations (alter (fun r => mkRelation (rel_oid r) (rel_is_table r) (rel_sql r) (rel_data r ++ data)) table).

Definition with_copy (transaction : TargetDb) (aborted : bool) (copied_rows : option Z) (self : SnapshotApply)
    : SnapshotApply := mkSnapshotApply transaction aborted (sa_plan self) (sa_mode self) copied_rows.

(** [copy_from_stream], with the server's answer to the end of the COPY.  A COPY that fails
    aborts the transaction. *)
Definition copy_from_stream (items : list (result string bytes * option string))
    (finish : result string Z) (self : SnapshotApply) : result SnapshotTargetError Z * SnapshotApply :=
  match sa_copied_rows self with
  | Some _ => (Err CopyAlreadyCompleted, self)
  | None =>
      let aborted := with_copy (sa_transaction self) true None self in
      if sa_aborted self then (Err (SnapshotDatabase "current transaction is aborted"), self)
      else
        match refused (stp_copy_sql (sa_plan self)) with
        | Some message => (Err (SnapshotDatabase message), aborted)
        | None =>
            match forward_chunks items, finish with
            | Err e, _ => (Err e, aborted)
            | Panic, _ | _, Panic => (Panic, aborted)
            | Ok data, Err message => (Err (CopySink message), aborted)
            | Ok data, Ok copied_rows =>
                (Ok copied_rows,
                 with_copy (append_rows (ctp_target (stp_shadow (sa_plan self))) data (sa_transaction self))
                   false (Some copied_rows) self)
            end
        end
  end.

(** [commit], from the database [before] the transaction; [lost] is an error of the COMMIT,
    which may have been executed. *)
Definition commit (lost : option (string * bool)) (before : TargetDb) (self : SnapshotApply)
    : result SnapshotTargetError SnapshotApplyOutcome * TargetDb :=
  match sa_copied_rows self with
  | None => (Err CopyNotCompleted, before)
  | Some rows =>
      match lost with
      | Some (message, committed) =>
          (Err (SnapshotDatabase message), if committed : bool then sa_transaction self else before)
      | None => (Ok (Copied rows), sa_transaction self)
      end
  end.

(** [rollback]: the database is the one [before] the transaction. *)
Definition rollback (before : TargetDb) (self : SnapshotApply) : result SnapshotTargetError unit * TargetDb :=
  (Ok tt, before).
End load.

(** ** Lemmas *)

(** Nothing changes but types and schemas. *)
Record same_tables (db db' : TargetDb) : Prop := {
  sm_meta : sd_meta db' = sd_meta db;
  sm_relations : sd_relations db' = sd_relations db;
  sm_next_oid : sd_next_oid db' = sd_next_oid db;
  sm_managed_tables : sd_managed_tables db' = sd_managed_tables db;
  sm_groups : sd_groups db' = sd_groups db;
  sm_group_tables : sd_group_tables db' = sd_group_tables db;
  sm_group_nodes : sd_group_nodes db' = sd_group_nodes db;
  sm_log : sd_log db' = sd_log db;
}.
Global Instance same_tables_refl : Reflexive same_tables.
Proof. by intros db. Qed.
Global Instance same_tables_trans : Transitive same_tables.
Proof. intros a b c [] []. split; congruence. Qed.

(** Only the type of one name changes. *)
Record same_types_but (name : QualifiedName) (db db' : TargetDb) : Prop := {
  sb_tables : same_tables db db';
  sb_types : forall n, n <> name -> sd_types db' !! n = sd_types db !! n;
  sb_managed_types : forall n, n <> name -> sd_managed_types db' !! n = sd_managed_types db !! n;
}.
Global Instance same_types_but_refl name : Reflexive (same_types_but name).
Proof. by intros db. Qed.
Global Instance same_types_but_trans name : Transitive (same_types_but name).
Proof.
  intros a b c [H1 H2 H3] [H4 H5 H6]. split; [by etrans| |]; intros n Hn.
  - by rewrite H5, H2.
  - by rewrite H6, H3.
Qed.

Definition type_of (p : UserTypePlan) : TypeDef :=
  match utp_definition p with DefEnum labels => EnumType labels | DefDomain _ => OtherType "d" end.

Section lemmas.
Context (refused : string -> option string) (sha256 : bytes -> bytes)
  (text_order : list GroupTableRow -> list GroupTableRow).

Lemma executed_effect sql effect db db' : execute refused sql effect db = Ok db' -> effect db = Ok db'.
Proof. unfold execute. by destruct (refused sql). Qed.

Lemma create_schema_Ok schema db db' : create_schema refused schema db = Ok db' -> same_tables db db' /\
  sd_types db' = sd_types db /\ sd_managed_types db' = sd_managed_types db.
Proof. intros H. unfold create_schema in H. res_inv. apply executed_effect in H. by injection H as <-. Qed.

Lemma drop_table_Ok name db db' :
  drop_table refused name db = Ok db' ->
  exists r, sd_relations db !! name = Some r /\ db' = with_relations (delete name) db.
Proof.
  unfold drop_table. intros H. res_inv. apply executed_effect in H.
  destruct (sd_relations db !! name) as [r|]; [|done]. destruct (rel_is_table r); [|done].
  injection H as <-. by exists r.
Qed.

Lemma create_table_Ok name sql db db' :
  create_table refused name sql db = Ok db' ->
  sd_relations db !! name = None /\
  db' = with_next_oid Z.succ (with_relations (<[name := mkRelation (sd_next_oid db) true sql []]>) db).
Proof.
  unfold create_table. intros H. apply executed_effect in H. destruct (negb _); [done|].
  unfold name_taken in H. destruct (_ || _) eqn:Hc; [done|]. injection H as <-.
  apply orb_false_iff in Hc as [Hc%bool_decide_eq_false _]. split; [|done].
  destruct (sd_relations db !! name); [|done]. exfalso. apply Hc. by eexists.
Qed.

Lemma delete_managed_table_Ok table keep db db' :
  delete_managed_table table keep db = Ok db' ->
  exists row, sd_managed_tables db !! table = Some row /\ keep row = false /\
    db' = with_managed_tables (delete table) db.
Proof.
  unfold delete_managed_table. destruct (sd_managed_tables db !! table) as [row|]; [|done].
  destruct (keep row) eqn:E; [done|]. intros [= <-]. by exists row.
Qed.

Lemma insert_managed_table_Ok table row db db' :
  insert_managed_table table row db = Ok db' ->
  sd_managed_tables db !! table = None /\ db' = with_managed_tables (<[table := row]>) db.
Proof.
  unfold insert_managed_table. destruct (negb _); [done|]. case_bool_decide as Hc; [done|].
  intros [= <-]. split; [|done]. destruct (sd_managed_tables db !! table); [|done]. exfalso. apply Hc. by eexists.
Qed.

Lemma put_managed_type_Ok fresh p ownership checksum db db' :
  put_managed_type fresh p ownership checksum db = Ok db' ->
  same_types_but (utp_name p) db db' /\ sd_types db' = sd_types db.
Proof.
  unfold put_managed_type. destruct (_ || _); [done|].
  destruct fresh, (sd_managed_types db !! utp_name p) as [row|]; try done; intros [= <-];
    (split; [|done]); (split; [done|done|]); intros n Hn; cbn; by rewrite lookup_insert_ne.
Qed.

(** Every statement of an evolution changes the labels of its type. *)
Lemma alterations_Ok name type_name alterations db db' labels :
  sd_types db !! name = Some (EnumType labels) ->
  foldM (fun db alteration =>
    let? sql := alteration_sql type_name alteration in alter_type refused name sql alteration db)
    db alterations = Ok db' ->
  same_types_but name db db' /\
  exists labels', alter_all alterations labels = Some labels' /\ sd_types db' !! name = Some (EnumType labels').
Proof.
  revert db labels. induction alterations as [|a alterations IH]; intros db labels Hl H; cbn in H.
  { injection H as <-. split; [done|]. by exists labels. }
  apply bind_Ok in H as (db1 & H1 & H). apply bind_Ok in H1 as (sql & _ & H1).
  unfold alter_type in H1. apply executed_effect in H1. rewrite Hl in H1.
  destruct (alter_labels a labels) as [labels1|] eqn:Ha; [|done]. injection H1 as <-.
  destruct (IH (with_types (<[name := EnumType labels1]>) db) labels1) as (Hs & labels' & Hall & Hdb').
  { cbn. by rewrite lookup_insert_eq. }
  { exact H. }
  split; [|by exists labels'; cbn; rewrite Ha].
  etrans; [|exact Hs]. split; [done| |done]. intros n Hn. cbn. by rewrite lookup_insert_ne.
Qed.

(** A prerequisite type is afterwards as planned, unless its recorded checksum already says so. *)
Lemma ensure_prerequisite_type_Ok ownership db p db' :
  (forall n labels, sd_types db !! n = Some (EnumType labels) -> NoDup labels) ->
  (forall labels, utp_definition p = DefEnum labels -> NoDup labels) ->
  ensure_prerequisite_type refused sha256 ownership db p = Ok db' ->
  same_types_but (utp_name p) db db' /\
  (sd_types db' !! utp_name p = Some (type_of p) \/
   sd_types db' = sd_types db /\
   exists row, sd_managed_types db !! utp_name p = Some row /\
     my_definition_checksum row = sha256 (bytes_of_string (utp_create_sql p))).
Proof.
  intros Hdb Hp H. unfold ensure_prerequisite_type in H. apply bind_Ok in H as (action & Hact & H).
  unfold classify_prerequisite_type in Hact.
  destruct (type_exists db (utp_name p)), (sd_managed_types db !! utp_name p) as [row|] eqn:Hrow; try done.
  - destruct (negb _); [done|]. destruct (_ <? _)%Z; [done|]. case_bool_decide as Hck; injection Hact as <-.
    + apply bind_Ok in H as (db1 & H1 & H). apply put_managed_type_Ok in H as [Hs Ht].
      unfold reconcile_prerequisite_type in H1. destruct (utp_definition p) as [desired|] eqn:Hd; [|done].
      apply bind_Ok in H1 as (existing & Hex & H1). apply bind_Ok in H1 as (alts & Hal & H1).
      apply map_err_Ok in Hal. apply bind_Ok in H1 as (type_name & _ & H1).
      assert (Hl : sd_types db !! utp_name p = Some (EnumType existing)).
      { unfold load_enum_labels in Hex. destruct (sd_types db !! utp_name p) as [[l|k]|]; [by injection Hex as ->|done|].
        by destruct (relation_exists db (utp_name p)). }
      destruct (alterations_Ok _ _ _ _ _ _ Hl H1) as (Hs1 & labels' & Hall & Hdb1).
      pose proof (evolution_exact existing desired alts) as Hev. rewrite Hall in Hev.
      split; [by etrans|]. left. rewrite Ht, Hdb1. unfold type_of. rewrite Hd. do 2 f_equal.
      assert (Some labels' = Some desired) as [= ->]; [|done]. apply Hev; [by eapply Hdb|by apply Hp|done].
    + apply put_managed_type_Ok in H as [Hs Ht]. split; [done|]. right. split; [done|]. exists row.
      by split.
  - injection Hact as <-. apply bind_Ok in H as (db1 & H1 & H). apply put_managed_type_Ok in H as [Hs Ht].
    unfold create_type in H1. apply executed_effect in H1. destruct (negb _); [done|].
    destruct (name_taken db (utp_name p)); [done|]. injection H1 as <-. split.
    + etrans; [|exact Hs]. split; [done| |done]. intros n Hn. cbn. by rewrite lookup_insert_ne.
    + left. rewrite Ht. cbn. by rewrite lookup_insert_eq.
Qed.

(** The labels of an enum are distinct, in the database and in a plan. *)
Definition labels_distinct (db : TargetDb) : Prop :=
  forall n labels, sd_types db !! n = Some (EnumType labels) -> NoDup labels.
Definition plan_labels_distinct (p : UserTypePlan) : Prop :=
  forall labels, utp_definition p = DefEnum labels -> NoDup labels.

(** What is afterwards true of a prerequisite type. *)
Definition type_settled (db db' : TargetDb) (p : UserTypePlan) : Prop :=
  sd_types db' !! utp_name p = Some (type_of p) \/
  sd_types db' !! utp_name p = sd_types db !! utp_name p /\
  exists row, sd_managed_types db !! utp_name p = Some row /\
    my_definition_checksum row = sha256 (bytes_of_string (utp_create_sql p)).

Lemma prerequisites_Ok ownership prerequisites db db' :
  labels_distinct db -> Forall plan_labels_distinct prerequisites -> NoDup (map utp_name prerequisites) ->
  foldM (ensure_prerequisite_type refused sha256 ownership) db prerequisites = Ok db' ->
  same_tables db db' /\ Forall (type_settled db db') prerequisites /\
  forall n, n ∉ map utp_name prerequisites ->
    sd_types db' !! n = sd_types db !! n /\ sd_managed_types db' !! n = sd_managed_types db !! n.
Proof.
  revert db. induction prerequisites as [|p ps IH]; intros db Hdb Hps Hnd H; cbn in H.
  { injection H as <-. split; [done|]. split; [by constructor|done]. }
  apply bind_Ok in H as (db1 & H1 & H). apply Forall_cons in Hps as [Hp Hps].
  apply NoDup_cons in Hnd as [Hn Hnd].
  apply ensure_prerequisite_type_Ok in H1 as [[Hs Ht Hm] Hset]; [|done|done].
  destruct (IH db1) as (Hs2 & Hset2 & Hrest); [|done..|].
  { intros n labels Hl. destruct (decide (n = utp_name p)) as [->|Hne].
    - destruct Hset as [Hset|[Hset _]]; [|by rewrite Hset in Hl; eapply Hdb].
      rewrite Hset in Hl. unfold type_of in Hl. destruct (utp_definition p) eqn:Hd; [|done].
      injection Hl as <-. by apply Hp.
    - rewrite Ht in Hl by done. by eapply Hdb. }
  split; [by etrans|]. split.
  - constructor.
    + unfold type_settled. destruct (Hrest _ Hn) as [-> _].
      destruct Hset as [|[E Hrow]]; [by left|]. right. by rewrite E.
    + rewrite Forall_forall in *. intros q Hq. specialize (Hset2 q Hq).
      assert (utp_name q <> utp_name p) as Hne.
      { intros He. apply Hn. rewrite <- He. by apply list_elem_of_fmap_2. }
      unfold type_settled in *. by rewrite <- Ht, <- Hm.
  - intros n Hnot. apply not_elem_of_cons in Hnot as [Hne Hnot].
    destruct (Hrest n Hnot) as [-> ->]. by rewrite Ht, Hm.
Qed.

(** The chunks of a stream that was delivered. *)
Lemma forward_chunks_Ok items data :
  forward_chunks items = Ok data ->
  exists chunks, items = map (fun c => (Ok c, None)) chunks /\ data = concat chunks.
Proof.
  revert data. induction items as [|[item sent] items IH]; intros data H; cbn in H.
  { injection H as <-. by exists []. }
  destruct item as [chunk| |]; try done. cbn in H. destruct sent; [done|].
  apply bind_Ok in H as (rest & Hrest & H). injection H as <-.
  destruct (IH rest Hrest) as (chunks & -> & ->). by exists (chunk :: chunks).
Qed.

(** The row of a shadow under its plan. *)
Definition shadow_row (plan : SnapshotTargetPlan) (ownership : SnapshotOwnership) (oid : Z) : ManagedTableRow :=
  mkManagedTableRow (pf_pipeline_id (so_fence ownership)) (Some (so_snapshot_group_id ownership)) (Some oid)
    (stp_source_relation_id plan) (stp_source_generation plan) (so_schema_fingerprint ownership) "shadow"
    (pf_fencing_token (so_fence ownership)).

Lemma register_shadow_Ok plan ownership db db' oid sql data :
  sd_relations db !! ctp_target (stp_shadow plan) = Some (mkRelation oid true sql data) ->
  register_shadow plan ownership db = Ok db' ->
  sd_managed_tables db !! ctp_target (stp_shadow plan) = None /\
  db' = with_managed_tables (<[ctp_target (stp_shadow plan) := shadow_row plan ownership oid]>) db.
Proof.
  intros Hrel H. unfold register_shadow in H. apply bind_Ok in H as (g & Hg & H).
  unfold relation_oid in H. rewrite Hrel in H. cbn in H. unfold database_generation in Hg.
  destruct (_ <=? _)%Z; [|done]. injection Hg as <-. by apply insert_managed_table_Ok in H.
Qed.

(** Everything but one relation and its row, the types and the schemas. *)
Record same_but_shadow (shadow : QualifiedName) (db db' : TargetDb) : Prop := {
  ss_meta : sd_meta db' = sd_meta db;
  ss_relations : forall n, n <> shadow -> sd_relations db' !! n = sd_relations db !! n;
  ss_managed_tables : forall n, n <> shadow -> sd_managed_tables db' !! n = sd_managed_tables db !! n;
  ss_groups : sd_groups db' = sd_groups db;
  ss_group_tables : sd_group_tables db' = sd_group_tables db;
  ss_group_nodes : sd_group_nodes db' = sd_group_nodes db;
  ss_log : sd_log db' = sd_log db;
}.
Global Instance same_but_shadow_refl shadow : Reflexive (same_but_shadow shadow).
Proof. by intros db. Qed.
Global Instance same_but_shadow_trans shadow : Transitive (same_but_shadow shadow).
Proof.
  intros a b c [H1 H2 H3 H4 H5 H6 H7] [K1 K2 K3 K4 K5 K6 K7]. split; try congruence; intros n Hn.
  - by rewrite K2, H2.
  - by rewrite K3, H3.
Qed.
Lemma same_tables_but_shadow shadow db db' : same_tables db db' -> same_but_shadow shadow db db'.
Proof. intros []. split; congruence. Qed.

(** What the beginning of a load leaves in its transaction. *)
Lemma begin_snapshot_apply_Ok plan ownership db self :
  labels_distinct db -> Forall plan_labels_distinct (ctp_prerequisites (stp_shadow plan)) ->
  NoDup (map utp_name (ctp_prerequisites (stp_shadow plan))) ->
  begin_snapshot_apply refused sha256 text_order plan ownership db = Ok self ->
  let shadow := ctp_target (stp_shadow plan) in
  sa_plan self = plan /\ sa_copied_rows self = None /\ sa_aborted self = false /\
  (exists stored, load_snapshot_group sha256 text_order db (so_snapshot_group_id ownership) = Ok stored /\
     sg_state stored = GroupLoading /\ validate_apply_membership stored plan ownership = Ok tt) /\
  same_but_shadow shadow db (sa_transaction self) /\
  sd_relations (sa_transaction self) !! shadow =
    Some (mkRelation (sd_next_oid db) true (ctp_create_sql (stp_shadow plan)) []) /\
  sd_managed_tables (sa_transaction self) !! shadow = Some (shadow_row plan ownership (sd_next_oid db)) /\
  Forall (type_settled db (sa_transaction self)) (ctp_prerequisites (stp_shadow plan)).
Proof.
  intros Hdb Hps Hnd H shadow. unfold begin_snapshot_apply in H.
  apply bind_Ok in H as (? & _ & H). apply bind_Ok in H as (? & _ & H).
  apply bind_Ok in H as (stored & Hst & H). apply bind_Ok in H as ([] & Hmem & H).
  case_bool_decide as Hact; [done|]. fold shadow in H.
  apply bind_Ok in H as (db1 & H1 & H). apply bind_Ok in H as (? & _ & H). apply bind_Ok in H as (? & _ & H).
  apply bind_Ok in H as (? & _ & H). apply bind_Ok in H as (rebuild & _ & H).
  apply bind_Ok in H as (db2 & H2 & H). apply bind_Ok in H as (db3 & H3 & H).
  apply bind_Ok in H as (db4 & H4 & H). apply bind_Ok in H as (db5 & H5 & H). injection H as <-. cbn.
  apply create_schema_Ok in H1 as (Hs1 & Ht1 & Hm1).
  assert (same_but_shadow shadow db1 db2 /\ sd_types db2 = sd_types db1 /\
    sd_managed_types db2 = sd_managed_types db1 /\ sd_next_oid db2 = sd_next_oid db1) as (Hs2 & Ht2 & Hm2 & Ho2).
  { destruct rebuild; [|by injection H2 as <-]. apply bind_Ok in H2 as (db1' & Hd & H2).
    apply drop_table_Ok in Hd as (r & _ & ->). apply delete_managed_table_Ok in H2 as (row & _ & _ & ->).
    split; [|done]. split; cbn; try done; intros n Hn; by rewrite lookup_delete_ne. }
  apply prerequisites_Ok in H3 as (Hs3 & Hset & _); [|unfold labels_distinct; by rewrite Ht2, Ht1|done..].
  apply create_table_Ok in H4 as (Hnone & ->).
  eapply register_shadow_Ok in H5 as (Hrow & ->); [|cbn; by rewrite lookup_insert_eq].
  assert (Hoid : sd_next_oid db3 = sd_next_oid db) by (rewrite (sm_next_oid _ _ Hs3), Ho2; apply Hs1).
  fold shadow. cbn. rewrite !lookup_insert_eq, Hoid. split_and!; try done.
  - exists stored. split; [done|]. split; [|done]. by destruct (sg_state stored).
  - etrans; [by apply same_tables_but_shadow|]. etrans; [done|].
    etrans; [by apply same_tables_but_shadow|]. split; cbn; try done; intros n Hn; by rewrite lookup_insert_ne.
  - unfold type_settled in *. cbn in *. by rewrite Ht2, Ht1, Hm2, Hm1 in Hset.
Qed.

(** C19: when the COPY of a snapshot succeeds and is committed, the shadow is a new relation made
    by the planned statement that holds exactly the bytes of the stream, registered for the loading
    group that lists it; no other relation, managed row, group, checkpoint or log entry changes,
    and every prerequisite type is as planned or already recorded as such.  A copy that fails, and
    one that has not been made, commits nothing. *)
Theorem loaded_shadow_holds_the_stream (plan : SnapshotTargetPlan) (ownership : SnapshotOwnership)
    (db : TargetDb) (self : SnapshotApply) :
  let shadow := ctp_target (stp_shadow plan) in
  labels_distinct db -> Forall plan_labels_distinct (ctp_prerequisites (stp_shadow plan)) ->
  NoDup (map utp_name (ctp_prerequisites (stp_shadow plan))) ->
  begin_snapshot_apply refused sha256 text_order plan ownership db = Ok self ->
  (exists stored, load_snapshot_group sha256 text_order db (so_snapshot_group_id ownership) = Ok stored /\
     sg_state stored = GroupLoading /\ validate_apply_membership stored plan ownership = Ok tt) /\
  (forall lost, commit lost db self = (Err CopyNotCompleted, db)) /\
  forall items finish,
    match copy_from_stream refused items finish self with
    | (Ok rows, self') =>
        exists chunks db', items = map (fun c => (Ok c, None)) chunks /\ finish = Ok rows /\
          commit None db self' = (Ok (Copied rows), db') /\
          same_but_shadow shadow db db' /\
          sd_relations db' !! shadow =
            Some (mkRelation (sd_next_oid db) true (ctp_create_sql (stp_shadow plan)) (concat chunks)) /\
          sd_managed_tables db' !! shadow = Some (shadow_row plan ownership (sd_next_oid db)) /\
          Forall (type_settled db db') (ctp_prerequisites (stp_shadow plan))
    | (_, self') =>
        (forall lost, commit lost db self' = (Err CopyNotCompleted, db)) /\
        forall items' finish', exists e, (copy_from_stream refused items' finish' self').1 = Err e
    end.
Proof.
  intros shadow Hdb Hps Hnd H.
  apply begin_snapshot_apply_Ok in H as (Hplan & Hrows & Hab & Hst & Hsame & Hrel & Hrow & Hset); [|done..].
  split; [exact Hst|]. unfold commit, copy_from_stream. rewrite Hrows, Hab, Hplan. split; [done|].
  intros items finish. destruct (refused (stp_copy_sql plan)).
  { cbn. split; [done|]. intros. by eexists. }
  destruct (forward_chunks items) as [data|e|] eqn:Hf; [|by destruct finish; cbn; eauto..].
  destruct finish as [rows|message|]; [|by cbn; eauto..].
  apply forward_chunks_Ok in Hf as (chunks & -> & ->). exists chunks. eexists. cbn. split_and!; try done.
  - etrans; [exact Hsame|]. split; cbn; try done. intros n Hn. rewrite lookup_alter_ne; done.
  - unfold shadow in *. cbn. by rewrite lookup_alter_eq, Hrel.
Qed.
End lemmas.

(** ** Example *)

Definition example_plan : SnapshotTargetPlan :=
  mkSnapshotTargetPlan (mkQualifiedName "sales" "orders")
    (mkCreateTablePlan (mkQualifiedName "sales" "pg2cb_s_orders") (Heap) [] ["id"] ["id"]
       [mkUserTypePlan (mkQualifiedName "sales" "mood") "CREATE TYPE mood" (DefEnum ["low"; "high"])]
       "CREATE TABLE pg2cb_s_orders")
    "COPY pg2cb_s_orders" 1 1.
Definition example_ownership : SnapshotOwnership := mkSnapshotOwnership example_fence 77 "sha256:x".
Notation accepted := (fun _ : string => @None string).

(** The example group is registered. *)
Definition registered_target : TargetDb :=
  match begin_snapshot_group example_sha by_bytes (example_group ["orders"; "Items"]) empty_target with
  | Ok (_, db) => db
  | _ => empty_target
  end.

Lemma loaded_shadow_holds_the_stream_witness :
  exists self db' shadow, begin_snapshot_apply accepted example_sha by_bytes example_plan example_ownership
      registered_target = Ok self /\
    commit None registered_target
      (copy_from_stream accepted [(Ok [x31; x0a], None); (Ok [x32; x0a], None)] (Ok 2%Z) self).2 = (Ok (Copied 2), db') /\
    sd_relations db' !! mkQualifiedName "sales" "pg2cb_s_orders" = Some shadow /\
    rel_data shadow = [x31; x0a; x32; x0a].
Proof.
  assert (exists self, begin_snapshot_apply accepted example_sha by_bytes example_plan example_ownership
    registered_target = Ok self /\ (copy_from_stream accepted
      [(Ok [x31; x0a], None); (Ok [x32; x0a], None)] (Ok 2%Z) self).1 = Ok 2%Z) as (self & E & Ec).
  { eexists. split; [vm_compute; reflexivity|vm_compute; reflexivity]. }
  destruct (loaded_shadow_holds_the_stream accepted example_sha by_bytes example_plan example_ownership
    registered_target self) as (_ & _ & H).
  - intros n labels Hn. replace (sd_types registered_target) with (∅ : gmap QualifiedName TypeDef) in Hn
      by (vm_compute; reflexivity). by rewrite lookup_empty in Hn.
  - repeat constructor. intros labels [= <-]. apply NoDup_ListNoDup. repeat constructor; cbn; intuition discriminate.
  - repeat constructor. by apply not_elem_of_nil.
  - exact E.
  - specialize (H [(Ok [x31; x0a], None); (Ok [x32; x0a], None)] (Ok 2%Z)).
    destruct (copy_from_stream accepted _ _ self) as [[rows|e|] self'] eqn:Hc; [|done..].
    cbn in Ec. injection Ec as ->. destruct H as (chunks & db' & Hi & _ & Hcm & _ & Hr & _).
    destruct chunks as [|c1 [|c2 [|c3 cs]]]; try done. injection Hi as <- <-.
    eexists _, db', _. split_and!; [done|by rewrite Hc|exact Hr|done].
Defined.
