(* ===== verification/Activation.v ===== *)
(** * Activation of a snapshot group

    Models [crates/target-cloudberry/src/snapshot/activation.rs].  An activation is one
    transaction: a function from the database to the database it commits, or an error that rolls
    it back.  The orders in which the server returns rows by name, and the time of the
    transaction, are arguments. *)

From S2P Require Import Prelude Core Decimal Schema Sql TargetSchema Checkpoint Snapshot Manifest Load.

Inductive TableActivationState : Type :=
| Pending (shadow : ManagedTableRecord) (previous_active : option ManagedTableRecord)
| Active.

Inductive ReconciliationReason : Type := Replaced | Stale.

Definition ReconciliationReason_as_str (self : ReconciliationReason) : string :=
  match self with Replaced => "replaced" | Stale => "stale" end.

Record StaleActiveTable : Type := mkStaleActiveTable {
  sl_target : QualifiedName;
  sl_record : ManagedTableRecord;
}.

Record QuarantinePlan : Type := mkQuarantinePlan {
  qp_original : QualifiedName;
  qp_quarantine : QualifiedName;
  qp_record : ManagedTableRecord;
  qp_reason : ReconciliationReason;
}.

Definition group_is_active (states : list TableActivationState) : result SnapshotTargetError bool :=
  let active_count :=
    length (List.filter (fun s => match s with Active => true | _ => false end) states) in
  if (active_count =? length states)%nat then Ok true
  else if (active_count =? 0)%nat then Ok false
  else Err MixedActivationState.

Definition require_state (table : QualifiedName) (record : ManagedTableRecord) (expected : ManagedTableState)
    : result SnapshotTargetError unit :=
  if bool_decide (mr_state record = expected) then Ok tt
  else Err (UnexpectedManagedTableState (QualifiedName_to_string table) (ManagedTableState_as_str expected)
              (ManagedTableState_as_str (mr_state record))).

(** The two matches of [classify_table] on the state of the target and of the shadow. *)
Definition classify_target (request : SnapshotActivationRequest) (table : SnapshotActivationTable)
    (target : RelationState) : result SnapshotTargetError (option ManagedTableRecord) :=
  match target with
  | Vacant => Ok None
  | Unmanaged => Err (ExistingUnmanagedTable (QualifiedName_to_string (sat_target table)))
  | ManagedObjectMissing _ => Err (ManagedRelationMissing (QualifiedName_to_string (sat_target table)))
  | Managed record =>
      let? _ := validate_managed_identity (sat_target table) record (pf_pipeline_id (sar_fence request))
                  (sat_source_relation_id table) in
      let? _ := validate_managed_fence (sat_target table) record (pf_fencing_token (sar_fence request)) in
      let? _ := require_state (sat_target table) record StActive in
      Ok (Some record)
  end.

Definition classify_shadow (request : SnapshotActivationRequest) (table : SnapshotActivationTable)
    (shadow : RelationState) : result SnapshotTargetError (option ManagedTableRecord) :=
  let name := QualifiedName_to_string (sat_shadow table) in
  match shadow with
  | Vacant => Ok None
  | Unmanaged => Err (ExistingUnmanagedTable name)
  | ManagedObjectMissing _ => Err (ManagedRelationMissing name)
  | Managed record =>
      let? _ := validate_managed_identity (sat_shadow table) record (pf_pipeline_id (sar_fence request))
                  (sat_source_relation_id table) in
      let? _ := validate_managed_fence (sat_shadow table) record (pf_fencing_token (sar_fence request)) in
      let? _ := require_state (sat_shadow table) record StShadow in
      if negb (bool_decide (mr_snapshot_group_id record = Some (sar_snapshot_group_id request)))
      then Err (ShadowSnapshotGroupMismatch name (sar_snapshot_group_id request) (mr_snapshot_group_id record))
      else if negb (mr_table_generation record =? sat_table_generation table)%Z
      then Err (ShadowGenerationMismatch name (sat_table_generation table) (mr_table_generation record))
      else if negb (bool_decide (mr_schema_fingerprint record = sat_schema_fingerprint table))
      then Err (ShadowFingerprintMismatch name)
      else Ok (Some record)
  end.

Definition classify_table (request : SnapshotActivationRequest) (table : SnapshotActivationTable)
    (target shadow : RelationState) : result SnapshotTargetError TableActivationState :=
  let? target := classify_target request table target in
  let? shadow := classify_shadow request table shadow in
  match target, shadow with
  | Some active, None =>
      if matches_activation active table (sar_snapshot_group_id request) then Ok Active
      else Err (IncompleteShadow (QualifiedName_to_string (sat_shadow table)))
  | Some active, Some shadow =>
      if matches_activation active table (sar_snapshot_group_id request)
      then Err (IncompleteShadow (QualifiedName_to_string (sat_shadow table)))
      else if (sat_table_generation table <=? mr_table_generation active)%Z
      then Err (ActivationGenerationNotNewer (QualifiedName_to_string (sat_target table))
                  (mr_table_generation active) (sat_table_generation table))
      else Ok (Pending shadow (Some active))
  | None, Some shadow => Ok (Pending shadow None)
  | None, None => Err (IncompleteShadow (QualifiedName_to_string (sat_shadow table)))
  end.

(** [{byte:02x}]. *)
Definition lower_hex_digit (d : Z) : ascii :=
  ascii_of_N (Z.to_N (if (d <? 10)%Z then 48 + d else 87 + d)).
Definition hex_byte (b : byte) : string :=
  let n := Z.of_N (Byte.to_N b) in
  String (lower_hex_digit (n / 16)) (String (lower_hex_digit (n mod 16)) EmptyString).

Definition quarantine_fields (target : QualifiedName) (record : ManagedTableRecord) : list bytes :=
  [bytes_of_string (qn_schema target); bytes_of_string (qn_name target);
   be_bytes 16 (mr_pipeline_id record); be_bytes 4 (mr_source_relation_id record);
   be_bytes 8 (mr_table_generation record); bytes_of_string (mr_schema_fingerprint record);
   be_bytes 8 (mr_fencing_token record)].

Section activation.
Context (refused : string -> option string) (sha256 : bytes -> bytes)
  (text_order : list GroupTableRow -> list GroupTableRow)
  (row_order : list (QualifiedName * ManagedTableRow) -> list (QualifiedName * ManagedTableRow))
  (now : Z).

Definition quarantine_name (target : QualifiedName) (record : ManagedTableRecord)
    : result SnapshotTargetError QualifiedName :=
  let digest := sha256 (concat (map hash_field (quarantine_fields target record))) in
  qualified_name (qn_schema target)
    ("pg2cb_q_" +:+ String.concat EmptyString (map hex_byte (take 16 digest))).

(** [load_stale_active_tables]: [SELECT .. WHERE pipeline_id = $1 AND state = 'active' ORDER BY ..]. *)
(** The body of the loop. *)
Definition collect_stale (db : TargetDb) (request : SnapshotActivationRequest) (stale : list StaleActiveTable)
    (row : QualifiedName * ManagedTableRow) : result SnapshotTargetError (list StaleActiveTable) :=
  let? target := qualified_name (qn_schema row.1) (qn_name row.1) in
  if existsb (fun table => bool_decide (sat_target table = target)) (sar_tables request) then Ok stale
  else
    let? record := managed_table_record_from_row target row.2 in
    let? _ := validate_managed_fence target record (pf_fencing_token (sar_fence request)) in
    if negb (relation_exists db target) then Err (ManagedRelationMissing (QualifiedName_to_string target))
    else Ok (stale ++ [mkStaleActiveTable target record]).

Definition load_stale_active_tables (db : TargetDb) (request : SnapshotActivationRequest)
    : result SnapshotTargetError (list StaleActiveTable) :=
  foldM (collect_stale db request) []
    (row_order
       (filter (fun row => mt_pipeline_id row.2 = pf_pipeline_id (sar_fence request)
                           /\ mt_state row.2 = "active")
          (map_to_list (sd_managed_tables db)))).

(** The test of a quarantine name that both preflight loops make; it reserves the name. *)
Definition reserve_quarantine (db : TargetDb) (reserved_names : gset QualifiedName) (target : QualifiedName)
    (record : ManagedTableRecord) : result SnapshotTargetError (QualifiedName * gset QualifiedName) :=
  let? quarantine := quarantine_name target record in
  let conflict := Err (QuarantineNameConflict (QualifiedName_to_string quarantine)) in
  if bool_decide (quarantine ∈ reserved_names) then conflict
  else
    let? state := load_relation_state db quarantine in
    match state with
    | Vacant => Ok (quarantine, {[quarantine]} ∪ reserved_names)
    | _ => conflict
    end.

(** The preflight loop over the tables of the group. *)
Fixpoint preflight_replaced (db : TargetDb) (reserved_names : gset QualifiedName)
    (tables : list (SnapshotActivationTable * TableActivationState))
    : result SnapshotTargetError (list (option QualifiedName) * gset QualifiedName) :=
  match tables with
  | [] => Ok ([], reserved_names)
  | (table, Pending _ previous_active) :: tables =>
      let? '(quarantine, reserved_names) :=
        match previous_active with
        | Some previous_active =>
            let? '(quarantine, reserved_names) :=
              reserve_quarantine db reserved_names (sat_target table) previous_active in
            Ok (Some quarantine, reserved_names)
        | None => Ok (None, reserved_names)
        end in
      let? '(quarantines, reserved_names) := preflight_replaced db reserved_names tables in
      Ok (quarantine :: quarantines, reserved_names)
  | (_, Active) :: _ => Panic
  end.

Fixpoint preflight_stale_quarantines (db : TargetDb) (stale : list StaleActiveTable)
    (reserved_names : gset QualifiedName) (fencing_token : Z)
    : result SnapshotTargetError (list QuarantinePlan) :=
  match stale with
  | [] => Ok []
  | s :: stale =>
      let? _ := validate_managed_fence (sl_target s) (sl_record s) fencing_token in
      let? '(quarantine, reserved_names) := reserve_quarantine db reserved_names (sl_target s) (sl_record s) in
      let? plans := preflight_stale_quarantines db stale reserved_names fencing_token in
      Ok (mkQuarantinePlan (sl_target s) quarantine (sl_record s) Stale :: plans)
  end.

Definition relocated_row (record : ManagedTableRecord) (state : ManagedTableState) (fencing_token : Z)
    : ManagedTableRow :=
  mkManagedTableRow (mr_pipeline_id record) (mr_snapshot_group_id record) (mr_relation_oid record)
    (mr_source_relation_id record) (mr_table_generation record) (mr_schema_fingerprint record)
    (ManagedTableState_as_str state) fencing_token.

Definition relocate_metadata (from to : QualifiedName) (record : ManagedTableRecord)
    (state : ManagedTableState) (fencing_token : Z) (db : TargetDb) : result SnapshotTargetError TargetDb :=
  let? db := delete_managed_table from (fun _ => false) db in
  let? _ := database_generation (mr_table_generation record) in
  insert_managed_table to (relocated_row record state fencing_token) db.

(** The constraints of [snapshot_reconciliation_log]. *)
Definition log_row_ok (row : LogRow) : bool :=
  (0 <=? lg_topology_generation row)%Z && (0 <? lg_source_relation_id row)%Z
  && (0 <=? lg_table_generation row)%Z && negb (bool_decide (lg_schema_fingerprint row = EmptyString))
  && bool_decide (lg_reason row ∈ ["replaced"; "stale"]) && (0 <? lg_fencing_token row)%Z.

Definition reconciliation_row (request : SnapshotActivationRequest) (plan : QuarantinePlan) : LogRow :=
  let record := qp_record plan in
  mkLogRow (qp_quarantine plan) (mr_relation_oid record) (pf_pipeline_id (sar_fence request))
    (pf_topology_generation (sar_fence request)) (mr_source_relation_id record)
    (mr_snapshot_group_id record) (mr_table_generation record) (mr_schema_fingerprint record)
    (ReconciliationReason_as_str (qp_reason plan)) (Some (mr_fencing_token record))
    (pf_fencing_token (sar_fence request)) now None.

Definition record_reconciliation (request : SnapshotActivationRequest) (plan : QuarantinePlan) (db : TargetDb)
    : result SnapshotTargetError TargetDb :=
  let? _ := database_generation (pf_topology_generation (sar_fence request)) in
  let? _ := database_generation (mr_table_generation (qp_record plan)) in
  let row := reconciliation_row request plan in
  let key := (sar_snapshot_group_id request, qp_original plan) in
  if negb (log_row_ok row) then Err (SnapshotDatabase "new row violates check constraint")
  else if bool_decide (is_Some (sd_log db !! key))
  then Err (SnapshotDatabase "duplicate key value violates unique constraint")
  else Ok (with_log (<[key := row]>) db).

(** The three steps that quarantine a table, the same in both loops. *)
Definition quarantine_table (request : SnapshotActivationRequest) (plan : QuarantinePlan) (db : TargetDb)
    : result SnapshotTargetError TargetDb :=
  let? db := rename_table refused (qp_original plan) (qn_name (qp_quarantine plan)) db in
  let? db := relocate_metadata (qp_original plan) (qp_quarantine plan) (qp_record plan) StQuarantined
               (pf_fencing_token (sar_fence request)) db in
  record_reconciliation request plan db.

Definition apply_stale_quarantines (request : SnapshotActivationRequest) (plans : list QuarantinePlan)
    (db : TargetDb) : result SnapshotTargetError (list QualifiedName * TargetDb) :=
  foldM (fun '(quarantined, db) plan =>
    let? db := quarantine_table request plan db in
    Ok (quarantined ++ [qp_quarantine plan], db)) ([], db) plans.

Definition promote_shadow (table : SnapshotActivationTable) (db : TargetDb)
    : result SnapshotTargetError TargetDb :=
  if negb (bool_decide (qn_name (sat_shadow table) = qn_name (sat_target table)))
  then rename_table refused (sat_shadow table) (qn_name (sat_target table)) db
  else Ok db.

(** The body of the loop that changes the tables. *)
Definition activate_table (request : SnapshotActivationRequest) (st : list QualifiedName * TargetDb)
    (entry : SnapshotActivationTable * TableActivationState * option QualifiedName)
    : result SnapshotTargetError (list QualifiedName * TargetDb) :=
  let '(quarantined, db) := st in
  let '(table, state, quarantine) := entry in
  match state with
  | Active => Panic
  | Pending shadow previous_active =>
      let? '(quarantined, db) :=
        match previous_active, quarantine with
        | Some previous_active, Some quarantine =>
            let? db := quarantine_table request
                         (mkQuarantinePlan (sat_target table) quarantine previous_active Replaced) db in
            Ok (quarantined ++ [quarantine], db)
        | _, _ => Ok (quarantined, db)
        end in
      let? db := promote_shadow table db in
      let? db := relocate_metadata (sat_shadow table) (sat_target table) shadow StActive
                   (pf_fencing_token (sar_fence request)) db in
      Ok (quarantined, db)
  end.

(** The loop of [verify_retry_checkpoints], which [validate_active_snapshot_group] repeats. *)
Definition verify_retry_checkpoints (db : TargetDb) (checkpoints : list NodeCheckpoint)
    : result SnapshotTargetError unit :=
  foldM (fun _ checkpoint =>
    let? current := checkpoint_err (load_node_checkpoint (sd_meta db) (nc_key checkpoint)) in
    let? reached := checkpoint_err (checkpoint_reached current checkpoint) in
    if reached : bool then Ok tt else Err (ActiveCheckpointIncomplete (ck_node_id (nc_key checkpoint))))
    tt checkpoints.

Definition classify (db : TargetDb) (request : SnapshotActivationRequest) (table : SnapshotActivationTable)
    : result SnapshotTargetError TableActivationState :=
  let? target := load_relation_state db (sat_target table) in
  let? shadow := load_relation_state db (sat_shadow table) in
  classify_table request table target shadow.

Definition names_of (tables : list SnapshotActivationTable) : gset QualifiedName :=
  list_to_set (identities tables).

(** The initial checkpoints are checked before, and stored after the tables have changed. *)
Definition check_initial_checkpoints (db : TargetDb) (checkpoints : list NodeCheckpoint)
    : result SnapshotTargetError unit :=
  foldM (fun _ checkpoint =>
    let? current := checkpoint_err (load_node_checkpoint (sd_meta db) (nc_key checkpoint)) in
    let? _ := checkpoint_err (check_advance current checkpoint) in
    Ok tt) tt checkpoints.

Definition advance_checkpoints (fence : PipelineFence) (db : TargetDb) (checkpoints : list NodeCheckpoint)
    : result SnapshotTargetError TargetDb :=
  foldM (fun db checkpoint =>
    let? '(_, meta) := checkpoint_err (advance_node_checkpoint (sd_meta db) fence checkpoint) in
    Ok (with_meta (fun _ => meta) db)) db checkpoints.

(** [activate_snapshot_group], up to a commit that succeeds. *)
Definition activate_snapshot_group (request : SnapshotActivationRequest) (db : TargetDb)
    : result SnapshotTargetError (SnapshotActivationOutcome * TargetDb) :=
  let? canonical := canonical_request request in
  let? _ := checkpoint_err (lock_pipeline_fence (sd_meta db) (sar_fence canonical)) in
  let? stored := load_snapshot_group sha256 text_order db (sar_snapshot_group_id canonical) in
  let? request := validate_exact_request stored canonical in
  let? states := try_map (classify db request) (sar_tables request) in
  let? stale := load_stale_active_tables db request in
  let reserved_names := names_of (sar_tables request) ∪ list_to_set (map sl_target stale) in
  let? is_active := group_is_active states in
  if is_active : bool then
    if negb (bool_decide (sg_state stored = GroupActive))
    then Err (CorruptSnapshotGroupManifest (sar_snapshot_group_id request))
    else
      let? _ := verify_retry_checkpoints db (sar_initial_checkpoints request) in
      let? stale_plans :=
        preflight_stale_quarantines db stale reserved_names (pf_fencing_token (sar_fence request)) in
      let? '(quarantined, db) := apply_stale_quarantines request stale_plans db in
      Ok (mkSnapshotActivationOutcome ActivationAlreadyActive quarantined, db)
  else if negb (bool_decide (sg_state stored = GroupLoading))
  then Err (CorruptSnapshotGroupManifest (sar_snapshot_group_id request))
  else
    let? _ := check_initial_checkpoints db (sar_initial_checkpoints request) in
    let? '(quarantines, reserved_names) :=
      preflight_replaced db reserved_names (zip (sar_tables request) states) in
    let? stale_plans :=
      preflight_stale_quarantines db stale reserved_names (pf_fencing_token (sar_fence request)) in
    let? '(quarantined, db) :=
      foldM (activate_table request) ([], db) (zip (zip (sar_tables request) states) quarantines) in
    let? '(more, db) := apply_stale_quarantines request stale_plans db in
    let? db := advance_checkpoints (sar_fence request) db (sar_initial_checkpoints request) in
    let? db := mark_snapshot_group_active (sar_snapshot_group_id request) db in
    Ok (mkSnapshotActivationOutcome Activated (quarantined ++ more), db).

(** [validate_active_snapshot_group]; the groups are selected by pipeline, generation and state. *)
Definition validate_active_snapshot_group (db : TargetDb) (fence : PipelineFence)
    (tables : list SnapshotActivationTable) : result SnapshotTargetError Z :=
  let? _ := checkpoint_err (lock_pipeline_fence (sd_meta db) fence) in
  let? generation := database_generation (pf_topology_generation fence) in
  let groups :=
    map fst
      (filter (fun g => gr_pipeline_id g.2 = pf_pipeline_id fence /\ gr_topology_generation g.2 = generation
                        /\ gr_state g.2 = "active")
         (map_to_list (sd_groups db))) in
  let? snapshot_group_id :=
    match groups with
    | [] => Err (MissingActiveSnapshotGroup (pf_pipeline_id fence) (pf_topology_generation fence))
    | [group] => Ok group
    | _ => Err (MultipleActiveSnapshotGroups (pf_pipeline_id fence) (pf_topology_generation fence))
    end in
  let? stored := load_snapshot_group sha256 text_order db snapshot_group_id in
  let stored_fence := sar_fence (sg_request stored) in
  if negb (bool_decide (sg_state stored = GroupActive))
     || negb (pf_pipeline_id stored_fence =? pf_pipeline_id fence)%Z
     || negb (pf_topology_generation stored_fence =? pf_topology_generation fence)%Z
     || (pf_fencing_token fence <? pf_fencing_token stored_fence)%Z
  then Err (CorruptSnapshotGroupManifest snapshot_group_id)
  else
    let? expected :=
      canonical_request
        (mkSnapshotActivationRequest fence snapshot_group_id tables (sar_initial_checkpoints (sg_request stored))) in
    if negb (bool_decide (sar_tables expected = sar_tables (sg_request stored)))
    then Err (SnapshotGroupManifestMismatch snapshot_group_id)
    else
      let? _ := foldM (fun _ table =>
        let? state := classify db expected table in
        match state with Active => Ok tt | Pending _ _ => Err MixedActivationState end) tt (sar_tables expected) in
      let? _ := verify_retry_checkpoints db (sar_initial_checkpoints (sg_request stored)) in
      Ok snapshot_group_id.
End activation.

(** ** Lemmas: moves *)

(** One relation changes its name and its row; a quarantine is logged. *)
Record Move : Type := mkMove {
  mv_from : QualifiedName;
  mv_to : QualifiedName;
  mv_row : ManagedTableRow;
  mv_log : option (Z * QualifiedName * LogRow);
}.

Record moved (m : Move) (db db' : TargetDb) : Prop := {
  md_relation : exists r, sd_relations db !! mv_from m = Some r /\ sd_relations db !! mv_to m = None /\
    sd_relations db' = <[mv_to m := r]> (delete (mv_from m) (sd_relations db));
  md_row : is_Some (sd_managed_tables db !! mv_from m) /\
    sd_managed_tables db' = <[mv_to m := mv_row m]> (delete (mv_from m) (sd_managed_tables db));
  md_log : sd_log db' = match mv_log m with Some (k, row) => <[k := row]> (sd_log db) | None => sd_log db end;
  md_log_new : forall k row, mv_log m = Some (k, row) -> sd_log db !! k = None;
  md_meta : sd_meta db' = sd_meta db;
  md_types : sd_types db' = sd_types db;
  md_groups : sd_groups db' = sd_groups db;
  md_group_tables : sd_group_tables db' = sd_group_tables db;
  md_group_nodes : sd_group_nodes db' = sd_group_nodes db;
}.

Inductive moves : list Move -> TargetDb -> TargetDb -> Prop :=
| moves_nil db : moves [] db db
| moves_cons m ms db db1 db' : moved m db db1 -> moves ms db1 db' -> moves (m :: ms) db db'.

Lemma moves_app ms ms' db db1 db' : moves ms db db1 -> moves ms' db1 db' -> moves (ms ++ ms') db db'.
Proof. intros Hms. induction Hms; [done|]. intros Hms'. econstructor; eauto. Qed.

Lemma moves_one m db db' : moved m db db' -> moves [m] db db'.
Proof. intros H. econstructor; [exact H|constructor]. Qed.

(** No move touches what an earlier one has made or taken away. *)
Definition apart (a b : Move) : Prop :=
  mv_from b <> mv_to a /\ mv_from b <> mv_from a /\ mv_to b <> mv_to a.

Record moves_result (ms : list Move) (db db' : TargetDb) : Prop := {
  mr_moved : forall m, m ∈ ms -> sd_relations db' !! mv_to m = sd_relations db !! mv_from m /\
    sd_managed_tables db' !! mv_to m = Some (mv_row m);
  mr_gone : forall m, m ∈ ms -> mv_from m ∉ map mv_to ms ->
    sd_relations db' !! mv_from m = None /\ sd_managed_tables db' !! mv_from m = None;
  mr_kept : forall n, n ∉ map mv_to ms -> n ∉ map mv_from ms ->
    sd_relations db' !! n = sd_relations db !! n /\ sd_managed_tables db' !! n = sd_managed_tables db !! n;
  mr_log : forall m k row, m ∈ ms -> mv_log m = Some (k, row) -> sd_log db' !! k = Some row;
  mr_log_kept : forall k row, sd_log db !! k = Some row -> sd_log db' !! k = Some row;
  mr_values : (map_to_list (sd_relations db')).*2 ≡ₚ (map_to_list (sd_relations db)).*2;
  mr_meta : sd_meta db' = sd_meta db;
  mr_types : sd_types db' = sd_types db;
  mr_groups : sd_groups db' = sd_groups db;
  mr_group_tables : sd_group_tables db' = sd_group_tables db;
  mr_group_nodes : sd_group_nodes db' = sd_group_nodes db;
}.

Lemma moved_values m db db' :
  moved m db db' -> (map_to_list (sd_relations db')).*2 ≡ₚ (map_to_list (sd_relations db)).*2.
Proof.
  intros [(r & Hf & Ht & ->) _ _ _ _ _ _ _ _]. rewrite map_to_list_insert.
  2: { destruct (decide (mv_to m = mv_from m)) as [->|Hne]; [apply lookup_delete_eq|by rewrite lookup_delete_ne]. }
  rewrite <- (insert_delete_id (sd_relations db) (mv_from m) r Hf) at 2.
  by rewrite map_to_list_insert by apply lookup_delete_eq.
Qed.

Lemma moves_spec ms db db' : moves ms db db' -> ForallOrdPairs apart ms -> moves_result ms db db'.
Proof.
  induction 1 as [db|m ms db db1 db' Hm Hms IH]; intros Hap.
  { split; try done; intros; by match goal with H : _ ∈ [] |- _ => apply elem_of_nil in H end. }
  inversion Hap as [|? ? Hall Hap']; subst. destruct (IH Hap') as [I1 I2 I3 I4 I5 I6 I7 I8 I9 I10 I11].
  pose proof (moved_values _ _ _ Hm) as Hvals.
  destruct Hm as [(r & Hf & Ht & Hr) [Hrow Hmt] Hlog Hnew H1 H2 H3 H4 H5].
  rewrite Forall_forall in Hall.
  assert (Hto : mv_to m ∉ map mv_to ms /\ mv_to m ∉ map mv_from ms).
  { split; intros (b & He & Hb)%list_elem_of_fmap; destruct (Hall b Hb) as (? & ? & ?); congruence. }
  assert (Hne : mv_from m <> mv_to m) by congruence.
  assert (Hfr : mv_from m ∉ map mv_from ms).
  { intros (b & He & Hb)%list_elem_of_fmap. destruct (Hall b Hb) as (? & ? & ?); congruence. }
  split.
  - intros m' [->|Hin]%elem_of_cons.
    + destruct (I3 (mv_to m)) as [-> ->]; [apply Hto..|]. rewrite Hr, Hmt, !lookup_insert_eq. by rewrite Hf.
    + destruct (Hall m' Hin) as (? & ? & ?). destruct (I1 m' Hin) as [-> ->]. split; [|done].
      by rewrite Hr, lookup_insert_ne, lookup_delete_ne by done.
  - intros m' Hin Hn. cbn in Hn. apply not_elem_of_cons in Hn as [Hn1 Hn2].
    apply elem_of_cons in Hin as [->|Hin]; [|by apply I2].
    destruct (I3 (mv_from m)) as [-> ->]; [done..|].
    by rewrite Hr, Hmt, !lookup_insert_ne, !lookup_delete_eq by done.
  - intros n [Hn1 Hn2]%not_elem_of_cons [Hn3 Hn4]%not_elem_of_cons.
    destruct (I3 n) as [-> ->]; [done..|]. by rewrite Hr, Hmt, !lookup_insert_ne, !lookup_delete_ne by done.
  - intros m' k row [->|Hin]%elem_of_cons Hk; [|by eapply I4].
    apply I5. rewrite Hlog, Hk. apply lookup_insert_eq.
  - intros k row Hk. apply I5. rewrite Hlog. destruct (mv_log m) as [[k' row']|]; [|done].
    rewrite lookup_insert_ne; [done|]. intros ->. by rewrite (Hnew _ _ eq_refl) in Hk.
  - by rewrite I6.
  - congruence.
  - congruence.
  - congruence.
  - congruence.
  - congruence.
Qed.

(** Blocks of moves, with the names they use, of which none occurs twice. *)
Lemma apart_blocks (blocks : list (list Move * list QualifiedName)) :
  Forall (fun b => ForallOrdPairs apart b.1 /\ forall m, m ∈ b.1 -> mv_from m ∈ b.2 /\ mv_to m ∈ b.2) blocks ->
  NoDup (concat (map snd blocks)) -> ForallOrdPairs apart (concat (map fst blocks)).
Proof.
  induction 1 as [|[b names] bs [Hb Hn] Hbs IH]; intros Hnd; [constructor|]. cbn in *.
  apply NoDup_app in Hnd as (_ & Hdisj & Hnd). specialize (IH Hnd).
  assert (Hcross : forall a c, a ∈ b -> c ∈ concat (map fst bs) -> apart a c).
  { intros a c Ha Hc. destruct (Hn a Ha) as [Ha1 Ha2].
    apply list_elem_of_In, in_concat in Hc as (b' & Hb' & Hc%list_elem_of_In).
    apply in_map_iff in Hb' as ([b2 names'] & <- & Hb'%list_elem_of_In). rewrite Forall_forall in Hbs.
    destruct (Hbs _ Hb') as [_ Hn']. destruct (Hn' c Hc) as [Hc1 Hc2]. cbn in *.
    assert (Hin : forall n, n ∈ names' -> n ∈ concat (map snd bs)).
    { intros n Hnn. apply list_elem_of_In, in_concat. exists names'.
      split; [|by apply list_elem_of_In]. apply list_elem_of_In in Hb'. by apply (in_map snd) in Hb'. }
    split_and!; intros E.
    - apply (Hdisj (mv_from c)); [by rewrite E|by apply Hin].
    - apply (Hdisj (mv_from c)); [by rewrite E|by apply Hin].
    - apply (Hdisj (mv_to c)); [by rewrite E|by apply Hin]. }
  clear -Hb IH Hcross. induction Hb as [|a b Ha Hb IHb]; [done|]. constructor.
  - apply Forall_app. split; [done|]. apply Forall_forall. intros c Hc. apply Hcross; [left|done].
  - apply IHb. intros. apply Hcross; [by right|done].
Qed.

(** ** Lemmas: what the statements do *)

Section steps.
Context (refused : string -> option string) (sha256 : bytes -> bytes) (now : Z).

Lemma rename_table_Ok table new_name db db' :
  rename_table refused table new_name db = Ok db' ->
  let to := mkQualifiedName (qn_schema table) new_name in
  exists r, sd_relations db !! table = Some r /\ sd_relations db !! to = None /\
    db' = with_relations (fun m => <[to := r]> (delete table m)) db.
Proof.
  intros H to. unfold rename_table in H. apply bind_Ok in H as (sql & _ & H). apply executed_effect in H.
  destruct (sd_relations db !! table) as [r|]; [|done]. fold to in H.
  destruct (name_taken db to) eqn:Hn; [done|]. injection H as <-. exists r. split_and!; [done| |done].
  unfold name_taken in Hn. apply orb_false_iff in Hn as [Hn%bool_decide_eq_false _].
  by apply eq_None_not_Some.
Qed.

Lemma relocate_metadata_Ok from to record state token db db' :
  relocate_metadata from to record state token db = Ok db' ->
  is_Some (sd_managed_tables db !! from) /\
  db' = with_managed_tables (fun m => <[to := relocated_row record state token]> (delete from m)) db.
Proof.
  intros H. unfold relocate_metadata in H. apply bind_Ok in H as (db1 & H1 & H).
  apply bind_Ok in H as (g & _ & H). apply delete_managed_table_Ok in H1 as (row & Hrow & _ & ->).
  apply insert_managed_table_Ok in H as (_ & ->). split; [by eexists|done].
Qed.

Definition quarantine_move (request : SnapshotActivationRequest) (plan : QuarantinePlan) : Move :=
  mkMove (qp_original plan) (qp_quarantine plan)
    (relocated_row (qp_record plan) StQuarantined (pf_fencing_token (sar_fence request)))
    (Some ((sar_snapshot_group_id request, qp_original plan), reconciliation_row now request plan)).

Lemma name_eta n : mkQualifiedName (qn_schema n) (qn_name n) = n.
Proof. by destruct n. Qed.

Lemma quarantine_table_Ok request plan db db' :
  qn_schema (qp_quarantine plan) = qn_schema (qp_original plan) ->
  quarantine_table refused now request plan db = Ok db' -> moved (quarantine_move request plan) db db'.
Proof.
  intros Hs H. unfold quarantine_table in H. apply bind_Ok in H as (db1 & H1 & H).
  apply rename_table_Ok in H1 as (r & Hf & Ht & ->). rewrite <- Hs, name_eta in Ht.
  apply bind_Ok in H as (db2 & H2 & H). apply relocate_metadata_Ok in H2 as (Hrow & ->).
  unfold record_reconciliation in H. apply bind_Ok in H as (? & _ & H). apply bind_Ok in H as (? & _ & H).
  destruct (negb _); [done|]. case_bool_decide as Hlog; [done|]. injection H as <-.
  split; try done; cbn.
  - exists r. rewrite <- Hs, name_eta. done.
  - intros k row [= <- <-]. by apply eq_None_not_Some.
Qed.

Definition promotion (request : SnapshotActivationRequest) (table : SnapshotActivationTable)
    (shadow : ManagedTableRecord) : Move :=
  mkMove (sat_shadow table) (sat_target table)
    (relocated_row shadow StActive (pf_fencing_token (sar_fence request))) None.

Lemma promotion_Ok request table shadow db db1 db' :
  validate_table table = Ok tt ->
  promote_shadow refused table db = Ok db1 ->
  relocate_metadata (sat_shadow table) (sat_target table) shadow StActive
    (pf_fencing_token (sar_fence request)) db1 = Ok db' ->
  moved (promotion request table shadow) db db'.
Proof.
  intros Hv H1 H2. unfold validate_table in Hv. case_bool_decide as Hne; [done|].
  case_bool_decide as Hs; [done|].
  unfold promote_shadow in H1. case_bool_decide as Hn.
  { exfalso. apply Hne. rewrite <- (name_eta (sat_target table)), <- (name_eta (sat_shadow table)). congruence. }
  cbn in H1. apply rename_table_Ok in H1 as (r & Hf & Ht & ->). rewrite <- Hs, name_eta in Ht.
  apply relocate_metadata_Ok in H2 as (Hrow & ->). split; try done. cbn.
  exists r. rewrite <- Hs, name_eta. done.
Qed.

Definition quarantine_moves request (table : SnapshotActivationTable)
    (previous_active : option ManagedTableRecord) (quarantine : option QualifiedName) : list Move :=
  match previous_active, quarantine with
  | Some previous_active, Some quarantine =>
      [quarantine_move request (mkQuarantinePlan (sat_target table) quarantine previous_active Replaced)]
  | _, _ => []
  end.

(** The moves of one table of the group. *)
Definition table_moves (request : SnapshotActivationRequest)
    (entry : SnapshotActivationTable * TableActivationState * option QualifiedName) : list Move :=
  match entry.1.2 with
  | Pending shadow previous_active =>
      quarantine_moves request entry.1.1 previous_active entry.2 ++ [promotion request entry.1.1 shadow]
  | Active => []
  end.

(** The quarantine of a table is planned exactly when it replaces an active one, in its schema. *)
Definition planned (entry : SnapshotActivationTable * TableActivationState * option QualifiedName) : Prop :=
  validate_table entry.1.1 = Ok tt /\
  exists shadow previous, entry.1.2 = Pending shadow previous /\
    match previous, entry.2 with
    | Some _, Some quarantine => qn_schema quarantine = qn_schema (sat_target entry.1.1)
    | None, None => True
    | _, _ => False
    end.

Lemma activate_table_Ok request qs db entry qs' db' :
  planned entry -> activate_table refused now request (qs, db) entry = Ok (qs', db') ->
  qs' = qs ++ option_list entry.2 /\ moves (table_moves request entry) db db'.
Proof.
  destruct entry as [[table state] q]. unfold planned, table_moves. cbn.
  intros (Hv & shadow & previous & -> & Hq) H.
  destruct previous as [previous|], q as [q|]; try done.
  - apply bind_Ok in H as ([qs1 db1] & H1 & H). apply bind_Ok in H1 as (db1' & H1 & E). injection E as <- <-.
    apply bind_Ok in H as (db2 & H2 & H). apply bind_Ok in H as (db3 & H3 & H). injection H as <- <-.
    split; [done|]. apply quarantine_table_Ok in H1; [|done]. cbn. econstructor; [exact H1|].
    apply moves_one. eapply promotion_Ok; eassumption.
  - cbn in H. apply bind_Ok in H as (db2 & H2 & H). apply bind_Ok in H as (db3 & H3 & H). injection H as <- <-.
    split; [by rewrite app_nil_r|]. apply moves_one. eapply promotion_Ok; eassumption.
Qed.

Lemma activate_tables_Ok request entries qs db qs' db' :
  Forall planned entries ->
  foldM (activate_table refused now request) (qs, db) entries = Ok (qs', db') ->
  qs' = qs ++ omap snd entries /\ moves (concat (map (table_moves request) entries)) db db'.
Proof.
  intros Hp. revert qs db. induction Hp as [|e es He Hes IH]; intros qs db H; cbn [foldM] in H.
  { injection H as <- <-. split; [by rewrite app_nil_r|constructor]. }
  apply bind_Ok in H as ([qs1 db1] & H1 & H). apply activate_table_Ok in H1 as [-> Hm]; [|done].
  destruct (IH _ _ H) as [-> Hms]. split.
  - rewrite <- app_assoc. f_equal. cbn. by destruct e as [[] [q|]].
  - cbn. eapply moves_app; eassumption.
Qed.

Lemma apply_stale_quarantines_Ok request plans db qs db' :
  Forall (fun p => qn_schema (qp_quarantine p) = qn_schema (qp_original p)) plans ->
  apply_stale_quarantines refused now request plans db = Ok (qs, db') ->
  qs = map qp_quarantine plans /\ moves (map (quarantine_move request) plans) db db'.
Proof.
  intros Hp H. unfold apply_stale_quarantines in H.
  enough (forall qs0, foldM (fun '(quarantined, db) plan =>
    let? db := quarantine_table refused now request plan db in
    Ok (quarantined ++ [qp_quarantine plan], db)) (qs0, db) plans = Ok (qs, db') ->
    qs = qs0 ++ map qp_quarantine plans /\ moves (map (quarantine_move request) plans) db db') as Hg
    by exact (Hg [] H).
  clear H. induction Hp as [|p ps Hp Hps IH] in db |- *; intros qs0 H; cbn [foldM] in H.
  { injection H as <- <-. split; [by rewrite app_nil_r|constructor]. }
  apply bind_Ok in H as ([qs1 db1] & H1 & H). apply bind_Ok in H1 as (db1' & H1 & E). injection E as <- <-.
  apply quarantine_table_Ok in H1; [|done]. destruct (IH _ _ H) as [-> Hms]. split.
  - by rewrite <- app_assoc.
  - cbn. econstructor; eassumption.
Qed.
End steps.

(** ** Lemmas: preflight *)

Lemma load_relation_state_Ok db n state :
  load_relation_state db n = Ok state ->
  match state with
  | Vacant => sd_relations db !! n = None /\ sd_managed_tables db !! n = None
  | Unmanaged => sd_managed_tables db !! n = None
  | ManagedObjectMissing _ => sd_relations db !! n = None
  | Managed record => is_Some (sd_relations db !! n) /\
      exists row, sd_managed_tables db !! n = Some row /\ managed_table_record_from_row n row = Ok record
  end.
Proof.
  intros H. unfold load_relation_state in H. apply bind_Ok in H as (record & Hr & H).
  unfold relation_exists in H. case_bool_decide as He.
  - destruct (sd_managed_tables db !! n) as [row|]; cbn in Hr.
    + apply bind_Ok in Hr as (rec & Hr & E). injection E as <-. injection H as <-. split; [done|]. by exists row.
    + injection Hr as <-. injection H as <-. done.
  - apply eq_None_not_Some in He. destruct (sd_managed_tables db !! n) as [row|]; cbn in Hr.
    + apply bind_Ok in Hr as (rec & Hr & E). injection E as <-. injection H as <-. done.
    + injection Hr as <-. injection H as <-. done.
Qed.

Lemma qualified_name_Ok schema name n : qualified_name schema name = Ok n -> n = mkQualifiedName schema name.
Proof.
  intros H. unfold qualified_name, schema_err, core_err, QualifiedName_new in H.
  apply map_err_Ok in H. apply map_err_Ok in H. apply bind_Ok in H as (? & _ & H).
  apply bind_Ok in H as (? & _ & H). by injection H as <-.
Qed.

Section preflight.
Context (sha256 : bytes -> bytes)
  (row_order : list (QualifiedName * ManagedTableRow) -> list (QualifiedName * ManagedTableRow)).

Definition vacant (db : TargetDb) (n : QualifiedName) : Prop :=
  sd_relations db !! n = None /\ sd_managed_tables db !! n = None.

Lemma reserve_quarantine_Ok db reserved target record q reserved' :
  reserve_quarantine sha256 db reserved target record = Ok (q, reserved') ->
  quarantine_name sha256 target record = Ok q /\ qn_schema q = qn_schema target /\ q ∉ reserved /\
  vacant db q /\ reserved' = {[q]} ∪ reserved.
Proof.
  intros H. unfold reserve_quarantine in H. apply bind_Ok in H as (q' & Hq & H).
  case_bool_decide as Hin; [done|]. apply bind_Ok in H as (state & Hs & H).
  destruct state; try done. injection H as <- <-. apply load_relation_state_Ok in Hs.
  split_and!; try done. unfold quarantine_name in Hq. by apply qualified_name_Ok in Hq as ->.
Qed.

(** What a preflight makes of a table and its state. *)
Definition replaced_plan (db : TargetDb) (table : SnapshotActivationTable) (state : TableActivationState)
    (quarantine : option QualifiedName) : Prop :=
  exists shadow previous, state = Pending shadow previous /\
    match previous, quarantine with
    | Some record, Some q => quarantine_name sha256 (sat_target table) record = Ok q /\
        qn_schema q = qn_schema (sat_target table) /\ vacant db q
    | None, None => True
    | _, _ => False
    end.

Lemma preflight_replaced_Ok db entries reserved qs reserved' :
  preflight_replaced sha256 db reserved entries = Ok (qs, reserved') ->
  Forall2 (fun e q => replaced_plan db e.1 e.2 q) entries qs /\
  NoDup (omap id qs) /\ (forall q, q ∈ omap id qs -> q ∉ reserved) /\
  forall n, n ∈ reserved' <-> n ∈ omap id qs \/ n ∈ reserved.
Proof.
  revert reserved qs. induction entries as [|[table state] es IH]; intros reserved qs H; cbn in H.
  { injection H as <- <-. split_and!; [constructor|constructor| |]; cbn; set_solver. }
  destruct state as [shadow previous|]; [|done]. apply bind_Ok in H as ([q r1] & H1 & H).
  apply bind_Ok in H as ([qs1 r2] & H2 & H). injection H as <- <-.
  apply IH in H2 as (Hf & Hnd & Hfresh & Hres). destruct previous as [previous|].
  - apply bind_Ok in H1 as ([q1 r1'] & H1 & E). injection E as <- <-.
    apply reserve_quarantine_Ok in H1 as (Hq & Hs & Hin & Hv & ->). cbn. split_and!.
    + constructor; [|done]. by exists shadow, (Some previous).
    + constructor; [|done]. intros Hc. apply (Hfresh q1); set_solver.
    + intros n [->|Hn]%elem_of_cons; [done|]. specialize (Hfresh n Hn). set_solver.
    + intros n. rewrite Hres. set_solver.
  - injection H1 as <- <-. cbn. split_and!; try done. constructor; [|done]. by exists shadow, None.
Qed.

Definition stale_plan (db : TargetDb) (s : StaleActiveTable) (p : QuarantinePlan) : Prop :=
  qp_original p = sl_target s /\ qp_record p = sl_record s /\ qp_reason p = Stale /\
  quarantine_name sha256 (sl_target s) (sl_record s) = Ok (qp_quarantine p) /\
  qn_schema (qp_quarantine p) = qn_schema (sl_target s) /\ vacant db (qp_quarantine p).

Lemma preflight_stale_Ok db stale reserved token plans :
  preflight_stale_quarantines sha256 db stale reserved token = Ok plans ->
  Forall2 (stale_plan db) stale plans /\ NoDup (map qp_quarantine plans) /\
  forall p, p ∈ plans -> qp_quarantine p ∉ reserved.
Proof.
  revert reserved plans. induction stale as [|s stale IH]; intros reserved plans H; cbn in H.
  { injection H as <-. split_and!; [constructor|constructor|]. by intros p ?%elem_of_nil. }
  apply bind_Ok in H as (? & _ & H). apply bind_Ok in H as ([q r1] & H1 & H).
  apply bind_Ok in H as (ps & H2 & H). injection H as <-. apply IH in H2 as (Hf & Hnd & Hfresh).
  apply reserve_quarantine_Ok in H1 as (Hq & Hs & Hin & Hv & ->). cbn. split_and!.
  - by constructor.
  - constructor; [|done]. intros (p & He & Hp)%list_elem_of_fmap. apply (Hfresh p Hp). rewrite <- He. set_solver.
  - intros p [->|Hp]%elem_of_cons; [done|]. specialize (Hfresh p Hp). set_solver.
Qed.

(** The rows of a pipeline's active tables. *)
Definition active_row (request : SnapshotActivationRequest) (row : ManagedTableRow) : Prop :=
  mt_pipeline_id row = pf_pipeline_id (sar_fence request) /\ mt_state row = "active".

Record stale_tables (db : TargetDb) (request : SnapshotActivationRequest) (stale : list StaleActiveTable) : Prop := {
  stl_distinct : NoDup (map sl_target stale);
  stl_rows : forall s, s ∈ stale -> (exists row, sd_managed_tables db !! sl_target s = Some row /\
    active_row request row /\ managed_table_record_from_row (sl_target s) row = Ok (sl_record s)) /\
    is_Some (sd_relations db !! sl_target s) /\ sl_target s ∉ map sat_target (sar_tables request);
  stl_all : forall n row, sd_managed_tables db !! n = Some row -> active_row request row ->
    valid_name n /\ (n ∈ map sat_target (sar_tables request) \/ n ∈ map sl_target stale);
}.

Lemma qualified_name_valid n q : qualified_name (qn_schema n) (qn_name n) = Ok q -> q = n /\ valid_name n.
Proof.
  intros H. split; [by rewrite (qualified_name_Ok _ _ _ H), name_eta|].
  unfold qualified_name, schema_err, core_err, QualifiedName_new in H.
  apply map_err_Ok in H. apply map_err_Ok in H. apply bind_Ok in H as ([] & H1 & H).
  apply bind_Ok in H as ([] & H2 & H). split; by apply validate_identifier_Ok.
Qed.

Lemma in_request tables n :
  existsb (fun table => bool_decide (sat_target table = n)) tables = true <-> n ∈ map sat_target tables.
Proof.
  rewrite existsb_exists, list_elem_of_fmap. split.
  - intros (t & Ht%list_elem_of_In & E%bool_decide_eq_true). by exists t.
  - intros (t & -> & Ht). exists t. split; [by apply list_elem_of_In|]. by apply bool_decide_eq_true.
Qed.

Hypothesis Hrows : forall l, row_order l ≡ₚ l.

(** What the loop has collected from the rows it has seen. *)
Definition collected (db : TargetDb) (request : SnapshotActivationRequest)
    (rows : list (QualifiedName * ManagedTableRow)) (stale : list StaleActiveTable) : Prop :=
  (forall s, s ∈ stale -> (exists row, (sl_target s, row) ∈ rows /\
    managed_table_record_from_row (sl_target s) row = Ok (sl_record s)) /\
    is_Some (sd_relations db !! sl_target s) /\ sl_target s ∉ map sat_target (sar_tables request)) /\
  (forall r, r ∈ rows -> valid_name r.1 /\
    (r.1 ∈ map sat_target (sar_tables request) \/ r.1 ∈ map sl_target stale)) /\
  map sl_target stale `sublist_of` map fst rows.

Lemma collect_stale_Ok db request rows stale :
  foldM (collect_stale db request) [] rows = Ok stale -> collected db request rows stale.
Proof.
  apply (foldM_ind _ (collected db request)).
  { split_and!; [by intros s ?%elem_of_nil|by intros s ?%elem_of_nil|done]. }
  intros pre [n row] s1 s2 (I1 & I2 & I3) _ H. apply bind_Ok in H as (q & Hq & H). cbn in Hq.
  apply qualified_name_valid in Hq as [-> Hvalid].
  assert (Hpre : forall s, s ∈ s1 -> (exists row', (sl_target s, row') ∈ pre ++ [(n, row)] /\
    managed_table_record_from_row (sl_target s) row' = Ok (sl_record s)) /\
    is_Some (sd_relations db !! sl_target s) /\ sl_target s ∉ map sat_target (sar_tables request)).
  { intros s Hs. destruct (I1 s Hs) as ((r & Hr & ?) & ?). split; [|done]. exists r. set_solver. }
  destruct (existsb _ _) eqn:Hex.
  - injection H as <-. apply in_request in Hex. split_and!; [done| |].
    + intros r [Hr|Hr%list_elem_of_singleton]%elem_of_app; [by apply I2|]. subst r. split; [done|by left].
    + rewrite map_app. by apply sublist_inserts_r.
  - apply bind_Ok in H as (record & Hr & H). apply bind_Ok in H as (? & _ & H). cbn in Hr.
    unfold relation_exists in H. case_bool_decide as Hrel; [|done]. injection H as <-.
    assert (Hn : n ∉ map sat_target (sar_tables request)) by (rewrite <- in_request, Hex; done).
    split_and!.
    + intros s [Hs|Hs%list_elem_of_singleton]%elem_of_app; [by apply Hpre|]. subst s. split; [|done].
      exists row. split; [set_solver|done].
    + intros r [Hr'|Hr'%list_elem_of_singleton]%elem_of_app; [|subst r].
      * destruct (I2 r Hr') as [? [?|?]]; split; try done; [by left|right; rewrite map_app; set_solver].
      * split; [done|]. right. rewrite map_app. apply elem_of_app. right. by left.
    + rewrite !map_app. apply sublist_app; [done|]. done.
Qed.

Lemma load_stale_Ok db request stale :
  load_stale_active_tables row_order db request = Ok stale -> stale_tables db request stale.
Proof.
  intros H. unfold load_stale_active_tables in H. apply collect_stale_Ok in H. revert H.
  set (rows := row_order _). intros (H1 & H2 & H3).
  assert (Hin : forall r, r ∈ rows <-> sd_managed_tables db !! r.1 = Some r.2 /\ active_row request r.2).
  { intros [n row]. unfold rows. rewrite Hrows, list_elem_of_filter, elem_of_map_to_list. cbn.
    unfold active_row. tauto. }
  split.
  - eapply sublist_NoDup; [|exact H3]. unfold rows. rewrite Hrows.
    eapply sublist_NoDup; [apply (NoDup_fst_map_to_list (sd_managed_tables db))|].
    apply (fmap_sublist fst), sublist_filter.
  - intros s Hs. destruct (H1 s Hs) as ((row & Hrow & Hr) & Hrel & Hn). split_and!; [|done..].
    exists row. apply Hin in Hrow as [? ?]. done.
  - intros n row Hn Hact. apply (H2 (n, row)). by apply Hin.
Qed.
End preflight.

(** ** Lemmas: classification *)

Lemma managed_table_record_from_row_Ok n row r :
  managed_table_record_from_row n row = Ok r ->
  mr_pipeline_id r = mt_pipeline_id row /\ mr_snapshot_group_id r = mt_snapshot_group_id row /\
  mr_relation_oid r = mt_relation_oid row /\ mr_source_relation_id r = mt_source_relation_id row /\
  mr_table_generation r = mt_table_generation row /\ mr_schema_fingerprint r = mt_schema_fingerprint row /\
  mr_fencing_token r = mt_fencing_token row /\ mt_state row = ManagedTableState_as_str (mr_state r) /\
  (0 <= mr_source_relation_id r <= u32_max)%Z /\ (0 <= mr_table_generation r)%Z.
Proof.
  intros H. unfold managed_table_record_from_row in H.
  apply bind_Ok in H as (source & Hs & H). apply bind_Ok in H as (generation & Hg & H).
  apply bind_Ok in H as (state & Hst & H). injection H as <-. cbn.
  destruct (Z.leb_spec 0 (mt_source_relation_id row)), (Z.leb_spec (mt_source_relation_id row) u32_max);
    try done. injection Hs as <-. destruct (Z.leb_spec 0 (mt_table_generation row)); [|done]. injection Hg as <-.
  unfold ManagedTableState_parse in Hst. split_and!; try done.
  repeat (case_bool_decide; [by injection Hst as <-|]). done.
Qed.

(** Reading back a row that a move has written. *)
Lemma relocated_row_record n record state token :
  (0 <= mr_source_relation_id record <= u32_max)%Z -> (0 <= mr_table_generation record)%Z ->
  managed_table_record_from_row n (relocated_row record state token) =
  Ok (mkManagedTableRecord (mr_pipeline_id record) (mr_snapshot_group_id record) (mr_relation_oid record)
        (mr_source_relation_id record) (mr_table_generation record) (mr_schema_fingerprint record) state token).
Proof.
  intros Hs Hg. unfold managed_table_record_from_row. cbn [relocated_row mt_source_relation_id mt_table_generation mt_state].
  rewrite in_range_true by done. cbn [mbind result_bind]. rewrite (proj2 (Z.leb_le _ _)) by done.
  cbn [mbind result_bind]. by destruct state.
Qed.

Lemma managed_identity_Ok n r pipeline source u :
  validate_managed_identity n r pipeline source = Ok u ->
  mr_pipeline_id r = pipeline /\ mr_source_relation_id r = source.
Proof.
  unfold validate_managed_identity. destruct (Z.eqb_spec (mr_pipeline_id r) pipeline); [|done].
  by destruct (Z.eqb_spec (mr_source_relation_id r) source).
Qed.

Lemma require_state_Ok n r s u : require_state n r s = Ok u -> mr_state r = s.
Proof. unfold require_state. by case_bool_decide. Qed.

(** The record that the database keeps for a name whose relation exists. *)
Definition managed_as (db : TargetDb) (n : QualifiedName) (r : ManagedTableRecord) : Prop :=
  is_Some (sd_relations db !! n) /\
  exists row, sd_managed_tables db !! n = Some row /\ managed_table_record_from_row n row = Ok r.

Record is_shadow (db : TargetDb) (request : SnapshotActivationRequest) (table : SnapshotActivationTable)
    (r : ManagedTableRecord) : Prop := {
  is_managed : managed_as db (sat_shadow table) r;
  is_state : mr_state r = StShadow;
  is_pipeline : mr_pipeline_id r = pf_pipeline_id (sar_fence request);
  is_source : mr_source_relation_id r = sat_source_relation_id table;
  is_group : mr_snapshot_group_id r = Some (sar_snapshot_group_id request);
  is_generation : mr_table_generation r = sat_table_generation table;
  is_fingerprint : mr_schema_fingerprint r = sat_schema_fingerprint table;
}.

Record is_active (db : TargetDb) (request : SnapshotActivationRequest) (table : SnapshotActivationTable)
    (r : ManagedTableRecord) : Prop := {
  ia_managed : managed_as db (sat_target table) r;
  ia_state : mr_state r = StActive;
  ia_pipeline : mr_pipeline_id r = pf_pipeline_id (sar_fence request);
  ia_source : mr_source_relation_id r = sat_source_relation_id table;
}.

Definition classified (db : TargetDb) (request : SnapshotActivationRequest) (table : SnapshotActivationTable)
    (state : TableActivationState) : Prop :=
  match state with
  | Pending shadow previous =>
      is_shadow db request table shadow /\
      match previous with
      | Some active => is_active db request table active /\
          (mr_table_generation active < sat_table_generation table)%Z
      | None => vacant db (sat_target table)
      end
  | Active => vacant db (sat_shadow table) /\ exists active, is_active db request table active /\
      matches_activation active table (sar_snapshot_group_id request) = true
  end.

Lemma classify_target_Ok db request table state active :
  load_relation_state db (sat_target table) = Ok state ->
  classify_target request table state = Ok active ->
  match active with Some r => is_active db request table r | None => vacant db (sat_target table) end.
Proof.
  intros Hs H. apply load_relation_state_Ok in Hs. destruct state as [| | |r]; try done; cbn in H.
  - by injection H as <-.
  - apply bind_Ok in H as (? & Hi%managed_identity_Ok & H). apply bind_Ok in H as (? & _ & H).
    apply bind_Ok in H as (? & Hst%require_state_Ok & H). injection H as <-. destruct Hi. by split.
Qed.

Lemma classify_shadow_Ok db request table state shadow :
  load_relation_state db (sat_shadow table) = Ok state ->
  classify_shadow request table state = Ok shadow ->
  match shadow with Some r => is_shadow db request table r | None => vacant db (sat_shadow table) end.
Proof.
  intros Hs H. apply load_relation_state_Ok in Hs. destruct state as [| | |r]; try done; cbn in H.
  - by injection H as <-.
  - apply bind_Ok in H as (? & Hi%managed_identity_Ok & H). apply bind_Ok in H as (? & _ & H).
    apply bind_Ok in H as (? & Hst%require_state_Ok & H). case_bool_decide; [|done]. cbn in H.
    destruct (Z.eqb_spec (mr_table_generation r) (sat_table_generation table)); [|done]. cbn in H.
    case_bool_decide; [|done]. cbn in H. injection H as <-. destruct Hi. by split.
Qed.

Lemma classify_Ok db request table state : classify db request table = Ok state -> classified db request table state.
Proof.
  intros H. unfold classify in H. apply bind_Ok in H as (t & Ht & H). apply bind_Ok in H as (s & Hs & H).
  apply bind_Ok in H as (active & Ha & H). apply bind_Ok in H as (shadow & Hsh & H).
  apply (classify_target_Ok db) in Ha; [|done]. apply (classify_shadow_Ok db) in Hsh; [|done].
  destruct active as [active|], shadow as [shadow|]; try done.
  - destruct (matches_activation _ _ _); [done|].
    destruct (Z.leb_spec (sat_table_generation table) (mr_table_generation active)); [done|].
    by injection H as <-.
  - destruct (matches_activation _ _ _) eqn:Hm; [|done]. injection H as <-. split; [done|]. by exists active.
  - by injection H as <-.
Qed.

Lemma load_relation_state_vacant db n : vacant db n -> load_relation_state db n = Ok Vacant.
Proof.
  intros [Hr Hm]. unfold load_relation_state, relation_exists. rewrite Hm. cbn.
  by rewrite bool_decide_false by (rewrite Hr; by intros [? ?]).
Qed.

Lemma load_relation_state_managed db n r : managed_as db n r -> load_relation_state db n = Ok (Managed r).
Proof.
  intros [Hr (row & Hm & Hrow)]. unfold load_relation_state, relation_exists. rewrite Hm, Hrow. cbn.
  by rewrite bool_decide_true.
Qed.

(** An active table of the group, its shadow gone, is classified as active under any token that is
    not older. *)
Lemma classify_active db request table r :
  is_active db request table r -> vacant db (sat_shadow table) ->
  matches_activation r table (sar_snapshot_group_id request) = true ->
  (mr_fencing_token r <= pf_fencing_token (sar_fence request))%Z ->
  classify db request table = Ok Active.
Proof.
  intros [Hm Hst Hp Hsrc] Hv Hmatch Htok. unfold classify.
  rewrite (load_relation_state_managed db (sat_target table) r) by done.
  rewrite (load_relation_state_vacant db (sat_shadow table)) by done.
  cbn [mbind result_bind]. unfold classify_table, classify_target, validate_managed_identity, validate_managed_fence, require_state.
  rewrite Hp, Hsrc, !Z.eqb_refl. rewrite (proj2 (Z.ltb_ge _ _)) by done. rewrite bool_decide_true by done.
  cbn [negb mbind result_bind classify_shadow]. by rewrite Hmatch.
Qed.

(** ** Lemmas: checkpoints *)

Lemma advance_checkpoints_Ok fence db checkpoints db' :
  Forall typed checkpoints -> NoDup (map nc_key checkpoints) ->
  advance_checkpoints fence db checkpoints = Ok db' ->
  db' = with_meta (fun _ => sd_meta db') db /\
  m_pipeline_state (sd_meta db') = m_pipeline_state (sd_meta db) /\
  (forall c, c ∈ checkpoints ->
     read_checkpoint (sd_meta db') (nc_key c) = Ok (Some (mkStoredNodeCheckpoint c (pf_fencing_token fence)))) /\
  forall k, k ∉ map nc_key checkpoints ->
    m_node_checkpoints (sd_meta db') !! k = m_node_checkpoints (sd_meta db) !! k.
Proof.
  intros Ht Hnd H. induction checkpoints as [|c cs IH] in db, Ht, Hnd, H |- *; cbn in H.
  { injection H as <-. split_and!; [by destruct db|done|by intros c ?%elem_of_nil|done]. }
  apply Forall_cons in Ht as [Hc Ht]. apply NoDup_cons in Hnd as [Hn Hnd].
  apply bind_Ok in H as (db1 & H1 & H). apply bind_Ok in H1 as ([o meta] & H1 & E). injection E as <-.
  apply map_err_Ok in H1. apply (advance_node_checkpoint_Ok _ _ _ _ _ Hc) in H1.
  destruct H1 as [_ _ Hs Ho Hst _]. destruct (IH _ Ht Hnd H) as (Hdb & Hps & Hcs & Hk). cbn in *.
  split_and!.
  - done.
  - by rewrite Hps.
  - intros c' [->|Hin]%elem_of_cons; [|by apply Hcs]. unfold read_checkpoint in *. by rewrite Hk.
  - intros k [Hk1 Hk2]%not_elem_of_cons. rewrite Hk by done. by apply Ho.
Qed.

(** ** Lemmas: the moves of an activation *)

Notation Entry := (SnapshotActivationTable * TableActivationState * option QualifiedName)%type.

Definition entry_names (e : Entry) : list QualifiedName :=
  [sat_target e.1.1; sat_shadow e.1.1] ++ option_list e.2.
Definition plan_names (p : QuarantinePlan) : list QualifiedName := [qp_original p; qp_quarantine p].

Lemma entry_names_perm (entries : list Entry) :
  concat (map entry_names entries) ≡ₚ identities (map (fun e => e.1.1) entries) ++ omap snd entries.
Proof.
  induction entries as [|[[t s] q] es IH]; [done|]. cbn. rewrite IH. unfold identities.
  destruct q as [q|]; cbn; solve_Permutation.
Qed.

Lemma plan_names_perm plans : concat (map plan_names plans) ≡ₚ map qp_original plans ++ map qp_quarantine plans.
Proof. induction plans as [|p ps IH]; [done|]. cbn. rewrite IH. solve_Permutation. Qed.

Definition activation_moves (now : Z) (c : SnapshotActivationRequest) (entries : list Entry)
    (plans : list QuarantinePlan) : list Move :=
  concat (map (table_moves now c) entries) ++ map (quarantine_move now c) plans.

Lemma activation_moves_apart now c (entries : list Entry) plans :
  Forall planned entries ->
  NoDup (concat (map entry_names entries) ++ concat (map plan_names plans)) ->
  ForallOrdPairs apart (activation_moves now c entries plans).
Proof.
  intros Hp Hnd. unfold activation_moves.
  set (blocks := map (fun e => (table_moves now c e, entry_names e)) entries ++
                 map (fun p => ([quarantine_move now c p], plan_names p)) plans).
  replace (_ ++ _) with (concat (map fst blocks)).
  2: { unfold blocks. rewrite map_app, concat_app, !map_map. f_equal. clear.
       induction plans as [|p ps IH]; [done|]. cbn in *. by rewrite IH. }
  apply apart_blocks.
  2: { unfold blocks. by rewrite map_app, concat_app, !map_map. }
  apply Forall_app. split.
  - rewrite Forall_fmap. assert (Hnds : Forall (fun e => NoDup (entry_names e)) entries).
    { apply NoDup_app in Hnd as (Hnd & _). clear -Hnd. induction entries as [|e es IH]; [constructor|].
      cbn [map concat] in Hnd. apply NoDup_app in Hnd as (? & _ & ?). constructor; [done|by apply IH]. }
    rewrite Forall_forall in *. intros e He. specialize (Hp e He). specialize (Hnds e He). cbn.
    destruct Hp as (_ & shadow & previous & Hst & Hq). destruct e as [[t s] q]. unfold entry_names in *. cbn in *.
    unfold table_moves. cbn. rewrite Hst. destruct previous as [previous|], q as [q|]; try done; cbn in *.
    + apply NoDup_cons in Hnds as [H1 [H2 _]%NoDup_cons]. split.
      * repeat constructor; cbn; set_solver.
      * intros m [->|[->|[]%elem_of_nil]%elem_of_cons]%elem_of_cons; cbn; set_solver.
    + split; [repeat constructor|]. intros m [->|[]%elem_of_nil]%elem_of_cons; cbn; set_solver.
  - rewrite Forall_fmap, Forall_forall. intros p _. cbn. split; [repeat constructor|].
    intros m [->|[]%elem_of_nil]%elem_of_cons; cbn; set_solver.
Qed.

Lemma zip_entries (tables : list SnapshotActivationTable) (states : list TableActivationState)
    (qs : list (option QualifiedName)) :
  length tables = length states -> length states = length qs ->
  let entries := zip (zip tables states) qs in
  map (fun e => e.1.1) entries = tables /\ omap snd entries = omap id qs.
Proof.
  revert states qs. induction tables as [|t ts IH]; intros [|s ss] [|q qs] H1 H2; try done.
  destruct (IH ss qs) as [E1 E2]; [by injection H1|by injection H2|]. cbn in *. rewrite E1. split; [done|].
  destruct q; cbn; by rewrite E2.
Qed.

(** A successful activation of a loading group, in terms of its moves. *)
Record activation (sha256 : bytes -> bytes) (now : Z) (c : SnapshotActivationRequest) (db db' : TargetDb)
    (quarantined : list QualifiedName)
    (entries : list Entry) (stale : list StaleActiveTable) (plans : list QuarantinePlan) (db1 db2 : TargetDb)
    : Prop := {
  ac_tables : map (fun e => e.1.1) entries = sar_tables c;
  ac_classified : forall e, e ∈ entries -> classified db c e.1.1 e.1.2;
  ac_replaced : forall e, e ∈ entries -> replaced_plan sha256 db e.1.1 e.1.2 e.2;
  ac_stale : stale_tables db c stale;
  ac_plans : Forall2 (stale_plan sha256 db) stale plans;
  ac_names : NoDup (concat (map entry_names entries) ++ concat (map plan_names plans));
  ac_moved : moves_result (activation_moves now c entries plans) db db1;
  ac_checkpoints : advance_checkpoints (sar_fence c) db1 (sar_initial_checkpoints c) = Ok db2;
  ac_mark : mark_snapshot_group_active (sar_snapshot_group_id c) db2 = Ok db';
  ac_quarantined : quarantined = omap snd entries ++ map qp_quarantine plans;
}.

Arguments ac_tables {_ _ _ _ _ _ _ _ _ _ _}.
Arguments ac_classified {_ _ _ _ _ _ _ _ _ _ _}.
Arguments ac_replaced {_ _ _ _ _ _ _ _ _ _ _}.
Arguments ac_stale {_ _ _ _ _ _ _ _ _ _ _}.
Arguments ac_plans {_ _ _ _ _ _ _ _ _ _ _}.
Arguments ac_names {_ _ _ _ _ _ _ _ _ _ _}.
Arguments ac_moved {_ _ _ _ _ _ _ _ _ _ _}.
Arguments ac_checkpoints {_ _ _ _ _ _ _ _ _ _ _}.
Arguments ac_mark {_ _ _ _ _ _ _ _ _ _ _}.
Arguments ac_quarantined {_ _ _ _ _ _ _ _ _ _ _}.

Section activated.
Context (refused : string -> option string) (sha256 : bytes -> bytes)
  (text_order : list GroupTableRow -> list GroupTableRow)
  (row_order : list (QualifiedName * ManagedTableRow) -> list (QualifiedName * ManagedTableRow))
  (now : Z).
Hypothesis Hrows : forall l, row_order l ≡ₚ l.

Lemma canonical_ok request c : canonical_request request = Ok c -> request_ok c /\ canonical_of c = c.
Proof.
  intros [Hok ->]%canonical_request_Ok. split; [|by apply canonical_of_idemp].
  eapply request_ok_reordered; [|exact Hok]. destruct (reordered_canonical_of request). split; by symmetry.
Qed.

Lemma validate_exact_request_Ok stored request c :
  validate_exact_request stored request = Ok c -> canonical_request request = Ok c /\ sg_request stored = c.
Proof.
  intros H. unfold validate_exact_request in H. apply bind_Ok in H as (c' & Hc & H).
  case_bool_decide as He; [|done]. by injection H as <-.
Qed.

Lemma names_of_elem tables n : n ∈ names_of tables <-> n ∈ identities tables.
Proof. unfold names_of. by rewrite elem_of_list_to_set. Qed.

Lemma identities_elem tables n :
  n ∈ identities tables <-> exists t, t ∈ tables /\ (n = sat_target t \/ n = sat_shadow t).
Proof.
  induction tables as [|t ts IH]; cbn.
  - split; [by intros ?%elem_of_nil|]. by intros (t & ?%elem_of_nil & _).
  - rewrite !elem_of_cons. fold (identities ts). rewrite IH. set_solver.
Qed.

(** A stale table is neither a target nor a shadow of the group. *)
Lemma stale_not_identity db c stale s :
  stale_tables db c stale -> s ∈ stale ->
  (forall t, t ∈ sar_tables c -> exists state, classified db c t state /\ exists shadow previous, state = Pending shadow previous) ->
  sl_target s ∉ identities (sar_tables c).
Proof.
  intros [_ Hst _] Hs Hcl Hin. destruct (Hst s Hs) as ((row & Hrow & [_ Hact] & _) & _ & Hnt).
  apply identities_elem in Hin as (t & Ht & [E|E]).
  - apply Hnt. rewrite E. by apply list_elem_of_fmap_2.
  - destruct (Hcl t Ht) as (state & Hc & shadow & previous & ->).
    destruct Hc as [[[_ (row' & Hrow' & Hrec)] Hss _ _ _ _ _] _]. rewrite <- E, Hrow in Hrow'.
    injection Hrow' as <-. apply managed_table_record_from_row_Ok in Hrec as (_ & _ & _ & _ & _ & _ & _ & Hs' & _).
    rewrite Hss, Hact in Hs'. done.
Qed.

(** The names of all moves are distinct. *)
Lemma activation_names db c (entries : list Entry) stale plans (reserved : gset QualifiedName) :
  NoDup (identities (sar_tables c)) -> map (fun e => e.1.1) entries = sar_tables c ->
  stale_tables db c stale -> (forall s, s ∈ stale -> sl_target s ∉ identities (sar_tables c)) ->
  map qp_original plans = map sl_target stale ->
  NoDup (omap snd entries) -> NoDup (map qp_quarantine plans) ->
  (forall q, q ∈ omap snd entries -> q ∉ names_of (sar_tables c) ∪ list_to_set (map sl_target stale)) ->
  (forall n, n ∈ reserved <-> n ∈ omap snd entries \/ n ∈ names_of (sar_tables c) ∪ list_to_set (map sl_target stale)) ->
  (forall p, p ∈ plans -> qp_quarantine p ∉ reserved) ->
  NoDup (concat (map entry_names entries) ++ concat (map plan_names plans)).
Proof.
  intros Hid Ht Hst Hns Ho Hq1 Hq2 Hf1 Hres Hf2.
  assert (Hi : forall n, n ∈ identities (sar_tables c) -> n ∉ map sl_target stale).
  { intros n Hn (s & -> & Hs)%list_elem_of_fmap. by apply (Hns s Hs). }
  rewrite entry_names_perm, plan_names_perm, Ht, Ho.
  assert (Hp : forall n, n ∈ map qp_quarantine plans -> n ∉ reserved).
  { intros n (p & -> & Hp)%list_elem_of_fmap. by apply Hf2. }
  setoid_rewrite elem_of_union in Hf1. setoid_rewrite elem_of_union in Hres.
  setoid_rewrite names_of_elem in Hf1. setoid_rewrite names_of_elem in Hres.
  setoid_rewrite elem_of_list_to_set in Hf1. setoid_rewrite elem_of_list_to_set in Hres.
  setoid_rewrite Hres in Hp.
  rewrite !NoDup_app. split_and!; try done; try apply Hst.
  - intros n Hn Hq. specialize (Hf1 n Hq). tauto.
  - intros n [Hn|Hn]%elem_of_app [Hm|Hm]%elem_of_app.
    + by apply (Hi n).
    + specialize (Hp n Hm). tauto.
    + specialize (Hf1 n Hn). tauto.
    + specialize (Hp n Hm). tauto.
  - intros n Hn Hm. specialize (Hp n Hm). tauto.
Qed.

(** What the read-only part of an activation establishes about its tables. *)
Lemma planned_entries db c states stale qs (reserved : gset QualifiedName) plans :
  request_ok c -> Forall2 (fun t s => classify db c t = Ok s) (sar_tables c) states ->
  stale_tables db c stale ->
  preflight_replaced sha256 db (names_of (sar_tables c) ∪ list_to_set (map sl_target stale))
    (zip (sar_tables c) states) = Ok (qs, reserved) ->
  preflight_stale_quarantines sha256 db stale reserved (pf_fencing_token (sar_fence c)) = Ok plans ->
  let entries := zip (zip (sar_tables c) states) qs in
  map (fun e => e.1.1) entries = sar_tables c /\ Forall planned entries /\
  (forall e, e ∈ entries -> classified db c e.1.1 e.1.2) /\
  (forall e, e ∈ entries -> replaced_plan sha256 db e.1.1 e.1.2 e.2) /\
  Forall2 (stale_plan sha256 db) stale plans /\
  NoDup (concat (map entry_names entries) ++ concat (map plan_names plans)).
Proof.
  intros Hok Hstates Hstale Hpre Hplans entries.
  apply preflight_replaced_Ok in Hpre as (Hrep & Hnd1 & Hfresh1 & Hres).
  apply preflight_stale_Ok in Hplans as (Hpl & Hnd2 & Hfresh2).
  pose proof (Forall2_length _ _ _ Hstates) as Hl1. pose proof (Forall2_length _ _ _ Hrep) as Hl2.
  rewrite length_zip_with_l_eq in Hl2 by done. rewrite Hl1 in Hl2.
  destruct (zip_entries _ _ _ Hl1 Hl2) as [Et Eq]. fold entries in Et, Eq.
  assert (Hcl : forall e, e ∈ entries -> classified db c e.1.1 e.1.2).
  { intros [[t s] q] Hin. apply elem_of_zip_l in Hin. cbn in *.
    apply list_elem_of_lookup in Hin as [i Hi]. apply lookup_zip_Some in Hi as [Hi1 Hi2].
    apply classify_Ok. apply (Forall2_lookup_lr _ _ _ i _ _ Hstates Hi1 Hi2). }
  assert (Hrp : forall e, e ∈ entries -> replaced_plan sha256 db e.1.1 e.1.2 e.2).
  { intros [[t s] q] Hin. apply list_elem_of_lookup in Hin as [i Hi]. apply lookup_zip_Some in Hi as [Hi1 Hi2].
    apply (Forall2_lookup_lr _ _ _ i _ _ Hrep Hi1 Hi2). }
  split_and!; try done.
  - apply Forall_forall. intros e He. pose proof (ro_valid_tables _ Hok) as Hv. rewrite Forall_forall in Hv.
    split; [apply Hv; rewrite <- Et; apply list_elem_of_fmap; by exists e|].
    destruct (Hrp e He) as (shadow & previous & E & Hq). exists shadow, previous. split; [done|].
    destruct previous, e.2; try done. apply Hq.
  - eapply (activation_names db c); rewrite ?Eq; try done; [apply Hok| |].
    + intros s Hin. eapply stale_not_identity; [done..|]. intros t Ht. rewrite <- Et in Ht.
      apply list_elem_of_fmap in Ht as (e & -> & He). exists e.1.2. split; [by apply Hcl|].
      destruct (Hrp e He) as (shadow & previous & E & _). by exists shadow, previous.
    + clear -Hpl. induction Hpl as [|s p ss ps Hsp _ IH]; [done|]. cbn. rewrite IH. f_equal. apply Hsp.
Qed.

Lemma activated_Ok request db outcome db' :
  activate_snapshot_group refused sha256 text_order row_order now request db = Ok (outcome, db') ->
  exists c stored, canonical_request request = Ok c /\ request_ok c /\
    lock_pipeline_fence (sd_meta db) (sar_fence c) = Ok tt /\
    load_snapshot_group sha256 text_order db (sar_snapshot_group_id c) = Ok stored /\ sg_request stored = c /\
    match sao_disposition outcome with
    | Activated => sg_state stored = GroupLoading /\ exists entries stale plans db1 db2,
        activation sha256 now c db db' (sao_quarantined outcome) entries stale plans db1 db2
    | ActivationAlreadyActive => sg_state stored = GroupActive
    end.
Proof.
  intros H. unfold activate_snapshot_group in H.
  apply bind_Ok in H as (c & Hc & H). apply bind_Ok in H as ([] & Hlock & H). apply map_err_Ok in Hlock.
  apply bind_Ok in H as (stored & Hst & H). apply bind_Ok in H as (c' & Hex & H).
  destruct (canonical_ok _ _ Hc) as [Hok Hcan]. apply validate_exact_request_Ok in Hex as [Hc' Hsr].
  apply canonical_request_Ok in Hc' as [_ Hc']. rewrite Hcan in Hc'. subst c'.
  exists c, stored. split_and!; try done.
  apply bind_Ok in H as (states & Hstates%try_map_Ok & H).
  apply bind_Ok in H as (stale & Hstale%load_stale_Ok & H); [|done].
  apply bind_Ok in H as (is_active & Hact & H). destruct is_active.
  { case_bool_decide as Hs; [|done]. cbn in H. apply bind_Ok in H as (? & _ & H).
    apply bind_Ok in H as (? & _ & H). apply bind_Ok in H as ([q d] & _ & H). by injection H as <- <-. }
  case_bool_decide as Hs; [|done]. cbn in H. apply bind_Ok in H as (? & _ & H).
  apply bind_Ok in H as ([qs reserved] & Hpre & H). apply bind_Ok in H as (plans & Hplans & H).
  apply bind_Ok in H as ([q1 db1] & H1 & H). apply bind_Ok in H as ([q2 db2] & H2 & H).
  apply bind_Ok in H as (db3 & H3 & H). apply bind_Ok in H as (db4 & H4 & H). injection H as <- <-. cbn.
  split; [done|].
  destruct (planned_entries db c states stale qs reserved plans) as (Et & Hplanned & Hcl & Hrp & Hpl & Hnames);
    [done..|].
  set (entries := zip (zip (sar_tables c) states) qs) in *.
  apply activate_tables_Ok in H1 as [-> Hm1]; [|done].
  apply apply_stale_quarantines_Ok in H2 as [-> Hm2].
  2: { apply Forall_forall. intros p Hp. apply list_elem_of_lookup in Hp as [i Hi].
       destruct (Forall2_lookup_r _ _ _ _ _ Hpl Hi) as (s & _ & Ho & _ & _ & _ & Hsch & _). by rewrite Ho. }
  exists entries, stale, plans, db2, db3. split; try done.
  apply moves_spec; [eapply moves_app; eassumption|]. by apply activation_moves_apart.
Qed.
(** Marking a group active is all that changes in how it is loaded. *)
Lemma load_marked db db' group stored :
  load_snapshot_group sha256 text_order db group = Ok stored ->
  mark_snapshot_group_active group db = Ok db' ->
  load_snapshot_group sha256 text_order db' group = Ok (mkStoredSnapshotGroup GroupActive (sg_request stored)).
Proof.
  intros Hl Hm. unfold mark_snapshot_group_active in Hm.
  destruct (sd_groups db !! group) as [row|] eqn:Hrow; [|done]. case_bool_decide; [|done]. injection Hm as <-.
  unfold load_snapshot_group, load_snapshot_group_optional in *.
  cbn [with_groups sd_groups sd_group_tables sd_group_nodes]. rewrite lookup_insert_eq. rewrite Hrow in Hl.
  change (id (sd_group_tables db)) with (sd_group_tables db). change (id (sd_group_nodes db)) with (sd_group_nodes db).
  destruct (_ =? 0)%Z; [done|].
  cbn [gr_topology_generation gr_state gr_table_count gr_node_count gr_manifest_checksum gr_fencing_token gr_pipeline_id].
  apply bind_Ok in Hl as (o & Hl & Ho). apply bind_Ok in Hl as (g & -> & Hl). apply bind_Ok in Hl as (st & _ & Hl).
  apply bind_Ok in Hl as (tc & -> & Hl). apply bind_Ok in Hl as (nc & -> & Hl). cbn [mbind result_bind].
  assert (SnapshotGroupState_parse group "active" = Ok GroupActive) as -> by done. cbn [mbind result_bind].
  destruct (_ || _); [done|]. destruct (negb _); [done|]. apply bind_Ok in Hl as (ts & -> & Hl).
  cbn [mbind result_bind]. destruct (negb _); [done|]. apply bind_Ok in Hl as (cs & -> & Hl).
  cbn [mbind result_bind]. apply bind_Ok in Hl as (can & -> & Hl). cbn [mbind result_bind]. destruct (_ || _); [done|].
  injection Hl as <-. by injection Ho as <-.
Qed.

(** Loading a group only depends on the tables of the groups. *)
Lemma load_snapshot_group_groups db db' group :
  sd_groups db' = sd_groups db -> sd_group_tables db' = sd_group_tables db ->
  sd_group_nodes db' = sd_group_nodes db ->
  load_snapshot_group sha256 text_order db' group = load_snapshot_group sha256 text_order db group.
Proof. intros H1 H2 H3. unfold load_snapshot_group, load_snapshot_group_optional. by rewrite H1, H2, H3. Qed.

(** What an activation makes of the database. *)
Record activates (request : SnapshotActivationRequest) (db db' : TargetDb) (quarantined : list QualifiedName)
    : Prop := {
  (** Every target is the relation that was its shadow, under the row of the shadow. *)
  at_promoted : forall t, t ∈ sar_tables request -> exists r record,
    sd_relations db !! sat_shadow t = Some r /\ is_shadow db request t record /\
    sd_relations db' !! sat_target t = Some r /\
    sd_managed_tables db' !! sat_target t =
      Some (relocated_row record StActive (pf_fencing_token (sar_fence request))) /\
    vacant db' (sat_shadow t);
  (** Every table that was active is kept under a quarantine name, and logged. *)
  at_quarantined : forall n row, sd_managed_tables db !! n = Some row -> active_row request row ->
    exists r record q reason, sd_relations db !! n = Some r /\ managed_table_record_from_row n row = Ok record /\
      vacant db q /\ sd_relations db' !! q = Some r /\ q ∈ quarantined /\
      sd_managed_tables db' !! q =
        Some (relocated_row record StQuarantined (pf_fencing_token (sar_fence request))) /\
      sd_log db' !! (sar_snapshot_group_id request, n) =
        Some (reconciliation_row now request (mkQuarantinePlan n q record reason));
  at_quarantined_only : forall q, q ∈ quarantined -> exists n row record,
    sd_managed_tables db !! n = Some row /\ active_row request row /\
    sd_managed_tables db' !! q =
      Some (relocated_row record StQuarantined (pf_fencing_token (sar_fence request)));
  at_stale_gone : forall n row, sd_managed_tables db !! n = Some row -> active_row request row ->
    n ∉ map sat_target (sar_tables request) -> vacant db' n;
  (** No relation is lost, and no other name or log entry changes. *)
  at_values : (map_to_list (sd_relations db')).*2 ≡ₚ (map_to_list (sd_relations db)).*2;
  at_others : forall n, n ∉ identities (sar_tables request) -> n ∉ quarantined ->
    (forall row, sd_managed_tables db !! n = Some row -> ~ active_row request row) ->
    sd_relations db' !! n = sd_relations db !! n /\ sd_managed_tables db' !! n = sd_managed_tables db !! n;
  at_log : forall k row, sd_log db !! k = Some row -> sd_log db' !! k = Some row;
  (** The checkpoints of the group, and only they, are the initial ones. *)
  at_checkpoints : forall c, c ∈ sar_initial_checkpoints request ->
    read_checkpoint (sd_meta db') (nc_key c) =
      Ok (Some (mkStoredNodeCheckpoint c (pf_fencing_token (sar_fence request))));
  at_other_checkpoints : forall k, k ∉ map nc_key (sar_initial_checkpoints request) ->
    m_node_checkpoints (sd_meta db') !! k = m_node_checkpoints (sd_meta db) !! k;
  at_fences : m_pipeline_state (sd_meta db') = m_pipeline_state (sd_meta db);
  (** The group is active. *)
  at_group : load_snapshot_group sha256 text_order db' (sar_snapshot_group_id request) =
    Ok (mkStoredSnapshotGroup GroupActive (canonical_of request));
}.
Section consequences.
Context (c : SnapshotActivationRequest) (db db' : TargetDb) (quarantined : list QualifiedName)
  (entries : list Entry) (stale : list StaleActiveTable) (plans : list QuarantinePlan) (db1 db2 : TargetDb).
Hypothesis Hok : request_ok c.
Hypothesis Hac : activation sha256 now c db db' quarantined entries stale plans db1 db2.

Notation ms := (activation_moves now c entries plans).

Lemma table_entry t : t ∈ sar_tables c -> exists e, e ∈ entries /\ e.1.1 = t.
Proof.
  intros Ht. rewrite <- (ac_tables Hac) in Ht.
  apply list_elem_of_fmap in Ht as (e & -> & He). by exists e.
Qed.

Lemma entry_table e : e ∈ entries -> e.1.1 ∈ sar_tables c.
Proof.
  intros He. rewrite <- (ac_tables Hac). apply list_elem_of_fmap. by exists e.
Qed.

Lemma entry_pending e : e ∈ entries -> exists shadow previous, e.1.2 = Pending shadow previous.
Proof.
  intros He. destruct (ac_replaced Hac e He) as (sh & pr & E & _). by exists sh, pr.
Qed.

Lemma table_move_in e m : e ∈ entries -> m ∈ table_moves now c e -> m ∈ ms.
Proof.
  intros He Hm. apply elem_of_app. left. apply list_elem_of_In, in_concat. exists (table_moves now c e).
  split; [by apply in_map, list_elem_of_In|by apply list_elem_of_In].
Qed.

Lemma move_cases m : m ∈ ms ->
  (exists e, e ∈ entries /\ m ∈ table_moves now c e) \/ (exists p, p ∈ plans /\ m = quarantine_move now c p).
Proof.
  intros [Hm|Hm]%elem_of_app; [left|right].
  - apply list_elem_of_In, in_concat in Hm as (b & Hb & Hm%list_elem_of_In).
    apply in_map_iff in Hb as (e & <- & He%list_elem_of_In). by exists e.
  - apply list_elem_of_fmap in Hm as (p & -> & Hp). by exists p.
Qed.

Lemma table_move_cases e m : e ∈ entries -> m ∈ table_moves now c e ->
  (exists shadow previous, e.1.2 = Pending shadow previous /\ m = promotion c e.1.1 shadow) \/
  (exists shadow record q, e.1.2 = Pending shadow (Some record) /\ e.2 = Some q /\
     m = quarantine_move now c (mkQuarantinePlan (sat_target e.1.1) q record Replaced)).
Proof.
  intros He Hm. destruct (entry_pending e He) as (sh & pr & E). unfold table_moves in Hm. rewrite E in Hm.
  apply elem_of_app in Hm as [Hm|Hm%list_elem_of_singleton]; [right|left; by exists sh, pr].
  destruct pr as [pr|], e.2 as [q|]; cbn in Hm; try by apply elem_of_nil in Hm.
  apply list_elem_of_singleton in Hm. by exists sh, pr, q.
Qed.

Lemma quarantined_elem q : q ∈ quarantined <->
  (exists e, e ∈ entries /\ e.2 = Some q) \/ (exists p, p ∈ plans /\ q = qp_quarantine p).
Proof.
  rewrite (ac_quarantined Hac), elem_of_app, list_elem_of_omap, list_elem_of_fmap.
  split; intros [(e & He & H)|(p & He & H)]; [left; by exists e|right; by exists p|left; by exists e|right; by exists p].
Qed.

Lemma to_cases n : n ∈ map mv_to ms -> n ∈ map sat_target (sar_tables c) \/ n ∈ quarantined.
Proof.
  intros (m & -> & Hm)%list_elem_of_fmap. apply move_cases in Hm as [(e & He & Hm)|(p & Hp & ->)].
  - apply (table_move_cases e) in Hm as [(sh & pr & _ & ->)|(sh & r & q & _ & Hq & ->)]; [..|done]; cbn.
    + left. apply list_elem_of_fmap_2. by apply entry_table.
    + right. apply quarantined_elem. left. by exists e.
  - right. apply quarantined_elem. right. by exists p.
Qed.

Lemma from_cases n : n ∈ map mv_from ms -> n ∈ identities (sar_tables c) \/ n ∈ map sl_target stale.
Proof.
  intros (m & -> & Hm)%list_elem_of_fmap. apply move_cases in Hm as [(e & He & Hm)|(p & Hp & ->)].
  - left. apply identities_elem. exists e.1.1. split; [by apply entry_table|].
    apply (table_move_cases e) in Hm as [(sh & pr & _ & ->)|(sh & r & q & _ & Hq & ->)]; cbn; [by right|by left|done].
  - right. cbn. apply list_elem_of_lookup in Hp as [i Hi].
    destruct (Forall2_lookup_r _ _ _ _ _ (ac_plans Hac) Hi) as (s & Hs & -> & _).
    apply list_elem_of_fmap_2. by eapply list_elem_of_lookup_2.
Qed.

Lemma names_apart n : n ∈ quarantined -> n ∉ identities (sar_tables c) /\ n ∉ map sl_target stale.
Proof.
  intros Hq. pose proof (ac_names Hac) as Hnd.
  rewrite entry_names_perm, plan_names_perm, (ac_tables Hac) in Hnd.
  assert (map qp_original plans = map sl_target stale) as E.
  { pose proof (ac_plans Hac) as Hpl. clear -Hpl.
    induction Hpl as [|s p ss ps Hsp _ IH]; [done|]. cbn. rewrite IH. f_equal. apply Hsp. }
  rewrite E in Hnd. rewrite (ac_quarantined Hac) in Hq.
  rewrite !NoDup_app in Hnd. destruct Hnd as ((_ & H1 & _) & H2 & (_ & H3 & _)).
  setoid_rewrite elem_of_app in H2.
  apply elem_of_app in Hq as [Hq|Hq]; split; intros Hn.
  - by apply (H1 n).
  - apply (H2 n); [by right|by left].
  - apply (H2 n); [by left|by right].
  - by apply (H3 n).
Qed.

Lemma shadow_not_target t n : t ∈ sar_tables c -> n = sat_shadow t -> n ∉ map sat_target (sar_tables c).
Proof.
  intros Ht -> Hin. pose proof (ro_identities _ Hok) as Hnd.
  induction (sar_tables c) as [|a ts IH]; [by apply elem_of_nil in Ht|]. cbn in Hnd, Hin.
  apply NoDup_cons in Hnd as [H1 [H2 Hnd]%NoDup_cons]. fold (identities ts) in *.
  assert (Hid : forall t n, t ∈ ts -> n = sat_target t \/ n = sat_shadow t -> n ∈ identities ts).
  { intros t' n Ht' Hn. apply identities_elem. by exists t'. }
  apply elem_of_cons in Ht as [->|Ht], Hin as [He|(t' & He & Ht')%list_elem_of_fmap].
  - apply H1. rewrite <- He. left.
  - apply H2. apply (Hid t'); [done|by left].
  - apply H1. right. apply (Hid t); [done|by right].
  - apply IH; try done. rewrite He. by apply list_elem_of_fmap_2.
Qed.

Lemma shadow_gone t : t ∈ sar_tables c -> vacant db1 (sat_shadow t).
Proof.
  intros Ht. destruct (table_entry t Ht) as (e & He & <-). destruct (entry_pending e He) as (sh & pr & E).
  apply (mr_gone _ _ _ (ac_moved Hac) (promotion c e.1.1 sh)).
  - eapply table_move_in; [exact He|]. unfold table_moves. rewrite E. apply elem_of_app. right. by left.
  - intros [Hn|Hn]%to_cases.
    + by eapply shadow_not_target.
    + apply names_apart in Hn as [Hn _]. apply Hn. apply identities_elem. exists e.1.1. split; [done|by right].
Qed.

Lemma promoted t : t ∈ sar_tables c -> exists r record,
  sd_relations db !! sat_shadow t = Some r /\ is_shadow db c t record /\
  sd_relations db1 !! sat_target t = Some r /\
  sd_managed_tables db1 !! sat_target t = Some (relocated_row record StActive (pf_fencing_token (sar_fence c))).
Proof.
  intros Ht. destruct (table_entry t Ht) as (e & He & <-). destruct (entry_pending e He) as (sh & pr & E).
  pose proof (ac_classified Hac e He) as Hcl. rewrite E in Hcl. destruct Hcl as [Hsh _].
  destruct (is_managed _ _ _ _ Hsh) as ([r Hr] & _). exists r, sh.
  destruct (mr_moved _ _ _ (ac_moved Hac) (promotion c e.1.1 sh)) as [H1 H2].
  - eapply table_move_in; [exact He|]. unfold table_moves. rewrite E. apply elem_of_app. right. by left.
  - cbn in H1, H2. by rewrite H1, H2.
Qed.

Lemma quarantine_made p record :
  quarantine_move now c p ∈ ms -> qp_record p = record -> qp_quarantine p ∈ quarantined ->
  vacant db (qp_quarantine p) -> managed_as db (qp_original p) record ->
  exists r, sd_relations db !! qp_original p = Some r /\ sd_relations db1 !! qp_quarantine p = Some r /\
    sd_managed_tables db1 !! qp_quarantine p =
      Some (relocated_row record StQuarantined (pf_fencing_token (sar_fence c))) /\
    sd_log db1 !! (sar_snapshot_group_id c, qp_original p) = Some (reconciliation_row now c p).
Proof.
  intros Hm <- Hq Hv ([r Hr] & _). exists r. pose proof (ac_moved Hac) as Hres.
  destruct (mr_moved _ _ _ Hres _ Hm) as [H1 H2]. cbn in H1, H2. rewrite H1, H2. split_and!; try done.
  by apply (mr_log _ _ _ Hres _ _ _ Hm).
Qed.

(** After the moves only the checkpoints and the state of the group change. *)
Lemma after_moves :
  sd_relations db' = sd_relations db1 /\ sd_managed_tables db' = sd_managed_tables db1 /\
  sd_log db' = sd_log db1 /\ sd_meta db' = sd_meta db2 /\ db2 = with_meta (fun _ => sd_meta db2) db1.
Proof.
  assert (db2 = with_meta (fun _ => sd_meta db2) db1) as E.
  { pose proof (ac_checkpoints Hac) as H. unfold advance_checkpoints in H. revert H.
    generalize (sar_initial_checkpoints c). intros cs. induction cs as [|k cs IH] in db1 |- *; cbn; intros H.
    - injection H as <-. by destruct db1.
    - apply bind_Ok in H as (d & H1 & H). apply bind_Ok in H1 as ([o meta] & _ & Ed). injection Ed as <-.
      by apply IH in H. }
  pose proof (ac_mark Hac) as Hm. unfold mark_snapshot_group_active in Hm.
  destruct (sd_groups db2 !! _) as [row|]; [|done]. case_bool_decide; [|done]. injection Hm as <-.
  rewrite E. done.
Qed.

Lemma keys_distinct : NoDup (map nc_key (sar_initial_checkpoints c)).
Proof.
  pose proof (ro_nodes _ Hok) as Hnd. revert Hnd. generalize (sar_initial_checkpoints c).
  induction l as [|k ks IH]; intros Hnd; [constructor|]. cbn in *. apply NoDup_cons in Hnd as [Hk Hnd].
  constructor; [|by apply IH]. intros (k' & E & Hin)%list_elem_of_fmap. apply Hk. rewrite E.
  by apply (list_elem_of_fmap_2 (fun c => ck_node_id (nc_key c))).
Qed.

(** Every active table of the pipeline has been moved. *)
Lemma active_is_moved n row : sd_managed_tables db !! n = Some row -> active_row c row ->
  exists p, quarantine_move now c p ∈ ms /\ qp_original p = n /\ qp_quarantine p ∈ quarantined /\
    vacant db (qp_quarantine p) /\ managed_as db n (qp_record p).
Proof.
  intros Hrow Hact. destruct (stl_all _ _ _ (ac_stale Hac) n row Hrow Hact) as [_ [Hn|Hn]].
  - apply list_elem_of_fmap in Hn as (t & -> & Ht). destruct (table_entry t Ht) as (e & He & <-).
    pose proof (ac_classified Hac e He) as Hcl. destruct (ac_replaced Hac e He) as (sh & pr & E & Hq).
    rewrite E in Hcl. destruct Hcl as [_ Hprev]. destruct pr as [a|], e.2 as [q|] eqn:Eq; try done.
    2: { destruct Hprev as [_ Hnone]. by rewrite Hrow in Hnone. }
    destruct Hprev as [[Hma _ _ _] _]. destruct Hq as (_ & _ & Hv).
    exists (mkQuarantinePlan (sat_target e.1.1) q a Replaced). split_and!; try done.
    + eapply table_move_in; [exact He|]. unfold table_moves. rewrite E, Eq. by left.
    + apply quarantined_elem. left. by exists e.
  - apply list_elem_of_fmap in Hn as (s & -> & Hs).
    destruct (stl_rows _ _ _ (ac_stale Hac) s Hs) as ((row' & Hrow' & _ & Hrec) & Hrel & _).
    apply list_elem_of_lookup in Hs as [i Hi].
    destruct (Forall2_lookup_l _ _ _ _ _ (ac_plans Hac) Hi) as (p & Hp & Ho & Hr & _ & _ & _ & Hv).
    exists p. apply list_elem_of_lookup_2 in Hp. split_and!; try done.
    + apply elem_of_app. right. by apply list_elem_of_fmap_2.
    + apply quarantined_elem. right. by exists p.
    + rewrite Hr. split; [done|]. by exists row'.
Qed.
Lemma quarantined_was_active q : q ∈ quarantined -> exists n row record,
  sd_managed_tables db !! n = Some row /\ active_row c row /\
  sd_managed_tables db1 !! q = Some (relocated_row record StQuarantined (pf_fencing_token (sar_fence c))).
Proof.
  intros Hq. pose proof (mr_moved _ _ _ (ac_moved Hac)) as Hres.
  apply quarantined_elem in Hq as [(e & He & Eq)|(p & Hp & ->)].
  - pose proof (ac_classified Hac e He) as Hcl. destruct (ac_replaced Hac e He) as (sh & pr & E & Hq).
    rewrite Eq in Hq. destruct pr as [a|]; [|done]. rewrite E in Hcl.
    destruct Hcl as [_ [[(_ & row & Hrow & Hrec) Hst Hp _] _]].
    exists (sat_target e.1.1), row, a. apply managed_table_record_from_row_Ok in Hrec as (Hp' & _ & _ & _ & _ & _ & _ & Hs & _).
    split_and!; [done|split; [congruence|by rewrite Hs, Hst]|].
    destruct (Hres (quarantine_move now c (mkQuarantinePlan (sat_target e.1.1) q a Replaced))) as [_ H]; [|exact H].
    eapply table_move_in; [exact He|]. unfold table_moves. rewrite E, Eq. by left.
  - apply list_elem_of_lookup in Hp as [i Hi].
    destruct (Forall2_lookup_r _ _ _ _ _ (ac_plans Hac) Hi) as (s & Hs & Ho & Hr & _).
    apply list_elem_of_lookup_2 in Hs, Hi.
    destruct (stl_rows _ _ _ (ac_stale Hac) s Hs) as ((row & Hrow & Hact & Hrec) & _).
    exists (sl_target s), row, (qp_record p). split_and!; try done.
    destruct (Hres (quarantine_move now c p)) as [_ H]; [|exact H].
    apply elem_of_app. right. by apply list_elem_of_fmap_2.
Qed.

Lemma stale_gone n row :
  sd_managed_tables db !! n = Some row -> active_row c row -> n ∉ map sat_target (sar_tables c) -> vacant db1 n.
Proof.
  intros Hrow Hact Hn. destruct (active_is_moved n row Hrow Hact) as (p & Hm & <- & Hq & Hv & Hma).
  apply (mr_gone _ _ _ (ac_moved Hac) _ Hm). cbn. intros [Hin|Hin]%to_cases; [done|].
  apply names_apart in Hin as [_ Hin]. apply Hin.
  destruct (stl_all _ _ _ (ac_stale Hac) _ row Hrow Hact) as [_ [?|?]]; done.
Qed.

Lemma activation_activates :
  Forall typed (sar_initial_checkpoints c) -> canonical_of c = c ->
  load_snapshot_group sha256 text_order db (sar_snapshot_group_id c) = Ok (mkStoredSnapshotGroup GroupLoading c) ->
  activates c db db' quarantined.
Proof.
  intros Hty Hcan Hst. pose proof (ac_moved Hac) as Hres. destruct after_moves as (Er & Em & El & Emeta & E2).
  destruct (advance_checkpoints_Ok _ _ _ _ Hty keys_distinct (ac_checkpoints Hac)) as (_ & Hps & Hcs & Hks).
  split.
  - intros t Ht. destruct (promoted t Ht) as (r & rec & H1 & H2 & H3 & H4). pose proof (shadow_gone t Ht).
    exists r, rec. unfold vacant. by rewrite Er, Em.
  - intros n row Hrow Hact. destruct (active_is_moved n row Hrow Hact) as ([n' q rec reason] & Hm & <- & Hq & Hv & Hma).
    destruct (quarantine_made _ _ Hm eq_refl Hq Hv Hma) as (r & H1 & H2 & H3 & H4).
    cbn in *. destruct Hma as (_ & row' & Hrow' & Hrec). rewrite Hrow in Hrow'. injection Hrow' as <-.
    exists r, rec, q, reason. by rewrite Er, Em, El.
  - intros q Hq. rewrite Em. by apply quarantined_was_active.
  - intros n row Hrow Hact Hn. unfold vacant. rewrite Er, Em. by eapply stale_gone.
  - rewrite Er. apply Hres.
  - intros n Hn Hq Hna. rewrite Er, Em. apply (mr_kept _ _ _ Hres).
    + intros [Hin|Hin]%to_cases; [|done]. apply Hn, identities_elem.
      apply list_elem_of_fmap in Hin as (t & -> & Ht). exists t. by split; [|left].
    + intros [Hin|Hin]%from_cases; [done|].
      apply list_elem_of_fmap in Hin as (s & -> & Hs).
      destruct (stl_rows _ _ _ (ac_stale Hac) s Hs) as ((row & Hrow & Hact & _) & _). by apply (Hna row).
  - intros k row Hk. rewrite El. by apply (mr_log_kept _ _ _ Hres).
  - intros k Hk. rewrite Emeta. by apply Hcs.
  - intros k Hk. by rewrite Emeta, Hks, (mr_meta _ _ _ Hres).
  - by rewrite Emeta, Hps, (mr_meta _ _ _ Hres).
  - rewrite Hcan. apply (load_marked db2 db' _ (mkStoredSnapshotGroup GroupLoading c)); [|exact (ac_mark Hac)].
    rewrite E2. cbn.
    rewrite (load_snapshot_group_groups db); [exact Hst|apply Hres..].
Qed.
End consequences.

(** The order of a request does not matter. *)
Lemma activates_reordered c request db db' quarantined :
  reordered c request -> canonical_of c = canonical_of request ->
  activates c db db' quarantined -> activates request db db' quarantined.
Proof.
  intros [Hf Hg Ht Hc] Hcan [H1 H2 K1 K2 H3 H4 H5 H6 H7 H8 H9].
  assert (Hsh : forall t r, is_shadow db c t r -> is_shadow db request t r).
  { intros t r []. split; congruence. }
  assert (Hlog : forall p, reconciliation_row now c p = reconciliation_row now request p).
  { intros p. unfold reconciliation_row. by rewrite Hf. }
  rewrite Hf in *. rewrite Hg in *. split; try done.
  - intros t Hin. rewrite <- Ht in Hin. destruct (H1 t Hin) as (r & rec & ? & ? & ?). exists r, rec.
    split_and!; try tauto. by apply Hsh.
  - intros n row Hrow Hact. unfold active_row in *. rewrite Hf in H2. setoid_rewrite <- Hlog. by eapply H2.
  - intros q Hq. unfold active_row in *. rewrite Hf in K1. by apply K1.
  - intros n row Hrow Hact Hn. apply (K2 n row); [done| |by rewrite Ht].
    unfold active_row in *. by rewrite Hf.
  - intros n Hn Hq Hna. apply H4; [by rewrite (identities_perm _ _ Ht)|done|].
    intros row Hrow. unfold active_row. rewrite Hf. by apply Hna.
  - intros k Hk. apply H6. by rewrite Hc.
  - intros k Hk. apply H7. by rewrite Hc.
  - by rewrite <- Hcan.
Qed.

Lemma activated_activates request db outcome db' :
  Forall typed (sar_initial_checkpoints request) ->
  activate_snapshot_group refused sha256 text_order row_order now request db = Ok (outcome, db') ->
  sao_disposition outcome = Activated ->
  request_ok request /\ lock_pipeline_fence (sd_meta db) (sar_fence request) = Ok tt /\
  load_snapshot_group sha256 text_order db (sar_snapshot_group_id request) =
    Ok (mkStoredSnapshotGroup GroupLoading (canonical_of request)) /\
  activates request db db' (sao_quarantined outcome).
Proof.
  intros Hty H Hd. apply activated_Ok in H as (c & stored & Hc & Hok & Hlock & Hst & Hsr & Hrest).
  rewrite Hd in Hrest. destruct Hrest as (Hload & entries & stale & plans & db1 & db2 & Hac).
  pose proof (canonical_ok _ _ Hc) as [_ Hcan]. apply canonical_request_Ok in Hc as [Hokr ->].
  assert (E : stored = mkStoredSnapshotGroup GroupLoading (canonical_of request)) by (destruct stored; cbn in *; congruence).
  rewrite E in Hst. split_and!; [done..|]. apply (activates_reordered (canonical_of request)); [|done|].
  - apply reordered_canonical_of.
  - eapply activation_activates; try eassumption. cbn. by rewrite sort_by_key_perm.
Qed.

(** C17: an activation is exact and loses nothing.  When it commits, every target of the group is
    the very relation that was loaded as its shadow, under the shadow's row; every table of the
    pipeline that was active before, replaced or no longer published, is kept as it was under a
    quarantine name that nothing had, with a log entry that names its identity; no relation is
    dropped or created and no other name changes; the group is active and the checkpoints of its
    nodes are the initial ones. *)
Theorem activation_is_exact (request : SnapshotActivationRequest) (db db' : TargetDb)
    (outcome : SnapshotActivationOutcome) :
  Forall typed (sar_initial_checkpoints request) ->
  activate_snapshot_group refused sha256 text_order row_order now request db = Ok (outcome, db') ->
  sao_disposition outcome = Activated ->
  load_snapshot_group sha256 text_order db (sar_snapshot_group_id request) =
    Ok (mkStoredSnapshotGroup GroupLoading (canonical_of request)) /\
  activates request db db' (sao_quarantined outcome).
Proof.
  intros Hty H Hd. destruct (activated_activates request db outcome db' Hty H Hd) as (_ & _ & Hl & Ha). by split.
Qed.

(** ** Lemmas: an activated group *)

Lemma all_active n : group_is_active (replicate n Active) = Ok true.
Proof.
  unfold group_is_active. replace (List.filter _ _) with (replicate n Active); [by rewrite Nat.eqb_refl|].
  induction n as [|n IH]; [done|]. cbn. by f_equal.
Qed.

(** The tables of an activated group are found active by every later owner. *)
Lemma activated_table request db db' quarantined c t :
  activates request db db' quarantined -> t ∈ sar_tables request ->
  pf_pipeline_id (sar_fence c) = pf_pipeline_id (sar_fence request) ->
  sar_snapshot_group_id c = sar_snapshot_group_id request ->
  (pf_fencing_token (sar_fence request) <= pf_fencing_token (sar_fence c))%Z ->
  classify db' c t = Ok Active.
Proof.
  intros Ha Ht Hp Hg Htok. destruct (at_promoted _ _ _ _ Ha t Ht) as (r & rec & _ & Hsh & Hr & Hrow & Hv).
  destruct Hsh as [(_ & row & _ & Hrec) _ H1 H2 H3 H4 H5].
  apply managed_table_record_from_row_Ok in Hrec as (_ & _ & _ & _ & _ & _ & _ & _ & Hs & Hgen).
  apply (classify_active db' c t (mkManagedTableRecord (mr_pipeline_id rec) (mr_snapshot_group_id rec)
    (mr_relation_oid rec) (mr_source_relation_id rec) (mr_table_generation rec) (mr_schema_fingerprint rec)
    StActive (pf_fencing_token (sar_fence request)))); [split| | |]; cbn; try congruence; try done.
  - split; [by eexists|]. eexists. split; [exact Hrow|]. by apply relocated_row_record.
  - unfold matches_activation. cbn. rewrite H2, H4, H5, H3, Hg, !Z.eqb_refl. by rewrite !bool_decide_true.
Qed.

(** No table of the pipeline is stale any more. *)
Lemma no_stale_tables request db db' quarantined c :
  activates request db db' quarantined -> Forall table_typed (sar_tables request) ->
  pf_pipeline_id (sar_fence c) = pf_pipeline_id (sar_fence request) ->
  sar_tables c ≡ₚ sar_tables request ->
  load_stale_active_tables row_order db' c = Ok [].
Proof.
  intros Ha Hty Hp Hts. unfold load_stale_active_tables. set (rows := row_order _).
  assert (Hin : forall r, r ∈ rows -> exists t, t ∈ sar_tables request /\ r.1 = sat_target t).
  { intros [n row] Hr. unfold rows in Hr. rewrite Hrows, list_elem_of_filter, elem_of_map_to_list in Hr.
    cbn in Hr. destruct Hr as [Hact Hrow]. rewrite Hp in Hact.
    destruct (decide (n ∈ identities (sar_tables request))) as [Hid|Hid].
    { apply identities_elem in Hid as (t & Ht & [->| ->]); [by exists t|].
      destruct (at_promoted _ _ _ _ Ha t Ht) as (? & ? & _ & _ & _ & _ & [_ Hv]). congruence. }
    exfalso. destruct (decide (n ∈ quarantined)) as [Hq|Hq].
    { destruct (at_quarantined_only _ _ _ _ Ha n Hq) as (? & ? & rec & _ & _ & E).
      rewrite Hrow in E. injection E as ->. by destruct Hact. }
    assert (Hn : n ∉ map sat_target (sar_tables request)).
    { intros (t & -> & Ht)%list_elem_of_fmap. apply Hid, identities_elem. exists t. by split; [|left]. }
    destruct (sd_managed_tables db !! n) as [row'|] eqn:E; [destruct (decide (active_row request row')) as [Hx|Hx]|].
    - destruct (at_stale_gone _ _ _ _ Ha n row' E Hx Hn) as [_ ?]. congruence.
    - destruct (at_others _ _ _ _ Ha n Hid Hq) as [_ E2]; [intros ? ?; congruence|].
      rewrite E2, E in Hrow. injection Hrow as ->. done.
    - destruct (at_others _ _ _ _ Ha n Hid Hq) as [_ E2]; [intros ? ?; congruence|]. congruence. }
  clearbody rows. induction rows as [|[n row] rows IH]; [done|]. cbn [foldM].
  destruct (Hin (n, row)) as (t & Ht & E); [left|]. cbn in E. subst n. rewrite Forall_forall in Hty.
  assert (Hskip : collect_stale db' c [] (sat_target t, row) = Ok []).
  { unfold collect_stale. cbn [fst]. rewrite valid_name_new by apply (Hty t Ht). cbn [mbind result_bind].
    by rewrite (proj2 (in_request _ _)) by (rewrite Hts; by apply list_elem_of_fmap_2). }
  rewrite Hskip. cbn [mbind result_bind].
  apply IH. intros r Hr. apply Hin. by right.
Qed.

(** Checkpoints that have been reached pass their verification. *)
Lemma checkpoints_reached db fence checkpoints :
  Forall (fun k => Manifest.validate_checkpoint fence k = Ok tt) checkpoints ->
  (forall k, k ∈ checkpoints -> exists s, read_checkpoint (sd_meta db) (nc_key k) = Ok (Some s) /\
     same_node k (snc_checkpoint s) /\ (nc_applied_lsn k <= nc_applied_lsn (snc_checkpoint s))%Z) ->
  verify_retry_checkpoints db checkpoints = Ok tt.
Proof.
  induction 1 as [|k ks Hk Hks IH]; intros Hr; [done|]. unfold verify_retry_checkpoints. cbn [foldM].
  destruct (Hr k) as (s & Hs & Hsame & Hle); [left|].
  unfold Manifest.validate_checkpoint in Hk. destruct (_ || _); [done|]. destruct (_ =? _)%Z; [done|].
  apply bind_Ok in Hk as (b & Hk & _). apply map_err_Ok in Hk. unfold checkpoint_reached in Hk.
  apply bind_Ok in Hk as ([] & Hv & _).
  unfold load_node_checkpoint. pose proof Hv as Hv'. unfold Checkpoint.validate_checkpoint in Hv'.
  apply bind_Ok in Hv' as (g & Hg & _). rewrite Hg. apply Checkpoint.database_generation_Ok in Hg as [-> _].
  cbn [mbind result_bind]. rewrite key_eta, Hs. cbn [checkpoint_err map_err mbind result_bind].
  unfold checkpoint_reached. rewrite Hv. cbn [mbind result_bind].
  rewrite (proj2 (ensure_same_identity_Ok _ _)).
  2: { destruct Hsame as (H1 & H2 & H3 & H4). by split_and!. }
  cbn [mbind result_bind map_err]. rewrite (proj2 (Z.leb_le _ _)) by done. cbn [mbind result_bind].
  apply IH. intros k' Hk'. apply Hr. by right.
Qed.

Lemma try_map_const {E A B} (f : A -> result E B) b l :
  (forall x, x ∈ l -> f x = Ok b) -> try_map f l = Ok (replicate (length l) b).
Proof.
  intros H. apply try_map_Ok. induction l as [|x l IH]; cbn; constructor; [by apply H; left|].
  apply IH. intros y Hy. apply H. by right.
Qed.

(** A later state in which only checkpoints, types and the log may have changed. *)
Record same_snapshots (db db' : TargetDb) : Prop := {
  sp_relations : sd_relations db' = sd_relations db;
  sp_managed_tables : sd_managed_tables db' = sd_managed_tables db;
  sp_groups : sd_groups db' = sd_groups db;
  sp_group_tables : sd_group_tables db' = sd_group_tables db;
  sp_group_nodes : sd_group_nodes db' = sd_group_nodes db;
}.

(** A retry of an activation that was committed. *)
Lemma retried refused' now' request db db' quarantined :
  activates request db db' quarantined -> request_ok request -> request_typed request ->
  lock_pipeline_fence (sd_meta db') (sar_fence request) = Ok tt ->
  activate_snapshot_group refused' sha256 text_order row_order now' request db' =
    Ok (mkSnapshotActivationOutcome ActivationAlreadyActive [], db').
Proof.
  intros Ha Hok Hty Hlock. unfold activate_snapshot_group.
  assert (Hc : canonical_request request = Ok (canonical_of request)) by by apply canonical_request_Ok.
  destruct (canonical_ok _ _ Hc) as [Hokc Hcan].
  assert (Hcc : canonical_request (canonical_of request) = Ok (canonical_of request)).
  { apply canonical_request_Ok. by rewrite Hcan. }
  rewrite Hc. cbn [mbind result_bind]. change (sar_fence (canonical_of request)) with (sar_fence request).
  rewrite Hlock. cbn [checkpoint_err map_err mbind result_bind].
  change (sar_snapshot_group_id (canonical_of request)) with (sar_snapshot_group_id request).
  rewrite (at_group _ _ _ _ Ha). cbn [mbind result_bind]. unfold validate_exact_request. rewrite Hcc.
  cbn [mbind result_bind sg_request]. rewrite (bool_decide_true (canonical_of request = _)) by done.
  cbn [mbind result_bind]. set (c := canonical_of request) in *.
  assert (Hts : sar_tables c ≡ₚ sar_tables request) by (apply merge_sort_Permutation).
  rewrite (try_map_const _ Active).
  2: { intros t Ht. eapply activated_table; [exact Ha|by rewrite <- Hts|done..]. }
  cbn [mbind result_bind]. rewrite (no_stale_tables request db db' quarantined c) by (done || apply Hty).
  cbn [mbind result_bind]. rewrite all_active. cbn [mbind result_bind sg_state].
  rewrite bool_decide_true by done. cbn [negb].
  rewrite (checkpoints_reached db' (sar_fence c)); [done|apply Hokc|].
  intros k Hk. exists (mkStoredNodeCheckpoint k (pf_fencing_token (sar_fence request))).
  split; [|split; [apply same_node_refl|cbn; done]]. apply (at_checkpoints _ _ _ _ Ha). unfold c in Hk. cbn in Hk. by rewrite sort_by_key_perm in Hk.
Qed.

Lemma loaded_row db group stored :
  load_snapshot_group sha256 text_order db group = Ok stored -> exists row, sd_groups db !! group = Some row /\
    gr_pipeline_id row = pf_pipeline_id (sar_fence (sg_request stored)) /\
    gr_topology_generation row = pf_topology_generation (sar_fence (sg_request stored)) /\
    gr_state row = state_name (sg_state stored).
Proof.
  intros H. unfold load_snapshot_group, load_snapshot_group_optional in H. destruct (_ =? 0)%Z; [done|].
  destruct (sd_groups db !! group) as [row|]; [|done]. exists row. split; [done|].
  apply bind_Ok in H as (o & H & Ho). apply bind_Ok in H as (g & Hg & H). apply bind_Ok in H as (st & Hst & H).
  apply bind_Ok in H as (tc & _ & H). apply bind_Ok in H as (nc & _ & H).
  destruct (_ || _); [done|]. destruct (negb _); [done|]. apply bind_Ok in H as (ts & _ & H).
  destruct (negb _); [done|]. apply bind_Ok in H as (cs & _ & H). apply bind_Ok in H as (can & _ & H).
  destruct (bool_decide _) eqn:Hb; [done|]. apply bool_decide_eq_false in Hb. apply dec_stable in Hb. subst can.
  cbn in H. destruct (bool_decide _); [done|]. injection H as <-. injection Ho as <-. cbn.
  unfold persisted_u64 in Hg. destruct (_ <=? _)%Z; [|done]. injection Hg as <-.
  unfold SnapshotGroupState_parse in Hst. split_and!; [done..|].
  repeat (case_bool_decide; [by injection Hst as <-|]). done.
Qed.

Lemma one_group (db : TargetDb) (P : Z * GroupRow -> Prop) `{forall g, Decision (P g)} group row :
  sd_groups db !! group = Some row -> P (group, row) ->
  (forall g r, sd_groups db !! g = Some r -> P (g, r) -> g = group) ->
  map fst (filter P (map_to_list (sd_groups db))) = [group].
Proof.
  intros Hrow HP Hone.
  assert (Hnd : NoDup (map fst (filter P (map_to_list (sd_groups db))))).
  { eapply sublist_NoDup; [apply (NoDup_fst_map_to_list (sd_groups db))|]. apply (fmap_sublist fst), sublist_filter. }
  assert (Hin : forall g, g ∈ map fst (filter P (map_to_list (sd_groups db))) <-> g = group).
  { intros g. rewrite list_elem_of_fmap. split.
    - intros ([g' r] & -> & [HPg Hg]%list_elem_of_filter). apply (Hone g' r); [|done].
      by apply elem_of_map_to_list in Hg.
    - intros ->. exists (group, row). split; [done|]. apply list_elem_of_filter. by rewrite elem_of_map_to_list. }
  destruct (map fst _) as [|g [|g' gs]].
  - exfalso. by apply (not_elem_of_nil group), Hin.
  - f_equal. apply Hin. left.
  - apply NoDup_cons in Hnd as [Hn _]. exfalso. apply Hn.
    rewrite (proj1 (Hin g)) by left. rewrite <- (proj1 (Hin g')) by (right; left). left.
Qed.

(** A valid request stays valid for another owner of the same pipeline and topology. *)
Lemma request_ok_fence r s :
  request_ok r -> sar_snapshot_group_id s = sar_snapshot_group_id r ->
  pf_pipeline_id (sar_fence s) = pf_pipeline_id (sar_fence r) ->
  pf_topology_generation (sar_fence s) = pf_topology_generation (sar_fence r) ->
  (pf_fencing_token (sar_fence r) <= pf_fencing_token (sar_fence s))%Z ->
  sar_tables r ≡ₚ sar_tables s -> sar_initial_checkpoints r ≡ₚ sar_initial_checkpoints s -> request_ok s.
Proof.
  intros [H1 H2 H3 H4 H5 H6 H7 H8 H9 H10] Hg Hp Hgen Htok Ht Hc. split; rewrite ?Hg, ?Hgen; try done.
  - intros He. rewrite He in Ht. by apply Permutation_nil_r in Ht.
  - intros He. rewrite He in Hc. by apply Permutation_nil_r in Hc.
  - lia.
  - by rewrite <- Ht.
  - by rewrite <- (identities_perm _ _ Ht).
  - by rewrite <- Ht.
  - rewrite <- Hc. eapply Forall_impl; [exact H9|]. intros k. unfold Manifest.validate_checkpoint. by rewrite Hp, Hgen.
  - by rewrite <- Hc.
Qed.

Lemma canonical_of_tables r s :
  request_ok r -> sar_tables r ≡ₚ sar_tables s -> sar_tables (canonical_of r) = sar_tables (canonical_of s).
Proof.
  intros Hok Ht. cbn. apply tables_sorted_unique; [|apply Sorted_merge_sort, _..|by rewrite !merge_sort_Permutation].
  rewrite merge_sort_Permutation. apply identities_targets, Hok.
Qed.

(** Another current owner of the same pipeline and topology validates the active group. *)
Lemma resumed request db db' quarantined db'' fence tables :
  activates request db db' quarantined -> request_ok request ->
  same_snapshots db' db'' -> meta_le (sd_meta db') (sd_meta db'') ->
  lock_pipeline_fence (sd_meta db'') fence = Ok tt ->
  pf_pipeline_id fence = pf_pipeline_id (sar_fence request) ->
  pf_topology_generation fence = pf_topology_generation (sar_fence request) ->
  (pf_fencing_token (sar_fence request) <= pf_fencing_token fence)%Z -> tables ≡ₚ sar_tables request ->
  (forall g row, sd_groups db'' !! g = Some row -> gr_pipeline_id row = pf_pipeline_id fence ->
     gr_topology_generation row = pf_topology_generation fence -> gr_state row = "active" ->
     g = sar_snapshot_group_id request) ->
  validate_active_snapshot_group sha256 text_order db'' fence tables = Ok (sar_snapshot_group_id request).
Proof.
  intros Ha Hok [Er Em Eg Egt Egn] [_ Hle] Hlock Hp Hgen Htok Htables Hone.
  set (group := sar_snapshot_group_id request) in *. set (c := canonical_of request).
  assert (Hload : load_snapshot_group sha256 text_order db'' group = Ok (mkStoredSnapshotGroup GroupActive c)).
  { rewrite (load_snapshot_group_groups db') by done. apply (at_group _ _ _ _ Ha). }
  unfold validate_active_snapshot_group. rewrite Hlock. cbn [checkpoint_err map_err mbind result_bind].
  unfold database_generation. rewrite Hgen. rewrite (proj2 (Z.leb_le _ _)) by apply Hok. cbn [mbind result_bind].
  destruct (loaded_row db'' group _ Hload) as (row & Hrow & H1 & H2 & H3). cbn in H1, H2, H3.
  rewrite (one_group db'' _ group row).
  2: done. 2: { cbn. by rewrite H1, H2, H3. }
  2: { intros g r Hr (P1 & P2 & P3). eapply Hone; [exact Hr|done| |done]. by rewrite Hgen. }
  cbn [mbind result_bind]. rewrite Hload. cbn [mbind result_bind sg_request sg_state]. rewrite (bool_decide_true (GroupActive = _)) by done.
  change (sar_fence c) with (sar_fence request). rewrite <- Hp, <- Hgen, !Z.eqb_refl.
  rewrite (proj2 (Z.ltb_ge _ _)) by done. cbn [negb orb].
  set (r := mkSnapshotActivationRequest fence group tables (sar_initial_checkpoints c)).
  assert (Hokr : request_ok r).
  { apply (request_ok_fence request); try done. cbn. by rewrite sort_by_key_perm. }
  assert (Et : sar_tables (canonical_of r) = sar_tables c).
  { unfold c. rewrite <- (canonical_of_tables r request); [done|apply Hokr|done]. }
  rewrite (proj2 (canonical_request_Ok r _)) by done. cbn [mbind result_bind].
  rewrite Et, bool_decide_true by done. cbn [negb].
  replace (foldM _ tt (sar_tables c)) with (Ok tt : result SnapshotTargetError unit).
  2: { symmetry. assert (Hall : forall t, t ∈ sar_tables c -> classify db'' (canonical_of r) t = Ok Active).
       { intros t Ht. unfold classify, load_relation_state, relation_exists. rewrite Er, Em.
         eapply (activated_table request db db' quarantined (canonical_of r)); try done.
         unfold c in Ht. cbn in Ht. by rewrite merge_sort_Permutation in Ht. }
       clear -Hall. induction (sar_tables c) as [|t ts IH]; [done|]. cbn [foldM].
       rewrite Hall by left. cbn [mbind result_bind]. apply IH. intros t' Ht'. apply Hall. by right. }
  cbn [mbind result_bind]. rewrite (checkpoints_reached db'' fence); [done| |].
  - apply (ro_valid_checkpoints _ Hokr).
  - intros k Hk. assert (Hk' : k ∈ sar_initial_checkpoints request)
      by (unfold c in Hk; cbn in Hk; by rewrite sort_by_key_perm in Hk).
    destruct (Hle _ _ (at_checkpoints _ _ _ _ Ha k Hk')) as (s & Hs & Hsame & Hl). by exists s.
Qed.

(** C18: an activation whose commit was executed can be retried and resumed.  The same request,
    whatever the server would refuse by then, finds the group active and changes nothing; and as
    long as its tables stay as they are, every later owner of the pipeline's fence, after any
    progress of the checkpoints, validates the group under its tables in any order, provided no
    other group of the topology is active. *)
Theorem committed_activation_is_resumable (request : SnapshotActivationRequest) (db db' : TargetDb)
    (outcome : SnapshotActivationOutcome) :
  request_typed request ->
  activate_snapshot_group refused sha256 text_order row_order now request db = Ok (outcome, db') ->
  sao_disposition outcome = Activated ->
  (forall refused' now',
     activate_snapshot_group refused' sha256 text_order row_order now' request db' =
       Ok (mkSnapshotActivationOutcome ActivationAlreadyActive [], db')) /\
  forall db'' fence tables,
    same_snapshots db' db'' -> meta_le (sd_meta db') (sd_meta db'') ->
    lock_pipeline_fence (sd_meta db'') fence = Ok tt ->
    pf_pipeline_id fence = pf_pipeline_id (sar_fence request) ->
    pf_topology_generation fence = pf_topology_generation (sar_fence request) ->
    tables ≡ₚ sar_tables request ->
    (forall g row, sd_groups db'' !! g = Some row -> gr_pipeline_id row = pf_pipeline_id fence ->
       gr_topology_generation row = pf_topology_generation fence -> gr_state row = "active" ->
       g = sar_snapshot_group_id request) ->
    validate_active_snapshot_group sha256 text_order db'' fence tables = Ok (sar_snapshot_group_id request).
Proof.
  intros Hty H Hd.
  destruct (activated_activates _ _ _ _ (rt_checkpoints _ Hty) H Hd) as (Hok & Hlock & _ & Ha).
  assert (Hlock' : lock_pipeline_fence (sd_meta db') (sar_fence request) = Ok tt).
  { unfold lock_pipeline_fence in *. by rewrite (at_fences _ _ _ _ Ha). }
  split; [intros; by eapply retried|]. intros db'' fence tables Hsame Hle Hf Hp Hg Ht Hone.
  eapply resumed; try eassumption. apply lock_pipeline_fence_Ok in Hlock' as [Hrow _].
  apply lock_pipeline_fence_Ok in Hf as [Hrow' _].
  destruct (le_fences _ _ Hle _ _ Hrow) as (r' & Hr' & _ & Htok). rewrite Hp, Hr' in Hrow'.
  injection Hrow' as ->. exact Htok.
Qed.
End activated.

(** ** Example: one table is replaced, another is no longer published *)

Definition name_digest (b : bytes) : bytes := take 32 (drop 13 b ++ replicate 32 x61).
Definition example_request : SnapshotActivationRequest := example_group ["orders"].
Definition example_row (group : Z) (oid source generation : Z) (state : string) (token : Z) : ManagedTableRow :=
  mkManagedTableRow 5 (Some group) (Some oid) source generation "sha256:x" state token.

(** Before: the shadow of [orders] is loaded; [orders] and [legacy] are active. *)
Definition loaded_target : TargetDb :=
  let db :=
    match begin_snapshot_group name_digest by_bytes example_request empty_target with
    | Ok (_, db) => db | _ => empty_target
    end in
  let sales name := mkQualifiedName "sales" name in
  with_managed_tables (fun _ =>
    <[sales "orders" := example_row 70 1 1 0 "active" 2]>
    (<[sales "legacy" := example_row 70 2 9 0 "active" 2]>
    (<[sales "pg2cb_s_orders" := example_row 77 3 1 1 "shadow" 3]> ∅)))
  (with_relations (fun _ =>
    <[sales "orders" := mkRelation 1 true "CREATE TABLE orders" [x31]]>
    (<[sales "legacy" := mkRelation 2 true "CREATE TABLE legacy" [x32]]>
    (<[sales "pg2cb_s_orders" := mkRelation 3 true "CREATE TABLE pg2cb_s_orders" [x33]]> ∅))) db).

Definition activated_target : result SnapshotTargetError (SnapshotActivationOutcome * TargetDb) :=
  activate_snapshot_group accepted name_digest by_bytes (fun l => l) 1000 example_request loaded_target.

Lemma example_request_typed : request_typed example_request.
Proof.
  split; [done| |].
  - apply Forall_cons. split; [|apply Forall_nil; done].
    apply example_table_typed; (by apply validate_identifier_Ok) || done.
  - apply Forall_cons. split; [|apply Forall_nil; done]. split; done.
Qed.

(** The target is the loaded relation and both old tables are quarantined. *)
Definition example_activated : bool :=
  match activated_target with
  | Ok (outcome, db) =>
      match sao_disposition outcome with Activated => true | ActivationAlreadyActive => false end
      && (length (sao_quarantined outcome) =? 2)%nat
      && bool_decide (rel_oid <$> sd_relations db !! mkQualifiedName "sales" "orders" = Some 3%Z)
  | _ => false
  end.

Lemma activation_is_exact_witness :
  exists outcome db', activated_target = Ok (outcome, db') /\ length (sao_quarantined outcome) = 2 /\
    rel_oid <$> sd_relations db' !! mkQualifiedName "sales" "orders" = Some 3%Z /\
    activates name_digest by_bytes 1000 example_request loaded_target db' (sao_quarantined outcome).
Proof.
  assert (Hex : example_activated = true) by (vm_compute; reflexivity). unfold example_activated in Hex.
  destruct activated_target as [[outcome db']|e|] eqn:E; [|discriminate Hex|discriminate Hex].
  apply andb_true_iff in Hex as [Hex Hr%bool_decide_eq_true].
  apply andb_true_iff in Hex as [Hd Hl%Nat.eqb_eq].
  exists outcome, db'. split; [reflexivity|]. split; [exact Hl|]. split; [exact Hr|].
  apply (activation_is_exact accepted name_digest by_bytes (fun l => l) 1000 ltac:(intros; reflexivity)
    example_request loaded_target db' outcome); [apply example_request_typed|exact E|].
  destruct (sao_disposition outcome); [reflexivity|discriminate Hd].
Defined.

Lemma committed_activation_is_resumable_witness :
  exists outcome db', activated_target = Ok (outcome, db') /\
    activate_snapshot_group (fun _ => Some "permission denied") name_digest by_bytes (fun l => l) 2000
      example_request db' = Ok (mkSnapshotActivationOutcome ActivationAlreadyActive [], db').
Proof.
  assert (Hex : example_activated = true) by (vm_compute; reflexivity). unfold example_activated in Hex.
  destruct activated_target as [[outcome db']|e|] eqn:E; [|discriminate Hex|discriminate Hex].
  apply andb_true_iff in Hex as [Hex _]. apply andb_true_iff in Hex as [Hd _].
  exists outcome, db'. split; [reflexivity|].
  apply (committed_activation_is_resumable accepted name_digest by_bytes (fun l => l) 1000 ltac:(intros; reflexivity)
    example_request loaded_target db' outcome); [apply example_request_typed|exact E|].
  destruct (sao_disposition outcome); [reflexivity|discriminate Hd].
Defined.
