(* ===== verification/Cleanup.v ===== *)
(** * Cleanup of interrupted loads and of quarantines

    Models [crates/target-cloudberry/src/snapshot/cleanup.rs].  As in [Activation], an operation
    is the transaction it commits or the error that rolls it back; the order of rows that no
    [ORDER BY], or one by text, leaves to the server, and the time, are arguments. *)

From S2P Require Import Prelude Core Schema Sql TargetSchema Checkpoint Snapshot Manifest Load Activation.

Record SnapshotGroupCleanupRequest : Type := mkCleanupRequest {
  cr_current_fence : PipelineFence;
  cr_group_fence : PipelineFence;
  cr_snapshot_group_id : Z;
}.

Record SnapshotCleanupOutcome : Type := mkCleanupOutcome {
  co_snapshot_group_id : Z;
  co_dropped_shadows : list QualifiedName;
}.

(** The retention is a [Duration], in nanoseconds. *)
Record QuarantineGcPolicy : Type := mkGcPolicy {
  gp_retention : option Z;
  gp_max_tables : Z;
}.

Record QuarantineGcOutcome : Type := mkGcOutcome {
  go_disabled : bool;
  go_dropped : list QualifiedName;
}.

Definition disabled : QuarantineGcPolicy := mkGcPolicy None 100.

Definition gc_validate (self : QuarantineGcPolicy) : result SnapshotTargetError unit :=
  if (gp_max_tables self =? 0)%Z then Err InvalidQuarantineBatchSize
  else if bool_decide (gp_retention self = Some 0%Z) then Err InvalidQuarantineRetention
  else Ok tt.

Definition enabled (retention max_tables : Z) : result SnapshotTargetError QuarantineGcPolicy :=
  let policy := mkGcPolicy (Some retention) max_tables in
  let? _ := gc_validate policy in
  Ok policy.

Definition retention_micros (self : QuarantineGcPolicy) : result SnapshotTargetError (option Z) :=
  let? _ := gc_validate self in
  match gp_retention self with
  | None => Ok None
  | Some retention =>
      let micros := (retention / 1000)%Z in
      if (micros <=? i64_max)%Z then Ok (Some (Z.max micros 1)) else Err InvalidQuarantineRetention
  end.

Definition validate_cleanup_request (request : SnapshotGroupCleanupRequest) : result SnapshotTargetError unit :=
  let current := cr_current_fence request in
  let group := cr_group_fence request in
  if (cr_snapshot_group_id request =? 0)%Z
     || (pf_fencing_token current <=? 0)%Z
     || (pf_fencing_token group <=? 0)%Z
     || negb (pf_pipeline_id current =? pf_pipeline_id group)%Z
     || (pf_topology_generation current <? pf_topology_generation group)%Z
     || (pf_fencing_token current <? pf_fencing_token group)%Z
  then Err InvalidSnapshotCleanupFence
  else Ok tt.

Definition validate_group_fence (actual : PipelineFence) (request : SnapshotGroupCleanupRequest)
    : result SnapshotTargetError unit :=
  if bool_decide (actual = cr_group_fence request) then Ok tt
  else Err (SnapshotGroupFenceMismatch (cr_snapshot_group_id request)
              (pf_topology_generation (cr_group_fence request)) (pf_fencing_token (cr_group_fence request))
              (pf_topology_generation actual) (pf_fencing_token actual)).

Definition validate_shadow_ownership (table : QualifiedName) (record : ManagedTableRecord) (group_id : Z)
    (group_fence : PipelineFence) (source_relation_id table_generation : Z) (schema_fingerprint : string)
    : result SnapshotTargetError unit :=
  if negb (mr_pipeline_id record =? pf_pipeline_id group_fence)%Z
  then Err (ManagedByOtherPipeline (QualifiedName_to_string table) (pf_pipeline_id group_fence) (mr_pipeline_id record))
  else if negb (bool_decide (mr_snapshot_group_id record = Some group_id))
          || negb (mr_source_relation_id record =? source_relation_id)%Z
          || negb (mr_table_generation record =? table_generation)%Z
          || negb (bool_decide (mr_schema_fingerprint record = schema_fingerprint))
          || negb (bool_decide (mr_state record = StShadow))
          || negb (mr_fencing_token record =? pf_fencing_token group_fence)%Z
  then Err (SnapshotTableManifestMismatch group_id (QualifiedName_to_string table))
  else if bool_decide (mr_relation_oid record = None)
  then Err (MissingRelationIdentity (QualifiedName_to_string table))
  else Ok tt.

Definition validate_relation_identity (db : TargetDb) (table : QualifiedName) (record : ManagedTableRecord)
    : result SnapshotTargetError unit :=
  let? expected := ok_or (mr_relation_oid record) (MissingRelationIdentity (QualifiedName_to_string table)) in
  let? actual := ok_or (relation_oid db table) (ManagedRelationMissing (QualifiedName_to_string table)) in
  if negb (actual =? expected)%Z
  then Err (RelationIdentityMismatch (QualifiedName_to_string table) expected actual)
  else Ok tt.

(** The deletions of the rows of a group, which must be as many as the manifest lists. *)
Definition delete_group_tables (group count : Z) (db : TargetDb) : result SnapshotTargetError TargetDb :=
  if negb (len (default [] (sd_group_tables db !! group)) =? count)%Z then Err (CorruptSnapshotGroupManifest group)
  else Ok (with_groups id (delete group) id db).
Definition delete_group_nodes (group count : Z) (db : TargetDb) : result SnapshotTargetError TargetDb :=
  if negb (len (default [] (sd_group_nodes db !! group)) =? count)%Z then Err (CorruptSnapshotGroupManifest group)
  else Ok (with_groups id id (delete group) db).
Definition delete_group (group pipeline_id generation fencing_token : Z) (db : TargetDb)
    : result SnapshotTargetError TargetDb :=
  match sd_groups db !! group with
  | Some row =>
      if (gr_pipeline_id row =? pipeline_id)%Z && (gr_topology_generation row =? generation)%Z
         && (gr_fencing_token row =? fencing_token)%Z && bool_decide (gr_state row = "loading")
      then Ok (with_groups (delete group) id id db)
      else Err (UnexpectedMetadataWriteCount 0)
  | None => Err (UnexpectedMetadataWriteCount 0)
  end.

(** The order in which stale groups are cleaned. *)
Definition stale_le (a b : Z * GroupRow) : Prop :=
  (gr_topology_generation a.2 < gr_topology_generation b.2)%Z \/
  gr_topology_generation a.2 = gr_topology_generation b.2 /\
    ((gr_fencing_token a.2 < gr_fencing_token b.2)%Z \/
     gr_fencing_token a.2 = gr_fencing_token b.2 /\ (a.1 <= b.1)%Z).
Global Instance stale_le_dec : RelDecision stale_le.
Proof. intros a b. unfold stale_le. apply _. Defined.

(** The row after [SET purged_at = clock_timestamp(), purged_by_fencing_token = $6]. *)
Definition purged_row (at_ fencing_token : Z) (row : LogRow) : LogRow :=
  mkLogRow (lg_quarantine row) (lg_quarantine_relation_oid row) (lg_pipeline_id row)
    (lg_topology_generation row) (lg_source_relation_id row) (lg_previous_snapshot_group_id row)
    (lg_table_generation row) (lg_schema_fingerprint row) (lg_reason row)
    (lg_previous_fencing_token row) (lg_fencing_token row) (lg_recorded_at row)
    (Some (at_, fencing_token)).

Section cleanup.
Context (refused : string -> option string) (sha256 : bytes -> bytes)
  (text_order : list GroupTableRow -> list GroupTableRow)
  (row_order : list (QualifiedName * ManagedTableRow) -> list (QualifiedName * ManagedTableRow))
  (log_order : list (Z * QualifiedName * LogRow) -> list (Z * QualifiedName * LogRow))
  (now : Z).

(** The loop that collects the committed shadows of a group. *)
Definition owned_shadows (db : TargetDb) (group : Z) (stored : SnapshotActivationRequest)
    : result SnapshotTargetError (list QualifiedName) :=
  foldM (fun shadows table =>
    let? state := load_relation_state db (sat_shadow table) in
    match state with
    | Managed record =>
        let? _ := validate_shadow_ownership (sat_shadow table) record group (sar_fence stored)
                    (sat_source_relation_id table) (sat_table_generation table) (sat_schema_fingerprint table) in
        let? _ := validate_relation_identity db (sat_shadow table) record in
        Ok (shadows ++ [sat_shadow table])
    | Vacant => Ok shadows
    | ManagedObjectMissing _ => Err (ManagedRelationMissing (QualifiedName_to_string (sat_shadow table)))
    | Unmanaged => Err (ExistingUnmanagedTable (QualifiedName_to_string (sat_shadow table)))
    end) [] (sar_tables stored).

(** The loop over the rows of shadows registered for the group. *)
Definition check_extra_shadows (db : TargetDb) (pipeline_id group : Z) (expected_shadows : gset QualifiedName)
    : result SnapshotTargetError unit :=
  foldM (fun _ row =>
    let? name := qualified_name (qn_schema row.1) (qn_name row.1) in
    if bool_decide (name ∈ expected_shadows) then Ok tt
    else Err (UnexpectedSnapshotShadow (QualifiedName_to_string name))) tt
    (row_order
       (filter (fun row => mt_pipeline_id row.2 = pipeline_id /\ mt_snapshot_group_id row.2 = Some group
                           /\ mt_state row.2 = "shadow")
          (map_to_list (sd_managed_tables db)))).

Definition drop_shadow (pipeline_id group : Z) (db : TargetDb) (shadow : QualifiedName)
    : result SnapshotTargetError TargetDb :=
  let? db := drop_table refused shadow db in
  delete_managed_table shadow
    (fun row => negb ((mt_pipeline_id row =? pipeline_id)%Z && bool_decide (mt_snapshot_group_id row = Some group)
                      && bool_decide (mt_state row = "shadow"))) db.

Definition cleanup_loading_snapshot_group_locked (request : SnapshotGroupCleanupRequest) (db : TargetDb)
    : result SnapshotTargetError (SnapshotCleanupOutcome * TargetDb) :=
  let group := cr_snapshot_group_id request in
  let? stored := load_snapshot_group sha256 text_order db group in
  let? _ := validate_group_fence (sar_fence (sg_request stored)) request in
  if negb (bool_decide (sg_state stored = GroupLoading)) then Err (SnapshotGroupNotLoading group)
  else
    let request_ := sg_request stored in
    let expected_shadows := list_to_set (map sat_shadow (sar_tables request_)) in
    let? shadows := owned_shadows db group request_ in
    let pipeline_id := pf_pipeline_id (cr_current_fence request) in
    let? _ := check_extra_shadows db pipeline_id group expected_shadows in
    let? db := foldM (drop_shadow pipeline_id group) db shadows in
    let? db := delete_group_tables group (len (sar_tables request_)) db in
    let? db := delete_group_nodes group (len (sar_initial_checkpoints request_)) db in
    let? generation := database_generation (pf_topology_generation (sar_fence request_)) in
    let? db := delete_group group pipeline_id generation (pf_fencing_token (sar_fence request_)) db in
    Ok (mkCleanupOutcome group shadows, db).

Definition cleanup_loading_snapshot_group (request : SnapshotGroupCleanupRequest) (db : TargetDb)
    : result SnapshotTargetError (SnapshotCleanupOutcome * TargetDb) :=
  let? _ := validate_cleanup_request request in
  let? _ := checkpoint_err (lock_pipeline_fence (sd_meta db) (cr_current_fence request)) in
  cleanup_loading_snapshot_group_locked request db.

Definition stale_groups (db : TargetDb) (current_fence : PipelineFence) (generation : Z) : list (Z * GroupRow) :=
  merge_sort stale_le
    (filter (fun g => gr_pipeline_id g.2 = pf_pipeline_id current_fence /\ gr_state g.2 = "loading" /\
               ((gr_topology_generation g.2 < generation)%Z \/
                gr_topology_generation g.2 = generation /\ (gr_fencing_token g.2 < pf_fencing_token current_fence)%Z))
       (map_to_list (sd_groups db))).

Definition cleanup_stale_snapshot_groups (current_fence : PipelineFence) (db : TargetDb)
    : result SnapshotTargetError (list SnapshotCleanupOutcome * TargetDb) :=
  if (pf_fencing_token current_fence <=? 0)%Z then Err (SnapshotCheckpoint InvalidFencingToken)
  else
    let? generation := database_generation (pf_topology_generation current_fence) in
    let? _ := checkpoint_err (lock_pipeline_fence (sd_meta db) current_fence) in
    foldM (fun '(outcomes, db) row =>
      let? topology_generation := persisted_u64 (gr_topology_generation row.2) row.1 in
      let group_fence :=
        mkPipelineFence (pf_pipeline_id current_fence) topology_generation (gr_fencing_token row.2) in
      let request := mkCleanupRequest current_fence group_fence row.1 in
      let? _ := validate_cleanup_request request in
      let? '(outcome, db) := cleanup_loading_snapshot_group_locked request db in
      Ok (outcomes ++ [outcome], db)) ([], db) (stale_groups db current_fence generation).

(** ** Quarantines *)

Record QuarantineRecord : Type := mkQuarantineRecord {
  qr_snapshot_group_id : Z;
  qr_original : QualifiedName;
  qr_quarantine : QualifiedName;
  qr_relation_oid : Z;
  qr_pipeline_id : Z;
  qr_topology_generation : Z;
  qr_source_relation_id : Z;
  qr_previous_snapshot_group_id : option Z;
  qr_table_generation : Z;
  qr_schema_fingerprint : string;
  qr_previous_fencing_token : Z;
  qr_fencing_token : Z;
}.

(** [Option::filter(|v| *v > 0)]. *)
Definition positive (value : option Z) : option Z :=
  match value with Some v => if (0 <? v)%Z then Some v else None | None => None end.

Definition quarantine_record_from_row (entry : Z * QualifiedName * LogRow)
    : result SnapshotTargetError QuarantineRecord :=
  let '((group, original_name), row) := entry in
  let? original := qualified_name (qn_schema original_name) (qn_name original_name) in
  let? quarantine := qualified_name (qn_schema (lg_quarantine row)) (qn_name (lg_quarantine row)) in
  let name := QualifiedName_to_string quarantine in
  let mismatch := QuarantineRecordMismatch name in
  let? topology_generation :=
    if (0 <=? lg_topology_generation row)%Z then Ok (lg_topology_generation row) else Err mismatch in
  let source_raw := lg_source_relation_id row in
  let? source_relation_id :=
    if (0 <=? source_raw)%Z && (source_raw <=? u32_max)%Z then Ok source_raw else Err mismatch in
  let? table_generation := if (0 <=? lg_table_generation row)%Z then Ok (lg_table_generation row) else Err mismatch in
  let? relation_oid := ok_or (positive (lg_quarantine_relation_oid row)) (MissingRelationIdentity name) in
  let? previous_fencing_token := ok_or (positive (lg_previous_fencing_token row)) mismatch in
  if (group =? 0)%Z || bool_decide (lg_schema_fingerprint row = EmptyString) || (lg_fencing_token row <=? 0)%Z
  then Err mismatch
  else
    Ok (mkQuarantineRecord group original quarantine relation_oid (lg_pipeline_id row) topology_generation
          source_relation_id (lg_previous_snapshot_group_id row) table_generation (lg_schema_fingerprint row)
          previous_fencing_token (lg_fencing_token row)).

Definition validate_quarantine_record (record : QuarantineRecord) (fence : PipelineFence)
    : result SnapshotTargetError unit :=
  if negb (qr_pipeline_id record =? pf_pipeline_id fence)%Z
     || (pf_topology_generation fence <? qr_topology_generation record)%Z
     || (pf_fencing_token fence <? qr_fencing_token record)%Z
  then Err InvalidSnapshotCleanupFence
  else Ok tt.

(** The rows that the candidate query returns, the oldest first, at most [limit]. *)
Definition candidates (db : TargetDb) (pipeline_id retention limit : Z) : list (Z * QualifiedName * LogRow) :=
  take (Z.to_nat limit)
    (log_order
       (filter (fun e => lg_pipeline_id e.2 = pipeline_id /\ lg_purged e.2 = None
                         /\ lg_quarantine_relation_oid e.2 <> None /\ lg_previous_fencing_token e.2 <> None
                         /\ (lg_recorded_at e.2 <= now - retention)%Z)
          (map_to_list (sd_log db)))).

Definition quarantined_record (db : TargetDb) (record : QuarantineRecord)
    : result SnapshotTargetError ManagedTableRecord :=
  let name := QualifiedName_to_string (qr_quarantine record) in
  let? state := load_relation_state db (qr_quarantine record) in
  match state with
  | Managed managed =>
      if bool_decide (mr_state managed = StQuarantined) then Ok managed else Err (QuarantineMetadataMismatch name)
  | _ => Err (MissingQuarantineMetadata name)
  end.

Definition same_quarantine (managed : ManagedTableRecord) (record : QuarantineRecord) : bool :=
  (mr_pipeline_id managed =? qr_pipeline_id record)%Z
  && bool_decide (mr_snapshot_group_id managed = qr_previous_snapshot_group_id record)
  && (mr_source_relation_id managed =? qr_source_relation_id record)%Z
  && (mr_table_generation managed =? qr_table_generation record)%Z
  && bool_decide (mr_schema_fingerprint managed = qr_schema_fingerprint record)
  && (mr_fencing_token managed =? qr_fencing_token record)%Z
  && bool_decide (mr_relation_oid managed = Some (qr_relation_oid record)).

(** [SELECT count( * ) .. WHERE quarantine_schema = $1 AND quarantine_table = $2 AND purged_at IS NULL]. *)
Definition log_entries_for (db : TargetDb) (quarantine : QualifiedName) : Z :=
  len (filter (fun e => lg_quarantine e.2 = quarantine /\ lg_purged e.2 = None) (map_to_list (sd_log db))).

Definition mark_purged (record : QuarantineRecord) (fencing_token : Z) (db : TargetDb)
    : result SnapshotTargetError TargetDb :=
  let key := (qr_snapshot_group_id record, qr_original record) in
  match sd_log db !! key with
  | Some row =>
      if bool_decide (lg_quarantine row = qr_quarantine record /\ lg_purged row = None)
      then Ok (with_log (<[key := purged_row now fencing_token row]>) db)
      else Err (UnexpectedMetadataWriteCount 0)
  | None => Err (UnexpectedMetadataWriteCount 0)
  end.

(** The body of the loop over the candidates. *)
Definition collect_quarantine (fence : PipelineFence) (st : list QualifiedName * TargetDb)
    (entry : Z * QualifiedName * LogRow) : result SnapshotTargetError (list QualifiedName * TargetDb) :=
  let '(dropped, db) := st in
  let? record := quarantine_record_from_row entry in
  let? _ := validate_quarantine_record record fence in
  let quarantine := qr_quarantine record in
  let name := QualifiedName_to_string quarantine in
  let old_record :=
    mkManagedTableRecord (qr_pipeline_id record) (qr_previous_snapshot_group_id record)
      (Some (qr_relation_oid record)) (qr_source_relation_id record) (qr_table_generation record)
      (qr_schema_fingerprint record) StQuarantined (qr_previous_fencing_token record) in
  let? expected_name := quarantine_name sha256 (qr_original record) old_record in
  if bool_decide (expected_name <> quarantine) then Err (QuarantineRecordMismatch name)
  else
    let? managed := quarantined_record db record in
    if negb (same_quarantine managed record) then Err (QuarantineMetadataMismatch name)
    else
      let? _ := validate_relation_identity db quarantine managed in
      if negb (log_entries_for db quarantine =? 1)%Z then Err (QuarantineRecordMismatch name)
      else
        let? db := drop_table refused quarantine db in
        let? db := delete_managed_table quarantine
          (fun row => negb ((mt_pipeline_id row =? pf_pipeline_id fence)%Z && bool_decide (mt_state row = "quarantined")
                            && bool_decide (mt_relation_oid row = mr_relation_oid managed))) db in
        let? db := mark_purged record (pf_fencing_token fence) db in
        Ok (dropped ++ [quarantine], db).

Definition garbage_collect_quarantined_tables (fence : PipelineFence) (policy : QuarantineGcPolicy) (db : TargetDb)
    : result SnapshotTargetError (QuarantineGcOutcome * TargetDb) :=
  let? retention := retention_micros policy in
  match retention with
  | None => Ok (mkGcOutcome true [], db)
  | Some retention =>
      if (pf_fencing_token fence <=? 0)%Z then Err (SnapshotCheckpoint InvalidFencingToken)
      else
        let? _ := checkpoint_err (lock_pipeline_fence (sd_meta db) fence) in
        let? '(dropped, db) :=
          foldM (collect_quarantine fence) ([], db)
            (candidates db (pf_pipeline_id fence) retention (gp_max_tables policy)) in
        Ok (mkGcOutcome false dropped, db)
  end.
End cleanup.

(** ** Lemmas *)

Section lemmas.
Context (refused : string -> option string) (sha256 : bytes -> bytes)
  (text_order : list GroupTableRow -> list GroupTableRow)
  (row_order : list (QualifiedName * ManagedTableRow) -> list (QualifiedName * ManagedTableRow))
  (log_order : list (Z * QualifiedName * LogRow) -> list (Z * QualifiedName * LogRow))
  (now : Z).

(** Everything but the relations and their rows, the groups and the log. *)
Record same_rest (db db' : TargetDb) : Prop := {
  sr_meta : sd_meta db' = sd_meta db;
  sr_types : sd_types db' = sd_types db;
  sr_managed_types : sd_managed_types db' = sd_managed_types db;
  sr_next_oid : sd_next_oid db' = sd_next_oid db;
}.
Global Instance same_rest_refl : Reflexive same_rest.
Proof. by intros db. Qed.
Global Instance same_rest_trans : Transitive same_rest.
Proof. intros a b c [] []. split; congruence. Qed.

(** The names in [dropped] are vacant, and all others are as they were. *)
Record dropped_only (dropped : list QualifiedName) (db db' : TargetDb) : Prop := {
  do_vacant : forall n, n ∈ dropped -> vacant db' n;
  do_kept : forall n, n ∉ dropped ->
    sd_relations db' !! n = sd_relations db !! n /\ sd_managed_tables db' !! n = sd_managed_tables db !! n;
}.

Lemma dropped_only_nil db : dropped_only [] db db.
Proof. split; [by intros n ?%elem_of_nil|done]. Qed.

(** One more name is dropped. *)
Lemma dropped_only_snoc dropped n db db1 db' :
  dropped_only dropped db db1 ->
  sd_relations db' = delete n (sd_relations db1) -> sd_managed_tables db' = delete n (sd_managed_tables db1) ->
  dropped_only (dropped ++ [n]) db db'.
Proof.
  intros [Hv Hk] Hr Hm. split.
  - intros m [Hin|Hin%list_elem_of_singleton]%elem_of_app; [|subst m]; unfold vacant; rewrite Hr, Hm.
    + destruct (decide (m = n)) as [->|Hne]; [by rewrite !lookup_delete_eq|].
      rewrite !lookup_delete_ne by done. by apply Hv.
    + by rewrite !lookup_delete_eq.
  - intros m Hn. rewrite elem_of_app, list_elem_of_singleton in Hn.
    rewrite Hr, Hm, !lookup_delete_ne by (intros ->; tauto). apply Hk. tauto.
Qed.

Lemma drop_shadow_Ok pipeline group db n db' :
  drop_shadow refused pipeline group db n = Ok db' ->
  db' = with_managed_tables (delete n) (with_relations (delete n) db).
Proof.
  intros H. unfold drop_shadow in H. apply bind_Ok in H as (db1 & H1 & H).
  apply drop_table_Ok in H1 as (r & _ & ->). by apply delete_managed_table_Ok in H as (row & _ & _ & ->).
Qed.

Lemma drop_shadows_Ok pipeline group shadows db db' :
  foldM (drop_shadow refused pipeline group) db shadows = Ok db' ->
  dropped_only shadows db db' /\ same_rest db db' /\ sd_groups db' = sd_groups db /\
  sd_group_tables db' = sd_group_tables db /\ sd_group_nodes db' = sd_group_nodes db /\ sd_log db' = sd_log db.
Proof.
  apply (foldM_ind _ (fun shadows db1 => dropped_only shadows db db1 /\ same_rest db db1 /\
    sd_groups db1 = sd_groups db /\ sd_group_tables db1 = sd_group_tables db /\
    sd_group_nodes db1 = sd_group_nodes db /\ sd_log db1 = sd_log db)).
  { split; [apply dropped_only_nil|done]. }
  intros pre n db1 db2 (H1 & H2 & H3 & H4 & H5 & H6) _ ->%drop_shadow_Ok.
  split; [by eapply dropped_only_snoc|]. split; [by etrans|]. done.
Qed.

(** A committed shadow of the group, with the identity it was registered with. *)
Definition owned_shadow (db : TargetDb) (group : Z) (stored : SnapshotActivationRequest)
    (table : SnapshotActivationTable) : Prop :=
  exists r row, sd_relations db !! sat_shadow table = Some r /\
    sd_managed_tables db !! sat_shadow table = Some row /\
    mt_relation_oid row = Some (rel_oid r) /\ mt_state row = "shadow" /\
    mt_pipeline_id row = pf_pipeline_id (sar_fence stored) /\ mt_snapshot_group_id row = Some group /\
    mt_fencing_token row = pf_fencing_token (sar_fence stored).

Lemma validate_relation_identity_Ok db n record u :
  validate_relation_identity db n record = Ok u ->
  exists r, sd_relations db !! n = Some r /\ mr_relation_oid record = Some (rel_oid r).
Proof.
  intros H. unfold validate_relation_identity in H. destruct (mr_relation_oid record) as [oid|]; [|done]. cbn in H.
  unfold relation_oid in H. destruct (sd_relations db !! n) as [r|]; [|done]. destruct (rel_is_table r); [|done].
  cbn in H. destruct (Z.eqb_spec (rel_oid r) oid) as [<-|]; [|done]. by exists r.
Qed.

Lemma validate_shadow_ownership_Ok n record group fence source generation fingerprint u :
  validate_shadow_ownership n record group fence source generation fingerprint = Ok u ->
  mr_pipeline_id record = pf_pipeline_id fence /\ mr_snapshot_group_id record = Some group /\
  mr_state record = StShadow /\ mr_fencing_token record = pf_fencing_token fence.
Proof.
  intros H. unfold validate_shadow_ownership in H.
  destruct (Z.eqb_spec (mr_pipeline_id record) (pf_pipeline_id fence)); [|done]. cbn in H.
  destruct (_ || _) eqn:Hc; [done|]. rewrite !orb_false_iff, !negb_false_iff, !bool_decide_eq_true, !Z.eqb_eq in Hc.
  tauto.
Qed.

Lemma owned_shadows_Ok db group stored shadows :
  owned_shadows db group stored = Ok shadows ->
  (forall n, n ∈ shadows <-> exists t, t ∈ sar_tables stored /\ n = sat_shadow t /\ owned_shadow db group stored t) /\
  (forall t, t ∈ sar_tables stored -> sat_shadow t ∉ shadows -> vacant db (sat_shadow t)).
Proof.
  unfold owned_shadows.
  apply (foldM_ind _ (fun tables shadows =>
    (forall n, n ∈ shadows <-> exists t, t ∈ tables /\ n = sat_shadow t /\ owned_shadow db group stored t) /\
    (forall t, t ∈ tables -> sat_shadow t ∉ shadows -> vacant db (sat_shadow t)))).
  { split; [|by intros t ?%elem_of_nil]. intros n. split; [by intros ?%elem_of_nil|].
    by intros (t & ?%elem_of_nil & _). }
  intros pre t s1 s2 [I1 I2] _ H. apply bind_Ok in H as (state & Hs & H). apply load_relation_state_Ok in Hs.
  destruct state as [| | |record]; try done.
  - injection H as <-. split.
    + intros n. rewrite I1. split; intros (t' & Ht & Hrest); exists t'; (split; [|done]);
        rewrite elem_of_app, list_elem_of_singleton in *; [by left|]. destruct Ht as [| ->]; [done|].
      destruct Hrest as (_ & r & row & Hr & _). destruct Hs. congruence.
    + intros t' [Ht|Ht%list_elem_of_singleton]%elem_of_app Hn; [by apply I2|by subst t'].
  - apply bind_Ok in H as (u & Hown & H). apply bind_Ok in H as (v & Hid & H). injection H as <-.
    destruct Hs as (_ & row & Hrow & Hrec). apply validate_relation_identity_Ok in Hid as (r & Hr & Hoid).
    apply validate_shadow_ownership_Ok in Hown as (Hp & Hg & Hst & Htok).
    apply managed_table_record_from_row_Ok in Hrec as (E1 & E2 & E3 & _ & _ & _ & E7 & E8 & _).
    assert (Ho : owned_shadow db group stored t).
    { exists r, row. split_and!; try done; try congruence. by rewrite E8, Hst. }
    split.
    + intros n. rewrite elem_of_app, I1, list_elem_of_singleton. split.
      * intros [(t' & Ht & Hrest)| ->]; [exists t'|exists t]; rewrite elem_of_app, list_elem_of_singleton; auto.
      * intros (t' & Ht & Hrest). rewrite elem_of_app, list_elem_of_singleton in Ht.
        destruct Ht as [Ht| ->]; [left; by exists t'|right; apply Hrest].
    + intros t' Ht [Hn Hn']%not_elem_of_app. rewrite elem_of_app, list_elem_of_singleton in Ht.
      destruct Ht as [| ->]; [by apply I2|]. exfalso. apply Hn'. left.
Qed.

(** A loop that only checks has checked every item. *)
Lemma foldM_all {E A} (f : A -> result E unit) l u v :
  foldM (fun _ x => f x) u l = Ok v -> Forall (fun x => exists w, f x = Ok w) l.
Proof.
  revert u. induction l as [|x l IH]; intros u H; [constructor|]. cbn in H. apply bind_Ok in H as (w & Hw & H).
  constructor; [by exists w|by eapply IH].
Qed.

Hypothesis Hrows : forall l, row_order l ≡ₚ l.

Lemma check_extra_shadows_Ok db pipeline group expected u :
  check_extra_shadows row_order db pipeline group expected = Ok u ->
  forall n row, sd_managed_tables db !! n = Some row -> mt_pipeline_id row = pipeline ->
    mt_snapshot_group_id row = Some group -> mt_state row = "shadow" -> n ∈ expected.
Proof.
  intros H n row Hn Hp Hg Hs. unfold check_extra_shadows in H. set (rows := row_order _) in H.
  assert (Hin : (n, row) ∈ rows).
  { unfold rows. rewrite Hrows, list_elem_of_filter, elem_of_map_to_list. done. }
  clearbody rows. apply foldM_all in H. rewrite Forall_forall in H. destruct (H _ Hin) as (u1 & H1). clear H.
  apply bind_Ok in H1 as (q & Hq & H1). apply qualified_name_valid in Hq as [-> _]. by case_bool_decide.
Qed.

Lemma validate_cleanup_request_Ok request u :
  validate_cleanup_request request = Ok u ->
  pf_pipeline_id (cr_group_fence request) = pf_pipeline_id (cr_current_fence request) /\
  (pf_topology_generation (cr_group_fence request) <= pf_topology_generation (cr_current_fence request))%Z /\
  (pf_fencing_token (cr_group_fence request) <= pf_fencing_token (cr_current_fence request))%Z.
Proof.
  unfold validate_cleanup_request. destruct (_ || _) eqn:Hc; [done|]. intros _.
  rewrite !orb_false_iff, negb_false_iff, Z.eqb_eq, !Z.ltb_ge in Hc. intuition lia.
Qed.

(** The rows of the group are deleted, and nothing else of the groups. *)
Lemma delete_group_rows_Ok group tables nodes pipeline generation token db db1 db2 db' :
  delete_group_tables group tables db = Ok db1 -> delete_group_nodes group nodes db1 = Ok db2 ->
  delete_group group pipeline generation token db2 = Ok db' ->
  db' = with_groups (delete group) (delete group) (delete group) db.
Proof.
  unfold delete_group_tables, delete_group_nodes, delete_group. intros H1 H2 H3.
  destruct (negb _) in H1; [done|]. injection H1 as <-. destruct (negb _) in H2; [done|]. injection H2 as <-.
  destruct (sd_groups _ !! group) in H3; [|done]. destruct (_ && _) in H3; [|done].
  injection H3 as <-. reflexivity.
Qed.

(** C20: cleaning up an interrupted load removes that load and nothing else.  When it commits, the
    caller held the current fence, not older than that of the loading group; the dropped relations
    are exactly the existing shadows that the manifest lists, each with the identity, owner and
    token it was registered with; no shadow of the group stays registered; the group's rows are
    gone, so it can be registered again; and every other relation, row, group and log entry is
    unchanged, the checkpoints included. *)
Theorem cleanup_drops_only_owned_shadows (request : SnapshotGroupCleanupRequest) (db db' : TargetDb)
    (outcome : SnapshotCleanupOutcome) :
  let group := cr_snapshot_group_id request in
  let dropped := co_dropped_shadows outcome in
  cleanup_loading_snapshot_group refused sha256 text_order row_order request db = Ok (outcome, db') ->
  lock_pipeline_fence (sd_meta db) (cr_current_fence request) = Ok tt /\
  (pf_topology_generation (cr_group_fence request) <= pf_topology_generation (cr_current_fence request))%Z /\
  (pf_fencing_token (cr_group_fence request) <= pf_fencing_token (cr_current_fence request))%Z /\
  (exists stored, load_snapshot_group sha256 text_order db group = Ok stored /\
     sg_state stored = GroupLoading /\ sar_fence (sg_request stored) = cr_group_fence request /\
     forall n, n ∈ dropped <-> exists t, t ∈ sar_tables (sg_request stored) /\ n = sat_shadow t /\
       owned_shadow db group (sg_request stored) t) /\
  dropped_only dropped db db' /\ same_rest db db' /\
  (forall n row, sd_managed_tables db' !! n = Some row ->
     ~ (mt_pipeline_id row = pf_pipeline_id (cr_current_fence request) /\
        mt_snapshot_group_id row = Some group /\ mt_state row = "shadow")) /\
  sd_groups db' = delete group (sd_groups db) /\ sd_group_tables db' = delete group (sd_group_tables db) /\
  sd_group_nodes db' = delete group (sd_group_nodes db) /\ sd_log db' = sd_log db.
Proof.
  intros group dropped H. unfold cleanup_loading_snapshot_group in H.
  apply bind_Ok in H as (? & Hv & H). apply bind_Ok in H as ([] & Hlock%map_err_Ok & H).
  apply validate_cleanup_request_Ok in Hv as (Hp & Hg & Ht). do 3 (split; [done|]).
  unfold cleanup_loading_snapshot_group_locked in H. fold group in H.
  apply bind_Ok in H as (stored & Hst & H). apply bind_Ok in H as (? & Hf & H).
  unfold validate_group_fence in Hf. case_bool_decide as Hfence; [|done].
  case_bool_decide as Hload; [|done]. cbn [negb] in H.
  apply bind_Ok in H as (shadows & Hsh & H). apply bind_Ok in H as (? & Hex & H).
  apply bind_Ok in H as (db1 & H1 & H). apply bind_Ok in H as (db2 & H2 & H).
  apply bind_Ok in H as (db3 & H3 & H). apply bind_Ok in H as (g & _ & H).
  apply bind_Ok in H as (db4 & H4 & H). injection H as <- <-. subst dropped. cbn [co_dropped_shadows].
  rewrite (delete_group_rows_Ok _ _ _ _ _ _ _ _ _ _ H2 H3 H4). clear H2 H3 H4.
  apply owned_shadows_Ok in Hsh as [Hown Hvac].
  apply drop_shadows_Ok in H1 as ([Hdv Hdk] & [] & E1 & E2 & E3 & E4). split_and!.
  - by exists stored.
  - by split.
  - by split.
  - intros n row Hrow (Hrp & Hrg & Hrs). cbn in Hrow.
    destruct (decide (n ∈ shadows)) as [Hin|Hin]; [destruct (Hdv n Hin); congruence|].
    destruct (Hdk n Hin) as [_ E]. rewrite E in Hrow.
    pose proof (check_extra_shadows_Ok _ _ _ _ _ Hex n row Hrow Hrp Hrg Hrs) as Hexp.
    apply elem_of_list_to_set, list_elem_of_fmap in Hexp as (t & -> & Htin).
    destruct (Hvac t Htin Hin) as [_ Hnone]. congruence.
  - cbn. by rewrite E1.
  - cbn. by rewrite E2.
  - cbn. by rewrite E3.
  - exact E4.
Qed.

(** ** Lemmas: quarantines *)

Lemma quarantine_record_from_row_Ok group original row record :
  quarantine_record_from_row (group, original, row) = Ok record ->
  qr_snapshot_group_id record = group /\ qr_original record = original /\
  qr_quarantine record = lg_quarantine row /\ lg_quarantine_relation_oid row = Some (qr_relation_oid record).
Proof.
  intros H. cbn in H. apply bind_Ok in H as (o & Ho & H). apply bind_Ok in H as (q & Hq & H).
  apply bind_Ok in H as (tg & _ & H). apply bind_Ok in H as (src & _ & H). apply bind_Ok in H as (gen & _ & H).
  apply bind_Ok in H as (oid & Hoid & H). apply bind_Ok in H as (tok & _ & H). destruct (_ || _); [done|].
  injection H as <-. cbn. apply qualified_name_Ok in Ho, Hq. rewrite name_eta in Ho, Hq. split_and!; try done.
  destruct (lg_quarantine_relation_oid row) as [v|]; [|done]. cbn in Hoid. destruct (0 <? v)%Z; [|done].
  cbn in Hoid. by injection Hoid as ->.
Qed.

(** What justifies the collection of a quarantined relation. *)
Definition collectable (pipeline retention : Z) (db : TargetDb) (key : Z * QualifiedName) (row : LogRow) : Prop :=
  sd_log db !! key = Some row /\ lg_purged row = None /\ lg_pipeline_id row = pipeline /\
  (lg_recorded_at row <= now - retention)%Z /\
  exists r mrow, sd_relations db !! lg_quarantine row = Some r /\
    sd_managed_tables db !! lg_quarantine row = Some mrow /\
    lg_quarantine_relation_oid row = Some (rel_oid r) /\ mt_relation_oid mrow = Some (rel_oid r) /\
    mt_state mrow = "quarantined" /\ mt_pipeline_id mrow = pipeline.

(** The log keeps every entry; those in [keys] are marked. *)
Definition purged_only (token : Z) (keys : list (Z * QualifiedName)) (db db' : TargetDb) : Prop :=
  forall key, sd_log db' !! key =
    if bool_decide (key ∈ keys) then purged_row now token <$> sd_log db !! key else sd_log db !! key.

Lemma mark_purged_Ok record token db db' :
  mark_purged now record token db = Ok db' ->
  exists row, sd_log db !! (qr_snapshot_group_id record, qr_original record) = Some row /\
    lg_quarantine row = qr_quarantine record /\ lg_purged row = None /\
    db' = with_log (<[(qr_snapshot_group_id record, qr_original record) := purged_row now token row]>) db.
Proof.
  unfold mark_purged. destruct (sd_log db !! _) as [row|]; [|done]. case_bool_decide as Hc; [|done].
  intros [= <-]. exists row. destruct Hc. done.
Qed.

(** One step of the collection. *)
Lemma collect_quarantine_Ok fence dropped db key row dropped' db' :
  collect_quarantine refused sha256 now fence (dropped, db) (key, row) = Ok (dropped', db') ->
  exists r mrow row', dropped' = dropped ++ [lg_quarantine row] /\
    sd_relations db !! lg_quarantine row = Some r /\ sd_managed_tables db !! lg_quarantine row = Some mrow /\
    lg_quarantine_relation_oid row = Some (rel_oid r) /\ mt_relation_oid mrow = Some (rel_oid r) /\
    mt_state mrow = "quarantined" /\ mt_pipeline_id mrow = pf_pipeline_id fence /\
    sd_log db !! key = Some row' /\ lg_purged row' = None /\
    db' = with_log (<[key := purged_row now (pf_fencing_token fence) row']>)
      (with_managed_tables (delete (lg_quarantine row)) (with_relations (delete (lg_quarantine row)) db)).
Proof.
  destruct key as [group original]. intros H. unfold collect_quarantine in H.
  apply bind_Ok in H as (record & Hrec & H). apply quarantine_record_from_row_Ok in Hrec as (Eg & Eo & Eq & Eoid).
  apply bind_Ok in H as (? & _ & H). apply bind_Ok in H as (expected & _ & H). case_bool_decide; [done|].
  apply bind_Ok in H as (managed & _ & H). destruct (same_quarantine managed record) eqn:Hsame; [|done]. cbn [negb] in H.
  apply bind_Ok in H as (? & Hid & H). apply validate_relation_identity_Ok in Hid as (r & Hr & Hmo).
  destruct (log_entries_for db _ =? 1)%Z; [|done]. cbn [negb] in H.
  apply bind_Ok in H as (db1 & H1 & H). apply drop_table_Ok in H1 as (r' & Hr' & ->).
  apply bind_Ok in H as (db2 & H2 & H). apply delete_managed_table_Ok in H2 as (mrow & Hm & Hkeep & ->).
  apply bind_Ok in H as (db3 & H3 & H). injection H as <- <-.
  apply mark_purged_Ok in H3 as (row' & Hrow & _ & Hpur & ->). cbn in Hm, Hrow. rewrite Eq, Eg, Eo in *.
  apply negb_false_iff in Hkeep. rewrite !andb_true_iff, !bool_decide_eq_true, Z.eqb_eq in Hkeep.
  destruct Hkeep as [[Hp Hs] Ho]. unfold same_quarantine in Hsame.
  rewrite !andb_true_iff, !bool_decide_eq_true, !Z.eqb_eq in Hsame. destruct Hsame as [_ Hso].
  exists r, mrow, row'. split_and!; try done; congruence.
Qed.

Hypothesis Hlog : forall l, log_order l ≡ₚ l.

Lemma candidates_elem db pipeline retention limit e :
  e ∈ candidates log_order now db pipeline retention limit ->
  sd_log db !! e.1 = Some e.2 /\ lg_pipeline_id e.2 = pipeline /\ lg_purged e.2 = None /\
  (lg_recorded_at e.2 <= now - retention)%Z.
Proof.
  intros He. unfold candidates in He. apply elem_of_take in He as (i & He%list_elem_of_lookup_2 & _).
  rewrite Hlog, list_elem_of_filter in He. destruct e as [key row], He as [(H1 & H2 & _ & _ & H3) He].
  by apply elem_of_map_to_list in He.
Qed.

(** What a collection of some candidates has done. *)
Record collected (fence : PipelineFence) (retention : Z) (db : TargetDb)
    (entries : list (Z * QualifiedName * LogRow)) (dropped : list QualifiedName) (db' : TargetDb) : Prop := {
  cl_dropped : dropped = map (fun e => lg_quarantine e.2) entries;
  cl_collectable : Forall (fun e => collectable (pf_pipeline_id fence) retention db e.1 e.2) entries;
  cl_only : dropped_only dropped db db';
  cl_log : purged_only (pf_fencing_token fence) (map fst entries) db db';
  cl_rest : same_rest db db';
  cl_groups : sd_groups db' = sd_groups db /\ sd_group_tables db' = sd_group_tables db /\
    sd_group_nodes db' = sd_group_nodes db;
}.

Lemma collect_Ok fence policy retention db dropped db' :
  let entries := candidates log_order now db (pf_pipeline_id fence) retention (gp_max_tables policy) in
  foldM (collect_quarantine refused sha256 now fence) ([], db) entries = Ok (dropped, db') ->
  collected fence retention db entries dropped db'.
Proof.
  intros entries.
  apply (foldM_ind _ (fun es st => collected fence retention db es st.1 st.2)).
  { split; cbn; try done. apply dropped_only_nil. }
  intros pre [key row] [d1 db1] [d2 db2] [H1 H2 H3 H4 H5 H6] He H. cbn in H1, H2, H3, H4, H5, H6.
  destruct (candidates_elem _ _ _ _ _ He) as (Hrow & Hp & Hpur & Htime). cbn in Hrow, Hp, Hpur, Htime.
  apply collect_quarantine_Ok in H as (r & mrow & row' & -> & Hr & Hm & Hoid & Hmoid & Hst & Hmp & Hlog' & Hpur' & ->).
  assert (key ∉ map fst pre /\ row' = row) as [Hkey ->].
  { rewrite (H4 key), Hrow in Hlog'. case_bool_decide as Hk; cbn in Hlog'; injection Hlog' as <-; done. }
  assert (Hn : lg_quarantine row ∉ d1).
  { intros Hin. destruct (do_vacant _ _ _ H3 _ Hin). congruence. }
  destruct (do_kept _ _ _ H3 _ Hn) as [E1 E2]. split; cbn.
  - rewrite map_app, H1. done.
  - apply Forall_app. split; [done|]. apply Forall_singleton. split_and!; try done.
    exists r, mrow. cbn. split_and!; congruence.
  - by eapply dropped_only_snoc.
  - intros k. cbn. rewrite map_app. destruct (decide (k = key)) as [->|Hne].
    + rewrite lookup_insert_eq, bool_decide_true by (apply elem_of_app; right; left). by rewrite Hrow.
    + rewrite lookup_insert_ne by done. rewrite (H4 k). cbn [map fst].
      rewrite (bool_decide_ext (k ∈ map fst pre ++ [key]) (k ∈ map fst pre)); [done|].
      rewrite elem_of_app, list_elem_of_singleton. tauto.
  - destruct H5. by split.
  - done.
Qed.

(** C21: the collection of quarantines destroys only what it is entitled to.  It is off unless a
    retention is set.  When it commits under the current fence, there are at most the allowed number
    of tables; each is a quarantined relation of the pipeline that was logged at least the retention
    ago and not collected since, whose identity agrees in the log, in its row and in the catalog;
    each gives up its name, its row and nothing else; every other relation, row, group and
    checkpoint is unchanged; and the log keeps every entry, the collected ones marked with the time
    and the token. *)
Theorem collection_destroys_only_expired_quarantines (fence : PipelineFence) (policy : QuarantineGcPolicy)
    (db db' : TargetDb) (outcome : QuarantineGcOutcome) :
  (0 <= gp_max_tables policy)%Z ->
  garbage_collect_quarantined_tables refused sha256 log_order now fence policy db = Ok (outcome, db') ->
  if go_disabled outcome then gp_retention policy = None /\ go_dropped outcome = [] /\ db' = db
  else
    lock_pipeline_fence (sd_meta db) fence = Ok tt /\ (len (go_dropped outcome) <= gp_max_tables policy)%Z /\
    exists nanos retention entries, gp_retention policy = Some nanos /\ retention_micros policy = Ok (Some retention) /\
      (0 < retention)%Z /\ (nanos < (retention + 1) * 1000)%Z /\
      collected fence retention db entries (go_dropped outcome) db'.
Proof.
  intros Hmax H. unfold garbage_collect_quarantined_tables in H. apply bind_Ok in H as (retention & Hret & H).
  pose proof Hret as Hret'. unfold retention_micros in Hret'. apply bind_Ok in Hret' as (u & Hv & Hret').
  destruct retention as [retention|].
  - destruct (_ <=? _)%Z in H; [done|]. apply bind_Ok in H as ([] & Hlock%map_err_Ok & H).
    apply bind_Ok in H as ([dropped db1] & H1 & H). injection H as <- <-. cbn [go_disabled go_dropped].
    apply collect_Ok in H1. split; [exact Hlock|]. destruct (gp_retention policy) as [nanos|] eqn:Hn; [|done].
    destruct (_ <=? _)%Z; [|done]. injection Hret' as Er. split.
    + rewrite (cl_dropped _ _ _ _ _ _ H1). unfold len, candidates. rewrite length_map, length_take. lia.
    + exists nanos, retention. eexists. split_and!; [done|done|lia| |exact H1].
      Z.div_mod_to_equations. lia.
  - destruct (gp_retention policy) as [nanos|]; [by destruct (_ <=? _)%Z in Hret'|]. by injection H as <- <-.
Qed.
End lemmas.

(** ** Examples *)

Definition example_cleanup : SnapshotGroupCleanupRequest := mkCleanupRequest example_fence example_fence 77.
Definition cleaned_target : result SnapshotTargetError (SnapshotCleanupOutcome * TargetDb) :=
  cleanup_loading_snapshot_group accepted name_digest by_bytes (fun l => l) example_cleanup loaded_target.

(** The interrupted load of [orders] is removed; its active table stays. *)
Lemma cleanup_drops_only_owned_shadows_witness :
  exists outcome db', cleaned_target = Ok (outcome, db') /\
    co_dropped_shadows outcome = [mkQualifiedName "sales" "pg2cb_s_orders"] /\
    sd_relations db' !! mkQualifiedName "sales" "orders" = sd_relations loaded_target !! mkQualifiedName "sales" "orders".
Proof.
  assert (Hex : match cleaned_target with
                | Ok (outcome, _) => bool_decide (co_dropped_shadows outcome = [mkQualifiedName "sales" "pg2cb_s_orders"])
                | _ => false
                end = true) by (vm_compute; reflexivity).
  destruct cleaned_target as [[outcome db']|e|] eqn:E; [|discriminate Hex|discriminate Hex].
  apply bool_decide_eq_true in Hex. exists outcome, db'. split; [reflexivity|]. split; [exact Hex|].
  destruct (cleanup_drops_only_owned_shadows accepted name_digest by_bytes (fun l => l) ltac:(intros; reflexivity)
    example_cleanup loaded_target db' outcome E) as (_ & _ & _ & _ & [_ Hk] & _).
  apply Hk. rewrite Hex. intros He%list_elem_of_singleton. discriminate He.
Defined.

Definition example_policy : QuarantineGcPolicy := mkGcPolicy (Some 1000000000%Z) 100.

(** Two seconds after the activation both quarantined tables are past a retention of one. *)
Definition collected_target : result SnapshotTargetError (QuarantineGcOutcome * TargetDb) :=
  match activated_target with
  | Ok (_, db) =>
      garbage_collect_quarantined_tables accepted name_digest (fun l => l) 2001000 example_fence example_policy db
  | _ => Err InvalidOwnership
  end.

Lemma collection_destroys_only_expired_quarantines_witness :
  exists activation db outcome db', activated_target = Ok (activation, db) /\
    collected_target = Ok (outcome, db') /\ length (go_dropped outcome) = 2 /\
    sd_relations db' !! mkQualifiedName "sales" "orders" = sd_relations db !! mkQualifiedName "sales" "orders".
Proof.
  assert (Hex : match collected_target with
                | Ok (outcome, _) => negb (go_disabled outcome) && (length (go_dropped outcome) =? 2)%nat
                    && bool_decide (mkQualifiedName "sales" "orders" ∉ go_dropped outcome)
                | _ => false
                end = true) by (vm_compute; reflexivity).
  destruct collected_target as [[outcome db']|e|] eqn:E; [|discriminate Hex|discriminate Hex].
  unfold collected_target in E. destruct activated_target as [[activation db]|e|]; [|discriminate E|discriminate E].
  apply andb_true_iff in Hex as [Hex Hn%bool_decide_eq_true]. apply andb_true_iff in Hex as [Hd Hl%Nat.eqb_eq].
  exists activation, db, outcome, db'. split; [reflexivity|]. split; [reflexivity|]. split; [exact Hl|].
  pose proof (collection_destroys_only_expired_quarantines accepted name_digest (fun l => l) 2001000
    ltac:(intros; reflexivity) example_fence example_policy db db' outcome ltac:(vm_compute; discriminate) E) as H.
  destruct (go_disabled outcome); [discriminate Hd|]. destruct H as (_ & _ & nanos & retention & entries & _ & _ & _ & _ & Hc).
  apply (cl_only _ _ _ _ _ _ _ Hc). exact Hn.
Defined.
