(* ===== verification/Errors.v ===== *)
(** * The texts of errors

    [Display] of the errors that reach a pipeline job, from the enums of [metadata], [engine] and
    [target-cloudberry]; those of [source-postgres] and [core] are in [Publication] and
    [Catalog].  Identifiers are shown as hyphenated UUIDs ([crates/core/src/id.rs]). *)

From S2P Require Import Prelude Core Schema Sql Source Mapping Batch Copy TargetSchema Checkpoint Normalize Apply Pipeline Sink Settings Planning Catalog Publication Store Snapshot.

(** [Uuid]'s [Display] and [Debug], of the identifier's 128 bits. *)
Definition id_to_string (id : Z) : string :=
  let digits := fixed_hex 32 id in
  String.substring 0 8 digits +:+ "-" +:+ String.substring 8 4 digits +:+ "-" +:+ String.substring 12 4 digits +:+ "-"
  +:+ String.substring 16 4 digits +:+ "-" +:+ String.substring 20 12 digits.

Definition StoreError_to_string (e : StoreError) : string :=
  match e with
  | StoreDatabase message => "control database operation failed: " +:+ message
  | StorePool message => "control database connection pool failed: " +:+ message
  | StoreInvalidPrefix source => "invalid persisted source prefix: " +:+ CoreError_to_string source
  | InvalidTopology topology => "unknown source topology `" +:+ topology +:+ "`"
  | InvalidLeaseDuration => "lease duration is too large"
  | StaleRevision => "pipeline configuration revision is stale"
  | IncompatibleSchemaVersion expected actual =>
      "control database schema version " +:+ pretty actual +:+ " is incompatible; expected " +:+ pretty expected
  | ReadOnly => "control database is read-only"
  end.

Definition SettingsError_to_string (e : SettingsError) : string :=
  match e with
  | NotObject section => section +:+ " settings must be a JSON object"
  | Decode section source => "invalid " +:+ section +:+ " settings: " +:+ source
  | Invalid path reason => "invalid settings field `" +:+ path +:+ "`: " +:+ reason
  end.

Definition TablePlanningError_to_string (e : TablePlanningError) : string :=
  match e with
  | DefaultMapping source => "invalid default table mapping: " +:+ CoreError_to_string source
  | UnknownExplicitSource table =>
      "explicit mapping references source table `" +:+ table +:+ "` outside the supported inventory"
  | Planning.DuplicateTarget table =>
      "target table `" +:+ table +:+ "` is selected by more than one source table"
  | DuplicateShadow relation => "shadow relation `" +:+ relation +:+ "` is not unique"
  | DuplicateStaging relation => "staging relation `" +:+ relation +:+ "` is not unique"
  end.

Definition SqlRenderError_to_string (e : SqlRenderError) : string :=
  match e with
  | EmptyIdentifier => "SQL identifiers cannot be empty"
  | NulByte kind => kind +:+ " contains a NUL byte"
  end.

(** [{:?}]. *)
Definition TableKind_debug (k : TableKind) : string :=
  match k with
  | Ordinary => "Ordinary"
  | Partitioned => "Partitioned"
  | CitusDistributed => "CitusDistributed"
  | CitusReference => "CitusReference"
  | CitusLocal => "CitusLocal"
  end.

Definition SchemaError_to_string (e : SchemaError) : string :=
  match e with
  | SchemaCore e => CoreError_to_string e
  | SchemaSql e => SqlRenderError_to_string e
  | UnsupportedType data_type reason =>
      "type " +:+ data_type +:+ " is not supported by the Cloudberry 2.1 contract: " +:+ reason
  | InvalidTypmod data_type reason => "invalid typmod for " +:+ data_type +:+ ": " +:+ reason
  | UnsupportedTableKind kind =>
      "table kind " +:+ TableKind_debug kind +:+ " has not been unlocked for Cloudberry apply"
  | DuplicateColumn name => "table has duplicate column name `" +:+ name +:+ "`"
  | InvalidPrimaryKeyOrdinal ordinal =>
      "table has duplicate or zero primary-key ordinal " +:+ pretty ordinal
  | ConflictingUserType name => "conflicting definitions map to target type " +:+ name
  end.

Definition AdapterConfigError_to_string (e : AdapterConfigError) : string :=
  match e with
  | AdapterApplyPlan (PlanSchema e) => SchemaError_to_string e
  | AdapterApplyPlan (PlanSql e) => SqlRenderError_to_string e
  | DuplicateBinding relation_id generation =>
      "duplicate table binding for relation " +:+ pretty relation_id +:+ " generation " +:+ pretty generation
  | Sink.DuplicateTarget target => "target table `" +:+ target +:+ "` is bound more than once"
  | AdapterDuplicateStagingName name => "staging table name `" +:+ name +:+ "` is bound more than once"
  | AdapterInvalidSlotName => "replication slot name cannot be empty or contain NUL"
  end.

Definition BatchError_to_string (e : BatchError) : string :=
  match e with
  | InvalidLimits => "batch limits must be non-zero"
  | MixedNodes expected actual =>
      "transactions from node " +:+ pretty actual +:+ " cannot enter a node " +:+ pretty expected +:+ " batch"
  | MixedSystems => "transactions from different PostgreSQL system identifiers cannot share a batch"
  | NonMonotonicLsn previous actual =>
      "transaction LSN moved backwards from " +:+ previous +:+ " to " +:+ actual
  end.

Definition NormalizeError_to_string (e : NormalizeError) : string :=
  match e with
  | NormalizeSchema e => CoreError_to_string e
  | RelationMismatch expected actual =>
      "row belongs to relation " +:+ pretty actual +:+ ", expected relation " +:+ pretty expected
  | GenerationMismatch relation_id expected actual =>
      "row for relation " +:+ pretty relation_id +:+ " uses generation " +:+ pretty actual +:+ ", expected "
      +:+ pretty expected
  | InvalidTupleArity tuple_kind expected actual =>
      tuple_kind +:+ " tuple has " +:+ pretty actual +:+ " values, expected " +:+ pretty expected
  | NormalizeInvalidOldKeyArity key_only full actual =>
      "old-key tuple has " +:+ pretty actual +:+ " values, expected either " +:+ pretty key_only
      +:+ " key values or " +:+ pretty full +:+ " table values"
  | InvalidPrimaryKey column state tuple_kind =>
      "primary-key column `" +:+ column +:+ "` is " +:+ state +:+ " in a " +:+ tuple_kind +:+ " tuple"
  | BinaryValue column =>
      "column `" +:+ column +:+ "` contains binary pgoutput data, which text COPY cannot apply"
  | IncompleteInsert column => "inserted row is missing column `" +:+ column +:+ "`"
  | AmbiguousSequence reason => "ambiguous row-change sequence: " +:+ reason
  end.

(** [{:?}]. *)
Definition PipelinePhase_debug (p : PipelinePhase) : string :=
  match p with
  | Draft => "Draft"
  | Validating => "Validating"
  | Snapshotting => "Snapshotting"
  | CatchingUp => "CatchingUp"
  | Running => "Running"
  | Paused => "Paused"
  | Degraded => "Degraded"
  | Failed => "Failed"
  | Stopped => "Stopped"
  end.

Definition PipelineError_to_string (e : PipelineError) : string :=
  match e with
  | PipelineSource message => "source stream failed: " +:+ message
  | PipelineTarget message => "target apply failed: " +:+ message
  | SchemaBarrier message =>
      "schema orchestration is required before replication can continue: " +:+ message
  | PipelineNormalize e => NormalizeError_to_string e
  | Acknowledge message => "source acknowledgement failed: " +:+ message
  | PipelineBatch e => BatchError_to_string e
  | InvalidTransition from to =>
      "invalid pipeline transition from " +:+ PipelinePhase_debug from +:+ " to " +:+ PipelinePhase_debug to
  end.

Definition CheckpointError_to_string (e : CheckpointError) : string :=
  match e with
  | CheckpointDatabase message => "target checkpoint database operation failed: " +:+ message
  | GenerationOutOfRange generation =>
      "topology generation " +:+ pretty generation +:+ " exceeds the target bigint range"
  | InvalidFencingToken => "fencing token must be positive"
  | InvalidTimeline => "timeline must be non-zero"
  | InvalidSlotName => "slot name cannot be empty or contain NUL"
  | MissingFence => "pipeline fence has not been initialized"
  | StaleFence expected_generation expected_token actual_generation actual_token =>
      "stale pipeline fence: expected generation " +:+ pretty expected_generation +:+ " token "
      +:+ pretty expected_token +:+ ", found generation " +:+ pretty actual_generation +:+ " token "
      +:+ pretty actual_token
  | FenceKeyMismatch => "the proposed checkpoint key does not match the active pipeline fence"
  | InvalidPersistedValue field value =>
      "persisted checkpoint contains invalid " +:+ field +:+ ": " +:+ value
  | Checkpoint.SourceIdentityChanged => "source node identity changed within one topology generation"
  | LsnRegression current proposed =>
      "checkpoint LSN would regress from " +:+ Lsn.to_string current +:+ " to " +:+ Lsn.to_string proposed
  | UnexpectedWriteCount written =>
      "checkpoint write affected " +:+ pretty written +:+ " rows instead of one"
  end.

Definition SnapshotTargetError_to_string (e : SnapshotTargetError) : string :=
  match e with
  | SnapshotSchema e => SchemaError_to_string e
  | SnapshotSql e => SqlRenderError_to_string e
  | SnapshotDatabase message => "target snapshot database operation failed: " +:+ message
  | SnapshotCheckpoint e => CheckpointError_to_string e
  | TargetIsShadow => "target table and shadow table must be different"
  | CrossSchemaShadowUnsupported target shadow =>
      "target table `" +:+ target +:+ "` and shadow table `" +:+ shadow +:+ "` must use the same schema"
  | ExistingUnmanagedTable table => "existing table `" +:+ table +:+ "` is not owned by pg2cb metadata"
  | ManagedByOtherPipeline table expected actual =>
      "table `" +:+ table +:+ "` is managed by pipeline " +:+ id_to_string actual +:+ ", expected pipeline "
      +:+ id_to_string expected
  | ManagedByOtherSource table expected actual =>
      "table `" +:+ table +:+ "` is managed for source relation " +:+ pretty actual +:+ ", expected "
      +:+ pretty expected
  | ManagedByNewerFence object current actual =>
      "managed object `" +:+ object +:+ "` has fencing token " +:+ pretty actual
      +:+ ", newer than current pipeline fence " +:+ pretty current
  | ManagedRelationMissing table =>
      "managed relation `" +:+ table +:+ "` is recorded in metadata but is missing physically"
  | UnexpectedManagedTableState table expected actual =>
      "managed relation `" +:+ table +:+ "` is in state `" +:+ actual +:+ "`, expected `" +:+ expected +:+ "`"
  | ShadowGenerationMismatch table expected actual =>
      "shadow table `" +:+ table +:+ "` has generation " +:+ pretty actual +:+ ", expected " +:+ pretty expected
  | ShadowFingerprintMismatch table =>
      "shadow table `" +:+ table +:+ "` has a different schema fingerprint"
  | TargetAlreadyActive table =>
      "target table `" +:+ table +:+ "` is already active for this snapshot generation"
  | ExistingPrerequisiteType name =>
      "prerequisite type `" +:+ name +:+ "` already exists and cannot be recreated safely"
  | ManagedPrerequisiteTypeMissing name =>
      "managed prerequisite type `" +:+ name +:+ "` is recorded in metadata but is missing physically"
  | PrerequisiteTypeManagedByOtherPipeline name expected actual =>
      "prerequisite type `" +:+ name +:+ "` is managed by pipeline " +:+ id_to_string actual +:+ ", expected "
      +:+ id_to_string expected
  | UnsupportedPrerequisiteTypeEvolution name reason =>
      "prerequisite type `" +:+ name +:+ "` cannot be reconciled safely: " +:+ reason
  | SourceStream message => "source snapshot stream failed: " +:+ message
  | CopySink message => "target COPY sink failed: " +:+ message
  | CopyAlreadyCompleted => "snapshot COPY has already completed"
  | CopyNotCompleted => "snapshot transaction cannot commit before COPY completes"
  | InvalidOwnership => "snapshot ownership requires a positive fencing token and non-empty fingerprint"
  | InvalidSnapshotGroupId => "snapshot group id must not be nil"
  | SnapshotGroupNotRegistered group => "snapshot group `" +:+ id_to_string group +:+ "` is not registered"
  | CorruptSnapshotGroupManifest group =>
      "snapshot group `" +:+ id_to_string group +:+ "` has a corrupt or incomplete persisted manifest"
  | SnapshotGroupManifestMismatch group =>
      "snapshot group `" +:+ id_to_string group +:+ "` manifest does not exactly match the caller"
  | SnapshotGroupAlreadyActive group =>
      "snapshot group `" +:+ id_to_string group +:+ "` is already active and cannot accept more shadows"
  | SnapshotGroupNotLoading group =>
      "snapshot group `" +:+ id_to_string group +:+ "` is not in the loading state"
  | InvalidSnapshotCleanupFence => "snapshot group cleanup authority and group fence do not match"
  | SnapshotGroupFenceMismatch group expected_generation expected_token actual_generation actual_token =>
      "snapshot group `" +:+ id_to_string group +:+ "` belongs to generation " +:+ pretty actual_generation
      +:+ " token " +:+ pretty actual_token +:+ ", expected generation " +:+ pretty expected_generation
      +:+ " token " +:+ pretty expected_token
  | UnexpectedSnapshotShadow table => "snapshot cleanup found an unexpected shadow `" +:+ table +:+ "`"
  | MissingRelationIdentity table =>
      "snapshot cleanup cannot verify the physical identity of `" +:+ table +:+ "`"
  | RelationIdentityMismatch table expected actual =>
      "physical relation `" +:+ table +:+ "` has identity " +:+ pretty actual +:+ ", expected " +:+ pretty expected
  | InvalidQuarantineRetention => "quarantine retention must be positive when enabled"
  | InvalidQuarantineBatchSize => "quarantine cleanup batch size must be positive"
  | MissingQuarantineMetadata table =>
      "quarantine metadata for `" +:+ table +:+ "` is missing or not quarantined"
  | QuarantineMetadataMismatch table =>
      "quarantine metadata for `" +:+ table +:+ "` does not match its reconciliation record"
  | QuarantineRecordMismatch table =>
      "quarantine reconciliation record for `" +:+ table +:+ "` is not uniquely owned"
  | MissingActiveSnapshotGroup pipeline generation =>
      "pipeline " +:+ id_to_string pipeline +:+ " generation " +:+ pretty generation
      +:+ " has no active snapshot group"
  | MultipleActiveSnapshotGroups pipeline generation =>
      "pipeline " +:+ id_to_string pipeline +:+ " generation " +:+ pretty generation
      +:+ " has more than one active snapshot group"
  | SnapshotTableNotInManifest group table =>
      "table `" +:+ table +:+ "` is not present in snapshot group `" +:+ id_to_string group +:+ "` manifest"
  | SnapshotTableManifestMismatch group table =>
      "table `" +:+ table +:+ "` in snapshot group `" +:+ id_to_string group
      +:+ "` does not match its persisted manifest"
  | ShadowSnapshotGroupMismatch table expected actual =>
      "shadow `" +:+ table +:+ "` belongs to snapshot group "
      +:+ match actual with Some actual => "Some(" +:+ id_to_string actual +:+ ")" | None => "None" end
      +:+ ", expected " +:+ id_to_string expected
  | SnapshotGenerationOutOfRange generation =>
      "table generation " +:+ pretty generation +:+ " exceeds the target bigint range"
  | InvalidManagedTableValue table field value =>
      "persisted managed-table field `" +:+ field +:+ "` has invalid value `" +:+ value +:+ "` for `"
      +:+ table +:+ "`"
  | EmptyActivationGroup => "snapshot activation requires at least one table and one node checkpoint"
  | DuplicateActivationIdentity =>
      "snapshot activation contains duplicate target, shadow, source relation, or node identity"
  | EmptyActivationFingerprint table =>
      "snapshot activation table `" +:+ table +:+ "` has an empty schema fingerprint"
  | InvalidActivationSourceRelation => "snapshot activation source relation id must be non-zero"
  | ActivationGenerationNotNewer table active proposed =>
      "snapshot activation for `" +:+ table +:+ "` must advance table generation beyond active "
      +:+ pretty active +:+ ", proposed " +:+ pretty proposed
  | MixedActivationState => "snapshot activation contains a mixture of pending and already-active tables"
  | IncompleteShadow table =>
      "snapshot shadow `" +:+ table +:+ "` is missing or is not completely owned by this activation"
  | ActiveCheckpointIncomplete node =>
      "active snapshot retry has not reached the required checkpoint for node " +:+ pretty node
  | ZeroInitialCheckpoint node =>
      "snapshot activation checkpoint for node " +:+ pretty node +:+ " has a zero consistent point"
  | QuarantineNameConflict table =>
      "deterministic quarantine relation `" +:+ table +:+ "` already exists"
  | UnexpectedMetadataWriteCount written =>
      "snapshot metadata write affected " +:+ pretty written +:+ " rows instead of one"
  end.

Definition CopyEncodeError_to_string (e : CopyEncodeError) : string :=
  match e with
  | EmptyRow => "COPY rows must contain at least one field"
  | CopyUnchangedToast => "UnchangedToast has no field value; materialize it with a presence mask first"
  | Copy.BinaryValue => "a pgoutput binary value cannot be written through PostgreSQL text COPY"
  end.

Definition ApplyError_to_string (e : ApplyError) : string :=
  match e with
  | ApplyDatabase message => message
  | ApplyCheckpoint e => CheckpointError_to_string e
  | ApplyCopy e => CopyEncodeError_to_string e
  | InvalidRowArity expected actual =>
      "staging row has " +:+ pretty actual +:+ " data cells, expected " +:+ pretty expected
  | MissingPrimaryKeyColumn column => "primary-key column `" +:+ column +:+ "` is NULL or unchanged"
  | InvalidOldKeyArity expected actual =>
      "move staging row has " +:+ pretty actual +:+ " old-key cells, expected " +:+ pretty expected
  | MissingOldPrimaryKey => "move staging row is missing its old primary key"
  | UnexpectedOldPrimaryKey => "only move staging rows may carry an old primary key"
  | MissingOldPrimaryKeyColumn column => "old primary-key column `" +:+ column +:+ "` is NULL or unchanged"
  | DuplicateStagingName name => "staging name `" +:+ name +:+ "` is repeated in one target transaction"
  | InvalidBatch table => "Cloudberry rejected an invalid or non-collapsed staging batch for " +:+ table
  end.

Example id_text :
  id_to_string 0x0123456789abcdef0123456789abcdef = "01234567-89ab-cdef-0123-456789abcdef".
Proof. vm_compute. reflexivity. Qed.
