(* ===== verification/Setup.v ===== *)
(** * Credentials, connections and the target's migrations

    Models what a pipeline job needs before it can work: [crates/metadata/src/crypto.rs]
    (credentials encrypted for one profile), the errors of
    [crates/engine/src/runtime/connection.rs], and [migrate_target_database] of
    [crates/target-cloudberry/src/migration.rs].

    The cipher and base64 are parameters: [seal] and [open] are XChaCha20Poly1305 under a key, a
    nonce and associated data.  The scripts of the migrations are data; the tables they create
    are the fields of [TargetDb]. *)

From S2P Require Import Prelude Effects Core Schema Sql Settings Store Errors.

(** ** Credentials *)

Definition MASTER_KEY_BYTES : Z := 32.
(** The length of an [XNonce]. *)
Definition NONCE_BYTES : Z := 24.

Definition source_credential_aad (id : Z) : string := "cloudberry-etl:source:" +:+ id_to_string id.
Definition target_credential_aad (id : Z) : string := "cloudberry-etl:target:" +:+ id_to_string id.

Inductive CryptoError : Type :=
| InvalidBase64 (source : string)
| InvalidKeyLength
| Encryption
| Decryption
| InvalidNonce
| InvalidUtf8 (source : string).

Definition CryptoError_to_string (e : CryptoError) : string :=
  match e with
  | InvalidBase64 _ => "master key is not valid base64"
  | InvalidKeyLength => "master key must decode to exactly 32 bytes"
  | Encryption => "credential encryption failed"
  | Decryption => "credential decryption failed"
  | InvalidNonce => "encrypted credential has an invalid nonce"
  | InvalidUtf8 _ => "credential is not valid UTF-8"
  end.

Record MasterKey : Type := mkMasterKey { mk_bytes : bytes }.

Section crypto.
(** [decode] is base64's; [from_utf8] is [String::from_utf8], whose strings are byte strings
    here. *)
Context (decode : string -> string + bytes) (from_utf8 : bytes -> string + string).
Context (seal : bytes -> bytes -> bytes -> bytes -> option bytes)
  (open : bytes -> bytes -> bytes -> bytes -> option bytes).

Definition from_base64 (value : string) : result CryptoError MasterKey :=
  match decode value with
  | inl error => Err (InvalidBase64 error)
  | inr decoded =>
      if negb (len decoded =? MASTER_KEY_BYTES)%Z then Err InvalidKeyLength else Ok (mkMasterKey decoded)
  end.

(** [nonce] is the generated one. *)
Definition encrypt (nonce : bytes) (self : MasterKey) (plaintext : string) (associated_data : bytes)
    (key_version : Z) : result CryptoError EncryptedSecret :=
  let? ciphertext :=
    ok_or (seal (mk_bytes self) nonce associated_data (bytes_of_string plaintext)) Encryption in
  Ok (mkEncryptedSecret key_version nonce ciphertext).

Definition decrypt (self : MasterKey) (encrypted : EncryptedSecret) (associated_data : bytes)
    : result CryptoError string :=
  if negb (len (es_nonce encrypted) =? NONCE_BYTES)%Z then Err InvalidNonce
  else
    let? plaintext :=
      ok_or (open (mk_bytes self) (es_nonce encrypted) associated_data (es_ciphertext encrypted)) Decryption in
    match from_utf8 plaintext with
    | inl error => Err (InvalidUtf8 error)
    | inr decoded => Ok decoded
    end.
End crypto.

(** ** Connections *)

Inductive EndpointRole : Type := RoleSource | RoleTarget.
Definition EndpointRole_to_string (self : EndpointRole) : string :=
  match self with RoleSource => "source PostgreSQL" | RoleTarget => "target Cloudberry" end.

Inductive SqlConnectError : Type :=
| InvalidDsn (endpoint : EndpointRole)
| ConnectTls (endpoint : EndpointRole) (source : string)
| ConnectFailed (endpoint : EndpointRole) (source : string).

Definition SqlConnectError_to_string (e : SqlConnectError) : string :=
  match e with
  | InvalidDsn endpoint => "invalid " +:+ EndpointRole_to_string endpoint +:+ " connection string"
  | ConnectTls endpoint source =>
      "failed to initialize TLS for " +:+ EndpointRole_to_string endpoint +:+ ": " +:+ source
  | ConnectFailed endpoint source =>
      "failed to connect to " +:+ EndpointRole_to_string endpoint +:+ ": " +:+ source
  end.

(** [connect_sql]: whether the driver parses the string, initialises TLS and connects. *)
Definition connect_sql (parses : string -> bool) (tls connection : option string) (dsn : string)
    (endpoint : EndpointRole) : result SqlConnectError unit :=
  if negb (parses dsn) then Err (InvalidDsn endpoint)
  else match tls, connection with
       | Some source, _ => Err (ConnectTls endpoint source)
       | None, Some source => Err (ConnectFailed endpoint source)
       | None, None => Ok tt
       end.

(** ** Target migrations *)

Inductive TargetMigrationError : Type :=
| TargetMigrationDatabase (message : string)
| TargetChecksumMismatch (version : Z).

Definition TargetMigrationError_to_string (e : TargetMigrationError) : string :=
  match e with
  | TargetMigrationDatabase message => "target metadata migration failed: " +:+ message
  | TargetChecksumMismatch version =>
      "target migration " +:+ pretty version +:+ " checksum does not match the applied migration"
  end.

Section migrations.
(** What the server refuses to execute, and the outcome of each COMMIT. *)
Context (sha256 : bytes -> bytes) (refused : string -> option string) (lost : Z -> option (string * bool)).

(** One iteration: a transaction on the rows of [schema_migrations]. *)
Definition migrate_target_one (migration : Migration)
    : Eff (gmap Z MigrationRow) TargetMigrationError unit := fun rows =>
  let checksum := sha256 (bytes_of_string (mg_sql migration)) in
  let transaction :=
    match rows !! mg_version migration with
    | Some row =>
        if negb (bool_decide (mr_checksum row = checksum)) then Err (TargetChecksumMismatch (mg_version migration))
        else Ok rows
    | None =>
        match refused (mg_sql migration) with
        | Some message => Err (TargetMigrationDatabase message)
        | None => Ok (<[mg_version migration := mkMigrationRow (mg_name migration) checksum]> rows)
        end
    end in
  match transaction with
  | Err e => (Err e, rows)
  | Panic => (Panic, rows)
  | Ok committed =>
      match lost (mg_version migration) with
      | Some (message, executed) =>
          (Err (TargetMigrationDatabase message), if executed : bool then committed else rows)
      | None => (Ok tt, committed)
      end
  end.

Definition migrate_target_database (migrations : list Migration)
    : Eff (gmap Z MigrationRow) TargetMigrationError unit := each migrate_target_one migrations.
End migrations.
