(* ===== verification/Job.v ===== *)
(** * The pipeline job

    Models [crates/engine/src/runtime/job.rs]: resolving a pipeline's profiles, preparing a run -
    the initial snapshot at a new slot, or the resumption of a checkpoint - the hand-over to the
    replication loop, and the monitor of the slot's retained WAL.

    A job works on a [World]: the source server, the target database, the control database and
    its telemetry handle.  Every call that leaves the process takes the next [Answer] of the
    environment: what others did to the servers before the call, whether the call is refused, and
    whether its reply is lost after it was executed. *)

From S2P Require Import Prelude Effects Core Decimal Schema Mapping Batch Copy Sql Source Wal TargetSchema Checkpoint Pipeline Telemetry Apply Sink PgOutput Settings Planning Catalog Publication SlotSnapshot Ddl Store Supervisor Snapshot Manifest Load Activation Cleanup Errors Setup.

(** ** Decidable equality *)

Fixpoint PgType_eq (a b : PgType) {struct a} : {a = b} + {a <> b}
with PgTypeKind_eq (k l : PgTypeKind) {struct k} : {k = l} + {k <> l}.
Proof.
  - decide equality; [apply QualifiedName_eq_dec|apply Z.eq_dec].
  - decide equality; try apply (decide (_ = _)).
Defined.
Global Instance PgType_eq_dec : EqDecision PgType := PgType_eq.
Global Instance ColumnSchema_eq_dec : EqDecision ColumnSchema.
Proof. solve_decision. Defined.
Global Instance TableSchema_eq_dec : EqDecision TableSchema.
Proof. solve_decision. Defined.
Global Instance PlannedTable_eq_dec : EqDecision PlannedTable.
Proof. solve_decision. Defined.

Definition STANDALONE_NODE_ID : Z := 0.

(** ** Errors *)

Inductive WalMonitorOutcome : Type :=
| MonitorCancelled
| MonitorRebuild (reason : string).

Inductive WalRetentionAssessment : Type :=
| Healthy
| Warning (reason : string)
| Rebuild (reason : string).

Inductive RuntimeJobError : Type :=
| SourceDisabled
| TargetDisabled
| InvalidSnapshotGeneration
| JobInvalidFencingToken
| LeaseMismatch
| MissingSource (id : string)
| MissingTarget (id : string)
| MissingPipelineForRebuild
| UnsupportedTopology (topology : string)
| SourceIsStandby
| SourceDatabaseMismatch (expected actual : string)
| UnexpectedCitus
| TargetDatabaseMismatch (expected actual : string)
| UnsupportedTarget
| NoEligibleTables
| UnsupportedIncludedTable (table reason : string)
| InitialCatalogChanged
| InitialSnapshotCleanup (original slot cleanup : string)
| ActiveOrphanSlot (slot : string)
| SlotDatabaseMismatch (slot : string) (actual : option string) (expected : string)
| UnsupportedSlotMode (slot reason : string)
| SlotInvalidated (slot reason : string)
| PublicationDrift (message : string)
| WrongSlotPlugin (slot plugin : string)
| MissingSlot (slot : string)
| SlotAheadOfTarget (slot_lsn target_lsn : Z)
| WalLost
| WalRetentionExceeded (slot reason : string)
| InvalidPersistedLsn (value : string)
| JobSourceIdentityChanged
| CheckpointSlotMismatch (expected actual : string)
| JobCancelled
| JobStore (e : StoreError)
| JobCrypto (e : CryptoError)
| JobSettings (e : SettingsError)
| JobConnect (e : SqlConnectError)
| JobSource (e : SourceError)
| JobTargetMigration (e : TargetMigrationError)
| JobCheckpoint (e : CheckpointError)
| JobSnapshot (e : SnapshotTargetError)
| JobPlanning (e : TablePlanningError)
| JobAdapter (e : AdapterConfigError)
| JobBatch (e : BatchError)
| JobPipeline (e : PipelineError)
| JobTargetDatabase (message : string).

(** Rust's [{:?}] of a string, which escapes it. *)
Section texts.
Context (debug_str : string -> string).

Definition option_debug (value : option string) : string :=
  match value with Some value => "Some(" +:+ debug_str value +:+ ")" | None => "None" end.
Definition option_number_debug (value : option Z) : string :=
  match value with Some value => "Some(" +:+ pretty value +:+ ")" | None => "None" end.

Definition RuntimeJobError_to_string (e : RuntimeJobError) : string :=
  match e with
  | SourceDisabled => "source profile is disabled"
  | TargetDisabled => "target profile is disabled"
  | InvalidSnapshotGeneration => "pipeline snapshot generation must be positive"
  | JobInvalidFencingToken => "pipeline fencing token must be positive"
  | LeaseMismatch => "pipeline lease belongs to a different pipeline"
  | MissingSource id => "source profile " +:+ id +:+ " does not exist"
  | MissingTarget id => "target profile " +:+ id +:+ " does not exist"
  | MissingPipelineForRebuild => "pipeline disappeared while requesting a schema rebuild"
  | UnsupportedTopology topology => topology +:+ " topology is validation-gated and cannot run yet"
  | SourceIsStandby => "source endpoint is a standby; a writable primary endpoint is required"
  | SourceDatabaseMismatch expected actual =>
      "source profile expects database `" +:+ expected +:+ "`, server reported `" +:+ actual +:+ "`"
  | UnexpectedCitus => "source profile is standalone but the endpoint has Citus installed"
  | TargetDatabaseMismatch expected actual =>
      "target profile expects database `" +:+ expected +:+ "`, server reported `" +:+ actual +:+ "`"
  | UnsupportedTarget => "target endpoint is not Apache Cloudberry 2.1"
  | NoEligibleTables => "no source table satisfies the complete source and target contract"
  | UnsupportedIncludedTable table reason =>
      "source table `" +:+ table +:+ "` is inside the configured scope but unsupported: " +:+ reason
  | InitialCatalogChanged => "source catalog changed while establishing the initial snapshot boundary"
  | InitialSnapshotCleanup original slot cleanup =>
      "initial snapshot failed: " +:+ original +:+ "; unable to clean up slot `" +:+ slot +:+ "`: " +:+ cleanup
  | ActiveOrphanSlot slot =>
      "logical slot `" +:+ slot +:+ "` is active while recovery owns no target checkpoint"
  | SlotDatabaseMismatch slot actual expected =>
      "logical slot `" +:+ slot +:+ "` belongs to database " +:+ option_debug actual +:+ ", expected `"
      +:+ expected +:+ "`"
  | UnsupportedSlotMode slot reason =>
      "logical slot `" +:+ slot +:+ "` uses unsupported lifecycle options: " +:+ reason
  | SlotInvalidated slot reason => "logical slot `" +:+ slot +:+ "` was invalidated: " +:+ reason
  | PublicationDrift message =>
      "managed publication drifted from its exact runtime contract: " +:+ message
  | WrongSlotPlugin slot plugin =>
      "logical slot `" +:+ slot +:+ "` uses plugin `" +:+ plugin +:+ "`, expected pgoutput"
  | MissingSlot slot => "logical slot `" +:+ slot +:+ "` is missing for an existing target checkpoint"
  | SlotAheadOfTarget slot_lsn target_lsn =>
      "source slot confirmed LSN " +:+ Lsn.to_string slot_lsn +:+ " is ahead of target checkpoint "
      +:+ Lsn.to_string target_lsn
  | WalLost => "target checkpoint precedes the source slot restart LSN; retained WAL was lost"
  | WalRetentionExceeded slot reason =>
      "source logical slot `" +:+ slot +:+ "` crossed the WAL retention protection limit: " +:+ reason
  | InvalidPersistedLsn value => "persisted slot LSN `" +:+ value +:+ "` is invalid"
  | JobSourceIdentityChanged =>
      "target checkpoint source identity no longer matches the PostgreSQL endpoint"
  | CheckpointSlotMismatch expected actual =>
      "target checkpoint slot `" +:+ actual +:+ "` does not match configured slot `" +:+ expected +:+ "`"
  | JobCancelled => "pipeline was cancelled"
  | JobStore e => StoreError_to_string e
  | JobCrypto e => CryptoError_to_string e
  | JobSettings e => SettingsError_to_string e
  | JobConnect e => SqlConnectError_to_string e
  | JobSource e => SourceError_to_string e
  | JobTargetMigration e => TargetMigrationError_to_string e
  | JobCheckpoint e => CheckpointError_to_string e
  | JobSnapshot e => SnapshotTargetError_to_string e
  | JobPlanning e => TablePlanningError_to_string e
  | JobAdapter e => AdapterConfigError_to_string e
  | JobBatch e => BatchError_to_string e
  | JobPipeline e => PipelineError_to_string e
  | JobTargetDatabase message => "target validation query failed: " +:+ message
  end.
End texts.

(** ** The job *)

Record PostgresCloudberryJob : Type := mkJob {
  jb_pipeline_id : Z;
  jb_topology_generation : Z;
  jb_fence : PipelineFence;
  jb_source : SourceProfile;
  jb_target : TargetProfile;
  jb_source_settings : SourceSettings;
  jb_target_settings : TargetSettings;
  jb_pipeline_settings : PipelineSettings;
  jb_source_dsn : string;
  jb_target_dsn : string;
}.

Record RuntimeTable : Type := mkRuntimeTable {
  rt_planned : PlannedTable;
  rt_snapshot_plan : SnapshotTargetPlan;
}.

Record PreparedRun : Type := mkPreparedRun {
  pn_tables : list RuntimeTable;
  pn_checkpoint : NodeCheckpoint;
}.

Definition validate_source (self : PostgresCloudberryJob) (report : PreflightReport)
    : result RuntimeJobError unit :=
  let identity := pr_identity report in
  if negb (bool_decide (si_database identity = sp_database_name (jb_source self)))
  then Err (SourceDatabaseMismatch (sp_database_name (jb_source self)) (si_database identity))
  else if si_in_recovery identity then Err SourceIsStandby
  else match pr_citus_version report with Some _ => Err UnexpectedCitus | None => Ok tt end.

(** [str::contains]. *)
Fixpoint contains_text (needle s : string) : bool :=
  String.prefix needle s || match s with String _ s => contains_text needle s | EmptyString => false end.

(** What the target answers: [current_database()], [version()] and the setting [gp_role]. *)
Definition validate_target (self : PostgresCloudberryJob) (row : string * string * option string)
    : result RuntimeJobError unit :=
  let '(database, version, gp_role) := row in
  if negb (bool_decide (database = tp_database_name (jb_target self)))
  then Err (TargetDatabaseMismatch (tp_database_name (jb_target self)) database)
  else
    let normalized := to_ascii_lowercase version in
    if bool_decide (gp_role = None) || negb (contains_text "cloudberry" normalized)
       || negb (contains_text "2.1." normalized)
    then Err UnsupportedTarget else Ok tt.

Definition catalog_options (self : PostgresCloudberryJob) : CatalogOptions :=
  mkCatalogOptions (ss_metadata_schema (jb_source_settings self))
    (list_to_set <$> ss_include_schemas (jb_source_settings self))
    (list_to_set (ss_exclude_schemas (jb_source_settings self))) false.

Definition with_table_generation (generation : Z) (t : TableSchema) : TableSchema :=
  mkTableSchema (ts_relation_id t) generation (ts_name t) (ts_kind t) (ts_replica_identity t) (ts_columns t)
    (ts_distribution_key t) (ts_partition_key t).

(** [u64::try_from] of an [i64]. *)
Definition try_u64 {E} (value : Z) (error : E) : result E Z := if (0 <=? value)%Z then Ok value else Err error.

Definition activation_tables (tables : list RuntimeTable) : list SnapshotActivationTable :=
  map (fun t => activation_table (rt_snapshot_plan t) (pt_schema_fingerprint (rt_planned t))) tables.
Definition source_names (tables : list RuntimeTable) : list QualifiedName :=
  map (fun t => ts_name (pt_source (rt_planned t))) tables.

Section planning.
Context (sha256 : bytes -> bytes) (to_vec : Value -> bytes).

Definition runtime_table (self : PostgresCloudberryJob) (planned : PlannedTable)
    : result RuntimeJobError RuntimeTable :=
  let snapshot_schema := with_table_generation (jb_topology_generation self) (pt_source planned) in
  let? snapshot_plan :=
    map_err JobSnapshot (plan_snapshot_target snapshot_schema (pt_target planned) (pt_shadow planned)) in
  Ok (mkRuntimeTable planned snapshot_plan).

Definition plan_inventory (self : PostgresCloudberryJob) (inventory : TableInventory)
    : result RuntimeJobError (list RuntimeTable) :=
  match ti_rejected inventory with
  | rejected :: _ =>
      Err (UnsupportedIncludedTable (QualifiedName_to_string (rj_name rejected)) (rj_reason rejected))
  | [] =>
      let? snapshot_attempt := try_u64 (pf_fencing_token (jb_fence self)) JobInvalidFencingToken in
      let? planned :=
        map_err JobPlanning
          (plan_tables sha256 to_vec (jb_pipeline_id self) snapshot_attempt (sp_prefix (jb_source self))
             (sp_database_name (jb_source self)) (tp_database_name (jb_target self))
             (jb_pipeline_settings self) (ti_supported inventory)) in
      let? accepted := try_map (runtime_table self) planned in
      match accepted with [] => Err NoEligibleTables | _ => Ok accepted end
  end.
End planning.

(** The checks of an existing slot that both preparations make. *)
Definition validate_slot (self : PostgresCloudberryJob) (slot_name : string) (slot : LogicalSlotState)
    : result RuntimeJobError unit :=
  if negb (bool_decide (ls_plugin slot = "pgoutput")) then Err (WrongSlotPlugin slot_name (ls_plugin slot))
  else if ls_active slot then Err (ActiveOrphanSlot slot_name)
  else if negb (bool_decide (ls_database slot = Some (sp_database_name (jb_source self))))
  then Err (SlotDatabaseMismatch slot_name (ls_database slot) (sp_database_name (jb_source self)))
  else if ls_temporary slot || ls_two_phase slot || ls_failover slot || ls_synced slot
  then Err (UnsupportedSlotMode slot_name
              ("temporary=" +:+ bool_text (ls_temporary slot) +:+ ", two_phase=" +:+ bool_text (ls_two_phase slot)
               +:+ ", failover=" +:+ bool_text (ls_failover slot) +:+ ", synced=" +:+ bool_text (ls_synced slot)))
  else Ok tt.

Definition parse_optional_lsn (value : option string) : result RuntimeJobError (option Z) :=
  match value with
  | None => Ok None
  | Some value =>
      let? lsn := map_err (fun _ => InvalidPersistedLsn value) (Lsn.from_str value) in
      Ok (Some lsn)
  end.

(** [u64::saturating_mul]. *)
Definition saturating_mul (a b : Z) : Z := Z.min (a * b) u64_max.

Section assessment.
Context (debug_str : string -> string).

Definition at_least (limit : Z) (value : option Z) : bool :=
  match value with Some bytes => (limit <=? bytes)%Z | None => false end.
Definition at_most (limit : Z) (value : option Z) : bool :=
  match value with Some bytes => (bytes <=? limit)%Z | None => false end.

Definition assess_wal_retention (slot : LogicalSlotState) (policy : WalRetentionSettings)
    : WalRetentionAssessment :=
  match ls_invalidation_reason slot with
  | Some reason => Rebuild ("PostgreSQL invalidated the slot: " +:+ reason)
  | None =>
      let by_size :=
        if at_least (wr_rebuild_bytes policy) (ls_retained_wal_bytes slot)
        then Rebuild ("retained WAL reached configured hard limit of " +:+ pretty (wr_rebuild_bytes policy)
                      +:+ " bytes")
        else if at_most (wr_minimum_safe_bytes policy) (ls_safe_wal_size slot)
        then Rebuild ("safe_wal_size reached configured minimum of " +:+ pretty (wr_minimum_safe_bytes policy)
                      +:+ " bytes")
        else if at_least (wr_warning_bytes policy) (ls_retained_wal_bytes slot)
                || at_most (saturating_mul (wr_minimum_safe_bytes policy) 2) (ls_safe_wal_size slot)
                || bool_decide (ls_wal_status slot = Some "extended")
        then Warning ("retained_wal_bytes=" +:+ option_number_debug (ls_retained_wal_bytes slot)
                      +:+ ", safe_wal_size=" +:+ option_number_debug (ls_safe_wal_size slot)
                      +:+ ", wal_status=" +:+ option_debug debug_str (ls_wal_status slot))
        else Healthy in
      match ls_wal_status slot with
      | None => Rebuild "PostgreSQL returned no wal_status for the managed slot"
      | Some status =>
          if bool_decide (status = "lost") then Rebuild "PostgreSQL reports wal_status=lost"
          else if bool_decide (status = "unreserved")
          then Rebuild "PostgreSQL reports wal_status=unreserved; required WAL is no longer protected"
          else if bool_decide (status = "extended") || bool_decide (status = "reserved") then by_size
          else Rebuild ("unknown PostgreSQL wal_status `" +:+ status +:+ "`")
      end
  end.

(** The checks of the positions of the slot, when a checkpoint is resumed. *)
Definition validate_positions (slot_name : string) (slot : LogicalSlotState) (checkpoint : NodeCheckpoint)
    : result RuntimeJobError unit :=
  if bool_decide (ls_wal_status slot = Some "lost") || bool_decide (is_Some (ls_invalidation_reason slot))
  then Err (SlotInvalidated slot_name
              ("wal_status=" +:+ option_debug debug_str (ls_wal_status slot) +:+ ", invalidation_reason="
               +:+ option_debug debug_str (ls_invalidation_reason slot)))
  else if bool_decide (ls_restart_lsn slot = None) then Err WalLost
  else
    let? confirmed := parse_optional_lsn (ls_confirmed_flush_lsn slot) in
    let? _ :=
      match confirmed with
      | Some confirmed =>
          if (nc_applied_lsn checkpoint <? confirmed)%Z
          then Err (SlotAheadOfTarget confirmed (nc_applied_lsn checkpoint)) else Ok tt
      | None => Ok tt
      end in
    let? restart := parse_optional_lsn (ls_restart_lsn slot) in
    match restart with
    | Some restart => if (nc_applied_lsn checkpoint <? restart)%Z then Err WalLost else Ok tt
    | None => Ok tt
    end.
End assessment.

(** ** The world of a job *)

Record World : Type := mkWorld {
  w_source : SourceServer;
  w_capture : CaptureCatalog;
  w_target : TargetDb;
  w_migrations : gmap Z MigrationRow;
  w_control : ControlDb;
  w_telemetry : PipelineRuntimeSnapshot;
  w_step : nat;
}.

Definition put_source (x : SourceServer) (w : World) : World :=
  mkWorld x (w_capture w) (w_target w) (w_migrations w) (w_control w) (w_telemetry w) (w_step w).
Definition put_capture (x : CaptureCatalog) (w : World) : World :=
  mkWorld (w_source w) x (w_target w) (w_migrations w) (w_control w) (w_telemetry w) (w_step w).
Definition put_target (x : TargetDb) (w : World) : World :=
  mkWorld (w_source w) (w_capture w) x (w_migrations w) (w_control w) (w_telemetry w) (w_step w).
Definition put_migrations (x : gmap Z MigrationRow) (w : World) : World :=
  mkWorld (w_source w) (w_capture w) (w_target w) x (w_control w) (w_telemetry w) (w_step w).
Definition put_control (x : ControlDb) (w : World) : World :=
  mkWorld (w_source w) (w_capture w) (w_target w) (w_migrations w) x (w_telemetry w) (w_step w).
Definition put_telemetry (x : PipelineRuntimeSnapshot) (w : World) : World :=
  mkWorld (w_source w) (w_capture w) (w_target w) (w_migrations w) (w_control w) x (w_step w).
Definition put_step (x : nat) (w : World) : World :=
  mkWorld (w_source w) (w_capture w) (w_target w) (w_migrations w) (w_control w) (w_telemetry w) x.

(** One call.  [an_source] to [an_telemetry] are what others do before it; [an_failed] is a
    query that fails, [an_refused] a refused statement, [an_lost] a lost reply; the rest is what
    only the server, the clock, the generator of identifiers or the user decides. *)
Record Answer : Type := mkAnswer {
  an_source : SourceServer -> SourceServer;
  an_capture : CaptureCatalog -> CaptureCatalog;
  an_target : TargetDb -> TargetDb;
  an_control : ControlDb -> ControlDb;
  an_telemetry : PipelineRuntimeSnapshot -> PipelineRuntimeSnapshot;
  an_failed : option string;
  an_refused : string -> option string;
  an_lost : option (string * bool);
  an_migration_lost : Z -> option (string * bool);
  an_tls : option string;
  an_connection : option string;
  an_replication : result SourceError unit;
  an_now : Z;
  an_uuid : Z;
  an_cancelled : bool;
  an_identity : string * string * option string;
  an_reply : list SimpleQueryMessage;
  an_point : string;
  an_items : list (result string bytes * option string);
  an_finish : result string Z;
}.

Definition Job (A : Type) : Type := Eff World RuntimeJobError A.

Definition from_source {A} (m : Eff SourceServer SourceError A) : Job A :=
  eff_map_err JobSource (zoom w_source put_source m).
Definition of_source {A} (m : result SourceError A) : Job A := pure (map_err JobSource m).

(** A method of the telemetry handle. *)
Definition tell (f : PipelineRuntimeSnapshot -> result string unit * PipelineRuntimeSnapshot) : Job unit := fun w =>
  let (r, t) := f (w_telemetry w) in
  (match r with Panic => Panic | _ => Ok tt end, put_telemetry t w).

Section job.
Context (sha256 : bytes -> bytes) (to_vec : Value -> bytes) (debug_str : string -> string)
  (quote_ident : string -> string) (parses : string -> bool)
  (text_order : list GroupTableRow -> list GroupTableRow)
  (row_order : list (QualifiedName * ManagedTableRow) -> list (QualifiedName * ManagedTableRow))
  (log_order : list (Z * QualifiedName * LogRow) -> list (Z * QualifiedName * LogRow))
  (migrations : list Migration) (role : string).
Context (env : nat -> Answer).

Definition interfered (a : Answer) (w : World) : World :=
  mkWorld (an_source a (w_source w)) (an_capture a (w_capture w)) (an_target a (w_target w)) (w_migrations w)
    (an_control a (w_control w)) (an_telemetry a (w_telemetry w)) (S (w_step w)).

(** The next call. *)
Definition answer : Job Answer := fun w =>
  let a := env (w_step w) in (Ok a, interfered a w).
(** The next call, while a transaction on the target is open: it holds the pipeline's fence, and
    the others' transactions on the target are ordered before or after it. *)
Definition answer_within : Job Answer := fun w =>
  let a := env (w_step w) in (Ok a, put_target (w_target w) (interfered a w)).

(** A query of the source: an error of the connection, or what the server answers. *)
Definition query_source {A} (f : SourceServer -> result SourceError A) : Job A :=
  do! a := answer in
  match an_failed a with
  | Some message => eff_err (JobSource (Postgres message))
  | None => do! w := get in of_source (f (w_source w))
  end.

(** A transaction on the target: rolled back on an error, and committed otherwise, whatever
    becomes of the reply. *)
Definition transact {A E} (wrap : E -> RuntimeJobError) (database : string -> E)
    (f : Answer -> TargetDb -> result E (A * TargetDb)) : Job A :=
  do! a := answer in
  fun w =>
    match f a (w_target w) with
    | Err e => (Err (wrap e), w)
    | Panic => (Panic, w)
    | Ok (x, db) =>
        match an_lost a with
        | Some (message, executed) =>
            (Err (wrap (database message)), if executed : bool then put_target db w else w)
        | None => (Ok x, put_target db w)
        end
    end.
Definition snapshot_transaction {A} :
    (Answer -> TargetDb -> result SnapshotTargetError (A * TargetDb)) -> Job A :=
  transact JobSnapshot SnapshotDatabase.

Definition connect (dsn : string) (endpoint : EndpointRole) : Job unit :=
  do! a := answer in
  pure (map_err JobConnect (connect_sql parses (an_tls a) (an_connection a) dsn endpoint)).

Definition is_cancelled : Job bool := do! a := answer in eff_ret (an_cancelled a).

(** *** Preparing a run *)

Definition job_ensure_publication (publication_name : string) (tables : list RuntimeTable) : Job unit :=
  do! spec := of_source (PublicationSpec_new publication_name (source_names tables)) in
  do! a := answer in
  do! _ := from_source (ensure_publication (an_refused a) (an_lost a) role spec None) in
  eff_ret tt.

Definition slot_of (slot_name : string) : Job (option LogicalSlotState) :=
  query_source (fun server => inspect_logical_slot server slot_name).

Definition drop_slot_call (slot_name : string) : Job unit :=
  do! a := answer in from_source (drop_logical_slot (an_refused a) (an_lost a) slot_name).

(** A slot without a checkpoint is dropped. *)
Definition drop_orphan (self : PostgresCloudberryJob) (slot_name : string) : Job unit :=
  do! existing := slot_of slot_name in
  match existing with
  | Some existing =>
      do! _ := pure (validate_slot self slot_name existing) in
      drop_slot_call slot_name
  | None => eff_ret tt
  end.

Definition rollback_session (snapshot : SnapshotSession) : Job unit :=
  do! a := answer in of_source (session_rollback (an_refused a) snapshot).

(** The slot, and a session at its consistent point: the server as it was when the slot was
    created is what [exported] shows while the guard is held. *)
Definition open_snapshot (self : PostgresCloudberryJob) (slot_name : string)
    : Job (ReplicationSlotSnapshot * SnapshotSession) :=
  do! a := answer in
  do! guard :=
    from_source (create (an_replication a) (an_refused a) (an_lost a) (an_reply a) (an_point a) slot_name 1) in
  do! w := get in
  let view := w_source w in
  let slot_snapshot := gd_snapshot guard in
  do! _ := connect (jb_source_dsn self) RoleSource in
  do! a := answer in
  do! snapshot :=
    of_source
      (begin_at_exported_snapshot (an_refused a)
         (fun name => if bool_decide (name = rs_snapshot_name (gd_snapshot guard)) then Some view else None)
         (rs_snapshot_name slot_snapshot)) in
  let (r, guard) := mark_reader_ready guard in
  do! _ := of_source r in
  let (r, guard) := release guard in
  do! _ := of_source r in
  eff_ret (slot_snapshot, snapshot).

(** [before.planned == at_snapshot.planned] of all tables, in order. *)
Definition catalog_unchanged (publication_tables tables : list RuntimeTable) : bool :=
  bool_decide (map rt_planned publication_tables = map rt_planned tables).

Definition initial_checkpoint (self : PostgresCloudberryJob) (report : PreflightReport) (slot_name : string)
    (slot_snapshot : ReplicationSlotSnapshot) : NodeCheckpoint :=
  mkNodeCheckpoint
    (mkCheckpointKey (jb_pipeline_id self) (jb_topology_generation self) STANDALONE_NODE_ID)
    (si_system_identifier (pr_identity report)) (si_timeline (pr_identity report)) slot_name
    (rs_consistent_point slot_snapshot).

(** The load of one table: one transaction of the target around the COPY of the source. *)
Definition copy_table (self : PostgresCloudberryJob) (snapshot : SnapshotSession) (snapshot_group_id : Z)
    (table : RuntimeTable) : Job unit :=
  do! cancelled := is_cancelled in
  if cancelled : bool then do! _ := rollback_session snapshot in eff_err JobCancelled
  else
    let planned := rt_planned table in
    let ownership := mkSnapshotOwnership (jb_fence self) snapshot_group_id (pt_schema_fingerprint planned) in
    do! a := answer in
    do! w := get in
    do! apply :=
      pure (map_err JobSnapshot
              (begin_snapshot_apply (an_refused a) sha256 text_order (rt_snapshot_plan table) ownership
                 (w_target w))) in
    do! a := answer_within in
    do! _ := of_source (copy_text_table (an_refused a) snapshot (pt_source planned)) in
    do! a := answer_within in
    if an_cancelled a then
      do! _ := fun w => let (r, db) := Load.rollback (w_target w) apply in
                        (map_err JobSnapshot r, put_target db w) in
      do! _ := rollback_session snapshot in
      eff_err JobCancelled
    else
      let (r, apply) := copy_from_stream (an_refused a) (an_items a) (an_finish a) apply in
      do! _ := pure (map_err JobSnapshot r) in
      do! a := answer_within in
      fun w => let (r, db) := Load.commit (an_lost a) (w_target w) apply in
               (map_err JobSnapshot (r ≫= fun _ => Ok tt), put_target db w).

(** The initial snapshot up to its activation: what may fail without leaving a slot. *)
Definition load_snapshot (self : PostgresCloudberryJob) (report : PreflightReport) (names : ReplicationNames)
    (publication_tables : list RuntimeTable) : Job (PreparedRun * SnapshotActivationRequest) :=
  do! opened := open_snapshot self (rn_slot names) in
  let '(slot_snapshot, snapshot) := opened in
  do! a := answer in
  do! inventory :=
    match an_failed a with
    | Some message => eff_err (JobSource (Postgres message))
    | None => of_source (session_inspect_tables snapshot (catalog_options self))
    end in
  do! tables := pure (plan_inventory sha256 to_vec self inventory) in
  if negb (catalog_unchanged publication_tables tables) then
    do! _ := rollback_session snapshot in eff_err InitialCatalogChanged
  else
    let checkpoint := initial_checkpoint self report (rn_slot names) slot_snapshot in
    do! a := answer in
    let request :=
      mkSnapshotActivationRequest (jb_fence self) (an_uuid a) (activation_tables tables) [checkpoint] in
    do! _ := snapshot_transaction (fun a => begin_snapshot_group sha256 text_order request) in
    do! _ := each (copy_table self snapshot (sar_snapshot_group_id request)) tables in
    do! a := answer in
    do! _ := of_source (session_commit (an_refused a) snapshot) in
    eff_ret (mkPreparedRun tables checkpoint, request).

Definition activate (request : SnapshotActivationRequest) : Job SnapshotActivationOutcome :=
  snapshot_transaction (fun a => activate_snapshot_group (an_refused a) sha256 text_order row_order (an_now a) request).

(** [result] before the activation has started is an error: the new slot is dropped. *)
Definition clean_up_slot {A} (slot_name : string) (original : RuntimeJobError) : Job A :=
  do! cleanup := attempt (drop_slot_call slot_name) in
  match cleanup with
  | Ok _ => eff_err original
  | Err cleanup =>
      eff_err (InitialSnapshotCleanup (RuntimeJobError_to_string debug_str original) slot_name
                 (RuntimeJobError_to_string debug_str cleanup))
  | Panic => pure Panic
  end.

(** [preserve_slot_on_error] is set between the two halves. *)
Definition snapshot_and_activate (self : PostgresCloudberryJob) (report : PreflightReport)
    (names : ReplicationNames) (publication_tables : list RuntimeTable) : Job PreparedRun :=
  do! loaded := attempt (load_snapshot self report names publication_tables) in
  match loaded with
  | Ok (prepared, request) => do! _ := activate request in eff_ret prepared
  | Err original => clean_up_slot (rn_slot names) original
  | Panic => pure Panic
  end.

Definition prepare_initial_snapshot (self : PostgresCloudberryJob) (report : PreflightReport)
    (names : ReplicationNames) : Job PreparedRun :=
  do! _ := drop_orphan self (rn_slot names) in
  do! inventory := query_source (fun server => inspect_tables server (catalog_options self)) in
  do! publication_tables := pure (plan_inventory sha256 to_vec self inventory) in
  do! _ := job_ensure_publication (rn_publication names) publication_tables in
  snapshot_and_activate self report names publication_tables.

Definition prepare_resume (self : PostgresCloudberryJob) (report : PreflightReport) (names : ReplicationNames)
    (checkpoint : NodeCheckpoint) : Job PreparedRun :=
  if negb (nc_system_identifier checkpoint =? si_system_identifier (pr_identity report))%Z
     || negb (nc_timeline checkpoint =? si_timeline (pr_identity report))%Z
  then eff_err JobSourceIdentityChanged
  else if negb (bool_decide (nc_slot_name checkpoint = rn_slot names))
  then eff_err (CheckpointSlotMismatch (rn_slot names) (nc_slot_name checkpoint))
  else
    do! slot := slot_of (rn_slot names) in
    do! slot := pure (ok_or slot (MissingSlot (rn_slot names))) in
    do! _ := pure (validate_slot self (rn_slot names) slot) in
    do! _ := pure (validate_positions debug_str (rn_slot names) slot checkpoint) in
    do! inventory := query_source (fun server => inspect_tables server (catalog_options self)) in
    do! tables := pure (plan_inventory sha256 to_vec self inventory) in
    do! publication := of_source (PublicationSpec_new (rn_publication names) (source_names tables)) in
    do! _ :=
      eff_map_err
        (fun e => match e with
                  | JobSource e => PublicationDrift (SourceError_to_string e)
                  | e => e
                  end)
        (query_source (fun server => validate_publication server publication None)) in
    do! _ := snapshot_transaction (fun a db =>
               let? group := validate_active_snapshot_group sha256 text_order db (jb_fence self)
                               (activation_tables tables) in
               Ok (group, db)) in
    eff_ret (mkPreparedRun tables checkpoint).
End job.

(** ** WAL retention *)

(** The slot is still protected by the configured limits, whatever is not known counting for
    it only where the server may not tell. *)
Record retained (slot : LogicalSlotState) (policy : WalRetentionSettings) : Prop := {
  re_valid : ls_invalidation_reason slot = None;
  re_status : ls_wal_status slot = Some "reserved" \/ ls_wal_status slot = Some "extended";
  re_hard : forall bytes, ls_retained_wal_bytes slot = Some bytes -> (bytes < wr_rebuild_bytes policy)%Z;
  re_safe : forall bytes, ls_safe_wal_size slot = Some bytes -> (wr_minimum_safe_bytes policy < bytes)%Z;
}.

(** Nothing about the slot calls for a warning. *)
Record unsuspicious (slot : LogicalSlotState) (policy : WalRetentionSettings) : Prop := {
  un_status : ls_wal_status slot = Some "reserved";
  un_bytes : forall bytes, ls_retained_wal_bytes slot = Some bytes -> (bytes < wr_warning_bytes policy)%Z;
  un_safe : forall bytes, ls_safe_wal_size slot = Some bytes ->
    (saturating_mul (wr_minimum_safe_bytes policy) 2 < bytes)%Z;
}.

Lemma at_least_false limit value :
  at_least limit value = false <-> forall bytes, value = Some bytes -> (bytes < limit)%Z.
Proof. destruct value as [b|]; cbn; [|by split]. rewrite Z.leb_gt. naive_solver. Qed.
Lemma at_most_false limit value :
  at_most limit value = false <-> forall bytes, value = Some bytes -> (limit < bytes)%Z.
Proof. destruct value as [b|]; cbn; [|by split]. rewrite Z.leb_gt. naive_solver. Qed.

Lemma must_rebuild (assessment : WalRetentionAssessment) (kept healthy : Prop) (reason : string) :
  ~ kept -> assessment = Rebuild reason ->
  ((exists reason, assessment = Rebuild reason) <-> ~ kept) /\ (assessment = Healthy <-> kept /\ healthy).
Proof. intros Hn ->. split; split; [done|eauto|done|tauto]. Qed.

(** A slot is kept exactly while PostgreSQL has not invalidated it, reports a known status
    that still protects its WAL, and both configured limits are kept; it is healthy exactly when
    it is also below all warning thresholds.  Everything else - an unknown or a missing status
    included - asks for a rebuild. *)
Theorem wal_retention_fails_closed (debug_str : string -> string) (slot : LogicalSlotState)
    (policy : WalRetentionSettings) :
  ((exists reason, assess_wal_retention debug_str slot policy = Rebuild reason) <-> ~ retained slot policy) /\
  (assess_wal_retention debug_str slot policy = Healthy <-> retained slot policy /\ unsuspicious slot policy).
Proof.
  unfold assess_wal_retention.
  destruct (ls_invalidation_reason slot) as [reason|] eqn:Hi.
  { eapply must_rebuild; [|reflexivity]. intros []; congruence. }
  destruct (ls_wal_status slot) as [status|] eqn:Hs.
  2: { eapply must_rebuild; [|reflexivity]. intros [_ [?|?] _ _]; congruence. }
  destruct (bool_decide (status = "extended") || bool_decide (status = "reserved")) eqn:Hk.
  2: { apply orb_false_iff in Hk as [He%bool_decide_eq_false Hr%bool_decide_eq_false].
       assert (Hn : ~ retained slot policy) by (intros [_ [?|?] _ _]; congruence).
       repeat case_bool_decide; by eapply must_rebuild. }
  assert (Hst : status = "extended" \/ status = "reserved").
  { apply orb_true_iff in Hk as [Hk|Hk]; apply bool_decide_eq_true in Hk; auto. }
  rewrite !(bool_decide_false (status = _)) by (destruct Hst; congruence).
  clear Hk. destruct (at_least (wr_rebuild_bytes policy) _) eqn:H1.
  { eapply must_rebuild; [|reflexivity]. intros [_ _ Hb _]. apply at_least_false in Hb. congruence. }
  destruct (at_most (wr_minimum_safe_bytes policy) _) eqn:H2.
  { eapply must_rebuild; [|reflexivity]. intros [_ _ _ Hb]. apply at_most_false in Hb. congruence. }
  rewrite at_least_false in H1. rewrite at_most_false in H2.
  assert (Hre : retained slot policy) by (split; [done| |done..]; rewrite Hs; destruct Hst; subst; auto).
  destruct (_ || _ || _) eqn:Hw.
  - split; split; [by intros []|done|done|]. intros [_ [Hu1 Hu2 Hu3]].
    apply at_least_false in Hu2. apply at_most_false in Hu3. rewrite Hu2, Hu3 in Hw. cbn in Hw.
    apply bool_decide_eq_true in Hw. congruence.
  - apply orb_false_iff in Hw as [[Hu2 Hu3]%orb_false_iff Hu1%bool_decide_eq_false].
    split; split; [by intros []|done| |done]. intros _. split; [done|]. split.
    + destruct Hst as [->| ->]; congruence.
    + by apply at_least_false.
    + by apply at_most_false.
Qed.

(** ** Resuming a checkpoint *)

Lemma validate_slot_Ok self name slot u :
  validate_slot self name slot = Ok u ->
  ls_plugin slot = "pgoutput" /\ ls_active slot = false /\
  ls_database slot = Some (sp_database_name (jb_source self)) /\ ls_temporary slot = false /\
  ls_two_phase slot = false /\ ls_failover slot = false /\ ls_synced slot = false.
Proof.
  unfold validate_slot. intros H. case_bool_decide; [|done]. destruct (ls_active slot); [done|].
  case_bool_decide; [|done]. cbn [negb] in H.
  destruct (_ || _) eqn:E; [done|]. rewrite !orb_false_iff in E. naive_solver.
Qed.

(** What the positions of a slot must be for a checkpoint: everything after the checkpoint is
    still there, and nothing after it was given up. *)
Record servable (slot : LogicalSlotState) (applied : Z) : Prop := {
  sv_status : ls_wal_status slot <> Some "lost";
  sv_reason : ls_invalidation_reason slot = None;
  sv_restart : exists text restart, ls_restart_lsn slot = Some text /\ Lsn.from_str text = Ok restart /\
    (restart <= applied)%Z;
  sv_confirmed : forall text, ls_confirmed_flush_lsn slot = Some text ->
    exists confirmed, Lsn.from_str text = Ok confirmed /\ (confirmed <= applied)%Z;
}.

Lemma parse_optional_lsn_Ok value r :
  parse_optional_lsn value = Ok r ->
  (value = None /\ r = None) \/
  exists text lsn, value = Some text /\ r = Some lsn /\ Lsn.from_str text = Ok lsn.
Proof.
  destruct value as [text|]; cbn [parse_optional_lsn]; intros H; [|injection H as <-; by left].
  apply bind_Ok in H as (l & Hl & H). injection H as <-. apply map_err_Ok in Hl. right. eauto.
Qed.

Lemma validate_positions_Ok debug_str name slot checkpoint u :
  validate_positions debug_str name slot checkpoint = Ok u -> servable slot (nc_applied_lsn checkpoint).
Proof.
  unfold validate_positions. intros H.
  destruct (_ || _) eqn:E in H; [done|]. apply orb_false_iff in E as [E1%bool_decide_eq_false E2%bool_decide_eq_false].
  case_bool_decide as E3; [done|]. apply bind_Ok in H as (c & Hc & H). apply bind_Ok in H as (v & Hv & H).
  apply bind_Ok in H as (r & Hr & H). split; [done|by destruct (ls_invalidation_reason slot); [destruct E2|]|..].
  - apply parse_optional_lsn_Ok in Hr as [[? _]|(text & lsn & Ht & -> & Hl)]; [done|].
    exists text, lsn. destruct (Z.ltb_spec (nc_applied_lsn checkpoint) lsn); [done|]. split_and!; [done..|lia].
  - intros text Ht. apply parse_optional_lsn_Ok in Hc as [[? _]|(text' & lsn & Ht' & -> & Hl)]; [congruence|].
    rewrite Ht in Ht'. injection Ht' as <-. exists lsn. split; [done|].
    destruct (Z.ltb_spec (nc_applied_lsn checkpoint) lsn); [done|lia].
Qed.

Section resume.
Context (sha256 : bytes -> bytes) (to_vec : Value -> bytes) (debug_str : string -> string)
  (text_order : list GroupTableRow -> list GroupTableRow) (env : nat -> Answer).

(** The world after [n] more calls that change nothing. *)
Fixpoint others (n : nat) (w : World) : World :=
  match n with O => w | S n => interfered (env (w_step (others n w))) (others n w) end.

Lemma others_step n w : w_step (others n w) = (n + w_step w)%nat.
Proof. induction n as [|n IH]; cbn; congruence. Qed.

Lemma answer_Ok a w w' : answer env w = (Ok a, w') -> a = env (w_step w) /\ w' = interfered a w.
Proof. intros H. by injection H as <- <-. Qed.

Lemma of_source_Ok {A} (m : result SourceError A) x w w' : of_source m w = (Ok x, w') -> m = Ok x /\ w' = w.
Proof. unfold of_source, pure. intros H. injection H as H <-. by apply map_err_Ok in H. Qed.

Lemma query_source_Ok {A} (f : SourceServer -> result SourceError A) x w w' :
  query_source env f w = (Ok x, w') -> w' = interfered (env (w_step w)) w /\ f (w_source w') = Ok x.
Proof.
  unfold query_source. intros H. apply eff_bind_Ok in H as (a & w1 & Ha & H).
  apply answer_Ok in Ha as [-> ->]. destruct (an_failed _); [done|].
  apply eff_bind_Ok in H as (w2 & w3 & Hg & H). injection Hg as <- <-.
  by apply of_source_Ok in H as [H ->].
Qed.

Lemma pure_Ok {A} (m : result RuntimeJobError A) x (w w' : World) : pure m w = (Ok x, w') -> m = Ok x /\ w' = w.
Proof. intros H. by injection H as <- <-. Qed.

Lemma transact_Ok {A E} (wrap : E -> RuntimeJobError) database (f : Answer -> TargetDb -> result E (A * TargetDb))
    x w w' :
  transact env wrap database f w = (Ok x, w') ->
  let w1 := interfered (env (w_step w)) w in
  exists db, f (env (w_step w)) (w_target w1) = Ok (x, db) /\ w' = put_target db w1.
Proof.
  unfold transact. intros H. apply eff_bind_Ok in H as (a & w1 & Ha & H). apply answer_Ok in Ha as [-> ->].
  destruct (f _ _) as [[y db]|e|]; [|done..]. destruct (an_lost _) as [[]|]; [done|].
  injection H as <- <-. eauto.
Qed.

Lemma map_err_eff_Ok {S E F A} (g : E -> F) (m : Eff S E A) x s s' :
  eff_map_err g m s = (Ok x, s') -> m s = (Ok x, s').
Proof. unfold eff_map_err. destruct (m s) as [r t]. intros H. injection H as H <-. by apply map_err_Ok in H as ->. Qed.

(** What a resumed run rests on. *)
Record resumed_run (self : PostgresCloudberryJob) (report : PreflightReport) (names : ReplicationNames)
    (checkpoint : NodeCheckpoint) (w : World) (prepared : PreparedRun) : Prop := {
  rr_checkpoint : pn_checkpoint prepared = checkpoint;
  rr_identity : nc_system_identifier checkpoint = si_system_identifier (pr_identity report) /\
    nc_timeline checkpoint = si_timeline (pr_identity report) /\ nc_slot_name checkpoint = rn_slot names;
  rr_slot : exists slot, inspect_logical_slot (w_source (others 1 w)) (rn_slot names) = Ok (Some slot) /\
    ls_plugin slot = "pgoutput" /\ ls_active slot = false /\
    ls_database slot = Some (sp_database_name (jb_source self)) /\ servable slot (nc_applied_lsn checkpoint);
  rr_tables : exists inventory, inspect_tables (w_source (others 2 w)) (catalog_options self) = Ok inventory /\
    plan_inventory sha256 to_vec self inventory = Ok (pn_tables prepared);
  rr_publication : exists publication state,
    PublicationSpec_new (rn_publication names) (source_names (pn_tables prepared)) = Ok publication /\
    validate_publication (w_source (others 3 w)) publication None = Ok state;
  rr_group : exists group, validate_active_snapshot_group sha256 text_order (w_target (others 4 w))
    (jb_fence self) (activation_tables (pn_tables prepared)) = Ok group;
}.

Lemma prepare_resume_Ok self report names checkpoint w prepared w' :
  prepare_resume sha256 to_vec debug_str text_order env self report names checkpoint w = (Ok prepared, w') ->
  resumed_run self report names checkpoint w prepared /\ w' = others 4 w.
Proof.
  unfold prepare_resume. intros H.
  destruct (_ || _) eqn:E1 in H; [done|]. apply orb_false_iff in E1 as [E1 E2].
  rewrite negb_false_iff, Z.eqb_eq in E1, E2. case_bool_decide as E3; [|done]. cbn [negb] in H.
  apply eff_bind_Ok in H as (slot & w1 & Hslot & H). apply query_source_Ok in Hslot as [-> Hslot].
  apply eff_bind_Ok in H as (s & w1 & Hs & H). apply pure_Ok in Hs as [Hs ->]. apply ok_or_Ok in Hs as ->.
  apply eff_bind_Ok in H as (u & w1 & Hu & H). apply pure_Ok in Hu as [Hu ->].
  apply eff_bind_Ok in H as (v & w1 & Hv & H). apply pure_Ok in Hv as [Hv ->].
  apply eff_bind_Ok in H as (inv & w2 & Hinv & H). apply query_source_Ok in Hinv as [-> Hinv].
  apply eff_bind_Ok in H as (tables & w1 & Ht & H). apply pure_Ok in Ht as [Ht ->].
  apply eff_bind_Ok in H as (pub & w1 & Hp & H). apply of_source_Ok in Hp as [Hp ->].
  apply eff_bind_Ok in H as (state & w3 & Hst & H). apply map_err_eff_Ok, query_source_Ok in Hst as [-> Hst].
  apply eff_bind_Ok in H as (g & w4 & Hg & H). apply transact_Ok in Hg as (db & Hg & ->).
  injection H as <- <-. apply bind_Ok in Hg as (g' & Hg & Hdb). injection Hdb as -> <-.
  apply validate_slot_Ok in Hu as (? & ? & ? & _). apply validate_positions_Ok in Hv.
  split; [|reflexivity].
  split; cbn [others pn_checkpoint pn_tables]; eauto 10.
Qed.

(** C10: A run resumes from a checkpoint only when the server is the one the checkpoint names, its
    slot is the pipeline's, idle, valid, and still holds all WAL after the checkpoint while
    nothing after it was confirmed, the publication is validated as the one of the planned
    tables, and the active snapshot group is the one of these tables; preparing it writes
    nothing. *)
Theorem resume_only_from_servable_checkpoint self report names checkpoint w prepared w' :
  prepare_resume sha256 to_vec debug_str text_order env self report names checkpoint w = (Ok prepared, w') ->
  resumed_run self report names checkpoint w prepared /\ w' = others 4 w.
Proof. apply prepare_resume_Ok. Qed.
End resume.

(** ** Restarting under a new token *)

Definition mapper_of (self : PostgresCloudberryJob) : DefaultNameMapper :=
  mkDefaultNameMapper (tp_database_name (jb_target self)) (sp_prefix (jb_source self))
    (sp_database_name (jb_source self)).

Section restart.
Context (sha256 : bytes -> bytes) (to_vec : Value -> bytes) (debug_str : string -> string)
  (text_order : list GroupTableRow -> list GroupTableRow) (env : nat -> Answer).

Lemma runtime_table_Ok self planned t :
  runtime_table self planned = Ok t ->
  rt_planned t = planned /\
  plan_snapshot_target (with_table_generation (jb_topology_generation self) (pt_source planned))
    (pt_target planned) (pt_shadow planned) = Ok (rt_snapshot_plan t).
Proof.
  unfold runtime_table. intros H. apply bind_Ok in H as (p & Hp & H). apply map_err_Ok in Hp.
  by injection H as <-.
Qed.

Lemma plan_snapshot_target_Ok source target shadow p :
  plan_snapshot_target source target shadow = Ok p ->
  stp_target p = target /\ ctp_target (stp_shadow p) = shadow /\
  stp_source_relation_id p = ts_relation_id source /\ stp_source_generation p = ts_generation source.
Proof.
  unfold plan_snapshot_target. intros H. destruct (bool_decide _); [done|]. destruct (bool_decide _); [done|].
  apply bind_Ok in H as (s & Hs & H). apply map_err_Ok, plan_create_table_Ok in Hs as (_ & Hs & _).
  apply bind_Ok in H as (t & _ & H). apply bind_Ok in H as (c & _ & H). by injection H as <-.
Qed.

(** What the plan of one table says. *)
Record planned_table (self : PostgresCloudberryJob) (t : RuntimeTable) : Prop := {
  pl_from : planned_from sha256 to_vec (jb_pipeline_id self) (pf_fencing_token (jb_fence self)) (mapper_of self)
    (explicit_targets (ps_table_mappings (jb_pipeline_settings self))) (rt_planned t);
  pl_activation : activation_table (rt_snapshot_plan t) (pt_schema_fingerprint (rt_planned t)) =
    mkSnapshotActivationTable (pt_target (rt_planned t)) (pt_shadow (rt_planned t))
      (ts_relation_id (pt_source (rt_planned t))) (jb_topology_generation self)
      (pt_schema_fingerprint (rt_planned t));
}.

Lemma plan_inventory_Ok self inventory tables :
  plan_inventory sha256 to_vec self inventory = Ok tables ->
  tables <> [] /\ ti_rejected inventory = [] /\ (0 <= pf_fencing_token (jb_fence self))%Z /\
  map (fun t => pt_source (rt_planned t)) tables = ti_supported inventory /\
  Forall (planned_table self) tables.
Proof.
  unfold plan_inventory. intros H. destruct (ti_rejected inventory) as [|r l]; [|done].
  apply bind_Ok in H as (token & Ht & H). unfold try_u64 in Ht.
  destruct (Z.leb_spec 0 (pf_fencing_token (jb_fence self))); [|done]. injection Ht as <-.
  apply bind_Ok in H as (planned & Hp & H). apply map_err_Ok in Hp. unfold plan_tables in Hp.
  destruct (List.find _ _); [done|]. apply plan_loop_Ok in Hp as (new & -> & Hsrc & HF & _).
  cbn [app] in H. apply bind_Ok in H as (accepted & Ha & H).
  apply try_map_Ok in Ha. assert (accepted = tables) as -> by (destruct accepted; [done|by injection H]).
  split_and!; [by intros ->|done|done| |].
  - rewrite <-Hsrc. clear -Ha. induction Ha as [|p t ps ts Hpt _ IH]; cbn; [done|].
    apply runtime_table_Ok in Hpt as [-> _]. by rewrite IH.
  - clear -Ha HF. induction Ha as [|p t ps ts Hpt _ IH]; [constructor|].
    apply Forall_cons in HF as [Hfrom HF]. constructor; [|by apply IH].
    apply runtime_table_Ok in Hpt as [Hpl Hplan]. split; [by rewrite Hpl|].
    apply plan_snapshot_target_Ok in Hplan as (H1 & H2 & H3 & H4).
    unfold activation_table. by rewrite Hpl, H1, H2, H3, H4.
Qed.

Lemma validate_active_Ok db fence tables group :
  validate_active_snapshot_group sha256 text_order db fence tables = Ok group ->
  exists stored, load_snapshot_group sha256 text_order db group = Ok stored /\ sg_state stored = GroupActive /\
    pf_pipeline_id (sar_fence (sg_request stored)) = pf_pipeline_id fence /\
    pf_topology_generation (sar_fence (sg_request stored)) = pf_topology_generation fence /\
    tables ≡ₚ sar_tables (sg_request stored).
Proof.
  unfold validate_active_snapshot_group. intros H. apply bind_Ok in H as (u & _ & H).
  apply bind_Ok in H as (g & _ & H). cbv zeta in H. apply bind_Ok in H as (group' & _ & H).
  apply bind_Ok in H as (stored & Hload & H). destruct (_ || _) eqn:E in H; [done|].
  rewrite !orb_false_iff, !negb_false_iff, bool_decide_eq_true, !Z.eqb_eq in E.
  destruct E as [[[E1 E2] E3] _]. apply bind_Ok in H as (expected & Hexp & H).
  destruct (bool_decide (sar_tables expected = _)) eqn:E4 in H; [|done]. apply bool_decide_eq_true in E4.
  apply bind_Ok in H as (v & _ & H). apply bind_Ok in H as (x & _ & H). injection H as ->.
  exists stored. split_and!; [done..|]. rewrite <-E4.
  apply canonical_request_Ok in Hexp as [_ ->]. cbn. by rewrite merge_sort_Permutation.
Qed.

(** The same pipeline under another fencing token: what a new lease makes of it. *)
Definition with_token (token : Z) (self : PostgresCloudberryJob) : PostgresCloudberryJob :=
  mkJob (jb_pipeline_id self) (jb_topology_generation self)
    (mkPipelineFence (jb_pipeline_id self) (jb_topology_generation self) token) (jb_source self) (jb_target self)
    (jb_source_settings self) (jb_target_settings self) (jb_pipeline_settings self) (jb_source_dsn self)
    (jb_target_dsn self).

Lemma shadow_of_token id token token' t u :
  ts_relation_id t = ts_relation_id u -> raw_shadow id token t = raw_shadow id token' u -> token = token'.
Proof.
  unfold raw_shadow, relation_suffix. intros Hid H. rewrite Hid in H.
  repeat apply string_app_inj_l in H. by apply (inj pretty).
Qed.

(** C12: Planning names the shadow of every table after the fencing token of the lease, and a run
    resumes only under exactly the stored shadow names.  So when the active group was loaded
    under one token, no run under another token resumes it, whatever the servers hold: every
    restart of a pipeline that has acquired its lease anew is refused.  (Shadow names that are
    too long are shortened with a digest; the names of the tables are supposed not to clash.) *)
Theorem restart_under_new_token_is_refused self token token' inventory tables report names checkpoint w
    (Hsha : forall b, length (sha256 b) = 32%nat) :
  token <> token' ->
  plan_inventory sha256 to_vec (with_token token self) inventory = Ok tables ->
  (forall u, u ∈ ti_supported inventory ->
     ~ digest_clash sha256 (raw_shadow (jb_pipeline_id self) token' u) (raw_shadow (jb_pipeline_id self) token u)) ->
  (forall group stored, load_snapshot_group sha256 text_order (w_target (others env 4 w)) group = Ok stored ->
     sg_state stored = GroupActive ->
     pf_pipeline_id (sar_fence (sg_request stored)) = jb_pipeline_id self ->
     pf_topology_generation (sar_fence (sg_request stored)) = jb_topology_generation self ->
     sar_tables (sg_request stored) ≡ₚ activation_tables tables) ->
  forall prepared w',
    prepare_resume sha256 to_vec debug_str text_order env (with_token token' self) report names checkpoint w
      <> (Ok prepared, w').
Proof.
  intros Hne Hplan Hclash Hgroups prepared w' H. apply prepare_resume_Ok in H as [[_ _ _ (inv & _ & Hplan') _ (g & Hg)] _].
  apply validate_active_Ok in Hg as (stored & Hload & Hact & Hp & Hgen & Hperm).
  rewrite (Hgroups _ _ Hload Hact Hp Hgen) in Hperm. clear Hgroups Hload Hact Hp Hgen.
  apply plan_inventory_Ok in Hplan as (_ & _ & _ & Hsrc & HF). apply plan_inventory_Ok in Hplan' as (Hsome & _ & _ & _ & HF').
  destruct (pn_tables prepared) as [|t ts]; [done|]. apply Forall_cons in HF' as [[Hfrom' Hact'] _].
  assert (Hin : activation_table (rt_snapshot_plan t) (pt_schema_fingerprint (rt_planned t))
                ∈ activation_tables tables) by (rewrite <-Hperm; by left).
  apply list_elem_of_fmap in Hin as (u & Heq & Hu). rewrite Forall_forall in HF.
  destruct (HF u Hu) as [Hfrom Hactu]. rewrite Hact', Hactu in Heq. injection Heq as _ Hsh Hid _.
  destruct Hfrom as (_ & Hs & _), Hfrom' as (_ & Hs' & _). rewrite Hs, Hs' in Hsh. injection Hsh as _ Hsh.
  assert (Hname : raw_shadow (jb_pipeline_id self) token' (pt_source (rt_planned t)) =
                  raw_shadow (jb_pipeline_id self) token' (pt_source (rt_planned u))).
  { unfold raw_shadow, relation_suffix. by rewrite Hid. }
  cbn [with_token jb_pipeline_id jb_fence pf_fencing_token] in Hsh. rewrite Hname in Hsh.
  destruct (shorten_inj sha256 Hsha _ _ Hsh) as [Heq|Hc].
  - apply Hne. symmetry. exact (shadow_of_token _ _ _ _ _ eq_refl Heq).
  - eapply Hclash; [|exact Hc]. rewrite <-Hsrc. apply list_elem_of_fmap. eauto.
Qed.
End restart.

(** ** Example: a first run, and restarts *)

Definition shop_server : SourceServer :=
  mkSourceServer example_settings "77" 1 "shop" false None
    [example_column 7 "public" "items" 1 "id" 23 (Some 1%Z); example_column 7 "public" "items" 2 "note" 25 None]
    [] example_type_rows ∅ ∅.

Definition example_job : PostgresCloudberryJob :=
  mkJob 5 1 (mkPipelineFence 5 1 1)
    (mkSourceProfile 1 "shop" "erp" "shop" Standalone (mkEncryptedSecret 1 [] []) VNull true 0 0)
    (mkTargetProfile 2 "dwh" "analytics" (mkEncryptedSecret 1 [] []) VNull true 0 0)
    SourceSettings_default TargetSettings_default PipelineSettings_default "source" "target".
Definition example_names : ReplicationNames := replication_names 5 STANDALONE_NODE_ID.
Definition example_report : PreflightReport :=
  mkPreflightReport (mkSourceIdentity 77 1 "shop" 180001 "18.1" false) "UTF8" "logical" 10 10 "64MB" "-1" 0 None.

(** Nobody interferes, and every call succeeds. *)
Definition example_answer (cancelled : bool) (refused : string -> option string) : Answer :=
  mkAnswer id id id id id None refused None (fun _ => None) None None (Ok tt) 1000 77 cancelled
    ("analytics", "PostgreSQL 14.4 (Apache Cloudberry 2.1.0)", Some "dispatch")
    [QueryRow [("slot_name", Some (rn_slot example_names)); ("consistent_point", Some "0/20");
               ("snapshot_name", Some "00000003-1"); ("output_plugin", Some "pgoutput")]]
    "0/20" [(Ok [x31; x09; x61; x0a], None)] (Ok 1%Z).
Notation calm := (fun _ : nat => example_answer false accepted).

Definition target_with_token (token : Z) (db : TargetDb) : TargetDb :=
  with_meta (fun m => mkMeta (<[5%Z := mkFenceRow 1 token]> (m_pipeline_state m)) (m_node_checkpoints m)) db.
Definition example_world : World :=
  mkWorld shop_server (mkCaptureCatalog ∅ ∅ ∅)
    (target_with_token 1 (mkTargetDb (mkMeta ∅ ∅) ∅ ∅ ∅ 16384 ∅ ∅ ∅ ∅ ∅ ∅)) ∅
    (mkControlDb ∅ ∅ ∅ ∅ ∅ ∅ ∅ []) (Telemetry_new 5) 0.

Definition example_initial (env : nat -> Answer) : result RuntimeJobError PreparedRun * World :=
  prepare_initial_snapshot name_digest (fun _ => []) id (fun _ => true) by_bytes (fun l => l) "etl" env
    example_job example_report example_names example_world.

(** The next lease: its token takes the fence. *)
Definition example_resume (token : Z) (checkpoint : NodeCheckpoint) (w : World)
    : result RuntimeJobError PreparedRun * World :=
  prepare_resume name_digest (fun _ => []) id by_bytes calm (with_token token example_job) example_report
    example_names checkpoint (put_target (target_with_token token (w_target w)) w).

Example first_run_succeeds : is_ok (example_initial calm).1 = true.
Proof. vm_compute. reflexivity. Qed.

(** Under the same token the run resumes; under the next one it is refused. *)
Definition example_restart (token : Z) : result RuntimeJobError PreparedRun :=
  match example_initial calm with
  | (Ok prepared, w) => (example_resume token (pn_checkpoint prepared) w).1
  | (r, _) => r
  end.
Example restart_is_refused :
  is_ok (example_restart 1) = true /\
  match example_restart 2 with Err (JobSnapshot (SnapshotGroupManifestMismatch 77)) => True | _ => False end.
Proof. split; vm_compute; [reflexivity|exact I]. Qed.

Lemma resume_only_from_servable_checkpoint_witness :
  exists prepared w prepared' w', example_initial calm = (Ok prepared, w) /\
    example_resume 1 (pn_checkpoint prepared) w = (Ok prepared', w') /\
    resumed_run name_digest (fun _ => []) by_bytes calm (with_token 1 example_job) example_report example_names
      (pn_checkpoint prepared) (put_target (target_with_token 1 (w_target w)) w) prepared'.
Proof.
  destruct restart_is_refused as [H _]. unfold example_restart in H.
  destruct (example_initial calm) as [[prepared|e|] w] eqn:Ei; [|discriminate H|discriminate H].
  destruct (example_resume 1 (pn_checkpoint prepared) w) as [[prepared'|e|] w'] eqn:Er;
    [|discriminate H|discriminate H].
  exists prepared, w, prepared', w'. split; [reflexivity|]. split; [exact Er|].
  apply (resume_only_from_servable_checkpoint name_digest (fun _ => []) id by_bytes calm _ _ _ _ _ _ _ Er).
Defined.

Lemma name_digest_length b : length (name_digest b) = 32%nat.
Proof. unfold name_digest. rewrite length_take, length_app, length_replicate. lia. Qed.

(** After the first run: the only group, and its tables. *)
Definition first_world : World := (example_initial calm).2.
Definition second_world : World := put_target (target_with_token 2 (w_target first_world)) first_world.
Definition first_tables : result RuntimeJobError (list RuntimeTable) :=
  match inspect_tables shop_server (catalog_options example_job) with
  | Ok inventory => plan_inventory name_digest (fun _ => []) (with_token 1 example_job) inventory
  | _ => Panic
  end.
Lemma first_group : map fst (map_to_list (sd_groups (w_target (others calm 4 second_world)))) = [77%Z].
Proof. vm_compute. reflexivity. Qed.
Lemma first_manifest :
  match load_snapshot_group name_digest by_bytes (w_target (others calm 4 second_world)) 77, first_tables with
  | Ok stored, Ok tables => bool_decide (sar_tables (sg_request stored) = activation_tables tables)
  | _, _ => false
  end = true.
Proof. vm_compute. reflexivity. Qed.

Lemma restart_under_new_token_is_refused_witness :
  exists prepared w, example_initial calm = (Ok prepared, w) /\
    ~ exists prepared' w', example_resume 2 (pn_checkpoint prepared) w = (Ok prepared', w').
Proof.
  destruct restart_is_refused as [H _]. unfold example_restart in H.
  destruct (example_initial calm) as [[prepared|e|] w] eqn:Ei; [|discriminate H|discriminate H].
  exists prepared, w. split; [reflexivity|]. intros (prepared' & w' & Hr). clear H.
  destruct (inspect_tables shop_server (catalog_options example_job)) as [inventory|e|] eqn:Einv;
    [|vm_compute in Einv; discriminate Einv|vm_compute in Einv; discriminate Einv].
  destruct (plan_inventory name_digest (fun _ => []) (with_token 1 example_job) inventory) as [tables|e|] eqn:Ep;
    [|exfalso; vm_compute in Einv; injection Einv as <-; vm_compute in Ep; discriminate Ep..].
  refine (restart_under_new_token_is_refused name_digest (fun _ => []) id by_bytes calm example_job 1 2 inventory
    tables example_report example_names (pn_checkpoint prepared)
    (put_target (target_with_token 2 (w_target w)) w) name_digest_length _ Ep _ _ prepared' w' Hr).
  - discriminate.
  - intros u Hu [_ Hc]. assert (Hid : ts_relation_id u = 7%Z).
    { assert (Hids : map ts_relation_id (ti_supported inventory) = [7%Z])
        by (vm_compute in Einv; injection Einv as <-; reflexivity).
      apply (list_elem_of_fmap_2 ts_relation_id) in Hu. change (ts_relation_id u ∈ map ts_relation_id (ti_supported inventory)) in Hu.
      rewrite Hids in Hu. by apply list_elem_of_singleton in Hu. }
    unfold raw_shadow, relation_suffix in Hc. rewrite Hid in Hc. clear -Hc. vm_compute in Hc.
    destruct Hc as [[Hc _]|[[Hc _]|[Hc _]]]; discriminate Hc.
  - intros group stored Hload _ _ _. clear Hr. apply (f_equal snd) in Ei. cbn [snd] in Ei. subst w.
    change (put_target _ _) with second_world in Hload.
    destruct (loaded_row name_digest by_bytes _ _ _ Hload) as (row & Hrow & _).
    assert (Hin : group ∈ [77%Z]).
    { rewrite <-first_group. apply elem_of_map_to_list in Hrow. by apply (list_elem_of_fmap_2 fst) in Hrow. }
    apply list_elem_of_singleton in Hin as ->. pose proof first_manifest as Hm. rewrite Hload in Hm.
    unfold first_tables in Hm. rewrite Einv, Ep in Hm. apply bool_decide_eq_true in Hm. by rewrite Hm.
Defined.
