(* ===== verification/JobSlots.v ===== *)
(** * A checkpoint is never left without its slot

    What [prepare_initial_snapshot] of [crates/engine/src/runtime/job.rs] leaves behind on the
    source and on the target, wherever it fails: the slot is dropped on every error before the
    activation has started and kept from then on, because the activation may have stored the
    checkpoint that needs it. *)

From S2P Require Import Prelude Effects Core Schema Decimal Mapping Change Sql Source Wal TargetSchema Checkpoint Settings Planning Catalog Publication SlotSnapshot Ddl Store Snapshot Manifest Load Activation Errors Setup Job.

(** ** The transactions of a load keep the checkpoints *)

Section meta.
Context (refused : string -> option string) (sha256 : bytes -> bytes)
  (text_order : list GroupTableRow -> list GroupTableRow).

Lemma begin_group_meta request db o db' :
  begin_snapshot_group sha256 text_order request db = Ok (o, db') -> sd_meta db' = sd_meta db.
Proof.
  unfold begin_snapshot_group. intros H. apply bind_Ok in H as (c & _ & H). apply bind_Ok in H as (u & _ & H).
  apply bind_Ok in H as ([stored|] & _ & H).
  - case_bool_decide; [done|]. by injection H as _ <-.
  - apply bind_Ok in H as (db1 & Hi & H). injection H as _ <-. unfold insert_snapshot_group in Hi.
    apply bind_Ok in Hi as (g & _ & Hi). apply bind_Ok in Hi as (t & _ & Hi). apply bind_Ok in Hi as (n & _ & Hi).
    destruct (negb _) in Hi; [done|]. apply bind_Ok in Hi as (ts & _ & Hi).
    do 2 (destruct (negb _) in Hi; [done|]). by injection Hi as <-.
Qed.

Lemma put_type_meta fresh p ownership checksum db db' :
  put_managed_type fresh p ownership checksum db = Ok db' -> sd_meta db' = sd_meta db.
Proof. intros H. apply put_managed_type_Ok in H as [[Hm _ _] _]. apply Hm. Qed.

Lemma alterations_meta name type_name alterations db db' :
  foldM (fun db alteration =>
    let? sql := alteration_sql type_name alteration in alter_type refused name sql alteration db)
    db alterations = Ok db' -> sd_meta db' = sd_meta db.
Proof.
  apply (foldM_ind _ (fun _ d => sd_meta d = sd_meta db)); [done|]. intros before a d d' Hd _ H.
  apply bind_Ok in H as (sql & _ & H). unfold alter_type in H. apply executed_effect in H.
  destruct (sd_types d !! name) as [[labels|]|]; [|done..]. destruct (alter_labels a labels); [|done].
  by injection H as <-.
Qed.

Lemma ensure_type_meta ownership db p db' :
  ensure_prerequisite_type refused sha256 ownership db p = Ok db' -> sd_meta db' = sd_meta db.
Proof.
  unfold ensure_prerequisite_type. intros H. apply bind_Ok in H as (action & _ & H). destruct action.
  - apply bind_Ok in H as (d & Hd & H). apply put_type_meta in H as ->. unfold create_type in Hd.
    apply executed_effect in Hd. destruct (negb _) in Hd; [done|]. destruct (name_taken _ _); [done|]. by injection Hd as <-.
  - by apply put_type_meta in H.
  - apply bind_Ok in H as (d & Hd & H). apply put_type_meta in H as ->. unfold reconcile_prerequisite_type in Hd.
    destruct (utp_definition p); [|done]. apply bind_Ok in Hd as (existing & _ & Hd).
    apply bind_Ok in Hd as (alterations & _ & Hd). apply bind_Ok in Hd as (name & _ & Hd). by apply alterations_meta in Hd.
Qed.

Lemma begin_apply_meta plan ownership db self :
  begin_snapshot_apply refused sha256 text_order plan ownership db = Ok self ->
  sd_meta (sa_transaction self) = sd_meta db /\ sa_copied_rows self = None.
Proof.
  unfold begin_snapshot_apply. intros H. apply bind_Ok in H as (? & _ & H). apply bind_Ok in H as (? & _ & H).
  apply bind_Ok in H as (manifest & _ & H). apply bind_Ok in H as (? & _ & H). case_bool_decide; [done|].
  apply bind_Ok in H as (db1 & H1 & H). apply create_schema_Ok in H1 as [[Hm1 _ _ _] _].
  apply bind_Ok in H as (? & _ & H). apply bind_Ok in H as (? & _ & H). apply bind_Ok in H as (? & _ & H).
  apply bind_Ok in H as (rebuild & _ & H). apply bind_Ok in H as (db2 & H2 & H).
  apply bind_Ok in H as (db3 & H3 & H). apply bind_Ok in H as (db4 & H4 & H). apply bind_Ok in H as (db5 & H5 & H).
  injection H as <-. cbn [sa_transaction sa_copied_rows]. split; [|done].
  assert (sd_meta db2 = sd_meta db1) as E2.
  { destruct rebuild; [|by injection H2 as <-]. apply bind_Ok in H2 as (d & Hd & H2).
    apply drop_table_Ok in Hd as (r & _ & ->). by apply delete_managed_table_Ok in H2 as (row & _ & _ & ->). }
  assert (sd_meta db3 = sd_meta db2) as E3.
  { revert H3. apply (foldM_ind _ (fun _ d => sd_meta d = sd_meta db2)); [done|].
    intros before p d d' Hd _ H. apply ensure_type_meta in H. congruence. }
  apply create_table_Ok in H4 as [_ ->]. unfold register_shadow in H5. apply bind_Ok in H5 as (g & _ & H5).
  apply bind_Ok in H5 as (oid & _ & H5). apply insert_managed_table_Ok in H5 as [_ ->]. cbn. congruence.
Qed.

Lemma copy_meta items finish self r self' :
  copy_from_stream refused items finish self = (r, self') ->
  sd_meta (sa_transaction self') = sd_meta (sa_transaction self).
Proof. unfold copy_from_stream. intros H. repeat case_match; by injection H as <- <-. Qed.

Lemma commit_cases lost before self r db' :
  Load.commit lost before self = (r, db') -> db' = before \/ db' = sa_transaction self.
Proof. unfold Load.commit. intros H. repeat case_match; injection H as <- <-; auto. Qed.
End meta.

(** ** What only the job changes *)

(** The position a slot has confirmed, as the server shows it, if the slot exists. *)
Definition confirmed_of (slot : string) (s : SourceServer) : option (option string) :=
  sl_confirmed_flush_lsn <$> sv_slots s !! slot.

(** Nobody else creates, drops or advances the slot, or writes the checkpoint: the lease makes
    the job's process the only one of its pipeline. *)
Record quiet (env : nat -> Answer) (slot : string) (key : CheckpointKey) : Prop := {
  qu_slot : forall n s, confirmed_of slot (an_source (env n) s) = confirmed_of slot s;
  qu_checkpoint : forall n db,
    m_node_checkpoints (sd_meta (an_target (env n) db)) !! key = m_node_checkpoints (sd_meta db) !! key;
}.

Definition has_slot (slot : string) (w : World) : Prop := is_Some (sv_slots (w_source w) !! slot).
Definition checkpoint_of (key : CheckpointKey) (w : World) : option NodeRow :=
  m_node_checkpoints (sd_meta (w_target w)) !! key.

Section job.
Context (sha256 : bytes -> bytes) (to_vec : Value -> bytes) (debug_str : string -> string) (parses : string -> bool)
  (text_order : list GroupTableRow -> list GroupTableRow)
  (row_order : list (QualifiedName * ManagedTableRow) -> list (QualifiedName * ManagedTableRow))
  (role : string) (env : nat -> Answer) (slot : string) (key : CheckpointKey).
Hypothesis Hquiet : quiet env slot key.

(** The checkpoint is [c], and the slot has confirmed [o]. *)
Definition same (c : option NodeRow) (o : option (option string)) (w : World) : Prop :=
  checkpoint_of key w = c /\ confirmed_of slot (w_source w) = o.
Definition keeps {A} (m : Job A) : Prop := forall c o, preserves (same c o) m.

Lemma has_slot_confirmed w : has_slot slot w <-> is_Some (confirmed_of slot (w_source w)).
Proof. unfold has_slot, confirmed_of. by rewrite fmap_is_Some. Qed.

Lemma keeps_bind {A B} (m : Job A) (k : A -> Job B) : keeps m -> (forall a, keeps (k a)) -> keeps (eff_bind m k).
Proof. intros Hm Hk c h. apply preserves_bind; [apply Hm|]. intros a. apply Hk. Qed.
Lemma keeps_pure {A} (m : result RuntimeJobError A) : keeps (pure m).
Proof. intros c h. apply preserves_pure. Qed.
Lemma keeps_of_source {A} (m : result SourceError A) : keeps (of_source m).
Proof. intros c h. apply preserves_pure. Qed.
Lemma keeps_ret {A} (a : A) : keeps (eff_ret a).
Proof. intros c h. apply preserves_ret. Qed.
Lemma keeps_err {A} e : keeps (eff_err (A := A) e).
Proof. intros c h. apply preserves_err. Qed.
Lemma keeps_get : keeps get.
Proof. intros c h. apply preserves_get. Qed.

Lemma interfered_same c h n w : same c h w -> same c h (interfered (env n) w).
Proof.
  intros [Hc Hs]. split; [unfold checkpoint_of; cbn; by rewrite (qu_checkpoint _ _ _ Hquiet)|].
  cbn. by rewrite (qu_slot _ _ _ Hquiet).
Qed.
Lemma keeps_answer : keeps (answer env).
Proof. intros c h w r w' Hs H. injection H as <- <-. by apply interfered_same. Qed.
Lemma keeps_answer_within : keeps (answer_within env).
Proof.
  intros c h w r w' [Hc Hs] H. injection H as <- <-. split; [done|]. cbn. by rewrite (qu_slot _ _ _ Hquiet).
Qed.
Lemma keeps_query {A} (f : SourceServer -> result SourceError A) : keeps (query_source env f).
Proof.
  apply keeps_bind; [apply keeps_answer|]. intros a. destruct (an_failed a); [apply keeps_err|].
  apply keeps_bind; [apply keeps_get|]. intros w. apply keeps_of_source.
Qed.
Lemma keeps_connect dsn endpoint : keeps (connect parses env dsn endpoint).
Proof. apply keeps_bind; [apply keeps_answer|]. intros a. apply keeps_pure. Qed.
Lemma keeps_cancelled : keeps (is_cancelled env).
Proof. apply keeps_bind; [apply keeps_answer|]. intros a. apply keeps_ret. Qed.
Lemma keeps_rollback snapshot : keeps (rollback_session env snapshot).
Proof. apply keeps_bind; [apply keeps_answer|]. intros a. apply keeps_of_source. Qed.

Lemma same_put_target c h w db :
  same c h w -> sd_meta db = sd_meta (w_target w) -> same c h (put_target db w).
Proof. intros [Hc Hs] Hm. split; [|done]. unfold checkpoint_of in *. cbn. by rewrite Hm. Qed.

Lemma keeps_transact {A E} wrap database (f : Answer -> TargetDb -> result E (A * TargetDb)) :
  (forall a db x db', f a db = Ok (x, db') -> sd_meta db' = sd_meta db) -> keeps (transact env wrap database f).
Proof.
  intros Hf. apply keeps_bind; [apply keeps_answer|]. intros a c h w r w' Hs H.
  destruct (f a (w_target w)) as [[x db]|e|] eqn:E1; [|by injection H as <- <-..].
  apply Hf in E1. destruct (an_lost a) as [[m []]|]; injection H as <- <-; try done; by apply same_put_target.
Qed.

Lemma keeps_source {A} (m : Eff SourceServer SourceError A) :
  (forall o, preserves (fun s => confirmed_of slot s = o) m) -> keeps (from_source m).
Proof.
  intros Hm c h w r w' [Hc Hs] H. unfold from_source, eff_map_err, zoom in H.
  destruct (m (w_source w)) as [r1 s1] eqn:E1. injection H as <- <-. split; [done|]. by eapply (Hm h).
Qed.

Lemma keeps_publication name tables : keeps (job_ensure_publication role env name tables).
Proof.
  apply keeps_bind; [apply keeps_of_source|]. intros spec. apply keeps_bind; [apply keeps_answer|]. intros a.
  apply keeps_bind; [|intros st; apply keeps_ret]. apply keeps_source. intros o s r s' Hs H.
  eapply (ensure_keeps _ _ _ _ _ s) in H; [|apply only_publication_refl]. unfold confirmed_of.
  by rewrite (only_publication_slots _ _ _ H).
Qed.
(** *** The slot *)

(** The checkpoint is [c], and the slot exists at most when [h]. *)
Definition at_most_slot (c : option NodeRow) (h : Prop) (w : World) : Prop :=
  checkpoint_of key w = c /\ (has_slot slot w -> h).

Lemma same_at_most c o w : same c o w -> at_most_slot c (is_Some o) w.
Proof. intros [Hc Hs]. split; [done|]. rewrite has_slot_confirmed. by rewrite Hs. Qed.

Lemma autocommit_slot refused lost sql effect s r s' :
  autocommit refused lost sql effect s = (r, s') ->
  (s' = s /\ r <> Ok tt) \/ (effect s = Ok s').
Proof.
  unfold autocommit, statement. destruct (refused sql) as [m|]; [intros [= <- <-]; by left|].
  destruct (effect s) as [s1|m|]; cbn [map_err]; [|intros [= <- <-]; by left..].
  destruct lost as [[m []]|]; intros [= <- <-]; auto.
Qed.

Lemma drop_call_slot c o :
  ensures (same c o) (drop_slot_call env slot)
    (fun r w => match r with Ok _ => same c None w | _ => at_most_slot c (is_Some o) w end).
Proof.
  eapply ensures_bind; [eapply ensures_weaken; [apply (keeps_answer c o)|done|]|].
  { intros [a|e|] w Hw; [exact Hw|by apply same_at_most..]. }
  intros a w r w' Hw H. unfold from_source, eff_map_err, zoom, drop_logical_slot, eff_bind, pure in H.
  destruct (validate_name slot) as [[]|e|]; [|injection H as <- <-; by apply same_at_most..].
  destruct (autocommit _ _ _ _ _) as [r1 s1] eqn:E1. injection H as <- <-.
  apply autocommit_slot in E1 as [[-> Hr]|E1].
  { destruct r1 as [[]| |]; [done|by apply same_at_most..]. }
  unfold drop_slot in E1. destruct (sv_slots (w_source w) !! slot); [|done]. destruct (sl_active _); [done|].
  injection E1 as <-.
  assert (same c None (put_source (with_slots (delete slot) (w_source w)) w)) as Hn.
  { split; [apply Hw|]. unfold confirmed_of. cbn. by rewrite lookup_delete_eq. }
  apply same_at_most in Hn as Hm. destruct r1; cbn; [done| |]; split; try apply Hm; by intros [? ?]%Hm.
Qed.

Lemma create_slot_slot c o connect refused lost reply point readers :
  ensures (same c o) (from_source (create connect refused lost reply point slot readers))
    (fun r w =>
       match r with
       | Ok guard => same c (Some (Some point)) w /\ parse_create_slot_response reply slot = Ok (gd_snapshot guard)
       | _ => checkpoint_of key w = c
       end).
Proof.
  intros w r w' [Hc Hs] H. unfold from_source, eff_map_err, zoom in H.
  destruct (create _ _ _ _ _ _ _ _) as [r1 s1] eqn:E1. injection H as <- <-. destruct r1 as [guard|e|]; try done.
  unfold create in E1.
  destruct (_ =? _)%Z; [done|]. apply eff_bind_Ok in E1 as (? & s2 & Hv & E1). injection Hv as _ <-.
  apply eff_bind_Ok in E1 as (? & s2 & Hv & E1). injection Hv as _ <-. unfold create_with_client in E1.
  destruct (_ =? _)%Z; [done|]. apply eff_bind_Ok in E1 as (sql & s2 & Hv & E1). injection Hv as _ <-.
  apply eff_bind_Ok in E1 as ([] & s2 & Ha & E1). apply autocommit_slot in Ha as [[_ ?]|Ha]; [done|].
  destruct (parse_create_slot_response _ _) as [snap|e|]; [|by apply eff_bind_Ok in E1 as (? & ? & _ & E1);
    apply eff_bind_Ok in E1 as (? & ? & _ & E1)|done].
  injection E1 as <- <-. unfold create_slot in Ha. destruct (_ !! _); [done|]. injection Ha as <-.
  split; [|done]. split; [done|]. unfold confirmed_of. cbn. by rewrite lookup_insert_eq.
Qed.

(** A step of a sequence that keeps everything, and then one that does not. *)
Lemma then_ensures {A B} (m : Job A) (k : A -> Job B) c h Q :
  keeps m -> (forall w, same c h w -> (forall e, Q (Err e) w) /\ Q Panic w) ->
  (forall a, ensures (same c h) (k a) Q) -> ensures (same c h) (eff_bind m k) Q.
Proof.
  intros Hm HQ Hk. eapply ensures_bind; [|exact Hk]. intros w r w' Hw H. eapply Hm in H; [|exact Hw].
  destruct (HQ _ H). destruct r; auto.
Qed.

Lemma drop_orphan_slot self c o :
  ensures (same c o) (drop_orphan env self slot)
    (fun r w => match r with Ok _ => same c None w | _ => at_most_slot c (is_Some o) w end).
Proof.
  unfold drop_orphan. intros w r w' Hw H. unfold eff_bind in H at 1.
  destruct (slot_of env slot w) as [r1 w1] eqn:E1. pose proof (keeps_query _ c o _ _ _ Hw E1) as Hw1.
  destruct r1 as [[existing|]|e|]; [| |injection H as <- <-; by apply same_at_most..].
  - assert (ensures (same c o)
      (do! _ := pure (validate_slot self slot existing) in drop_slot_call env slot)
      (fun r w => match r with Ok _ => same c None w | _ => at_most_slot c (is_Some o) w end)) as Hd; [|by eapply Hd].
    apply then_ensures; [apply keeps_pure| |intros _; apply drop_call_slot].
    intros w2 Hw2. split; intros; by apply same_at_most.
  - injection H as <- <-. destruct Hw1 as [Hc Hs]. split; [done|].
    unfold slot_of, query_source in E1. apply eff_bind_Ok in E1 as (a & w2 & Ha & E1).
    destruct (an_failed a); [done|]. apply eff_bind_Ok in E1 as (w3 & w4 & Hg & E1). injection Hg as <- <-.
    unfold of_source, pure in E1. injection E1 as E1 ->. apply map_err_Ok in E1. unfold inspect_logical_slot in E1.
    apply bind_Ok in E1 as (u & _ & E1). unfold confirmed_of. destruct (sv_slots (w_source w1) !! slot); [|done].
    by apply bind_Ok in E1 as (st & _ & E1).
Qed.

(** The slot as the server created it, and as the guard reads it. *)
Definition opened (text : string) (slot_snapshot : ReplicationSlotSnapshot) : Prop :=
  exists n, text = an_point (env n) /\ parse_create_slot_response (an_reply (env n)) slot = Ok slot_snapshot.

Lemma open_snapshot_slot self c o :
  ensures (same c o) (open_snapshot parses env self slot)
    (fun r w =>
       match r with
       | Ok (slot_snapshot, _) => exists text, opened text slot_snapshot /\ same c (Some (Some text)) w
       | _ => checkpoint_of key w = c
       end).
Proof.
  unfold open_snapshot. intros w r w' Hw H. unfold eff_bind at 1 in H.
  destruct (answer env w) as [[a|e|] w1] eqn:Ea; [|done..].
  pose proof (keeps_answer c o _ _ _ Hw Ea) as Hw1. apply answer_Ok in Ea as [-> _].
  revert Hw1 H. generalize (w_step w) as n. intros n. revert w1 r w'. clear w Hw.
  eapply ensures_bind; [apply create_slot_slot|]. intros guard w1 r w' [Hw1 Hparse] H.
  assert (opened (an_point (env n)) (gd_snapshot guard)) as Ho by by exists n. clear Hparse.
  revert w1 r w' Hw1 H. set (text := an_point (env n)) in *. clearbody text.
  change (forall w1 r w', same c (Some (Some text)) w1 -> ?m w1 = (r, w') -> ?Q r w')
    with (ensures (same c (Some (Some text))) m Q).
  apply then_ensures; [apply keeps_get|intros w []; by split|]. intros w0.
  apply then_ensures; [apply keeps_connect|intros w []; by split|]. intros _.
  apply then_ensures; [apply keeps_answer|intros w []; by split|]. intros a'.
  apply then_ensures; [apply keeps_of_source|intros w []; by split|]. intros snapshot.
  destruct (mark_reader_ready guard) as [r1 guard1].
  apply then_ensures; [apply keeps_of_source|intros w []; by split|]. intros _.
  destruct (release guard1) as [r2 guard2].
  apply then_ensures; [apply keeps_of_source|intros w []; by split|]. intros _.
  apply ensures_ret. intros w Hw. by exists text.
Qed.

(** The load of a table, between its first statement and its commit. *)
Lemma load_table_keeps c h snapshot planned apply :
  m_node_checkpoints (sd_meta (sa_transaction apply)) !! key = c ->
  preserves (same c h)
    (do! a := answer_within env in
     do! _ := of_source (copy_text_table (an_refused a) snapshot planned) in
     do! a := answer_within env in
     if an_cancelled a then
       do! _ := fun w => let (r, db) := Load.rollback (w_target w) apply in
                         (map_err JobSnapshot r, put_target db w) in
       do! _ := rollback_session env snapshot in
       eff_err (A := unit) JobCancelled
     else
       let (r, apply) := copy_from_stream (an_refused a) (an_items a) (an_finish a) apply in
       do! _ := pure (map_err JobSnapshot r) in
       do! a := answer_within env in
       fun w => let (r, db) := Load.commit (an_lost a) (w_target w) apply in
                (map_err JobSnapshot (r ≫= fun _ => Ok tt), put_target db w)).
Proof.
  intros Happly. apply preserves_bind; [apply keeps_answer_within|]. intros a.
  apply preserves_bind; [apply keeps_of_source|]. intros _.
  apply preserves_bind; [apply keeps_answer_within|]. intros a'. apply ensures_if; intros _.
  - apply preserves_bind.
    + intros w r w' Hs H. cbn in H. injection H as _ <-. by apply same_put_target.
    + intros _. apply preserves_bind; [apply keeps_rollback|]. intros _. apply preserves_err.
  - destruct (copy_from_stream _ _ _ _) as [r1 apply1] eqn:Ecopy. apply copy_meta in Ecopy.
    apply preserves_bind; [apply preserves_pure|]. intros _.
    apply preserves_bind; [apply keeps_answer_within|]. intros a2 w r w' [Hc Hs] H.
    destruct (Load.commit _ _ _) as [r2 db] eqn:Ecommit. injection H as _ <-.
    split; [|done]. unfold checkpoint_of in *. cbn. apply commit_cases in Ecommit as [->| ->]; congruence.
Qed.

Lemma keeps_copy_table self snapshot group table :
  keeps (copy_table sha256 text_order env self snapshot group table).
Proof.
  intros c h. unfold copy_table. apply preserves_bind; [apply keeps_cancelled|]. intros cancelled. apply ensures_if; intros _.
  { apply preserves_bind; [apply keeps_rollback|]. intros _. apply preserves_err. }
  apply preserves_bind; [apply keeps_answer|]. intros a w r w' Hs H. unfold eff_bind at 1, get in H.
  unfold eff_bind at 1, pure in H. destruct (begin_snapshot_apply _ _ _ _ _ _) as [apply|e|] eqn:E1;
    [|by injection H as <- <-..].
  apply begin_apply_meta in E1 as [Hm _]. cbn [map_err] in H. eapply load_table_keeps; [|exact Hs|exact H].
  rewrite Hm. apply Hs.
Qed.

(** What a loaded snapshot asks to activate. *)
Record loaded (self : PostgresCloudberryJob) (report : PreflightReport) (text : string) (prepared : PreparedRun)
    (request : SnapshotActivationRequest) : Prop := {
  ld_fence : sar_fence request = jb_fence self;
  ld_checkpoints : sar_initial_checkpoints request = [pn_checkpoint prepared];
  ld_slot : exists slot_snapshot, opened text slot_snapshot /\
    pn_checkpoint prepared = initial_checkpoint self report slot slot_snapshot;
}.

Lemma load_snapshot_slot self report names tables c o :
  rn_slot names = slot ->
  ensures (same c o) (load_snapshot sha256 to_vec parses text_order env self report names tables)
    (fun r w =>
       match r with
       | Ok (prepared, request) =>
           exists text, loaded self report text prepared request /\ same c (Some (Some text)) w
       | _ => checkpoint_of key w = c
       end).
Proof.
  intros Hname. unfold load_snapshot. rewrite Hname. eapply ensures_bind.
  { eapply ensures_weaken; [apply (open_snapshot_slot self c o)|done|].
    intros [[slot_snapshot snapshot]|e|] w; [|done..].
    instantiate (1 := fun opening w => exists text, opened text opening.1 /\ same c (Some (Some text)) w). done. }
  intros [slot_snapshot snapshot] w r w' (text & Ho & Hw) H. revert w r w' Hw H. cbn [fst] in Ho.
  change (forall w r w', same c (Some (Some text)) w -> ?m w = (r, w') -> ?Q r w')
    with (ensures (same c (Some (Some text))) m Q).
  apply then_ensures; [apply keeps_answer|intros w []; by split|]. intros a.
  apply then_ensures; [|intros w []; by split|].
  { destruct (an_failed a); [apply keeps_err|apply keeps_of_source]. }
  intros inventory. apply then_ensures; [apply keeps_pure|intros w []; by split|]. intros ts.
  apply ensures_if; intros _.
  { apply then_ensures; [apply keeps_rollback|intros w []; by split|]. intros _. apply ensures_err. by intros w []. }
  apply then_ensures; [apply keeps_answer|intros w []; by split|]. intros a'.
  apply then_ensures; [|intros w []; by split|].
  { apply keeps_transact. intros _ db ou db' H. by eapply begin_group_meta. }
  intros _. apply then_ensures; [|intros w []; by split|].
  { intros c' h'. apply preserves_each. intros t _. apply keeps_copy_table. }
  intros _. apply then_ensures; [apply keeps_answer|intros w []; by split|]. intros a2.
  apply then_ensures; [apply keeps_of_source|intros w []; by split|]. intros _. apply ensures_ret.
  intros w Hw. exists text. split; [|done]. split; [done..|]. by exists slot_snapshot.
Qed.

(** The activation: either nothing was written, or what [activate_snapshot_group] writes. *)
Lemma activate_slot request c o :
  ensures (same c o) (activate sha256 text_order row_order env request)
    (fun r w => confirmed_of slot (w_source w) = o /\
       (checkpoint_of key w = c /\ (forall outcome, r <> Ok outcome) \/
        exists a db outcome, m_node_checkpoints (sd_meta db) !! key = c /\
          activate_snapshot_group (an_refused a) sha256 text_order row_order (an_now a) request db =
            Ok (outcome, w_target w))).
Proof.
  unfold activate, snapshot_transaction, transact. eapply ensures_bind.
  { eapply ensures_weaken; [apply (keeps_answer c o)|done|].
    intros [a|e|] w Hw; [exact Hw|destruct Hw; split; [done|by left]..]. }
  intros a w r w' [Hc Hs] H. destruct (activate_snapshot_group _ _ _ _ _ _ _) as [[outcome db]|e|] eqn:E1;
    [|injection H as <- <-; split; [done|by left]..].
  destruct (an_lost a) as [[m []]|]; injection H as <- <-; (split; [done|]).
  - right. by exists a, (w_target w), outcome.
  - by left.
  - right. by exists a, (w_target w), outcome.
Qed.
End job.

(** ** What preparing a first run leaves *)

Section activated.
Context (refused : string -> option string) (sha256 : bytes -> bytes)
  (text_order : list GroupTableRow -> list GroupTableRow)
  (row_order : list (QualifiedName * ManagedTableRow) -> list (QualifiedName * ManagedTableRow)) (now : Z).

(** A group whose checkpoint is missing is not found active. *)
Lemma verify_needs_checkpoint db checkpoints c u :
  c ∈ checkpoints -> m_node_checkpoints (sd_meta db) !! nc_key c = None ->
  verify_retry_checkpoints db checkpoints <> Ok u.
Proof.
  intros Hin Hn. unfold verify_retry_checkpoints. apply (foldM_stuck _ _ c); [done|]. intros ? ? H.
  apply bind_Ok in H as (current & Hl & H). apply map_err_Ok in Hl. unfold load_node_checkpoint in Hl.
  apply bind_Ok in Hl as (g & Hg & Hl). apply Checkpoint.database_generation_Ok in Hg as [-> _].
  unfold read_checkpoint in Hl. rewrite key_eta, Hn in Hl. injection Hl as <-.
  apply bind_Ok in H as (b & Hb & H). apply map_err_Ok in Hb. unfold checkpoint_reached in Hb.
  apply bind_Ok in Hb as (v & _ & Hb). by injection Hb as <-.
Qed.

Lemma activated_without_checkpoint request db outcome db' c :
  activate_snapshot_group refused sha256 text_order row_order now request db = Ok (outcome, db') ->
  c ∈ sar_initial_checkpoints request -> m_node_checkpoints (sd_meta db) !! nc_key c = None ->
  sao_disposition outcome = Activated.
Proof.
  intros H Hin Hn. unfold activate_snapshot_group in H.
  apply bind_Ok in H as (r & Hr & H). apply bind_Ok in H as (u & _ & H). apply bind_Ok in H as (stored & _ & H).
  apply bind_Ok in H as (r' & Hex & H). apply canonical_request_Ok in Hr as [_ ->].
  apply validate_exact_request_Ok in Hex as [Hr' _]. apply canonical_request_Ok in Hr' as [_ ->].
  apply bind_Ok in H as (states & _ & H). apply bind_Ok in H as (stale & _ & H).
  apply bind_Ok in H as ([] & _ & H).
  - destruct (negb _) in H; [done|]. apply bind_Ok in H as (v & Hv & _). exfalso.
    eapply verify_needs_checkpoint; [|exact Hn|exact Hv]. cbn. by rewrite !sort_by_key_perm.
  - destruct (negb _) in H; [done|]. apply bind_Ok in H as (? & _ & H). apply bind_Ok in H as ([] & _ & H).
    apply bind_Ok in H as (? & _ & H). apply bind_Ok in H as ([] & _ & H). apply bind_Ok in H as ([] & _ & H).
    apply bind_Ok in H as (? & _ & H). apply bind_Ok in H as (? & _ & H). by injection H as <- _.
Qed.
End activated.

Section first_run.
Context (sha256 : bytes -> bytes) (to_vec : Value -> bytes) (debug_str : string -> string) (parses : string -> bool)
  (text_order : list GroupTableRow -> list GroupTableRow)
  (row_order : list (QualifiedName * ManagedTableRow) -> list (QualifiedName * ManagedTableRow))
  (role : string) (env : nat -> Answer).
Hypothesis Hrows : forall l, row_order l ≡ₚ l.
Notation initial := (prepare_initial_snapshot sha256 to_vec debug_str parses text_order row_order role env).

(** The slot and the checkpoint of the snapshot it was created with. *)
Definition stored_with_slot (self : PostgresCloudberryJob) (report : PreflightReport) (slot : string)
    (key : CheckpointKey) (w : World) (checkpoint : NodeCheckpoint) : Prop :=
  exists text slot_snapshot, opened env slot text slot_snapshot /\
    checkpoint = initial_checkpoint self report slot slot_snapshot /\
    confirmed_of slot (w_source w) = Some (Some text) /\
    (typed checkpoint -> read_checkpoint (sd_meta (w_target w)) key =
       Ok (Some (mkStoredNodeCheckpoint checkpoint (pf_fencing_token (jb_fence self))))).

(** What a first run leaves; [had]: there was a slot before. *)
Definition left_behind (self : PostgresCloudberryJob) (report : PreflightReport) (slot : string)
    (key : CheckpointKey) (had : Prop) (r : result RuntimeJobError PreparedRun) (w : World) : Prop :=
  (checkpoint_of key w = None \/ exists checkpoint, stored_with_slot self report slot key w checkpoint) /\
  match r with
  | Ok prepared => stored_with_slot self report slot key w (pn_checkpoint prepared)
  | Err e =>
      has_slot slot w ->
      had \/ (exists original cleanup, e = InitialSnapshotCleanup original slot cleanup) \/
      exists request w1, activate sha256 text_order row_order env request w1 = (Err e, w)
  | Panic => True
  end.

Lemma stored_has_slot self report slot key w checkpoint :
  stored_with_slot self report slot key w checkpoint -> has_slot slot w.
Proof. intros (text & snap & _ & _ & Hc & _). rewrite has_slot_confirmed, Hc. by eexists. Qed.

Section quiet.
Context (self : PostgresCloudberryJob) (report : PreflightReport) (names : ReplicationNames).
Notation slot := (rn_slot names).
Notation key := (mkCheckpointKey (jb_pipeline_id self) (jb_topology_generation self) STANDALONE_NODE_ID).
Hypothesis Hquiet : quiet env slot key.

Lemma no_checkpoint_left had r w :
  checkpoint_of key w = None -> (forall p, r <> Ok p) ->
  (has_slot slot w -> forall e, r = Err e ->
     had \/ (exists original cleanup, e = InitialSnapshotCleanup original slot cleanup)) ->
  left_behind self report slot key had r w.
Proof.
  intros Hc Hr Hs. split; [by left|]. destruct r as [p|e|]; [by edestruct Hr| |done].
  intros Hh. destruct (Hs Hh e eq_refl); auto.
Qed.

(** The error before the activation drops the slot. *)
Lemma clean_up_left original :
  ensures (fun w => checkpoint_of key w = None) (clean_up_slot debug_str env slot original)
    (left_behind self report slot key False).
Proof.
  intros w r w' Hc H. unfold clean_up_slot, eff_bind, attempt in H.
  destruct (drop_slot_call env slot w) as [r1 w1] eqn:E1.
  pose proof (drop_call_slot env slot key Hquiet None _ w r1 w1 (conj Hc eq_refl) E1) as Hd.
  destruct r1 as [u|e|].
  - injection H as <- <-. destruct Hd as [Hc1 Hs]. apply no_checkpoint_left; [done..|].
    intros Hh. apply has_slot_confirmed in Hh. rewrite Hs in Hh. by destruct Hh.
  - injection H as <- <-. destruct Hd as [Hc1 Hs]. apply no_checkpoint_left; [done..|].
    intros Hh e' [= <-]. right. eauto.
  - injection H as <- <-. destruct Hd as [Hc1 Hs]. by apply no_checkpoint_left.
Qed.

(** The activation's transaction stores the checkpoint under a slot that exists. *)
Lemma activation_stores a db outcome w text prepared request :
  loaded env slot self report text prepared request ->
  m_node_checkpoints (sd_meta db) !! key = None -> confirmed_of slot (w_source w) = Some (Some text) ->
  activate_snapshot_group (an_refused a) sha256 text_order row_order (an_now a) request db = Ok (outcome, w_target w) ->
  stored_with_slot self report slot key w (pn_checkpoint prepared).
Proof.
  intros [Hf Hi (snap & Ho & Hp)] Hn Hc Hact. exists text, snap. split_and!; [done..|]. intros Ht.
  assert (nc_key (pn_checkpoint prepared) = key) as Hk by by rewrite Hp.
  assert (sao_disposition outcome = Activated) as Hd.
  { eapply activated_without_checkpoint; [exact Hact|rewrite Hi; by left|by rewrite Hk]. }
  eapply activated_activates in Hact as (_ & _ & _ & Ha); [|done|by rewrite Hi; constructor|done].
  pose proof (at_checkpoints _ _ _ _ _ _ _ Ha (pn_checkpoint prepared)) as Hck.
  rewrite Hi, Hk, Hf in Hck. apply Hck. by left.
Qed.

Lemma activation_left text prepared request w r w' :
  loaded env slot self report text prepared request -> same slot key None (Some (Some text)) w ->
  (do! _ := activate sha256 text_order row_order env request in eff_ret prepared) w = (r, w') ->
  left_behind self report slot key False r w'.
Proof.
  intros Hl Hw H. unfold eff_bind in H. destruct (activate _ _ _ _ request w) as [r1 w1] eqn:E1.
  destruct (activate_slot _ _ _ _ _ _ Hquiet request None _ w r1 w1 Hw E1) as [Hs [[Hc Hr]|Hr]].
  - destruct r1 as [outcome|e|]; injection H as <- <-; [by edestruct Hr| |]; (split; [by left|]); [|done].
    intros _. right. right. eauto.
  - destruct Hr as (a & db & outcome & Hn & Hact).
    assert (stored_with_slot self report slot key w1 (pn_checkpoint prepared)) as Hst by by eapply activation_stores.
    destruct r1 as [outcome'|e|]; injection H as <- <-; (split; [by eauto|]); [done| |done].
    intros _. right. right. eauto.
Qed.

Lemma snapshot_left tables w r w' :
  same slot key None None w ->
  snapshot_and_activate sha256 to_vec debug_str parses text_order row_order env self report names tables w = (r, w') ->
  left_behind self report slot key False r w'.
Proof.
  intros Hw H. unfold snapshot_and_activate, eff_bind at 1, attempt in H.
  destruct (load_snapshot _ _ _ _ _ _ _ _ _ w) as [r1 w1] eqn:E1.
  pose proof (load_snapshot_slot _ to_vec parses text_order env slot key Hquiet self report names tables None None
    eq_refl w r1 w1 Hw E1) as Hl.
  destruct r1 as [[prepared request]|e|].
  - destruct Hl as (text & Hl & Hw1). by eapply activation_left.
  - by eapply clean_up_left.
  - injection H as <- <-. by apply no_checkpoint_left.
Qed.

Lemma first_run_left w r w' :
  checkpoint_of key w = None -> initial self report names w = (r, w') ->
  left_behind self report slot key (has_slot slot w) r w'.
Proof.
  intros Hc H. set (had := has_slot slot w).
  assert (Hend : forall r w, at_most_slot slot key None had w -> (forall p, r <> Ok p) ->
    left_behind self report slot key had r w).
  { intros r1 w1 [Hc1 Hs1] Hr. apply no_checkpoint_left; auto. }
  assert (Hsame : forall r w, same slot key None None w -> (forall p, r <> Ok p) ->
    left_behind self report slot key had r w).
  { intros r1 w1 Hw1 Hr. apply Hend; [|done]. apply same_at_most in Hw1 as [Hc1 Hs1].
    split; [done|]. by intros [? ?]%Hs1. }
  unfold prepare_initial_snapshot, eff_bind at 1 in H.
  destruct (drop_orphan _ _ _ w) as [r1 w1] eqn:E1.
  pose proof (drop_orphan_slot env slot key Hquiet self None _ w r1 w1 (conj Hc eq_refl) E1) as Hd.
  assert (Hb : at_most_slot slot key None (is_Some (confirmed_of slot (w_source w))) w1 -> at_most_slot slot key None had w1).
  { intros [Hc1 Hs1]. split; [done|]. intros ?%Hs1. by apply has_slot_confirmed. }
  destruct r1 as [u|e|]; [|injection H as <- <-; apply Hend; [by apply Hb|done]..]. clear Hb E1 Hc. revert w1 r w' Hd H.
  change (ensures (same slot key None None)
    (do! inventory := query_source env (fun server => inspect_tables server (catalog_options self)) in
     do! publication_tables := pure (plan_inventory sha256 to_vec self inventory) in
     do! _ := job_ensure_publication role env (rn_publication names) publication_tables in
     snapshot_and_activate sha256 to_vec debug_str parses text_order row_order env self report names publication_tables)
    (left_behind self report slot key had)).
  apply then_ensures; [by apply keeps_query|split; intros; by apply Hsame|]. intros inventory.
  apply then_ensures; [by apply keeps_pure|split; intros; by apply Hsame|]. intros tables.
  apply then_ensures; [by apply keeps_publication|split; intros; by apply Hsame|]. intros _ w2 r2 w3 Hw2 H2.
  eapply snapshot_left in H2 as [Hck Hr]; [|done..]. split; [done|]. destruct r2; [done| |done].
  intros Hh. destruct (Hr Hh) as [[]|?]; auto.
Qed.
End quiet.

(** C9: The first run of a pipeline never leaves a checkpoint without the slot it was created
    with, whichever call fails and whatever reply is lost.  When it succeeds the slot exists, at
    its consistent point, and the target holds the checkpoint of that snapshot under the run's
    token; when it fails the slot is gone again, unless it was there before and could not be
    dropped, its cleanup failed - which the error says - or the activation itself failed, which
    may have stored the checkpoint. *)
Theorem checkpoint_never_lacks_its_slot self report names w r w' :
  let key := mkCheckpointKey (jb_pipeline_id self) (jb_topology_generation self) STANDALONE_NODE_ID in
  quiet env (rn_slot names) key -> checkpoint_of key w = None ->
  initial self report names w = (r, w') ->
  left_behind self report (rn_slot names) key (has_slot (rn_slot names) w) r w' /\
  (is_Some (checkpoint_of key w') -> has_slot (rn_slot names) w').
Proof.
  intros key Hq Hc H. assert (left_behind self report (rn_slot names) key (has_slot (rn_slot names) w) r w') as Hl
    by by apply first_run_left.
  split; [done|]. intros [row Hrow]. destruct Hl as [[?|(cp & Hst)] _]; [congruence|]. by eapply stored_has_slot.
Qed.
End first_run.

(** ** Witnesses *)

(** The user stops the pipeline while the first table is copied. *)
Notation stopped := (fun _ : nat => example_answer true accepted).

Lemma example_quiet cancelled :
  quiet (fun _ : nat => example_answer cancelled accepted) (rn_slot example_names) (mkCheckpointKey 5 1 0).
Proof. by split. Qed.

Definition slot_remains (w : World) : bool := bool_decide (is_Some (sv_slots (w_source w) !! rn_slot example_names)).

Example runs_end :
  is_ok (example_initial (fun _ : nat => example_answer false accepted)).1 = true /\
  slot_remains (example_initial stopped).2 = false /\
  match (example_initial stopped).1 with Err JobCancelled => true | _ => false end = true.
Proof. split_and!; vm_compute; reflexivity. Qed.

Lemma checkpoint_never_lacks_its_slot_witness :
  exists prepared w, example_initial (fun _ : nat => example_answer false accepted) = (Ok prepared, w) /\
    has_slot (rn_slot example_names) w /\ nc_slot_name (pn_checkpoint prepared) = rn_slot example_names /\
    exists w', example_initial stopped = (Err JobCancelled, w') /\ ~ is_Some (checkpoint_of (mkCheckpointKey 5 1 0) w').
Proof.
  destruct runs_end as (H1 & H2 & H3).
  destruct (example_initial (fun _ : nat => example_answer false accepted)) as [r w] eqn:E1.
  destruct (example_initial stopped) as [r' w'] eqn:E2. cbn [fst snd] in *.
  destruct r as [prepared| |]; [|discriminate H1..]. destruct r' as [|[]|]; try discriminate H3.
  destruct (checkpoint_never_lacks_its_slot name_digest (fun _ => []) id (fun _ => true) by_bytes (fun l => l) "etl" _
    (fun l => Permutation_refl l) example_job example_report example_names example_world _ _ (example_quiet false)
    eq_refl E1) as [[_ Hst] _].
  destruct (checkpoint_never_lacks_its_slot name_digest (fun _ => []) id (fun _ => true) by_bytes (fun l => l) "etl" _
    (fun l => Permutation_refl l) example_job example_report example_names example_world _ _ (example_quiet true)
    eq_refl E2) as [_ Hck].
  exists prepared, w. split_and!; [reflexivity|by eapply stored_has_slot| |].
  { destruct Hst as (text & snap & _ & -> & _). reflexivity. }
  exists w'. split; [reflexivity|]. intros Hh. apply Hck in Hh.
  unfold slot_remains in H2. apply bool_decide_eq_false in H2. exact (H2 Hh).
Defined.
