(* ===== verification/JobRun.v ===== *)
(** * Running a pipeline

    Models the rest of [crates/engine/src/runtime/job.rs]: how the factory resolves a pipeline
    into a job, [run] and [run_standalone], the monitor of the retained WAL, and the rebuilds
    they request; and the transport of [crates/source-postgres/src/wal.rs] they start.

    The loop and the monitor run side by side until one of them ends.  Their turns are a list of
    events, and the environment acts between any two of them; an end that comes while the loop
    is inside a turn drops it there ([inflight]).  The slot takes the position of the last
    status that was sent, unless the server never sees it.  What the loop records in the
    telemetry reaches the handle of the job as a change by others ([an_telemetry]); the logs are
    left out. *)

From S2P Require Import Prelude Effects Core Schema Decimal Mapping Change Batch Sql Source Wal TargetSchema Checkpoint Apply Pipeline Telemetry PgOutput Sink Replicate EndToEnd Settings Planning Catalog Publication SlotSnapshot Ddl Store Supervisor Snapshot Manifest Load Activation Cleanup Errors Setup Job.

(** ** The transport *)

(** An item of the logical replication stream. *)
Inductive ReplicationMessage : Type :=
| XLogData (body : LogicalReplicationMessage)
| PrimaryKeepAlive (wal_end timestamp : Z) (reply : Z)
| StreamError (message : string)
| UnknownEnvelope.

Section transport.
Context (timestamp_micros : Z -> option Z) (from_slice : bytes -> result string DdlEnvelope).

(** [poll_next] of one item. *)
Definition poll_item (decoder : TransactionDecoder) (item : ReplicationMessage)
    : result SourceError DecodedMessage * TransactionDecoder :=
  match item with
  | XLogData body => decode timestamp_micros from_slice decoder body
  | PrimaryKeepAlive wal_end timestamp reply => (Ok (DKeepalive wal_end timestamp (negb (reply =? 0)%Z)), decoder)
  | StreamError message => (Err (ReplicationProtocol message), decoder)
  | UnknownEnvelope => (Err (ReplicationProtocol "unknown replication envelope"), decoder)
  end.

(** The items of the stream, each decoded in the state the earlier ones left. *)
Fixpoint poll_items (decoder : TransactionDecoder) (items : list ReplicationMessage)
    : list (result SourceError DecodedMessage) :=
  match items with
  | [] => []
  | item :: items =>
      let (message, decoder) := poll_item decoder item in
      message :: poll_items decoder items
  end.

(** What the server sends once the replication has started, and how the statuses fare. *)
Definition ReplicationTransport_start (refused : string -> option string) (items : list ReplicationMessage)
    (sends : list (result SourceError unit)) (slot_name start_lsn publication_name : string)
    : result SourceError EventTransport :=
  let? sql := start_replication_sql slot_name start_lsn publication_name in
  match refused sql with
  | Some message => Err (ReplicationPostgres message)
  | None => Ok (mkEventTransport (poll_items Decoder_new items) sends [])
  end.
End transport.

(** ** The race of the loop and the monitor *)

Inductive RunEvent : Type :=
| LoopTurn (ev : LoopEvent)
| MonitorTick (inflight : option LoopEvent)
| MonitorCancel (inflight : option LoopEvent).

(** Which future has ended, and how. *)
Inductive RunOutcome : Type :=
| LoopEnded (r : result PipelineError unit)
| MonitorEnded (r : result RuntimeJobError WalMonitorOutcome).

Inductive RunEnd : Type := Returned | StillRunning.

(** What only the servers decide while the pipeline replicates: the stream, the fate of the
    statuses, the rows the target's tables hold, how its transactions fare, and the turns. *)
Record RunScript : Type := mkRunScript {
  rs_items : list ReplicationMessage;
  rs_sends : list (result SourceError unit);
  rs_tables : gmap QualifiedName Table;
  rs_drivers : list ApplyDriver;
  rs_events : list RunEvent;
}.

Notation Loop := (LoopState PgOutputTransactionSource Connection).

(** A connection to a target whose metadata is now [meta]. *)
Definition on_metadata (meta : Meta) (conn : Connection) : Connection :=
  mkConnection (mkDatabase meta (db_tables (cn_database conn))) (cn_drivers conn) (cn_closed conn).

(** The server takes the flush position of a status. *)
Definition confirm (slot : string) (lsn : Z) (s : SourceServer) : SourceServer :=
  with_slots
    (alter (fun row =>
       mkSlotRow (sl_plugin row) (sl_database row) (sl_temporary row) (sl_active row) (Some (Lsn.to_string lsn))
         (sl_restart_lsn row) (sl_retained_wal row) (sl_safe_wal_size row) (sl_wal_status row)
         (sl_invalidation_reason row) (sl_two_phase row) (sl_failover row) (sl_synced row)) slot) s.

Section run.
Context (sha256 : bytes -> bytes) (to_vec : Value -> bytes) (debug_str : string -> string)
  (debug_strings : list string -> string) (quote_ident : string -> string) (parses : string -> bool)
  (text_order : list GroupTableRow -> list GroupTableRow)
  (row_order : list (QualifiedName * ManagedTableRow) -> list (QualifiedName * ManagedTableRow))
  (log_order : list (Z * QualifiedName * LogRow) -> list (Z * QualifiedName * LogRow))
  (timestamp_micros : Z -> option Z) (from_slice : bytes -> result string DdlEnvelope)
  (migrations : list Migration) (role : string).
Context (env : nat -> Answer).

Definition query_control {A} (f : ControlDb -> result StoreError A) : Job A :=
  do! a := answer env in
  match an_failed a with
  | Some message => eff_err (JobStore (StoreDatabase message))
  | None => do! w := get in pure (map_err JobStore (f (w_control w)))
  end.

(** A transaction of the control store, whose reply may be lost. *)
Definition update_control {A} (f : Answer -> ControlDb -> result StoreError A * ControlDb) : Job A :=
  do! a := answer env in
  fun w =>
    let (r, db) := f a (w_control w) in
    match an_lost a with
    | Some (message, executed) =>
        (Err (JobStore (StoreDatabase message)), if executed : bool then put_control db w else w)
    | None => (map_err JobStore r, put_control db w)
    end.

Definition request_rebuild (self : PostgresCloudberryJob) (reason : string) : Job unit :=
  do! rebuild :=
    update_control (fun a => request_pipeline_rebuild (an_now a) (an_uuid a) (jb_pipeline_id self)) in
  do! _ := pure (ok_or rebuild MissingPipelineForRebuild) in
  eff_ret tt.

(** One turn of the loop, on the metadata of the target as it is. *)
Definition loop_turn (slot : string) (sink : CloudberryTransactionSink) (ev : LoopEvent) (st : Loop)
    : Job (option (result PipelineError unit) * Loop) :=
  do! a := answer env in
  fun w =>
    let st := mkLoopState (lo_source st) (on_metadata (sd_meta (w_target w)) (lo_db st))
                (lo_batcher st) (lo_telemetry st) (lo_received st) (lo_committed st) in
    let (r, st) :=
      loop_step (HSrc := pgoutput_source SourceError_to_string)
        (HSnk := cloudberry_sink ApplyError_to_string debug_strings sink STANDALONE_NODE_ID)
        (fun _ => an_now a) ev st in
    let w := put_target (with_meta (fun _ => db_meta (cn_database (lo_db st))) (w_target w)) w in
    let w := match last (sent (po_transport (lo_source st))), an_lost a with
             | Some status, None => put_source (confirm slot (flush_lsn status) (w_source w)) w
             | _, _ => w
             end in
    (Ok (r, st), w).

Definition monitor_tick (self : PostgresCloudberryJob) (slot_name : string) : Job (option WalMonitorOutcome) :=
  do! slot := slot_of env slot_name in
  do! slot := pure (ok_or slot (WalRetentionExceeded slot_name
                                  "logical slot disappeared while replication was running")) in
  let observed := wal_retention_observed (ls_retained_wal_bytes slot) (ls_safe_wal_size slot) in
  match assess_wal_retention debug_str slot (ss_wal_retention (jb_source_settings self)) with
  | Healthy => do! _ := tell (observed false) in eff_ret None
  | Warning _ => do! _ := tell (observed true) in eff_ret None
  | Rebuild reason => do! _ := tell (observed true) in eff_ret (Some (MonitorRebuild reason))
  end.

(** The loop is dropped, maybe inside a turn. *)
Definition drop_loop (slot : string) (sink : CloudberryTransactionSink) (inflight : option LoopEvent) (st : Loop)
    : Job Loop :=
  match inflight with
  | None => eff_ret st
  | Some ev => do! turn := loop_turn slot sink ev st in eff_ret turn.2
  end.

(** The [select!] over both: [None] while neither has ended. *)
Fixpoint race (self : PostgresCloudberryJob) (slot : string) (sink : CloudberryTransactionSink)
    (events : list RunEvent) (st : Loop) : Job (option RunOutcome * Loop) :=
  match events with
  | [] => eff_ret (None, st)
  | LoopTurn ev :: events =>
      do! turn := loop_turn slot sink ev st in
      match turn with
      | (Some r, st) => eff_ret (Some (LoopEnded r), st)
      | (None, st) => race self slot sink events st
      end
  | MonitorCancel inflight :: _ =>
      do! st := drop_loop slot sink inflight st in
      eff_ret (Some (MonitorEnded (Ok MonitorCancelled)), st)
  | MonitorTick inflight :: events =>
      do! seen := attempt (monitor_tick self slot) in
      match seen with
      | Ok None => race self slot sink events st
      | Ok (Some outcome) =>
          do! st := drop_loop slot sink inflight st in
          eff_ret (Some (MonitorEnded (Ok outcome)), st)
      | Err e =>
          do! st := drop_loop slot sink inflight st in
          eff_ret (Some (MonitorEnded (Err e)), st)
      | Panic => pure Panic
      end
  end.

(** *** Before the tables are prepared *)

Definition job_preflight (self : PostgresCloudberryJob) : Job PreflightReport :=
  query_source env (fun server =>
    preflight server
      (mkPreflightOptions (ss_metadata_schema (jb_source_settings self))
         (po_expected_major PreflightOptions_default)
         (po_require_logical_replication PreflightOptions_default))).

Definition check_target (self : PostgresCloudberryJob) : Job unit :=
  do! a := answer env in
  match an_failed a with
  | Some message => eff_err (JobTargetDatabase message)
  | None => pure (validate_target self (an_identity a))
  end.

Definition migrate_target : Job unit :=
  do! a := answer env in
  eff_map_err JobTargetMigration
    (zoom w_migrations put_migrations
       (migrate_target_database sha256 (an_refused a) (an_migration_lost a) migrations)).

Definition take_fence (self : PostgresCloudberryJob) : Job unit :=
  transact env JobCheckpoint CheckpointDatabase (fun _ db =>
    let? meta := activate_pipeline_fence (sd_meta db) (jb_fence self) in
    Ok (tt, with_meta (fun _ => meta) db)).

(** A [Duration] of the settings in nanoseconds. *)
Definition gc_policy (self : PostgresCloudberryJob) : result RuntimeJobError QuarantineGcPolicy :=
  map_err JobSnapshot
    (enabled (quarantine_retention (jb_target_settings self) * 1000000000)
       (tgs_quarantine_gc_max_tables (jb_target_settings self))).

Definition clean_target (self : PostgresCloudberryJob) : Job unit :=
  do! _ := snapshot_transaction env (fun a =>
    cleanup_stale_snapshot_groups (an_refused a) sha256 text_order row_order (jb_fence self)) in
  do! policy := pure (gc_policy self) in
  do! _ := snapshot_transaction env (fun a =>
    garbage_collect_quarantined_tables (an_refused a) sha256 log_order (an_now a) (jb_fence self) policy) in
  eff_ret tt.

Definition install_ddl_capture (self : PostgresCloudberryJob) : Job unit :=
  let spec := mkDdlInstallSpec (ss_metadata_schema (jb_source_settings self)) CANONICAL_DDL_TRIGGER_NAME true in
  do! a := answer env in
  do! _ := eff_map_err JobSource
             (zoom w_capture put_capture (ensure_ddl_capture quote_ident (an_refused a) (an_lost a) spec)) in
  eff_ret tt.

Definition job_key (self : PostgresCloudberryJob) : CheckpointKey :=
  mkCheckpointKey (jb_pipeline_id self) (jb_topology_generation self) STANDALONE_NODE_ID.
Definition job_names (self : PostgresCloudberryJob) : ReplicationNames :=
  replication_names (jb_pipeline_id self) STANDALONE_NODE_ID.

Definition stored_checkpoint (self : PostgresCloudberryJob) : Job (option StoredNodeCheckpoint) :=
  do! a := answer env in
  match an_failed a with
  | Some message => eff_err (JobCheckpoint (CheckpointDatabase message))
  | None =>
      do! w := get in
      pure (map_err JobCheckpoint (load_node_checkpoint (sd_meta (w_target w)) (job_key self)))
  end.

Definition set_up (self : PostgresCloudberryJob) : Job PreflightReport :=
  do! _ := connect parses env (jb_source_dsn self) RoleSource in
  do! _ := connect parses env (jb_target_dsn self) RoleTarget in
  do! report := job_preflight self in
  do! _ := pure (validate_source self report) in
  do! _ := check_target self in
  do! _ := migrate_target in
  do! _ := take_fence self in
  do! _ := clean_target self in
  do! _ := install_ddl_capture self in
  eff_ret report.

(** *** Preparing, or asking for a rebuild *)

Definition prepare (self : PostgresCloudberryJob) (report : PreflightReport) : Job PreparedRun :=
  do! stored := stored_checkpoint self in
  match stored with
  | Some stored =>
      do! _ := tell (set_phase CatchingUp) in
      prepare_resume sha256 to_vec debug_str text_order env self report (job_names self) (snc_checkpoint stored)
  | None =>
      do! _ := tell (set_phase Snapshotting) in
      prepare_initial_snapshot sha256 to_vec debug_str parses text_order row_order role env self report
        (job_names self)
  end.

(** The errors after which only a new snapshot helps. *)
Definition asks_for_rebuild (e : RuntimeJobError) : bool :=
  match e with
  | MissingSlot _ | SlotInvalidated _ _ | SlotAheadOfTarget _ _ | WalLost | WalRetentionExceeded _ _
  | PublicationDrift _ => true
  | _ => false
  end.

Definition prepare_or_rebuild (self : PostgresCloudberryJob) (report : PreflightReport) : Job (option PreparedRun) :=
  do! preparation := attempt (prepare self report) in
  match preparation with
  | Ok prepared => eff_ret (Some prepared)
  | Err e =>
      if asks_for_rebuild e then
        do! _ := request_rebuild self (RuntimeJobError_to_string debug_str e) in eff_ret None
      else eff_err e
  | Panic => pure Panic
  end.

(** *** Replicating *)

Definition table_bindings (tables : list RuntimeTable) : result AdapterConfigError (list TableBinding) :=
  try_map (fun table =>
    let planned := rt_planned table in
    TableBinding_new (pt_source planned) (pt_target planned) (pt_staging_name planned)) tables.

Definition i64_generation (self : PostgresCloudberryJob) : result RuntimeJobError Z :=
  if (jb_topology_generation self <=? i64_max)%Z then Ok (jb_topology_generation self)
  else Err InvalidSnapshotGeneration.

(** What the loop is given. *)
Definition hand_over (self : PostgresCloudberryJob) (report : PreflightReport) (prepared : PreparedRun)
    (script : RunScript) : Job (CloudberryTransactionSink * Loop) :=
  let start := nc_applied_lsn (pn_checkpoint prepared) in
  let identity := pr_identity report in
  do! a := answer env in
  do! _ := of_source (an_replication a) in
  do! a := answer env in
  do! transport :=
    of_source
      (ReplicationTransport_start timestamp_micros from_slice (an_refused a) (rs_items script) (rs_sends script)
         (rn_slot (job_names self)) (Lsn.to_string start) (rn_publication (job_names self))) in
  do! assembler :=
    of_source
      (Assembler_with_limits
         (mkSourceNodeIdentity STANDALONE_NODE_ID (si_system_identifier identity) (si_timeline identity))
         (transaction_limits (jb_source_settings self))) in
  let source := PgOutput_new_with_telemetry transport assembler start [] in
  do! bindings := pure (map_err JobAdapter (table_bindings (pn_tables prepared))) in
  do! registry := pure (map_err JobAdapter (Registry_new bindings)) in
  do! sink :=
    pure (map_err JobAdapter
            (Sink_new (jb_fence self) (rn_slot (job_names self)) registry (ddl_scope (jb_source_settings self)))) in
  do! batcher := pure (map_err JobBatch (Batcher_new (batch_limits (jb_pipeline_settings self)))) in
  do! w := get in
  eff_ret (sink, loop_start source
    (mkConnection (mkDatabase (sd_meta (w_target w)) (rs_tables script)) (rs_drivers script) false) batcher (Some [])).

Definition finish (self : PostgresCloudberryJob) (outcome : option RunOutcome) : Job RunEnd :=
  match outcome with
  | None => eff_ret StillRunning
  | Some (LoopEnded (Err (SchemaBarrier reason))) | Some (MonitorEnded (Ok (MonitorRebuild reason))) =>
      do! _ := tell (mark_degraded reason) in
      do! _ := request_rebuild self reason in
      eff_ret Returned
  | Some (LoopEnded r) => do! _ := pure (map_err JobPipeline r) in eff_ret Returned
  | Some (MonitorEnded (Ok MonitorCancelled)) => eff_err JobCancelled
  | Some (MonitorEnded (Err e)) => eff_err e
  | Some (MonitorEnded Panic) => pure Panic
  end.

(** From the prepared tables to the start of the race. *)
Definition start_loop (self : PostgresCloudberryJob) (report : PreflightReport) (prepared : PreparedRun)
    (script : RunScript) : Job (CloudberryTransactionSink * Loop) :=
  do! cancelled := is_cancelled env in
  if cancelled : bool then eff_err JobCancelled
  else
    do! _ := tell (checkpoint_initialized (nc_applied_lsn (pn_checkpoint prepared))) in
    do! snapshot_generation := pure (i64_generation self) in
    do! _ := update_control (fun a => complete_pipeline_rebuilds (an_now a) (jb_pipeline_id self) snapshot_generation) in
    do! started := hand_over self report prepared script in
    do! _ := tell (set_phase CatchingUp) in
    do! _ := tell mark_running in
    do! _ := connect parses env (jb_source_dsn self) RoleSource in
    eff_ret started.

Definition start_replication (self : PostgresCloudberryJob) (report : PreflightReport) (prepared : PreparedRun)
    (script : RunScript) : Job RunEnd :=
  do! started := start_loop self report prepared script in
  let '(sink, st) := started in
  do! ended := race self (rn_slot (job_names self)) sink (rs_events script) st in
  finish self ended.1.

Definition run_standalone (self : PostgresCloudberryJob) (script : RunScript) : Job RunEnd :=
  do! report := set_up self in
  do! prepared := prepare_or_rebuild self report in
  match prepared with
  | None => eff_ret Returned
  | Some prepared => start_replication self report prepared script
  end.

Definition by_topology (self : PostgresCloudberryJob) (script : RunScript) : Job RunEnd :=
  match sp_topology (jb_source self) with
  | Standalone => run_standalone self script
  | PhysicalHa => eff_err (UnsupportedTopology "physical_ha")
  | Citus => eff_err (UnsupportedTopology "citus")
  end.

(** [PipelineJob::run]. *)
Definition run (self : PostgresCloudberryJob) (script : RunScript) : Eff World SupervisorError RunEnd := fun w =>
  match (do! _ := tell (set_phase Validating) in by_topology self script) w with
  | (Ok ended, w) => (Ok ended, w)
  | (Panic, w) => (Panic, w)
  | (Err error, w) =>
      let text := RuntimeJobError_to_string debug_str error in
      match error with
      | JobCancelled =>
          let (r, w) := tell (set_phase Stopped) w in (match r with Panic => Panic | _ => Ok Returned end, w)
      | _ =>
          let (r, w) := tell (mark_failed (an_now (env (w_step w))) text) w in
          (match r with Panic => Panic | _ => Err (TaskError text) end, w)
      end
  end.

(** *** The factory *)

Section resolve.
Context (is_object : Value -> bool) (source_from_value : Value -> string + SourceSettings)
  (target_from_value : Value -> string + TargetSettings) (pipeline_from_value : Value -> string + PipelineSettings)
  (from_utf8 : bytes -> string + string) (open : bytes -> bytes -> bytes -> bytes -> option bytes)
  (master_key : MasterKey).

(** The checks of the profiles, and what the job is made of. *)
Definition resolved_job (pipeline : PipelineDefinition) (lease : PipelineLease) (source : SourceProfile)
    (target : TargetProfile) : result RuntimeJobError PostgresCloudberryJob :=
  if negb (sp_enabled source) then Err SourceDisabled
  else if negb (tp_enabled target) then Err TargetDisabled
  else
    let? topology_generation := try_u64 (pd_snapshot_generation pipeline) InvalidSnapshotGeneration in
    if (topology_generation =? 0)%Z then Err InvalidSnapshotGeneration
    else
      let? source_settings :=
        map_err JobSettings
          (parse_value is_object source_from_value SourceSettings_validate "source" (sp_settings source)) in
      let? target_settings :=
        map_err JobSettings
          (parse_value is_object target_from_value TargetSettings_validate "target" (tp_settings target)) in
      let? pipeline_settings :=
        map_err JobSettings
          (parse_value is_object pipeline_from_value PipelineSettings_validate "pipeline" (pd_settings pipeline)) in
      let? _ := map_err JobSettings (validate_with_source pipeline_settings source_settings) in
      let? source_dsn :=
        map_err JobCrypto
          (decrypt from_utf8 open master_key (sp_encrypted_dsn source)
             (bytes_of_string (source_credential_aad (sp_id source)))) in
      let? target_dsn :=
        map_err JobCrypto
          (decrypt from_utf8 open master_key (tp_encrypted_dsn target)
             (bytes_of_string (target_credential_aad (tp_id target)))) in
      Ok (mkJob (pd_id pipeline) topology_generation
            (mkPipelineFence (pd_id pipeline) topology_generation (pl_fencing_token lease))
            source target source_settings target_settings pipeline_settings source_dsn target_dsn).

Definition resolve (pipeline : PipelineDefinition) (lease : PipelineLease) : Job PostgresCloudberryJob :=
  if negb (pd_id pipeline =? pl_pipeline_id lease)%Z then eff_err LeaseMismatch
  else
    do! sources := query_control list_sources in
    do! source :=
      pure (ok_or (List.find (fun source => (sp_id source =? pd_source_id pipeline)%Z) sources)
              (MissingSource (id_to_string (pd_source_id pipeline)))) in
    do! targets := query_control (fun db => Ok (list_targets db)) in
    do! target :=
      pure (ok_or (List.find (fun target => (tp_id target =? pd_target_id pipeline)%Z) targets)
              (MissingTarget (id_to_string (pd_target_id pipeline)))) in
    pure (resolved_job pipeline lease source target).

(** [PipelineJobFactory::create]: the error becomes its text. *)
Definition create_job (pipeline : PipelineDefinition) (lease : PipelineLease)
    : Eff World string PostgresCloudberryJob :=
  eff_map_err (RuntimeJobError_to_string debug_str) (resolve pipeline lease).
End resolve.
End run.
