(* ===== verification/JobRebuild.v ===== *)
(** * When a run asks for a rebuild

    What [run_standalone] of [JobRun] does with a checkpoint that no resumption serves any more,
    with a schema barrier of the loop and with the verdict of the WAL monitor: the request for a
    rebuild is stored, and nothing else asks for one.  The conditions are stated of the servers
    and of the outcome of the race, not of the errors the code sorts. *)

From S2P Require Import Prelude Effects Core Schema Decimal Mapping Change Batch Sql Source Wal TargetSchema Checkpoint Apply Pipeline Telemetry PgOutput Sink Replicate EndToEnd Settings Planning Catalog Publication SlotSnapshot Ddl Store Supervisor Snapshot Manifest Load Activation Cleanup Errors Setup Job JobRun.

(** The pipeline has the next snapshot generation, and the operation that asks for it is open. *)
Definition rebuild_requested (pipeline_id : Z) (before after : ControlDb) : Prop := exists p p' operation_id operation,
  cd_pipelines before !! pipeline_id = Some p /\ cd_pipelines after !! pipeline_id = Some p' /\
  pd_snapshot_generation p' = (pd_snapshot_generation p + 1)%Z /\
  cd_operations after !! operation_id = Some operation /\ op_pipeline_id operation = Some pipeline_id /\
  op_operation_type operation = "rebuild" /\ op_state operation = "requested" /\
  detail_generation (op_detail operation) = Some (pd_snapshot_generation p').

(** What keeps a request from being stored. *)
Definition store_failure (e : RuntimeJobError) : Prop :=
  match e with JobStore _ | MissingPipelineForRebuild => True | _ => False end.

(** A request can be stored: the pipeline is there, its generation is not the last one, and the
    identifier of the operation is new. *)
Definition requestable (pipeline_id operation_id : Z) (db : ControlDb) : Prop := exists p,
  cd_pipelines db !! pipeline_id = Some p /\ (pd_snapshot_generation p < i64_max)%Z /\
  cd_operations db !! operation_id = None.

Lemma request_pipeline_rebuild_spec now operation_id pipeline_id db r db' :
  request_pipeline_rebuild now operation_id pipeline_id db = (r, db') ->
  match r with
  | Ok (Some _) => rebuild_requested pipeline_id db db'
  | Ok None | Err _ => ~ requestable pipeline_id operation_id db
  | Panic => False
  end.
Proof.
  unfold request_pipeline_rebuild, requestable. intros H.
  destruct (cd_pipelines db !! pipeline_id) as [p|] eqn:Ep; [|injection H as <- <-; by intros (? & ? & _)].
  destruct (Z.ltb_spec i64_max (pd_snapshot_generation p + 1)).
  { injection H as <- <-. intros (p' & [= <-] & ? & _). lia. }
  destruct (cd_operations db !! operation_id) eqn:Eo; [injection H as <- <-; by intros (? & _ & _ & ?)|].
  injection H as <- <-. do 4 eexists. split; [exact Ep|]. split; [apply lookup_insert_eq|]. split; [done|].
  split; [apply lookup_insert_eq|]. done.
Qed.

(** ** A checkpoint that cannot be resumed *)

(** The slot, whatever its positions, is the pipeline's own and idle. *)
Record usable (self : PostgresCloudberryJob) (slot : LogicalSlotState) : Prop := {
  us_plugin : ls_plugin slot = "pgoutput";
  us_idle : ls_active slot = false;
  us_database : ls_database slot = Some (sp_database_name (jb_source self));
  us_mode : ls_temporary slot = false /\ ls_two_phase slot = false /\ ls_failover slot = false /\
    ls_synced slot = false;
}.

Lemma validate_slot_usable self name slot :
  validate_slot self name slot = Ok tt <-> usable self slot.
Proof.
  split.
  - intros H. apply validate_slot_Ok in H as (? & ? & ? & ? & ? & ? & ?). by split.
  - intros [Hp Ha Hd (Ht & H2 & Hf & Hs)]. unfold validate_slot.
    by rewrite Ha, Ht, H2, Hf, Hs, !bool_decide_true by done.
Qed.

(** The slot does not hold the changes after [applied], or has given some of them up: it is
    invalidated, has no position to restart from, has confirmed more than was applied, or
    restarts after it. *)
Definition slot_lost (slot : LogicalSlotState) (applied : Z) : Prop :=
  ls_wal_status slot = Some "lost" \/ is_Some (ls_invalidation_reason slot) \/ ls_restart_lsn slot = None \/
  (exists text confirmed, ls_confirmed_flush_lsn slot = Some text /\ Lsn.from_str text = Ok confirmed /\
     (applied < confirmed)%Z) \/
  ((forall text, ls_confirmed_flush_lsn slot = Some text -> exists confirmed, Lsn.from_str text = Ok confirmed) /\
   exists text restart, ls_restart_lsn slot = Some text /\ Lsn.from_str text = Ok restart /\
     (applied < restart)%Z).

Definition asks {A} (r : result RuntimeJobError A) : bool :=
  match r with Err e => asks_for_rebuild e | _ => false end.

Lemma validate_positions_lost debug_str name slot checkpoint :
  asks (validate_positions debug_str name slot checkpoint) = true <-> slot_lost slot (nc_applied_lsn checkpoint).
Proof.
  unfold validate_positions, slot_lost. set (applied := nc_applied_lsn checkpoint).
  destruct (_ || _) eqn:E.
  { apply orb_true_iff in E as [E|E]; apply bool_decide_eq_true in E; cbn; tauto. }
  apply orb_false_iff in E as [E1%bool_decide_eq_false E2%bool_decide_eq_false].
  case_bool_decide as E3; [cbn; tauto|].
  assert (Hrestart : forall confirmed, parse_optional_lsn (ls_confirmed_flush_lsn slot) = Ok confirmed ->
    asks (let? restart := parse_optional_lsn (ls_restart_lsn slot) in
          match restart with
          | Some restart => if (applied <? restart)%Z then Err WalLost else Ok tt
          | None => Ok tt
          end) = true <->
    (forall text, ls_confirmed_flush_lsn slot = Some text -> exists confirmed, Lsn.from_str text = Ok confirmed) /\
     exists text restart, ls_restart_lsn slot = Some text /\ Lsn.from_str text = Ok restart /\ (applied < restart)%Z).
  { intros confirmed Hc. assert (Hread : forall text, ls_confirmed_flush_lsn slot = Some text ->
      exists confirmed, Lsn.from_str text = Ok confirmed).
    { intros text Ht. apply parse_optional_lsn_Ok in Hc as [[? _]|(text' & l & Ht' & _ & Hl)]; [congruence|].
      rewrite Ht in Ht'. injection Ht' as <-. eauto. }
    destruct (ls_restart_lsn slot) as [text|]; [|done]. cbn [parse_optional_lsn].
    destruct (Lsn.from_str text) as [l|e|] eqn:El; cbn [map_err mbind result_bind];
      [|split; [done|]; intros (_ & ? & ? & [= <-] & ? & _); congruence..].
    destruct (Z.ltb_spec applied l); (split; [intros H1|]); [|done|done|].
    - split; [done|]. exists text, l. split_and!; [done..|lia].
    - intros (_ & ? & l' & [= <-] & Hl' & ?). rewrite El in Hl'. injection Hl' as <-. lia. }
  destruct (ls_confirmed_flush_lsn slot) as [text|] eqn:Ec; cbn [parse_optional_lsn] in *.
  - destruct (Lsn.from_str text) as [l|e|] eqn:El; cbn [map_err mbind result_bind] in *.
    + destruct (Z.ltb_spec applied l) as [Hl|Hl].
      * split; [|done]. intros _. right. right. right. left. exists text, l. done.
      * rewrite (Hrestart _ eq_refl). split; [tauto|]. intros [?|[?|[?|[(? & ? & [= <-] & Hl' & ?)|?]]]]; [done..| |done].
        rewrite El in Hl'. injection Hl' as <-. lia.
    + split; [done|]. intros [?|[?|[?|[(? & ? & [= <-] & ? & _)|[Hr _]]]]]; [done..|congruence|].
      destruct (Hr _ eq_refl). congruence.
    + split; [done|]. intros [?|[?|[?|[(? & ? & [= <-] & ? & _)|[Hr _]]]]]; [done..|congruence|].
      destruct (Hr _ eq_refl). congruence.
  - cbn [mbind result_bind]. rewrite (Hrestart _ eq_refl). split; [tauto|].
    intros [?|[?|[?|[(? & ? & [=] & _)|?]]]]; done.
Qed.

Lemma servable_positions debug_str name slot checkpoint :
  servable slot (nc_applied_lsn checkpoint) -> validate_positions debug_str name slot checkpoint = Ok tt.
Proof.
  intros [Hs Hr (text & restart & Ht & Hl & Hle) Hc]. unfold validate_positions.
  rewrite bool_decide_false, Hr, bool_decide_false by (done || by intros [? [=]]). cbn [orb].
  rewrite Ht, bool_decide_false by done. cbn [parse_optional_lsn]. rewrite Hl.
  destruct (ls_confirmed_flush_lsn slot) as [c|]; cbn [parse_optional_lsn].
  - destruct (Hc _ eq_refl) as (confirmed & -> & Hcle). cbn. destruct (Z.ltb_spec (nc_applied_lsn checkpoint) confirmed); [lia|].
    cbn. by destruct (Z.ltb_spec (nc_applied_lsn checkpoint) restart); [lia|].
  - cbn. by destruct (Z.ltb_spec (nc_applied_lsn checkpoint) restart); [lia|].
Qed.

(** The servers a resumption asks, one after the other: the slot, the inventory of the tables,
    the publication.  [failed n] is the failure of the [n]th question, [server n] the source
    when it is answered. *)
Section servers.
Context (self : PostgresCloudberryJob) (sha256 : bytes -> bytes) (to_vec : Value -> bytes).
Context (names : ReplicationNames) (failed : nat -> option string) (server : nat -> SourceServer).

Definition slot_answer (slot : option LogicalSlotState) : Prop :=
  failed 0 = None /\ inspect_logical_slot (server 0) (rn_slot names) = Ok slot.

(** The tables of the source, planned. *)
Definition tables_answer (tables : list RuntimeTable) : Prop :=
  failed 1 = None /\ exists inventory, inspect_tables (server 1) (catalog_options self) = Ok inventory /\
    plan_inventory sha256 to_vec self inventory = Ok tables.

(** The publication is not seen to be the one of the tables. *)
Definition publication_unconfirmed (tables : list RuntimeTable) : Prop := exists publication,
  PublicationSpec_new (rn_publication names) (source_names tables) = Ok publication /\
  (is_Some (failed 2) \/ exists e, validate_publication (server 2) publication None = Err e).

(** No resumption serves changes after [applied] any more: the slot is gone, or it is the
    pipeline's own but has lost them, or it has them and the publication is not confirmed. *)
Inductive unservable (applied : Z) : Prop :=
| slot_is_gone :
    slot_answer None -> unservable applied
| slot_is_lost slot :
    slot_answer (Some slot) -> usable self slot -> slot_lost slot applied -> unservable applied
| publication_drifted slot tables :
    slot_answer (Some slot) -> usable self slot -> servable slot applied ->
    tables_answer tables -> publication_unconfirmed tables -> unservable applied.
End servers.

(** The checkpoint was written of this server, through the slot of these names. *)
Definition of_this_server (report : PreflightReport) (names : ReplicationNames) (checkpoint : NodeCheckpoint) : Prop :=
  nc_system_identifier checkpoint = si_system_identifier (pr_identity report) /\
  nc_timeline checkpoint = si_timeline (pr_identity report) /\ nc_slot_name checkpoint = rn_slot names.

(** ** Which preparations end with an error that asks for a rebuild *)

(** No run of [m] ends with an error that asks for a rebuild. *)
Definition plain {A} (m : Job A) : Prop := forall w, asks (m w).1 = false.

Lemma asks_map_err {E A} (g : E -> RuntimeJobError) (m : result E A) :
  (forall e, asks_for_rebuild (g e) = false) -> asks (map_err g m) = false.
Proof. intros H. destruct m; cbn; auto. Qed.

Lemma asks_bind {A B} (m : Job A) (k : A -> Job B) w :
  asks (eff_bind m k w).1 = true <->
  asks (m w).1 = true \/ exists a w1, m w = (Ok a, w1) /\ asks (k a w1).1 = true.
Proof.
  unfold eff_bind. destruct (m w) as [[a|e|] w1]; cbn.
  - split; [intros H; right; eauto|]. intros [|(? & ? & [= <- <-] & H)]; done.
  - split; [auto|]. by intros [|(? & ? & [=] & _)].
  - split; [auto|]. by intros [|(? & ? & [=] & _)].
Qed.

Lemma asks_after_plain {A B} (m : Job A) (k : A -> Job B) w :
  plain m ->
  asks (eff_bind m k w).1 = true <-> exists a w1, m w = (Ok a, w1) /\ asks (k a w1).1 = true.
Proof. intros H. rewrite asks_bind, (H w). naive_solver. Qed.

Lemma plain_bind {A B} (m : Job A) (k : A -> Job B) : plain m -> (forall a, plain (k a)) -> plain (eff_bind m k).
Proof.
  intros Hm Hk w. apply not_true_is_false. rewrite asks_after_plain by done. intros (a & w1 & _ & H).
  by rewrite Hk in H.
Qed.

Lemma plain_ret {A} (a : A) : plain (eff_ret a).
Proof. done. Qed.
Lemma plain_get : plain get.
Proof. done. Qed.
Lemma plain_err {A} (e : RuntimeJobError) : asks_for_rebuild e = false -> plain (eff_err (A := A) e).
Proof. by intros H w. Qed.
Lemma plain_pure {A} (m : result RuntimeJobError A) : asks m = false -> plain (pure m).
Proof. by intros H w. Qed.
Lemma plain_map_err {E A} (g : E -> RuntimeJobError) (m : Eff World E A) :
  (forall e, asks_for_rebuild (g e) = false) -> plain (eff_map_err g m).
Proof. intros H w. unfold eff_map_err. destruct (m w) as [r w1]. by apply asks_map_err. Qed.
Lemma plain_if {A} (b : bool) (m k : Job A) : plain m -> plain k -> plain (if b then m else k).
Proof. by destruct b. Qed.
Lemma plain_failed {A} (o : option string) (f : string -> Job A) m :
  (forall message, plain (f message)) -> plain m ->
  plain (match o with Some message => f message | None => m end).
Proof. by destruct o. Qed.
Lemma plain_each {A} (f : A -> Job unit) l : (forall x, plain (f x)) -> plain (each f l).
Proof. intros H. induction l as [|x l IH]; [apply plain_ret|]. cbn [each]. by apply plain_bind. Qed.
Lemma plain_of_source {A} (m : result SourceError A) : plain (of_source m).
Proof. by apply plain_pure, asks_map_err. Qed.
Lemma plain_from_source {A} (m : Eff SourceServer SourceError A) : plain (from_source m).
Proof. by apply plain_map_err. Qed.
Lemma plain_tell f : plain (tell f).
Proof. intros w. unfold tell. destruct (f _) as [[] ?]; done. Qed.

Create HintDb plain discriminated.
#[export] Hint Resolve plain_bind plain_ret plain_get plain_err plain_pure plain_map_err plain_if plain_failed
  plain_each plain_of_source plain_from_source plain_tell asks_map_err : plain.
#[export] Hint Extern 1 (asks_for_rebuild _ = false) => reflexivity : plain.

Lemma plain_plan_inventory sha256 to_vec self inventory : asks (plan_inventory sha256 to_vec self inventory) = false.
Proof.
  unfold plan_inventory. destruct (ti_rejected inventory); [|done].
  unfold try_u64. destruct (0 <=? _)%Z; [|done]. cbn [mbind result_bind].
  destruct (plan_tables _ _ _ _ _ _ _ _ _); [|done..]. cbn [map_err mbind result_bind].
  destruct (try_map _ _) as [accepted|e|] eqn:E; [by destruct accepted| |done].
  apply try_map_Err in E as (planned & _ & E). unfold runtime_table in E. cbn [mbind result_bind asks] in *.
  destruct (plan_snapshot_target _ _ _); cbn in E; [done| |done]. by injection E as <-.
Qed.

Lemma plain_validate_slot self name slot : asks (validate_slot self name slot) = false.
Proof. unfold validate_slot. by repeat case_match. Qed.

Section steps.
Context (sha256 : bytes -> bytes) (to_vec : Value -> bytes) (debug_str : string -> string) (parses : string -> bool)
  (text_order : list GroupTableRow -> list GroupTableRow)
  (row_order : list (QualifiedName * ManagedTableRow) -> list (QualifiedName * ManagedTableRow)) (role : string).
Context (env : nat -> Answer).

Lemma plain_answer : plain (answer env).
Proof. done. Qed.
Lemma plain_answer_within : plain (answer_within env).
Proof. done. Qed.
#[local] Hint Resolve plain_answer plain_answer_within plain_plan_inventory plain_validate_slot : plain.

Lemma plain_query_source {A} (f : SourceServer -> result SourceError A) : plain (query_source env f).
Proof. unfold query_source. auto with plain. Qed.

Lemma plain_transact {A E} (wrap : E -> RuntimeJobError) database (f : Answer -> TargetDb -> result E (A * TargetDb)) :
  (forall e, asks_for_rebuild (wrap e) = false) -> plain (transact env wrap database f).
Proof.
  intros H. apply plain_bind; [done|]. intros a w. destruct (f _ _) as [[x db]|e|]; [|by apply H|done].
  destruct (an_lost a) as [[]|]; [by apply H|done].
Qed.

Lemma plain_snapshot_transaction {A} (f : Answer -> TargetDb -> result SnapshotTargetError (A * TargetDb)) :
  plain (snapshot_transaction env f).
Proof. by apply plain_transact. Qed.

Lemma plain_connect dsn endpoint : plain (connect parses env dsn endpoint).
Proof. unfold connect. auto with plain. Qed.
#[local] Hint Resolve @plain_query_source @plain_snapshot_transaction plain_connect : plain.

Lemma plain_drop_slot name : plain (drop_slot_call env name).
Proof. unfold drop_slot_call. auto with plain. Qed.

Lemma plain_drop_orphan self name : plain (drop_orphan env self name).
Proof.
  unfold drop_orphan, slot_of. apply plain_bind; [auto with plain|]. intros []; [|auto with plain].
  apply plain_bind; [auto with plain|]. intros _. apply plain_drop_slot.
Qed.

Lemma plain_ensure_publication name tables : plain (job_ensure_publication role env name tables).
Proof. unfold job_ensure_publication. auto 8 with plain. Qed.

Lemma plain_rollback snapshot : plain (rollback_session env snapshot).
Proof. unfold rollback_session. auto with plain. Qed.

Lemma plain_open_snapshot self name : plain (open_snapshot parses env self name).
Proof.
  unfold open_snapshot. do 3 (apply plain_bind; [auto with plain|]; intros ?). cbv zeta.
  do 3 (apply plain_bind; [auto with plain|]; intros ?).
  destruct (mark_reader_ready _) as [r g]. apply plain_bind; [auto with plain|]. intros _.
  destruct (release g) as [r' g']. auto with plain.
Qed.
#[local] Hint Resolve plain_drop_slot plain_drop_orphan plain_ensure_publication plain_rollback plain_open_snapshot : plain.

Lemma plain_copy_table self snapshot group table : plain (copy_table sha256 text_order env self snapshot group table).
Proof.
  unfold copy_table, is_cancelled. apply plain_bind; [auto with plain|]. intros [|]; [auto with plain|]. cbv zeta.
  do 5 (apply plain_bind; [auto with plain|]; intros ?).
  apply plain_bind; [auto with plain|]. intros ?. apply plain_if.
  - apply plain_bind; [|auto with plain]. intros w. destruct (Load.rollback _ _). by apply asks_map_err.
  - destruct (copy_from_stream _ _ _ _) as [r apply]. do 2 (apply plain_bind; [auto with plain|]; intros ?).
    intros w. destruct (Load.commit _ _ _). by apply asks_map_err.
Qed.
#[local] Hint Resolve plain_copy_table : plain.

Lemma plain_load_snapshot self report names tables :
  plain (load_snapshot sha256 to_vec parses text_order env self report names tables).
Proof.
  unfold load_snapshot. apply plain_bind; [auto with plain|]. intros [slot_snapshot snapshot].
  do 3 (apply plain_bind; [auto with plain|]; intros ?). apply plain_if; [auto with plain|]. cbv zeta.
  repeat (apply plain_bind; [auto with plain|]; intros ?). auto with plain.
Qed.

Lemma plain_snapshot_and_activate self report names tables :
  plain (snapshot_and_activate sha256 to_vec debug_str parses text_order row_order env self report names tables).
Proof.
  intros w. unfold snapshot_and_activate, eff_bind at 1, attempt.
  pose proof (plain_load_snapshot self report names tables w) as Hl.
  destruct (load_snapshot _ _ _ _ _ _ _ _ _ w) as [[[prepared request]|e|] w1]; cbn in Hl; [| |done].
  - apply (plain_bind (activate _ _ _ _ _) (fun _ => eff_ret prepared)); [|auto with plain].
    unfold activate. auto with plain.
  - unfold clean_up_slot, eff_bind, attempt. by destruct (drop_slot_call _ _ w1) as [[] ?].
Qed.
#[local] Hint Resolve plain_snapshot_and_activate : plain.

Lemma initial_never_asks self report names :
  plain (prepare_initial_snapshot sha256 to_vec debug_str parses text_order row_order role env self report names).
Proof. unfold prepare_initial_snapshot. auto 10 with plain. Qed.
End steps.

(** ** Resuming *)

Section resuming.
Context (sha256 : bytes -> bytes) (to_vec : Value -> bytes) (debug_str : string -> string)
  (text_order : list GroupTableRow -> list GroupTableRow) (env : nat -> Answer).

Lemma query_source_iff {A} (f : SourceServer -> result SourceError A) w x w' :
  query_source env f w = (Ok x, w') <->
  an_failed (env (w_step w)) = None /\ f (w_source (others env 1 w)) = Ok x /\ w' = others env 1 w.
Proof.
  unfold query_source, answer, eff_bind, eff_err, get, of_source, pure. cbn [others].
  destruct (an_failed _); [split; [done|by intros (? & _)]|].
  split; [intros [= H <-]; apply map_err_Ok in H; done|].
  intros (_ & H & ->). by rewrite H.
Qed.

(** The query of the publication alone turns its own failures into a drift. *)
Lemma drift_asks {A} (f : SourceServer -> result SourceError A) (g : RuntimeJobError -> RuntimeJobError) w :
  (forall e, asks_for_rebuild (g (JobSource e)) = true) ->
  asks (eff_map_err g (query_source env f) w).1 = true <->
  is_Some (an_failed (env (w_step w))) \/ exists e, an_failed (env (w_step w)) = None /\ f (w_source (others env 1 w)) = Err e.
Proof.
  intros Hg. unfold eff_map_err, query_source, answer, eff_bind, eff_err, get, of_source, pure. cbn [others].
  destruct (an_failed _) as [m|].
  { cbn. rewrite Hg. split; [by left; eexists|done]. }
  destruct (f _) as [x|e|]; cbn; rewrite ?Hg.
  - split; [done|]. by intros [[? [=]]|(? & _ & [=])].
  - split; [by right; exists e|done].
  - split; [done|]. by intros [[? [=]]|(? & _ & [=])].
Qed.

(** The answers a resumption that starts in [w] gets. *)
Definition asked_failures (w : World) (n : nat) : option string := an_failed (env (n + w_step w)).
Definition asked_servers (w : World) (n : nat) : SourceServer := w_source (others env (S n) w).

Lemma resume_asks self report names checkpoint w :
  asks (prepare_resume sha256 to_vec debug_str text_order env self report names checkpoint w).1 = true <->
  of_this_server report names checkpoint /\
  unservable self sha256 to_vec names (asked_failures w) (asked_servers w) (nc_applied_lsn checkpoint).
Proof.
  unfold prepare_resume, of_this_server.
  destruct (_ || _) eqn:E1.
  { apply orb_true_iff in E1. rewrite !negb_true_iff, !Z.eqb_neq in E1. split; [done|]. naive_solver. }
  apply orb_false_iff in E1 as [E1 E2]. rewrite negb_false_iff, Z.eqb_eq in E1, E2.
  case_bool_decide as E3; [|split; [done|naive_solver]]. cbn [negb].
  rewrite asks_after_plain by apply plain_query_source. unfold slot_of. setoid_rewrite query_source_iff.
  split.
  - intros (slot & w1 & (Hf & Hs & ->) & H). split; [done|]. destruct slot as [slot|]; [|by apply slot_is_gone].
    cbn [ok_or] in H. rewrite asks_bind in H. destruct H as [H|(slot' & w1 & [= <- <-] & H)]; [done|].
    rewrite asks_bind in H. destruct H as [H|([] & w1 & [= Hu <-] & H)]; [by cbn [pure fst] in H; rewrite plain_validate_slot in H|].
    apply validate_slot_usable in Hu. rewrite asks_bind in H. destruct H as [H|([] & w1 & [= Hp <-] & H)].
    { apply (slot_is_lost _ _ _ _ _ _ _ slot); [done..|]. by apply (validate_positions_lost debug_str (rn_slot names)). }
    apply validate_positions_Ok in Hp. apply asks_after_plain in H as (inventory & w2 & Hi & H); [|apply plain_query_source].
    apply query_source_iff in Hi as (Hf2 & Hi & ->).
    rewrite asks_bind in H. destruct H as [H|(tables & w2 & [= Ht <-] & H)]; [by cbn [pure fst] in H; rewrite plain_plan_inventory in H|].
    rewrite asks_bind in H. destruct H as [H|(spec & w2 & Hspec & H)]; [by rewrite plain_of_source in H|].
    apply of_source_Ok in Hspec as [Hspec ->].
    rewrite asks_bind, drift_asks in H by done. destruct H as [H|(state & w2 & _ & H)].
    + apply (publication_drifted _ _ _ _ _ _ _ slot tables); [done..| |].
      * split; [exact Hf2|]. by exists inventory.
      * exists spec. split; [done|]. destruct H as [H|(e & _ & H)]; [by left|right; by exists e].
    + rewrite asks_after_plain in H by apply plain_snapshot_transaction. by destruct H as (? & ? & _ & H).
  - intros [_ H]. destruct H as [[Hf Hs]|slot [Hf Hs] Hu Hl|slot tables [Hf Hs] Hu Hl [Hf2 (inventory & Hi & Ht)] (spec & Hspec & Hd)].
    + exists None, (others env 1 w). split; [done|]. done.
    + exists (Some slot), (others env 1 w). split; [done|]. cbn [ok_or]. rewrite asks_bind. right.
      exists slot, (others env 1 w). split; [done|]. apply (validate_slot_usable _ (rn_slot names)) in Hu.
      rewrite asks_bind. right. exists tt, (others env 1 w). split; [by unfold pure; rewrite Hu|].
      rewrite asks_bind. left. by apply validate_positions_lost.
    + exists (Some slot), (others env 1 w). split; [done|]. cbn [ok_or]. rewrite asks_bind. right.
      exists slot, (others env 1 w). split; [done|]. apply (validate_slot_usable _ (rn_slot names)) in Hu.
      rewrite asks_bind. right. exists tt, (others env 1 w). split; [by unfold pure; rewrite Hu|].
      rewrite asks_bind. right. exists tt, (others env 1 w).
      split; [by unfold pure; rewrite (servable_positions debug_str (rn_slot names) _ _ Hl)|].
      rewrite asks_bind. right. exists inventory, (others env 2 w). split; [by apply query_source_iff|].
      rewrite asks_bind. right. exists tables, (others env 2 w). split; [by unfold pure; rewrite Ht|].
      rewrite asks_bind. right. exists spec, (others env 2 w). split; [by unfold of_source, pure; rewrite Hspec|].
      rewrite asks_bind. left. apply drift_asks; [done|].
      destruct Hd as [Hd|(e & He)]; [by left|].
      destruct (an_failed (env (w_step (others env 2 w)))) eqn:Ef; [left; by eexists|]. right. by exists e.
Qed.
End resuming.

(** ** Running *)

Section rebuilds.
Context (env : nat -> Answer) (self : PostgresCloudberryJob).

(** A run that asks for a rebuild in [w] ends so: the request is stored when the store lets it
    and its reply arrives, and otherwise the error is the store's. *)
Record asked (w : World) (r : result RuntimeJobError RunEnd) (w' : World) : Prop := {
  as_stored :
    an_lost (env (w_step w)) = None ->
    requestable (jb_pipeline_id self) (an_uuid (env (w_step w))) (an_control (env (w_step w)) (w_control w)) ->
    r = Ok Returned;
  as_returned :
    r = Ok Returned ->
    rebuild_requested (jb_pipeline_id self) (an_control (env (w_step w)) (w_control w)) (w_control w');
  as_failed : r <> Ok Returned -> exists e, r = Err e /\ store_failure e;
}.

Lemma request_asks reason w r w' :
  (do! _ := request_rebuild env self reason in eff_ret Returned) w = (r, w') -> asked w r w'.
Proof.
  unfold request_rebuild, update_control, eff_bind, answer, pure, eff_ret. intros H.
  destruct (request_pipeline_rebuild _ _ _ _) as [r1 db] eqn:E. apply request_pipeline_rebuild_spec in E.
  cbn [interfered w_control] in E. destruct (an_lost _) as [[message executed]|] eqn:El.
  { injection H as <- <-. split; [by rewrite El|done|]. intros _. by eexists. }
  destruct r1 as [[request|]|e|]; cbn in H; [| | |done]; injection H as <- <-; split; try done; by eexists.
Qed.

(** The same, after the reason has been recorded: recording a long text may panic. *)
Lemma degraded_asks reason w r w' :
  (do! _ := tell (mark_degraded reason) in do! _ := request_rebuild env self reason in eff_ret Returned) w = (r, w') ->
  match trim_error (E := string) reason with Panic => r = Panic | _ => asked w r w' end.
Proof.
  unfold eff_bind at 1, tell, mark_degraded, with_mut_error. intros H.
  destruct (trim_error reason); cbn beta iota zeta in H; [| |by injection H];
    apply request_asks in H as [H1 H2 H3]; by split.
Qed.

Section ends.
Context (sha256 : bytes -> bytes) (to_vec : Value -> bytes) (debug_str : string -> string)
  (debug_strings : list string -> string) (quote_ident : string -> string) (parses : string -> bool)
  (text_order : list GroupTableRow -> list GroupTableRow)
  (row_order : list (QualifiedName * ManagedTableRow) -> list (QualifiedName * ManagedTableRow))
  (log_order : list (Z * QualifiedName * LogRow) -> list (Z * QualifiedName * LogRow))
  (timestamp_micros : Z -> option Z) (from_slice : bytes -> result string DdlEnvelope)
  (migrations : list Migration) (role : string).
Notation prepare := (prepare sha256 to_vec debug_str parses text_order row_order role env self).
Notation start_loop := (start_loop parses timestamp_micros from_slice env self).
Notation start_replication := (start_replication debug_str debug_strings parses timestamp_micros from_slice env self).
Notation run_standalone := (run_standalone sha256 to_vec debug_str debug_strings quote_ident parses text_order
  row_order log_order timestamp_micros from_slice migrations role env self).
Notation set_up := (set_up sha256 quote_ident parses text_order row_order log_order migrations env self).
Notation race := (race debug_str debug_strings env self (rn_slot (job_names self))).

(** The target holds a checkpoint of this server, through this slot, and no resumption serves it
    any more. *)
Definition snapshot_needed (report : PreflightReport) (w : World) : Prop := exists stored,
  an_failed (env (w_step w)) = None /\
  load_node_checkpoint (sd_meta (w_target (others env 1 w))) (job_key self) = Ok (Some stored) /\
  of_this_server report (job_names self) (snc_checkpoint stored) /\
  unservable self sha256 to_vec (job_names self) (asked_failures env (others env 1 w))
    (asked_servers env (others env 1 w)) (nc_applied_lsn (snc_checkpoint stored)).

Lemma stored_checkpoint_iff w x w' :
  stored_checkpoint env self w = (Ok x, w') <->
  an_failed (env (w_step w)) = None /\ load_node_checkpoint (sd_meta (w_target (others env 1 w))) (job_key self) = Ok x /\
  w' = others env 1 w.
Proof.
  unfold stored_checkpoint, answer, eff_bind, eff_err, get, pure. cbn [others].
  destruct (an_failed _); [split; [done|by intros (? & _)]|].
  split; [intros [= H <-]; apply map_err_Ok in H; done|]. intros (_ & H & ->). by rewrite H.
Qed.

Lemma prepare_asks report w : asks (prepare report w).1 = true <-> snapshot_needed report w.
Proof.
  unfold JobRun.prepare, snapshot_needed. rewrite asks_after_plain.
  2: { unfold stored_checkpoint. apply plain_bind; [done|]. auto with plain. }
  setoid_rewrite stored_checkpoint_iff.
  assert (Htell : forall phase (m : Job PreparedRun) w1,
    asks ((do! _ := tell (set_phase phase) in m) w1).1 = asks (m (put_telemetry (set_phase phase (w_telemetry w1)).2 w1)).1)
    by done.
  split.
  - intros ([stored|] & w1 & (Hf & Hl & ->) & H); rewrite Htell in H; [|by rewrite initial_never_asks in H].
    apply resume_asks in H as [Hs H]. exists stored. split_and!; [done..|]. by destruct H; econstructor; eauto.
  - intros (stored & Hf & Hl & Hs & H). exists (Some stored), (others env 1 w). split; [done|]. rewrite Htell.
    apply resume_asks. split; [done|]. by destruct H; econstructor; eauto.
Qed.

(** How a run ends whose race ended with [outcome] in [w]. *)
Definition ends_as (outcome : option RunOutcome) (w : World) (r : result RuntimeJobError RunEnd) (w' : World) : Prop :=
  match outcome with
  | Some (LoopEnded (Err (SchemaBarrier reason))) | Some (MonitorEnded (Ok (MonitorRebuild reason))) =>
      match trim_error (E := string) reason with Panic => r = Panic | _ => asked w r w' end
  | Some (LoopEnded (Ok tt)) => r = Ok Returned /\ w' = w
  | Some (LoopEnded (Err e)) => r = Err (JobPipeline e) /\ w' = w
  | Some (MonitorEnded (Ok MonitorCancelled)) => r = Err JobCancelled /\ w' = w
  | Some (MonitorEnded (Err e)) => r = Err e /\ w' = w
  | Some (LoopEnded Panic) | Some (MonitorEnded Panic) => r = Panic /\ w' = w
  | None => r = Ok StillRunning /\ w' = w
  end.

Lemma finish_ends outcome w r w' : finish env self outcome w = (r, w') -> ends_as outcome w r w'.
Proof.
  destruct outcome as [[[[]|[]|]|[[|reason]|e|]]|]; cbn [finish ends_as]; intros H;
    try (exact (degraded_asks _ _ _ _ H)); by injection H as <- <-.
Qed.

End ends.
End rebuilds.

(** ** Witness: the slot has disappeared *)

Definition example_pipeline : PipelineDefinition := mkPipelineDefinition 5 "shop" 1 2 true 3 1 VNull 0 0.

(** The slot is gone after the first run, and its process too. *)
Definition slotless_world : World :=
  put_control (set_pipelines {[ 5%Z := example_pipeline ]} (w_control first_world))
    (put_source (with_slots (delete (rn_slot example_names)) (w_source first_world)) first_world).
Definition idle_script : RunScript := mkRunScript [] [] ∅ [] [].

Definition example_set_up : result RuntimeJobError PreflightReport * World :=
  set_up name_digest id (fun _ => true) by_bytes (fun l => l) (fun l => l) [] calm example_job slotless_world.
Definition example_prepare : result RuntimeJobError PreparedRun * World :=
  match example_set_up with
  | (Ok report, w) =>
      prepare name_digest (fun _ => []) (fun _ => EmptyString) (fun _ => true) by_bytes (fun l => l) "etl" calm
        example_job report w
  | (_, w) => (Panic, w)
  end.
Definition slotless_run : result RuntimeJobError RunEnd * World :=
  run_standalone name_digest (fun _ => []) (fun _ => EmptyString) (fun _ => EmptyString) id (fun _ => true) by_bytes
    (fun l => l) (fun l => l) Some (fun _ => Err "no message") [] "etl" calm example_job idle_script slotless_world.

Definition returned (r : result RuntimeJobError RunEnd) : bool := match r with Ok Returned => true | _ => false end.
Example slotless_run_returns :
  is_ok example_set_up.1 = true /\ returned slotless_run.1 = true /\
  match example_prepare.1 with Err (MissingSlot _) => true | _ => false end = true.
Proof. split_and!; vm_compute; reflexivity. Qed.

