(* ===== verification/JobInvariant.v ===== *)
(** * The slot never passes the checkpoint

    The invariant that makes a pipeline restartable: the position a slot has confirmed is never
    after the position the target has durably applied, so that the source still sends whatever
    the target lacks.  It holds throughout [run] of [crates/engine/src/runtime/job.rs] - whichever
    call fails, whichever reply is lost, wherever the run is cancelled - and with it the next
    run never finds the slot ahead of the target. *)

From S2P Require Import Prelude Effects Core Schema Decimal Mapping Change Batch Sql Source Wal TargetSchema Checkpoint Apply Pipeline Telemetry PgOutput Sink Replicate EndToEnd Settings Planning Catalog Publication SlotSnapshot Ddl Store Supervisor Snapshot Manifest Load Activation Cleanup Errors Setup Job JobSlots JobRun.

(** ** Lemmas: what the target keeps *)

Section cleaning.
Context (refused : string -> option string) (sha256 : bytes -> bytes)
  (text_order : list GroupTableRow -> list GroupTableRow)
  (row_order : list (QualifiedName * ManagedTableRow) -> list (QualifiedName * ManagedTableRow))
  (log_order : list (Z * QualifiedName * LogRow) -> list (Z * QualifiedName * LogRow)) (now : Z).

Lemma cleanup_locked_meta request db outcome db' :
  cleanup_loading_snapshot_group_locked refused sha256 text_order row_order request db = Ok (outcome, db') ->
  sd_meta db' = sd_meta db.
Proof.
  unfold cleanup_loading_snapshot_group_locked. intros H. apply bind_Ok in H as (stored & _ & H).
  apply bind_Ok in H as (? & _ & H). destruct (negb _) in H; [done|]. apply bind_Ok in H as (shadows & _ & H).
  apply bind_Ok in H as (? & _ & H). apply bind_Ok in H as (db1 & H1 & H).
  apply drop_shadows_Ok in H1 as (_ & [Hm _ _ _] & _).
  apply bind_Ok in H as (db2 & H2 & H). apply bind_Ok in H as (db3 & H3 & H). apply bind_Ok in H as (g & _ & H).
  apply bind_Ok in H as (db4 & H4 & H). injection H as _ <-.
  by rewrite (delete_group_rows_Ok _ _ _ _ _ _ _ _ _ _ H2 H3 H4).
Qed.

Lemma cleanup_meta fence db outcomes db' :
  cleanup_stale_snapshot_groups refused sha256 text_order row_order fence db = Ok (outcomes, db') ->
  sd_meta db' = sd_meta db.
Proof.
  unfold cleanup_stale_snapshot_groups. destruct (_ <=? _)%Z; [done|]. intros H.
  apply bind_Ok in H as (g & _ & H). apply bind_Ok in H as (u & _ & H). revert H.
  apply (foldM_ind _ (fun _ st => sd_meta st.2 = sd_meta db)); [done|].
  intros before row [o1 d1] [o2 d2] Hd _ H. cbn in *. apply bind_Ok in H as (t & _ & H).
  apply bind_Ok in H as (v & _ & H). apply bind_Ok in H as ([o d] & Hc & H). injection H as _ <-.
  apply cleanup_locked_meta in Hc. congruence.
Qed.

Lemma collection_meta fence policy db outcome db' :
  garbage_collect_quarantined_tables refused sha256 log_order now fence policy db = Ok (outcome, db') ->
  sd_meta db' = sd_meta db.
Proof.
  unfold garbage_collect_quarantined_tables. intros H. apply bind_Ok in H as ([retention|] & _ & H).
  2: { by injection H as _ <-. }
  destruct (_ <=? _)%Z in H; [done|]. apply bind_Ok in H as (u & _ & H). apply bind_Ok in H as ([d db1] & H1 & H).
  injection H as _ <-. revert H1.
  apply (foldM_ind _ (fun _ st => sd_meta st.2 = sd_meta db)); [done|].
  intros before [key row] [o1 d1] [o2 d2] Hd _ H. cbn in *.
  apply collect_quarantine_Ok in H as (r & mrow & row' & _ & _ & _ & _ & _ & _ & _ & _ & _ & ->). exact Hd.
Qed.
End cleaning.

(** ** Lemmas: the calls that keep the slot and the checkpoint *)

Section keeping.
Context (sha256 : bytes -> bytes) (to_vec : Value -> bytes) (debug_str : string -> string)
  (debug_strings : list string -> string) (quote_ident : string -> string) (parses : string -> bool)
  (text_order : list GroupTableRow -> list GroupTableRow)
  (row_order : list (QualifiedName * ManagedTableRow) -> list (QualifiedName * ManagedTableRow))
  (log_order : list (Z * QualifiedName * LogRow) -> list (Z * QualifiedName * LogRow))
  (timestamp_micros : Z -> option Z) (from_slice : bytes -> result string DdlEnvelope)
  (migrations : list Migration) (role : string).
Context (env : nat -> Answer) (slot : string) (key : CheckpointKey).
Hypothesis Hquiet : quiet env slot key.
Notation keeps := (keeps slot key).

(** What depends on the slot's position and on the checkpoint only. *)
Definition stable (I : World -> Prop) : Prop := forall w w',
  checkpoint_of key w' = checkpoint_of key w ->
  confirmed_of slot (w_source w') = confirmed_of slot (w_source w) -> I w -> I w'.
Lemma keeps_stable {A} (m : Job A) I : keeps m -> stable I -> preserves I m.
Proof.
  intros Hm HI w r w' Hw H. eapply Hm in H as [Hc Hs]; [|split; reflexivity]. by eapply HI.
Qed.

(** A step that touches neither the source nor the target. *)
Lemma keeps_elsewhere {A} (m : Job A) :
  (forall w r w', m w = (r, w') -> w_source w' = w_source w /\ w_target w' = w_target w) -> keeps m.
Proof.
  intros Hm c o w r w' [Hc Hs] H. apply Hm in H as [H1 H2]. split; [|by rewrite H1].
  unfold checkpoint_of in *. by rewrite H2.
Qed.

Lemma keeps_tell f : keeps (tell f).
Proof. apply keeps_elsewhere. intros w r w' H. unfold tell in H. destruct (f _). by injection H as <- <-. Qed.

Lemma keeps_update {A} (f : Answer -> ControlDb -> result StoreError A * ControlDb) : keeps (update_control env f).
Proof.
  apply keeps_bind; [by apply keeps_answer|]. intros a. apply keeps_elsewhere. intros w r w' H.
  destruct (f a _) as [r1 db]. destruct (an_lost a) as [[m []]|]; by injection H as <- <-.
Qed.

Lemma keeps_request_rebuild self reason : keeps (request_rebuild env self reason).
Proof.
  apply keeps_bind; [apply keeps_update|]. intros rebuild. apply keeps_bind; [apply keeps_pure|].
  intros _. apply keeps_ret.
Qed.

Lemma keeps_zoom {S E A} (part : World -> S) put (g : E -> RuntimeJobError) (m : Eff S E A) :
  (forall x w, w_source (put x w) = w_source w /\ w_target (put x w) = w_target w) ->
  keeps (eff_map_err g (zoom part put m)).
Proof.
  intros Hput. apply keeps_elsewhere. intros w r w' H. unfold eff_map_err, zoom in H.
  destruct (m (part w)) as [r1 x]. injection H as _ <-. apply Hput.
Qed.

Lemma keeps_fence self : keeps (take_fence env self).
Proof.
  intros c o w r w' Hs H. unfold take_fence, transact in H.
  unfold eff_bind in H. destruct (answer env w) as [[a|e|] w1] eqn:E1; [|done..].
  pose proof (keeps_answer env slot key Hquiet c o _ _ _ Hs E1) as Hs1.
  destruct (activate_pipeline_fence _ _) as [meta|e|] eqn:Ef; cbn [mbind result_bind] in H; [|by injection H as <- <-..].
  apply activate_pipeline_fence_Ok in Ef as [Hm _].
  assert (same slot key c o (put_target (with_meta (fun _ => meta) (w_target w1)) w1)) as Hnew.
  { destruct Hs1 as [Hc Hss]. split; [|done]. unfold checkpoint_of in *. cbn. by rewrite Hm. }
  destruct (an_lost a) as [[m []]|]; by injection H as <- <-.
Qed.

Lemma keeps_set_up self :
  keeps (set_up sha256 quote_ident parses text_order row_order log_order migrations env self).
Proof.
  unfold set_up. apply keeps_bind; [by apply keeps_connect|]. intros _. apply keeps_bind; [by apply keeps_connect|].
  intros _. apply keeps_bind; [by apply keeps_query|]. intros report. apply keeps_bind; [apply keeps_pure|]. intros _.
  apply keeps_bind.
  { apply keeps_bind; [by apply keeps_answer|]. intros a. destruct (an_failed a); [apply keeps_err|apply keeps_pure]. }
  intros _. apply keeps_bind.
  { apply keeps_bind; [by apply keeps_answer|]. intros a. by apply keeps_zoom. }
  intros _. apply keeps_bind; [apply keeps_fence|]. intros _. apply keeps_bind.
  { apply keeps_bind.
    { apply keeps_transact; [done|]. intros a db x db'. by apply cleanup_meta. }
    intros _. apply keeps_bind; [apply keeps_pure|]. intros policy. apply keeps_bind; [|intros _; apply keeps_ret].
    apply keeps_transact; [done|]. intros a db x db'. by apply collection_meta. }
  intros _. apply keeps_bind; [|intros _; apply keeps_ret].
  apply keeps_bind; [by apply keeps_answer|]. intros a. apply keeps_bind; [by apply keeps_zoom|]. intros _. apply keeps_ret.
Qed.

Lemma keeps_resume self report names checkpoint :
  keeps (prepare_resume sha256 to_vec debug_str text_order env self report names checkpoint).
Proof.
  unfold prepare_resume. destruct (_ || _); [apply keeps_err|]. destruct (negb _); [apply keeps_err|].
  apply keeps_bind; [by apply keeps_query|]. intros o. do 3 (apply keeps_bind; [apply keeps_pure|]; intros ?).
  apply keeps_bind; [by apply keeps_query|]. intros inventory. apply keeps_bind; [apply keeps_pure|]. intros tables.
  apply keeps_bind; [apply keeps_of_source|]. intros publication. apply keeps_bind.
  { intros c o'. apply preserves_map_err. by apply keeps_query. }
  intros _. apply keeps_bind; [|intros _; apply keeps_ret]. apply keeps_transact; [done|].
  intros answered db x db' H. apply bind_Ok in H as (g & _ & H). by injection H as _ <-.
Qed.

Lemma keeps_hand_over self report prepared script :
  keeps (hand_over timestamp_micros from_slice env self report prepared script).
Proof.
  unfold hand_over. apply keeps_bind; [by apply keeps_answer|]. intros a. apply keeps_bind; [apply keeps_of_source|].
  intros _. apply keeps_bind; [by apply keeps_answer|]. intros a'.
  do 2 (apply keeps_bind; [apply keeps_of_source|]; intros ?).
  do 4 (apply keeps_bind; [apply keeps_pure|]; intros ?).
  apply keeps_bind; [apply keeps_get|]. intros w. apply keeps_ret.
Qed.

Lemma keeps_finish self outcome : keeps (finish env self outcome).
Proof.
  assert (Hr : forall reason, keeps
    (do! _ := tell (mark_degraded reason) in do! _ := request_rebuild env self reason in eff_ret Returned)).
  { intros reason. apply keeps_bind; [apply keeps_tell|]. intros _. apply keeps_bind; [apply keeps_request_rebuild|].
    intros _. apply keeps_ret. }
  assert (Hp : forall r : result PipelineError unit, keeps (do! _ := pure (map_err JobPipeline r) in eff_ret Returned)).
  { intros r. apply keeps_bind; [apply keeps_pure|]. intros _. apply keeps_ret. }
  destruct outcome as [[[u|[]|]|[[|reason]|e|]]|]; cbn [finish];
    first [apply Hr|apply Hp|apply keeps_err|apply keeps_pure|apply keeps_ret].
Qed.
End keeping.

(** ** Lemmas: a source that reports what it was acknowledged *)

(** Nothing the server was told is after the durable position. *)
Record reporting (identity : SourceNodeIdentity) (s : PgOutputTransactionSource) : Prop := {
  rp_inv : source_inv identity s;
  rp_durable : Lsn.valid (durable_applied_lsn s);
  rp_delivered : Forall Lsn.valid (delivered_commits s);
  rp_sent : forall status, last (sent (po_transport s)) = Some status ->
    Lsn.valid (flush_lsn status) /\ (flush_lsn status <= durable_applied_lsn s)%Z;
}.

Lemma fetched_reporting identity s r s' : reporting identity s -> fetched identity s r s' -> reporting identity s'.
Proof.
  intros [Hi Hd Hv Hs] [Hi' Hd' [n Hs'] Hv' He]. split; [done|by rewrite Hd'| |].
  - rewrite Hv', Forall_app. split; [done|]. apply Forall_map. eapply Forall_impl; [exact He|]. by intros t [_ ?].
  - intros status Hlast. rewrite Hs' in Hlast. rewrite Hd'. destruct n as [|n].
    + rewrite app_nil_r in Hlast. by apply Hs.
    + rewrite replicate_S_end, app_assoc, last_snoc in Hlast. injection Hlast as <-. cbn. by split.
Qed.

Section reporting.
Context (source_error_text : SourceError -> string) (identity : SourceNodeIdentity).

Lemma acknowledge_reporting s p r s' :
  reporting identity s -> pgoutput_acknowledge source_error_text s p = (r, s') -> reporting identity s'.
Proof.
  intros Hr H. destruct Hr as [Hi Hd Hv Hs] eqn:E. clear E.
  destruct (acknowledge_spec source_error_text identity _ _ _ _ Hi H) as [[Hval Hi' Hd' Hs' Hdel]|(_ & -> & _)]; [|done].
  apply (validate_acknowledgement_Ok _ _ _ Hi) in Hval as (_ & _ & Hin).
  assert (Lsn.valid (lsn p)) as Hp by by eapply Forall_forall in Hin.
  split; [done|by rewrite Hd'| |].
  - apply Forall_forall. intros l Hl. apply Hdel in Hl. by eapply Forall_forall in Hl.
  - intros status Hlast. rewrite Hs', last_snoc in Hlast. injection Hlast as <-. cbn. by rewrite Hd'.
Qed.

#[export] Instance reporting_laws :
  @TransactionSourceLaws PgOutputTransactionSource (pgoutput_source source_error_text)
    (reporting identity) (of_node identity).
Proof.
  split; cbn.
  - intros s r s' Hs H. eapply fetched_reporting; [exact Hs|]. eapply next_fetched; [apply Hs|exact H].
  - intros s t s' Hs H. apply (next_proper (TransactionSourceLaws := pgoutput_laws source_error_text identity) s t s'); [apply Hs|exact H].
  - intros s r s' Hs H. apply (next_keeps_durable (TransactionSourceLaws := pgoutput_laws source_error_text identity) s r s'); [apply Hs|exact H].
  - intros n s Hs. eapply fetched_reporting; [exact Hs|]. apply interrupted_fetched, Hs.
  - intros n s Hs. apply (interrupted_keeps_durable (TransactionSourceLaws := pgoutput_laws source_error_text identity)), Hs.
  - intros s p r s' Hs H. by eapply acknowledge_reporting.
  - intros s p r s' Hs H. apply (acknowledge_durable (TransactionSourceLaws := pgoutput_laws source_error_text identity) s p r s'); [apply Hs|exact H].
Qed.
End reporting.

(** ** The loop next to the monitor *)

Lemma load_same_key m m' key :
  m_node_checkpoints m !! key = m_node_checkpoints m' !! key ->
  load_node_checkpoint m key = load_node_checkpoint m' key.
Proof.
  intros H. unfold load_node_checkpoint. destruct (Checkpoint.database_generation (ck_topology_generation key)) as [g|e|] eqn:Hg; cbn; [|done..].
  apply Checkpoint.database_generation_Ok in Hg as [-> _]. unfold read_checkpoint. by rewrite key_eta, H.
Qed.

Section racing.
Context (debug_str : string -> string) (debug_strings : list string -> string).
Context (env : nat -> Answer) (slot : string) (key : CheckpointKey).
Hypothesis Hquiet : quiet env slot key.
Context (sink : CloudberryTransactionSink) (identity : SourceNodeIdentity) (start : Z).
Hypothesis Hkey : sink_key sink STANDALONE_NODE_ID = key.
Hypothesis Hgeneration : (0 <= pf_topology_generation (cts_fence sink))%Z.
Hypothesis Hnode : sni_node_id identity = STANDALONE_NODE_ID.
Hypothesis Hsystem : (0 <= sni_system_identifier identity <= u64_max)%Z.
Hypothesis Htimeline : (0 <= sni_timeline identity <= u32_max)%Z.

#[local] Hint Extern 0 (TransactionSource PgOutputTransactionSource) =>
  exact (pgoutput_source SourceError_to_string) : typeclass_instances.
#[local] Hint Extern 0 (TransactionSink Connection) =>
  exact (cloudberry_sink ApplyError_to_string debug_strings sink STANDALONE_NODE_ID) : typeclass_instances.
#[local] Hint Extern 0 (TransactionSinkLaws Connection _) =>
  exact (cloudberry_laws ApplyError_to_string debug_strings sink STANDALONE_NODE_ID) : typeclass_instances.

#[local] Instance racing_source_laws :
  TransactionSourceLaws PgOutputTransactionSource (reporting identity) (of_sink sink STANDALONE_NODE_ID).
Proof.
  apply (source_laws_weaken _ _ _ (reporting_laws SourceError_to_string identity)).
  intros t. rewrite <- Hnode. by apply of_node_of_sink.
Qed.

(** The position the target has applied. *)
Definition applied_to (meta : Meta) : option Z :=
  checkpointed_lsn sink STANDALONE_NODE_ID (mkDatabase meta ∅).

Definition reached (bound : Z) (rs : list SourceTransaction) (cs : list TransactionBatch) (conn : Connection) : Prop :=
  exists l, applied_to (db_meta (cn_database conn)) = Some l /\ (bound <= l)%Z.

Notation ok bound := (loop_ok (reporting identity) (of_sink sink STANDALONE_NODE_ID) start (reached bound)).

Lemma reached_received bound rs cs db t :
  reached bound rs cs db -> of_sink sink STANDALONE_NODE_ID t -> reached bound (rs ++ [t]) cs db.
Proof. done. Qed.
Lemma reached_apply bound rs cs db batch rest r db' :
  reached bound rs cs db -> Forall (of_sink sink STANDALONE_NODE_ID) rs ->
  rs = concat (map transactions cs) ++ transactions batch ++ rest ->
  Pipeline.apply db batch = (r, db') -> reached bound rs (cs ++ (if is_ok r then [batch] else [])) db'.
Proof.
  intros (l & Hl & Hle) Hp Hs Ha. rewrite Hs, !Forall_app in Hp. destruct Hp as (_ & Hp & _).
  destruct (apply_monotone db batch r db' l Hp Ha Hl) as (l' & Hl' & Hle'). exists l'. split; [exact Hl'|lia].
Qed.

(** The bound may be any position that has been reached. *)
Lemma ok_bound bound bound' st rest l :
  ok bound st rest -> applied_to (db_meta (cn_database (lo_db st))) = Some l -> (bound' <= l)%Z -> ok bound' st rest.
Proof. intros [Hi Hp Hs Hw Hc _] Hl Hle. split; [done..|]. by exists l. Qed.

(** The loop on the metadata as it is now. *)
Definition synced (w : World) (st : Loop) : Loop :=
  mkLoopState (lo_source st) (on_metadata (sd_meta (w_target w)) (lo_db st)) (lo_batcher st)
    (lo_telemetry st) (lo_received st) (lo_committed st).

(** What the slot has confirmed is applied. *)
Definition confirmed_applied (w : World) : Prop :=
  forall text lsn, confirmed_of slot (w_source w) = Some (Some text) -> Lsn.from_str text = Ok lsn ->
    exists l, applied_to (sd_meta (w_target w)) = Some l /\ (lsn <= l)%Z.

Lemma same_applied w w' : checkpoint_of key w' = checkpoint_of key w ->
  applied_to (sd_meta (w_target w')) = applied_to (sd_meta (w_target w)).
Proof.
  intros H. unfold applied_to, checkpointed_lsn. rewrite Hkey. cbn [db_meta]. by rewrite (load_same_key _ _ key H).
Qed.

Lemma stable_confirmed : stable slot key confirmed_applied.
Proof. intros w w' Hk Hs H text lsn Hc Hl. rewrite (same_applied _ _ Hk). rewrite Hs in Hc. by eapply H. Qed.

Lemma stable_ok st rest : stable slot key (fun w => ok start (synced w st) rest).
Proof.
  intros w w' Hk _. pose proof (same_applied _ _ Hk) as E.
  intros [Hi Hp Hs Hw [Hd Hc] (l & Hl & Hle)]. split; [exact Hi|exact Hp|exact Hs|exact Hw| |].
  - split; [exact Hd|]. destruct Hc as [Hc|(l' & Hl' & Hle')]; [by left|right]. exists l'. split; [|exact Hle'].
    etrans; [exact E|exact Hl'].
  - exists l. split; [|exact Hle]. etrans; [exact E|exact Hl].
Qed.

Lemma stable_interfered I n w : stable slot key I -> I w -> I (interfered (env n) w).
Proof.
  intros HI. apply HI; [|apply (qu_slot _ _ _ Hquiet)]. apply (qu_checkpoint _ _ _ Hquiet).
Qed.

Lemma covered_position st rest l : ok start st rest -> applied_to (db_meta (cn_database (lo_db st))) = Some l ->
  (durable_applied_lsn (lo_source st) <= l)%Z.
Proof.
  intros [_ _ _ _ [_ [Hc|(l1 & Hl1 & Hle)]] (l2 & Hl2 & Hle2)] Hl; cbn in *.
  - rewrite Hl in Hl2. injection Hl2 as <-. lia.
  - change (applied_to (db_meta (cn_database (lo_db st))) = Some l1) in Hl1. rewrite Hl in Hl1. injection Hl1 as <-. lia.
Qed.

(** A step of the loop: the applied position does not go back. *)
Lemma step_ok clock ev st q st' l :
  ok start st (pending (lo_batcher st)) -> applied_to (db_meta (cn_database (lo_db st))) = Some l ->
  loop_step clock ev st = (q, st') ->
  exists rest l', ok start st' rest /\ applied_to (db_meta (cn_database (lo_db st'))) = Some l' /\ (l <= l')%Z /\
    (q = None -> rest = pending (lo_batcher st')).
Proof.
  intros Hok Hl Hs. pose proof (lk_client _ _ _ _ _ _ Hok) as (l0 & Hl0 & Hle0). rewrite Hl in Hl0. injection Hl0 as <-.
  apply (ok_bound _ l _ _ l) in Hok; [|done|lia].
  pose proof (loop_step_ok (reporting identity) (of_sink sink STANDALONE_NODE_ID) clock start (reached l)
    (reached_received l) (reached_apply l) ev st q st' Hok Hs) as Hp.
  assert (exists rest, ok l st' rest /\ (q = None -> rest = pending (lo_batcher st'))) as (rest & Hok' & Hrest).
  { destruct q; [destruct Hp as (rest & Hp & _); by exists rest|]. by eexists. }
  pose proof (lk_client _ _ _ _ _ _ Hok') as (l' & Hl' & Hle'). exists rest, l'. split_and!; [|done..].
  apply (ok_bound _ _ _ _ l' Hok'); [done|lia].
Qed.

Lemma loop_turn_ok ev st w r w' :
  confirmed_applied w -> ok start (synced w st) (pending (lo_batcher st)) ->
  loop_turn debug_strings env slot sink ev st w = (r, w') ->
  exists q st', r = Ok (q, st') /\ confirmed_applied w' /\
    (q = None -> ok start (synced w' st') (pending (lo_batcher st'))).
Proof.
  intros Hc Hok H. unfold loop_turn in H. unfold eff_bind, answer in H.
  set (n := w_step w) in *. apply (stable_interfered _ n w stable_confirmed) in Hc.
  apply (stable_interfered _ n w (stable_ok st _)) in Hok.
  set (w1 := interfered (env n) w) in *. change (mkLoopState (lo_source st) _ _ _ _ _) with (synced w1 st) in H.
  destruct (loop_step _ ev (synced w1 st)) as [q st1] eqn:Hs.
  pose proof (lk_client _ _ _ _ _ _ Hok) as (l0 & Hl0 & _).
  destruct (step_ok _ ev (synced w1 st) q st1 l0 Hok Hl0 Hs) as (rest & l & Hok1 & Hl & Hle & Hrest).
  set (w2 := put_target (with_meta (fun _ => db_meta (cn_database (lo_db st1))) (w_target w1)) w1) in *.
  assert (Hsync : forall w3, w_target w3 = w_target w2 -> q = None -> ok start (synced w3 st1) (pending (lo_batcher st1))).
  { intros w3 E Hq. rewrite <- (Hrest Hq). unfold synced. rewrite E. cbn. by destruct st1 as [? [[] ? ?] ? ? ? ?]. }
  pose proof (covered_position _ _ _ Hok1 Hl) as Hdur.
  assert (Hc2 : confirmed_applied w2).
  { intros text lsn Ht Hf. destruct (Hc text lsn Ht Hf) as (l1 & Hl1 & Hle1). exists l. split; [exact Hl|].
    change (applied_to (sd_meta (w_target w1)) = Some l0) in Hl0. rewrite Hl0 in Hl1. injection Hl1 as <-. lia. }
  destruct (last _) as [status|] eqn:Hlast; [destruct (an_lost _) eqn:Hlost|]; injection H as <- <-; exists q, st1;
    (split; [done|]); (split; [|by apply Hsync]); try exact Hc2.
  destruct (rp_sent _ _ (lk_source _ _ _ _ _ _ Hok1) _ Hlast) as [Hval Hflush].
  intros text lsn Ht Hf. exists l. split; [exact Hl|]. unfold confirmed_of in Ht. cbn in Ht.
  rewrite lookup_alter_eq in Ht. destruct (sv_slots _ !! slot); [|done]. injection Ht as <-.
  rewrite Lsn.from_str_to_string in Hf by done. injection Hf as <-. lia.
Qed.

(** The loop may take its turn. *)
Definition ready (st : Loop) (w : World) : Prop :=
  confirmed_applied w /\ ok start (synced w st) (pending (lo_batcher st)).

Lemma stable_ready st : stable slot key (ready st).
Proof. intros w w' Hk Hs [H1 H2]. split; [by eapply stable_confirmed|by eapply stable_ok]. Qed.

Lemma keeps_tick self : keeps slot key (monitor_tick debug_str env self slot).
Proof.
  apply keeps_bind; [by apply keeps_query|]. intros o. apply keeps_bind; [apply keeps_pure|]. intros state.
  destruct (assess_wal_retention _ _ _); (apply keeps_bind; [apply keeps_tell|]); intros _; apply keeps_ret.
Qed.

Lemma drop_loop_ok inflight st :
  ensures (ready st) (drop_loop debug_strings env slot sink inflight st) (fun _ => confirmed_applied).
Proof.
  destruct inflight as [ev|]; cbn [drop_loop]; [|by apply ensures_ret; intros w []].
  intros w r w' [Hc Hok] H. unfold eff_bind in H. destruct (loop_turn _ _ _ _ _ _ w) as [r1 w1] eqn:E1.
  destruct (loop_turn_ok _ _ _ _ _ Hc Hok E1) as (q & st' & -> & Hc1 & _). by injection H as <- <-.
Qed.

Lemma race_ok self events st :
  ensures (ready st) (race debug_str debug_strings env self slot sink events st) (fun _ => confirmed_applied).
Proof.
  revert st. induction events as [|ev events IH]; intros st; [by apply ensures_ret; intros w []|].
  destruct ev as [ev|inflight|inflight]; cbn [race].
  - intros w r w' [Hc Hok] H. unfold eff_bind in H. destruct (loop_turn _ _ _ _ _ _ w) as [r1 w1] eqn:E1.
    destruct (loop_turn_ok _ _ _ _ _ Hc Hok E1) as (q & st' & -> & Hc1 & Hok1).
    destruct q as [q|]; [by injection H as <- <-|]. eapply IH; [|exact H]. split; [done|by apply Hok1].
  - intros w r w' Hw H. unfold eff_bind, attempt in H. destruct (monitor_tick _ _ _ _ w) as [r1 w1] eqn:E1.
    eapply (keeps_stable slot key _ _ (keeps_tick self) (stable_ready st)) in E1; [|exact Hw].
    destruct r1 as [[outcome|]|e|]; [| | |injection H as <- <-; apply E1].
    + destruct (drop_loop _ _ _ _ _ _ w1) as [r2 w2] eqn:E2. eapply drop_loop_ok in E2; [|exact E1].
      destruct r2; by injection H as <- <-.
    + by eapply IH.
    + destruct (drop_loop _ _ _ _ _ _ w1) as [r2 w2] eqn:E2. eapply drop_loop_ok in E2; [|exact E1].
      destruct r2; by injection H as <- <-.
  - intros w r w' Hw H. unfold eff_bind in H.
    destruct (drop_loop _ _ _ _ _ _ w) as [r2 w2] eqn:E2. eapply drop_loop_ok in E2; [|exact Hw].
    destruct r2; by injection H as <- <-.
Qed.
End racing.

(** ** Lemmas: what a run starts from *)

Lemma Ok_inj {E A} (x y : A) : @Ok E A x = Ok y -> x = y.
Proof. congruence. Qed.

Lemma parse_digits_bound max acc s n : (acc <= max)%Z -> (0 <= acc)%Z -> parse_digits max acc s = Some n -> (0 <= n <= max)%Z.
Proof.
  revert acc. induction s as [|c s IH]; intros acc Hm H0 H; cbn [parse_digits] in H; [injection H as <-; lia|].
  destruct (_ && _) eqn:Hd; [|done]. apply andb_true_iff in Hd as [Hd _]. apply Z.leb_le in Hd.
  destruct (Z.leb_spec (acc * 10 + (Lsn.Z_of_ascii c - 48)) max); [|done]. eapply IH; [| |exact H]; lia.
Qed.
Lemma parse_uint_bound max s n : (0 <= max)%Z -> parse_uint max s = Some n -> (0 <= n <= max)%Z.
Proof.
  intros Hm H. destruct s as [|c rest]; [done|]. cbn [parse_uint] in H. case_bool_decide.
  - destruct rest; [done|]. by eapply parse_digits_bound; [| |exact H].
  - by eapply parse_digits_bound; [| |exact H].
Qed.

(** The identity of a source as preflight reads it. *)
Definition typed_identity (identity : SourceIdentity) : Prop :=
  (0 <= si_system_identifier identity <= u64_max)%Z /\ (0 <= si_timeline identity <= u32_max)%Z.

Lemma preflight_typed server options report :
  preflight server options = Ok report -> typed_identity (pr_identity report).
Proof.
  unfold preflight. intros H. apply bind_Ok in H as (v & _ & H). destruct (negb _) in H; [done|].
  apply bind_Ok in H as (v1 & _ & H). apply bind_Ok in H as (v2 & _ & H). destruct (negb _) in H; [done|].
  apply bind_Ok in H as (v3 & _ & H). destruct (_ && _) in H; [done|].
  apply bind_Ok in H as (v4 & _ & H). apply bind_Ok in H as (v5 & _ & H). apply bind_Ok in H as (v6 & _ & H).
  apply bind_Ok in H as (v7 & _ & H). destruct (_ && _) in H; [done|]. destruct (_ || _) in H; [done|].
  apply bind_Ok in H as (sys & Hsys & H). apply bind_Ok in H as (tl & Htl & H). injection H as <-.
  unfold parse_u64 in Hsys. apply ok_or_Ok in Hsys. apply parse_uint_bound in Hsys; [|done].
  unfold parse_u32_value in Htl. destruct (_ && _) eqn:Ht; [|done]. injection Htl as <-.
  apply andb_true_iff in Ht as [H1%Z.leb_le H2%Z.leb_le]. split; cbn; lia.
Qed.

(** What a server may send: positions are 64-bit. *)
Definition typed_item (item : ReplicationMessage) : Prop :=
  match item with XLogData (WCommit _ _ end_lsn _) => Lsn.valid end_lsn | _ => True end.

Lemma payload_no_commit from_slice decoder body c e ts f :
  decode_payload from_slice decoder body <> Ok (DCommit c e ts f).
Proof.
  intros H. destruct body; cbn [decode_payload] in H; try done;
    repeat match goal with H : mbind _ _ = Ok _ |- _ => apply bind_Ok in H as (? & _ & H) end; try done.
  case_bool_decide; [done|]. by apply bind_Ok in H as (? & _ & H).
Qed.

Lemma poll_items_typed timestamp_micros from_slice decoder items :
  Forall typed_item items -> Forall typed_message (poll_items timestamp_micros from_slice decoder items).
Proof.
  intros H. revert decoder. induction H as [|item items Hi _ IH]; intros decoder; cbn; [constructor|].
  destruct (poll_item _ _ decoder item) as [m d] eqn:Hp. constructor; [|apply IH].
  destruct m as [m| |]; [|done..]. destruct m; try done. cbn.
  destruct item as [body|wal_end sent_at reply|message|]; try done. cbn [poll_item] in Hp.
  destruct body; cbn [decode] in Hp; try (apply pair_equal_spec in Hp as [Hp _]; by apply payload_no_commit in Hp).
  - destruct (td_in_transaction _); [done|]. injection Hp as Hp _. by apply bind_Ok in Hp as (? & _ & Hp).
  - destruct (td_in_transaction _); [|done]. injection Hp as Hp _. apply bind_Ok in Hp as (? & _ & Hp).
    by injection Hp as _ <- _ _.
  - by destruct (decode_relation _ _ _ _ _ _).
Qed.

(** A job as the factory makes it, with settings that passed their validation. *)
Record proper_job (self : PostgresCloudberryJob) : Prop := {
  pj_fence : pf_topology_generation (jb_fence self) = jb_topology_generation self /\
    pf_pipeline_id (jb_fence self) = jb_pipeline_id self;
  pj_generation : (0 <= jb_topology_generation self)%Z;
  pj_limits : limits_ok (batch_limits (jb_pipeline_settings self)) /\
    (0 <= trs_max_changes (ss_transaction (jb_source_settings self)))%Z /\
    (0 <= trs_max_bytes (ss_transaction (jb_source_settings self)))%Z;
}.

(** The slot that is created answers with the position it was created at. *)
Definition honest (env : nat -> Answer) (slot : string) : Prop := forall n slot_snapshot,
  parse_create_slot_response (an_reply (env n)) slot = Ok slot_snapshot ->
  Lsn.from_str (an_point (env n)) = Ok (rs_consistent_point slot_snapshot).

(** What the slot has confirmed, the target has applied. *)
Definition position_ok (slot : string) (key : CheckpointKey) (w : World) : Prop := forall stored text lsn,
  read_checkpoint (sd_meta (w_target w)) key = Ok (Some stored) ->
  confirmed_of slot (w_source w) = Some (Some text) -> Lsn.from_str text = Ok lsn ->
  (lsn <= nc_applied_lsn (snc_checkpoint stored))%Z.

Lemma same_read key w w' : checkpoint_of key w' = checkpoint_of key w ->
  read_checkpoint (sd_meta (w_target w')) key = read_checkpoint (sd_meta (w_target w)) key.
Proof. unfold checkpoint_of, read_checkpoint. by intros ->. Qed.

Lemma stable_position slot key : stable slot key (position_ok slot key).
Proof. intros w w' Hk Hs H stored text lsn. rewrite (same_read _ _ _ Hk), Hs. apply H. Qed.

Section runs.
Context (sha256 : bytes -> bytes) (to_vec : Value -> bytes) (debug_str : string -> string)
  (debug_strings : list string -> string) (quote_ident : string -> string) (parses : string -> bool)
  (text_order : list GroupTableRow -> list GroupTableRow)
  (row_order : list (QualifiedName * ManagedTableRow) -> list (QualifiedName * ManagedTableRow))
  (log_order : list (Z * QualifiedName * LogRow) -> list (Z * QualifiedName * LogRow))
  (timestamp_micros : Z -> option Z) (from_slice : bytes -> result string DdlEnvelope)
  (migrations : list Migration) (role : string).
Hypothesis Hrows : forall l, row_order l ≡ₚ l.

Section job.
Context (env : nat -> Answer) (self : PostgresCloudberryJob).
Notation slot := (rn_slot (job_names self)).
Notation key := (job_key self).
Hypothesis Hquiet : quiet env slot key.
Hypothesis Hhonest : honest env slot.
Hypothesis Hproper : proper_job self.

(** The prepared run starts at the stored checkpoint. *)
Definition starts_at (prepared : PreparedRun) (w : World) : Prop :=
  position_ok slot key w /\ Lsn.valid (nc_applied_lsn (pn_checkpoint prepared)) /\
  exists token, read_checkpoint (sd_meta (w_target w)) key = Ok (Some (mkStoredNodeCheckpoint (pn_checkpoint prepared) token)).

Lemma stable_starts prepared : stable slot key (starts_at prepared).
Proof.
  intros w w' Hk Hs (H1 & H2 & H3). split; [by eapply stable_position|]. by rewrite (same_read _ _ _ Hk).
Qed.

(** A checkpoint stored by the activation is the position of its slot. *)
Lemma stored_starts report w checkpoint :
  typed_identity (pr_identity report) ->
  stored_with_slot env self report slot key w checkpoint ->
  position_ok slot key w /\ Lsn.valid (nc_applied_lsn checkpoint) /\
  exists token, read_checkpoint (sd_meta (w_target w)) key = Ok (Some (mkStoredNodeCheckpoint checkpoint token)).
Proof.
  intros [Hsys Htl] (text & snap & (n & -> & Hparse) & -> & Hc & Hread). apply Hhonest in Hparse.
  pose proof (proj1 (Lsn.lsn_parse_canonical _ _ Hparse)) as Hv.
  assert (typed (initial_checkpoint self report slot snap)) as Ht by by split; [apply Hproper|..].
  apply Hread in Ht. split_and!; [|exact Hv|by eexists]. intros stored text lsn Hr Hc' Hl. rewrite Ht in Hr.
  apply Ok_inj, (inj Some) in Hr. subst stored. rewrite Hc in Hc'. apply (inj Some), (inj Some) in Hc'. subst text.
  rewrite Hparse in Hl. apply Ok_inj in Hl. subst lsn. apply Z.le_refl.
Qed.

Lemma checkpoint_row_lsn k row stored : Checkpoint.checkpoint_from_row k row = Ok stored -> Lsn.valid (nc_applied_lsn (snc_checkpoint stored)).
Proof.
  unfold Checkpoint.checkpoint_from_row. intros H.
  apply bind_Ok in H as (g & _ & H). apply bind_Ok in H as (s & _ & H). apply bind_Ok in H as (t & _ & H).
  apply bind_Ok in H as (l & Hl & H). injection H as <-. apply map_err_Ok in Hl.
  by apply (proj1 (Lsn.lsn_parse_canonical _ _ Hl)).
Qed.

(** What a preparation leaves. *)
Definition prepared_ok (r : result RuntimeJobError PreparedRun) (w : World) : Prop :=
  match r with Ok prepared => starts_at prepared w | _ => position_ok slot key w end.

Lemma keeps_stored_checkpoint : keeps slot key (stored_checkpoint env self).
Proof.
  apply keeps_bind; [by apply keeps_answer|]. intros a. destruct (an_failed a); [apply keeps_err|].
  apply keeps_bind; [apply keeps_get|]. intros w2. apply keeps_pure.
Qed.
Lemma stored_checkpoint_Ok w stored w' :
  stored_checkpoint env self w = (Ok stored, w') -> read_checkpoint (sd_meta (w_target w')) key = Ok stored.
Proof.
  intros H. unfold stored_checkpoint in H. apply eff_bind_Ok in H as (a & w2 & _ & H). destruct (an_failed a); [done|].
  apply eff_bind_Ok in H as (w3 & w4 & Hg & H). injection Hg as <- <-. unfold pure in H. injection H as H <-.
  apply map_err_Ok in H. unfold load_node_checkpoint in H. apply bind_Ok in H as (g & Hg & H).
  apply Checkpoint.database_generation_Ok in Hg as [-> _]. by rewrite key_eta in H.
Qed.

Lemma no_checkpoint_position w : checkpoint_of key w = None -> position_ok slot key w.
Proof.
  intros Hn stored text lsn Hr. unfold checkpoint_of in Hn. unfold read_checkpoint in Hr. by rewrite Hn in Hr.
Qed.

Lemma resume_starts report stored :
  ensures (fun w => position_ok slot key w /\ read_checkpoint (sd_meta (w_target w)) key = Ok (Some stored))
    (prepare_resume sha256 to_vec debug_str text_order env self report (job_names self) (snc_checkpoint stored))
    prepared_ok.
Proof.
  intros w r w' [Hw Hread] H. pose (start := mkPreparedRun [] (snc_checkpoint stored)).
  assert (Hst : starts_at start w).
  { split; [done|]. cbn. split; [|by exists (snc_fencing_token stored); rewrite Hread; destruct stored].
    unfold read_checkpoint in Hread. destruct (_ !! _) as [row|]; [|done].
    apply bind_Ok in Hread as (st & Hst & Hread). injection Hread as ->. by eapply checkpoint_row_lsn. }
  pose proof (keeps_stable slot key _ _ (keeps_resume sha256 to_vec debug_str text_order env slot key Hquiet self report
    (job_names self) (snc_checkpoint stored)) (stable_starts start) _ _ _ Hst H) as Hend.
  destruct r as [prepared|e|]; [|apply Hend..].
  apply prepare_resume_Ok in H as [Hr _]. apply rr_checkpoint in Hr. cbn. unfold starts_at in *. by rewrite Hr.
Qed.

Lemma initial_starts report :
  typed_identity (pr_identity report) ->
  ensures (fun w => checkpoint_of key w = None)
    (prepare_initial_snapshot sha256 to_vec debug_str parses text_order row_order role env self report
       (job_names self))
    prepared_ok.
Proof.
  intros Htyped w r w' Hw H. apply first_run_left in H as [Hend Hr]; [|done..].
  destruct r as [prepared|e|]; [by apply (stored_starts report)|..];
    (destruct Hend as [Hend|(cp & Hst)]; [by apply no_checkpoint_position|by apply (stored_starts report) in Hst as [? _]]).
Qed.

Lemma prepare_ok report :
  typed_identity (pr_identity report) ->
  ensures (position_ok slot key)
    (prepare sha256 to_vec debug_str parses text_order row_order role env self report) prepared_ok.
Proof.
  intros Htyped w r w' Hw H. unfold prepare, eff_bind at 1 in H.
  destruct (stored_checkpoint env self w) as [r1 w1] eqn:E1.
  pose proof (keeps_stable slot key _ _ keeps_stored_checkpoint (stable_position slot key) _ _ _ Hw E1) as Hw1.
  destruct r1 as [stored|e|]; [|by injection H as <- <-..]. apply stored_checkpoint_Ok in E1.
  destruct stored as [stored|]; unfold eff_bind in H; destruct (tell _ w1) as [r2 w2] eqn:E2.
  - pose proof (keeps_tell slot key _ _ _ w1 _ _ (conj eq_refl eq_refl) E2) as [Hc Hs].
    assert (Hw2 : position_ok slot key w2) by by eapply stable_position.
    destruct r2 as [u|e|]; [|by injection H as <- <-..].
    eapply resume_starts; [|exact H]. split; [done|]. by rewrite (same_read _ _ _ Hc).
  - assert (Hn : checkpoint_of key w1 = None).
    { unfold read_checkpoint in E1. unfold checkpoint_of. destruct (_ !! _); [|done].
      by apply bind_Ok in E1 as (st & _ & E1). }
    pose proof (keeps_tell slot key _ _ _ w1 _ _ (conj eq_refl eq_refl) E2) as [Hc Hs]. rewrite Hn in Hc.
    destruct r2 as [u|e|]; [|injection H as <- <-; by apply no_checkpoint_position..].
    by eapply initial_starts; [..|exact H].
Qed.

(** *** Replicating *)

Lemma load_stored_checkpoint m : i64_generation self = Ok (jb_topology_generation self) ->
  load_node_checkpoint m key = read_checkpoint m key.
Proof.
  unfold i64_generation. destruct (Z.leb_spec (jb_topology_generation self) i64_max) as [Hle|]; [|done]. intros _.
  unfold load_node_checkpoint, Checkpoint.database_generation. cbn [ck_topology_generation job_key].
  by rewrite (proj2 (Z.leb_le _ _) Hle).
Qed.

Section replicating.
Context (report : PreflightReport) (sink : CloudberryTransactionSink).
Hypothesis Htyped : typed_identity (pr_identity report).
Hypothesis Hgeneration : i64_generation self = Ok (jb_topology_generation self).
Hypothesis Hfence : cts_fence sink = jb_fence self.
Notation identity :=
  (mkSourceNodeIdentity STANDALONE_NODE_ID (si_system_identifier (pr_identity report)) (si_timeline (pr_identity report))).

Lemma sink_key_is_key : sink_key sink STANDALONE_NODE_ID = key.
Proof. unfold sink_key, job_key. rewrite Hfence. by destruct (pj_fence _ Hproper) as [-> ->]. Qed.

Lemma applied_to_stored m : applied_to sink m =
  match read_checkpoint m key with Ok (Some stored) => Some (nc_applied_lsn (snc_checkpoint stored)) | _ => None end.
Proof. unfold applied_to, checkpointed_lsn. rewrite sink_key_is_key. cbn [db_meta]. by rewrite load_stored_checkpoint. Qed.

(** The two ways to say that the slot is not ahead. *)
Lemma position_confirmed w : (exists stored, read_checkpoint (sd_meta (w_target w)) key = Ok (Some stored)) ->
  position_ok slot key w -> confirmed_applied slot sink w.
Proof.
  intros [stored Hr] H text lsn Hc Hl. rewrite applied_to_stored, Hr. eexists. split; [done|]. by eapply H.
Qed.
Lemma confirmed_position w : confirmed_applied slot sink w -> position_ok slot key w.
Proof.
  intros H stored text lsn Hr Hc Hl. destruct (H text lsn Hc Hl) as (l & Ha & Hle).
  rewrite applied_to_stored, Hr in Ha. by injection Ha as ->.
Qed.

Lemma loop_starts prepared w source batcher :
  starts_at prepared w ->
  source_inv identity source -> durable_applied_lsn source = nc_applied_lsn (pn_checkpoint prepared) ->
  delivered_commits source = [] -> sent (po_transport source) = [] ->
  Batcher_new (batch_limits (jb_pipeline_settings self)) = Ok batcher ->
  forall tables drivers, ready debug_strings slot sink identity (nc_applied_lsn (pn_checkpoint prepared))
    (loop_start source (mkConnection (mkDatabase (sd_meta (w_target w)) tables) drivers false) batcher (Some [])) w.
Proof.
  intros (Hpos & Hv & token & Hread) Hi Hd Hdel Hsent Hb tables drivers. split.
  { apply position_confirmed; [by eexists|done]. }
  assert (Hr : reporting identity source).
  { split; [done|by rewrite Hd|by rewrite Hdel|]. intros status. by rewrite Hsent. }
  apply (loop_start_ok (HSrc := pgoutput_source SourceError_to_string)
    (HSnk := cloudberry_sink ApplyError_to_string debug_strings sink STANDALONE_NODE_ID) _ _ _ _ _ _ _ _ _ Hr
    Hd (proj1 (pj_limits _ Hproper)) Hb).
  eexists. split; [rewrite applied_to_stored; cbn; rewrite Hread; reflexivity|cbn; lia].
Qed.
End replicating.

(** What the loop is given. *)
Definition handed_over (report : PreflightReport) (prepared : PreparedRun)
    (started : CloudberryTransactionSink * Loop) (w : World) : Prop :=
  cts_fence started.1 = jb_fence self /\
  ready debug_strings slot started.1
    (mkSourceNodeIdentity STANDALONE_NODE_ID (si_system_identifier (pr_identity report)) (si_timeline (pr_identity report)))
    (nc_applied_lsn (pn_checkpoint prepared)) started.2 w.

Lemma transport_Ok refused items sends slot_name start_lsn publication_name transport :
  ReplicationTransport_start timestamp_micros from_slice refused items sends slot_name start_lsn publication_name = Ok transport ->
  transport = mkEventTransport (poll_items timestamp_micros from_slice Decoder_new items) sends [].
Proof.
  unfold ReplicationTransport_start. intros H. apply bind_Ok in H as (sql & _ & H).
  destruct (refused sql); [done|]. by injection H as <-.
Qed.

Lemma assembler_Ok identity limits assembler :
  Assembler_with_limits identity limits = Ok assembler ->
  assembler = mkTransactionAssembler identity limits None None ∅.
Proof. unfold Assembler_with_limits. intros H. apply bind_Ok in H as (u & _ & H). by injection H as <-. Qed.

Lemma hand_over_ok report prepared script :
  typed_identity (pr_identity report) -> i64_generation self = Ok (jb_topology_generation self) ->
  Forall typed_item (rs_items script) ->
  ensures (starts_at prepared) (hand_over timestamp_micros from_slice env self report prepared script)
    (fun r w => match r with Ok started => handed_over report prepared started w | _ => position_ok slot key w end).
Proof.
  intros Htyped Hgen Hitems w r w' Hw H.
  pose proof (keeps_stable slot key _ _ (keeps_hand_over timestamp_micros from_slice env slot key Hquiet self report
    prepared script) (stable_starts prepared) _ _ _ Hw H) as Hend.
  destruct r as [[sink st]|e|]; [|apply Hend..].
  unfold hand_over in H. apply eff_bind_Ok in H as (a & w1 & _ & H). apply eff_bind_Ok in H as (u & w2 & _ & H).
  apply eff_bind_Ok in H as (a' & w3 & _ & H).
  apply eff_bind_Ok in H as (transport & w4 & [Ht ->]%of_source_Ok & H). apply transport_Ok in Ht as ->.
  apply eff_bind_Ok in H as (assembler & w5 & [Ha ->]%of_source_Ok & H). apply assembler_Ok in Ha as ->.
  apply eff_bind_Ok in H as (bindings & w6 & [_ ->]%pure_Ok & H).
  apply eff_bind_Ok in H as (registry & w7 & [_ ->]%pure_Ok & H).
  apply eff_bind_Ok in H as (sink' & w8 & [Hs ->]%pure_Ok & H). apply map_err_Ok in Hs.
  apply eff_bind_Ok in H as (batcher & w9 & [Hb ->]%pure_Ok & H). apply map_err_Ok in Hb.
  apply eff_bind_Ok in H as (w10 & w11 & Hg & H). apply pair_equal_spec in Hg as [Hg ->]. apply Ok_inj in Hg as <-.
  apply pair_equal_spec in H as [Hr ->]. apply Ok_inj, pair_equal_spec in Hr as [<- <-].
  unfold Sink_new in Hs. destruct (_ || _); [done|]. apply Ok_inj in Hs as <-. split; [done|].
  apply loop_starts; try done. split; [done| |by apply poll_items_typed].
  split; [apply (pj_limits _ Hproper)|done].
Qed.

(** A step that keeps the slot and the checkpoint, and then one that need not. *)
Lemma stable_then {A B} I Q (m : Job A) (k : A -> Job B) :
  keeps slot key m -> stable slot key I -> (forall w, I w -> (forall e, Q (Err e) w) /\ Q Panic w) ->
  (forall a, ensures I (k a) Q) -> ensures I (eff_bind m k) Q.
Proof.
  intros Hm HI HQ Hk. eapply ensures_bind; [|exact Hk]. intros w r w' Hw H.
  pose proof (keeps_stable slot key _ _ Hm HI _ _ _ Hw H) as Hw'. destruct (HQ _ Hw'). destruct r; auto.
Qed.

Notation holds := (fun (_ : result RuntimeJobError RunEnd) => position_ok slot key).

Lemma handed_over_position report prepared started w :
  i64_generation self = Ok (jb_topology_generation self) ->
  handed_over report prepared started w -> position_ok slot key w.
Proof. intros Hgen [Hf [Hc _]]. by eapply confirmed_position. Qed.

Lemma stable_handed_over report prepared started : stable slot key (handed_over report prepared started).
Proof.
  intros w w' Hk Hs [Hf Hr]. split; [done|]. eapply stable_ready; [|exact Hk|exact Hs|exact Hr].
  by apply sink_key_is_key.
Qed.

(** The race, and what follows it. *)
Lemma race_position report prepared started events :
  typed_identity (pr_identity report) -> i64_generation self = Ok (jb_topology_generation self) ->
  ensures (handed_over report prepared started)
    (do! ended := race debug_str debug_strings env self slot started.1 events started.2 in finish env self ended.1)
    holds.
Proof.
  intros [Hs Ht] Hgen. eapply ensures_bind; [|intros ended; apply (keeps_stable slot key _ _
    (keeps_finish env slot key Hquiet self ended.1) (stable_position slot key))].
  intros w r w' [Hf Hr] H. apply (race_ok debug_str debug_strings env slot key Hquiet started.1
    (mkSourceNodeIdentity STANDALONE_NODE_ID (si_system_identifier (pr_identity report)) (si_timeline (pr_identity report)))
    (nc_applied_lsn (pn_checkpoint prepared))) in H; [..|exact Hr]; try done; [|by apply sink_key_is_key|].
  - apply (confirmed_position started.1) in H; [|done..]. by destruct r.
  - rewrite Hf. destruct (pj_fence _ Hproper) as [-> _]. apply Hproper.
Qed.

Lemma start_loop_ok report prepared script :
  typed_identity (pr_identity report) -> Forall typed_item (rs_items script) ->
  ensures (starts_at prepared)
    (start_loop parses timestamp_micros from_slice env self report prepared script)
    (fun r w => match r with Ok started => handed_over report prepared started w | _ => position_ok slot key w end).
Proof.
  intros Htyped Hitems. unfold start_loop.
  assert (Hfail : forall w, starts_at prepared w -> position_ok slot key w) by by intros w [].
  apply stable_then; [by apply keeps_cancelled|apply stable_starts|by auto|]. intros [|].
  { intros w r w' Hw H. injection H as <- <-. auto. }
  apply stable_then; [apply keeps_tell|apply stable_starts|by auto|]. intros _.
  destruct (i64_generation self) as [generation|e|] eqn:Hgen; [|by intros w r w' Hw [= <- <-]; auto..].
  assert (Hg : i64_generation self = Ok (jb_topology_generation self)).
  { unfold i64_generation in *. by destruct (_ <=? _)%Z. }
  apply stable_then; [apply keeps_pure|apply stable_starts|by auto|]. intros gen.
  apply stable_then; [by apply keeps_update|apply stable_starts|by auto|]. intros _.
  eapply ensures_bind.
  { intros w r w' Hw H. apply hand_over_ok in H; [|done..]. destruct r; exact H. }
  intros started.
  assert (Hready : forall w, handed_over report prepared started w -> position_ok slot key w)
    by by intros; eapply handed_over_position.
  do 2 (apply stable_then; [apply keeps_tell|apply stable_handed_over|by auto|]; intros _).
  apply stable_then; [by apply keeps_connect|apply stable_handed_over|by auto|]. intros _.
  by apply ensures_ret.
Qed.

Lemma started_generation report prepared script w started w' :
  start_loop parses timestamp_micros from_slice env self report prepared script w = (Ok started, w') ->
  i64_generation self = Ok (jb_topology_generation self).
Proof.
  unfold start_loop. intros H. apply eff_bind_Ok in H as (c & w1 & _ & H). destruct c; [done|].
  apply eff_bind_Ok in H as (? & ? & _ & H). apply eff_bind_Ok in H as (g & ? & [Hg _]%pure_Ok & _).
  unfold i64_generation in *. by destruct (_ <=? _)%Z.
Qed.

Lemma start_replication_position report prepared script :
  typed_identity (pr_identity report) -> Forall typed_item (rs_items script) ->
  ensures (starts_at prepared)
    (start_replication debug_str debug_strings parses timestamp_micros from_slice env self report prepared script)
    holds.
Proof.
  intros Htyped Hitems w r w' Hw H. unfold start_replication, eff_bind at 1 in H.
  destruct (start_loop _ _ _ _ _ _ _ _ w) as [r1 w1] eqn:E1.
  pose proof (start_loop_ok report prepared script Htyped Hitems _ _ _ Hw E1) as H1.
  destruct r1 as [[sink st]|e|]; [|by injection H as <- <-..].
  apply started_generation in E1. by eapply (race_position report prepared (sink, st)).
Qed.

Lemma set_up_typed w report w' :
  set_up sha256 quote_ident parses text_order row_order log_order migrations env self w = (Ok report, w') ->
  typed_identity (pr_identity report).
Proof.
  unfold set_up. intros H. do 2 (apply eff_bind_Ok in H as (? & ? & _ & H)).
  apply eff_bind_Ok in H as (read & w1 & Hread & H). do 6 (apply eff_bind_Ok in H as (? & ? & _ & H)).
  apply pair_equal_spec in H as [H _]. apply Ok_inj in H as <-.
  apply query_source_Ok in Hread as [_ Hread]. by eapply preflight_typed.
Qed.

Lemma run_standalone_position script :
  Forall typed_item (rs_items script) ->
  preserves (position_ok slot key)
    (run_standalone sha256 to_vec debug_str debug_strings quote_ident parses text_order row_order log_order
       timestamp_micros from_slice migrations role env self script).
Proof.
  intros Hitems w r w' Hw H. unfold run_standalone, eff_bind at 1 in H. destruct (set_up _ _ _ _ _ _ _ _ _ w) as [r1 w1] eqn:E1.
  pose proof (keeps_stable slot key _ _ (keeps_set_up sha256 quote_ident parses text_order row_order log_order migrations
    env slot key Hquiet self) (stable_position slot key) _ _ _ Hw E1) as Hw1.
  destruct r1 as [report|e|]; [|by injection H as <- <-..]. apply set_up_typed in E1. revert w1 r w' Hw1 H. clear Hw w.
  change (ensures (position_ok slot key)
    (do! prepared := prepare_or_rebuild sha256 to_vec debug_str parses text_order row_order role env self report in
     match prepared with
     | Some prepared => start_replication debug_str debug_strings parses timestamp_micros from_slice env self report prepared script
     | None => eff_ret Returned
     end) holds).
  apply ensures_bind with (M := fun prepared w =>
    match prepared with Some prepared => starts_at prepared w | None => position_ok slot key w end).
  2: { intros [prepared|]; [by apply start_replication_position|by apply ensures_ret]. }
  intros w r w' Hw H. unfold prepare_or_rebuild, eff_bind, attempt in H.
  destruct (prepare _ _ _ _ _ _ _ _ _ _ w) as [r2 w2] eqn:E2. apply prepare_ok in E2; [|done..].
  destruct r2 as [prepared|e|]; [by injection H as <- <-| |by injection H as <- <-].
  destruct (asks_for_rebuild e); [|by injection H as <- <-]. unfold eff_ret in H.
  destruct (request_rebuild _ _ _ w2) as [r3 w3] eqn:E3.
  pose proof (keeps_stable slot key _ _ (keeps_request_rebuild env slot key Hquiet self _) (stable_position slot key)
    _ _ _ E2 E3) as Hw3.
  destruct r3; by injection H as <- <-.
Qed.

(** The server's view of the slot. *)
Lemma inspected_confirmed s state :
  inspect_logical_slot s slot = Ok (Some state) -> confirmed_of slot s = Some (ls_confirmed_flush_lsn state).
Proof.
  unfold inspect_logical_slot, confirmed_of. intros H. apply bind_Ok in H as (u & _ & H).
  destruct (sv_slots s !! slot) as [row|]; [|done]. apply bind_Ok in H as (st & Hst & H).
  apply Ok_inj, (inj Some) in H. subst st.
  unfold slot_state in Hst. apply bind_Ok in Hst as (a & _ & Hst). apply bind_Ok in Hst as (b & _ & Hst).
  apply Ok_inj in Hst. subst state. reflexivity.
Qed.

Lemma position_not_ahead w stored state confirmed target :
  position_ok slot key w -> read_checkpoint (sd_meta (w_target w)) key = Ok (Some stored) ->
  inspect_logical_slot (w_source w) slot = Ok (Some state) ->
  validate_positions debug_str slot state (snc_checkpoint stored) <> Err (SlotAheadOfTarget confirmed target).
Proof.
  intros Hw Hr Hs Hv. apply inspected_confirmed in Hs. unfold validate_positions in Hv.
  destruct (_ || _); [done|]. case_bool_decide; [done|].
  destruct (ls_confirmed_flush_lsn state) as [text|]; cbn [parse_optional_lsn mbind result_bind] in Hv.
  - destruct (Lsn.from_str text) as [lsn|e|] eqn:Hl; [|done..]. cbn [mbind result_bind map_err] in Hv.
    pose proof (Hw _ _ _ Hr Hs Hl). rewrite (proj2 (Z.ltb_ge _ _)) in Hv by lia. cbn [mbind result_bind] in Hv.
    apply bind_Err in Hv as [Hv|(o & _ & Hv)]; [|by destruct o as [o|]; [destruct (_ <? _)%Z|]].
    unfold parse_optional_lsn in Hv. destruct (ls_restart_lsn state) as [t|]; [|done].
    by destruct (Lsn.from_str t).
  - apply bind_Err in Hv as [Hv|(o & _ & Hv)]; [|by destruct o as [o|]; [destruct (_ <? _)%Z|]].
    unfold parse_optional_lsn in Hv. destruct (ls_restart_lsn state) as [t|]; [|done].
    by destruct (Lsn.from_str t).
Qed.

Lemma run_position script w r w' :
  Forall typed_item (rs_items script) -> position_ok slot key w ->
  run sha256 to_vec debug_str debug_strings quote_ident parses text_order row_order log_order
    timestamp_micros from_slice migrations role env self script w = (r, w') ->
  position_ok slot key w'.
Proof.
  intros Hitems Hw H. unfold run in H.
  destruct ((do! _ := tell (set_phase Validating) in _) w) as [r1 w1] eqn:E1.
  assert (Hw1 : position_ok slot key w1).
  { clear H. revert w r1 w1 Hw E1. change (preserves (position_ok slot key)
      (do! _ := tell (set_phase Validating) in
       by_topology sha256 to_vec debug_str debug_strings quote_ident parses text_order row_order log_order
         timestamp_micros from_slice migrations role env self script)).
    apply preserves_bind; [apply (keeps_stable slot key _ _ (keeps_tell slot key _) (stable_position slot key))|].
    intros _. unfold by_topology. destruct (sp_topology _); [by apply run_standalone_position|by apply preserves_err..]. }
  clear Hw E1. assert (Htell : forall f r2 w2, tell f w1 = (r2, w2) -> position_ok slot key w2).
  { intros f r2 w2 Ht. exact (keeps_stable slot key _ _ (keeps_tell slot key f) (stable_position slot key) _ _ _ Hw1 Ht). }
  destruct r1 as [ended|[]|]; try (by injection H as <- <-);
    (destruct (tell _ w1) as [r2 w2] eqn:E2; apply Htell in E2; by injection H as <- <-).
Qed.

(** C2: The slot never passes the checkpoint.  However a run ends - a call that fails, a reply
    that is lost, a cancellation inside a turn of the loop, a rebuild, a schema barrier - the
    position the slot has confirmed is not after the position the target holds durably, if it
    was not before the run; so the next run is never refused because the slot is ahead of its
    target, and the source still has every change the target lacks. *)
Theorem slot_never_passes_checkpoint script w r w' :
  Forall typed_item (rs_items script) -> position_ok slot key w ->
  run sha256 to_vec debug_str debug_strings quote_ident parses text_order row_order log_order
    timestamp_micros from_slice migrations role env self script w = (r, w') ->
  position_ok slot key w' /\
  (forall stored state confirmed target,
     read_checkpoint (sd_meta (w_target w')) key = Ok (Some stored) ->
     inspect_logical_slot (w_source w') slot = Ok (Some state) ->
     validate_positions debug_str slot state (snc_checkpoint stored) <> Err (SlotAheadOfTarget confirmed target)).
Proof.
  intros Hitems Hw H. apply run_position in H; [|done..]. split; [done|]. intros. by apply position_not_ahead with w'.
Qed.
End job.
End runs.

(** ** Witnesses *)

(** A row of [public.items] is inserted after the first snapshot. *)
Definition run_items : list ReplicationMessage :=
  [PrimaryKeepAlive 40 0 0;
   XLogData (WRelation 7 (Ok "public") (Ok "items") WireDefault
     [mkWireColumn 1 (Ok "id") 23 (-1); mkWireColumn 0 (Ok "note") 25 (-1)]);
   XLogData (WBegin 48 0 1); XLogData (WInsert 7 [TDText [x31]; TDText [x61]]);
   XLogData (WCommit 0 48 64 0)].

Definition run_script : RunScript :=
  mkRunScript run_items [] {[ mkQualifiedName "erp__shop__public" "items" := ∅ ]} []
    [LoopTurn (EvFetched NotCancelled); MonitorTick None; LoopTurn (EvTimer 0 NotCancelled)].

Definition example_run : result SupervisorError RunEnd * World :=
  run name_digest (fun _ => []) id (fun _ => EmptyString) id (fun _ => true) by_bytes (fun l => l) (fun l => l) Some
    (fun _ => Err "no message") [] "etl" calm example_job run_script example_world.

(** The slot at the end of the run, and the checkpoint. *)
Definition positions (w : World) : option (option string) * option Z :=
  (confirmed_of (rn_slot (job_names example_job)) (w_source w),
   match read_checkpoint (sd_meta (w_target w)) (job_key example_job) with
   | Ok (Some stored) => Some (nc_applied_lsn (snc_checkpoint stored))
   | _ => None
   end).

Example run_replicates :
  example_run.1 = Ok StillRunning /\ positions example_run.2 = (Some (Some "0/00000040"), Some 64%Z).
Proof. split; vm_compute; reflexivity. Qed.

Lemma example_proper : proper_job example_job.
Proof. split; [by split|done|]. repeat split; vm_compute; discriminate. Qed.

Lemma example_honest : honest calm (rn_slot (job_names example_job)).
Proof. intros n slot_snapshot H. vm_compute in H. injection H as <-. reflexivity. Qed.

Lemma slot_never_passes_checkpoint_witness :
  exists w, example_run = (Ok StillRunning, w) /\ positions w = (Some (Some "0/00000040"), Some 64%Z) /\
    position_ok (rn_slot (job_names example_job)) (job_key example_job) w.
Proof.
  destruct run_replicates as [H1 H2]. destruct example_run as [r w] eqn:E. cbn [fst snd] in H1, H2. subst r.
  exists w. split; [reflexivity|]. split; [exact H2|].
  eapply (slot_never_passes_checkpoint name_digest (fun _ => []) id (fun _ => EmptyString) id (fun _ => true) by_bytes
    (fun l => l) (fun l => l) Some (fun _ => Err "no message") [] "etl" (fun l => Permutation_refl l) calm example_job
    (example_quiet false) example_honest example_proper run_script example_world _ w); [| |exact E].
  - repeat constructor; vm_compute; discriminate.
  - intros stored text lsn Hr. vm_compute in Hr. discriminate Hr.
Defined.
