(* ===== verification/Auth.v ===== *)
(** * Sessions and logins

    Models [crates/api/src/auth.rs] and the responses of [crates/api/src/error.rs]: the table of
    sessions, the limit on failed logins, the handlers [login], [logout] and [current_session],
    and the middleware [require_session] with its cookie and its CSRF token.

    The state is what the two mutexes protect; every method that locks one is a function on it.
    A handler awaits between its calls, so other requests act in between ([others]).  Instants
    are nanoseconds; [first_session] and [first_address] are the first entries of a [HashMap] in
    its iteration order, which is unspecified.  Hashing, the password hash, the random tokens
    and the cookie jar are libraries: parameters. *)

From S2P Require Import Prelude Effects Core Mapping Source Catalog.

(** ** Responses *)

Inductive StatusCode : Type :=
| OK | CREATED | NO_CONTENT | BAD_REQUEST | UNAUTHORIZED | FORBIDDEN | NOT_FOUND | CONFLICT | TOO_MANY_REQUESTS
| INTERNAL_SERVER_ERROR | SERVICE_UNAVAILABLE.
Global Instance StatusCode_eq_dec : EqDecision StatusCode.
Proof. solve_decision. Defined.

Record ApiError : Type := mkApiError {
  ae_status : StatusCode;
  ae_code : string;
  ae_message : string;
}.
Global Instance ApiError_eq_dec : EqDecision ApiError.
Proof. solve_decision. Defined.

Definition bad_request (message : string) : ApiError := mkApiError BAD_REQUEST "bad_request" message.
Definition unauthorized : ApiError := mkApiError UNAUTHORIZED "unauthorized" "authentication required".
Definition forbidden (message : string) : ApiError := mkApiError FORBIDDEN "forbidden" message.
Definition not_found (resource : string) : ApiError :=
  mkApiError NOT_FOUND "not_found" (resource +:+ " was not found").
Definition conflict (message : string) : ApiError := mkApiError CONFLICT "conflict" message.
Definition too_many_requests : ApiError := mkApiError TOO_MANY_REQUESTS "rate_limited" "too many login attempts".
Definition unavailable (message : string) : ApiError := mkApiError SERVICE_UNAVAILABLE "unavailable" message.
Definition internal : ApiError :=
  mkApiError INTERNAL_SERVER_ERROR "internal_error" "the request could not be completed".

(** ** State *)

Definition SESSION_COOKIE : string := "etl_session".
Definition CSRF_COOKIE : string := "csrf_token".
Definition CSRF_HEADER : string := "x-csrf-token".
Definition SECOND : Z := 1000000000.
Definition LOGIN_WINDOW : Z := 60 * SECOND.
Definition MAX_LOGIN_FAILURES : Z := 5.
Definition MAX_FAILURE_ADDRESSES : Z := 10000.
Definition MAX_SESSIONS : Z := 10000.

Record Session : Type := mkSession {
  csrf_token : string;
  expires_at : Z;
}.

Record AuthInner : Type := mkAuthInner {
  ai_username : string;
  ai_password_hash : string;
  ai_secure_cookies : bool;
  ai_session_ttl : Z;
  ai_sessions : gmap bytes Session;
  ai_failures : gmap Z (list Z);
}.

Record SessionIdentity : Type := mkSessionIdentity {
  id_username : string;
  id_csrf_token : string;
  id_expires_in_seconds : Z;
}.

(** [SessionResponse] has the same fields. *)
Record SessionResponse : Type := mkSessionResponse {
  re_username : string;
  re_csrf_token : string;
  re_expires_in_seconds : Z;
}.

Definition AuthState_new (username password_hash : string) (secure_cookies : bool) (session_ttl : Z) : AuthInner :=
  mkAuthInner username password_hash secure_cookies session_ttl ∅ ∅.

Definition with_sessions (f : gmap bytes Session -> gmap bytes Session) (self : AuthInner) : AuthInner :=
  mkAuthInner (ai_username self) (ai_password_hash self) (ai_secure_cookies self) (ai_session_ttl self)
    (f (ai_sessions self)) (ai_failures self).
Definition with_failures (f : gmap Z (list Z) -> gmap Z (list Z)) (self : AuthInner) : AuthInner :=
  mkAuthInner (ai_username self) (ai_password_hash self) (ai_secure_cookies self) (ai_session_ttl self)
    (ai_sessions self) (f (ai_failures self)).

(** The last instant an [Instant] can hold: 2^63 - 1 seconds and a fraction. *)
Definition instant_max : Z := i64_max * SECOND + (SECOND - 1).
(** [Instant + Duration] panics beyond it. *)
Definition instant_add {E} (now duration : Z) : result E Z :=
  if (now + duration <=? instant_max)%Z then Ok (now + duration)%Z else Panic.
(** [Instant::duration_since], which saturates. *)
Definition duration_since (now earlier : Z) : Z := Z.max (now - earlier) 0.

(** ** Operations *)

Section auth.
Context (sha256 : bytes -> bytes) (verify_password : string -> string -> bool).
Context (first_session : gmap bytes Session -> option bytes) (first_address : gmap Z (list Z) -> option Z).

Definition hash_token (token : string) : bytes := sha256 (bytes_of_string token).

(** The attempts that still count. *)
Definition recent (now : Z) (attempts : list Z) : list Z :=
  List.filter (fun instant => (duration_since now instant <=? LOGIN_WINDOW)%Z) attempts.
Definition retain_failures (now : Z) (failures : gmap Z (list Z)) : gmap Z (list Z) :=
  filter (fun kv => kv.2 <> []) (recent now <$> failures).

(** [failures.entry(address).or_default()] leaves an entry behind. *)
Definition is_rate_limited (now address : Z) (self : AuthInner) : bool * AuthInner :=
  let failures := retain_failures now (ai_failures self) in
  let attempts := default [] (failures !! address) in
  ((MAX_LOGIN_FAILURES <=? len attempts)%Z, with_failures (fun _ => <[address := attempts]> failures) self).

Definition msize {K A} `{Countable K} (m : gmap K A) : Z := Z.of_nat (size m).

Definition register_failure (now address : Z) (self : AuthInner) : AuthInner :=
  let failures := ai_failures self in
  let failures :=
    if (MAX_FAILURE_ADDRESSES <=? msize failures)%Z && negb (bool_decide (is_Some (failures !! address)))
    then match first_address failures with Some oldest => delete oldest failures | None => failures end
    else failures in
  with_failures (fun _ => <[address := default [] (failures !! address) ++ [now]]> failures) self.

Definition clear_failures (address : Z) : AuthInner -> AuthInner := with_failures (delete address).

(** The password is verified whether or not the name matches. *)
Definition verify (username password : string) (self : AuthInner) : bool :=
  let username_matches := bool_decide (ai_username self = username) in
  let password_matches := verify_password (ai_password_hash self) password in
  username_matches && password_matches.

Definition retain_sessions (now : Z) (sessions : gmap bytes Session) : gmap bytes Session :=
  filter (fun kv => (now < expires_at kv.2)%Z) sessions.

(** [started]: the instant the session's end counts from; [now]: the one the table is cleaned at. *)
Definition new_session {E} (csrf : string) (started : Z) (self : AuthInner) : result E Session :=
  let? expires_at := instant_add started (ai_session_ttl self) in Ok (mkSession csrf expires_at).
Definition store_session (token : string) (session : Session) (now : Z) (self : AuthInner) : AuthInner :=
  let sessions := retain_sessions now (ai_sessions self) in
  let sessions :=
    if (MAX_SESSIONS <=? msize sessions)%Z
    then match first_session sessions with Some oldest => delete oldest sessions | None => sessions end
    else sessions in
  with_sessions (fun _ => <[hash_token token := session]> sessions) self.

(** [saturating_duration_since(now).as_secs()]. *)
Definition remaining (now : Z) (session : Session) : Z := (Z.max (expires_at session - now) 0 / SECOND)%Z.

Definition authenticate (now : Z) (token : string) (self : AuthInner) : option SessionIdentity * AuthInner :=
  let sessions := retain_sessions now (ai_sessions self) in
  ((fun session => mkSessionIdentity (ai_username self) (csrf_token session) (remaining now session))
     <$> sessions !! hash_token token,
   with_sessions (fun _ => sessions) self).

Definition revoke (token : string) : AuthInner -> AuthInner := with_sessions (delete (hash_token token)).

(** ** Handlers *)

(** What a request meets at its [n]-th call: the other requests, the clock and the tokens. *)
Record AuthAnswer : Type := mkAuthAnswer {
  aa_others : AuthInner -> AuthInner;
  aa_now : Z;
  aa_token : string;
  aa_csrf : string;
}.
Record AuthWorld : Type := mkAuthWorld {
  aw_auth : AuthInner;
  aw_step : nat;
}.
Context (env : nat -> AuthAnswer).
Notation Auth := (Eff AuthWorld ApiError).

(** A call on the state: the other requests come first. *)
Definition call {A} (f : AuthAnswer -> AuthInner -> result ApiError A * AuthInner) : Auth A := fun w =>
  let a := env (aw_step w) in
  let (r, self) := f a (aa_others a (aw_auth w)) in
  (r, mkAuthWorld self (S (aw_step w))).

Record Cookie : Type := mkCookie {
  co_name : string;
  co_value : string;
  co_path : string;
  co_http_only : bool;
  co_same_site_strict : bool;
  co_secure : bool;
}.

(** The tokens are drawn and the clock is read before the table is locked. *)
Definition create_session : Auth (string * Session) :=
  do! drawn := call (fun a self => (Ok a, self)) in
  do! session := call (fun _ self => (new_session (aa_csrf drawn) (aa_now drawn) self, self)) in
  do! _ := call (fun a self => (Ok tt, store_session (aa_token drawn) session (aa_now a) self)) in
  eff_ret (aa_token drawn, session).

Definition login (address : Z) (username password : string) : Auth (list Cookie * SessionResponse) :=
  do! limited := call (fun a self => let (limited, self) := is_rate_limited (aa_now a) address self in (Ok limited, self)) in
  if limited : bool then eff_err too_many_requests
  else
    do! verified := call (fun _ self => (Ok (verify username password self), self)) in
    if negb verified then
      do! _ := call (fun a self => (Ok tt, register_failure (aa_now a) address self)) in
      eff_err unauthorized
    else
      do! _ := call (fun _ self => (Ok tt, clear_failures address self)) in
      do! created := create_session in
      let '(token, session) := created in
      do! w := get in
      let self := aw_auth w in
      eff_ret
        ([mkCookie SESSION_COOKIE token "/" true true (ai_secure_cookies self);
          mkCookie CSRF_COOKIE (csrf_token session) "/" false true (ai_secure_cookies self)],
         mkSessionResponse (ai_username self) (csrf_token session) (ai_session_ttl self / SECOND)).

(** The token as the jar holds it, and the two cookies the response removes. *)
Definition logout (jar : option string) : Auth (list string * StatusCode) :=
  do! _ := match jar with
           | Some token => call (fun _ self => (Ok tt, revoke token self))
           | None => eff_ret tt
           end in
  eff_ret ([SESSION_COOKIE; CSRF_COOKIE], NO_CONTENT).

Definition current_session (identity : SessionIdentity) : SessionResponse :=
  mkSessionResponse (id_username identity) (id_csrf_token identity) (id_expires_in_seconds identity).

(** ** The middleware *)

Inductive Method : Type := GET | HEAD | OPTIONS | POST | PUT | PATCH | DELETE | OtherMethod (name : string).

(** The headers with their names in lower case; a value is text when [to_str] says so. *)
Record Request : Type := mkRequest {
  rq_method : Method;
  rq_headers : list (string * bytes);
}.
Context (to_str : bytes -> option string).

Definition get_all (name : string) (headers : list (string * bytes)) : list bytes :=
  map snd (List.filter (fun header => bool_decide (header.1 = name)) headers).

(** [find_map] over the cookies of all headers. *)
Definition cookie_pairs (headers : list (string * bytes)) : list (string * string) :=
  omap (fun part => Lsn.split_once "=" (trim part))
    (concat (map (split_all ";") (omap to_str (get_all "cookie" headers)))).
Definition cookie_value (headers : list (string * bytes)) (name : string) : option string :=
  snd <$> List.find (fun pair => bool_decide (pair.1 = name)) (cookie_pairs headers).

Definition is_safe (method : Method) : bool :=
  match method with GET | HEAD | OPTIONS => true | _ => false end.

Definition check_csrf (request : Request) (identity : SessionIdentity) : result ApiError unit :=
  if is_safe (rq_method request) then Ok tt
  else
    let? supplied :=
      ok_or (head (get_all CSRF_HEADER (rq_headers request)) ≫= to_str) (forbidden "missing CSRF token") in
    if bool_decide (id_csrf_token identity = supplied) then Ok tt else Err (forbidden "invalid CSRF token").

(** [require_session] until the next handler runs with the identity. *)
Definition require_session (now : Z) (request : Request) (self : AuthInner)
    : result ApiError SessionIdentity * AuthInner :=
  match cookie_value (rq_headers request) SESSION_COOKIE with
  | None => (Err unauthorized, self)
  | Some token =>
      match authenticate now token self with
      | (None, self) => (Err unauthorized, self)
      | (Some identity, self) => (let? _ := check_csrf request identity in Ok identity, self)
      end
  end.
End auth.

(** ** Histories *)

(** The calls on the state: what any number of handlers make of it, in whatever order. *)
Inductive AuthCall : Type :=
| CallRateLimited (now address : Z)
| CallFailure (now address : Z)
| CallClear (address : Z)
| CallCreate (token csrf : string) (started now : Z)
| CallAuthenticate (now : Z) (token : string)
| CallRevoke (token : string).

Section histories.
Context (sha256 : bytes -> bytes) (verify_password : string -> string -> bool).
Context (first_session : gmap bytes Session -> option bytes) (first_address : gmap Z (list Z) -> option Z).
Notation hash := (hash_token sha256).

Definition auth_step (self : AuthInner) (c : AuthCall) : AuthInner :=
  match c with
  | CallRateLimited now address => (is_rate_limited now address self).2
  | CallFailure now address => register_failure first_address now address self
  | CallClear address => clear_failures address self
  | CallCreate token csrf started now =>
      match new_session (E := unit) csrf started self with
      | Ok session => store_session sha256 first_session token session now self
      | _ => self
      end
  | CallAuthenticate now token => (authenticate sha256 now token self).2
  | CallRevoke token => revoke sha256 token self
  end.
Definition run_calls (calls : list AuthCall) (self : AuthInner) : AuthInner := foldl auth_step self calls.

(** The others' calls are histories too. *)
Definition lawful (env : nat -> AuthAnswer) : Prop := forall n, exists calls, aa_others (env n) = run_calls calls.

Lemma run_calls_app c1 c2 self : run_calls (c1 ++ c2) self = run_calls c2 (run_calls c1 self).
Proof. apply foldl_app. Qed.

(** What never changes. *)
Lemma config_kept calls self :
  ai_session_ttl (run_calls calls self) = ai_session_ttl self /\
  ai_username (run_calls calls self) = ai_username self /\
  ai_password_hash (run_calls calls self) = ai_password_hash self.
Proof.
  revert self. induction calls as [|c calls IH]; intros self; [done|].
  change (run_calls (c :: calls) self) with (run_calls calls (auth_step self c)).
  destruct (IH (auth_step self c)) as (-> & -> & ->). destruct c; try done. cbn. by destruct (new_session _ _ _).
Qed.

(** *** The handlers make histories *)

Definition extends (self : AuthInner) (w : AuthWorld) : Prop := exists calls, aw_auth w = run_calls calls self.

Lemma call_extends {A} env self (f : AuthAnswer -> AuthInner -> result ApiError A * AuthInner) :
  lawful env -> (forall a s, exists calls, (f a s).2 = run_calls calls s) ->
  preserves (extends self) (call env f).
Proof.
  intros Henv Hf w r w' [calls Hw] H. unfold call in H. destruct (Henv (aw_step w)) as [others Ho].
  rewrite Ho, Hw, <-run_calls_app in H. destruct (Hf (env (aw_step w)) (run_calls (calls ++ others) self)) as [own Hown].
  destruct (f _ _) as [r1 s1]. injection H as <- <-. cbn in Hown. exists ((calls ++ others) ++ own).
  by rewrite run_calls_app.
Qed.

(** A call that only looks. *)
Lemma looks_extends {A} env self (f : AuthAnswer -> AuthInner -> result ApiError A) :
  lawful env -> preserves (extends self) (call env (fun a s => (f a s, s))).
Proof. intros Henv. apply call_extends; [done|]. intros a s. by exists []. Qed.

Lemma create_session_extends env self :
  lawful env -> preserves (extends self) (create_session sha256 first_session env).
Proof.
  intros Henv. unfold create_session. apply preserves_bind; [by apply looks_extends|]. intros drawn.
  apply ensures_bind with (M := fun session w => extends self w /\
    new_session (E := ApiError) (aa_csrf drawn) (aa_now drawn) self = Ok session).
  - intros w r w' Hw H. pose proof H as Hcall. eapply looks_extends in H; [|done|exact Hw].
    destruct r; [|done..]. split; [done|]. unfold call in Hcall. destruct (Henv (aw_step w)) as [others Ho].
    apply pair_equal_spec in Hcall as [Hn _]. destruct Hw as [calls Hw]. rewrite Ho, Hw, <-run_calls_app in Hn.
    unfold new_session in *. by rewrite (proj1 (config_kept _ _)) in Hn.
  - intros session. apply ensures_bind with (M := fun _ => extends self); [|intros _; apply preserves_ret].
    intros w r w' [[calls Hw] Hs] H. unfold call in H. destruct (Henv (aw_step w)) as [others Ho].
    injection H as <- <-. exists (calls ++ others ++ [CallCreate (aa_token drawn) (aa_csrf drawn) (aa_now drawn) (aa_now (env (aw_step w)))]).
    cbn [aw_auth]. rewrite Ho, Hw, app_assoc, run_calls_app, <-run_calls_app.
    set (self' := run_calls (calls ++ others) self). cbn [run_calls foldl auth_step]. unfold new_session, instant_add in *.
    unfold self' at 2 3. rewrite (proj1 (config_kept _ _)). destruct (_ <=? _)%Z; [|done]. cbn in Hs |- *. by injection Hs as <-.
Qed.

Lemma login_extends env self address username password :
  lawful env ->
  preserves (extends self)
    (login sha256 verify_password first_session first_address env address username password).
Proof.
  intros Henv. unfold login. apply preserves_bind.
  { apply call_extends; [done|]. intros a s. exists [CallRateLimited (aa_now a) address]. done. }
  intros limited. apply ensures_if; intros _; [apply preserves_err|].
  apply preserves_bind; [by apply looks_extends|].
  intros verified. apply ensures_if; intros _.
  { apply preserves_bind; [|intros _; apply preserves_err]. apply call_extends; [done|]. intros a s.
    by exists [CallFailure (aa_now a) address]. }
  apply preserves_bind; [apply call_extends; [done|]; intros a s; by exists [CallClear address]|]. intros _.
  apply preserves_bind; [by apply create_session_extends|]. intros [token session].
  apply preserves_bind; [apply preserves_get|]. intros w. apply preserves_ret.
Qed.

Lemma logout_extends env self jar : lawful env -> preserves (extends self) (logout sha256 env jar).
Proof.
  intros Henv. unfold logout. apply preserves_bind; [|intros _; apply preserves_ret].
  destruct jar as [token|]; [|apply preserves_ret]. apply call_extends; [done|]. intros a s. by exists [CallRevoke token].
Qed.

(** *** Sessions *)

Definition ends (k : bytes) (c : AuthCall) : Prop :=
  match c with CallCreate token _ _ _ | CallRevoke token => hash token = k | _ => False end.
Definition revokes (k : bytes) (c : AuthCall) : Prop := match c with CallRevoke token => hash token = k | _ => False end.

(** The session under [k] was created by the history and not revoked since. *)
Definition created (h : list AuthCall) (ttl : Z) (k : bytes) (s : Session) : Prop :=
  exists h1 token started at_ h2, h = h1 ++ CallCreate token (csrf_token s) started at_ :: h2 /\
    hash token = k /\ expires_at s = (started + ttl)%Z /\ Forall (fun c => ~ revokes k c) h2.

Lemma created_snoc h ttl k s c : ~ revokes k c -> created h ttl k s -> created (h ++ [c]) ttl k s.
Proof.
  intros Hc (h1 & token & started & at_ & h2 & -> & Hk & He & Hh). exists h1, token, started, at_, (h2 ++ [c]).
  rewrite <-app_assoc. split_and!; [done..|]. apply Forall_app. split; [done|by constructor].
Qed.

Lemma retain_sessions_Some now sessions k s :
  retain_sessions now sessions !! k = Some s -> sessions !! k = Some s /\ (now < expires_at s)%Z.
Proof. intros [? ?]%map_lookup_filter_Some. done. Qed.

Lemma sessions_created h self k s :
  ai_sessions self = ∅ -> ai_sessions (run_calls h self) !! k = Some s -> created h (ai_session_ttl self) k s.
Proof.
  clear verify_password. intros H0. revert k s. induction h as [|c h IH] using rev_ind; intros k s Hs; [cbn in Hs; by rewrite H0, lookup_empty in Hs|].
  rewrite run_calls_app in Hs. cbn in Hs. set (self' := run_calls h self) in *.
  assert (Hold : forall P, ai_sessions self' !! k = Some s -> ~ revokes k c -> P \/ created (h ++ [c]) (ai_session_ttl self) k s).
  { intros P ? ?. right. apply created_snoc; auto. }
  destruct c as [| | |token csrf started at_| |token]; cbn in Hs; try by (destruct (Hold False); tauto).
  - destruct (new_session csrf started self') as [session| |] eqn:En; cbn in Hs; [|by destruct (Hold False); tauto..].
    destruct (decide (hash token = k)) as [<-|Hne].
    + rewrite lookup_insert_eq in Hs. injection Hs as <-. unfold new_session, instant_add in En.
      destruct (_ <=? _)%Z; [|done]. injection En as <-. exists h, token, started, at_, [].
      split_and!; [done|done| |constructor]. cbn. unfold self'. by rewrite (proj1 (config_kept _ _)).
    + rewrite lookup_insert_ne in Hs by done.
      assert (retain_sessions at_ (ai_sessions self') !! k = Some s) as [Hk _]%retain_sessions_Some.
      { destruct (_ <=? _)%Z; [|done]. destruct (first_session _); [|done]. by apply lookup_delete_Some in Hs as [_ Hs]. }
      by destruct (Hold False); tauto.
  - apply retain_sessions_Some in Hs as [Hs _]. by destruct (Hold False); tauto.
  - apply lookup_delete_Some in Hs as [Hne Hs]. by destruct (Hold False); cbn; [..|tauto|]; auto.
Qed.

(** The first session cookie of a request. *)
Notation request_token to_str request := (cookie_value to_str (rq_headers request) SESSION_COOKIE).

Lemma require_session_Ok to_str now request self identity self' :
  require_session sha256 to_str now request self = (Ok identity, self') ->
  exists token s, request_token to_str request = Some token /\ ai_sessions self !! hash token = Some s /\
    (now < expires_at s)%Z /\ id_csrf_token identity = csrf_token s /\
    (is_safe (rq_method request) = true \/
     head (get_all CSRF_HEADER (rq_headers request)) ≫= to_str = Some (csrf_token s)).
Proof.
  unfold require_session. intros H. destruct (request_token to_str request) as [token|]; [|done].
  unfold authenticate in H. destruct (retain_sessions now (ai_sessions self) !! hash token) as [s|] eqn:Hs; [|done].
  apply retain_sessions_Some in Hs as [Hs Hlive]. cbn [fmap option_fmap option_map] in H.
  apply pair_equal_spec in H as [H _]. apply bind_Ok in H as (u & Hc & H). injection H as <-.
  exists token, s. split_and!; [done..|]. unfold check_csrf in Hc. destruct (is_safe _); [by left|right].
  apply bind_Ok in Hc as (supplied & Hh & Hc). apply ok_or_Ok in Hh. rewrite Hh. cbn in Hc.
  case_bool_decide as He; [|done]. by rewrite He.
Qed.

(** C14: A request is served only for a live session.  After any history of calls - any number of
    logins, logouts and requests, interleaved in any way - a request that passes
    [require_session] carries a token whose hash a login has stored: that session has not
    reached its end, nobody has logged out of it since, the identity carries its CSRF token,
    and a request that may change something carries the same token in its header. *)
Theorem requests_need_a_live_session to_str username password_hash secure ttl h now request identity self' :
  require_session sha256 to_str now request (run_calls h (AuthState_new username password_hash secure ttl)) =
    (Ok identity, self') ->
  exists token h1 login_token csrf started at_ h2,
    request_token to_str request = Some token /\
    h = h1 ++ CallCreate login_token csrf started at_ :: h2 /\ hash login_token = hash token /\
    (now < started + ttl)%Z /\ (forall t, CallRevoke t ∈ h2 -> hash t <> hash token) /\
    id_csrf_token identity = csrf /\
    (is_safe (rq_method request) = true \/ head (get_all CSRF_HEADER (rq_headers request)) ≫= to_str = Some csrf).
Proof.
  intros H. apply require_session_Ok in H as (token & s & Ht & Hs & Hlive & Hid & Hcsrf).
  apply sessions_created in Hs as (h1 & login_token & started & at_ & h2 & -> & Hk & He & Hh); [|done].
  exists token, h1, login_token, (csrf_token s), started, at_, h2. cbn in He. split_and!; try done; [lia|].
  intros t Hin Heq. rewrite Forall_forall in Hh. by apply (Hh _ Hin).
Qed.

(** *** A live session is served *)

Definition is_create (c : AuthCall) : bool := match c with CallCreate _ _ _ _ => true | _ => false end.
Definition creations (h : list AuthCall) : Z := len (List.filter is_create h).

(** The clock of a call that cleans the sessions. *)
Definition cleans_at (c : AuthCall) : option Z :=
  match c with CallCreate _ _ _ now | CallAuthenticate now _ => Some now | _ => None end.
Definition spares (k : bytes) (end_ : Z) (c : AuthCall) : Prop :=
  ~ ends k c /\ forall now, cleans_at c = Some now -> (now < end_)%Z.

Lemma retain_keeps now sessions k s :
  sessions !! k = Some s -> (now < expires_at s)%Z -> retain_sessions now sessions !! k = Some s.
Proof. intros. by apply map_lookup_filter_Some. Qed.
Lemma retain_size now sessions : (msize (retain_sessions now sessions) <= msize sessions)%Z.
Proof.
  unfold msize, retain_sessions. apply inj_le. apply map_size_filter.
Qed.

Lemma creations_snoc h c : creations (h ++ [c]) = (creations h + if is_create c then 1 else 0)%Z.
Proof. unfold creations. rewrite List.filter_app, len_app. cbn. by destruct (is_create c). Qed.

(** An iteration yields an entry of the map while there is one. *)
Definition first_of {K A} `{Countable K} (first : gmap K A -> option K) : Prop := forall m,
  match first m with Some k => is_Some (m !! k) | None => m = ∅ end.
Hypothesis Hfirst : first_of first_session.

Lemma msize_insert {K A} `{Countable K} (m : gmap K A) k x : (msize (<[k := x]> m) <= msize m + 1)%Z.
Proof. unfold msize. rewrite map_size_insert. destruct (m !! k); cbn; lia. Qed.
Lemma msize_delete {K A} `{Countable K} (m : gmap K A) k : (msize (delete k m) <= msize m)%Z.
Proof. unfold msize. rewrite map_size_delete. destruct (m !! k); cbn; lia. Qed.
Lemma msize_evict {K A} `{Countable K} (m : gmap K A) k : is_Some (m !! k) -> (msize (delete k m) + 1 <= msize m)%Z.
Proof.
  intros Hk. unfold msize. rewrite map_size_delete_Some by done.
  pose proof (map_size_ne_0_lookup_2 m k Hk). destruct (size m); [done|]. cbn. lia.
Qed.

(** The table after a session is stored. *)
Lemma store_session_size token session now self :
  (msize (ai_sessions (store_session sha256 first_session token session now self)) <=
   Z.min (Z.max MAX_SESSIONS (msize (ai_sessions self))) (msize (ai_sessions self) + 1))%Z.
Proof.
  unfold store_session. cbn. pose proof (retain_size now (ai_sessions self)) as Hr.
  set (m := retain_sessions now (ai_sessions self)) in *.
  destruct (Z.leb_spec MAX_SESSIONS (msize m)) as [Hfull|].
  - pose proof (Hfirst m) as Hf. destruct (first_session m) as [k|].
    + apply msize_evict in Hf. pose proof (msize_insert (delete k m) (hash token) session). lia.
    + rewrite Hf in Hfull. by apply Zle_not_lt in Hfull.
  - pose proof (msize_insert m (hash token) session). lia.
Qed.

Lemma auth_step_size self c :
  (msize (ai_sessions (auth_step self c)) <=
   if is_create c then Z.min (Z.max MAX_SESSIONS (msize (ai_sessions self))) (msize (ai_sessions self) + 1)
   else msize (ai_sessions self))%Z.
Proof.
  destruct c; cbn; try lia.
  - destruct (new_session _ _ _); cbn; [apply store_session_size|lia..].
  - apply retain_size.
  - apply msize_delete.
Qed.

Lemma sessions_size h self : ai_sessions self = ∅ ->
  (msize (ai_sessions (run_calls h self)) <= Z.min MAX_SESSIONS (creations h))%Z.
Proof.
  intros H0. induction h as [|c h IH] using rev_ind; [cbn; by rewrite H0|].
  rewrite run_calls_app, creations_snoc. cbn. pose proof (auth_step_size (run_calls h self) c).
  destruct (is_create c); lia.
Qed.

Lemma auth_step_keeps self c k s :
  ai_sessions self !! k = Some s -> spares k (expires_at s) c ->
  (is_create c = true -> (msize (ai_sessions self) < MAX_SESSIONS)%Z) ->
  ai_sessions (auth_step self c) !! k = Some s.
Proof.
  intros Hs [He Hc] Hm. destruct c; cbn in *; try done.
  - destruct (new_session _ _ _) as [session| |]; cbn; [|done..]. rewrite lookup_insert_ne by done.
    pose proof (retain_size now (ai_sessions self)). specialize (Hm eq_refl).
    rewrite (proj2 (Z.leb_gt _ _)) by lia. apply retain_keeps; auto.
  - apply retain_keeps; auto.
  - by rewrite lookup_delete_ne.
Qed.

Lemma run_calls_keep h0 h self k s : ai_sessions self = ∅ ->
  ai_sessions (run_calls h0 self) !! k = Some s -> Forall (spares k (expires_at s)) h ->
  (creations (h0 ++ h) <= MAX_SESSIONS)%Z ->
  ai_sessions (run_calls (h0 ++ h) self) !! k = Some s.
Proof.
  intros H0 Hs. induction h as [|c h IH] using rev_ind; [by rewrite app_nil_r|].
  rewrite Forall_app, Forall_singleton, app_assoc, creations_snoc. intros [Hh Hc] Hn. rewrite run_calls_app.
  assert (0 <= if is_create c then 1 else 0)%Z by (destruct (is_create c); lia).
  apply auth_step_keeps; [apply IH; [done|lia]|done|]. intros Hcr. rewrite Hcr in Hn.
  pose proof (sessions_size (h0 ++ h) self H0). lia.
Qed.

(** A live session is served, and the table of sessions stays bounded.  Whatever is called
    after a login - as long as nobody logs out of the session, no other login draws a token
    with the same hash, and no clock reads its end - a request with the token, and with the CSRF
    token unless it only reads, passes [require_session]; provided at most [MAX_SESSIONS] logins
    have ever succeeded.  Beyond them a login evicts whichever session the table lists first,
    so the table never holds more than [MAX_SESSIONS]. *)
Theorem live_sessions_are_served to_str username password_hash secure ttl h1 token csrf started at_ h2 now request :
  let start := AuthState_new username password_hash secure ttl in
  let h := h1 ++ CallCreate token csrf started at_ :: h2 in
  (started + ttl <= instant_max)%Z -> Forall (spares (hash token) (started + ttl)) h2 ->
  (creations h <= MAX_SESSIONS)%Z -> (now < started + ttl)%Z ->
  request_token to_str request = Some token ->
  (is_safe (rq_method request) = true \/ head (get_all CSRF_HEADER (rq_headers request)) ≫= to_str = Some csrf) ->
  (exists identity self', require_session sha256 to_str now request (run_calls h start) = (Ok identity, self') /\
     id_csrf_token identity = csrf) /\
  (forall h', (msize (ai_sessions (run_calls h' start)) <= MAX_SESSIONS)%Z).
Proof.
  intros start h Hend Hh2 Hn Hnow Ht Hcsrf. split.
  2: { intros h'. pose proof (sessions_size h' start eq_refl). lia. }
  assert (Hs : ai_sessions (run_calls h start) !! hash token = Some (mkSession csrf (started + ttl))).
  { unfold h in *. rewrite cons_middle, app_assoc in *. apply run_calls_keep; [done| |done|done].
    rewrite run_calls_app. cbn. unfold new_session, instant_add. rewrite (proj1 (config_kept _ _)). cbn.
    rewrite (proj2 (Z.leb_le _ _)) by done. cbn. apply lookup_insert_eq. }
  unfold require_session. rewrite Ht. unfold authenticate.
  rewrite (retain_keeps _ _ _ _ Hs) by done. cbn [fmap option_fmap option_map]. unfold check_csrf.
  destruct Hcsrf as [->|Hc]; [by do 2 eexists|]. destruct (is_safe _); [by do 2 eexists|].
  rewrite Hc. cbn. rewrite bool_decide_true by done. by do 2 eexists.
Qed.

(** *** The limit on failed logins *)

(** The failures of an address since it was last cleared, in order. *)
Definition failures_of (address : Z) (h : list AuthCall) : list Z :=
  foldl (fun attempts c =>
    match c with
    | CallFailure now a => if bool_decide (a = address) then attempts ++ [now] else attempts
    | CallClear a => if bool_decide (a = address) then [] else attempts
    | _ => attempts
    end) [] h.

Definition clock_of (c : AuthCall) : option Z :=
  match c with CallRateLimited now _ | CallFailure now _ => Some now | _ => None end.
Definition before (now : Z) (h : list AuthCall) : Prop := forall c t, c ∈ h -> clock_of c = Some t -> (t <= now)%Z.

#[local] Arguments recent : simpl never.
Lemma recent_recent now now' l : (now <= now')%Z -> recent now' (recent now l) = recent now' l.
Proof.
  intros Hle. unfold recent. induction l as [|x l IH]; [done|]. cbn [List.filter].
  destruct (Z.leb_spec (duration_since now x) LOGIN_WINDOW); cbn [List.filter]; rewrite IH; [done|].
  destruct (Z.leb_spec (duration_since now' x) LOGIN_WINDOW); [|done]. unfold duration_since in *. lia.
Qed.
Lemma recent_app now l k : recent now (l ++ k) = recent now l ++ recent now k.
Proof. apply List.filter_app. Qed.

(** The attempts the table holds for an address, as far as they still count. *)
Definition held (now address : Z) (self : AuthInner) : list Z := recent now (default [] (ai_failures self !! address)).

Lemma held_retained now now' address failures : (now <= now')%Z ->
  recent now' (default [] (retain_failures now failures !! address)) = recent now' (default [] (failures !! address)).
Proof.
  intros Hle. unfold retain_failures. rewrite map_lookup_filter, lookup_fmap.
  destruct (failures !! address) as [l|]; [|done]. cbn. rewrite <-(recent_recent _ _ l Hle).
  destruct (decide (recent now l <> [])) as [Hne|Hne]; [by rewrite option_guard_True|].
  rewrite option_guard_False by done. cbn. apply dec_stable in Hne. by rewrite Hne.
Qed.

Lemma lookup_retained now m address : is_Some (retain_failures now m !! address) -> is_Some (m !! address).
Proof.
  unfold retain_failures. intros [l Hl]. apply map_lookup_filter_Some in Hl as [Hl _].
  rewrite lookup_fmap in Hl. by destruct (m !! address).
Qed.
Lemma retained_size now m : (msize (retain_failures now m) <= msize m)%Z.
Proof.
  unfold msize, retain_failures. rewrite <-(map_size_fmap (recent now) m). apply inj_le. apply map_size_filter.
Qed.

Lemma failures_kept self c :
  match c with CallRateLimited _ _ | CallFailure _ _ | CallClear _ => True
  | _ => ai_failures (auth_step self c) = ai_failures self end.
Proof. destruct c; try done. cbn. by destruct (new_session _ _ _). Qed.

Lemma failures_size self c : (msize (ai_failures self) < MAX_FAILURE_ADDRESSES)%Z ->
  (msize (ai_failures (auth_step self c)) <= msize (ai_failures self) + 1)%Z.
Proof.
  intros Hm. pose proof (failures_kept self c) as Hk. destruct c; try (rewrite Hk; lia); cbn.
  - pose proof (retained_size now (ai_failures self)).
    pose proof (msize_insert (retain_failures now (ai_failures self)) address
      (default [] (retain_failures now (ai_failures self) !! address))). lia.
  - rewrite (proj2 (Z.leb_gt _ _)) by done. apply msize_insert.
  - pose proof (msize_delete (ai_failures self) address). lia.
Qed.

Lemma failures_of_snoc address h c :
  failures_of address (h ++ [c]) =
    match c with
    | CallFailure now a => if bool_decide (a = address) then failures_of address h ++ [now] else failures_of address h
    | CallClear a => if bool_decide (a = address) then [] else failures_of address h
    | _ => failures_of address h
    end.
Proof. unfold failures_of. by rewrite foldl_app. Qed.

(** While no address can have been evicted, the table counts the failures that matter. *)
Lemma failures_held h self : ai_failures self = ∅ -> (len h <= MAX_FAILURE_ADDRESSES)%Z ->
  (msize (ai_failures (run_calls h self)) <= len h)%Z /\
  forall now address, before now h -> held now address (run_calls h self) = recent now (failures_of address h).
Proof.
  intros H0. induction h as [|c h IH] using rev_ind; intros Hlen.
  { split; [cbn; by rewrite H0|]. intros. unfold held. cbn. by rewrite H0, lookup_empty. }
  rewrite len_app in *. change (len [c]) with 1%Z in *. destruct IH as [Hsize Hheld]; [lia|].
  rewrite run_calls_app. set (self' := run_calls h self) in *. change (run_calls [c] self') with (auth_step self' c).
  split; [pose proof (failures_size self' c); lia|]. intros now address Hb.
  assert (Hb' : before now h) by by (intros c' t ? ?; apply (Hb c'); [apply elem_of_app; by left|]).
  assert (Hc : forall t, clock_of c = Some t -> (t <= now)%Z) by (intros t; apply Hb; apply elem_of_app; right; by left).
  specialize (Hheld now address Hb'). unfold held in *. rewrite failures_of_snoc.
  pose proof (failures_kept self' c) as Hk. destruct c as [t a|t a|a| | |]; try (by rewrite Hk); cbn; clear Hk.
  - specialize (Hc t eq_refl). destruct (decide (a = address)) as [->|Hne].
    + rewrite lookup_insert_eq. cbn. rewrite held_retained by done. exact Hheld.
    + rewrite lookup_insert_ne by done. rewrite held_retained by done. exact Hheld.
  - rewrite (proj2 (Z.leb_gt _ _)) by lia. cbn. destruct (decide (a = address)) as [->|Hne].
    + rewrite lookup_insert_eq, bool_decide_true by done. cbn. by rewrite !recent_app, Hheld.
    + rewrite lookup_insert_ne, bool_decide_false by done. exact Hheld.
  - destruct (decide (a = address)) as [->|Hne].
    + by rewrite lookup_delete_eq, bool_decide_true.
    + rewrite lookup_delete_ne, bool_decide_false by done. exact Hheld.
Qed.

Lemma rate_limited_held now address self :
  (is_rate_limited now address self).1 = (MAX_LOGIN_FAILURES <=? len (held now address self))%Z.
Proof.
  unfold is_rate_limited, held. cbn. pose proof (held_retained now now address (ai_failures self)) as H.
  rewrite <-H by lia. clear H. do 2 f_equal. unfold retain_failures. rewrite map_lookup_filter, lookup_fmap.
  destruct (ai_failures self !! address) as [l|]; [|done]. cbn.
  destruct (decide (recent now l <> [])) as [Hne|Hne]; [|by rewrite option_guard_False].
  rewrite option_guard_True by done. cbn. by rewrite (recent_recent now now) by lia.
Qed.

(** Guessing is limited, address by address.  As long as fewer than [MAX_FAILURE_ADDRESSES]
    calls have been made, and whatever calls the other clients make in between, the next login
    from an address is refused exactly when [MAX_LOGIN_FAILURES] of its failures since its last
    success are at most [LOGIN_WINDOW] old; and a login that is refused, or whose password is
    wrong, never yields a session or a cookie. *)
Theorem guesses_are_limited username password_hash secure ttl h now address :
  before now h -> (len h <= MAX_FAILURE_ADDRESSES)%Z ->
  let self := run_calls h (AuthState_new username password_hash secure ttl) in
  (is_rate_limited now address self).1 = (MAX_LOGIN_FAILURES <=? len (recent now (failures_of address h)))%Z /\
  (forall env name password r w',
     (forall s, aa_others (env 0%nat) s = s) -> aa_now (env 0%nat) = now ->
     login sha256 verify_password first_session first_address env address name password (mkAuthWorld self 0) = (r, w') ->
     (is_rate_limited now address self).1 = true -> r = Err too_many_requests /\ aw_step w' = 1%nat) /\
  (forall env name password w w' answer,
     lawful env -> aw_auth w = self ->
     login sha256 verify_password first_session first_address env address name password w = (Ok answer, w') ->
     name = username /\ verify_password password_hash password = true).
Proof.
  intros Hb Hlen self. split_and!.
  - rewrite rate_limited_held. unfold self. by rewrite (proj2 (failures_held h (AuthState_new username password_hash secure ttl) eq_refl Hlen)).
  - intros env name password r w' Hid Hnow H Hlim. unfold login, eff_bind at 1, call at 1 in H. cbn [aw_step aw_auth] in H.
    rewrite Hid, Hnow in H. destruct (is_rate_limited now address self) as [limited s1] eqn:E. cbn in Hlim. subst limited.
    by injection H as <- <-.
  - intros env name password w w' answer Henv Hw H. unfold login in H. apply eff_bind_Ok in H as (limited & w1 & H1 & H).
    destruct limited; [done|]. apply eff_bind_Ok in H as (verified & w2 & H2 & H). destruct verified; cbn [negb] in H.
    2: { by apply eff_bind_Ok in H as (? & ? & _ & H). }
    assert (extends self w1) as [calls Hw1].
    { eapply call_extends in H1; [exact H1|done| |exists []; by rewrite Hw]. intros a s.
      by exists [CallRateLimited (aa_now a) address]. }
    unfold call in H2. destruct (Henv (aw_step w1)) as [others Ho]. rewrite Ho, Hw1 in H2. injection H2 as Hv _.
    unfold verify in Hv. apply andb_true_iff in Hv as [Hn Hp]. apply bool_decide_eq_true in Hn.
    unfold self in *. rewrite <-!run_calls_app in *.
    destruct (config_kept (h ++ calls ++ others) (AuthState_new username password_hash secure ttl)) as (_ & Hu & Hh).
    rewrite Hu in Hn. rewrite Hh in Hp. done.
Qed.

(** *** What passes the limit *)

(** Logins from [n] addresses, one after the other, all of them with a wrong password. *)
Definition failed_login (now address : Z) : list AuthCall := [CallRateLimited now address; CallFailure now address].
Definition sweep (now : Z) (n : nat) : list AuthCall := concat (map (failed_login now) (seqZ 0 (Z.of_nat n))).

Lemma recent_now now : recent now [now] = [now].
Proof. unfold recent, duration_since, LOGIN_WINDOW, SECOND. cbn. by rewrite Z.sub_diag. Qed.

Lemma swept now n self : ai_failures self = ∅ ->
  let failures := ai_failures (run_calls (sweep now n) self) in
  size failures = n /\ forall a l, failures !! a = Some l -> l = [now] /\ (0 <= a < Z.of_nat n)%Z.
Proof.
  intros H0. induction n as [|n [Hsize Hall]].
  { change (sweep now 0) with (@nil AuthCall). cbn. rewrite H0. split; [done|]. intros a l. by rewrite lookup_empty. }
  assert (Hs : sweep now (S n) = sweep now n ++ failed_login now (Z.of_nat n)).
  { unfold sweep. by rewrite seqZ_S, map_app, concat_app. }
  rewrite Hs, run_calls_app. set (self' := run_calls (sweep now n) self) in *.
  assert (Hr : retain_failures now (ai_failures self') = ai_failures self').
  { apply map_eq. intros a. unfold retain_failures. rewrite map_lookup_filter, lookup_fmap.
    destruct (ai_failures self' !! a) as [l|] eqn:El; [|done]. cbn. apply Hall in El as [-> _].
    by rewrite recent_now, option_guard_True. }
  assert (Hn : ai_failures self' !! Z.of_nat n = None).
  { destruct (ai_failures self' !! _) as [l|] eqn:El; [|done]. apply Hall in El as [_ ?]. lia. }
  cbn. rewrite Hr, Hn. cbn.
  rewrite bool_decide_true by (rewrite lookup_insert_eq; by eexists). rewrite andb_false_r, lookup_insert_eq. cbn.
  rewrite insert_insert_eq. split.
  - rewrite map_size_insert_None, Hsize by done. done.
  - intros a l. destruct (decide (a = Z.of_nat n)) as [->|Hne].
    + rewrite lookup_insert_eq. intros [= <-]. split; [done|lia].
    + rewrite lookup_insert_ne by done. intros Ha%Hall. split; [apply Ha|lia].
Qed.

(** The calls of a login on the table of failures. *)
Definition counts_failures (c : AuthCall) : Prop :=
  match c with CallRateLimited _ _ | CallFailure _ _ | CallClear _ => True | _ => False end.

Lemma failures_untouched between self :
  Forall (fun c => ~ counts_failures c) between -> ai_failures (run_calls between self) = ai_failures self.
Proof.
  revert self. induction between as [|c between IH]; intros self H; [done|].
  apply Forall_cons in H as [Hc H]. change (run_calls (c :: between) self) with (run_calls between (auth_step self c)).
  rewrite IH by done. pose proof (failures_kept self c) as Hk. destruct c; try exact Hk; by destruct Hc.
Qed.

(** The address a check has entered is not evicted for, nor is any other. *)
Lemma checked_failure_keeps now now' address between self a :
  Forall (fun c => ~ counts_failures c) between ->
  let self' := run_calls (CallRateLimited now address :: between) self in
  is_Some (ai_failures self' !! a) -> is_Some (ai_failures (register_failure first_address now' address self') !! a).
Proof.
  intros Hb self' Ha.
  assert (Hf : ai_failures self' = ai_failures (is_rate_limited now address self).2)
    by exact (failures_untouched between (is_rate_limited now address self).2 Hb).
  unfold register_failure. rewrite Hf in *. cbn in Ha |- *.
  rewrite (bool_decide_true (is_Some (_ !! address))) by (rewrite lookup_insert_eq; by eexists).
  rewrite andb_false_r. destruct (decide (a = address)) as [->|Hne].
  - rewrite lookup_insert_eq. by eexists.
  - by rewrite lookup_insert_ne.
Qed.

(** The check of another address drops the entry again, and the failure then evicts one. *)
Lemma interleaved_failure_evicts now a b self :
  first_of first_address -> a <> b ->
  recent now (default [] (ai_failures self !! a)) = [] ->
  (MAX_FAILURE_ADDRESSES <= msize (retain_failures now (ai_failures self)))%Z ->
  let self' := run_calls [CallRateLimited now a; CallRateLimited now b] self in
  exists k, k <> a /\ is_Some (ai_failures self' !! k) /\
    ai_failures (register_failure first_address now a self') !! k = None.
Proof.
  intros Hlive Hab Ha Hfull. set (R := retain_failures now (ai_failures self)) in *.
  assert (HR : R !! a = None).
  { unfold R, retain_failures. rewrite map_lookup_filter, lookup_fmap.
    destruct (ai_failures self !! a) as [l|]; [|done]. cbn in *. rewrite Ha.
    by rewrite option_guard_False by (intros H; by apply H). }
  assert (Hrr : retain_failures now (<[a := default [] (R !! a)]> R) = R).
  { apply map_eq. intros k. unfold retain_failures at 1. rewrite map_lookup_filter, lookup_fmap, HR.
    destruct (decide (k = a)) as [->|Hne].
    - rewrite lookup_insert_eq. cbn. rewrite HR. by rewrite option_guard_False by (intros H; by apply H).
    - rewrite lookup_insert_ne by done. unfold R, retain_failures. rewrite map_lookup_filter, lookup_fmap.
      destruct (ai_failures self !! k) as [l|]; [|done]. cbn.
      destruct (decide (recent now l <> [])) as [Hl|Hl]; [|by rewrite option_guard_False].
      rewrite option_guard_True by done. cbn. rewrite (recent_recent now now) by lia. by rewrite option_guard_True. }
  intros self'. assert (Hf : ai_failures self' = <[b := default [] (R !! b)]> R).
  { unfold self'. cbn. fold R. by rewrite Hrr. }
  assert (Hna : ai_failures self' !! a = None) by (by rewrite Hf, lookup_insert_ne).
  assert (Hsize : (MAX_FAILURE_ADDRESSES <= msize (ai_failures self'))%Z).
  { rewrite Hf. unfold msize in *. rewrite map_size_insert. destruct (R !! b); cbn; lia. }
  pose proof (Hlive (ai_failures self')) as Hk. destruct (first_address _) as [k|] eqn:Ek.
  2: { rewrite Hk in Hsize. unfold msize in Hsize. rewrite map_size_empty in Hsize.
       vm_compute in Hsize. by destruct Hsize. }
  exists k. assert (Hne : k <> a) by (intros ->; rewrite Hna in Hk; by destruct Hk).
  split; [done|]. split; [done|]. unfold register_failure. cbv zeta.
  rewrite (proj2 (Z.leb_le _ _) Hsize), bool_decide_false, Ek by (rewrite Hna; by intros []). cbn.
  rewrite lookup_insert_ne by done. apply lookup_delete_eq.
Qed.

(** C37: What the limit on failed logins does not do. It is checked before the password is, and
    the failure is recorded after, so any number of logins that run side by side all pass the
    check. And the cap on the number of remembered addresses does not hold: the check enters
    the address whose failure is recorded next, so a failure whose check was the last login
    call before it evicts nobody, however full the table is, and any number of addresses with
    one wrong password each fill it with that many entries. Only when the check of another
    address comes between the two, which drops the empty entry again, does a failure in a full
    table evict an address. *)
Theorem login_limit_can_be_passed username password_hash secure ttl now address :
  let start := AuthState_new username password_hash secure ttl in
  (forall n, (is_rate_limited now address (run_calls (replicate n (CallRateLimited now address)) start)).1 = false) /\
  (forall h between now' a, Forall (fun c => ~ counts_failures c) between ->
     let self := run_calls (h ++ CallRateLimited now address :: between) start in
     is_Some (ai_failures self !! a) ->
     is_Some (ai_failures (register_failure first_address now' address self) !! a)) /\
  (forall n, msize (ai_failures (run_calls (sweep now n) start)) = Z.of_nat n) /\
  (first_of first_address ->
   forall h other, other <> address ->
     recent now (default [] (ai_failures (run_calls h start) !! address)) = [] ->
     (MAX_FAILURE_ADDRESSES <= msize (retain_failures now (ai_failures (run_calls h start))))%Z ->
     let self := run_calls (h ++ [CallRateLimited now address; CallRateLimited now other]) start in
     exists k, k <> address /\ is_Some (ai_failures self !! k) /\
       ai_failures (register_failure first_address now address self) !! k = None).
Proof.
  intros start. split_and!.
  - intros n. rewrite rate_limited_held.
    assert (H : held now address (run_calls (replicate n (CallRateLimited now address)) start) = []).
    { induction n as [|n IH]; [done|]. rewrite replicate_S_end, run_calls_app. unfold held in *. cbn.
      rewrite lookup_insert_eq. cbn. by rewrite held_retained. }
    by rewrite H.
  - intros h between now' a Hb self. unfold self. rewrite run_calls_app. by apply checked_failure_keeps.
  - intros n. unfold msize. by rewrite (proj1 (swept now n start eq_refl)).
  - intros Hlive h other Ho Hr Hfull self. unfold self. rewrite run_calls_app.
    by apply interleaved_failure_evicts.
Qed.
End histories.

(** ** Witnesses *)

Definition any_text (b : bytes) : option string := Some (String.string_of_list_byte b).
Definition first_key {A} (m : gmap bytes A) : option bytes := fst <$> head (map_to_list m).
Lemma first_key_first {A} : first_of (first_key (A := A)).
Proof.
  intros m. unfold first_key. destruct (map_to_list m) as [|[k x] l] eqn:E; cbn.
  - by apply map_to_list_empty_iff.
  - exists x. apply elem_of_map_to_list. rewrite E. by left.
Qed.

Definition header (name value : string) : string * bytes := (name, bytes_of_string value).
Definition example_request (method : Method) (csrf : string) : Request :=
  mkRequest method [header "cookie" "other=1; etl_session=secret; x=2"; header CSRF_HEADER csrf].
Definition example_history : list AuthCall :=
  [CallFailure 5 77; CallCreate "secret" "token" 10 10; CallRevoke "another"; CallAuthenticate 20 "secret"].

Example cookies_are_not_confused :
  cookie_value any_text (rq_headers (example_request GET "")) SESSION_COOKIE = Some "secret" /\
  cookie_value any_text [header "cookie" "xetl_session=1;etl_session =2"] SESSION_COOKIE = None.
Proof. split; vm_compute; reflexivity. Qed.

Definition example_gate (method : Method) (csrf : string) : result ApiError SessionIdentity :=
  (require_session id any_text 30 (example_request method csrf)
     (run_calls id first_key (fun _ => None) example_history (AuthState_new "admin" "hash" true 100))).1.
Example gate_cases :
  is_ok (example_gate GET "") = true /\ is_ok (example_gate POST "token") = true /\
  example_gate POST "guess" = Err (forbidden "invalid CSRF token").
Proof. split_and!; vm_compute; reflexivity. Qed.

Lemma requests_need_a_live_session_witness :
  exists identity self', require_session id any_text 30 (example_request POST "token")
    (run_calls id first_key (fun _ => None) example_history (AuthState_new "admin" "hash" true 100)) = (Ok identity, self') /\
  exists token csrf started at_, CallCreate token csrf started at_ ∈ example_history /\ (30 < started + 100)%Z.
Proof.
  destruct (require_session id any_text 30 (example_request POST "token")
    (run_calls id first_key (fun _ => None) example_history (AuthState_new "admin" "hash" true 100)))
    as [[identity|e|] self'] eqn:E;
    [|exfalso; apply (f_equal fst) in E; vm_compute in E; discriminate E..].
  exists identity, self'. split; [reflexivity|].
  destruct (requests_need_a_live_session id first_key (fun _ => None) _ _ _ _ _ _ _ _ _ _ E)
    as (token & h1 & login_token & csrf & started & at_ & h2 & _ & Hh & _ & Hlive & _).
  assert (Hin : CallCreate login_token csrf started at_ ∈ example_history).
  { rewrite Hh. apply elem_of_app. right. left. }
  exists login_token, csrf, started, at_. split; [exact Hin|exact Hlive].
Defined.

Lemma live_sessions_are_served_witness :
  (exists identity self', require_session id any_text 30 (example_request POST "token")
     (run_calls id first_key (fun _ => None) ([CallFailure 5 77] ++ CallCreate "secret" "token" 10 10 ::
        [CallRevoke "another"; CallAuthenticate 20 "secret"]) (AuthState_new "admin" "hash" true 100)) = (Ok identity, self') /\
     id_csrf_token identity = "token").
Proof.
  apply (live_sessions_are_served id first_key (fun _ => None) first_key_first any_text "admin" "hash" true 100
    [CallFailure 5 77] "secret" "token" 10 10 [CallRevoke "another"; CallAuthenticate 20 "secret"] 30
    (example_request POST "token")).
  - vm_compute. discriminate.
  - constructor; [|constructor; [|constructor]]; split; try (intros H; vm_compute in H; discriminate H).
    + intros now H. discriminate H.
    + intros H. exact H.
    + intros now H. injection H as <-. reflexivity.
  - vm_compute. discriminate.
  - reflexivity.
  - vm_compute. reflexivity.
  - right. vm_compute. reflexivity.
Defined.

Definition guesses (n : nat) : list AuthCall := concat (replicate n (failed_login 100 77)).
Lemma guesses_are_limited_witness :
  (is_rate_limited 200 77 (run_calls id first_key (fun _ => None) (guesses 4) (AuthState_new "admin" "hash" true 100))).1 = false /\
  (is_rate_limited 200 77 (run_calls id first_key (fun _ => None) (guesses 5) (AuthState_new "admin" "hash" true 100))).1 = true.
Proof.
  split.
  - refine (eq_trans (proj1 (guesses_are_limited id (fun _ _ => false) first_key (fun _ => None) "admin" "hash" true 100
      (guesses 4) 200 77 _ _)) _); [|vm_compute; discriminate|vm_compute; reflexivity].
    intros c t Hc Ht. unfold guesses in Hc. cbn in Hc. rewrite !elem_of_cons, elem_of_nil in Hc.
    destruct_or!; subst c; first [contradiction|cbn in Ht; injection Ht as <-; lia].
  - refine (eq_trans (proj1 (guesses_are_limited id (fun _ _ => false) first_key (fun _ => None) "admin" "hash" true 100
      (guesses 5) 200 77 _ _)) _); [|vm_compute; discriminate|vm_compute; reflexivity].
    intros c t Hc Ht. unfold guesses in Hc. cbn in Hc. rewrite !elem_of_cons, elem_of_nil in Hc.
    destruct_or!; subst c; first [contradiction|cbn in Ht; injection Ht as <-; lia].
Defined.
