(* ===== verification/Api.v ===== *)
(** * The management API

    Models [crates/api/src/routes.rs]: the table of routes, every handler over the control store
    and the supervisor, and the text of the metrics.

    A handler awaits at each of its calls, so that other requests, the reconciler and the jobs
    act in between; a call on the store can fail, and its reply can be lost after it has
    committed.  Responses are values before they are written as JSON.  Whether a permit is
    free, whether a timeout strikes, and what a connection test answers are the environment's.
    UUIDs are numbers; [snapshot_value] is serde's [to_value]. *)

From S2P Require Import Prelude Effects Core Schema Mapping Sql Settings Planning Source Catalog Telemetry Supervisor Store Errors Setup Auth.

(** ** Requests and responses *)

Record CreateSourceRequest : Type := mkCreateSourceRequest {
  cs_name : string;
  cs_prefix : string;
  cs_database_name : string;
  cs_topology : SourceTopology;
  cs_dsn : string;
  cs_settings : Value;
}.
Record CreateTargetRequest : Type := mkCreateTargetRequest {
  ct_name : string;
  ct_database_name : string;
  ct_dsn : string;
  ct_settings : Value;
}.
Record CreatePipelineRequest : Type := mkCreatePipelineRequest {
  cp_name : string;
  cp_source_id : Z;
  cp_target_id : Z;
  cp_settings : Value;
}.

Record SourceView : Type := mkSourceView {
  svw_id : Z;
  svw_name : string;
  svw_prefix : string;
  svw_database_name : string;
  svw_topology : SourceTopology;
  svw_settings : Value;
  svw_enabled : bool;
  svw_created_at : Z;
  svw_updated_at : Z;
}.
Record TargetView : Type := mkTargetView {
  tvw_id : Z;
  tvw_name : string;
  tvw_database_name : string;
  tvw_settings : Value;
  tvw_enabled : bool;
  tvw_created_at : Z;
  tvw_updated_at : Z;
}.
Record PipelineView : Type := mkPipelineView {
  pvw_id : Z;
  pvw_name : string;
  pvw_source_id : Z;
  pvw_target_id : Z;
  pvw_desired_running : bool;
  pvw_config_revision : Z;
  pvw_snapshot_generation : Z;
  pvw_settings : Value;
  pvw_runtime_state : string;
  pvw_runtime : option PipelineRuntimeSnapshot;
  pvw_created_at : Z;
  pvw_updated_at : Z;
}.
Record OperationView : Type := mkOperationView {
  ovw_id : string;
  ovw_pipeline_id : option Z;
  ovw_operation_type : string;
  ovw_state : string;
  ovw_detail : Value;
  ovw_runtime : option PipelineRuntimeSnapshot;
  ovw_created_at : option Z;
  ovw_updated_at : option Z;
}.
Record OverviewResponse : Type := mkOverviewResponse {
  ow_sources : Z;
  ow_targets : Z;
  ow_pipelines : Z;
  ow_running_pipelines : Z;
}.
Record ConnectionReport : Type := mkConnectionReport {
  cr_server_version : string;
  cr_topology : string;
  cr_warnings : list string;
}.

(** [SourceView::from]: the credential stays behind. *)
Definition SourceView_from (source : SourceProfile) : SourceView :=
  mkSourceView (sp_id source) (sp_name source) (sp_prefix source) (sp_database_name source) (sp_topology source)
    (sp_settings source) (sp_enabled source) (sp_created_at source) (sp_updated_at source).
Definition TargetView_from (target : TargetProfile) : TargetView :=
  mkTargetView (tp_id target) (tp_name target) (tp_database_name target) (tp_settings target) (tp_enabled target)
    (tp_created_at target) (tp_updated_at target).

Definition pipeline_view (pipeline : PipelineDefinition) (running : bool) (runtime : option PipelineRuntimeSnapshot)
    : PipelineView :=
  let runtime_state :=
    match runtime with
    | Some snapshot => runtime_state_as_str (rt_state snapshot)
    | None => if running then "running" else "stopped"
    end in
  mkPipelineView (pd_id pipeline) (pd_name pipeline) (pd_source_id pipeline) (pd_target_id pipeline)
    (pd_desired_running pipeline) (pd_config_revision pipeline) (pd_snapshot_generation pipeline)
    (pd_settings pipeline) runtime_state runtime (pd_created_at pipeline) (pd_updated_at pipeline).

(** ** Checks *)

Definition validate_name (value : string) : result ApiError unit :=
  if Lsn.is_empty (trim value) || contains_char nul value || (128 <? slen value)%Z
  then Err (bad_request "name must contain 1 to 128 valid characters") else Ok tt.

Definition is_object (value : Value) : bool := match value with VObject _ => true | _ => false end.
Definition validate_object (value : Value) : result ApiError unit :=
  if is_object value then Ok tt else Err (bad_request "settings must be a JSON object").
Definition empty_object : Value := VObject [].

(** The text of a database error stands for its SQLSTATE. *)
Definition is_unique_violation (database : string) : bool :=
  bool_decide (database = "duplicate key value violates unique constraint").
Definition store_error (error : StoreError) : ApiError :=
  match error with
  | StoreDatabase database =>
      if is_unique_violation database then conflict "an object with the same identity already exists" else internal
  | _ => internal
  end.

(** ** The world of a request *)

(** What a call meets: what others did since the last one, an error that keeps it from running,
    a reply that is lost, the clock of the store, and what is drawn or measured. *)
Record ApiAnswer : Type := mkApiAnswer {
  ap_control : ControlDb -> ControlDb;
  ap_supervisor : PipelineSupervisor -> PipelineSupervisor;
  ap_failed : option string;
  ap_lost : option (string * bool);
  ap_now : Z;
  ap_uuid : Z;
  ap_nonce : bytes;
  ap_permit : bool;
  ap_timeout : bool;
  ap_read_only : bool;
  ap_report : result string ConnectionReport;
}.

Record ApiWorld : Type := mkApiWorld {
  ax_control : ControlDb;
  ax_supervisor : PipelineSupervisor;
  ax_step : nat;
}.
Notation Api := (Eff ApiWorld ApiError).

Section api.
Context (seal : bytes -> bytes -> bytes -> bytes -> option bytes) (master_key : MasterKey)
  (definition : PipelineDefinition -> Value) (snapshot_value : PipelineRuntimeSnapshot -> Value).
Context (env : nat -> ApiAnswer).

Definition await : Api ApiAnswer := fun w =>
  let a := env (ax_step w) in
  (Ok a, mkApiWorld (ap_control a (ax_control w)) (ap_supervisor a (ax_supervisor w)) (S (ax_step w))).

(** A statement that reads the store. *)
Definition read_store {A} (f : ControlDb -> result StoreError A) : Api A :=
  do! a := await in
  match ap_failed a with
  | Some message => eff_err (store_error (StoreDatabase message))
  | None => do! w := get in pure (map_err store_error (f (ax_control w)))
  end.

(** A statement or transaction that changes it. *)
Definition write_store {A} (f : ApiAnswer -> ControlDb -> result StoreError A * ControlDb) : Api A :=
  do! a := await in
  fun w =>
    let (r, db) := f a (ax_control w) in
    let written := mkApiWorld db (ax_supervisor w) (ax_step w) in
    match ap_failed a, ap_lost a with
    | Some message, _ => (Err (store_error (StoreDatabase message)), w)
    | None, Some (message, executed) =>
        (Err (store_error (StoreDatabase message)), if executed : bool then written else w)
    | None, None => (map_err store_error r, written)
    end.

Definition ask_supervisor {A} (f : PipelineSupervisor -> A) : Api A :=
  do! _ := await in do! w := get in eff_ret (f (ax_supervisor w)).

Definition api_sources : Api (list SourceProfile) := read_store list_sources.
Definition api_targets : Api (list TargetProfile) := read_store (fun db => Ok (list_targets db)).
Definition api_pipelines : Api (list PipelineDefinition) := read_store (fun db => Ok (list_pipelines db)).

(** ** Handlers *)

Definition live : StatusCode := NO_CONTENT.

Definition ready : Api StatusCode :=
  do! a := await in
  do! w := get in
  eff_ret
    (if ap_timeout a then SERVICE_UNAVAILABLE
     else match ap_failed a, check_readiness (ap_read_only a) (ax_control w) with
          | None, Ok _ => NO_CONTENT
          | _, _ => SERVICE_UNAVAILABLE
          end).

Definition overview : Api OverviewResponse :=
  do! sources := api_sources in
  do! targets := api_targets in
  do! pipelines := api_pipelines in
  do! running := ask_supervisor running in
  eff_ret (mkOverviewResponse (len sources) (len targets) (len pipelines) (len running)).

Definition operation_view (operation : OperationRecord) : OperationView :=
  mkOperationView (id_to_string (op_id operation)) (op_pipeline_id operation) (op_operation_type operation)
    (op_state operation) (op_detail operation) None (Some (op_created_at operation)) (Some (op_updated_at operation)).

(** [Option::or]. *)
Definition or_else {A} (a b : option A) : option A := match a with Some _ => a | None => b end.

Definition runtime_view (snapshot : PipelineRuntimeSnapshot) : OperationView :=
  let updated_at :=
    or_else (or_else (or_else (or_else (last_ack_at snapshot) (last_apply_at snapshot)) (last_transaction_at snapshot))
               (stopped_at snapshot)) (started_at snapshot) in
  mkOperationView ("runtime:" +:+ id_to_string (rt_pipeline_id snapshot)) (Some (rt_pipeline_id snapshot))
    "replication" (runtime_state_as_str (rt_state snapshot)) (snapshot_value snapshot) (Some snapshot) None updated_at.

Definition operations : Api (list OperationView) :=
  do! stored := read_store (fun db => Ok (list_operations db)) in
  do! snapshots := ask_supervisor runtime_snapshots in
  eff_ret (map operation_view stored ++ map runtime_view snapshots).

Definition list_source_views : Api (list SourceView) :=
  do! sources := api_sources in eff_ret (map SourceView_from sources).

Definition create_source (request : CreateSourceRequest) : Api (StatusCode * SourceView) :=
  do! _ := pure (validate_name (cs_name request)) in
  do! _ := pure (validate_name (cs_database_name request)) in
  do! _ := pure (validate_object (cs_settings request)) in
  do! drawn := await in
  let id := ap_uuid drawn in
  do! prefix := pure (map_err (fun e => bad_request (CoreError_to_string e)) (SourcePrefix_new (cs_prefix request))) in
  do! secret :=
    pure (map_err (fun _ => internal)
            (encrypt seal (ap_nonce drawn) master_key (cs_dsn request) (bytes_of_string (source_credential_aad id)) 1)) in
  let source :=
    mkSourceProfile id (cs_name request) prefix (cs_database_name request) (cs_topology request) secret
      (cs_settings request) true (ap_now drawn) (ap_now drawn) in
  do! _ := write_store (fun a => put_source (ap_now a) source) in
  eff_ret (CREATED, SourceView_from source).

Definition list_target_views : Api (list TargetView) :=
  do! targets := api_targets in eff_ret (map TargetView_from targets).

Definition create_target (request : CreateTargetRequest) : Api (StatusCode * TargetView) :=
  do! _ := pure (validate_name (ct_name request)) in
  do! _ := pure (validate_name (ct_database_name request)) in
  do! _ := pure (validate_object (ct_settings request)) in
  do! drawn := await in
  let id := ap_uuid drawn in
  do! secret :=
    pure (map_err (fun _ => internal)
            (encrypt seal (ap_nonce drawn) master_key (ct_dsn request) (bytes_of_string (target_credential_aad id)) 1)) in
  let target :=
    mkTargetProfile id (ct_name request) (ct_database_name request) secret (ct_settings request) true
      (ap_now drawn) (ap_now drawn) in
  do! _ := write_store (fun a => put_target (ap_now a) target) in
  eff_ret (CREATED, TargetView_from target).

(** [test_source] and [test_target]; the permit is held until the answer. *)
Definition test_connection (endpoint : string) : Api ConnectionReport :=
  do! a := await in
  if negb (ap_permit a) then eff_err (unavailable "connection test capacity is exhausted")
  else if ap_timeout a then eff_err (unavailable (endpoint +:+ " connection test timed out"))
  else pure (map_err bad_request (ap_report a)).
Definition test_source : Api ConnectionReport := test_connection "source".
Definition test_target : Api ConnectionReport := test_connection "target".

(** The snapshots by their pipeline. *)
Definition snapshots_by_id (snapshots : list PipelineRuntimeSnapshot) : gmap Z PipelineRuntimeSnapshot :=
  foldl (fun m snapshot => <[rt_pipeline_id snapshot := snapshot]> m) ∅ snapshots.

Definition list_pipeline_views : Api (list PipelineView) :=
  do! running := ask_supervisor running in
  do! snapshots := ask_supervisor runtime_snapshots in
  do! pipelines := api_pipelines in
  eff_ret
    (map (fun pipeline =>
            pipeline_view pipeline (bool_decide (pd_id pipeline ∈ running))
              (snapshots_by_id snapshots !! pd_id pipeline)) pipelines).

Definition create_pipeline (request : CreatePipelineRequest) : Api (StatusCode * PipelineView) :=
  do! _ := pure (validate_name (cp_name request)) in
  do! _ := pure (validate_object (cp_settings request)) in
  do! sources := api_sources in
  do! targets := api_targets in
  if negb (existsb (fun source => (sp_id source =? cp_source_id request)%Z) sources)
  then eff_err (bad_request "source_id does not exist")
  else if negb (existsb (fun target => (tp_id target =? cp_target_id request)%Z) targets)
  then eff_err (bad_request "target_id does not exist")
  else
    do! drawn := await in
    let pipeline :=
      mkPipelineDefinition (ap_uuid drawn) (cp_name request) (cp_source_id request) (cp_target_id request) false 1 1
        (cp_settings request) (ap_now drawn) (ap_now drawn) in
    do! _ := write_store (fun a => put_pipeline definition (ap_now a) pipeline) in
    eff_ret (CREATED, pipeline_view pipeline false None).

Definition find_pipeline (id : Z) : Api PipelineDefinition :=
  do! pipelines := api_pipelines in
  pure (ok_or (List.find (fun pipeline => (pd_id pipeline =? id)%Z) pipelines) (not_found "pipeline")).

Definition view_now (pipeline : PipelineDefinition) (id : Z) : Api PipelineView :=
  do! running := ask_supervisor (fun s => bool_decide (id ∈ running s)) in
  do! runtime := ask_supervisor (runtime_snapshot id) in
  eff_ret (pipeline_view pipeline running runtime).

Definition get_pipeline (id : Z) : Api PipelineView :=
  do! pipeline := find_pipeline id in view_now pipeline id.

Definition set_desired_running (id : Z) (desired_running : bool) : Api PipelineView :=
  do! updated := write_store (fun a => set_pipeline_desired_running (ap_now a) id desired_running) in
  do! pipeline := pure (ok_or updated (not_found "pipeline")) in
  view_now pipeline id.
Definition start_pipeline (id : Z) : Api PipelineView := set_desired_running id true.
Definition pause_pipeline (id : Z) : Api PipelineView := set_desired_running id false.

(** The header [x-operation-id] and the view; a UUID is always a header value. *)
Definition rebuild_pipeline (id : Z) : Api (string * PipelineView) :=
  do! request := write_store (fun a => request_pipeline_rebuild (ap_now a) (ap_uuid a) id) in
  do! request := pure (ok_or request (not_found "pipeline")) in
  do! view := view_now (rq_pipeline request) id in
  eff_ret (id_to_string (rq_operation_id request), view).

(** ** Metrics *)

Definition quoted (s : string) : string := String dquote (s +:+ String dquote EmptyString).
Definition line (s : string) : string := s +:+ String (chr 10) EmptyString.

Definition family (name help kind : string) : string :=
  line ("# HELP " +:+ name +:+ " " +:+ help) +:+ line ("# TYPE " +:+ name +:+ " " +:+ kind).
Definition gauge (name help : string) (value : Z) : string :=
  family name help "gauge" +:+ line (name +:+ " " +:+ pretty value).

Definition runtime_families : string :=
  String.concat EmptyString
    [family "pg2cb_pipeline_runtime_state" "Current runtime state." "gauge";
     family "pg2cb_pipeline_phase" "Current replication phase." "gauge";
     family "pg2cb_pipeline_source_received_lsn" "Source WAL position observed on the wire." "gauge";
     family "pg2cb_pipeline_source_current_lsn" "Latest committed source WAL position." "gauge";
     family "pg2cb_pipeline_target_checkpoint_lsn" "Target-durable checkpoint WAL position." "gauge";
     family "pg2cb_pipeline_estimated_byte_lag" "Estimated WAL byte distance." "gauge";
     family "pg2cb_pipeline_slot_retained_wal_bytes" "WAL bytes retained by the source logical slot." "gauge";
     family "pg2cb_pipeline_slot_safe_wal_bytes" "WAL bytes remaining before PostgreSQL may invalidate the slot." "gauge";
     family "pg2cb_pipeline_wal_retention_warning" "Whether source WAL retention crossed a warning threshold." "gauge";
     family "pg2cb_pipeline_last_transaction_timestamp_seconds" "Last source transaction time." "gauge";
     family "pg2cb_pipeline_last_apply_timestamp_seconds" "Last target apply time." "gauge";
     family "pg2cb_pipeline_last_ack_timestamp_seconds" "Last source acknowledgement time." "gauge";
     family "pg2cb_pipeline_restart_total" "Number of restarts after the first start." "counter";
     family "pg2cb_pipeline_last_error_info" "Whether a runtime error is present." "gauge"].

(** [str::replace] of one character. *)
Fixpoint replace_char (c : ascii) (by_ : string) (s : string) : string :=
  match s with
  | EmptyString => EmptyString
  | String d s => if bool_decide (d = c) then by_ +:+ replace_char c by_ s else String d (replace_char c by_ s)
  end.
Definition backslash : ascii := "\".
Definition escape_prometheus_label (value : string) : string :=
  replace_char dquote (String backslash (String dquote EmptyString))
    (replace_char backslash (String backslash (String backslash EmptyString)) value).

Definition sample (name labels value : string) : string := line (name +:+ "{" +:+ labels +:+ "} " +:+ value).
Definition append_optional_metric (body name pipeline_id : string) (value : option Z) : string :=
  match value with
  | Some value => body +:+ sample name ("pipeline_id=" +:+ quoted pipeline_id) (pretty value)
  | None => body
  end.

(** [DateTime::timestamp]: whole seconds of an instant in microseconds. *)
Definition timestamp (at_ : Z) : Z := (at_ / 1000000)%Z.
Definition flag (b : bool) : Z := if b then 1%Z else 0%Z.

(** The samples of one pipeline. *)
Definition append_pipeline (body : string) (pipeline : PipelineDefinition) (snapshot : PipelineRuntimeSnapshot)
    : string :=
  let pipeline_id := escape_prometheus_label (id_to_string (pd_id pipeline)) in
  let label := "pipeline_id=" +:+ quoted pipeline_id in
  let body :=
    body +:+ sample "pg2cb_pipeline_runtime_state"
                    (label +:+ ",state=" +:+ quoted (runtime_state_as_str (rt_state snapshot))) "1"
         +:+ sample "pg2cb_pipeline_phase" (label +:+ ",phase=" +:+ quoted (phase_name snapshot)) "1" in
  let optional body metric := append_optional_metric body metric.1 pipeline_id metric.2 in
  let body :=
    foldl optional body
      [("pg2cb_pipeline_source_received_lsn", source_received_lsn snapshot);
       ("pg2cb_pipeline_source_current_lsn", source_current_lsn snapshot);
       ("pg2cb_pipeline_target_checkpoint_lsn", target_checkpoint_lsn snapshot);
       ("pg2cb_pipeline_estimated_byte_lag", estimated_byte_lag snapshot);
       ("pg2cb_pipeline_slot_retained_wal_bytes", slot_retained_wal_bytes snapshot);
       ("pg2cb_pipeline_slot_safe_wal_bytes", slot_safe_wal_bytes snapshot);
       ("pg2cb_pipeline_last_transaction_timestamp_seconds", timestamp <$> last_transaction_at snapshot);
       ("pg2cb_pipeline_last_apply_timestamp_seconds", timestamp <$> last_apply_at snapshot);
       ("pg2cb_pipeline_last_ack_timestamp_seconds", timestamp <$> last_ack_at snapshot)] in
  body +:+ sample "pg2cb_pipeline_restart_total" label (pretty (restart_count snapshot))
       +:+ sample "pg2cb_pipeline_last_error_info" label (pretty (flag (bool_decide (is_Some (last_error snapshot)))))
       +:+ sample "pg2cb_pipeline_wal_retention_warning" label (pretty (flag (wal_retention_warning snapshot))).

Definition metrics_body (sources targets : Z) (pipelines : list PipelineDefinition) (running : Z)
    (snapshots : gmap Z PipelineRuntimeSnapshot) : string :=
  let body :=
    String.concat EmptyString
      [gauge "pg2cb_sources_configured" "Configured PostgreSQL source profiles." sources;
       gauge "pg2cb_targets_configured" "Configured Cloudberry target profiles." targets;
       gauge "pg2cb_pipelines_configured" "Configured replication pipelines." (len pipelines);
       gauge "pg2cb_pipelines_desired_running" "Pipelines whose desired state is running."
         (len (List.filter pd_desired_running pipelines));
       gauge "pg2cb_pipelines_running" "Pipeline jobs currently owned by this process." running] in
  foldl (fun body pipeline =>
    match snapshots !! pd_id pipeline with
    | Some snapshot => append_pipeline body pipeline snapshot
    | None => body
    end) (body +:+ runtime_families) pipelines.

Definition metrics : Api string :=
  do! a := await in
  if negb (ap_permit a) then eff_err (unavailable "a metrics scrape is already in progress")
  else
    do! sources := api_sources in
    do! targets := api_targets in
    do! pipelines := api_pipelines in
    do! running := ask_supervisor running in
    do! snapshots := ask_supervisor runtime_snapshots in
    eff_ret (metrics_body (len sources) (len targets) pipelines (len running) (snapshots_by_id snapshots)).
(** *** All of them *)

(** A request that has reached its handler, with its body and its path parsed. *)
Inductive Action : Type :=
| ActReady | ActMetrics | ActOverview | ActOperations
| ActListSources | ActCreateSource (request : CreateSourceRequest) | ActTestSource
| ActListTargets | ActCreateTarget (request : CreateTargetRequest) | ActTestTarget
| ActListPipelines | ActCreatePipeline (request : CreatePipelineRequest) | ActGetPipeline (id : Z)
| ActStartPipeline (id : Z) | ActPausePipeline (id : Z) | ActRebuildPipeline (id : Z).

Inductive Reply : Type :=
| ReplyStatus (status : StatusCode)
| ReplyText (body : string)
| ReplyOverview (response : OverviewResponse)
| ReplyOperations (items : list OperationView)
| ReplySources (items : list SourceView)
| ReplySource (created : StatusCode * SourceView)
| ReplyTargets (items : list TargetView)
| ReplyTarget (created : StatusCode * TargetView)
| ReplyReport (report : ConnectionReport)
| ReplyPipelines (items : list PipelineView)
| ReplyNewPipeline (created : StatusCode * PipelineView)
| ReplyPipeline (view : PipelineView)
| ReplyRebuild (requested : string * PipelineView).

Definition reply {A} (f : A -> Reply) (m : Api A) : Api Reply := do! a := m in eff_ret (f a).

Definition handle (action : Action) : Api Reply :=
  match action with
  | ActReady => reply ReplyStatus ready
  | ActMetrics => reply ReplyText metrics
  | ActOverview => reply ReplyOverview overview
  | ActOperations => reply ReplyOperations operations
  | ActListSources => reply ReplySources list_source_views
  | ActCreateSource request => reply ReplySource (create_source request)
  | ActTestSource => reply ReplyReport test_source
  | ActListTargets => reply ReplyTargets list_target_views
  | ActCreateTarget request => reply ReplyTarget (create_target request)
  | ActTestTarget => reply ReplyReport test_target
  | ActListPipelines => reply ReplyPipelines list_pipeline_views
  | ActCreatePipeline request => reply ReplyNewPipeline (create_pipeline request)
  | ActGetPipeline id => reply ReplyPipeline (get_pipeline id)
  | ActStartPipeline id => reply ReplyPipeline (start_pipeline id)
  | ActPausePipeline id => reply ReplyPipeline (pause_pipeline id)
  | ActRebuildPipeline id => reply ReplyRebuild (rebuild_pipeline id)
  end.
End api.

(** ** Routes *)

Inductive Route : Type :=
| Live | Ready | Metrics | Login | CurrentSession | Logout | Overview | Operations
| ListSources | CreateSource | TestSource | ListTargets | CreateTarget | TestTarget
| ListPipelines | CreatePipeline | GetPipeline (id : string) | StartPipeline (id : string)
| PausePipeline (id : string) | RebuildPipeline (id : string).
Global Instance Route_eq_dec : EqDecision Route.
Proof. solve_decision. Defined.

(** [get] also answers HEAD. *)
Definition is_get (method : Method) : bool := match method with GET | HEAD => true | _ => false end.
Definition is_post (method : Method) : bool := match method with POST => true | _ => false end.
Definition on_get (method : Method) (r : Route) : option Route := if is_get method then Some r else None.
Definition on_post (method : Method) (r : Route) : option Route := if is_post method then Some r else None.

(** The four routers that are merged; a path is its segments. *)
Definition open_routes (method : Method) (path : list string) : option Route :=
  match path with
  | ["health"; "live"] => on_get method Live
  | ["api"; "v1"; "auth"; "login"] => on_post method Login
  | _ => None
  end.
Definition operational (method : Method) (path : list string) : option Route :=
  match path with
  | ["health"; "ready"] => on_get method Ready
  | ["metrics"] => on_get method Metrics
  | _ => None
  end.
Definition authenticated_auth (method : Method) (path : list string) : option Route :=
  match path with
  | ["api"; "v1"; "auth"; "session"] => on_get method CurrentSession
  | ["api"; "v1"; "auth"; "logout"] => on_post method Logout
  | _ => None
  end.
Definition authenticated_api (method : Method) (path : list string) : option Route :=
  match path with
  | ["api"; "v1"; "overview"] => on_get method Overview
  | ["api"; "v1"; "operations"] => on_get method Operations
  | ["api"; "v1"; "sources"] => if is_get method then Some ListSources else on_post method CreateSource
  | ["api"; "v1"; "sources"; "test"] => on_post method TestSource
  | ["api"; "v1"; "targets"] => if is_get method then Some ListTargets else on_post method CreateTarget
  | ["api"; "v1"; "targets"; "test"] => on_post method TestTarget
  | ["api"; "v1"; "pipelines"] => if is_get method then Some ListPipelines else on_post method CreatePipeline
  | ["api"; "v1"; "pipelines"; id] => on_get method (GetPipeline id)
  | ["api"; "v1"; "pipelines"; id; "start"] => on_post method (StartPipeline id)
  | ["api"; "v1"; "pipelines"; id; "pause"] => on_post method (PausePipeline id)
  | ["api"; "v1"; "pipelines"; id; "rebuild"] => on_post method (RebuildPipeline id)
  | _ => None
  end.

(** The route of a request, and whether [require_session] runs before its handler. *)
Definition router (method : Method) (path : list string) : option (Route * bool) :=
  match open_routes method path, operational method path, authenticated_auth method path,
        authenticated_api method path with
  | Some r, _, _, _ | None, Some r, _, _ => Some (r, false)
  | None, None, Some r, _ | None, None, None, Some r => Some (r, true)
  | None, None, None, None => None
  end.

(** ** Lemmas: what a handler leaves alone *)

Section lemmas.
Context (env : nat -> ApiAnswer).
Notation Api := (Eff ApiWorld ApiError).

(** [n] awaits: only the others act. *)
Fixpoint awaited (n : nat) (w : ApiWorld) : ApiWorld :=
  match n with O => w | S n => awaited n (await env w).2 end.
Definition only_others (w w' : ApiWorld) : Prop := exists n, w' = awaited n w.

Lemma only_others_refl w : only_others w w.
Proof. by exists 0%nat. Qed.
Lemma awaited_add n m w : awaited (n + m) w = awaited m (awaited n w).
Proof. revert w. induction n as [|n IH]; intros w; [done|]. apply IH. Qed.
Lemma only_others_trans w1 w2 w3 : only_others w1 w2 -> only_others w2 w3 -> only_others w1 w3.
Proof. intros [n ->] [m ->]. exists (n + m)%nat. symmetry. apply awaited_add. Qed.

(** A handler that writes nothing. *)
Definition reads {A} (m : Api A) : Prop := forall w r w', m w = (r, w') -> only_others w w'.

Lemma reads_bind {A B} (m : Api A) (k : A -> Api B) : reads m -> (forall a, reads (k a)) -> reads (eff_bind m k).
Proof.
  intros Hm Hk w r w' H. unfold eff_bind in H. destruct (m w) as [[a|e|] w1] eqn:E; apply Hm in E.
  - apply Hk in H. by eapply only_others_trans.
  - by injection H as <- <-.
  - by injection H as <- <-.
Qed.
Lemma reads_ret {A} (a : A) : reads (eff_ret a).
Proof. intros w r w' [= <- <-]. apply only_others_refl. Qed.
Lemma reads_err {A} (e : ApiError) : reads (eff_err (A := A) e).
Proof. intros w r w' [= <- <-]. apply only_others_refl. Qed.
Lemma reads_pure {A} (m : result ApiError A) : reads (pure m).
Proof. intros w r w' [= <- <-]. apply only_others_refl. Qed.
Lemma reads_get : reads get.
Proof. intros w r w' [= <- <-]. apply only_others_refl. Qed.
Lemma reads_await : reads (await env).
Proof. intros w r w' H. exists 1%nat. cbn [awaited]. by rewrite H. Qed.
Lemma reads_store {A} (f : ControlDb -> result StoreError A) : reads (read_store env f).
Proof.
  apply reads_bind; [apply reads_await|]. intros a. destruct (ap_failed a); [apply reads_err|].
  apply reads_bind; [apply reads_get|]. intros w. apply reads_pure.
Qed.
Lemma reads_supervisor {A} (f : PipelineSupervisor -> A) : reads (ask_supervisor env f).
Proof.
  apply reads_bind; [apply reads_await|]. intros a. apply reads_bind; [apply reads_get|]. intros w. apply reads_ret.
Qed.
Lemma reads_if {A} (b : bool) (m k : Api A) : reads m -> reads k -> reads (if b then m else k).
Proof. by destruct b. Qed.
End lemmas.
#[export] Hint Resolve reads_ret reads_err reads_pure reads_get reads_await reads_store reads_supervisor : etl.

(** Steps through a handler whose calls are all known to read. *)
Ltac solve_reads :=
  repeat first [apply reads_store | apply reads_supervisor | apply reads_if | apply reads_bind; [|intros ?]];
  auto with etl.

Section readers.
Context (env : nat -> ApiAnswer) (snapshot_value : PipelineRuntimeSnapshot -> Value).

Lemma reads_view_now pipeline id : reads env (view_now env pipeline id).
Proof. unfold view_now. solve_reads. Qed.

(** The handlers of all GET routes. *)
Lemma readers_write_nothing :
  reads env (ready env) /\ reads env (overview env) /\ reads env (operations snapshot_value env) /\
  reads env (list_source_views env) /\ reads env (list_target_views env) /\ reads env (list_pipeline_views env) /\
  (forall id, reads env (get_pipeline env id)) /\ reads env (metrics env) /\
  reads env (test_source env) /\ reads env (test_target env).
Proof.
  unfold ready, overview, operations, list_source_views, list_target_views, list_pipeline_views, get_pipeline, metrics,
    test_source, test_target, test_connection, find_pipeline, api_sources, api_targets, api_pipelines, view_now.
  split_and!; lazymatch goal with |- forall id, reads _ _ => intros id | _ => idtac end; solve_reads.
Qed.
End readers.

(** ** Admission *)

Section admission.
Context (sha256 : bytes -> bytes) (to_str : bytes -> option string).

(** The middleware in front of the handler of a route; [None]: no route. *)
Definition dispatch (now : Z) (request : Request) (path : list string) (self : AuthInner)
    : option (result ApiError (Route * option SessionIdentity)) * AuthInner :=
  match router (rq_method request) path with
  | None => (None, self)
  | Some (r, false) => (Some (Ok (r, None)), self)
  | Some (r, true) =>
      let (identity, self) := require_session sha256 to_str now request self in
      (Some (let? identity := identity in Ok (r, Some identity)), self)
  end.

(** The routes whose handlers write: the control store, the sessions, or another server. *)
Definition changes (r : Route) : bool :=
  match r with
  | Login | Logout | CreateSource | CreateTarget | CreatePipeline | TestSource | TestTarget
  | StartPipeline _ | PausePipeline _ | RebuildPipeline _ => true
  | _ => false
  end.

Lemma on_get_Some method r r' : on_get method r = Some r' -> r' = r /\ is_get method = true.
Proof. unfold on_get. destruct (is_get method); [|done]. by intros [= <-]. Qed.
Lemma on_post_Some method r r' : on_post method r = Some r' -> r' = r /\ is_post method = true.
Proof. unfold on_post. destruct (is_post method); [|done]. by intros [= <-]. Qed.

(** A path is one of the patterns. *)
Ltac cases_path H :=
  repeat match type of H with
  | context [match ?x with _ => _ end] => destruct x; try discriminate H
  | Some _ = Some _ => injection H as <-
  | on_get _ _ = Some _ => apply on_get_Some in H as [-> ?]
  | on_post _ _ = Some _ => apply on_post_Some in H as [-> ?]
  end.

Lemma open_routes_cases method path r : open_routes method path = Some r ->
  (r = Live /\ is_get method = true) \/ (r = Login /\ is_post method = true).
Proof. unfold open_routes. intros H. cases_path H; auto. Qed.

Lemma operational_cases method path r : operational method path = Some r ->
  (r = Ready \/ r = Metrics) /\ is_get method = true.
Proof. unfold operational. intros H. cases_path H; auto. Qed.

(** A route behind the middleware. *)
Definition behind (method : Method) (r : Route) : Prop :=
  r ∉ [Live; Ready; Metrics; Login] /\ (changes r = true -> is_safe method = false).
Lemma get_behind method r : r ∉ [Live; Ready; Metrics; Login] -> changes r = false -> behind method r.
Proof. intros Hr Hc. split; [done|]. by rewrite Hc. Qed.
Lemma post_behind method r : r ∉ [Live; Ready; Metrics; Login] -> is_post method = true -> behind method r.
Proof. intros Hr Hc. split; [done|]. by destruct method. Qed.

Lemma authenticated_auth_cases method path r : authenticated_auth method path = Some r -> behind method r.
Proof.
  unfold authenticated_auth. intros H.
  cases_path H; first [apply get_behind; [set_solver|done]|apply post_behind; [set_solver|done]].
Qed.
Lemma authenticated_api_cases method path r : authenticated_api method path = Some r -> behind method r.
Proof.
  unfold authenticated_api. intros H.
  cases_path H; first [apply get_behind; [set_solver|done]|apply post_behind; [set_solver|done]].
Qed.

(** Only four routes are open, and none of them changes a profile or a pipeline: whether the
    process lives, whether the store is ready, the metrics, and the login.  Every other request
    reaches its handler only past [require_session], with the identity of a live session; and
    the requests that change something are never sent by a link, because their method makes the
    middleware demand the session's CSRF token. *)
Theorem only_four_routes_are_open now request path self r identity self' :
  dispatch now request path self = (Some (Ok (r, identity)), self') ->
  match identity with
  | None => self' = self /\ r ∈ [Live; Ready; Metrics; Login]
  | Some identity =>
      require_session sha256 to_str now request self = (Ok identity, self') /\ r ∉ [Live; Ready; Metrics; Login] /\
      (changes r = true ->
       head (get_all CSRF_HEADER (rq_headers request)) ≫= to_str = Some (id_csrf_token identity))
  end.
Proof.
  unfold dispatch, router. intros H. destruct (open_routes _ path) as [r1|] eqn:E1.
  { injection H as <- <- <-. split; [done|]. apply open_routes_cases in E1. set_solver. }
  destruct (operational _ path) as [r2|] eqn:E2.
  { injection H as <- <- <-. split; [done|]. apply operational_cases in E2. set_solver. }
  assert (Hb : forall r3, (let (identity0, self0) := require_session sha256 to_str now request self in
      (Some (let? identity := identity0 in Ok (r3, Some identity)), self0)) = (Some (Ok (r, identity)), self') ->
    behind (rq_method request) r3 ->
    match identity with
    | None => self' = self /\ r ∈ [Live; Ready; Metrics; Login]
    | Some identity =>
        require_session sha256 to_str now request self = (Ok identity, self') /\ r ∉ [Live; Ready; Metrics; Login] /\
        (changes r = true ->
         head (get_all CSRF_HEADER (rq_headers request)) ≫= to_str = Some (id_csrf_token identity))
    end).
  { clear H. intros r3 H [Hr Hc]. destruct (require_session _ _ _ _ _) as [[i|e|] s1] eqn:E; [|done..].
    injection H as <- <- <-. split; [done|]. split; [done|]. intros Hch.
    apply require_session_Ok in E as (token & s & _ & _ & _ & -> & [Hsafe|Hh]); [|done].
    rewrite Hc in Hsafe by done. discriminate Hsafe. }
  destruct (authenticated_auth _ path) as [r3|] eqn:E3; [by apply (Hb r3); [|eapply authenticated_auth_cases]|].
  destruct (authenticated_api _ path) as [r4|] eqn:E4; [by apply (Hb r4); [|eapply authenticated_api_cases]|done].
Qed.
End admission.

(** ** What the responses depend on *)

(** The control store without the credentials. *)
Definition erase_source (row : SourceRow) : SourceRow :=
  mkSourceRow (sr_name row) (sr_prefix row) (sr_database_name row) (sr_topology row) 0 [] [] (sr_settings row)
    (sr_enabled row) (sr_created_at row) (sr_updated_at row).
Definition erase_target (row : TargetRow) : TargetRow :=
  mkTargetRow (tr_name row) (tr_database_name row) 0 [] [] (tr_settings row) (tr_enabled row) (tr_created_at row)
    (tr_updated_at row).
Definition erase (db : ControlDb) : ControlDb :=
  set_targets (erase_target <$> cd_targets db) (set_sources (erase_source <$> cd_sources db) db).

Section erased.
Implicit Types db : ControlDb.

Lemma try_map_fmap {E A B C} (f : A -> result E B) (g : B -> C) l :
  map g <$> try_map f l = try_map (fun x => g <$> f x) l.
Proof.
  induction l as [|x l IH]; [done|]. cbn [try_map]. rewrite <-IH. destruct (f x) as [y|e|]; [|done..].
  cbn. by destruct (try_map f l).
Qed.
Lemma try_map_map {E A B C} (f : B -> result E C) (g : A -> B) l : try_map f (map g l) = try_map (fun x => f (g x)) l.
Proof. induction l as [|x l IH]; [done|]. cbn. by rewrite IH. Qed.
Lemma try_map_ext {E A B} (f g : A -> result E B) l : (forall x, f x = g x) -> try_map f l = try_map g l.
Proof. intros H. induction l as [|x l IH]; [done|]. cbn. by rewrite H, IH. Qed.

Lemma source_views_erased db : map SourceView_from <$> list_sources db = map SourceView_from <$> list_sources (erase db).
Proof.
  unfold list_sources, erase. cbn [cd_sources set_targets set_sources]. rewrite map_to_list_fmap.
  rewrite !try_map_fmap. change (prod_map id erase_source <$> map_to_list (cd_sources db))
    with (map (prod_map id erase_source) (map_to_list (cd_sources db))).
  rewrite try_map_map. apply try_map_ext. intros [k row]. cbn. unfold source_from_row. cbn.
  destruct (SourcePrefix_new _); [|done..]. cbn. by destruct (topology_from_name _).
Qed.
Lemma target_views_erased db : map TargetView_from (list_targets db) = map TargetView_from (list_targets (erase db)).
Proof.
  unfold list_targets, erase. cbn [cd_targets set_targets set_sources]. rewrite map_to_list_fmap.
  change (prod_map id erase_target <$> map_to_list (cd_targets db))
    with (map (prod_map id erase_target) (map_to_list (cd_targets db))).
  rewrite !map_map. by apply map_ext.
Qed.

Lemma unique_in_fmap {A B} `{EqDecision B} (g : A -> A) (m : gmap Z A) key (f : A -> B) value :
  (forall x, f (g x) = f x) -> unique_in (g <$> m) key f value = unique_in m key f value.
Proof.
  intros Hg. unfold unique_in. rewrite map_to_list_fmap. induction (map_to_list m) as [|[k x] l IH]; [done|].
  cbn. by rewrite Hg, IH.
Qed.
End erased.

(** Results that may be told apart by [R] only. *)
Definition related {A} (R : A -> A -> Prop) (r1 r2 : result ApiError A) : Prop :=
  match r1, r2 with Ok a1, Ok a2 => R a1 a2 | Err e1, Err e2 => e1 = e2 | Panic, Panic => True | _, _ => False end.

Lemma related_eq {A} (r1 r2 : result ApiError A) : related eq r1 r2 -> r1 = r2.
Proof. destruct r1, r2; cbn; intros H; try done; by rewrite H. Qed.

Section secrets.
Context (seal : bytes -> bytes -> bytes -> bytes -> option bytes) (master_key : MasterKey)
  (snapshot_value : PipelineRuntimeSnapshot -> Value).
Context (env : nat -> ApiAnswer).
Notation Api := (Eff ApiWorld ApiError).
(** The others do not decide by the credentials either. *)
Hypothesis Hothers : forall n db1 db2, erase db1 = erase db2 -> erase (ap_control (env n) db1) = erase (ap_control (env n) db2).

(** Worlds that differ in the credentials only. *)
Definition alike (w1 w2 : ApiWorld) : Prop :=
  erase (ax_control w1) = erase (ax_control w2) /\ ax_supervisor w1 = ax_supervisor w2 /\ ax_step w1 = ax_step w2.
Definition relates {A} (R : A -> A -> Prop) (m1 m2 : Api A) : Prop := forall w1 w2, alike w1 w2 ->
  related R (m1 w1).1 (m2 w2).1 /\ alike (m1 w1).2 (m2 w2).2.

Lemma relates_bind {A B} (R : A -> A -> Prop) (Q : B -> B -> Prop) (m1 m2 : Api A) k1 k2 :
  relates R m1 m2 -> (forall a1 a2, R a1 a2 -> relates Q (k1 a1) (k2 a2)) ->
  relates Q (eff_bind m1 k1) (eff_bind m2 k2).
Proof.
  intros Hm Hk w1 w2 Hw. apply Hm in Hw as [Hr Hw]. unfold eff_bind.
  destruct (m1 w1) as [[a1|e1|] w1'], (m2 w2) as [[a2|e2|] w2']; try done. by apply Hk.
Qed.
Lemma relates_ret {A} (R : A -> A -> Prop) a1 a2 : R a1 a2 -> relates R (eff_ret a1) (eff_ret a2).
Proof. intros H w1 w2 Hw. by split. Qed.
Lemma relates_pure {A} (R : A -> A -> Prop) r1 r2 : related R r1 r2 -> relates R (pure r1) (pure r2).
Proof. intros H w1 w2 Hw. by split. Qed.
Lemma relates_err {A} (R : A -> A -> Prop) e : relates (A := A) R (eff_err e) (eff_err e).
Proof. intros w1 w2 Hw. by split. Qed.
Lemma relates_get : relates alike get get.
Proof. intros w1 w2 Hw. by split. Qed.
Lemma relates_await : relates eq (await env) (await env).
Proof.
  intros w1 w2 (H1 & H2 & H3). unfold await. cbn. rewrite H3. split; [done|]. split; cbn; [by apply Hothers|].
  by rewrite H2.
Qed.
Lemma relates_eq_pure {A} (r : result ApiError A) : relates eq (pure r) (pure r).
Proof. apply relates_pure. by destruct r. Qed.

Lemma relates_read {A} (R : A -> A -> Prop) (f : ControlDb -> result StoreError A) :
  (forall db1 db2, erase db1 = erase db2 -> related R (map_err store_error (f db1)) (map_err store_error (f db2))) ->
  relates R (read_store env f) (read_store env f).
Proof.
  intros Hf. eapply relates_bind; [apply relates_await|]. intros a ? <-. destruct (ap_failed a); [apply relates_err|].
  eapply relates_bind; [apply relates_get|]. intros w1 w2 [Hw _]. apply relates_pure, Hf, Hw.
Qed.
Lemma relates_supervisor {A} (f : PipelineSupervisor -> A) : relates eq (ask_supervisor env f) (ask_supervisor env f).
Proof.
  eapply relates_bind; [apply relates_await|]. intros a ? <-.
  eapply relates_bind; [apply relates_get|]. intros w1 w2 (_ & Hw & _). apply relates_ret. by rewrite Hw.
Qed.

Lemma related_views {A B} (g : A -> B) (r1 r2 : result StoreError A) :
  g <$> r1 = g <$> r2 -> related (fun a1 a2 => g a1 = g a2) (map_err store_error r1) (map_err store_error r2).
Proof. destruct r1, r2; cbn; intros H; try discriminate H; [by injection H|by injection H as ->|done]. Qed.

Lemma relates_sources :
  relates (fun l1 l2 => map SourceView_from l1 = map SourceView_from l2) (api_sources env) (api_sources env).
Proof.
  apply relates_read. intros db1 db2 H. apply related_views. by rewrite source_views_erased, H, <-source_views_erased.
Qed.
Lemma relates_targets :
  relates (fun l1 l2 => map TargetView_from l1 = map TargetView_from l2) (api_targets env) (api_targets env).
Proof. apply relates_read. intros db1 db2 H. cbn. by rewrite (target_views_erased db1), H, <-target_views_erased. Qed.
Lemma relates_same {A} (f : ControlDb -> A) : (forall db, f (erase db) = f db) ->
  relates eq (read_store env (fun db => Ok (f db))) (read_store env (fun db => Ok (f db))).
Proof. intros Hf. apply relates_read. intros db1 db2 H. cbn. by rewrite <-(Hf db1), H, Hf. Qed.

Lemma relates_pipelines : relates eq (api_pipelines env) (api_pipelines env).
Proof. by apply relates_same. Qed.
Lemma relates_view_now pipeline id : relates eq (view_now env pipeline id) (view_now env pipeline id).
Proof.
  eapply relates_bind; [apply relates_supervisor|]. intros running ? <-.
  eapply relates_bind; [apply relates_supervisor|]. intros runtime ? <-. by apply relates_ret.
Qed.

(** A statement that does not read the credentials. *)
Lemma relates_write {A} (R : A -> A -> Prop) (f1 f2 : ApiAnswer -> ControlDb -> result StoreError A * ControlDb) :
  (forall a db1 db2, erase db1 = erase db2 ->
     related R (map_err store_error (f1 a db1).1) (map_err store_error (f2 a db2).1) /\
     erase (f1 a db1).2 = erase (f2 a db2).2) ->
  relates R (write_store env f1) (write_store env f2).
Proof.
  intros Hf. eapply relates_bind; [apply relates_await|]. intros a ? <-. intros w1 w2 (H1 & H2 & H3).
  destruct (Hf a _ _ H1) as [Hr Hd]. destruct (f1 a _) as [r1 db1], (f2 a _) as [r2 db2]. cbn in Hr, Hd.
  destruct (ap_failed a); [by split|]. destruct (ap_lost a) as [[m []]|]; by split.
Qed.

Lemma put_source_alike now s1 s2 db1 db2 :
  SourceView_from s1 = SourceView_from s2 -> erase db1 = erase db2 ->
  (put_source now s1 db1).1 = (put_source now s2 db2).1 /\
  erase (put_source now s1 db1).2 = erase (put_source now s2 db2).2.
Proof.
  intros Hv He. unfold SourceView_from in Hv. injection Hv as Hid Hname Hprefix Hdb Htop Hset Hen Hcr Hup.
  pose proof (f_equal cd_sources He) as Hs. cbn in Hs.
  assert (Hu : forall (A : Type) (E : EqDecision A) (f : SourceRow -> A) v, (forall x, f (erase_source x) = f x) ->
    unique_in (cd_sources db1) (sp_id s2) f v = unique_in (cd_sources db2) (sp_id s2) f v).
  { intros A E f v Hf. rewrite <-(unique_in_fmap erase_source (cd_sources db1)) by done.
    by rewrite Hs, unique_in_fmap. }
  assert (Hold : erase_source <$> (cd_sources db1 !! sp_id s2) = erase_source <$> (cd_sources db2 !! sp_id s2))
    by by rewrite <-!lookup_fmap, Hs.
  unfold put_source. rewrite Hid, Hname, Hprefix, !Hu by done. destruct (_ || _); [by split|]. split; [done|]. cbn [snd].
  assert (Hins : forall r1 r2, erase_source r1 = erase_source r2 ->
    erase (set_sources (<[sp_id s2 := r1]> (cd_sources db1)) db1) =
    erase (set_sources (<[sp_id s2 := r2]> (cd_sources db2)) db2)).
  { intros r1 r2 Hr. unfold erase in *. destruct db1, db2. cbn in *. unfold set_sources, set_targets in *. cbn in *.
    injection He as -> Hs' -> -> -> -> -> ->. rewrite !fmap_insert. by rewrite Hr, Hs'. }
  apply Hins. rewrite Hdb, Htop, Hset, Hen, Hcr, Hup.
  destruct (cd_sources db1 !! sp_id s2) as [o1|], (cd_sources db2 !! sp_id s2) as [o2|]; try discriminate Hold; [|done].
  cbn in Hold. unfold erase_source in *. cbn. injection Hold as _ _ _ _ _ _ Hc _. by rewrite Hc.
Qed.

(** A request apart from its credential. *)
Definition same_source (q1 q2 : CreateSourceRequest) : Prop :=
  cs_name q1 = cs_name q2 /\ cs_prefix q1 = cs_prefix q2 /\ cs_database_name q1 = cs_database_name q2 /\
  cs_topology q1 = cs_topology q2 /\ cs_settings q1 = cs_settings q2.

(** Encrypting is total. *)
Hypothesis Hseal : forall key nonce data plaintext, is_Some (seal key nonce data plaintext).

Lemma relates_create_source q1 q2 : same_source q1 q2 ->
  relates eq (create_source seal master_key env q1) (create_source seal master_key env q2).
Proof.
  intros (Hn & Hp & Hd & Ht & Hs). unfold create_source. rewrite Hn, Hp, Hd, Hs.
  do 3 (eapply relates_bind; [apply relates_eq_pure|]; intros ? ? <-).
  eapply relates_bind; [apply relates_await|]. intros drawn ? <-.
  eapply relates_bind; [apply relates_eq_pure|]. intros prefix ? <-.
  eapply relates_bind with (R := fun _ _ => True).
  { apply relates_pure. unfold encrypt. cbn. destruct (Hseal (mk_bytes master_key) (ap_nonce drawn)
      (bytes_of_string (source_credential_aad (ap_uuid drawn))) (bytes_of_string (cs_dsn q1))) as [c1 ->].
    by destruct (Hseal (mk_bytes master_key) (ap_nonce drawn)
      (bytes_of_string (source_credential_aad (ap_uuid drawn))) (bytes_of_string (cs_dsn q2))) as [c2 ->]. }
  intros secret1 secret2 _. rewrite Ht. eapply relates_bind with (R := eq).
  - apply relates_write. intros a db1 db2 He.
    pose proof (put_source_alike (ap_now a)
      (mkSourceProfile (ap_uuid drawn) (cs_name q2) prefix (cs_database_name q2) (cs_topology q2) secret1 (cs_settings q2) true (ap_now drawn) (ap_now drawn))
      (mkSourceProfile (ap_uuid drawn) (cs_name q2) prefix (cs_database_name q2) (cs_topology q2) secret2 (cs_settings q2) true (ap_now drawn) (ap_now drawn))
      db1 db2 eq_refl He) as [Hr Hdb]. split; [|exact Hdb]. rewrite Hr. by destruct (map_err _ _).
  - intros ? ? _. by apply relates_ret.
Qed.

Lemma put_target_alike now t1 t2 db1 db2 :
  TargetView_from t1 = TargetView_from t2 -> erase db1 = erase db2 ->
  (put_target now t1 db1).1 = (put_target now t2 db2).1 /\
  erase (put_target now t1 db1).2 = erase (put_target now t2 db2).2.
Proof.
  intros Hv He. unfold TargetView_from in Hv. injection Hv as Hid Hname Hdb Hset Hen Hcr Hup.
  pose proof (f_equal cd_targets He) as Hs. cbn in Hs.
  assert (Hold : erase_target <$> (cd_targets db1 !! tp_id t2) = erase_target <$> (cd_targets db2 !! tp_id t2))
    by by rewrite <-!lookup_fmap, Hs.
  unfold put_target. rewrite Hid, Hname, <-(unique_in_fmap erase_target (cd_targets db1)), Hs, unique_in_fmap by done.
  destruct (negb _); [by split|]. split; [done|]. cbn [snd].
  assert (Hins : forall r1 r2, erase_target r1 = erase_target r2 ->
    erase (set_targets (<[tp_id t2 := r1]> (cd_targets db1)) db1) =
    erase (set_targets (<[tp_id t2 := r2]> (cd_targets db2)) db2)).
  { intros r1 r2 Hr. unfold erase in *. destruct db1, db2. cbn in *. unfold set_sources, set_targets in *. cbn in *.
    injection He as -> -> Hs' -> -> -> -> ->. rewrite !fmap_insert. by rewrite Hr, Hs'. }
  apply Hins. rewrite Hdb, Hset, Hen, Hcr, Hup.
  destruct (cd_targets db1 !! tp_id t2) as [o1|], (cd_targets db2 !! tp_id t2) as [o2|]; try discriminate Hold; [|done].
  cbn in Hold. unfold erase_target in *. cbn. injection Hold as _ _ _ _ Hc _. by rewrite Hc.
Qed.

Definition same_target (q1 q2 : CreateTargetRequest) : Prop :=
  ct_name q1 = ct_name q2 /\ ct_database_name q1 = ct_database_name q2 /\ ct_settings q1 = ct_settings q2.

Lemma relates_create_target q1 q2 : same_target q1 q2 ->
  relates eq (create_target seal master_key env q1) (create_target seal master_key env q2).
Proof.
  intros (Hn & Hd & Hs). unfold create_target. rewrite Hn, Hd, Hs.
  do 3 (eapply relates_bind; [apply relates_eq_pure|]; intros ? ? <-).
  eapply relates_bind; [apply relates_await|]. intros drawn ? <-.
  eapply relates_bind with (R := fun _ _ => True).
  { apply relates_pure. unfold encrypt. cbn. destruct (Hseal (mk_bytes master_key) (ap_nonce drawn)
      (bytes_of_string (target_credential_aad (ap_uuid drawn))) (bytes_of_string (ct_dsn q1))) as [c1 ->].
    by destruct (Hseal (mk_bytes master_key) (ap_nonce drawn)
      (bytes_of_string (target_credential_aad (ap_uuid drawn))) (bytes_of_string (ct_dsn q2))) as [c2 ->]. }
  intros secret1 secret2 _. eapply relates_bind with (R := eq).
  - apply relates_write. intros a db1 db2 He.
    pose proof (put_target_alike (ap_now a)
      (mkTargetProfile (ap_uuid drawn) (ct_name q2) (ct_database_name q2) secret1 (ct_settings q2) true (ap_now drawn) (ap_now drawn))
      (mkTargetProfile (ap_uuid drawn) (ct_name q2) (ct_database_name q2) secret2 (ct_settings q2) true (ap_now drawn) (ap_now drawn))
      db1 db2 eq_refl He) as [Hr Hdb]. split; [|exact Hdb]. rewrite Hr. by destruct (map_err _ _).
  - intros ? ? _. by apply relates_ret.
Qed.

(** A statement that does not touch the profiles. *)
Definition oblivious {A} (f : ApiAnswer -> ControlDb -> result StoreError A * ControlDb) : Prop :=
  forall a db, f a (erase db) = ((f a db).1, erase (f a db).2).
Lemma relates_oblivious {A} (f : ApiAnswer -> ControlDb -> result StoreError A * ControlDb) :
  oblivious f -> relates eq (write_store env f) (write_store env f).
Proof.
  intros Hf. apply relates_write. intros a db1 db2 He.
  pose proof (Hf a db1) as H1. rewrite He, (Hf a db2) in H1. apply pair_equal_spec in H1 as [Hr Hd].
  split; [|done]. rewrite Hr. by destruct (map_err _ _).
Qed.

Lemma desired_oblivious id desired : oblivious (fun a => set_pipeline_desired_running (ap_now a) id desired).
Proof. intros a db. unfold set_pipeline_desired_running, erase. cbn. by destruct (cd_pipelines db !! id). Qed.
Lemma rebuild_oblivious id : oblivious (fun a => request_pipeline_rebuild (ap_now a) (ap_uuid a) id).
Proof.
  intros a db. unfold request_pipeline_rebuild, erase. cbn. destruct (cd_pipelines db !! id); [|done].
  destruct (_ <? _)%Z; [done|]. by destruct (cd_operations db !! _).
Qed.
Lemma put_pipeline_oblivious definition pipeline : oblivious (fun a => put_pipeline definition (ap_now a) pipeline).
Proof.
  intros a db. unfold put_pipeline. cbn. destruct (_ || _); [done|].
  destruct (match cd_pipelines db !! pd_id pipeline with Some _ => _ | None => _ end) as [row|]; [|done].
  change (pipeline_unique (erase db) row) with (pipeline_unique db row). destruct (negb (pipeline_unique db row)); [done|].
  assert (pipeline_references (erase db) row = pipeline_references db row) as ->.
  { unfold pipeline_references. cbn. rewrite !lookup_fmap.
    by destruct (cd_sources db !! _), (cd_targets db !! _). }
  destruct (negb (pipeline_references db row)); [done|]. by destruct (cd_config_revisions db !! _).
Qed.

(** The requests that differ in a credential only. *)
Definition same_action (a1 a2 : Action) : Prop :=
  match a1, a2 with
  | ActCreateSource q1, ActCreateSource q2 => same_source q1 q2
  | ActCreateTarget q1, ActCreateTarget q2 => same_target q1 q2
  | _, _ => a1 = a2
  end.

Lemma existsb_map {A B} (f : A -> B) (p : B -> bool) l : existsb p (map f l) = existsb (fun x => p (f x)) l.
Proof. induction l as [|x l IH]; [done|]. cbn. by rewrite IH. Qed.

Lemma relates_create_pipeline definition q :
  relates eq (create_pipeline definition env q) (create_pipeline definition env q).
Proof.
  unfold create_pipeline. do 2 (eapply relates_bind; [apply relates_eq_pure|]; intros ? ? <-).
  eapply relates_bind; [apply relates_sources|]. intros s1 s2 Hs.
  eapply relates_bind; [apply relates_targets|]. intros t1 t2 Ht.
  assert (existsb (fun source => (sp_id source =? cp_source_id q)%Z) s1 =
          existsb (fun source => (sp_id source =? cp_source_id q)%Z) s2) as ->.
  { pose proof (existsb_map SourceView_from (fun v => (svw_id v =? cp_source_id q)%Z)) as H. by rewrite <-!H, Hs. }
  assert (existsb (fun target => (tp_id target =? cp_target_id q)%Z) t1 =
          existsb (fun target => (tp_id target =? cp_target_id q)%Z) t2) as ->.
  { pose proof (existsb_map TargetView_from (fun v => (tvw_id v =? cp_target_id q)%Z)) as H. by rewrite <-!H, Ht. }
  destruct (negb _); [apply relates_err|]. destruct (negb _); [apply relates_err|].
  eapply relates_bind; [apply relates_await|]. intros drawn ? <-.
  eapply relates_bind; [apply relates_oblivious, put_pipeline_oblivious|]. intros ? ? _. by apply relates_ret.
Qed.

Lemma relates_desired id desired : relates eq (set_desired_running env id desired) (set_desired_running env id desired).
Proof.
  eapply relates_bind; [apply relates_oblivious, desired_oblivious|]. intros updated ? <-.
  eapply relates_bind; [apply relates_eq_pure|]. intros pipeline ? <-. apply relates_view_now.
Qed.
Lemma relates_rebuild id : relates eq (rebuild_pipeline env id) (rebuild_pipeline env id).
Proof.
  eapply relates_bind; [apply relates_oblivious, rebuild_oblivious|]. intros request ? <-.
  eapply relates_bind; [apply relates_eq_pure|]. intros r ? <-.
  eapply relates_bind; [apply relates_view_now|]. intros view ? <-. by apply relates_ret.
Qed.

(** A count of what is seen. *)
Lemma len_views {A B} (f : A -> B) l1 l2 : map f l1 = map f l2 -> len l1 = len l2.
Proof. intros H. apply (f_equal length) in H. rewrite !length_map in H. unfold len. by rewrite H. Qed.

Lemma relates_overview : relates eq (overview env) (overview env).
Proof.
  eapply relates_bind; [apply relates_sources|]. intros s1 s2 Hs%len_views.
  eapply relates_bind; [apply relates_targets|]. intros t1 t2 Ht%len_views.
  eapply relates_bind; [apply relates_pipelines|]. intros pipelines ? <-.
  eapply relates_bind; [apply relates_supervisor|]. intros running ? <-. apply relates_ret. by rewrite Hs, Ht.
Qed.
Lemma relates_metrics : relates eq (metrics env) (metrics env).
Proof.
  eapply relates_bind; [apply relates_await|]. intros a ? <-. destruct (negb _); [apply relates_err|].
  eapply relates_bind; [apply relates_sources|]. intros s1 s2 Hs%len_views.
  eapply relates_bind; [apply relates_targets|]. intros t1 t2 Ht%len_views.
  eapply relates_bind; [apply relates_pipelines|]. intros pipelines ? <-.
  do 2 (eapply relates_bind; [apply relates_supervisor|]; intros ? ? <-). apply relates_ret. by rewrite Hs, Ht.
Qed.
Lemma relates_ready : relates eq (ready env) (ready env).
Proof.
  eapply relates_bind; [apply relates_await|]. intros a ? <-.
  eapply relates_bind; [apply relates_get|]. intros w1 w2 [Hw _]. apply relates_ret.
  apply (f_equal (check_readiness (ap_read_only a))) in Hw.
  change (check_readiness (ap_read_only a) (ax_control w1) = check_readiness (ap_read_only a) (ax_control w2)) in Hw.
  by rewrite Hw.
Qed.
Lemma relates_test endpoint : relates eq (test_connection env endpoint) (test_connection env endpoint).
Proof.
  eapply relates_bind; [apply relates_await|]. intros a ? <-. destruct (negb _); [apply relates_err|].
  destruct (ap_timeout a); [apply relates_err|apply relates_eq_pure].
Qed.

Lemma relates_reply {A} (f : A -> Reply) (m1 m2 : Api A) : relates eq m1 m2 -> relates eq (reply f m1) (reply f m2).
Proof. intros Hm. eapply relates_bind; [exact Hm|]. intros a ? <-. by apply relates_ret. Qed.

Lemma relates_lists :
  relates eq (list_source_views env) (list_source_views env) /\ relates eq (list_target_views env) (list_target_views env) /\
  relates eq (operations snapshot_value env) (operations snapshot_value env) /\
  relates eq (list_pipeline_views env) (list_pipeline_views env).
Proof.
  split_and!.
  - eapply relates_bind; [apply relates_sources|]. intros s1 s2 Hs. by apply relates_ret.
  - eapply relates_bind; [apply relates_targets|]. intros t1 t2 Ht. by apply relates_ret.
  - eapply relates_bind; [by apply relates_same|]. intros stored ? <-.
    eapply relates_bind; [apply relates_supervisor|]. intros snapshots ? <-. by apply relates_ret.
  - do 2 (eapply relates_bind; [apply relates_supervisor|]; intros ? ? <-).
    eapply relates_bind; [apply relates_pipelines|]. intros pipelines ? <-. by apply relates_ret.
Qed.
Lemma relates_get_pipeline id : relates eq (get_pipeline env id) (get_pipeline env id).
Proof.
  apply relates_bind with (R := eq); [|intros pipeline ? <-; apply relates_view_now].
  eapply relates_bind; [apply relates_pipelines|]. intros pipelines ? <-. apply relates_eq_pure.
Qed.

(** C15: Credentials never leave.  Two runs of the server whose stores differ in the encrypted
    credentials only - the keys, the nonces, the ciphertexts - answer every request alike, and
    their stores still differ in nothing else; even the request that brings a credential is
    answered alike whatever the credential is.  So no response, no status, no error and no
    metric tells anything about a stored credential. *)
Theorem credentials_never_leave definition action1 action2 w1 w2 :
  same_action action1 action2 -> alike w1 w2 ->
  (handle seal master_key definition snapshot_value env action1 w1).1 =
    (handle seal master_key definition snapshot_value env action2 w2).1 /\
  alike (handle seal master_key definition snapshot_value env action1 w1).2
    (handle seal master_key definition snapshot_value env action2 w2).2.
Proof.
  intros Ha Hw.
  enough (relates eq (handle seal master_key definition snapshot_value env action1)
    (handle seal master_key definition snapshot_value env action2)) as H.
  { destruct (H _ _ Hw) as [Hr Hw']. split; [by apply related_eq|done]. }
  destruct relates_lists as (Hl1 & Hl2 & Hl3 & Hl4).
  destruct action1 as [| | | | |q1| | |q1| | |q1|id|id|id|id], action2; try discriminate Ha; try injection Ha as <-;
    cbn [handle]; apply relates_reply; unfold test_source, test_target, start_pipeline, pause_pipeline;
    auto using relates_ready, relates_metrics, relates_overview, relates_test, relates_create_source,
      relates_create_target, relates_create_pipeline, relates_get_pipeline, relates_desired, relates_rebuild.
Qed.
End secrets.

(** ** What the commands do *)

Section commands.
Context (seal : bytes -> bytes -> bytes -> bytes -> option bytes) (open : bytes -> bytes -> bytes -> bytes -> option bytes)
  (from_utf8 : bytes -> string + string) (master_key : MasterKey).
Context (env : nat -> ApiAnswer).
(** The cipher opens what it has sealed, and a string is UTF-8. *)
Hypothesis Hopen : forall key nonce data plaintext ciphertext,
  seal key nonce data plaintext = Some ciphertext -> open key nonce data ciphertext = Some plaintext.
Hypothesis Hutf8 : forall s, from_utf8 (bytes_of_string s) = inr s.
Hypothesis Hnonce : forall n, len (ap_nonce (env n)) = NONCE_BYTES.

Lemma topology_round_trip t : topology_from_name (topology_name t) = Ok t.
Proof. by destruct t. Qed.

Lemma encrypt_decrypt nonce plaintext data secret : len nonce = NONCE_BYTES ->
  encrypt seal nonce master_key plaintext data 1 = Ok secret ->
  es_nonce secret = nonce /\ decrypt from_utf8 open master_key secret data = Ok plaintext.
Proof.
  unfold encrypt. intros Hn H. apply bind_Ok in H as (c & Hc & H). apply ok_or_Ok in Hc. injection H as <-.
  split; [done|]. unfold decrypt. cbn [es_nonce es_ciphertext]. rewrite (proj2 (Z.eqb_eq _ _)) by done. cbn [negb].
  rewrite (Hopen _ _ _ _ _ Hc). cbn. by rewrite Hutf8.
Qed.

(** A write that succeeded. *)
Lemma write_store_Ok {A} (f : ApiAnswer -> ControlDb -> result StoreError A * ControlDb) a w w' :
  write_store env f w = (Ok a, w') ->
  let answer := env (ax_step w) in
  f answer (ap_control answer (ax_control w)) = (Ok a, ax_control w') /\
  ax_supervisor w' = ap_supervisor answer (ax_supervisor w) /\ ax_step w' = S (ax_step w).
Proof.
  unfold write_store, await, eff_bind. cbn. intros H. destruct (f _ _) as [r db].
  destruct (ap_failed _); [done|]. destruct (ap_lost _) as [[m []]|]; [done..|].
  injection H as H <-. by apply map_err_Ok in H as ->.
Qed.

(** A bind that failed. *)
Lemma write_store_Err {A} (f : ApiAnswer -> ControlDb -> result StoreError A * ControlDb) e w w' :
  write_store env f w = (Err e, w') -> exists error, e = store_error error.
Proof.
  unfold write_store, await, eff_bind. cbn. intros H. destruct (f _ _) as [r db].
  destruct (ap_failed _) as [m|]; [injection H as <- _; by exists (StoreDatabase m)|].
  destruct (ap_lost _) as [[m b]|]; [injection H as <- _; by exists (StoreDatabase m)|].
  destruct r as [|error|]; [discriminate H| |discriminate H]. injection H as <- _. by exists error.
Qed.

Lemma put_source_Ok now source db db' : put_source now source db = (Ok tt, db') ->
  exists created updated, cd_sources db' !! sp_id source = Some
    (mkSourceRow (sp_name source) (sp_prefix source) (sp_database_name source) (topology_name (sp_topology source))
       (u32_as_i32 (es_key_version (sp_encrypted_dsn source))) (es_nonce (sp_encrypted_dsn source))
       (es_ciphertext (sp_encrypted_dsn source)) (sp_settings source) (sp_enabled source) created updated).
Proof.
  unfold put_source. destruct (_ || _); [done|]. intros [= <-]. cbn [cd_sources set_sources].
  rewrite lookup_insert_eq. destruct (cd_sources db !! sp_id source); by do 2 eexists.
Qed.

(** A source prefix is what it was made from. *)
Lemma SourcePrefix_new_same value prefix : SourcePrefix_new value = Ok prefix -> SourcePrefix_new prefix = Ok prefix.
Proof.
  unfold SourcePrefix_new. cbn zeta. set (valid := _ && _). destruct (negb valid) eqn:E; [done|]. intros [= <-]. fold valid. by rewrite E.
Qed.

(** A created source can be used.  When the API answers that a source is created, the store
    lists it with everything the request said, under the id of the answer, enabled; and its
    credential decrypts, under that id only, to the connection string of the request.  A request
    that is turned down as malformed has written nothing. *)
Theorem created_source_can_be_used request w r w' :
  create_source seal master_key env request w = (r, w') ->
  match r with
  | Ok (status, view) =>
      status = CREATED /\
      exists row profile, cd_sources (ax_control w') !! svw_id view = Some row /\
        source_from_row (svw_id view) row = Ok profile /\
        sp_name profile = cs_name request /\ sp_prefix profile = svw_prefix view /\
        sp_database_name profile = cs_database_name request /\ sp_topology profile = cs_topology request /\
        sp_settings profile = cs_settings request /\ sp_enabled profile = true /\
        decrypt from_utf8 open master_key (sp_encrypted_dsn profile)
          (bytes_of_string (source_credential_aad (svw_id view))) = Ok (cs_dsn request)
  | Err e => ae_status e = BAD_REQUEST -> only_others env w w'
  | Panic => True
  end.
Proof.
  intros H. destruct r as [[status view]|e|]; [| |done].
  - unfold create_source in H. do 3 (apply eff_bind_Ok in H as (? & ? & Hv & H); injection Hv as _ <-).
    apply eff_bind_Ok in H as (drawn & w1 & Hd & H). unfold await in Hd. injection Hd as <- <-.
    apply eff_bind_Ok in H as (prefix & w2 & Hp & H). injection Hp as Hp <-. apply map_err_Ok, SourcePrefix_new_same in Hp.
    apply eff_bind_Ok in H as (secret & w3 & Hs & H). apply pair_equal_spec in Hs as [Hs <-]. apply map_err_Ok in Hs.
    pose proof Hs as Hkey. apply encrypt_decrypt in Hs as [Hn Hdec]; [|apply Hnonce].
    apply eff_bind_Ok in H as ([] & w4 & Hw & H). injection H as <- <- <-. split; [done|].
    apply write_store_Ok in Hw as [Hput _]. apply put_source_Ok in Hput as (created & updated & Hrow).
    eexists _, _. split; [exact Hrow|]. unfold source_from_row. cbn. rewrite Hp, topology_round_trip. cbn.
    split; [reflexivity|]. by split_and!.
  - intros Hbad. unfold create_source in H.
    do 3 (apply eff_bind_Err in H as [[= _ <-]|(? & ? & [= _ <-] & H)]; [apply only_others_refl|]).
    apply eff_bind_Err in H as [H|(drawn & w1 & Hd & H)]; [discriminate H|]. apply reads_await in Hd.
    apply eff_bind_Err in H as [[= _ <-]|(prefix & w2 & [= _ <-] & H)]; [done|].
    apply eff_bind_Err in H as [[= _ <-]|(secret & w3 & Hs & H)]; [done|]. apply pair_equal_spec in Hs as [_ <-].
    apply eff_bind_Err in H as [H|(u & w4 & _ & H)]; [|discriminate H].
    exfalso. apply write_store_Err in H as [error ->]. destruct error as [database| | | | | | |]; try discriminate Hbad.
    cbn in Hbad. by destruct (is_unique_violation database).
Qed.

(** The call that meets [w] neither fails nor loses its reply. *)
Definition answered (w : ApiWorld) : Prop := ap_failed (env (ax_step w)) = None /\ ap_lost (env (ax_step w)) = None.

(** A pipeline after a command: only what the command is for has changed. *)
Record commanded (p p' : PipelineDefinition) : Prop := {
  cm_id : pd_id p' = pd_id p;
  cm_name : pd_name p' = pd_name p;
  cm_endpoints : pd_source_id p' = pd_source_id p /\ pd_target_id p' = pd_target_id p;
  cm_revision : pd_config_revision p' = pd_config_revision p;
  cm_settings : pd_settings p' = pd_settings p;
  cm_created : pd_created_at p' = pd_created_at p;
}.

(** [w'] follows the write of [p'] over [p] (and of [operations]) in the store that [w] met. *)
Definition wrote (w : ApiWorld) (id : Z) (p' : PipelineDefinition) (operations : gmap Z OperationRecord) (w' : ApiWorld)
    : Prop :=
  let db := ap_control (env (ax_step w)) (ax_control w) in
  exists db' sv, cd_pipelines db' = <[id := p']> (cd_pipelines db) /\ cd_operations db' = operations /\
    cd_sources db' = cd_sources db /\ cd_targets db' = cd_targets db /\ cd_leases db' = cd_leases db /\
    only_others env (mkApiWorld db' sv (S (ax_step w))) w'.

Lemma write_store_answered {A} (f : ApiAnswer -> ControlDb -> result StoreError A * ControlDb) w r db :
  answered w -> f (env (ax_step w)) (ap_control (env (ax_step w)) (ax_control w)) = (r, db) ->
  write_store env f w =
    (map_err store_error r, mkApiWorld db (ap_supervisor (env (ax_step w)) (ax_supervisor w)) (S (ax_step w))).
Proof. intros [Hf Hl] Hr. unfold write_store, await, eff_bind. cbn. by rewrite Hr, Hf, Hl. Qed.

Lemma view_now_Ok pipeline id w r w' : view_now env pipeline id w = (r, w') ->
  only_others env w w' /\ exists running runtime, r = Ok (pipeline_view pipeline running runtime).
Proof.
  intros H. split; [by eapply reads_view_now|]. unfold view_now, ask_supervisor, await, eff_bind, get, eff_ret in H. cbn in H.
  injection H as <- _. by do 2 eexists.
Qed.

(** Where a command writes: the store after the others. *)
Lemma written_others w db sv : ax_control (await env w).2 = db ->
  sv = ap_supervisor (env (ax_step w)) (ax_supervisor w) ->
  only_others env w (mkApiWorld db sv (S (ax_step w))).
Proof. intros <- ->. by exists 1%nat. Qed.

Lemma set_desired_running_spec id desired w r w' : answered w ->
  let db := ap_control (env (ax_step w)) (ax_control w) in
  set_desired_running env id desired w = (r, w') ->
  match cd_pipelines db !! id with
  | None => r = Err (not_found "pipeline") /\ only_others env w w'
  | Some p => exists view p', r = Ok view /\ wrote w id p' (cd_operations db) w' /\ commanded p p' /\
      pd_desired_running p' = desired /\ pd_snapshot_generation p' = pd_snapshot_generation p /\
      pvw_id view = pd_id p /\ pvw_desired_running view = desired
  end.
Proof.
  intros Hw db H. unfold set_desired_running, eff_bind, pure in H.
  destruct (set_pipeline_desired_running (ap_now (env (ax_step w))) id desired db) as [r1 db1] eqn:E.
  erewrite write_store_answered in H; [|done|exact E]. unfold set_pipeline_desired_running in E.
  destruct (cd_pipelines db !! id) as [p|]; injection E as <- <-; cbn [map_err ok_or] in H.
  - apply view_now_Ok in H as [Ho (running & runtime & ->)]. eexists _, (with_desired_running desired (ap_now (env (ax_step w))) p). split; [done|]. split.
    { eexists _, _. split_and!; [..|exact Ho]; reflexivity. }
    by repeat split.
  - injection H as <- <-. split; [done|]. by apply written_others.
Qed.

Lemma rebuild_pipeline_spec id w r w' : answered w ->
  let db := ap_control (env (ax_step w)) (ax_control w) in
  rebuild_pipeline env id w = (r, w') -> cd_operations db !! ap_uuid (env (ax_step w)) = None ->
  match cd_pipelines db !! id with
  | None => r = Err (not_found "pipeline") /\ only_others env w w'
  | Some p => (pd_snapshot_generation p + 1 <= i64_max)%Z ->
      exists header view p' operation, r = Ok (header, view) /\ header = id_to_string (op_id operation) /\
        wrote w id p' (<[ap_uuid (env (ax_step w)) := operation]> (cd_operations db)) w' /\ commanded p p' /\
        pd_desired_running p' = pd_desired_running p /\
        pd_snapshot_generation p' = (pd_snapshot_generation p + 1)%Z /\
        pvw_snapshot_generation view = pd_snapshot_generation p' /\
        op_pipeline_id operation = Some id /\ op_state operation = "requested" /\
        detail_generation (op_detail operation) = Some (pd_snapshot_generation p')
  end.
Proof.
  intros Hw db H Hfresh. unfold rebuild_pipeline, eff_bind, pure, eff_ret in H.
  destruct (request_pipeline_rebuild (ap_now (env (ax_step w))) (ap_uuid (env (ax_step w))) id db) as [r1 db1] eqn:E.
  erewrite write_store_answered in H; [|done|exact E]. unfold request_pipeline_rebuild in E.
  destruct (cd_pipelines db !! id) as [p|].
  - intros Hmax. rewrite (proj2 (Z.ltb_ge _ _)), Hfresh in E by done. injection E as <- <-. cbn [map_err ok_or rq_pipeline rq_operation_id] in H.
    destruct (view_now env _ id _) as [r2 w2] eqn:Ev. apply view_now_Ok in Ev as [Ho (running & runtime & ->)].
    injection H as <- <-. eexists _, _, (with_generation (pd_snapshot_generation p + 1) (ap_now (env (ax_step w))) p), (mkOperationRecord _ _ _ _ _ _ _).
    split; [done|]. split; [|split; [eexists _, _; split_and!; [..|exact Ho]; reflexivity|]]; [reflexivity|].
    by repeat split.
  - injection E as <- <-. injection H as <- <-. split; [done|]. by apply written_others.
Qed.

(** A command changes its pipeline and nothing else.  Starting and pausing set what the
    operator wants and leave the configuration, its revision and the snapshot generation alone;
    a rebuild raises the snapshot generation by one and opens exactly one operation that asks for
    it, whose id is in the header of the answer.  A pipeline that does not exist is answered with
    404 and nothing is written. *)
Theorem commands_change_one_pipeline id w :
  answered w ->
  let answer := env (ax_step w) in
  let db := ap_control answer (ax_control w) in
  (forall desired r w', set_desired_running env id desired w = (r, w') ->
     match cd_pipelines db !! id with
     | None => r = Err (not_found "pipeline") /\ only_others env w w'
     | Some p => exists view p', r = Ok view /\ wrote w id p' (cd_operations db) w' /\ commanded p p' /\
         pd_desired_running p' = desired /\ pd_snapshot_generation p' = pd_snapshot_generation p /\
         pvw_id view = pd_id p /\ pvw_desired_running view = desired
     end) /\
  (forall r w', rebuild_pipeline env id w = (r, w') -> cd_operations db !! ap_uuid answer = None ->
     match cd_pipelines db !! id with
     | None => r = Err (not_found "pipeline") /\ only_others env w w'
     | Some p => (pd_snapshot_generation p + 1 <= i64_max)%Z ->
         exists header view p' operation, r = Ok (header, view) /\ header = id_to_string (op_id operation) /\
           wrote w id p' (<[ap_uuid answer := operation]> (cd_operations db)) w' /\ commanded p p' /\
           pd_desired_running p' = pd_desired_running p /\
           pd_snapshot_generation p' = (pd_snapshot_generation p + 1)%Z /\
           pvw_snapshot_generation view = pd_snapshot_generation p' /\
           op_pipeline_id operation = Some id /\ op_state operation = "requested" /\
           detail_generation (op_detail operation) = Some (pd_snapshot_generation p')
     end).
Proof.
  intros Hw answer db. split.
  - intros desired r w' H. by apply set_desired_running_spec in H.
  - intros r w' H Hfresh. by apply rebuild_pipeline_spec in H.
Qed.
End commands.

(** ** Witnesses *)

(** A toy cipher: the nonce and the associated data in front, then the text. *)
Definition toy_seal (key nonce data plaintext : bytes) : option bytes := Some plaintext.
Definition toy_open (key nonce data ciphertext : bytes) : option bytes := Some ciphertext.
Definition read_utf8 (b : bytes) : string + string := inr (String.string_of_list_byte b).
Lemma read_utf8_string s : read_utf8 (bytes_of_string s) = inr s.
Proof. unfold read_utf8, bytes_of_string. by rewrite String.string_of_list_byte_of_string. Qed.

Definition quiet_answer : ApiAnswer :=
  mkApiAnswer id id None None 1000 42 (replicate 24 x00) true false false (Ok (mkConnectionReport "180001" "postgresql" [])).
Notation quiet_env := (fun _ : nat => quiet_answer).
Definition api_world : ApiWorld :=
  mkApiWorld (set_pipelines {[ 1%Z := Store.example_pipeline ]} empty_db) PipelineSupervisor_new 0.
Definition toy_key : MasterKey := mkMasterKey [].
Definition shop_request : CreateSourceRequest :=
  mkCreateSourceRequest "shop" "erp" "shop" Standalone "postgres://shop" (VObject []).

Example create_source_succeeds :
  match (create_source toy_seal toy_key quiet_env shop_request api_world).1 with
  | Ok (CREATED, view) => svw_id view = 42%Z | _ => False end.
Proof. vm_compute. reflexivity. Qed.

Lemma created_source_can_be_used_witness :
  exists view w' row, create_source toy_seal toy_key quiet_env shop_request api_world = (Ok (CREATED, view), w') /\
    cd_sources (ax_control w') !! svw_id view = Some row.
Proof.
  pose proof create_source_succeeds as H.
  destruct (create_source toy_seal toy_key quiet_env shop_request api_world) as [[[status view]|e|] w'] eqn:E;
    [|destruct H..].
  pose proof (created_source_can_be_used toy_seal toy_open read_utf8 toy_key quiet_env
    ltac:(intros key nonce data plaintext ciphertext Hs; injection Hs as <-; reflexivity) read_utf8_string
    ltac:(intros n; reflexivity) shop_request api_world _ w' E) as (-> & row & profile & Hrow & _).
  exists view, w', row. split; [reflexivity|exact Hrow].
Defined.

Lemma commands_change_one_pipeline_witness :
  exists view w', set_desired_running quiet_env 1 false api_world = (Ok view, w') /\ pvw_desired_running view = false /\
  exists header view2 w2, rebuild_pipeline quiet_env 1 api_world = (Ok (header, view2), w2) /\
    pvw_snapshot_generation view2 = 2%Z.
Proof.
  destruct (commands_change_one_pipeline quiet_env 1 api_world (conj eq_refl eq_refl)) as [Hd Hr].
  destruct (set_desired_running quiet_env 1 false api_world) as [r w'] eqn:E1.
  destruct (Hd false r w' E1) as (view & p' & Hv & _ & _ & _ & _ & _ & Hdes).
  destruct (rebuild_pipeline quiet_env 1 api_world) as [r2 w2] eqn:E2.
  destruct (Hr r2 w2 eq_refl eq_refl) as (header & view2 & p2 & op & Hv2 & _ & _ & _ & _ & Hg & Hvg & _); [vm_compute; discriminate|].
  exists view, w'. split; [rewrite Hv; reflexivity|]. split; [exact Hdes|].
  exists header, view2, w2. split; [rewrite Hv2; reflexivity|]. rewrite Hvg, Hg. reflexivity.
Defined.

Definition secret_row (ciphertext : bytes) : SourceRow :=
  mkSourceRow "shop" "erp" "shop" "standalone" 1 (replicate 24 x00) ciphertext (VObject []) true 0 0.
Definition world_with (ciphertext : bytes) : ApiWorld :=
  mkApiWorld (set_sources {[ 7%Z := secret_row ciphertext ]} empty_db) PipelineSupervisor_new 0.

Lemma credentials_never_leave_witness :
  (handle toy_seal toy_key (fun _ => VNull) (fun _ => VNull) quiet_env ActListSources (world_with [x01])).1 =
  (handle toy_seal toy_key (fun _ => VNull) (fun _ => VNull) quiet_env ActListSources (world_with [x02; x03])).1.
Proof.
  apply (credentials_never_leave toy_seal toy_key (fun _ => VNull) quiet_env (fun n db1 db2 H => H)
    (fun key nonce data plaintext => ex_intro _ plaintext eq_refl) (fun _ => VNull) ActListSources ActListSources
    (world_with [x01]) (world_with [x02; x03])); [reflexivity|].
  split; [|split; reflexivity]. unfold world_with, erase. cbn. by rewrite !map_fmap_singleton.
Defined.

Definition api_history : list AuthCall := [CallCreate "secret" "token" 10 10].
Definition example_admit (method : Method) (path : list string) :=
  dispatch id any_text 30 (example_request method "token") path
    (run_calls id first_key (fun _ => None) api_history (AuthState_new "admin" "hash" true 100)).
Example routes :
  fst (example_admit POST ["api"; "v1"; "auth"; "login"]) = Some (Ok (Login, None)) /\
  is_ok (default Panic (fst (example_admit POST ["api"; "v1"; "pipelines"; "7"; "start"]))) = true /\
  fst (dispatch id any_text 30 (mkRequest GET []) ["api"; "v1"; "sources"] (AuthState_new "admin" "hash" true 100))
    = Some (Err unauthorized).
Proof. split_and!; vm_compute; reflexivity. Qed.

Lemma only_four_routes_are_open_witness :
  exists identity self', example_admit POST ["api"; "v1"; "pipelines"; "7"; "start"] =
    (Some (Ok (StartPipeline "7", Some identity)), self') /\ id_csrf_token identity = "token".
Proof.
  destruct (example_admit POST ["api"; "v1"; "pipelines"; "7"; "start"]) as [a self'] eqn:E.
  assert (exists identity, a = Some (Ok (StartPipeline "7", Some identity))) as [identity ->].
  { apply (f_equal fst) in E. cbn [fst] in E. rewrite <- E. eexists. vm_compute. reflexivity. }
  exists identity, self'. split; [reflexivity|].
  destruct (only_four_routes_are_open id any_text 30 (example_request POST "token") _ _ _ _ _ E) as (_ & _ & H).
  specialize (H eq_refl). cbn in H. injection H as <-. reflexivity.
Defined.
