(* ===== verification/Citus.v ===== *)
(** * Citus topology and distribution metadata

    Models [crates/source-postgres/src/citus.rs] and the two functions of [catalog.rs] that
    apply it to the tables of the catalog.  The answers of the Citus catalogs are a record,
    [CitusCatalog]; the tables come from [Catalog.load_tables].  The text of a distribution
    key is a [pg_node_tree]; [distribution_key_is_read_from_its_tree] says what is read from it. *)

From S2P Require Import Prelude Core Decimal Schema Source TargetSchema Settings Catalog Apply.

(** ** The catalogs *)

(** A row of [pg_dist_node]. *)
Record CitusNodeRow : Type := mkCitusNodeRow {
  nw_nodeid : Z;
  nw_groupid : Z;
  nw_nodename : string;
  nw_nodeport : Z;
  nw_noderole : string;
  nw_isactive : bool;
}.

(** A row of [pg_dist_partition]. *)
Record CitusPartitionRow : Type := mkCitusPartitionRow {
  pw_logicalrelid : option Z;
  pw_partmethod : string;
  pw_partkey : option string;
  pw_repmodel : option string;
}.

(** What the server answers: the version of the extension, [citus_is_coordinator()], the
    setting of change data capture, and the rows of the catalogs. *)
Record CitusCatalog : Type := mkCitusCatalog {
  ci_extversion : option string;
  ci_is_coordinator : bool;
  ci_change_data_capture : option string;
  ci_nodes : list CitusNodeRow;
  ci_partitions : list CitusPartitionRow;
}.

(** ** Data *)

Inductive CitusRole : Type := Coordinator | Worker.
Global Instance CitusRole_eq_dec : EqDecision CitusRole.
Proof. solve_decision. Defined.

Record CitusNode : Type := mkCitusNode {
  cn_node_id : Z;
  cn_group_id : Z;
  cn_host : string;
  cn_port : Z;
  cn_role : string;
  cn_is_primary : bool;
}.

Record CitusTopology : Type := mkCitusTopology {
  tp_version : string;
  tp_role : CitusRole;
  tp_cluster_identity : string;
  tp_generation : Z;
  tp_cdc_enabled : bool;
  tp_nodes : list CitusNode;
}.

Record CitusOptions : Type := mkCitusOptions {
  cx_expected_major : Z;
  cx_expected_minor : Z;
  cx_require_cdc_setting : bool;
  cx_allow_validation_gated_tables : bool;
}.
Definition CitusOptions_default : CitusOptions := mkCitusOptions 14 1 true false.

Record DistributionDescriptor : Type := mkDistributionDescriptor {
  dd_method : ascii;
  dd_part_key : option string;
  dd_replication_model : option string;
}.

(** ** Text *)

Fixpoint drop_chars (n : nat) (s : string) : string :=
  match n, s with S n, String _ s => drop_chars n s | _, _ => s end.

(** What follows the first occurrence of [pat]: [find] and the slice after it. *)
Fixpoint after_first (pat s : string) : option string :=
  if String.prefix pat s then Some (drop_chars (String.length pat) s)
  else match s with EmptyString => None | String _ s => after_first pat s end.

Definition is_number_char (c : ascii) : bool := is_digit c || bool_decide (c = "-"%char).

(** The longest prefix of digits and minus signs, and what follows it. *)
Fixpoint span_number (s : string) : string * string :=
  match s with
  | EmptyString => (EmptyString, EmptyString)
  | String c rest =>
      if is_number_char c then let (digits, rest) := span_number rest in (String c digits, rest)
      else (EmptyString, s)
  end.

Definition varattno : string := ":varattno ".

(** The loop of [parse_distribution_key]: every turn consumes at least the field's name. *)
Fixpoint distribution_loop (fuel : nat) (part_key remainder : string) (found : list Z)
    : result SourceError (list Z) :=
  match fuel with
  | O => Panic
  | S fuel =>
      match after_first varattno remainder with
      | None => Ok found
      | Some remainder =>
          let (digits, rest) := span_number remainder in
          if Lsn.is_empty digits
          then Err (source_unsupported ("cannot parse Citus distribution expression `" +:+ part_key +:+ "`"))
          else
            let? attnum := ok_or (parse_int (- 2 ^ 15) (2 ^ 15 - 1) digits)
              (source_unsupported ("invalid Citus distribution attribute `" +:+ digits +:+ "`")) in
            if (attnum <=? 0)%Z
            then Err (source_unsupported ("system attribute " +:+ pretty attnum +:+ " cannot be a distribution key"))
            else if bool_decide (attnum ∈ found)
            then Err (source_unsupported ("duplicate Citus distribution attribute " +:+ pretty attnum))
            else distribution_loop fuel part_key rest (found ++ [attnum])
      end
  end.

Definition parse_distribution_key (part_key : string) : result SourceError (list Z) :=
  let? found := distribution_loop (S (String.length part_key)) part_key part_key [] in
  if bool_decide (found = [])
  then Err (source_unsupported ("Citus distribution expression has no plain column: `" +:+ part_key +:+ "`"))
  else Ok found.

Definition u16_max : Z := 2 ^ 16 - 1.

(** [split] always yields a first part, so only a part that is no number is an error. *)
Definition parse_version (version : string) : result SourceError (Z * Z) :=
  let invalid := contract ("invalid Citus version `" +:+ version +:+ "`") in
  let parts := split_all "." version in
  let? first := ok_or (head parts) invalid in
  let? major := ok_or (parse_uint u16_max first) invalid in
  let minor := default "0" (head (split_all "-" (default "0" (head (tail parts))))) in
  let? minor := ok_or (parse_uint u16_max minor) invalid in
  Ok (major, minor).

(** ** Discovery *)

(** [ORDER BY groupid, nodeid]. *)
Definition node_before (a b : CitusNodeRow) : Prop :=
  (nw_groupid a < nw_groupid b)%Z \/ nw_groupid a = nw_groupid b /\ (nw_nodeid a <= nw_nodeid b)%Z.
Global Instance node_before_dec : RelDecision node_before.
Proof. intros a b. unfold node_before. apply _. Defined.

Definition node_of_row (row : CitusNodeRow) : result SourceError CitusNode :=
  let port := nw_nodeport row in
  if (0 <=? port)%Z && (port <=? u16_max)%Z
  then Ok (mkCitusNode (nw_nodeid row) (nw_groupid row) (nw_nodename row) port (nw_noderole row)
             (eq_ignore_ascii_case (nw_noderole row) "primary"))
  else Err (contract ("invalid Citus node port " +:+ pretty port)).

Definition active_primary (row : CitusNodeRow) : bool :=
  nw_isactive row && bool_decide (nw_noderole row = "primary").

Definition load_nodes (citus : CitusCatalog) : result SourceError (list CitusNode) :=
  try_map node_of_row (merge_sort node_before (List.filter active_primary (ci_nodes citus))).

Definition setting_enabled (value : option string) : bool :=
  match value with
  | Some value =>
      eq_ignore_ascii_case value "on" || bool_decide (value = "1") || bool_decide (value = "true")
  | None => false
  end.

Definition discover (server : SourceServer) (citus : CitusCatalog) (options : CitusOptions)
    : result SourceError (option CitusTopology) :=
  match ci_extversion citus with
  | None => Ok None
  | Some version =>
      let? v := parse_version version in
      let major := v.1 in let minor := v.2 in
      if negb (major =? cx_expected_major options)%Z || (minor <? cx_expected_minor options)%Z
      then Err (source_unsupported ("Citus " +:+ pretty (cx_expected_major options) +:+ "."
                                    +:+ pretty (cx_expected_minor options)
                                    +:+ " or newer is required, got " +:+ version))
      else
        let role := if ci_is_coordinator citus then Coordinator else Worker in
        let cdc_enabled := setting_enabled (ci_change_data_capture citus) in
        if cx_require_cdc_setting options && negb cdc_enabled
        then Err (source_unsupported "citus.enable_change_data_capture must be enabled")
        else
          let? nodes := if bool_decide (role = Coordinator) then load_nodes citus else Ok [] in
          let cluster_identity := "citus:" +:+ version +:+ ":system:" +:+ sv_system_identifier server in
          Ok (Some (mkCitusTopology version role cluster_identity 1 cdc_enabled nodes))
  end.

(** ** Table metadata *)

Definition descriptor_of_row (row : CitusPartitionRow) (logicalrelid : Z)
    : result SourceError (Z * DistributionDescriptor) :=
  if (0 <=? logicalrelid)%Z && (logicalrelid <=? u32_max)%Z
  then match pw_partmethod row with
       | String method _ =>
           Ok (logicalrelid, mkDistributionDescriptor method (pw_partkey row) (pw_repmodel row))
       | EmptyString => Err (contract "empty Citus partition method")
       end
  else Err (contract "Citus logical relation OID is out of range").

(** The loop over the rows of the query. *)
Definition insert_distribution (descriptors : gmap Z DistributionDescriptor) (row : CitusPartitionRow)
    : result SourceError (gmap Z DistributionDescriptor) :=
  match pw_logicalrelid row with
  | None => Ok descriptors
  | Some logicalrelid =>
      let? entry := descriptor_of_row row logicalrelid in
      Ok (<[entry.1 := entry.2]> descriptors)
  end.

(** [table.kind = kind; table.distribution_key = key]. *)
Definition set_distribution (kind : TableKind) (key : list Z) (table : TableSchema) : TableSchema :=
  mkTableSchema (ts_relation_id table) (ts_generation table) (ts_name table) kind (ts_replica_identity table)
    (ts_columns table) key (ts_partition_key table).

(** The body of the loop over the tables. *)
Definition apply_descriptor (options : CitusOptions) (descriptors : gmap Z DistributionDescriptor)
    (table : TableSchema) : result SourceError TableSchema :=
  match descriptors !! ts_relation_id table with
  | None => Ok table
  | Some descriptor =>
      let name := QualifiedName_to_string (ts_name table) in
      let? key := match dd_part_key descriptor with
                  | Some value => parse_distribution_key value
                  | None => Ok []
                  end in
      let gated := negb (cx_allow_validation_gated_tables options) in
      if bool_decide (dd_method descriptor = "h"%char) then
        if bool_decide (key = [])
        then Err (source_unsupported ("Citus hash-distributed table " +:+ name +:+ " has no distribution key"))
        else Ok (set_distribution CitusDistributed key table)
      else if bool_decide (dd_method descriptor = "n"%char) then
        if match dd_replication_model descriptor with
           | Some value => eq_ignore_ascii_case value "s"
           | None => false
           end
        then
          if gated
          then Err (source_unsupported ("Citus reference table " +:+ name +:+ " is validation-gated"))
          else Ok (set_distribution CitusReference key table)
        else if gated
        then Err (source_unsupported ("Citus coordinator-local table " +:+ name +:+ " is validation-gated"))
        else Ok (set_distribution CitusLocal key table)
      else Err (source_unsupported ("Citus distribution method `" +:+ String (dd_method descriptor) EmptyString
                                    +:+ "` for " +:+ name +:+ " is not supported"))
  end.

(** The tables are changed in place; a caller that gets an error drops them. *)
Definition apply_table_metadata_with_options (citus : CitusCatalog) (tables : list TableSchema)
    (topology : CitusTopology) (options : CitusOptions) : result SourceError (list TableSchema) :=
  if bool_decide (tp_role topology <> Coordinator) then Ok tables
  else
    let? descriptors := foldM insert_distribution ∅ (ci_partitions citus) in
    try_map (apply_descriptor options descriptors) tables.

Definition apply_table_metadata (citus : CitusCatalog) (tables : list TableSchema) (topology : CitusTopology)
    : result SourceError (list TableSchema) :=
  apply_table_metadata_with_options citus tables topology CitusOptions_default.

(** [validate_supported] of every table, after the metadata. *)
Definition check_supported (table : TableSchema) : result SourceError TableSchema :=
  let? _ := core_contract (validate_supported table) in Ok table.

Definition load_tables_with_citus_options (server : SourceServer) (citus : CitusCatalog)
    (options : CatalogOptions) (topology : CitusTopology) (citus_options : CitusOptions)
    : result SourceError (list TableSchema) :=
  let? tables := load_tables server options in
  let? tables := apply_table_metadata_with_options citus tables topology citus_options in
  try_map check_supported tables.

Definition load_tables_with_citus (server : SourceServer) (citus : CitusCatalog) (options : CatalogOptions)
    (topology : CitusTopology) : result SourceError (list TableSchema) :=
  load_tables_with_citus_options server citus options topology CitusOptions_default.

(** ** Lemmas: text *)

Lemma prefix_over p s c t :
  contains_char c p = false -> String.prefix p (s +:+ String c t) = true -> String.prefix p s = true.
Proof.
  revert s. induction p as [|a p IH]; intros [|b s] Hc H; try done.
  - rewrite string_app_nil in H. cbn [String.prefix contains_char] in *.
    apply orb_false_iff in Hc as [Hc _]. destruct (ascii_dec a c); [|done]. subst.
    by rewrite bool_decide_true in Hc.
  - rewrite string_app_cons in H. cbn [String.prefix contains_char] in *.
    apply orb_false_iff in Hc as [_ Hc]. destruct (ascii_dec a b); [|done]. by apply IH.
Qed.

Lemma drop_chars_app s t : drop_chars (String.length s) (s +:+ t) = t.
Proof. induction s as [|c s IH]; [by destruct t|]. rewrite string_app_cons. exact IH. Qed.

Lemma prefix_app s t : String.prefix s (s +:+ t) = true.
Proof. apply prefix_spec. by exists t. Qed.

(** The field's name is found where it stands: no other text of the tree runs into it. *)
Lemma after_first_app s t : after_first varattno s = None -> after_first varattno (s +:+ varattno +:+ t) = Some t.
Proof.
  induction s as [|c s IH]; intros H.
  - rewrite string_app_nil. unfold after_first at 1. fold after_first.
    replace (String.prefix varattno (varattno +:+ t)) with true by (symmetry; apply prefix_app).
    destruct t; cbn; reflexivity.
  - rewrite string_app_cons. cbn [after_first] in *.
    destruct (String.prefix varattno (String c s)) eqn:Ep; [done|].
    destruct (String.prefix varattno (String c (s +:+ varattno +:+ t))) eqn:Eq; [|by apply IH].
    exfalso. cbn [varattno String.prefix] in Ep, Eq. destruct (ascii_dec _ c); [|done].
    change (varattno +:+ t) with (String ":" (drop_chars 1 varattno +:+ t)) in Eq.
    apply (prefix_over "varattno ") in Eq; [|done]. unfold varattno in *. cbn [String.prefix] in *. congruence.
Qed.

Lemma span_number_app s t :
  Lsn.str_all is_digit s = true ->
  match t with String c _ => is_number_char c = false | EmptyString => True end ->
  span_number (s +:+ t) = (s, t).
Proof.
  intros Hs Ht. induction s as [|c s IH].
  - rewrite string_app_nil. destruct t as [|c t]; [done|]. cbn [span_number]. by rewrite Ht.
  - cbn [Lsn.str_all] in Hs. apply andb_true_iff in Hs as [Hc Hs].
    rewrite string_app_cons. cbn [span_number]. unfold is_number_char at 1. rewrite Hc. cbn [orb].
    by rewrite IH.
Qed.

Lemma span_number_length s : (String.length (snd (span_number s)) <= String.length s)%nat.
Proof.
  induction s as [|c s IH]; [done|]. cbn [span_number]. destruct (is_number_char c); [|done].
  destruct (span_number s). cbn in *. lia.
Qed.

Lemma drop_chars_length n s : String.length (drop_chars n s) = (String.length s - n)%nat.
Proof. revert n. induction s as [|c s IH]; intros [|n]; cbn; [done..|]. apply IH. Qed.

Lemma prefix_longer p s : String.prefix p s = true -> (String.length p <= String.length s)%nat.
Proof. intros [t ->]%prefix_spec. rewrite string_length_app. lia. Qed.

Lemma after_first_shorter pat s t :
  after_first pat s = Some t -> (String.length t + String.length pat <= String.length s)%nat.
Proof.
  induction s as [|c s IH]; cbn [after_first]; intros H.
  - destruct (String.prefix pat EmptyString) eqn:E; [|done]. apply prefix_longer in E.
    injection H as <-. rewrite drop_chars_length. cbn in *. lia.
  - destruct (String.prefix pat (String c s)) eqn:E.
    + apply prefix_longer in E. injection H as <-. rewrite drop_chars_length. lia.
    + specialize (IH H). cbn. lia.
Qed.

(** Every turn of the loop consumes the field's name, so the room given is enough. *)
Lemma distribution_loop_ends fuel part_key remainder found :
  (String.length remainder < fuel)%nat -> distribution_loop fuel part_key remainder found <> Panic.
Proof.
  revert remainder found. induction fuel as [|fuel IH]; intros remainder found Hf; [lia|].
  cbn [distribution_loop]. destruct (after_first varattno remainder) as [t|] eqn:Ea; [|done].
  apply after_first_shorter in Ea. pose proof (span_number_length t) as Hs.
  destruct (span_number t) as [digits rest]. destruct (Lsn.is_empty digits); [done|].
  destruct (parse_int _ _ digits) as [n|]; cbn; [|done]. destruct (n <=? 0)%Z; [done|].
  case_bool_decide; [done|]. apply IH. cbn in *. lia.
Qed.

Lemma parse_int_pretty n : (1 <= n <= 2 ^ 15 - 1)%Z -> parse_int (- 2 ^ 15) (2 ^ 15 - 1) (pretty n) = Some n.
Proof.
  intros Hn. destruct (pretty_digit n) as (c & rest & Hp & Hc); [lia|].
  pose proof (parse_uint_pretty (2 ^ 15 - 1) n ltac:(lia)) as Hu. rewrite Hp in *.
  cbn [parse_int]. rewrite bool_decide_false; [done|]. intros ->. by vm_compute in Hc.
Qed.

(** The text of a tree: each item is a column's number and what follows it. *)
Definition tree (items : list (Z * string)) : string :=
  foldr (fun item rest => varattno +:+ pretty item.1 +:+ item.2 +:+ rest) EmptyString items.

Definition plain (s : string) : Prop := after_first varattno s = None.

Definition tree_item (item : Z * string) : Prop :=
  (1 <= item.1 <= 2 ^ 15 - 1)%Z /\ plain item.2 /\
  match item.2 with String c _ => is_number_char c = false | EmptyString => True end.

Lemma tree_head items : match tree items with String c _ => is_number_char c = false | EmptyString => True end.
Proof. by destruct items. Qed.

Lemma tree_length items : (length items <= String.length (tree items))%nat.
Proof.
  induction items as [|i items IH]; [cbn; lia|]. cbn [tree foldr length]. fold (tree items).
  rewrite !string_length_app. change (String.length varattno) with 10%nat. lia.
Qed.

Lemma item_stops tail items : 
  match tail with String c _ => is_number_char c = false | EmptyString => True end ->
  match tail +:+ tree items with String c _ => is_number_char c = false | EmptyString => True end.
Proof. destruct tail; intros H; [rewrite string_app_nil; apply tree_head|exact H]. Qed.

Lemma after_first_tree s items : plain s ->
  after_first varattno (s +:+ tree items) =
  match items with [] => None | item :: items => Some (pretty item.1 +:+ item.2 +:+ tree items) end.
Proof.
  intros H. destruct items as [|item items]; cbn [tree foldr].
  - replace (s +:+ EmptyString) with s; [done|]. clear H. induction s as [|c s IH]; [done|].
    rewrite string_app_cons. by rewrite <-IH.
  - by rewrite after_first_app.
Qed.

Lemma distribution_loop_tree fuel part_key s items found :
  plain s -> Forall tree_item items -> (length items < fuel)%nat -> NoDup found ->
  if bool_decide (NoDup (found ++ map fst items))
  then distribution_loop fuel part_key (s +:+ tree items) found = Ok (found ++ map fst items)
  else exists e, distribution_loop fuel part_key (s +:+ tree items) found = Err e.
Proof.
  revert fuel s found. induction items as [|[n tail] items IH]; intros [|fuel] s found Hs Hi Hf Hd; try (cbn in Hf; lia).
  - cbn [map]. rewrite app_nil_r, bool_decide_true by done. cbn [distribution_loop].
    by rewrite after_first_tree.
  - apply Forall_cons in Hi as [(Hn & Ht & Hstop) Hi]. cbn [fst snd] in *.
    cbn [distribution_loop map fst]. rewrite after_first_tree by done. cbn [fst snd].
    rewrite span_number_app; [|rewrite pretty_Z_nonneg by lia; apply pretty_N_digits|by apply item_stops].
    destruct (pretty_digit n) as (c & rest & Hp & _); [lia|].
    replace (Lsn.is_empty (pretty n)) with false by (by rewrite Hp).
    rewrite parse_int_pretty by done. cbn [ok_or mbind result_bind].
    destruct (Z.leb_spec n 0); [lia|]. case_bool_decide as Hnd; case_bool_decide as Hin.
    + apply NoDup_app in Hnd as (_ & Hnd & _). exfalso. apply (Hnd n); [done|by left].
    + specialize (IH fuel tail (found ++ [n])). rewrite <-app_assoc, (bool_decide_true _ Hnd) in IH. apply IH; try done; [cbn in Hf; lia|].
      rewrite cons_middle, app_assoc in Hnd. by apply NoDup_app in Hnd as [? _].
    + by eexists.
    + specialize (IH fuel tail (found ++ [n])). rewrite <-app_assoc, (bool_decide_false _ Hnd) in IH. apply IH; try done; [cbn in Hf; lia|].
      apply NoDup_app. split_and!; [done| |apply NoDup_singleton]. intros x Hx ->%list_elem_of_singleton. done.
Qed.

(** ** Lemmas: metadata *)

Section metadata.
Context (rows : list CitusPartitionRow).

(** What the map of descriptors holds: the rows of the query. *)
Definition described (id : Z) (d : DistributionDescriptor) : Prop :=
  exists row rest, row ∈ rows /\ pw_logicalrelid row = Some id /\
    pw_partmethod row = String (dd_method d) rest /\ pw_partkey row = dd_part_key d /\
    pw_repmodel row = dd_replication_model d.

Lemma insert_distribution_Ok m row m' :
  row ∈ rows -> (forall id d, m !! id = Some d -> described id d) -> insert_distribution m row = Ok m' ->
  (forall id d, m' !! id = Some d -> described id d) /\ dom m ⊆ dom m' /\
  forall id, pw_logicalrelid row = Some id -> id ∈ dom m'.
Proof.
  intros Hrow Hm H. unfold insert_distribution in H. destruct (pw_logicalrelid row) as [id|] eqn:Er;
    [|by injection H as <-]. 
  apply bind_Ok in H as ([id' d] & He & H). injection H as <-. cbn [fst snd].
  unfold descriptor_of_row in He. destruct (_ && _); [|done].
  destruct (pw_partmethod row) as [|c rest] eqn:Ep; [done|]. injection He as <- <-.
  split_and!; [|set_solver|intros ? [= <-]; set_solver].
  intros id' d Hd. destruct (decide (id' = id)) as [->|Hne].
  - rewrite lookup_insert_eq in Hd. injection Hd as <-. by exists row, rest.
  - rewrite lookup_insert_ne in Hd by done. by apply Hm.
Qed.

Lemma descriptors_Ok l m m' :
  (forall row, row ∈ l -> row ∈ rows) -> (forall id d, m !! id = Some d -> described id d) ->
  foldM insert_distribution m l = Ok m' ->
  (forall id d, m' !! id = Some d -> described id d) /\ dom m ⊆ dom m' /\
  forall row id, row ∈ l -> pw_logicalrelid row = Some id -> id ∈ dom m'.
Proof.
  revert m. induction l as [|row l IH]; intros m Hl Hm H.
  - injection H as <-. split_and!; [done..|]. by intros row id ?%elem_of_nil.
  - cbn [foldM] in H. apply bind_Ok in H as (m1 & H1 & H).
    destruct (insert_distribution_Ok _ _ _ (Hl row ltac:(by left)) Hm H1) as (Hm1 & Hs1 & Hr1).
    destruct (IH m1) as (Hm' & Hs' & Hr'); [intros; apply Hl; by right|done|done|].
    split_and!; [done|set_solver|]. intros row' id [->|Hin]%elem_of_cons Hid; [|by eapply Hr'].
    apply Hs', Hr1, Hid.
Qed.

(** What the metadata makes of one table when the gated kinds are refused. *)
Definition distributed_by_key (table table' : TableSchema) : Prop :=
  exists row method text key, row ∈ rows /\ pw_logicalrelid row = Some (ts_relation_id table) /\
    pw_partmethod row = String "h" method /\ pw_partkey row = Some text /\
    parse_distribution_key text = Ok key /\ table' = set_distribution CitusDistributed key table.

Lemma apply_descriptor_Ok m table table' :
  (forall id d, m !! id = Some d -> described id d) ->
  apply_descriptor CitusOptions_default m table = Ok table' ->
  table' = table /\ ts_relation_id table ∉ dom m \/ distributed_by_key table table'.
Proof.
  intros Hm H. unfold apply_descriptor in H. cbn [cx_allow_validation_gated_tables CitusOptions_default negb] in H.
  destruct (m !! ts_relation_id table) as [d|] eqn:Ed.
  2: { injection H as <-. left. split; [done|]. by apply not_elem_of_dom. }
  right. apply bind_Ok in H as (key & Hk & H). destruct (Hm _ _ Ed) as (row & rest & Hrow & Hid & Hp & Hpk & Hr).
  case_bool_decide as Hh; [|by repeat case_match].
  case_bool_decide as Hnil; [done|]. injection H as <-.
  destruct (dd_part_key d) as [text|] eqn:Et; [|by injection Hk as <-].
  exists row, rest, text, key. rewrite Hh in Hp. by rewrite Hpk.
Qed.
End metadata.

(** What [parse_distribution_key] returns is never empty and has only the numbers of columns. *)
Lemma distribution_loop_positive fuel part_key remainder found key :
  Forall (fun n => 0 < n)%Z found -> NoDup found ->
  distribution_loop fuel part_key remainder found = Ok key -> Forall (fun n => 0 < n)%Z key /\ NoDup key.
Proof.
  revert remainder found. induction fuel as [|fuel IH]; intros remainder found Hf Hd H; [done|].
  cbn [distribution_loop] in H. destruct (after_first varattno remainder) as [t|]; [|by injection H as <-].
  destruct (span_number t) as [digits rest]. destruct (Lsn.is_empty digits); [done|].
  apply bind_Ok in H as (n & _ & H). destruct (Z.leb_spec n 0); [done|]. case_bool_decide as Hin; [done|].
  apply IH in H; [done| |].
  - apply Forall_app. split; [done|]. by constructor.
  - apply NoDup_app. split_and!; [done| |apply NoDup_singleton]. by intros x Hx ->%list_elem_of_singleton.
Qed.

Lemma parse_distribution_key_Ok text key :
  parse_distribution_key text = Ok key -> key <> [] /\ Forall (fun n => 0 < n)%Z key /\ NoDup key.
Proof.
  unfold parse_distribution_key. intros H. apply bind_Ok in H as (found & Hf & H).
  case_bool_decide; [done|]. injection H as <-. split; [done|].
  eapply distribution_loop_positive; [| |exact Hf]; constructor.
Qed.

Lemma check_supported_Ok table table' : check_supported table = Ok table' <-> table' = table /\ supported table.
Proof.
  unfold check_supported, core_contract. rewrite bind_Ok. rewrite <-validate_supported_Ok. split.
  - intros (u & Hu & H). injection H as <-. destruct u. by apply map_err_Ok in Hu.
  - intros [-> H]. exists tt. by rewrite H.
Qed.

(** ** Properties *)

(** From the text of a distribution key, the column numbers of its [Var] nodes are read in
    order, whatever stands around them, unless two are equal or there is none, which is
    refused; and reading ends on every text. *)
Theorem distribution_key_is_read_from_its_tree :
  (forall text, parse_distribution_key text <> Panic) /\
  forall s items key, plain s -> Forall tree_item items ->
    parse_distribution_key (s +:+ tree items) = Ok key <-> key = map fst items /\ items <> [] /\ NoDup key.
Proof.
  split.
  - intros text H. unfold parse_distribution_key in H. apply bind_Panic in H as [H|(k & _ & H)].
    + revert H. apply distribution_loop_ends. lia.
    + by case_bool_decide.
  - intros s items key Hs Hi. unfold parse_distribution_key. set (text := s +:+ tree items).
    assert (Hlen : (length items < S (String.length text))%nat).
    { unfold text. rewrite string_length_app. pose proof (tree_length items). lia. }
    pose proof (distribution_loop_tree _ text s items [] Hs Hi Hlen (NoDup_nil_2)) as H. cbn [app] in H.
    fold text in H. case_bool_decide as Hd.
    + rewrite H. cbn [mbind result_bind]. destruct items as [|i items]; [by split; [|intros (_ & ? & _)]|].
      rewrite bool_decide_false by done. split; [by intros [= <-]|]. by intros (-> & _).
    + destruct H as [e ->]. cbn. split; [done|]. by intros (-> & _ & ?).
Qed.

(** With the default options every table that is loaded with the metadata of a coordinator is
    the table of the catalog with its kind set: a table without metadata is unchanged, every
    other is hash-distributed by a non-empty key of distinct columns of its primary key, and
    every table satisfies the contract.  Reference and coordinator-local tables are refused. *)
Theorem citus_tables_carry_their_key server citus options topology tables :
  tp_role topology = Coordinator ->
  load_tables_with_citus server citus options topology = Ok tables ->
  exists plain_tables, load_tables server options = Ok plain_tables /\
    Forall2 (fun table table' => supported table' /\
      (table' = table /\ (forall row, row ∈ ci_partitions citus -> pw_logicalrelid row <> Some (ts_relation_id table))
       \/ distributed_by_key (ci_partitions citus) table table' /\
          ts_distribution_key table' <> [] /\ NoDup (ts_distribution_key table') /\
          forall a, a ∈ ts_distribution_key table' -> exists c, c ∈ primary_key table' /\ col_attnum c = a))
      plain_tables tables.
Proof.
  intros Hrole H. unfold load_tables_with_citus, load_tables_with_citus_options in H.
  apply bind_Ok in H as (t0 & H0 & H). apply bind_Ok in H as (t1 & H1 & H). exists t0. split; [done|].
  unfold apply_table_metadata_with_options in H1. rewrite bool_decide_false in H1 by tauto.
  apply bind_Ok in H1 as (m & Hm & H1).
  apply (descriptors_Ok (ci_partitions citus)) in Hm as (Hm & _ & Hdom); [|done|by intros ? ? ?%lookup_empty_Some].
  apply try_map_Ok in H1. apply try_map_Ok in H.
  assert (t1 = tables) as ->.
  { clear -H. induction H as [|a b l k Hab _ IH]; [done|]. apply check_supported_Ok in Hab as [-> _]. by rewrite IH. }
  assert (Hs : forall t, t ∈ tables -> supported t).
  { intros t Ht. apply list_elem_of_lookup in Ht as [i Hi].
    destruct (Forall2_lookup_l _ _ _ _ _ H Hi) as (t' & _ & Hc). by apply check_supported_Ok in Hc as [_ ?]. }
  apply Forall2_same_length_lookup in H1 as [Hlen H1]. apply Forall2_same_length_lookup. split; [done|].
  intros i table table' Hi Hi'. pose proof (H1 _ _ _ Hi Hi') as Ha.
  assert (Htable' : table' ∈ tables) by (by eapply list_elem_of_lookup_2).
  split; [by apply Hs|]. apply (apply_descriptor_Ok (ci_partitions citus)) in Ha; [|done].
  destruct Ha as [[-> Hn]|Hd].
  - left. split; [done|]. intros row Hrow Hid. by apply Hn, (Hdom row).
  - right. split; [done|]. destruct Hd as (row & method & text & key & _ & _ & _ & _ & Hk & ->).
    apply parse_distribution_key_Ok in Hk as (Hne & _ & Hnd). split_and!; [done|done|].
    by apply (supported_distribution _ (Hs _ Htable')).
Qed.

Global Instance node_before_total : Total node_before.
Proof. intros a b. unfold node_before. lia. Qed.
Global Instance node_before_trans : Transitive node_before.
Proof. intros a b c. unfold node_before. lia. Qed.

(** A discovered topology is of the expected release; a coordinator's has exactly the active
    primary nodes, by group and node, a worker's has none. *)
Theorem discovered_topology_lists_the_primaries server citus options topology :
  discover server citus options = Ok (Some topology) ->
  (exists minor, parse_version (tp_version topology) = Ok (cx_expected_major options, minor) /\
                 (cx_expected_minor options <= minor)%Z) /\
  (cx_require_cdc_setting options = true -> tp_cdc_enabled topology = true) /\
  (tp_role topology = Worker -> tp_nodes topology = []) /\
  (tp_role topology = Coordinator -> exists rows,
     rows ≡ₚ List.filter active_primary (ci_nodes citus) /\ StronglySorted node_before rows /\
     map cn_node_id (tp_nodes topology) = map nw_nodeid rows /\
     Forall (fun n => cn_is_primary n = true /\ (0 <= cn_port n <= u16_max)%Z) (tp_nodes topology)).
Proof.
  unfold discover. destruct (ci_extversion citus) as [version|]; [|done]. intros H.
  apply bind_Ok in H as ([major minor] & Hv & H). cbn [fst snd] in H.
  destruct (Z.eqb_spec major (cx_expected_major options)) as [->|]; [|done].
  destruct (Z.ltb_spec minor (cx_expected_minor options)); [done|]. cbn [negb orb] in H.
  destruct (cx_require_cdc_setting options && _) eqn:Hc; [done|].
  apply bind_Ok in H as (nodes & Hn & H). injection H as <-. cbn [tp_version tp_cdc_enabled tp_role tp_nodes].
  split_and!.
  - by exists minor.
  - intros Hr. rewrite Hr in Hc. cbn in Hc. by apply negb_false_iff in Hc.
  - intros Hw. rewrite Hw in Hn. by injection Hn as <-.
  - intros Hr. rewrite Hr, bool_decide_true in Hn by done. unfold load_nodes in Hn.
    set (rows := merge_sort _ _) in Hn. exists rows.
    assert (Hperm : rows ≡ₚ List.filter active_primary (ci_nodes citus)) by apply merge_sort_Permutation.
    assert (Hact : forall row, row ∈ rows -> active_primary row = true).
    { intros row. rewrite Hperm, elem_of_List_filter. tauto. }
    split_and!; [done|apply (StronglySorted_merge_sort _)| |]; apply try_map_Ok in Hn; clear -Hn Hact;
      clearbody rows; induction Hn as [|row n rows nodes Hrn _ IH]; try done; cbn [map].
    all: assert (Hrow := Hact row ltac:(by left)); specialize (IH (fun r Hr => Hact r (list_elem_of_further _ _ _ Hr))).
    all: unfold node_of_row in Hrn; destruct (_ && _) eqn:Hp; [|done]; injection Hrn as <-; cbn.
    + by rewrite IH.
    + constructor; [|done]. cbn. unfold active_primary in Hrow. apply andb_true_iff in Hrow as [_ Hrow%bool_decide_eq_true].
      rewrite Hrow. split; [done|]. apply andb_true_iff in Hp as [?%Z.leb_le ?%Z.leb_le]. done.
Qed.

(** ** Witnesses *)

Definition example_citus : CitusCatalog :=
  mkCitusCatalog (Some "14.1-1") true (Some "on")
    [mkCitusNodeRow 3 2 "w2" 5432 "primary" true; mkCitusNodeRow 2 1 "w1" 5432 "primary" true;
     mkCitusNodeRow 4 1 "w1s" 5432 "secondary" true]
    [mkCitusPartitionRow (Some 7%Z) "h"
       (Some "{VAR :varno 1 :varattno 1 :vartype 23 :varnosyn 1 :varattnosyn 1 :location -1}") (Some "c")].
Definition citus_server : SourceServer :=
  mkSourceServer example_settings "77" 1 "shop" false (Some "14.1-1") (take 2 example_column_rows)
    [(16390%Z, "CHECK (VALUE >= 0)")] example_type_rows ∅ ∅.
Definition example_topology : CitusTopology :=
  mkCitusTopology "14.1-1" Coordinator "citus:14.1-1:system:77" 1 true
    [mkCitusNode 2 1 "w1" 5432 "primary" true; mkCitusNode 3 2 "w2" 5432 "primary" true].

Lemma distribution_key_is_read_from_its_tree_witness :
  parse_distribution_key "{VAR :varattno 2} {VAR :varattno 1}" = Ok [2; 1]%Z.
Proof.
  apply (proj2 distribution_key_is_read_from_its_tree "{VAR " [(2, "} {VAR "); (1, "}")]%Z).
  - reflexivity.
  - repeat (apply Forall_cons; split; [unfold tree_item; cbn [fst snd]; split_and!; [lia..|reflexivity|reflexivity]|]).
    by apply Forall_nil.
  - split_and!; [done|done|]. by apply (bool_decide_unpack _).
Defined.

Lemma citus_tables_carry_their_key_witness :
  exists tables, load_tables_with_citus citus_server example_citus CatalogOptions_default example_topology = Ok tables /\
    map ts_distribution_key tables = [[1%Z]] /\ Forall supported tables.
Proof.
  destruct (load_tables_with_citus citus_server example_citus CatalogOptions_default example_topology)
    as [tables| |] eqn:E; [|by vm_compute in E..].
  exists tables. split; [done|]. split; [vm_compute in E; by injection E as <-|].
  destruct (citus_tables_carry_their_key _ _ _ example_topology _ eq_refl E) as (plain_tables & _ & H).
  clear E. induction H as [|? ? ? ? [Hs _] _ IH]; by constructor.
Defined.

Lemma discovered_topology_lists_the_primaries_witness :
  exists topology, discover citus_server example_citus CitusOptions_default = Ok (Some topology) /\
    topology = example_topology /\ (tp_role topology = Worker -> tp_nodes topology = []).
Proof.
  exists example_topology. assert (E : discover citus_server example_citus CitusOptions_default = Ok (Some example_topology))
    by (vm_compute; reflexivity).
  split; [done|]. split; [done|].
  by destruct (discovered_topology_lists_the_primaries _ _ _ _ E) as (_ & _ & ? & _).
Defined.
