(* ===== verification/Digest.v ===== *)
(** * Comparison of chunks

    Models [crates/engine/src/reconcile.rs]: the digest of a chunk of rows and the comparison
    of the source's chunk with the target's.  SHA-256 is a parameter; what is fed to it is
    written out, and [stream_is_injective] shows that different chunks feed it different
    bytes, so a match means equal rows unless two inputs share a hash. *)

From S2P Require Import Prelude Change Manifest.

Record CanonicalRow : Type := mkCanonicalRow {
  cr_key : list bytes;
  cr_values : list Cell;
}.

Record ChunkDigest : Type := mkChunkDigest {
  cd_row_count : Z;
  cd_sha256 : bytes;
}.
Global Instance ChunkDigest_eq_dec : EqDecision ChunkDigest.
Proof. solve_decision. Defined.

Inductive ReconcileResult : Type :=
| Match (digest : ChunkDigest)
| Mismatch (source target : ChunkDigest).

Inductive ReconcileError : Type :=
| SourceRead (message : string)
| TargetRead (message : string)
| UnchangedToastCell.

(** [hash_bytes]: what is fed to the hasher. *)
Definition hash_bytes (tag : byte) (value : bytes) : bytes := [tag] ++ be_bytes 8 (len value) ++ value.

Definition hash_value (value : Cell) : result ReconcileError bytes :=
  match value with
  | Null => Ok [x00]
  | Text value => Ok (hash_bytes x02 value)
  | Binary value => Ok (hash_bytes x03 value)
  | UnchangedToast => Err UnchangedToastCell
  end.

(** One turn of the loop over the rows; the streams of the values are collected in order. *)
Definition hash_row (row : CanonicalRow) : result ReconcileError bytes :=
  let? values := try_map hash_value (cr_values row) in
  Ok (be_bytes 8 (len (cr_key row)) ++ concat (map (hash_bytes x01) (cr_key row))
      ++ be_bytes 8 (len (cr_values row)) ++ concat values).

Definition hashed (rows : list CanonicalRow) : result ReconcileError bytes :=
  let? streams := try_map hash_row rows in Ok (concat streams).

Section digest.
Context (sha256 : bytes -> bytes).

Definition digest_rows (rows : list CanonicalRow) : result ReconcileError ChunkDigest :=
  let? stream := hashed rows in Ok (mkChunkDigest (len rows) (sha256 stream)).

(** [try_join!] of two reads: of two errors it returns the one that comes first. *)
Definition try_join {A B} (source_first : bool) (a : result ReconcileError A) (b : result ReconcileError B)
    : result ReconcileError (A * B) :=
  if source_first then let? x := a in let? y := b in Ok (x, y)
  else let? y := b in let? x := a in Ok (x, y).

(** [ChunkReader::read_chunk]. *)
Definition chunk_reader : Type := option (list bytes) -> result ReconcileError (list CanonicalRow).

Definition compare_chunk (source_first : bool) (source target : chunk_reader) (start_after : option (list bytes))
    : result ReconcileError ReconcileResult :=
  let? rows := try_join source_first (source start_after) (target start_after) in
  let? source := digest_rows rows.1 in
  let? target := digest_rows rows.2 in
  if bool_decide (source = target) then Ok (Match source) else Ok (Mismatch source target).
End digest.

(** ** Lemmas *)

Lemma be_bytes_length w n : length (be_bytes w n) = w.
Proof. revert n. induction w as [|w IH]; intros n; [done|]. cbn. rewrite length_app, IH. cbn. lia. Qed.

Lemma byte_of_Z_inj a b :
  (0 <= a < 256)%Z -> (0 <= b < 256)%Z ->
  default x00 (Byte.of_N (Z.to_N a)) = default x00 (Byte.of_N (Z.to_N b)) -> a = b.
Proof.
  intros Ha Hb H.
  destruct (Byte.of_N (Z.to_N a)) as [x|] eqn:Ea; [|apply Byte.of_N_None_iff in Ea; lia].
  destruct (Byte.of_N (Z.to_N b)) as [y|] eqn:Eb; [|apply Byte.of_N_None_iff in Eb; lia].
  cbn in H. subst y. apply Byte.to_of_N in Ea, Eb. lia.
Qed.

Lemma be_bytes_inj w m n :
  (0 <= m < 256 ^ Z.of_nat w)%Z -> (0 <= n < 256 ^ Z.of_nat w)%Z -> be_bytes w m = be_bytes w n -> m = n.
Proof.
  revert m n. induction w as [|w IH]; intros m n Hm Hn H; [cbn in *; lia|].
  cbn [be_bytes] in H. apply app_inj_tail in H as [H Hb].
  apply byte_of_Z_inj in Hb; [|apply Z.mod_pos_bound; lia..].
  rewrite Nat2Z.inj_succ, Z.pow_succ_r in * by lia.
  apply IH in H; [|split; [apply Z.div_pos; lia|apply Z.div_lt_upper_bound; lia]..].
  rewrite (Z.div_mod m 256), (Z.div_mod n 256) by lia. congruence.
Qed.

(** An encoding that can be read off the front of a stream. *)
Definition prefix_free {A} (D : A -> Prop) (enc : A -> bytes) : Prop :=
  forall a b s t, D a -> D b -> enc a ++ s = enc b ++ t -> a = b /\ s = t.

Definition counted (n : Z) : Prop := (0 <= n <= u64_max)%Z.

Lemma count_prefix_free : prefix_free counted (be_bytes 8).
Proof.
  intros a b s t Ha Hb H. apply app_inj_1 in H as [H ->]; [|by rewrite !be_bytes_length].
  split; [|done]. unfold counted, u64_max in *. apply (be_bytes_inj 8); [cbn; lia..|done].
Qed.

(** A list under its length is read off the front when its elements are. *)
Lemma list_prefix_free {A} (D : A -> Prop) (enc : A -> bytes) (l k : list A) s t :
  prefix_free D enc -> Forall D l -> Forall D k -> length l = length k ->
  concat (map enc l) ++ s = concat (map enc k) ++ t -> l = k /\ s = t.
Proof.
  intros He Hl. revert k. induction Hl as [|x l Hx Hl IH]; intros [|y k] Hk Hlen H; try done.
  apply Forall_cons in Hk as [Hy Hk]. cbn [map concat] in H. rewrite <-!app_assoc in H.
  apply He in H as [-> H]; [|done..]. apply IH in H as [-> ->]; [done|done|]. by injection Hlen.
Qed.

Definition sized (value : bytes) : Prop := counted (len value).

Lemma sized_bytes (a b s t : bytes) : sized a -> sized b ->
  be_bytes 8 (len a) ++ a ++ s = be_bytes 8 (len b) ++ b ++ t -> a = b /\ s = t.
Proof.
  intros Ha Hb H. apply count_prefix_free in H as [Hl H]; [|done..].
  apply app_inj_1 in H; [done|]. unfold len in Hl. lia.
Qed.

Lemma hash_bytes_prefix_free tag : prefix_free sized (hash_bytes tag).
Proof.
  intros a b s t Ha Hb H. unfold hash_bytes in H. rewrite <-!app_assoc in H.
  apply app_inj_1 in H as [_ H]; [|done]. by apply sized_bytes in H.
Qed.

Definition sized_cell (c : Cell) : Prop :=
  match c with Null => True | Text v | Binary v => sized v | UnchangedToast => False end.

Definition cell_bytes (c : Cell) : bytes := match hash_value c with Ok b => b | _ => [] end.

Lemma cell_prefix_free : prefix_free sized_cell cell_bytes.
Proof.
  intros a b s t Ha Hb H. destruct a as [| |va|va], b as [| |vb|vb]; try done.
  - by injection H as ->.
  - by apply hash_bytes_prefix_free in H as [-> ->].
  - by apply hash_bytes_prefix_free in H as [-> ->].
Qed.

(** A row as it can be held in memory, without unchanged values. *)
Definition sized_row (row : CanonicalRow) : Prop :=
  counted (len (cr_key row)) /\ Forall sized (cr_key row) /\
  counted (len (cr_values row)) /\ Forall sized_cell (cr_values row).

Definition row_bytes (row : CanonicalRow) : bytes :=
  be_bytes 8 (len (cr_key row)) ++ concat (map (hash_bytes x01) (cr_key row))
  ++ be_bytes 8 (len (cr_values row)) ++ concat (map cell_bytes (cr_values row)).

Lemma row_prefix_free : prefix_free sized_row row_bytes.
Proof.
  intros [ka va] [kb vb] s t (Hka & Hfa & Hva & Hca) (Hkb & Hfb & Hvb & Hcb) H. cbn [cr_key cr_values] in *.
  unfold row_bytes in H. cbn [cr_key cr_values] in H. rewrite <-!app_assoc in H.
  apply count_prefix_free in H as [Hl H]; [|done..].
  apply (list_prefix_free sized) in H as [-> H]; [|apply hash_bytes_prefix_free|done|done|unfold len in Hl; lia].
  apply count_prefix_free in H as [Hl' H]; [|done..].
  apply (list_prefix_free sized_cell) in H as [-> ->]; [done|apply cell_prefix_free|done|done|].
  unfold len in Hl'. lia.
Qed.

Lemma hash_values_Ok l : Forall (fun c => c <> UnchangedToast) l -> try_map hash_value l = Ok (map cell_bytes l).
Proof.
  intros H. apply try_map_Ok. induction H as [|c l Hc _ IH]; constructor; [|done]. by destruct c.
Qed.

Lemma hash_values_toast l : ~ Forall (fun c => c <> UnchangedToast) l -> try_map hash_value l = Err UnchangedToastCell.
Proof.
  induction l as [|c l IH]; intros H; [by destruct H|]. cbn. destruct c; try done.
  all: rewrite IH; [done|]. all: intros Hl; apply H; by constructor.
Qed.

(** Whether the digest of the rows exists: no cell is unchanged. *)
Definition materialized (row : CanonicalRow) : Prop := Forall (fun c => c <> UnchangedToast) (cr_values row).
Global Instance materialized_dec row : Decision (materialized row).
Proof.
  unfold materialized. apply Forall_dec. intros c. destruct c; (by left) || (right; intros H; by apply H).
Defined.

Lemma hash_row_spec row :
  hash_row row = if decide (materialized row) then Ok (row_bytes row) else Err UnchangedToastCell.
Proof.
  unfold hash_row. case_decide; [by rewrite hash_values_Ok|by rewrite hash_values_toast].
Qed.

Lemma hashed_spec rows :
  hashed rows = if decide (Forall materialized rows) then Ok (concat (map row_bytes rows)) else Err UnchangedToastCell.
Proof.
  unfold hashed. case_decide as H.
  - replace (try_map hash_row rows) with (Ok (E := ReconcileError) (map row_bytes rows)); [done|]. symmetry.
    apply try_map_Ok. induction H as [|row rows Hr _ IH]; constructor; [|done]. by rewrite hash_row_spec, decide_True.
  - replace (try_map hash_row rows) with (Err (A := list bytes) UnchangedToastCell); [done|]. symmetry.
    induction rows as [|row rows IH]; [by destruct H|]. cbn [try_map]. rewrite hash_row_spec. case_decide; [|done].
    cbn [mbind result_bind]. rewrite IH; [done|]. intros Hr. apply H. by constructor.
Qed.

(** ** Properties *)

(** Different chunks feed different bytes to the hasher: a chunk is determined by its length
    and its stream. *)
Lemma stream_is_injective rows rows' :
  Forall sized_row rows -> Forall sized_row rows' -> length rows = length rows' ->
  concat (map row_bytes rows) = concat (map row_bytes rows') -> rows = rows'.
Proof.
  intros H H' Hl Hs. apply (list_prefix_free sized_row row_bytes rows rows' [] []); try done.
  - apply row_prefix_free.
  - by rewrite Hs.
Qed.

Lemma sized_materialized row : sized_row row -> materialized row.
Proof. intros (_ & _ & _ & H). eapply Forall_impl; [exact H|]. by intros [] ? ?. Qed.

(** C31: Chunks that were both read compare as equal exactly when their rows are equal, keys and
    values, unless SHA-256 maps two different inputs to one hash; an unchanged value that was
    not materialized is an error, and a failed read is never reported as a mismatch. *)
Theorem chunks_match_exactly_when_equal sha256 source_first source target start_after :
  (forall rows rows', source start_after = Ok rows -> target start_after = Ok rows' ->
     Forall sized_row rows -> Forall sized_row rows' ->
     exists r, compare_chunk sha256 source_first source target start_after = Ok r /\
       ((exists d, r = Match d) /\ (rows = rows' \/ exists a b, a <> b /\ sha256 a = sha256 b)
        \/ (exists d d', r = Mismatch d d' /\ d <> d') /\ rows <> rows')) /\
  (forall rows rows', source start_after = Ok rows -> target start_after = Ok rows' ->
     (exists row, (row ∈ rows \/ row ∈ rows') /\ UnchangedToast ∈ cr_values row) ->
     compare_chunk sha256 source_first source target start_after = Err UnchangedToastCell) /\
  (forall e, source start_after = Err e \/ target start_after = Err e ->
     forall r, compare_chunk sha256 source_first source target start_after <> Ok r).
Proof.
  split_and!.
  - intros rows rows' Hs Ht Hr Hr'.
    assert (Forall materialized rows) by (eapply Forall_impl; [exact Hr|]; apply sized_materialized).
    assert (Forall materialized rows') by (eapply Forall_impl; [exact Hr'|]; apply sized_materialized).
    assert (Hj : compare_chunk sha256 source_first source target start_after =
      let d := mkChunkDigest (len rows) (sha256 (concat (map row_bytes rows))) in
      let d' := mkChunkDigest (len rows') (sha256 (concat (map row_bytes rows'))) in
      if bool_decide (d = d') then Ok (Match d) else Ok (Mismatch d d')).
    { unfold compare_chunk, try_join, digest_rows. rewrite Hs, Ht.
      destruct source_first; cbn [mbind result_bind fst snd]; rewrite !hashed_spec, !decide_True by done; reflexivity. }
    rewrite Hj. cbv zeta. case_bool_decide as Hd; eexists; (split; [reflexivity|]).
    + left. split; [by eexists|]. injection Hd as Hl Hh.
      destruct (decide (concat (map row_bytes rows) = concat (map row_bytes rows'))) as [Heq|Hne].
      * left. apply stream_is_injective; try done. unfold len in Hl. lia.
      * right. by eexists _, _.
    + right. split; [by eexists _, _|]. by intros ->.
  - intros rows rows' Hs Ht (row & Hrow & Hcell). unfold compare_chunk, try_join, digest_rows. rewrite Hs, Ht.
    assert (~ materialized row) by (unfold materialized; rewrite Forall_forall; intros H; by eapply H).
    destruct source_first; cbn [mbind result_bind fst snd]; rewrite !hashed_spec;
      (destruct (decide (Forall materialized rows)) as [H1|]; [|done]); cbn [mbind result_bind];
      (destruct (decide (Forall materialized rows')) as [H2|]; [|done]);
      rewrite Forall_forall in H1, H2; destruct Hrow as [Hr|Hr]; first [by apply H1 in Hr|by apply H2 in Hr].
  - intros e He r H. unfold compare_chunk in H. apply bind_Ok in H as ([x y] & H & _).
    unfold try_join in H.
    destruct source_first; apply bind_Ok in H as (? & ? & H); apply bind_Ok in H as (? & ? & _);
      destruct He; congruence.
Qed.

(** ** Witness *)

Lemma chunks_match_exactly_when_equal_witness :
  let row := mkCanonicalRow [bytes_of_string "a"] [Text (bytes_of_string "bc")] in
  let row' := mkCanonicalRow [bytes_of_string "ab"] [Text (bytes_of_string "c")] in
  exists r, compare_chunk (fun b => b) true (fun _ => Ok [row]) (fun _ => Ok [row']) None = Ok r /\
    exists d d', r = Mismatch d d'.
Proof.
  intros row row'.
  destruct (chunks_match_exactly_when_equal (fun b => b) true (fun _ => Ok [row]) (fun _ => Ok [row']) None) as (H & _ & _).
  assert (Hs : Forall sized_row [row]).
  { constructor; [|done]. repeat split; try done; repeat constructor; done. }
  assert (Hs' : Forall sized_row [row']).
  { constructor; [|done]. repeat split; try done; repeat constructor; done. }
  destruct (H [row] [row'] eq_refl eq_refl Hs Hs') as (r & Hr & [(_ & [Hc|(a & b & Hab & Hh)])|((d & d' & Hd & _) & _)]).
  - by vm_compute in Hc.
  - by destruct Hab.
  - exists r. split; [exact Hr|]. by exists d, d'.
Defined.
