(* ===== verification/Config.v ===== *)
(** * The bootstrap configuration

    Models [crates/config/src/bootstrap.rs].  Parsing TOML into the structure is the library's:
    [toml_from_str] is a parameter; the checks, the defaults of a missing section and the
    reading of secrets from the environment are here. *)

From S2P Require Import Prelude Core Settings Catalog.

Inductive ConfigError : Type :=
| ConfigRead (path message : string)
| ConfigParse (message : string)
| ConfigInvalid (message : string)
| MissingEnvironment (name : string).

(** The listening address stays text. *)
Record ServerConfig : Type := mkServerConfig {
  sc_listen : string;
  sc_secure_cookies : bool;
  sc_session_ttl_seconds : Z;
}.
Definition ServerConfig_default : ServerConfig := mkServerConfig "127.0.0.1:8080" true (8 * 60 * 60).

Record EngineConfig : Type := mkEngineConfig {
  ec_reconcile_interval_seconds : Z;
  ec_lease_ttl_seconds : Z;
  ec_lease_renew_interval_seconds : Z;
  ec_restart_backoff_initial_seconds : Z;
  ec_restart_backoff_max_seconds : Z;
  ec_restart_backoff_reset_seconds : Z;
}.
Definition EngineConfig_default : EngineConfig := mkEngineConfig 2 30 10 1 60 300.

Record AdminConfig : Type := mkAdminConfig {
  ad_username : string;
  ad_password_hash : string;
}.

Record BootstrapConfig : Type := mkBootstrapConfig {
  bc_server : ServerConfig;
  bc_engine : EngineConfig;
  bc_admin : AdminConfig;
  bc_database_url_env : string;  (** [control] *)
  bc_master_key_env : string;  (** [security] *)
}.

Definition config_invalid {A} (message : string) : result ConfigError A := Err (ConfigInvalid message).

Definition ServerConfig_validate (self : ServerConfig) : result ConfigError unit :=
  if (sc_session_ttl_seconds self =? 0)%Z then config_invalid "server.session_ttl_seconds must be greater than zero"
  else Ok tt.

Definition EngineConfig_validate (self : EngineConfig) : result ConfigError unit :=
  if (ec_reconcile_interval_seconds self =? 0)%Z
  then config_invalid "engine.reconcile_interval_seconds must be greater than zero"
  else if (ec_lease_ttl_seconds self =? 0)%Z then config_invalid "engine.lease_ttl_seconds must be greater than zero"
  else if (ec_lease_renew_interval_seconds self =? 0)%Z
          || (Z.div (ec_lease_ttl_seconds self) 3 <? ec_lease_renew_interval_seconds self)%Z
  then config_invalid "engine.lease_renew_interval_seconds must be greater than zero and no more than one third of engine.lease_ttl_seconds"
  else if (ec_restart_backoff_initial_seconds self =? 0)%Z
          || (ec_restart_backoff_max_seconds self <? ec_restart_backoff_initial_seconds self)%Z
  then config_invalid "engine restart backoff must be positive and initial must not exceed maximum"
  else if (ec_restart_backoff_reset_seconds self =? 0)%Z
  then config_invalid "engine.restart_backoff_reset_seconds must be greater than zero"
  else Ok tt.

Definition is_environment_char (c : ascii) : bool :=
  let n := N_of_ascii c in
  ((65 <=? n)%N && (n <=? 90)%N) || ((48 <=? n)%N && (n <=? 57)%N) || bool_decide (c = "_"%char).

Definition validate_environment_name (name : string) : result ConfigError unit :=
  if negb (Lsn.is_empty name) && Lsn.str_all is_environment_char name then Ok tt
  else config_invalid ("invalid environment variable name `" +:+ name +:+ "`").

Definition BootstrapConfig_validate (self : BootstrapConfig) : result ConfigError unit :=
  if Lsn.is_empty (trim (ad_username (bc_admin self))) then config_invalid "admin.username is empty"
  else if negb (String.prefix "$argon2id$" (ad_password_hash (bc_admin self)))
  then config_invalid "admin.password_hash must be an Argon2id PHC string"
  else
    let? _ := validate_environment_name (bc_database_url_env self) in
    let? _ := validate_environment_name (bc_master_key_env self) in
    let? _ := ServerConfig_validate (bc_server self) in
    EngineConfig_validate (bc_engine self).

Section environment.
(** The TOML library, the file system and the environment of the process. *)
Context (toml_from_str : string -> result string BootstrapConfig).
Context (read_to_string : string -> result string string) (var : string -> option string).

Definition from_toml (contents : string) : result ConfigError BootstrapConfig :=
  let? config := map_err ConfigParse (toml_from_str contents) in
  let? _ := BootstrapConfig_validate config in
  Ok config.

Definition from_path (path : string) : result ConfigError BootstrapConfig :=
  let? contents := map_err (ConfigRead path) (read_to_string path) in
  from_toml contents.

Definition secret_from_environment (name : string) : result ConfigError string :=
  ok_or (var name) (MissingEnvironment name).

Definition control_database_url (self : BootstrapConfig) : result ConfigError string :=
  secret_from_environment (bc_database_url_env self).
Definition master_key (self : BootstrapConfig) : result ConfigError string :=
  secret_from_environment (bc_master_key_env self).
End environment.

(** ** Lemmas *)

(** What the engine section of an accepted configuration satisfies. *)
Record engine_operational (self : EngineConfig) : Prop := {
  eo_poll : ec_reconcile_interval_seconds self <> 0%Z;
  eo_ttl : ec_lease_ttl_seconds self <> 0%Z;
  eo_renew : ec_lease_renew_interval_seconds self <> 0%Z;
  eo_margin : (ec_lease_renew_interval_seconds self <= ec_lease_ttl_seconds self / 3)%Z;
  eo_initial : ec_restart_backoff_initial_seconds self <> 0%Z;
  eo_max : (ec_restart_backoff_initial_seconds self <= ec_restart_backoff_max_seconds self)%Z;
  eo_reset : ec_restart_backoff_reset_seconds self <> 0%Z;
}.

Lemma EngineConfig_validate_Ok self : EngineConfig_validate self = Ok tt <-> engine_operational self.
Proof.
  unfold EngineConfig_validate, config_invalid. split.
  - intros H. repeat (match type of H with context [if ?c then _ else _] => destruct c eqn:?; [done|] end).
    repeat match goal with E : (_ || _) = false |- _ => apply orb_false_iff in E as [? ?] end.
    constructor; lia.
  - intros [? ? ? ? ? ? ?]. repeat (match goal with |- context [if ?c then _ else _] =>
      let E := fresh in destruct c eqn:E; [exfalso; try apply orb_true_iff in E as [E|E]; lia|] end). done.
Qed.

Lemma BootstrapConfig_validate_Ok self :
  BootstrapConfig_validate self = Ok tt <->
  Lsn.is_empty (trim (ad_username (bc_admin self))) = false /\
  String.prefix "$argon2id$" (ad_password_hash (bc_admin self)) = true /\
  validate_environment_name (bc_database_url_env self) = Ok tt /\
  validate_environment_name (bc_master_key_env self) = Ok tt /\
  sc_session_ttl_seconds (bc_server self) <> 0%Z /\ EngineConfig_validate (bc_engine self) = Ok tt.
Proof.
  unfold BootstrapConfig_validate, ServerConfig_validate, config_invalid. split.
  - intros H. destruct (Lsn.is_empty _) eqn:E1; [done|]. destruct (String.prefix _ _) eqn:E2; [|done]. cbn [negb] in H.
    apply bind_Ok in H as ([] & ? & H). apply bind_Ok in H as ([] & ? & H). apply bind_Ok in H as (? & Hs & H).
    destruct (Z.eqb_spec (sc_session_ttl_seconds (bc_server self)) 0); [done|]. by split_and!.
  - intros (-> & -> & -> & -> & Hs & He). cbn. by rewrite (proj2 (Z.eqb_neq _ _) Hs).
Qed.
