(* ===== verification/App.v ===== *)
(** * The service

    Models [crates/app/src/main.rs]: the commands, the start of the service from the bootstrap
    configuration, the supervision of its two tasks, and the connection tests behind the
    control API.  Files, the environment, connections, pools and the listening socket are the
    answers [Startup] holds; base64 and Argon2 are parameters. *)

From S2P Require Import Prelude Effects Core Settings Catalog Citus Store Supervisor Reconciler Setup Auth Api Config.

(** ** Errors *)

(** An [anyhow] error with its context. *)
Inductive AppError : Type :=
| LoadFailed (path : string) (error : ConfigError)
| NoSecret (error : ConfigError)
| InvalidMasterKey (error : CryptoError)
| ConnectionFailed (message : string)
| QueryFailed (message : string)
| MigrationFailed (error : MigrationError)
| Bail (message : string)
| BindFailed (listen message : string)
| InvalidEngine (error : ReconcilerConfigError)
| HashFailed (message : string)
| ServerFailed (message : string)
| ReconcilerTerminated (message : string).

(** ** Start *)

(** What the process meets while it starts. *)
Record Startup : Type := mkStartup {
  su_read : string -> result string string;
  su_var : string -> option string;
  su_connect : string -> result string unit;
  su_has_migrations : result string bool;  (** [to_regclass(..) IS NOT NULL] *)
  su_migrations : result string (gmap Z MigrationRow);
  su_pool : string -> string -> Z -> result string unit;
  su_bind : string -> result string unit;
}.

(** What [serve] runs: the state of the API's sessions, the reconciler's configuration, the
    key, the supervisor both share, and the permits of the two gates. *)
Record Service : Type := mkService {
  sx_listen : string;
  sx_auth : AuthInner;
  sx_reconciler : ReconcilerConfig;
  sx_master_key : MasterKey;
  sx_supervisor : PipelineSupervisor;
  sx_metrics_permits : Z;
  sx_connection_test_permits : Z;
}.

(** The literal of [serve], with [Duration::from_secs]. *)
Definition reconciler_config (engine : EngineConfig) : ReconcilerConfig :=
  mkReconcilerConfig (seconds (ec_reconcile_interval_seconds engine)) (seconds (ec_lease_ttl_seconds engine))
    (seconds (ec_lease_renew_interval_seconds engine)) (seconds (ec_restart_backoff_initial_seconds engine))
    (seconds (ec_restart_backoff_max_seconds engine)) (seconds (ec_restart_backoff_reset_seconds engine)).

Definition auth_state (config : BootstrapConfig) : AuthInner :=
  AuthState_new (ad_username (bc_admin config)) (ad_password_hash (bc_admin config))
    (sc_secure_cookies (bc_server config)) (seconds (sc_session_ttl_seconds (bc_server config))).

Definition latest_version (migrations : gmap Z MigrationRow) : Z :=
  foldr (fun kv => Z.max kv.1) 0%Z (map_to_list migrations).

Definition ensure_control_database_migrated (s : Startup) : result AppError unit :=
  let? present := map_err QueryFailed (su_has_migrations s) in
  if negb present then Err (Bail "control database is not migrated; run `etl-server-cloudberry migrate`")
  else
    let? migrations := map_err QueryFailed (su_migrations s) in
    let version := latest_version migrations in
    if negb (version =? CONTROL_SCHEMA_VERSION)%Z
    then Err (Bail ("unsupported control database migration version " +:+ pretty version +:+ "; expected "
                    +:+ pretty CONTROL_SCHEMA_VERSION))
    else Ok tt.

(** The part of the driver's configuration that [configure_control_session] changes. *)
Record SessionConfig : Type := mkSessionConfig {
  sg_options : option string;
  sg_application_name : option string;
}.

Definition CONTROL_SESSION_OPTIONS : string :=
  "-c statement_timeout=5000 -c lock_timeout=2000 -c idle_in_transaction_session_timeout=5000".

Definition configure_control_session (config : SessionConfig) : SessionConfig :=
  let options := default EmptyString (sg_options config) in
  let options := if Lsn.is_empty options then options else options +:+ " " in
  mkSessionConfig (Some (options +:+ CONTROL_SESSION_OPTIONS))
    (Some (default "pg2cb-control" (sg_application_name config))).

(** The configuration of a pool's sessions in [build_control_pool], from the parsed one. *)
Definition pool_session (parsed : SessionConfig) (application_name : string) : SessionConfig :=
  configure_control_session (mkSessionConfig (sg_options parsed) (Some application_name)).

Section app.
Context (toml_from_str : string -> result string BootstrapConfig) (decode : string -> string + bytes).
Context (hash : string -> result string string).
Context (sha256 : bytes -> bytes) (script : Migration -> ControlDb -> result string ControlDb).

Definition load_config (s : Startup) (path : string) : result AppError BootstrapConfig :=
  map_err (LoadFailed path) (from_path toml_from_str (su_read s) path).

Definition check_config (s : Startup) (path : string) : result AppError unit :=
  let? config := load_config s path in
  let? _ := map_err NoSecret (control_database_url (su_var s) config) in
  let? key := map_err NoSecret (Config.master_key (su_var s) config) in
  let? _ := map_err InvalidMasterKey (from_base64 decode key) in
  Ok tt.

(** The text that is printed. *)
Definition hash_password (password : string) : result AppError string :=
  if (slen password <? 12)%Z then Err (Bail "administrator password must contain at least 12 characters")
  else map_err HashFailed (hash password).

Definition migrate (s : Startup) (migrations : list Migration) (path : string) (db : ControlDb)
    : result AppError unit * ControlDb :=
  match
    (let? config := load_config s path in
     let? dsn := map_err NoSecret (control_database_url (su_var s) config) in
     map_err ConnectionFailed (su_connect s dsn))
  with
  | Ok _ =>
      let (r, db) := migrate_control_database sha256 script migrations db in
      (map_err MigrationFailed r, db)
  | Err e => (Err e, db)
  | Panic => (Panic, db)
  end.

(** [serve] up to the point where both tasks run. *)
Definition start_service (s : Startup) (path : string) : result AppError Service :=
  let? config := load_config s path in
  let? control_dsn := map_err NoSecret (control_database_url (su_var s) config) in
  let? _ := map_err ConnectionFailed (su_connect s control_dsn) in
  let? _ := ensure_control_database_migrated s in
  let? _ := map_err ConnectionFailed (su_pool s control_dsn "pg2cb-control" 8) in
  let? _ := map_err ConnectionFailed (su_pool s control_dsn "pg2cb-control-lease" 4) in
  let? key := map_err NoSecret (Config.master_key (su_var s) config) in
  let? key := map_err InvalidMasterKey (from_base64 decode key) in
  let auth := auth_state config in
  let listen := sc_listen (bc_server config) in
  let? _ := map_err (BindFailed listen) (su_bind s listen) in
  let reconciler := reconciler_config (bc_engine config) in
  let? _ := map_err InvalidEngine (ReconcilerConfig_validate reconciler) in
  Ok (mkService listen auth reconciler key PipelineSupervisor_new 1 4).
End app.

(** The migrations of [crates/metadata/src/migration.rs]; their scripts are arguments. *)
Definition MIGRATIONS (control_v1 control_v2 : string) : list Migration :=
  [mkMigration 1 "initial_control_schema" control_v1; mkMigration 2 "pipeline_snapshot_generation" control_v2].

(** ** Supervision of the two tasks *)

(** What [supervise_service] can observe: the token cancelled by the signal, and the end of the
    server or of the reconciler's task, [Err] for a task that panicked. *)
Inductive service_event : Type :=
| ShutdownSignal
| ServerEnds (r : result string unit)
| ReconcilerEnds (r : result string unit).

(** Where the function is: in the [select!], or awaiting the other of the two. *)
Inductive service_phase : Type :=
| Selecting
| AwaitingReconciler (server_result : result string unit) (shutdown_requested : bool)
| AwaitingServer (reconciler_result : result string unit) (shutdown_requested : bool)
| Finished (r : result AppError unit).

Record ServiceState : Type := mkServiceState {
  ss_phase : service_phase;
  ss_cancelled : bool;
}.
Definition service_start : ServiceState := mkServiceState Selecting false.

(** After the first branch. *)
Definition end_of_server (server_result reconciler_result : result string unit) (shutdown_requested : bool)
    : result AppError unit :=
  let? _ := map_err ReconcilerTerminated reconciler_result in
  let? _ := map_err ServerFailed server_result in
  if shutdown_requested then Ok tt else Err (Bail "management server exited unexpectedly").

(** After the second branch. *)
Definition end_of_reconciler (server_result reconciler_result : result string unit) (shutdown_requested : bool)
    : result AppError unit :=
  match reconciler_result with
  | Ok _ => if shutdown_requested then map_err ServerFailed server_result
            else Err (Bail "pipeline reconciler exited unexpectedly")
  | Err error => Err (ReconcilerTerminated error)
  | Panic => Panic
  end.

Definition supervise_service (s : ServiceState) (e : service_event) : ServiceState :=
  match e, ss_phase s with
  | ShutdownSignal, phase => mkServiceState phase true
  | ServerEnds r, Selecting => mkServiceState (AwaitingReconciler r (ss_cancelled s)) true
  | ReconcilerEnds r, Selecting => mkServiceState (AwaitingServer r (ss_cancelled s)) true
  | ReconcilerEnds r, AwaitingReconciler server_result requested =>
      mkServiceState (Finished (end_of_server server_result r requested)) (ss_cancelled s)
  | ServerEnds r, AwaitingServer reconciler_result requested =>
      mkServiceState (Finished (end_of_reconciler r reconciler_result requested)) (ss_cancelled s)
  | _, _ => s
  end.

Definition service_run (events : list service_event) : ServiceState := foldl supervise_service service_start events.

(** ** Connection tests *)

Definition sanitize_connection_error (error : string) : string :=
  "connection failed; verify address, credentials, TLS, and server settings".

(** The row of the source's query. *)
Record SourceProbe : Type := mkSourceProbe {
  pb_version_num : string;
  pb_encoding : string;
  pb_wal_level : string;
  pb_citus_version : string;
}.

Definition probe_source (connected : result string unit) (row : result string SourceProbe)
    : result string ConnectionReport :=
  let? _ := map_err sanitize_connection_error connected in
  let? row := map_err sanitize_connection_error row in
  if negb (String.prefix "18" (pb_version_num row))
  then Err ("source must be PostgreSQL 18; server reported " +:+ pb_version_num row)
  else if negb (bool_decide (pb_encoding row = "UTF8"))
  then Err ("source database encoding must be UTF8; server reported " +:+ pb_encoding row)
  else if negb (bool_decide (pb_wal_level row = "logical"))
  then Err ("source wal_level must be logical; server reported " +:+ pb_wal_level row)
  else
    let citus := pb_citus_version row in
    let topology := if Lsn.is_empty citus then "postgresql" else "citus" in
    let warnings :=
      if bool_decide (topology = "citus") && negb (String.prefix "14.1" citus)
      then ["Citus " +:+ citus +:+ " is not the validated 14.1 release"] else [] in
    Ok (mkConnectionReport
          (if Lsn.is_empty citus then pb_version_num row
           else "PostgreSQL " +:+ pb_version_num row +:+ " / Citus " +:+ citus)
          topology warnings).

(** The row of the target's query. *)
Record TargetProbe : Type := mkTargetProbe {
  pb_version : string;
  pb_target_version_num : string;
  pb_gp_role : option string;
}.

(** [str::contains]. *)
Definition contains_text (pat s : string) : bool := bool_decide (is_Some (after_first pat s)).

Definition probe_target (connected : result string unit) (row : result string TargetProbe)
    : result string ConnectionReport :=
  let? _ := map_err sanitize_connection_error connected in
  let? row := map_err sanitize_connection_error row in
  if bool_decide (pb_gp_role row = None) && negb (contains_text "cloudberry" (to_ascii_lowercase (pb_version row)))
  then Err "target is PostgreSQL but does not identify as Cloudberry"
  else Ok (mkConnectionReport (pb_target_version_num row +:+ " (" +:+ pb_version row +:+ ")") "cloudberry" []).

(** ** Lemmas *)

(** The configuration's check and the reconciler's own agree: whole seconds and nanoseconds
    round the third of the lease alike. *)
Lemma engine_checks_agree engine :
  EngineConfig_validate engine = Ok tt <-> ReconcilerConfig_validate (reconciler_config engine) = Ok tt.
Proof.
  assert (Hthird : forall t r, ((t * 1000000000) / 3 <? r * 1000000000)%Z = (t / 3 <? r)%Z).
  { intros t r. pose proof (Z.div_mod t 3 ltac:(lia)). pose proof (Z.mod_pos_bound t 3 ltac:(lia)).
    pose proof (Z.div_mod (t * 1000000000) 3 ltac:(lia)). pose proof (Z.mod_pos_bound (t * 1000000000) 3 ltac:(lia)).
    destruct (Z.ltb_spec ((t * 1000000000) / 3) (r * 1000000000)), (Z.ltb_spec (t / 3) r); [done|lia..|done]. }
  assert (Hzero : forall n, (n * 1000000000 =? 0)%Z = (n =? 0)%Z).
  { intros n. destruct (Z.eqb_spec n 0), (Z.eqb_spec (n * 1000000000) 0); [done|lia..|done]. }
  assert (Hlt : forall m n, (m * 1000000000 <? n * 1000000000)%Z = (m <? n)%Z).
  { intros m n. destruct (Z.ltb_spec m n), (Z.ltb_spec (m * 1000000000) (n * 1000000000)); [done|lia..|done]. }
  destruct engine as [p t r i m z]. unfold EngineConfig_validate, ReconcilerConfig_validate, reconciler_config, config_invalid.
  cbn [poll_interval lease_ttl lease_renew_interval restart_backoff_initial restart_backoff_max restart_backoff_reset_after
       ec_reconcile_interval_seconds ec_lease_ttl_seconds ec_lease_renew_interval_seconds
       ec_restart_backoff_initial_seconds ec_restart_backoff_max_seconds ec_restart_backoff_reset_seconds].
  rewrite Hthird, !Hzero, Hlt.
  destruct (p =? 0)%Z, (t =? 0)%Z, (r =? 0)%Z, (t / 3 <? r)%Z, (i =? 0)%Z, (m <? i)%Z, (z =? 0)%Z; done.
Qed.

Lemma from_path_valid parse read path config :
  from_path parse read path = Ok config -> BootstrapConfig_validate config = Ok tt.
Proof.
  unfold from_path, from_toml. intros H. apply bind_Ok in H as (contents & _ & H).
  apply bind_Ok in H as (c & _ & H). apply bind_Ok in H as ([] & Hv & H). by injection H as <-.
Qed.

Lemma ReconcilerConfig_validate_no_panic self : ReconcilerConfig_validate self <> Panic.
Proof. unfold ReconcilerConfig_validate. by repeat case_match. Qed.

Lemma latest_version_ge migrations v row : migrations !! v = Some row -> (v <= latest_version migrations)%Z.
Proof.
  intros H%elem_of_map_to_list. unfold latest_version. induction (map_to_list migrations) as [|kv l IH].
  - by apply elem_of_nil in H.
  - apply elem_of_cons in H as [<-|H]; cbn; [lia|]. specialize (IH H). lia.
Qed.

Lemma latest_version_found migrations :
  latest_version migrations = 0%Z \/ exists row, migrations !! latest_version migrations = Some row.
Proof.
  unfold latest_version. assert (H : forall kv, kv ∈ map_to_list migrations -> migrations !! kv.1 = Some kv.2).
  { intros [k v]. apply elem_of_map_to_list. }
  induction (map_to_list migrations) as [|kv l IH]; [by left|]. cbn.
  destruct IH as [IH|[row IH]]; [intros kv' ?; apply H; by right| |].
  - rewrite IH. destruct (Z.max_spec kv.1 0) as [[_ ->]|[_ ->]]; [by left|]. right. exists kv.2. apply H. by left.
  - destruct (Z.max_spec kv.1 (foldr (fun kv => Z.max kv.1) 0%Z l)) as [[_ ->]|[_ ->]]; right; [by eexists|].
    exists kv.2. apply H. by left.
Qed.

(** The limits come after whatever options the connection string has, so that the server, which
    lets the last setting of an option win, applies them; both pools keep their names. *)
Lemma pool_session_limits parsed name :
  exists front, sg_options (pool_session parsed name) = Some (front +:+ CONTROL_SESSION_OPTIONS) /\
    (forall options, sg_options parsed = Some options -> exists rest, front = options +:+ rest) /\
    sg_application_name (pool_session parsed name) = Some name.
Proof.
  unfold pool_session, configure_control_session. cbn [sg_options sg_application_name default].
  eexists. split; [reflexivity|]. split; [|done]. intros options ->. cbn [default].
  destruct options as [|c options]; [by exists EmptyString|]. by exists " ".
Qed.

(** ** Supervision *)

(** The first of the two to end, and whether the signal came before it. *)
Definition began (events : list service_event) (first : service_event) (requested : bool) : Prop :=
  exists before after, events = before ++ first :: after /\ Forall (fun e => e = ShutdownSignal) before /\
    (requested = true <-> ShutdownSignal ∈ before).

(** What the function knows after a history of observations. *)
Definition tracked (events : list service_event) (s : ServiceState) : Prop :=
  match ss_phase s with
  | Selecting => Forall (fun e => e = ShutdownSignal) events /\ (ss_cancelled s = true <-> ShutdownSignal ∈ events)
  | AwaitingReconciler r requested =>
      ss_cancelled s = true /\ began events (ServerEnds r) requested /\ forall r, ReconcilerEnds r ∉ events
  | AwaitingServer r requested =>
      ss_cancelled s = true /\ began events (ReconcilerEnds r) requested /\ forall r, ServerEnds r ∉ events
  | Finished r =>
      ss_cancelled s = true /\ exists server reconciler first requested,
        ServerEnds server ∈ events /\ ReconcilerEnds reconciler ∈ events /\ began events first requested /\
        (first = ServerEnds server \/ first = ReconcilerEnds reconciler) /\
        (r = Ok tt <-> server = Ok tt /\ reconciler = Ok tt /\ requested = true)
  end.

Lemma began_snoc events first requested e : began events first requested -> began (events ++ [e]) first requested.
Proof. intros (before & after & -> & H). exists before, (after ++ [e]). by rewrite <-app_assoc. Qed.

Lemma began_now events first cancelled :
  Forall (fun e => e = ShutdownSignal) events -> (cancelled = true <-> ShutdownSignal ∈ events) ->
  began (events ++ [first]) first cancelled.
Proof. intros. by exists events, []. Qed.

Lemma began_in events first requested : began events first requested -> first ∈ events.
Proof. intros (before & after & -> & _). apply elem_of_app. right. by left. Qed.

Lemma only_signals events e : Forall (fun e => e = ShutdownSignal) events -> e <> ShutdownSignal -> e ∉ events.
Proof. rewrite Forall_forall. intros H Hne Hin. by apply Hne, H. Qed.

Lemma end_of_server_Ok server reconciler requested :
  end_of_server server reconciler requested = Ok tt <-> server = Ok tt /\ reconciler = Ok tt /\ requested = true.
Proof. destruct server as [[]| |], reconciler as [[]| |], requested; cbn; intuition congruence. Qed.

Lemma end_of_reconciler_Ok server reconciler requested :
  end_of_reconciler server reconciler requested = Ok tt <-> server = Ok tt /\ reconciler = Ok tt /\ requested = true.
Proof. destruct server as [[]| |], reconciler as [[]| |], requested; cbn; intuition congruence. Qed.

Lemma tracked_step events s e : tracked events s -> tracked (events ++ [e]) (supervise_service s e).
Proof.
  destruct s as [phase cancelled]. unfold tracked at 1. cbn [ss_phase ss_cancelled].
  destruct phase as [|server requested|reconciler requested|r].
  - intros [Hs Hc]. destruct e as [|r|r]; unfold tracked; cbn.
    + rewrite Forall_app, Forall_singleton, elem_of_app, list_elem_of_singleton. tauto.
    + split_and!; [done|by apply began_now|]. intros r' [H|H%list_elem_of_singleton]%elem_of_app; [|done].
      by eapply only_signals in H.
    + split_and!; [done|by apply began_now|]. intros r' [H|H%list_elem_of_singleton]%elem_of_app; [|done].
      by eapply only_signals in H.
  - intros (-> & Hb & Hn). destruct e as [|r|r]; unfold tracked; cbn.
    1,2: split_and!; [done|by apply began_snoc|];
      intros r' [H|H%list_elem_of_singleton]%elem_of_app; [by eapply Hn|done].
    split; [done|]. exists server, r, (ServerEnds server), requested. split_and!.
    + apply elem_of_app. left. by eapply began_in.
    + apply elem_of_app. right. by left.
    + by apply began_snoc.
    + by left.
    + apply end_of_server_Ok.
  - intros (-> & Hb & Hn). destruct e as [|r|r]; unfold tracked; cbn.
    1,3: split_and!; [done|by apply began_snoc|];
      intros r' [H|H%list_elem_of_singleton]%elem_of_app; [by eapply Hn|done].
    split; [done|]. exists r, reconciler, (ReconcilerEnds reconciler), requested. split_and!.
    + apply elem_of_app. right. by left.
    + apply elem_of_app. left. by eapply began_in.
    + by apply began_snoc.
    + by right.
    + apply end_of_reconciler_Ok.
  - intros (-> & server & reconciler & first & requested & H1 & H2 & H3 & H4).
    assert (Hs : supervise_service (mkServiceState (Finished r) true) e = mkServiceState (Finished r) true) by (by destruct e).
    rewrite Hs. unfold tracked. cbn. split; [done|]. exists server, reconciler, first, requested.
    split_and!; [apply elem_of_app; by left|apply elem_of_app; by left|by apply began_snoc|apply H4..].
Qed.

Lemma service_tracked events : tracked events (service_run events).
Proof.
  induction events as [|e events IH] using rev_ind.
  - unfold tracked. cbn. split; [done|]. split; [done|]. by intros ?%elem_of_nil.
  - unfold service_run. rewrite foldl_app. by apply tracked_step.
Qed.

(** ** Start *)

Section start.
Context (parse : string -> result string BootstrapConfig) (decode : string -> string + bytes) (s : Startup) (path : string).

Lemma loaded_engine config :
  load_config parse s path = Ok config ->
  EngineConfig_validate (bc_engine config) = Ok tt /\
  ReconcilerConfig_validate (reconciler_config (bc_engine config)) = Ok tt.
Proof.
  clear decode. intros H. apply map_err_Ok, from_path_valid, BootstrapConfig_validate_Ok in H.
  rewrite <-engine_checks_agree. tauto.
Qed.

(** What the surroundings of the process have to answer for the service to start. *)
Definition reachable (config : BootstrapConfig) (url : string) : Prop :=
  su_connect s url = Ok tt /\ ensure_control_database_migrated s = Ok tt /\
  su_pool s url "pg2cb-control" 8 = Ok tt /\ su_pool s url "pg2cb-control-lease" 4 = Ok tt /\
  su_bind s (sc_listen (bc_server config)) = Ok tt.

Lemma check_config_Ok :
  check_config parse decode s path = Ok tt <-> exists config url text key,
    load_config parse s path = Ok config /\ control_database_url (su_var s) config = Ok url /\
    Config.master_key (su_var s) config = Ok text /\ from_base64 decode text = Ok key.
Proof.
  unfold check_config. split.
  - intros H. apply bind_Ok in H as (config & Hl & H). apply bind_Ok in H as (url & Hu%map_err_Ok & H).
    apply bind_Ok in H as (text & Ht%map_err_Ok & H). apply bind_Ok in H as (key & Hk%map_err_Ok & _).
    by exists config, url, text, key.
  - intros (config & url & text & key & -> & H & H' & H''). cbn. rewrite H. cbn. rewrite H'. cbn. by rewrite H''.
Qed.

Lemma start_service_Ok service :
  start_service parse decode s path = Ok service <-> exists config url text key,
    load_config parse s path = Ok config /\ control_database_url (su_var s) config = Ok url /\
    Config.master_key (su_var s) config = Ok text /\ from_base64 decode text = Ok key /\ reachable config url /\
    service = mkService (sc_listen (bc_server config)) (auth_state config) (reconciler_config (bc_engine config)) key
                PipelineSupervisor_new 1 4.
Proof.
  unfold start_service, reachable. split.
  - intros H. apply bind_Ok in H as (config & Hl & H). apply bind_Ok in H as (url & Hu%map_err_Ok & H).
    apply bind_Ok in H as ([] & Hc%map_err_Ok & H). apply bind_Ok in H as ([] & Hm & H).
    apply bind_Ok in H as ([] & Hp%map_err_Ok & H). apply bind_Ok in H as ([] & Hp'%map_err_Ok & H).
    apply bind_Ok in H as (text & Ht%map_err_Ok & H). apply bind_Ok in H as (key & Hk%map_err_Ok & H).
    apply bind_Ok in H as ([] & Hb%map_err_Ok & H). apply bind_Ok in H as (? & _ & H). injection H as <-.
    exists config, url, text, key. by split_and!.
  - intros (config & url & text & key & Hl & Hu & Ht & Hk & (Hc & Hm & Hp & Hp' & Hb) & ->).
    rewrite Hl. cbn [mbind result_bind]. rewrite Hu. cbn [mbind result_bind map_err].
    rewrite Hc, Hm, Hp, Hp', Ht. cbn [mbind result_bind map_err]. rewrite Hk, Hb. cbn [mbind result_bind map_err].
    by rewrite (proj2 (loaded_engine _ Hl)).
Qed.

(** The engine section is the last thing that is checked, and it was checked before. *)
Lemma ensured_version_error e : ensure_control_database_migrated s <> Err (InvalidEngine e).
Proof.
  unfold ensure_control_database_migrated. destruct (su_has_migrations s) as [[]| |]; cbn; try done.
  destruct (su_migrations s); cbn; [|done..]. by destruct (negb _).
Qed.

Lemma engine_never_refused e : start_service parse decode s path <> Err (InvalidEngine e).
Proof.
  intros H. unfold start_service in H. apply bind_Err in H as [H|(config & Hl & H)].
  { unfold load_config in H. by destruct (from_path _ _ _). }
  repeat (apply bind_Err in H as [H|(? & _ & H)];
    [try (by apply ensured_version_error in H); try (match type of H with map_err ?f ?m = _ => by destruct m end)|]).
  2: done. by rewrite (proj2 (loaded_engine _ Hl)) in H.
Qed.
End start.

(** ** Properties *)

(** C16: The service ends as a whole: whatever the order in which the signal, the end of the server
    and the end of the reconciler are observed, [supervise_service] returns exactly when both
    have ended; as soon as one has, the token that stops the other is cancelled; and it returns
    success only when shutdown was requested before the first of them ended and neither failed. *)
Theorem service_ends_as_a_whole events :
  ((exists r, ss_phase (service_run events) = Finished r) <->
     (exists r, ServerEnds r ∈ events) /\ (exists r, ReconcilerEnds r ∈ events)) /\
  (forall r, ServerEnds r ∈ events \/ ReconcilerEnds r ∈ events -> ss_cancelled (service_run events) = true) /\
  (forall r, ss_phase (service_run events) = Finished r ->
     exists server reconciler first requested,
       ServerEnds server ∈ events /\ ReconcilerEnds reconciler ∈ events /\ began events first requested /\
       (first = ServerEnds server \/ first = ReconcilerEnds reconciler) /\
       (r = Ok tt <-> server = Ok tt /\ reconciler = Ok tt /\ requested = true)).
Proof.
  pose proof (service_tracked events) as H. unfold tracked in H.
  destruct (service_run events) as [phase cancelled]. cbn [ss_phase ss_cancelled] in *.
  split_and!.
  - split.
    + intros [r ->]. destruct H as (_ & server & reconciler & _ & _ & H1 & H2 & _). split; by eexists.
    + intros [[r1 H1] [r2 H2]]. destruct phase as [| | |r]; [exfalso..|by exists r].
      * destruct H as [H _]. by eapply only_signals in H1.
      * destruct H as (_ & _ & H). by eapply H.
      * destruct H as (_ & _ & H). by eapply H.
  - intros r Hr. destruct phase; [|by destruct H..]. exfalso.
    destruct H as [H _]. destruct Hr as [Hr|Hr]; by eapply only_signals in Hr.
  - intros r ->. apply H.
Qed.


(** A configuration that [check-config] accepts starts: the service starts exactly when its
    configuration and its secrets pass that check and its surroundings answer - the control
    database is reachable and at the expected version, both pools are built, the address is
    bound.  The reconciler never refuses the configuration, which gives it a lease of at least
    three renewal intervals, and the key has 32 bytes. *)
Theorem checked_configuration_starts parse decode s path :
  ((exists service, start_service parse decode s path = Ok service) <->
     check_config parse decode s path = Ok tt /\
     exists config url, load_config parse s path = Ok config /\ control_database_url (su_var s) config = Ok url /\
       reachable s config url) /\
  (forall e, start_service parse decode s path <> Err (InvalidEngine e)) /\
  (forall service, start_service parse decode s path = Ok service ->
     (3 * lease_renew_interval (sx_reconciler service) <= lease_ttl (sx_reconciler service))%Z /\
     ReconcilerConfig_validate (sx_reconciler service) = Ok tt /\
     len (mk_bytes (sx_master_key service)) = MASTER_KEY_BYTES).
Proof.
  split_and!.
  - rewrite check_config_Ok. split.
    + intros [service H]. apply start_service_Ok in H as (config & url & text & key & Hl & Hu & Ht & Hk & Hr & _).
      split; [by exists config, url, text, key|by exists config, url].
    + intros [(config & url & text & key & Hl & Hu & Ht & Hk) (config' & url' & Hl' & Hu' & Hr)].
      rewrite Hl in Hl'. injection Hl' as <-. rewrite Hu in Hu'. injection Hu' as <-.
      eexists. apply start_service_Ok. by exists config, url, text, key.
  - intros e. apply engine_never_refused.
  - intros service H. apply start_service_Ok in H as (config & url & text & key & Hl & _ & _ & Hk & _ & ->).
    destruct (loaded_engine parse s path config Hl) as [He Hv]. cbn [sx_reconciler sx_master_key]. split_and!; [|done|].
    + apply EngineConfig_validate_Ok in He as [_ _ _ Hm _ _ _]. unfold reconciler_config. cbn.
      pose proof (Z.mul_div_le (ec_lease_ttl_seconds (bc_engine config)) 3 ltac:(lia)). lia.
    + unfold from_base64 in Hk. destruct (decode text) as [|k]; [done|].
      destruct (Z.eqb_spec (len k) MASTER_KEY_BYTES) as [Hlen|]; [|done]. injection Hk as <-. exact Hlen.
Qed.

(** The configuration's check has no upper bounds: raising the lease's or the sessions' time to
    live of any accepted configuration keeps it accepted.  But beyond one day every request for
    a lease is refused, so no pipeline ever runs, and beyond what a clock holds every login
    panics. *)
Theorem accepted_durations_can_be_unusable config n :
  BootstrapConfig_validate config = Ok tt -> (ec_lease_ttl_seconds (bc_engine config) <= n)%Z ->
  (i64_max < n)%Z ->
  let engine := bc_engine config in
  let longer := mkBootstrapConfig
    (mkServerConfig (sc_listen (bc_server config)) (sc_secure_cookies (bc_server config)) n)
    (mkEngineConfig (ec_reconcile_interval_seconds engine) n (ec_lease_renew_interval_seconds engine)
       (ec_restart_backoff_initial_seconds engine) (ec_restart_backoff_max_seconds engine)
       (ec_restart_backoff_reset_seconds engine))
    (bc_admin config) (bc_database_url_env config) (bc_master_key_env config) in
  BootstrapConfig_validate longer = Ok tt /\
  ReconcilerConfig_validate (reconciler_config (bc_engine longer)) = Ok tt /\
  (forall interval issued checked written pipeline holder db,
     try_acquire_lease interval issued checked written pipeline holder
       (lease_ttl (reconciler_config (bc_engine longer))) db = (Err InvalidLeaseDuration, db)) /\
  (forall csrf started, (0 <= started)%Z -> new_session (E := ApiError) csrf started (auth_state longer) = Panic).
Proof.
  intros Hv Hn Hmax engine longer. apply BootstrapConfig_validate_Ok in Hv as (H1 & H2 & H3 & H4 & H5 & H6).
  unfold i64_max in Hmax.
  assert (He : EngineConfig_validate (bc_engine longer) = Ok tt).
  { apply EngineConfig_validate_Ok. apply EngineConfig_validate_Ok in H6 as [? ? ? Hm ? ? ?]. constructor; try done; cbn; [lia|].
    pose proof (Z.div_le_mono _ _ 3 ltac:(lia) Hn). unfold engine. lia. }
  split_and!.
  - apply BootstrapConfig_validate_Ok. split_and!; try done. cbn. lia.
  - by apply engine_checks_agree.
  - intros. unfold try_acquire_lease, duration_seconds. cbn [lease_ttl reconciler_config].
    change (ec_lease_ttl_seconds (bc_engine longer)) with n.
    destruct (Z.leb_spec (n * 1000000000) (86400 * 1000000000)); [lia|]. by rewrite andb_false_r.
  - intros csrf started Hs. unfold new_session, instant_add, instant_max, SECOND, i64_max. cbn [ai_session_ttl auth_state].
    change (ai_session_ttl (auth_state longer)) with (n * 1000000000)%Z.
    destruct (Z.leb_spec (started + n * 1000000000) ((2 ^ 63 - 1) * 1000000000 + (1000000000 - 1))); [lia|done].
Qed.

(** A control database that [migrate] reports as up to date is accepted by the service exactly
    when it held no later version before: on a database of a newer release [migrate] succeeds
    and the service refuses to start. *)
Theorem migrated_database_is_accepted parse sha256 script s s' v1 v2 path db db' :
  (forall m d d', script m d = Ok d' -> cd_migrations d' = cd_migrations d) ->
  (forall v row, cd_migrations db !! v = Some row -> 0 < v)%Z ->
  migrate parse sha256 script s (MIGRATIONS v1 v2) path db = (Ok tt, db') ->
  su_has_migrations s' = Ok true -> su_migrations s' = Ok (cd_migrations db') ->
  ensure_control_database_migrated s' = Ok tt <-> (forall v row, cd_migrations db !! v = Some row -> v <= 2)%Z.
Proof.
  intros Hscript Hpos H Hhas Hrows. unfold migrate in H. destruct (let? _ := _ in _); [|by injection H..].
  destruct (migrate_control_database _ _ _ _) as [r d] eqn:Em. injection H as Hr ->. apply map_err_Ok in Hr as ->.
  unfold MIGRATIONS in Em. cbn [migrate_control_database] in Em.
  assert (Hone : forall m d d', migrate_one sha256 script d m = Ok d' ->
    is_Some (cd_migrations d' !! mg_version m) /\
    (forall v, v <> mg_version m -> cd_migrations d' !! v = cd_migrations d !! v) /\
    (forall v, is_Some (cd_migrations d !! v) -> is_Some (cd_migrations d' !! v))).
  { intros m d d' Hm. unfold migrate_one in Hm. destruct (cd_migrations d !! mg_version m) as [row|] eqn:El.
    - case_bool_decide; [|done]. injection Hm as <-. by rewrite El.
    - apply bind_Ok in Hm as (d1 & Hs%map_err_Ok & Hm). apply Hscript in Hs. injection Hm as <-. cbn. rewrite Hs.
      split_and!; [by rewrite lookup_insert_eq| |]; intros v Hv; [by rewrite lookup_insert_ne|].
      destruct (decide (v = mg_version m)) as [->|]; [by rewrite lookup_insert_eq|by rewrite lookup_insert_ne]. }
  destruct (migrate_one sha256 script db _) as [d1| |] eqn:E1; [|done..].
  destruct (migrate_one sha256 script d1 _) as [d2| |] eqn:E2; [|done..]. injection Em as <-.
  apply Hone in E1 as (Hs1 & Ho1 & Hk1). apply Hone in E2 as (Hs2 & Ho2 & _). cbn [mg_version] in *.
  unfold ensure_control_database_migrated. rewrite Hhas, Hrows. cbn [map_err mbind result_bind negb].
  unfold CONTROL_SCHEMA_VERSION. destruct Hs2 as [row2 Hs2]. pose proof (latest_version_ge _ _ _ Hs2) as Hge.
  destruct (Z.eqb_spec (latest_version (cd_migrations d2)) 2) as [Heq|Hne]; cbn [negb]; (split; [|]); try done.
  - intros _ v row Hv. destruct (Z.le_gt_cases v 2); [done|].
    rewrite <-Heq. apply (latest_version_ge _ v row). rewrite Ho2, Ho1 by lia. done.
  - intros Hle. destruct (latest_version_found (cd_migrations d2)) as [H0|[row Hrow]]; [lia|].
    rewrite Ho2, Ho1 in Hrow by lia. specialize (Hle _ _ Hrow). lia.
Qed.

(** ** Witnesses *)

Definition example_config : BootstrapConfig :=
  mkBootstrapConfig ServerConfig_default EngineConfig_default (mkAdminConfig "admin" "$argon2id$v=19$m=19456,t=2,p=1$c2FsdA$aGFzaA")
    "ETL_CONTROL_DATABASE_URL" "ETL_MASTER_KEY".
Definition example_startup (migrations : gmap Z MigrationRow) : Startup :=
  mkStartup (fun _ => Ok "[admin]") (fun name => Some name) (fun _ => Ok tt) (Ok true) (Ok migrations)
    (fun _ _ _ => Ok tt) (fun _ => Ok tt).
Definition example_parse (_ : string) : result string BootstrapConfig := Ok example_config.
Definition example_decode (_ : string) : string + bytes := inr (replicate 32 x00).
Definition empty_control : ControlDb := mkControlDb ∅ ∅ ∅ ∅ ∅ ∅ ∅ [].

Lemma checked_configuration_starts_witness :
  exists service, start_service example_parse example_decode
    (example_startup {[2%Z := mkMigrationRow "pipeline_snapshot_generation" []]}) "etl.toml" = Ok service /\
    ReconcilerConfig_validate (sx_reconciler service) = Ok tt.
Proof.
  destruct (checked_configuration_starts example_parse example_decode
    (example_startup {[2%Z := mkMigrationRow "pipeline_snapshot_generation" []]}) "etl.toml") as ([_ Hs] & _ & Hok).
  destruct Hs as [service Hs].
  - split; [by vm_compute|]. exists example_config, "ETL_CONTROL_DATABASE_URL". unfold reachable. split_and!; by vm_compute.
  - exists service. split; [exact Hs|]. apply (Hok service Hs).
Defined.

Lemma service_ends_as_a_whole_witness :
  exists r, ss_phase (service_run [ShutdownSignal; ReconcilerEnds (Ok tt); ServerEnds (Ok tt)]) = Finished r /\ r = Ok tt.
Proof.
  destruct (proj2 (proj1 (service_ends_as_a_whole [ShutdownSignal; ReconcilerEnds (Ok tt); ServerEnds (Ok tt)]))) as [r Hr].
  - split; exists (Ok tt); repeat (try (by left); right).
  - exists r. split; [exact Hr|]. vm_compute in Hr. congruence.
Defined.

Lemma accepted_durations_can_be_unusable_witness :
  exists config, BootstrapConfig_validate config = Ok tt /\
    new_session (E := ApiError) "csrf" 0 (auth_state config) = Panic.
Proof.
  destruct (accepted_durations_can_be_unusable example_config u64_max) as (Hv & _ & _ & Hp).
  - by vm_compute.
  - by vm_compute.
  - by vm_compute.
  - eexists. split; [exact Hv|]. by apply Hp.
Defined.

Lemma migrated_database_is_accepted_witness :
  exists db, migrate example_parse id (fun _ d => Ok d) (example_startup ∅) (MIGRATIONS "v1" "v2") "etl.toml" empty_control
      = (Ok tt, db) /\
    ensure_control_database_migrated (example_startup (cd_migrations db)) = Ok tt.
Proof.
  destruct (migrate example_parse id (fun _ d => Ok d) (example_startup ∅) (MIGRATIONS "v1" "v2") "etl.toml" empty_control)
    as [r db] eqn:E. assert (r = Ok tt) as -> by (vm_compute in E; by injection E as <- _).
  exists db. split; [reflexivity|].
  apply (migrated_database_is_accepted example_parse id (fun _ d => Ok d) (example_startup ∅)
           (example_startup (cd_migrations db)) "v1" "v2" "etl.toml" empty_control db).
  - by intros ? ? ? [= <-].
  - intros v row H. exfalso. cbn in H. by apply lookup_empty_Some in H.
  - exact E.
  - reflexivity.
  - reflexivity.
  - intros v row H. exfalso. cbn in H. by apply lookup_empty_Some in H.
Defined.
