(* ===== verification/Deadline.v ===== *)
(** * The watcher of a lease's deadline

    Models [LeaseDeadlineGuard] and [watch_lease_deadline] of
    [crates/engine/src/runtime/reconciler.rs], whose outcome [Reconciler] takes as a choice: the
    watch channel between them, the task's polls, and the cancellation of the job.  The task
    decides to cancel and cancels in two steps, so that the guard can act in between. *)

From S2P Require Import Prelude Store Supervisor Reconciler.

(** Where the task is: before or in its [select!] with the instant it sleeps until, past the
    sleep but before [cancel], or returned. *)
Inductive watcher : Type :=
| Watching (stop_at : option Z)
| Cancelling
| Returned.

(** The guard, the channel and the task.  [wt_seen]: the receiver has seen the latest value. *)
Record Watch : Type := mkWatch {
  wt_deadline : Z;
  wt_seen : bool;
  wt_guarded : bool;  (** the guard, and with it the sender, exists *)
  wt_cancelled : bool;
  wt_task : watcher;
}.

(** [LeaseDeadlineGuard::new]: the task has not been polled yet. *)
Definition guard_new (request_started ttl safety_margin : Z) : Watch :=
  mkWatch (lease_stop_at request_started ttl safety_margin) true true false (Watching None).

Definition expired (now : Z) (self : Watch) : bool := guard_expired (wt_deadline self) now (wt_cancelled self).

(** [watch::Sender::send]: an error when the receiver is gone. *)
Definition send (stop_at : Z) (self : Watch) : bool * Watch :=
  match wt_task self with
  | Returned => (false, self)
  | task => (true, mkWatch stop_at false (wt_guarded self) (wt_cancelled self) task)
  end.

Definition guard_rearm (before request_started ttl safety_margin after : Z) (self : Watch) : bool * Watch :=
  if expired before self then (false, self)
  else
    let (sent, self) := send (lease_stop_at request_started ttl safety_margin) self in
    (sent && negb (expired after self), self).

(** [Drop for LeaseDeadlineGuard]. *)
Definition guard_drop (self : Watch) : Watch :=
  mkWatch (wt_deadline self) (wt_seen self) false true (wt_task self).

(** One poll of the task at [now]: the biased [select!] sees a change of the channel before
    the timer, and starts over with the new instant; a dropped sender ends the task. *)
Definition watcher_poll (now : Z) (self : Watch) : Watch :=
  match wt_task self with
  | Watching armed =>
      let stop_at := if wt_seen self then default (wt_deadline self) armed else wt_deadline self in
      let task :=
        if negb (wt_guarded self) then Returned
        else if (stop_at <=? now)%Z then Cancelling
        else Watching (Some stop_at) in
      mkWatch (wt_deadline self) true (wt_guarded self) (wt_cancelled self) task
  | _ => self
  end.

Definition watcher_cancel (self : Watch) : Watch :=
  match wt_task self with
  | Cancelling => mkWatch (wt_deadline self) (wt_seen self) (wt_guarded self) true Returned
  | _ => self
  end.

(** What can happen while a pipeline is owned. *)
Inductive watch_event : Type :=
| Rearmed (before request_started ttl safety_margin after : Z)
| Dropped
| Polled (now : Z)
| Cancels.

Definition watch_step (self : Watch) (e : watch_event) : Watch :=
  match e with
  | Rearmed before request_started ttl safety_margin after =>
      if wt_guarded self then (guard_rearm before request_started ttl safety_margin after self).2 else self
  | Dropped => guard_drop self
  | Polled now => watcher_poll now self
  | Cancels => watcher_cancel self
  end.

Definition watch_run (self : Watch) (events : list watch_event) : Watch := foldl watch_step self events.

(** ** Lemmas *)

(** What is known of every reachable state, with the polls that found the deadline passed. *)
Record watched (start : Watch) (events : list watch_event) (self : Watch) : Prop := {
  wd_armed : forall stop_at, wt_task self = Watching (Some stop_at) -> wt_seen self = true -> stop_at = wt_deadline self;
  wd_dropped : wt_guarded self = false -> wt_cancelled self = true;
  wd_returned : wt_task self = Returned -> wt_cancelled self = true;
  wd_early : wt_guarded self = true -> wt_cancelled self = true \/ wt_task self = Cancelling ->
    exists before now after, events = before ++ Polled now :: after /\ (wt_deadline (watch_run start before) <= now)%Z;
}.

Lemma watch_run_snoc self events e : watch_run self (events ++ [e]) = watch_step (watch_run self events) e.
Proof. unfold watch_run. by rewrite foldl_app. Qed.

Lemma early_snoc start events e :
  (exists before now after, events = before ++ Polled now :: after /\ (wt_deadline (watch_run start before) <= now)%Z) ->
  exists before now after, events ++ [e] = before ++ Polled now :: after /\ (wt_deadline (watch_run start before) <= now)%Z.
Proof. intros (b & n & a & -> & H). exists b, n, (a ++ [e]). by rewrite <-app_assoc. Qed.

(** An event that changes nothing keeps what is known. *)
Lemma watched_more start events self e : watched start events self -> watched start (events ++ [e]) self.
Proof. intros [Ha Hd Hr He]. split; try done. intros Hg Hc. by apply early_snoc, He. Qed.

(** The instant the timer of a poll is set to is the deadline in force. *)
Lemma sleeps_until_deadline start events self armed :
  watched start events self -> wt_task self = Watching armed ->
  (if wt_seen self then default (wt_deadline self) armed else wt_deadline self) = wt_deadline self.
Proof.
  intros [Ha _ _ _] Et. destruct (wt_seen self) eqn:Es; [|done]. destruct armed as [stop_at|]; [|done]. by apply Ha.
Qed.

Lemma watched_poll start events self now :
  self = watch_run start events -> watched start events self -> watched start (events ++ [Polled now]) (watcher_poll now self).
Proof.
  intros Hrun Hw. unfold watcher_poll. destruct (wt_task self) as [armed| |] eqn:Et; [|by apply watched_more..].
  rewrite (sleeps_until_deadline _ _ _ _ Hw Et). destruct Hw as [Ha Hd Hr He]. split; cbn.
  - intros stop_at. destruct (wt_guarded self); [|done]. cbn. destruct (_ <=? _)%Z; [done|]. by intros [= <-].
  - done.
  - destruct (wt_guarded self); [|by intros; apply Hd]. cbn. by destruct (_ <=? _)%Z.
  - intros Hg Hc. rewrite Hg in *. cbn in Hc. destruct (Z.leb_spec (wt_deadline self) now) as [Hle|Hlt].
    + exists events, now, []. split; [done|]. by rewrite <-Hrun.
    + destruct Hc as [Hc|Hc]; [|done]. apply early_snoc, He; [done|by left].
Qed.

Lemma watched_rearm start events self before request_started ttl safety_margin after e :
  wt_guarded self = true -> watched start events self ->
  watched start (events ++ [e]) (guard_rearm before request_started ttl safety_margin after self).2.
Proof.
  intros Hg Hw. unfold guard_rearm, send.
  destruct (expired before self); [by apply watched_more|].
  destruct (wt_task self) eqn:Et; [| |by apply watched_more]; destruct Hw as [Ha Hd Hr He]; rewrite Et in He.
  all: split; cbn; [done|congruence|done|]; intros _ Hc; apply early_snoc, He; [done|exact Hc].
Qed.

Lemma watched_step start events self e :
  self = watch_run start events -> watched start events self -> watched start (events ++ [e]) (watch_step self e).
Proof.
  intros Hrun Hw. destruct e as [b r t m a| |now|]; cbn [watch_step].
  - destruct (wt_guarded self) eqn:Hg; [by apply watched_rearm|by apply watched_more].
  - destruct Hw as [Ha Hd Hr He]. by split.
  - by apply watched_poll.
  - unfold watcher_cancel. destruct (wt_task self) eqn:Et; [by apply watched_more| |by apply watched_more].
    destruct Hw as [Ha Hd Hr He]. split; cbn; [done|done|done|]. intros Hg _. apply early_snoc, He; [done|by right].
Qed.

Lemma watch_run_watched request_started ttl safety_margin events :
  let start := guard_new request_started ttl safety_margin in watched start events (watch_run start events).
Proof.
  intros start. induction events as [|e events IH] using rev_ind.
  - split; cbn; [done|done|done|]. by intros _ [?|?].
  - rewrite watch_run_snoc. by apply watched_step.
Qed.

(** ** Properties *)

(** C23: The watcher stops the job in time, and not before.  Whatever is rearmed, dropped, polled
    and delayed: a poll of the watcher at or after the deadline in force leaves the job
    cancelled or about to be, by the task's own next step; dropping the guard cancels the job
    at once; and while the guard is held, a job is cancelled only after a poll at which the
    deadline then in force had passed - a deadline extended before that poll is honoured. *)
Theorem job_is_cancelled_at_its_deadline request_started ttl safety_margin events :
  let start := guard_new request_started ttl safety_margin in
  let self := watch_run start events in
  (forall now, (wt_deadline self <= now)%Z ->
     wt_cancelled (watch_step (watch_step self (Polled now)) Cancels) = true) /\
  wt_cancelled (watch_step self Dropped) = true /\
  (wt_guarded self = true -> wt_cancelled self = true ->
     exists before now after, events = before ++ Polled now :: after /\ (wt_deadline (watch_run start before) <= now)%Z) /\
  (forall e, wt_cancelled self = true -> wt_cancelled (watch_step self e) = true).
Proof.
  intros start self. pose proof (watch_run_watched request_started ttl safety_margin events) as Hw.
  cbv zeta in Hw. fold start self in Hw. pose proof Hw as [Ha Hd Hr He]. split_and!.
  - intros now Hnow. cbn [watch_step]. unfold watcher_poll.
    destruct (wt_task self) as [armed| |] eqn:Et.
    + rewrite (sleeps_until_deadline _ _ _ _ Hw Et). apply Z.leb_le in Hnow. rewrite Hnow. unfold watcher_cancel. cbn.
      destruct (wt_guarded self) eqn:Hg; cbn; [done|by apply Hd].
    + unfold watcher_cancel. by rewrite Et.
    + unfold watcher_cancel. rewrite Et. by apply Hr.
  - done.
  - intros Hg Hc. apply He; [done|by left].
  - intros e Hc. destruct e; cbn; [|done| |].
    + destruct (wt_guarded self); [|done]. unfold guard_rearm, send. destruct (expired _ _); [done|].
      by destruct (wt_task self).
    + unfold watcher_poll. by destruct (wt_task self).
    + unfold watcher_cancel. by destruct (wt_task self).
Qed.
